(* ===== verification/_CoqProject ===== *)
-Q . S2P
Prelude.v
Types.v
UserMem.v
Cred.v
CString.v
Printf.v
PrintfSpec.v
Pmm.v
Heap.v
Vmm.v
VmmRange.v
VmmUser.v
Mman.v
Pipe.v
Sched.v
Signal.v
SigFrame.v
VfsState.v
Forest.v
Ramfs.v
Vfs.v
VfsTree.v
VfsEdit.v
VfsOps.v
VfsRename.v
VfsNames.v
VfsPath.v
VfsKeep.v
File.v
FileRefs.v
Clock.v
Ring.v
Tty.v
TtyLine.v
TtyJobs.v
Keyboard.v
Fds.v
FdRefs.v
FsCalls.v
FsSafe.v
FsIo.v
FsIoOk.v
FsVec.v
FsDents.v
FsStat.v
Vga.v
VgaGrid.v
VgaOk.v
VgaProps.v
