(* ===== verification/Prelude.v ===== *)
(** * miviex: a verification development for the kernel

    miviex is a small 64-bit Unix-like kernel in C. System calls run to the
    end on one processor with interrupts off; only a sleep, or a timer tick in
    user mode, gives the processor to another process. The development models
    the kernel's data structures and system calls as executable functions and
    proves them correct. Sources are under src/src/kernel (below: kernel/) and
    src/include/kernel.

    ** How code is modelled

    A C function on the state of its component is [M S A] (this file): from a
    state it faults ([None]) or returns a result and a new state. A fault is a
    NULL or dangling pointer followed, an access outside an object, or another
    undefined behaviour, so every [wp m Q s] proved below also says that the
    code runs to its end without one; [upholds R m] says only that [m], where
    it returns, stays in the relation [R]. Integers are [Z] with the
    wrap-around of their C type written out ([u8] .. [u64], [s32], [s64]); an
    int that overflows in the terminal emulator is a fault ([as_int]), while
    the sum in lseek wraps. A pointer is a number, 0 for NULL. Errors are the
    negative numbers the code returns, or the left side of a sum. Calls that
    sleep are cut at the sleep and interleave as steps of a relation.

    Loops over counters run over [range]; walks along linked lists run on fuel
    that is the number of objects in the map they walk through, and their
    lemmas show that it suffices because lists have no duplicates. Other fuels
    are: the length of the string for string loops (CString, Printf), the
    pages below the hint (Mman), 40 links nested and the length of the path
    (Vfs), and count / 24 + 2 rounds for a directory listing, whose records
    take at least 24 bytes (FsIo). Theorems on these loops say that they
    return.

    ** Interfaces

    - [FrameAlloc] (Pmm): what the heap and the page tables ask of the frame
      allocator; the bitmap allocator is an instance.
    - [UserMem], [UserPages] (UserMem): what system calls ask of the memory
      manager; the active address space is an instance (VmmUser).
    - [Drivers], [DriversOk] (Vfs, VfsPath), [Devices] (FsIo): the functions
      behind an inode's pointers that belong to procfs, device files and
      sockets. They are arguments of the model; [DriversOk] says what path
      resolution asks of them, and an example instance has none of them.

    ** The parts

    - kernel/libc: CString (string.c), Printf and PrintfSpec (stdio.c,
      stdlib.c). Each function against its specification; PrintfSpec has the
      syntax of formats and the text they mean, which kvsnprintf prints, cut
      to the buffer; printed numbers read back.
    - kernel/mm/pmm.c: Pmm. The bitmap as the set of free frames: first fit,
      exact frees, and what initialisation makes available.
    - kernel/mm/memory.c: Heap. No sequence of allocations and frees faults or
      lets blocks overlap; nothing is lost when blocks merge.
    - kernel/mm/vmm.c, kernel/syscall/mman.c: Vmm (page tables), VmmRange
      (ranges), VmmUser (address spaces, copies, the check of user pointers),
      Mman (mmap, munmap, mprotect, brk).
    - kernel/proc: Sched (scheduler.c: the linked queues implement FIFO queues
      by priority), Signal and SigFrame (signal.c: sending, groups, sessions,
      delivery and the return from a handler), Cred (cred.c: permission
      checks, and no way for a process to gain an identity).
    - kernel/vfs: VfsState, Ramfs (ramfs.c), Vfs (vfs.c), then Forest,
      VfsTree, VfsEdit, VfsOps, VfsRename, VfsNames, VfsPath and VfsKeep: the
      tree of names is sound after every operation, directories change as
      finite maps from names to inodes, paths written lead back, resolution
      returns. Pipe (pipe.c: a FIFO under every interleaving). File and
      FileRefs (file.c: reference counts are true and the last close frees).
    - kernel/syscall/fs.c: Fds and FdRefs (descriptors), FsCalls and FsSafe
      (calls by path: safe for all arguments, and nothing but names and
      attributes changes), FsIo, then FsIoOk (what is written is read back,
      appending), FsVec (a vectored write is one write), FsDents
      (directory listings) and FsStat.
    - kernel/hal/clock.c, kernel/syscall/time.c: Clock. The calendar, the
      clocks, nanosleep.
    - kernel/drivers: Ring, Tty, TtyLine and TtyJobs (tty.c: the line
      discipline refines an abstract line editor; job control), Keyboard
      (keyboard.c: a line typed on a US keyboard comes out of a read).
    - kernel/video/vga.c: Vga, VgaGrid, VgaOk and VgaProps. The terminal
      emulator stays in its arrays and on the screen, wide characters
      included, exactly when a byte overflows no int ([harmless]) and pushes no
      wide character into the last column ([uncut]); text memory shows the
      cells.

    Types has the constants and structures they share. The file system calls
    act on [kern] (FsCalls), which holds the file systems, the caller's memory
    and the signals the caller sent itself. The scheduler's process table and
    the file systems are states of their own: a call that would touch both
    (exit, fork, execve) is not modelled, and the file systems see one current
    process, other processes' holds being the [other] and [ext] of the
    reference-count theorems.

    ** Hypotheses

    Theorems ask for the invariant of their component, and for bounds where
    the code relies on them: fewer than 2^32 references or names per inode,
    sleeps below 2^64 nanoseconds, kernel blocks whose addresses are not used
    twice (allocation may fail at any call). A directory listing asks for
    positions that rise along the children, as vfs.h says of them. Every
    theorem with hypotheses has a witness, a concrete state in which they hold.

    ** Not modelled

    - Assembly, port and register accesses (boot, gdt.c, idt.c, isr.c, pic.c,
      io.c, apic.c, power.c, the port side of pit.c, tty.c and keyboard.c):
      they have no meaning apart from the machine.
    - The order of initialisation (kernel.c, vfs_init, tty_init) and tables
      read at boot (acpi.c, multiboot.c, pci.c); the memory map is an argument
      of pmm_init.
    - exit, wait, fork, execve (kernel/syscall/proc.c, exec.c, parts of
      scheduler.c): they act on scheduler, address spaces and files together.
    - Sockets (socket.c), procfs.c, devfs.c, initramfs.c, mem.c, random.c,
      log.c, fb.c: behind the interfaces above, or on their own.
    - In fs.c ioctl, poll, mount, umount2 and statfs; the mount table itself is
      in Vfs.
    - Concurrency of several processors, which the kernel does not have. *)
From stdpp Require Export base tactics option list numbers fin_maps gmap strings.
From Stdlib Require Export ZArith Lia.

#[global] Open Scope Z_scope.

(** ** Machine integers

    C's unsigned integers are [Z] with the wrap-around written out. *)

Definition u8 (x : Z) : Z := x mod 2 ^ 8.
Definition u16 (x : Z) : Z := x mod 2 ^ 16.
Definition u32 (x : Z) : Z := x mod 2 ^ 32.
Definition u64 (x : Z) : Z := x mod 2 ^ 64.

(** Conversion to a signed 32- or 64-bit integer (two's complement). *)
Definition s8 (x : Z) : Z := (x + 2 ^ 7) mod 2 ^ 8 - 2 ^ 7.
Definition s32 (x : Z) : Z := (x + 2 ^ 31) mod 2 ^ 32 - 2 ^ 31.
Definition s64 (x : Z) : Z := (x + 2 ^ 63) mod 2 ^ 64 - 2 ^ 63.

(** The value of an [int] expression: overflow is undefined, a fault. *)
Definition as_int (x : Z) : option Z := if (- 2 ^ 31 <=? x) && (x <? 2 ^ 31) then Some x else None.

Lemma as_int_in x : - 2 ^ 31 <= x < 2 ^ 31 -> as_int x = Some x.
Proof. intros H. unfold as_int. by rewrite (proj2 (Z.leb_le _ _)), (proj2 (Z.ltb_lt _ _)) by lia. Qed.

Lemma as_int_out x : 2 ^ 31 <= x -> as_int x = None.
Proof. intros H. unfold as_int. by rewrite (proj2 (Z.ltb_ge _ _)), andb_false_r by lia. Qed.

Lemma u8_small x : 0 <= x < 2 ^ 8 -> u8 x = x.
Proof. apply Z.mod_small. Qed.

Lemma u16_small x : 0 <= x < 2 ^ 16 -> u16 x = x.
Proof. apply Z.mod_small. Qed.

Lemma u32_small x : 0 <= x < 2 ^ 32 -> u32 x = x.
Proof. apply Z.mod_small. Qed.

Lemma u64_small x : 0 <= x < 2 ^ 64 -> u64 x = x.
Proof. apply Z.mod_small. Qed.

Lemma s64_small x : 0 <= x < 2 ^ 63 -> s64 x = x.
Proof. intros Hx. unfold s64. rewrite Z.mod_small; lia. Qed.

Lemma u32_u64 x : u32 (u64 x) = u32 x.
Proof. unfold u32, u64. symmetry. apply Znumtheory.Zmod_div_mod; [lia|lia|]. by exists (2 ^ 32). Qed.

Lemma u8_bound x : 0 <= u8 x < 2 ^ 8.
Proof. apply Z.mod_pos_bound; lia. Qed.

Lemma u32_bound x : 0 <= u32 x < 2 ^ 32.
Proof. apply Z.mod_pos_bound; lia. Qed.

Lemma u64_bound x : 0 <= u64 x < 2 ^ 64.
Proof. apply Z.mod_pos_bound; lia. Qed.

(** Masking with [~(2^k - 1)] rounds a 64-bit value down to a multiple of [2^k]. *)
Lemma align_mask k x :
  0 <= k <= 64 -> 0 <= x < 2 ^ 64 -> Z.land x (u64 (Z.lnot (2 ^ k - 1))) = x - x mod 2 ^ k.
Proof.
  intros Hk Hx.
  assert (x - x mod 2 ^ k = Z.shiftl (Z.shiftr x k) k) as ->.
  { rewrite Z.shiftl_mul_pow2, Z.shiftr_div_pow2 by lia. pose proof (Z.div_mod x (2 ^ k)). lia. }
  replace (2 ^ k - 1) with (Z.ones k) by (rewrite Z.ones_equiv; lia).
  apply Z.bits_inj'. intros i Hi. rewrite Z.land_spec. unfold u64.
  destruct (Z.lt_ge_cases i 64).
  - rewrite Z.mod_pow2_bits_low, Z.lnot_spec by lia. destruct (Z.lt_ge_cases i k).
    + rewrite Z.ones_spec_low, Z.shiftl_spec_low by lia. apply andb_false_r.
    + rewrite Z.ones_spec_high, Z.shiftl_spec, Z.shiftr_spec by lia.
      replace (i - k + k) with i by lia. apply andb_true_r.
  - rewrite Z.mod_pow2_bits_high, andb_false_r by lia. rewrite Z.shiftl_spec, Z.shiftr_spec by lia.
    replace (i - k + k) with i by lia. symmetry. rewrite Z.testbit_eqb by lia. rewrite Z.div_small; [done|].
    split; [lia|]. apply Z.lt_le_trans with (2 ^ 64); [lia|]. apply Z.pow_le_mono_r; lia.
Qed.

(** ** Integer ranges: the index list of a counting loop *)

(** [for (i = lo; i < hi; i++)] runs over [range lo hi]. *)
Definition range (lo hi : Z) : list Z := seqZ lo (hi - lo).

Lemma range_nil lo hi : hi <= lo -> range lo hi = [].
Proof. intros; unfold range; apply seqZ_nil; lia. Qed.

Lemma range_cons lo hi : lo < hi -> range lo hi = lo :: range (lo + 1) hi.
Proof.
  intros; unfold range. rewrite seqZ_cons by lia.
  do 2 f_equal; lia.
Qed.

Lemma range_snoc lo hi : lo <= hi -> range lo (hi + 1) = range lo hi ++ [hi].
Proof.
  intros; unfold range.
  replace (hi + 1 - lo) with ((hi - lo) + 1) by lia.
  rewrite seqZ_app by lia. f_equal.
  rewrite seqZ_cons, seqZ_nil by lia. f_equal; lia.
Qed.

Lemma elem_of_range i lo hi : i ∈ range lo hi <-> lo <= i < hi.
Proof. unfold range; rewrite elem_of_seqZ; lia. Qed.

Lemma length_range lo hi : length (range lo hi) = Z.to_nat (hi - lo).
Proof. unfold range; apply length_seqZ. Qed.

(** ** Stateful code: state passing with faults

    A C function on a component's state is [M S A]: from a state it either
    faults ([None]: a NULL or out-of-bounds access, undefined behaviour) or
    returns a result and the new state. *)

Definition M (S A : Type) : Type := S -> option (A * S).

#[global] Instance M_ret S : MRet (M S) := fun A a s => Some (a, s).
#[global] Instance M_bind S : MBind (M S) := fun A B k m s =>
  match m s with Some (a, s') => k a s' | None => None end.

Section Monad.
  Context {S : Type}.

Definition fault {A} : M S A := fun _ => None.
Definition get : M S S := fun s => Some (s, s).
Definition gets {A} (f : S -> A) : M S A := fun s => Some (f s, s).
Definition modify (f : S -> S) : M S unit := fun s => Some (tt, f s).
Definition lift {A} (o : option A) : M S A := fun s => match o with Some a => Some (a, s) | None => None end.
Definition when (b : bool) (m : M S unit) : M S unit := if b then m else mret tt.

(** [for (x in l) body(x)] without an early exit. *)
Fixpoint for_each {A} (l : list A) (body : A -> M S unit) : M S unit :=
  match l with
  | [] => mret tt
  | x :: l' => _ ← body x; for_each l' body
  end.

(** The same with an early exit: the body answers whether to go on, the loop
    whether it ran to its end. *)
Fixpoint for_while {A} (l : list A) (body : A -> M S bool) : M S bool :=
  match l with
  | [] => mret true
  | x :: l' => b ← body x; if (b : bool) then for_while l' body else mret false
  end.
End Monad.

(** ** Total-correctness triples

    [wp m Q s]: from [s] the code does not fault, and [Q] holds of its result
    and final state. *)

Definition wp {S A} (m : M S A) (Q : A -> S -> Prop) (s : S) : Prop :=
  match m s with Some (a, s') => Q a s' | None => False end.

Section Wp.
  Context {S : Type}.
  Implicit Types s : S.

Lemma wp_ret {A} (a : A) Q s : Q a s -> wp (mret a) Q s.
Proof. done. Qed.

Lemma wp_bind {A B} (m : M S A) (k : A -> M S B) Q s :
  wp m (fun a => wp (k a) Q) s -> wp (m ≫= k) Q s.
Proof. unfold wp, mbind, M_bind. by destruct (m s) as [[a s']|]. Qed.

Lemma wp_get Q s : Q s s -> wp (get (S:=S)) Q s.
Proof. done. Qed.

Lemma wp_gets {A} (f : S -> A) Q s : Q (f s) s -> wp (gets f) Q s.
Proof. done. Qed.

Lemma wp_modify f Q s : Q tt (f s) -> wp (modify f) Q s.
Proof. done. Qed.

Lemma wp_lift {A} (o : option A) a Q s : o = Some a -> Q a s -> wp (lift o) Q s.
Proof. by intros ->. Qed.

Lemma wp_when b m Q s :
  (b = true -> wp m Q s) -> (b = false -> Q tt s) -> wp (when b m) Q s.
Proof. intros Ht Hf; destruct b; [by apply Ht|by apply Hf]. Qed.

Lemma wp_mono {A} (m : M S A) (P Q : A -> S -> Prop) s :
  wp m P s -> (forall a s', P a s' -> Q a s') -> wp m Q s.
Proof. unfold wp. destruct (m s) as [[a s']|]; auto. Qed.

(** The loop rule: an invariant over the part of the list already done. *)
Lemma wp_for_each {A} (I : list A -> S -> Prop) (l : list A) body (Q : unit -> S -> Prop) s :
  I [] s ->
  (forall done x todo s', l = done ++ x :: todo -> I done s' ->
     wp (body x) (fun _ => I (done ++ [x])) s') ->
  (forall s', I l s' -> Q tt s') ->
  wp (for_each l body) Q s.
Proof.
  intros H0 Hstep HQ.
  enough (forall done todo s', l = done ++ todo -> I done s' ->
            wp (for_each todo body) (fun _ => I l) s') as H.
  { eapply wp_mono; [by apply (H [] l)|]. by intros []. }
  intros done todo; revert done. induction todo as [|x todo IH]; intros done s' Hl HI; simpl.
  - rewrite app_nil_r in Hl; by subst.
  - apply wp_bind. eapply wp_mono; [by eapply Hstep|]. intros u s'' HI'.
    apply (IH (done ++ [x])); [by rewrite <- app_assoc|done].
Qed.

Lemma wp_for_while {A} (I : list A -> S -> Prop) (l : list A) body (Q : bool -> S -> Prop) s :
  I [] s ->
  (forall done x todo s', l = done ++ x :: todo -> I done s' ->
     wp (body x) (fun b s'' => if (b : bool) then I (done ++ [x]) s'' else Q false s'') s') ->
  (forall s', I l s' -> Q true s') ->
  wp (for_while l body) Q s.
Proof.
  intros H0 Hstep HQ.
  enough (forall done todo s', l = done ++ todo -> I done s' -> wp (for_while todo body) Q s') as H
    by (by apply (H [] l)).
  intros done todo; revert done. induction todo as [|x todo IH]; intros done s' Hl HI; simpl.
  - apply HQ. rewrite app_nil_r in Hl; by subst.
  - apply wp_bind. eapply wp_mono; [by eapply Hstep|]. intros [] s'' HI'; [|done].
    apply (IH (done ++ [x])); [by rewrite <- app_assoc|done].
Qed.

Lemma wp_run {A} (m : M S A) Q s : wp m Q s -> exists a s', m s = Some (a, s') /\ Q a s'.
Proof. unfold wp. destruct (m s) as [[a s']|]; [eauto|done]. Qed.

(** What is known of every run besides. *)
Lemma wp_with {A} (m : M S A) (P Q : A -> S -> Prop) s :
  wp m P s -> (forall a s', m s = Some (a, s') -> Q a s') -> wp m (fun a s' => Q a s' /\ P a s') s.
Proof. unfold wp. intros H HQ. destruct (m s) as [[a s']|]; [|done]. split; [by apply HQ|done]. Qed.

Lemma run_wp {A} (m : M S A) (Q : A -> S -> Prop) s a s' : m s = Some (a, s') -> Q a s' -> wp m Q s.
Proof. unfold wp. by intros ->. Qed.
End Wp.

(** ** What code does to the state, if it returns

    [upholds R m]: [m] relates the states before and after by [R]. *)

Definition upholds {S A} (R : relation S) (m : M S A) : Prop := forall s a s', m s = Some (a, s') -> R s s'.

Section Upholds.
  Context {S : Type} (R : relation S) `{!PreOrder R}.

Lemma upholds_ret {A} (a : A) : upholds R (mret a).
Proof. intros s x s' [= _ <-]. done. Qed.

Lemma upholds_fault {A} : upholds R (fault (A := A)).
Proof. by intros s x s'. Qed.

Lemma upholds_get : upholds R get.
Proof. intros s x s' [= _ <-]. done. Qed.

Lemma upholds_lift {A} (o : option A) : upholds R (lift o).
Proof. intros s x s'. unfold lift. destruct o; intros [= _ <-]. done. Qed.

Lemma upholds_modify f : (forall s, R s (f s)) -> upholds R (modify f).
Proof. intros H s x s' [= _ <-]. apply H. Qed.

Lemma upholds_bind {A B} (m : M S A) (k : A -> M S B) : upholds R m -> (forall a, upholds R (k a)) -> upholds R (m ≫= k).
Proof.
  intros Hm Hk s x s'. unfold mbind, M_bind. destruct (m s) as [[a s1]|] eqn:E; [|done]. intros E'.
  etrans; [by eapply Hm|by eapply Hk].
Qed.

Lemma upholds_when b m : upholds R m -> upholds R (when b m).
Proof. intros H. unfold when. destruct b; [done|apply upholds_ret]. Qed.

Lemma upholds_for_each {A} (l : list A) f : (forall x, x ∈ l -> upholds R (f x)) -> upholds R (for_each l f).
Proof.
  induction l as [|x l IH]; intros H; [apply upholds_ret|]. cbn [for_each]. apply upholds_bind; [apply H; set_solver|].
  intros _. apply IH. intros y Hy. apply H. set_solver.
Qed.
End Upholds.

Create HintDb upholds.

Ltac upholding :=
  repeat first [solve [auto with upholds] | apply (upholds_ret _) | apply (upholds_fault _) | apply (upholds_get _) | apply (upholds_lift _)
    | apply (upholds_when _) | apply upholds_modify; intros ?; done | apply (upholds_bind _); [|intros ?] | case_match].

Lemma bind_run {S A B} (m : M S A) (k : A -> M S B) s r : (m ≫= k) s = Some r -> exists a s1, m s = Some (a, s1) /\ k a s1 = Some r.
Proof. unfold mbind, M_bind. destruct (m s) as [[a s1]|]; [eauto|done]. Qed.

(** ** Acting on a part of the state *)

Definition zoom {S A B} (view : S -> A) (put : A -> S -> S) (m : M A B) : M S B := fun s =>
  match m (view s) with Some (b, a) => Some (b, put a s) | None => None end.

Lemma wp_zoom {S A B} (view : S -> A) (put : A -> S -> S) (m : M A B) (Q : B -> S -> Prop) s :
  wp m (fun b a => Q b (put a s)) (view s) -> wp (zoom view put m) Q s.
Proof. unfold wp, zoom. by destruct (m (view s)) as [[b a]|]. Qed.

(** One symbolic step of a [wp] goal. *)
Ltac wp_step :=
  lazymatch goal with
  | |- wp (mbind _ _) _ _ => apply wp_bind
  | |- wp (mret _) _ _ => apply wp_ret
  | |- wp get _ _ => apply wp_get
  | |- wp (gets _) _ _ => apply wp_gets
  | |- wp (modify _) _ _ => apply wp_modify
  | |- wp (when _ _) _ _ => apply wp_when; intros
  | |- wp (zoom _ _ _) _ _ => apply wp_zoom
  end; cbv beta.
Ltac wp_steps := repeat wp_step.

(** Linear arithmetic with division and remainder by constants. *)
Ltac lia_div := Z.to_euclidean_division_equations; lia.
