(* ===== verification/Types.v ===== *)
(** * Shared data: errno.h, fcntl.h, vfs.h, cred.h, signal.h, process.h

    The constants and structures several components use. A pointer to a
    kernel object is its number in the map of objects of its kind, 0 for
    NULL. Character arrays that hold names are strings, file contents lists of
    bytes. A function pointer of an inode is the driver that provides the
    function, or [None] for NULL. *)
From S2P Require Import Prelude.

(** ** errno.h *)

Notation EPERM := 1 (only parsing).
Notation ENOENT := 2 (only parsing).
Notation ESRCH := 3 (only parsing).
Notation EINTR := 4 (only parsing).
Notation EIO := 5 (only parsing).
Notation ENXIO := 6 (only parsing).
Notation E2BIG := 7 (only parsing).
Notation ENOEXEC := 8 (only parsing).
Notation EBADF := 9 (only parsing).
Notation ECHILD := 10 (only parsing).
Notation EAGAIN := 11 (only parsing).
Notation ENOMEM := 12 (only parsing).
Notation EACCES := 13 (only parsing).
Notation ENOTTY := 25 (only parsing).
Notation ESPIPE := 29 (only parsing).
Notation EROFS := 30 (only parsing).
Notation EPIPE := 32 (only parsing).
Notation ERANGE := 34 (only parsing).
Notation EFAULT := 14 (only parsing).
Notation EBUSY := 16 (only parsing).
Notation EEXIST := 17 (only parsing).
Notation EXDEV := 18 (only parsing).
Notation ENODEV := 19 (only parsing).
Notation ENOTDIR := 20 (only parsing).
Notation EISDIR := 21 (only parsing).
Notation EMFILE := 24 (only parsing).
Notation EINVAL := 22 (only parsing).
Notation ENAMETOOLONG := 36 (only parsing).
Notation ENOSYS := 38 (only parsing).
Notation ENOTEMPTY := 39 (only parsing).
Notation ELOOP := 40 (only parsing).
Notation ENOTSOCK := 88 (only parsing).
Notation EDESTADDRREQ := 89 (only parsing).
Notation EMSGSIZE := 90 (only parsing).
Notation EPROTOTYPE := 91 (only parsing).
Notation ENOPROTOOPT := 92 (only parsing).
Notation EPROTONOSUPPORT := 93 (only parsing).
Notation ESOCKTNOSUPPORT := 94 (only parsing).
Notation EOPNOTSUPP := 95 (only parsing).
Notation EAFNOSUPPORT := 97 (only parsing).
Notation EADDRINUSE := 98 (only parsing).
Notation ECONNRESET := 104 (only parsing).
Notation EISCONN := 106 (only parsing).
Notation ENOTCONN := 107 (only parsing).
Notation ECONNREFUSED := 111 (only parsing).
Notation ERESTARTSYS := 512 (only parsing).

(** ** fcntl.h *)

Notation O_ACCMODE := 3 (only parsing).
Notation O_RDONLY := 0 (only parsing).
Notation O_WRONLY := 1 (only parsing).
Notation O_RDWR := 2 (only parsing).
Notation O_CREAT := 64 (only parsing).
Notation O_EXCL := 128 (only parsing).
Notation O_TRUNC := 512 (only parsing).
Notation O_APPEND := 1024 (only parsing).
Notation O_NONBLOCK := 2048 (only parsing).
Notation O_DIRECTORY := 65536 (only parsing).
Notation O_NOFOLLOW := 131072 (only parsing).
Notation O_CLOEXEC := 524288 (only parsing).
Notation F_DUPFD := 0 (only parsing).
Notation F_GETFD := 1 (only parsing).
Notation F_SETFD := 2 (only parsing).
Notation F_GETFL := 3 (only parsing).
Notation F_SETFL := 4 (only parsing).
Notation F_DUPFD_CLOEXEC := 1030 (only parsing).
Notation FD_CLOEXEC := 1 (only parsing).
Notation AT_FDCWD := (-100) (only parsing).
Notation AT_EMPTY_PATH := 4096 (only parsing).
Notation AT_SYMLINK_NOFOLLOW := 256 (only parsing).
Notation SEEK_SET := 0 (only parsing).
Notation SEEK_CUR := 1 (only parsing).
Notation SEEK_END := 2 (only parsing).

(** ** vfs.h, cred.h *)

Notation VFS_FILE := 1 (only parsing).
Notation VFS_DIRECTORY := 2 (only parsing).
Notation VFS_CHARDEVICE := 3 (only parsing).
Notation VFS_BLOCKDEVICE := 4 (only parsing).
Notation VFS_PIPE := 5 (only parsing).
Notation VFS_SYMLINK := 6 (only parsing).
Notation VFS_SOCKET := 7 (only parsing).
Notation VFS_TYPE := 7 (only parsing).
Notation NAME_MAX := 127 (only parsing).
Notation MS_RDONLY := 1 (only parsing).
Notation MS_REMOUNT := 32 (only parsing).
Notation VFS_ATIME := 1 (only parsing).
Notation VFS_MTIME := 2 (only parsing).
Notation VFS_CTIME := 4 (only parsing).
Notation POLLIN := 1 (only parsing).
Notation POLLPRI := 2 (only parsing).
Notation POLLOUT := 4 (only parsing).
Notation POLLERR := 8 (only parsing).
Notation POLLHUP := 16 (only parsing).
Notation POLLNVAL := 32 (only parsing).
Notation NGROUPS_MAX := 32 (only parsing).
Notation MAY_EXEC := 1 (only parsing).
Notation MAY_WRITE := 2 (only parsing).
Notation MAY_READ := 4 (only parsing).
Notation S_ISUID := 2048 (only parsing). (* 04000 *)
Notation S_ISGID := 1024 (only parsing). (* 02000 *)
Notation S_ISVTX := 512 (only parsing). (* 01000 *)

(** ** Drivers and private data of an inode *)

Inductive driver := DRamfs | DPipe | DDentry | DDevice (n : Z) | DProcfs | DSocket.

(** ramfs_file_data_t: [None] data is the NULL pointer. *)
Record ramfs_data := MkData { fd_data : option (list Z); fd_size : Z; fd_capacity : Z }.

(** [void *ptr]: a directory's dentry, a ramfs file's data, a driver's own. *)
Inductive iptr := PNull | PDentry (d : Z) | PData (f : ramfs_data) | PDriver (n : Z).

Record inode := MkInode {
  i_name : string;
  i_flags : Z;
  i_ino : Z;
  i_length : Z;
  i_mode : Z;
  i_uid : Z;
  i_gid : Z;
  i_nlink : Z;
  i_refs : Z;
  i_dev : Z;
  i_rdev : Z;
  i_atime : Z;
  i_mtime : Z;
  i_ctime : Z;
  i_read : option driver;
  i_write : option driver;
  i_finddir : option driver;
  i_create : option driver;
  i_truncate : option driver;
  i_ioctl : option driver;
  i_release : option driver;
  i_destroy : option driver;
  i_poll : option driver;
  i_open : option driver;
  i_readdir : option driver;
  i_ptr : iptr;
}.

Definition set_i_name (v : string) (r : inode) : inode := MkInode v (i_flags r) (i_ino r) (i_length r) (i_mode r) (i_uid r) (i_gid r) (i_nlink r) (i_refs r) (i_dev r) (i_rdev r) (i_atime r) (i_mtime r) (i_ctime r) (i_read r) (i_write r) (i_finddir r) (i_create r) (i_truncate r) (i_ioctl r) (i_release r) (i_destroy r) (i_poll r) (i_open r) (i_readdir r) (i_ptr r).
Definition set_i_flags (v : Z) (r : inode) : inode := MkInode (i_name r) v (i_ino r) (i_length r) (i_mode r) (i_uid r) (i_gid r) (i_nlink r) (i_refs r) (i_dev r) (i_rdev r) (i_atime r) (i_mtime r) (i_ctime r) (i_read r) (i_write r) (i_finddir r) (i_create r) (i_truncate r) (i_ioctl r) (i_release r) (i_destroy r) (i_poll r) (i_open r) (i_readdir r) (i_ptr r).
Definition set_i_ino (v : Z) (r : inode) : inode := MkInode (i_name r) (i_flags r) v (i_length r) (i_mode r) (i_uid r) (i_gid r) (i_nlink r) (i_refs r) (i_dev r) (i_rdev r) (i_atime r) (i_mtime r) (i_ctime r) (i_read r) (i_write r) (i_finddir r) (i_create r) (i_truncate r) (i_ioctl r) (i_release r) (i_destroy r) (i_poll r) (i_open r) (i_readdir r) (i_ptr r).
Definition set_i_length (v : Z) (r : inode) : inode := MkInode (i_name r) (i_flags r) (i_ino r) v (i_mode r) (i_uid r) (i_gid r) (i_nlink r) (i_refs r) (i_dev r) (i_rdev r) (i_atime r) (i_mtime r) (i_ctime r) (i_read r) (i_write r) (i_finddir r) (i_create r) (i_truncate r) (i_ioctl r) (i_release r) (i_destroy r) (i_poll r) (i_open r) (i_readdir r) (i_ptr r).
Definition set_i_mode (v : Z) (r : inode) : inode := MkInode (i_name r) (i_flags r) (i_ino r) (i_length r) v (i_uid r) (i_gid r) (i_nlink r) (i_refs r) (i_dev r) (i_rdev r) (i_atime r) (i_mtime r) (i_ctime r) (i_read r) (i_write r) (i_finddir r) (i_create r) (i_truncate r) (i_ioctl r) (i_release r) (i_destroy r) (i_poll r) (i_open r) (i_readdir r) (i_ptr r).
Definition set_i_uid (v : Z) (r : inode) : inode := MkInode (i_name r) (i_flags r) (i_ino r) (i_length r) (i_mode r) v (i_gid r) (i_nlink r) (i_refs r) (i_dev r) (i_rdev r) (i_atime r) (i_mtime r) (i_ctime r) (i_read r) (i_write r) (i_finddir r) (i_create r) (i_truncate r) (i_ioctl r) (i_release r) (i_destroy r) (i_poll r) (i_open r) (i_readdir r) (i_ptr r).
Definition set_i_gid (v : Z) (r : inode) : inode := MkInode (i_name r) (i_flags r) (i_ino r) (i_length r) (i_mode r) (i_uid r) v (i_nlink r) (i_refs r) (i_dev r) (i_rdev r) (i_atime r) (i_mtime r) (i_ctime r) (i_read r) (i_write r) (i_finddir r) (i_create r) (i_truncate r) (i_ioctl r) (i_release r) (i_destroy r) (i_poll r) (i_open r) (i_readdir r) (i_ptr r).
Definition set_i_nlink (v : Z) (r : inode) : inode := MkInode (i_name r) (i_flags r) (i_ino r) (i_length r) (i_mode r) (i_uid r) (i_gid r) v (i_refs r) (i_dev r) (i_rdev r) (i_atime r) (i_mtime r) (i_ctime r) (i_read r) (i_write r) (i_finddir r) (i_create r) (i_truncate r) (i_ioctl r) (i_release r) (i_destroy r) (i_poll r) (i_open r) (i_readdir r) (i_ptr r).
Definition set_i_refs (v : Z) (r : inode) : inode := MkInode (i_name r) (i_flags r) (i_ino r) (i_length r) (i_mode r) (i_uid r) (i_gid r) (i_nlink r) v (i_dev r) (i_rdev r) (i_atime r) (i_mtime r) (i_ctime r) (i_read r) (i_write r) (i_finddir r) (i_create r) (i_truncate r) (i_ioctl r) (i_release r) (i_destroy r) (i_poll r) (i_open r) (i_readdir r) (i_ptr r).
Definition set_i_dev (v : Z) (r : inode) : inode := MkInode (i_name r) (i_flags r) (i_ino r) (i_length r) (i_mode r) (i_uid r) (i_gid r) (i_nlink r) (i_refs r) v (i_rdev r) (i_atime r) (i_mtime r) (i_ctime r) (i_read r) (i_write r) (i_finddir r) (i_create r) (i_truncate r) (i_ioctl r) (i_release r) (i_destroy r) (i_poll r) (i_open r) (i_readdir r) (i_ptr r).
Definition set_i_rdev (v : Z) (r : inode) : inode := MkInode (i_name r) (i_flags r) (i_ino r) (i_length r) (i_mode r) (i_uid r) (i_gid r) (i_nlink r) (i_refs r) (i_dev r) v (i_atime r) (i_mtime r) (i_ctime r) (i_read r) (i_write r) (i_finddir r) (i_create r) (i_truncate r) (i_ioctl r) (i_release r) (i_destroy r) (i_poll r) (i_open r) (i_readdir r) (i_ptr r).
Definition set_i_atime (v : Z) (r : inode) : inode := MkInode (i_name r) (i_flags r) (i_ino r) (i_length r) (i_mode r) (i_uid r) (i_gid r) (i_nlink r) (i_refs r) (i_dev r) (i_rdev r) v (i_mtime r) (i_ctime r) (i_read r) (i_write r) (i_finddir r) (i_create r) (i_truncate r) (i_ioctl r) (i_release r) (i_destroy r) (i_poll r) (i_open r) (i_readdir r) (i_ptr r).
Definition set_i_mtime (v : Z) (r : inode) : inode := MkInode (i_name r) (i_flags r) (i_ino r) (i_length r) (i_mode r) (i_uid r) (i_gid r) (i_nlink r) (i_refs r) (i_dev r) (i_rdev r) (i_atime r) v (i_ctime r) (i_read r) (i_write r) (i_finddir r) (i_create r) (i_truncate r) (i_ioctl r) (i_release r) (i_destroy r) (i_poll r) (i_open r) (i_readdir r) (i_ptr r).
Definition set_i_ctime (v : Z) (r : inode) : inode := MkInode (i_name r) (i_flags r) (i_ino r) (i_length r) (i_mode r) (i_uid r) (i_gid r) (i_nlink r) (i_refs r) (i_dev r) (i_rdev r) (i_atime r) (i_mtime r) v (i_read r) (i_write r) (i_finddir r) (i_create r) (i_truncate r) (i_ioctl r) (i_release r) (i_destroy r) (i_poll r) (i_open r) (i_readdir r) (i_ptr r).
Definition set_i_read (v : option driver) (r : inode) : inode := MkInode (i_name r) (i_flags r) (i_ino r) (i_length r) (i_mode r) (i_uid r) (i_gid r) (i_nlink r) (i_refs r) (i_dev r) (i_rdev r) (i_atime r) (i_mtime r) (i_ctime r) v (i_write r) (i_finddir r) (i_create r) (i_truncate r) (i_ioctl r) (i_release r) (i_destroy r) (i_poll r) (i_open r) (i_readdir r) (i_ptr r).
Definition set_i_write (v : option driver) (r : inode) : inode := MkInode (i_name r) (i_flags r) (i_ino r) (i_length r) (i_mode r) (i_uid r) (i_gid r) (i_nlink r) (i_refs r) (i_dev r) (i_rdev r) (i_atime r) (i_mtime r) (i_ctime r) (i_read r) v (i_finddir r) (i_create r) (i_truncate r) (i_ioctl r) (i_release r) (i_destroy r) (i_poll r) (i_open r) (i_readdir r) (i_ptr r).
Definition set_i_finddir (v : option driver) (r : inode) : inode := MkInode (i_name r) (i_flags r) (i_ino r) (i_length r) (i_mode r) (i_uid r) (i_gid r) (i_nlink r) (i_refs r) (i_dev r) (i_rdev r) (i_atime r) (i_mtime r) (i_ctime r) (i_read r) (i_write r) v (i_create r) (i_truncate r) (i_ioctl r) (i_release r) (i_destroy r) (i_poll r) (i_open r) (i_readdir r) (i_ptr r).
Definition set_i_create (v : option driver) (r : inode) : inode := MkInode (i_name r) (i_flags r) (i_ino r) (i_length r) (i_mode r) (i_uid r) (i_gid r) (i_nlink r) (i_refs r) (i_dev r) (i_rdev r) (i_atime r) (i_mtime r) (i_ctime r) (i_read r) (i_write r) (i_finddir r) v (i_truncate r) (i_ioctl r) (i_release r) (i_destroy r) (i_poll r) (i_open r) (i_readdir r) (i_ptr r).
Definition set_i_truncate (v : option driver) (r : inode) : inode := MkInode (i_name r) (i_flags r) (i_ino r) (i_length r) (i_mode r) (i_uid r) (i_gid r) (i_nlink r) (i_refs r) (i_dev r) (i_rdev r) (i_atime r) (i_mtime r) (i_ctime r) (i_read r) (i_write r) (i_finddir r) (i_create r) v (i_ioctl r) (i_release r) (i_destroy r) (i_poll r) (i_open r) (i_readdir r) (i_ptr r).
Definition set_i_ioctl (v : option driver) (r : inode) : inode := MkInode (i_name r) (i_flags r) (i_ino r) (i_length r) (i_mode r) (i_uid r) (i_gid r) (i_nlink r) (i_refs r) (i_dev r) (i_rdev r) (i_atime r) (i_mtime r) (i_ctime r) (i_read r) (i_write r) (i_finddir r) (i_create r) (i_truncate r) v (i_release r) (i_destroy r) (i_poll r) (i_open r) (i_readdir r) (i_ptr r).
Definition set_i_release (v : option driver) (r : inode) : inode := MkInode (i_name r) (i_flags r) (i_ino r) (i_length r) (i_mode r) (i_uid r) (i_gid r) (i_nlink r) (i_refs r) (i_dev r) (i_rdev r) (i_atime r) (i_mtime r) (i_ctime r) (i_read r) (i_write r) (i_finddir r) (i_create r) (i_truncate r) (i_ioctl r) v (i_destroy r) (i_poll r) (i_open r) (i_readdir r) (i_ptr r).
Definition set_i_destroy (v : option driver) (r : inode) : inode := MkInode (i_name r) (i_flags r) (i_ino r) (i_length r) (i_mode r) (i_uid r) (i_gid r) (i_nlink r) (i_refs r) (i_dev r) (i_rdev r) (i_atime r) (i_mtime r) (i_ctime r) (i_read r) (i_write r) (i_finddir r) (i_create r) (i_truncate r) (i_ioctl r) (i_release r) v (i_poll r) (i_open r) (i_readdir r) (i_ptr r).
Definition set_i_poll (v : option driver) (r : inode) : inode := MkInode (i_name r) (i_flags r) (i_ino r) (i_length r) (i_mode r) (i_uid r) (i_gid r) (i_nlink r) (i_refs r) (i_dev r) (i_rdev r) (i_atime r) (i_mtime r) (i_ctime r) (i_read r) (i_write r) (i_finddir r) (i_create r) (i_truncate r) (i_ioctl r) (i_release r) (i_destroy r) v (i_open r) (i_readdir r) (i_ptr r).
Definition set_i_open (v : option driver) (r : inode) : inode := MkInode (i_name r) (i_flags r) (i_ino r) (i_length r) (i_mode r) (i_uid r) (i_gid r) (i_nlink r) (i_refs r) (i_dev r) (i_rdev r) (i_atime r) (i_mtime r) (i_ctime r) (i_read r) (i_write r) (i_finddir r) (i_create r) (i_truncate r) (i_ioctl r) (i_release r) (i_destroy r) (i_poll r) v (i_readdir r) (i_ptr r).
Definition set_i_readdir (v : option driver) (r : inode) : inode := MkInode (i_name r) (i_flags r) (i_ino r) (i_length r) (i_mode r) (i_uid r) (i_gid r) (i_nlink r) (i_refs r) (i_dev r) (i_rdev r) (i_atime r) (i_mtime r) (i_ctime r) (i_read r) (i_write r) (i_finddir r) (i_create r) (i_truncate r) (i_ioctl r) (i_release r) (i_destroy r) (i_poll r) (i_open r) v (i_ptr r).
Definition set_i_ptr (v : iptr) (r : inode) : inode := MkInode (i_name r) (i_flags r) (i_ino r) (i_length r) (i_mode r) (i_uid r) (i_gid r) (i_nlink r) (i_refs r) (i_dev r) (i_rdev r) (i_atime r) (i_mtime r) (i_ctime r) (i_read r) (i_write r) (i_finddir r) (i_create r) (i_truncate r) (i_ioctl r) (i_release r) (i_destroy r) (i_poll r) (i_open r) (i_readdir r) v.

Record dentry := MkDentry {
  d_name : string;
  d_inode : Z;
  d_parent : Z;
  d_first_child : Z;
  d_next_sibling : Z;
  d_seq : Z;
}.

Definition set_d_name (v : string) (r : dentry) : dentry := MkDentry v (d_inode r) (d_parent r) (d_first_child r) (d_next_sibling r) (d_seq r).
Definition set_d_inode (v : Z) (r : dentry) : dentry := MkDentry (d_name r) v (d_parent r) (d_first_child r) (d_next_sibling r) (d_seq r).
Definition set_d_parent (v : Z) (r : dentry) : dentry := MkDentry (d_name r) (d_inode r) v (d_first_child r) (d_next_sibling r) (d_seq r).
Definition set_d_first_child (v : Z) (r : dentry) : dentry := MkDentry (d_name r) (d_inode r) (d_parent r) v (d_next_sibling r) (d_seq r).
Definition set_d_next_sibling (v : Z) (r : dentry) : dentry := MkDentry (d_name r) (d_inode r) (d_parent r) (d_first_child r) v (d_seq r).
Definition set_d_seq (v : Z) (r : dentry) : dentry := MkDentry (d_name r) (d_inode r) (d_parent r) (d_first_child r) (d_next_sibling r) v.

Record file := MkFile {
  f_inode : Z;
  f_path : option string;
  f_offset : Z;
  f_flags : Z;
  f_refs : Z;
}.

Definition set_f_inode (v : Z) (r : file) : file := MkFile v (f_path r) (f_offset r) (f_flags r) (f_refs r).
Definition set_f_path (v : option string) (r : file) : file := MkFile (f_inode r) v (f_offset r) (f_flags r) (f_refs r).
Definition set_f_offset (v : Z) (r : file) : file := MkFile (f_inode r) (f_path r) v (f_flags r) (f_refs r).
Definition set_f_flags (v : Z) (r : file) : file := MkFile (f_inode r) (f_path r) (f_offset r) v (f_refs r).
Definition set_f_refs (v : Z) (r : file) : file := MkFile (f_inode r) (f_path r) (f_offset r) (f_flags r) v.

Definition zero_inode : inode :=
  MkInode "" 0 0 0 0 0 0 0 0 0 0 0 0 0 None None None None None None None None None None None PNull.
Definition zero_dentry : dentry := MkDentry "" 0 0 0 0 0.

(** ** process.h, signal.h *)

Definition NUM_SCHED_QUEUES : Z := 16.
Notation MAX_FDS := 64 (only parsing).
Notation PRIO_USER := 8 (only parsing).
Notation PRIO_IDLE := (NUM_SCHED_QUEUES - 1) (only parsing).
Definition NSIG : Z := 64.

Inductive process_state := PROCESS_RUNNING | PROCESS_READY | PROCESS_BLOCKED | PROCESS_TERMINATED.

#[global] Instance process_state_eq_dec : EqDecision process_state.
Proof. solve_decision. Defined.

Definition state_eqb (x y : process_state) : bool := bool_decide (x = y).

Record k_sigaction := MkAction {
  sa_handler : Z;
  sa_flags : Z;
  sa_restorer : Z;
  sa_mask : Z;
}.

Definition set_sa_handler (v : Z) (r : k_sigaction) : k_sigaction := MkAction v (sa_flags r) (sa_restorer r) (sa_mask r).
Definition set_sa_flags (v : Z) (r : k_sigaction) : k_sigaction := MkAction (sa_handler r) v (sa_restorer r) (sa_mask r).
Definition set_sa_restorer (v : Z) (r : k_sigaction) : k_sigaction := MkAction (sa_handler r) (sa_flags r) v (sa_mask r).
Definition set_sa_mask (v : Z) (r : k_sigaction) : k_sigaction := MkAction (sa_handler r) (sa_flags r) (sa_restorer r) v.

(** process_t. [groups] holds the [ngroups] valid entries; the kernel stack,
    the entry point and the FPU image are left to the machine. *)
Record process := MkProcess {
  pid : Z;
  ppid : Z;
  uid : Z;
  euid : Z;
  suid : Z;
  gid : Z;
  egid : Z;
  sgid : Z;
  groups : list Z;
  pgid : Z;
  sid : Z;
  ctty : Z;
  state : process_state;
  exit_status : Z;
  wait_chan : Z;
  priority : Z;
  quantum : Z;
  ticks_left : Z;
  cpu_ticks : Z;
  child_ticks : Z;
  start_ticks : Z;
  comm : string;
  exe : option string;
  arg_start : Z;
  arg_end : Z;
  is_user : bool;
  user_entry : Z;
  user_stack_top : Z;
  p_as : Z;
  fs_base : Z;
  fds : list Z;
  cloexec : list bool;
  cwd : Z;
  umask : Z;
  rlim : list (Z * Z);
  sigact : list k_sigaction;
  sig_pending : Z;
  sig_blocked : Z;
  sig_saved : Z;
  sig_restore : bool;
  p_next : Z;
  p_prev : Z;
  all_next : Z;
}.

Definition set_pid (v : Z) (r : process) : process := MkProcess v (ppid r) (uid r) (euid r) (suid r) (gid r) (egid r) (sgid r) (groups r) (pgid r) (sid r) (ctty r) (state r) (exit_status r) (wait_chan r) (priority r) (quantum r) (ticks_left r) (cpu_ticks r) (child_ticks r) (start_ticks r) (comm r) (exe r) (arg_start r) (arg_end r) (is_user r) (user_entry r) (user_stack_top r) (p_as r) (fs_base r) (fds r) (cloexec r) (cwd r) (umask r) (rlim r) (sigact r) (sig_pending r) (sig_blocked r) (sig_saved r) (sig_restore r) (p_next r) (p_prev r) (all_next r).
Definition set_ppid (v : Z) (r : process) : process := MkProcess (pid r) v (uid r) (euid r) (suid r) (gid r) (egid r) (sgid r) (groups r) (pgid r) (sid r) (ctty r) (state r) (exit_status r) (wait_chan r) (priority r) (quantum r) (ticks_left r) (cpu_ticks r) (child_ticks r) (start_ticks r) (comm r) (exe r) (arg_start r) (arg_end r) (is_user r) (user_entry r) (user_stack_top r) (p_as r) (fs_base r) (fds r) (cloexec r) (cwd r) (umask r) (rlim r) (sigact r) (sig_pending r) (sig_blocked r) (sig_saved r) (sig_restore r) (p_next r) (p_prev r) (all_next r).
Definition set_uid (v : Z) (r : process) : process := MkProcess (pid r) (ppid r) v (euid r) (suid r) (gid r) (egid r) (sgid r) (groups r) (pgid r) (sid r) (ctty r) (state r) (exit_status r) (wait_chan r) (priority r) (quantum r) (ticks_left r) (cpu_ticks r) (child_ticks r) (start_ticks r) (comm r) (exe r) (arg_start r) (arg_end r) (is_user r) (user_entry r) (user_stack_top r) (p_as r) (fs_base r) (fds r) (cloexec r) (cwd r) (umask r) (rlim r) (sigact r) (sig_pending r) (sig_blocked r) (sig_saved r) (sig_restore r) (p_next r) (p_prev r) (all_next r).
Definition set_euid (v : Z) (r : process) : process := MkProcess (pid r) (ppid r) (uid r) v (suid r) (gid r) (egid r) (sgid r) (groups r) (pgid r) (sid r) (ctty r) (state r) (exit_status r) (wait_chan r) (priority r) (quantum r) (ticks_left r) (cpu_ticks r) (child_ticks r) (start_ticks r) (comm r) (exe r) (arg_start r) (arg_end r) (is_user r) (user_entry r) (user_stack_top r) (p_as r) (fs_base r) (fds r) (cloexec r) (cwd r) (umask r) (rlim r) (sigact r) (sig_pending r) (sig_blocked r) (sig_saved r) (sig_restore r) (p_next r) (p_prev r) (all_next r).
Definition set_suid (v : Z) (r : process) : process := MkProcess (pid r) (ppid r) (uid r) (euid r) v (gid r) (egid r) (sgid r) (groups r) (pgid r) (sid r) (ctty r) (state r) (exit_status r) (wait_chan r) (priority r) (quantum r) (ticks_left r) (cpu_ticks r) (child_ticks r) (start_ticks r) (comm r) (exe r) (arg_start r) (arg_end r) (is_user r) (user_entry r) (user_stack_top r) (p_as r) (fs_base r) (fds r) (cloexec r) (cwd r) (umask r) (rlim r) (sigact r) (sig_pending r) (sig_blocked r) (sig_saved r) (sig_restore r) (p_next r) (p_prev r) (all_next r).
Definition set_gid (v : Z) (r : process) : process := MkProcess (pid r) (ppid r) (uid r) (euid r) (suid r) v (egid r) (sgid r) (groups r) (pgid r) (sid r) (ctty r) (state r) (exit_status r) (wait_chan r) (priority r) (quantum r) (ticks_left r) (cpu_ticks r) (child_ticks r) (start_ticks r) (comm r) (exe r) (arg_start r) (arg_end r) (is_user r) (user_entry r) (user_stack_top r) (p_as r) (fs_base r) (fds r) (cloexec r) (cwd r) (umask r) (rlim r) (sigact r) (sig_pending r) (sig_blocked r) (sig_saved r) (sig_restore r) (p_next r) (p_prev r) (all_next r).
Definition set_egid (v : Z) (r : process) : process := MkProcess (pid r) (ppid r) (uid r) (euid r) (suid r) (gid r) v (sgid r) (groups r) (pgid r) (sid r) (ctty r) (state r) (exit_status r) (wait_chan r) (priority r) (quantum r) (ticks_left r) (cpu_ticks r) (child_ticks r) (start_ticks r) (comm r) (exe r) (arg_start r) (arg_end r) (is_user r) (user_entry r) (user_stack_top r) (p_as r) (fs_base r) (fds r) (cloexec r) (cwd r) (umask r) (rlim r) (sigact r) (sig_pending r) (sig_blocked r) (sig_saved r) (sig_restore r) (p_next r) (p_prev r) (all_next r).
Definition set_sgid (v : Z) (r : process) : process := MkProcess (pid r) (ppid r) (uid r) (euid r) (suid r) (gid r) (egid r) v (groups r) (pgid r) (sid r) (ctty r) (state r) (exit_status r) (wait_chan r) (priority r) (quantum r) (ticks_left r) (cpu_ticks r) (child_ticks r) (start_ticks r) (comm r) (exe r) (arg_start r) (arg_end r) (is_user r) (user_entry r) (user_stack_top r) (p_as r) (fs_base r) (fds r) (cloexec r) (cwd r) (umask r) (rlim r) (sigact r) (sig_pending r) (sig_blocked r) (sig_saved r) (sig_restore r) (p_next r) (p_prev r) (all_next r).
Definition set_groups (v : list Z) (r : process) : process := MkProcess (pid r) (ppid r) (uid r) (euid r) (suid r) (gid r) (egid r) (sgid r) v (pgid r) (sid r) (ctty r) (state r) (exit_status r) (wait_chan r) (priority r) (quantum r) (ticks_left r) (cpu_ticks r) (child_ticks r) (start_ticks r) (comm r) (exe r) (arg_start r) (arg_end r) (is_user r) (user_entry r) (user_stack_top r) (p_as r) (fs_base r) (fds r) (cloexec r) (cwd r) (umask r) (rlim r) (sigact r) (sig_pending r) (sig_blocked r) (sig_saved r) (sig_restore r) (p_next r) (p_prev r) (all_next r).
Definition set_pgid (v : Z) (r : process) : process := MkProcess (pid r) (ppid r) (uid r) (euid r) (suid r) (gid r) (egid r) (sgid r) (groups r) v (sid r) (ctty r) (state r) (exit_status r) (wait_chan r) (priority r) (quantum r) (ticks_left r) (cpu_ticks r) (child_ticks r) (start_ticks r) (comm r) (exe r) (arg_start r) (arg_end r) (is_user r) (user_entry r) (user_stack_top r) (p_as r) (fs_base r) (fds r) (cloexec r) (cwd r) (umask r) (rlim r) (sigact r) (sig_pending r) (sig_blocked r) (sig_saved r) (sig_restore r) (p_next r) (p_prev r) (all_next r).
Definition set_sid (v : Z) (r : process) : process := MkProcess (pid r) (ppid r) (uid r) (euid r) (suid r) (gid r) (egid r) (sgid r) (groups r) (pgid r) v (ctty r) (state r) (exit_status r) (wait_chan r) (priority r) (quantum r) (ticks_left r) (cpu_ticks r) (child_ticks r) (start_ticks r) (comm r) (exe r) (arg_start r) (arg_end r) (is_user r) (user_entry r) (user_stack_top r) (p_as r) (fs_base r) (fds r) (cloexec r) (cwd r) (umask r) (rlim r) (sigact r) (sig_pending r) (sig_blocked r) (sig_saved r) (sig_restore r) (p_next r) (p_prev r) (all_next r).
Definition set_ctty (v : Z) (r : process) : process := MkProcess (pid r) (ppid r) (uid r) (euid r) (suid r) (gid r) (egid r) (sgid r) (groups r) (pgid r) (sid r) v (state r) (exit_status r) (wait_chan r) (priority r) (quantum r) (ticks_left r) (cpu_ticks r) (child_ticks r) (start_ticks r) (comm r) (exe r) (arg_start r) (arg_end r) (is_user r) (user_entry r) (user_stack_top r) (p_as r) (fs_base r) (fds r) (cloexec r) (cwd r) (umask r) (rlim r) (sigact r) (sig_pending r) (sig_blocked r) (sig_saved r) (sig_restore r) (p_next r) (p_prev r) (all_next r).
Definition set_state (v : process_state) (r : process) : process := MkProcess (pid r) (ppid r) (uid r) (euid r) (suid r) (gid r) (egid r) (sgid r) (groups r) (pgid r) (sid r) (ctty r) v (exit_status r) (wait_chan r) (priority r) (quantum r) (ticks_left r) (cpu_ticks r) (child_ticks r) (start_ticks r) (comm r) (exe r) (arg_start r) (arg_end r) (is_user r) (user_entry r) (user_stack_top r) (p_as r) (fs_base r) (fds r) (cloexec r) (cwd r) (umask r) (rlim r) (sigact r) (sig_pending r) (sig_blocked r) (sig_saved r) (sig_restore r) (p_next r) (p_prev r) (all_next r).
Definition set_exit_status (v : Z) (r : process) : process := MkProcess (pid r) (ppid r) (uid r) (euid r) (suid r) (gid r) (egid r) (sgid r) (groups r) (pgid r) (sid r) (ctty r) (state r) v (wait_chan r) (priority r) (quantum r) (ticks_left r) (cpu_ticks r) (child_ticks r) (start_ticks r) (comm r) (exe r) (arg_start r) (arg_end r) (is_user r) (user_entry r) (user_stack_top r) (p_as r) (fs_base r) (fds r) (cloexec r) (cwd r) (umask r) (rlim r) (sigact r) (sig_pending r) (sig_blocked r) (sig_saved r) (sig_restore r) (p_next r) (p_prev r) (all_next r).
Definition set_wait_chan (v : Z) (r : process) : process := MkProcess (pid r) (ppid r) (uid r) (euid r) (suid r) (gid r) (egid r) (sgid r) (groups r) (pgid r) (sid r) (ctty r) (state r) (exit_status r) v (priority r) (quantum r) (ticks_left r) (cpu_ticks r) (child_ticks r) (start_ticks r) (comm r) (exe r) (arg_start r) (arg_end r) (is_user r) (user_entry r) (user_stack_top r) (p_as r) (fs_base r) (fds r) (cloexec r) (cwd r) (umask r) (rlim r) (sigact r) (sig_pending r) (sig_blocked r) (sig_saved r) (sig_restore r) (p_next r) (p_prev r) (all_next r).
Definition set_priority (v : Z) (r : process) : process := MkProcess (pid r) (ppid r) (uid r) (euid r) (suid r) (gid r) (egid r) (sgid r) (groups r) (pgid r) (sid r) (ctty r) (state r) (exit_status r) (wait_chan r) v (quantum r) (ticks_left r) (cpu_ticks r) (child_ticks r) (start_ticks r) (comm r) (exe r) (arg_start r) (arg_end r) (is_user r) (user_entry r) (user_stack_top r) (p_as r) (fs_base r) (fds r) (cloexec r) (cwd r) (umask r) (rlim r) (sigact r) (sig_pending r) (sig_blocked r) (sig_saved r) (sig_restore r) (p_next r) (p_prev r) (all_next r).
Definition set_quantum (v : Z) (r : process) : process := MkProcess (pid r) (ppid r) (uid r) (euid r) (suid r) (gid r) (egid r) (sgid r) (groups r) (pgid r) (sid r) (ctty r) (state r) (exit_status r) (wait_chan r) (priority r) v (ticks_left r) (cpu_ticks r) (child_ticks r) (start_ticks r) (comm r) (exe r) (arg_start r) (arg_end r) (is_user r) (user_entry r) (user_stack_top r) (p_as r) (fs_base r) (fds r) (cloexec r) (cwd r) (umask r) (rlim r) (sigact r) (sig_pending r) (sig_blocked r) (sig_saved r) (sig_restore r) (p_next r) (p_prev r) (all_next r).
Definition set_ticks_left (v : Z) (r : process) : process := MkProcess (pid r) (ppid r) (uid r) (euid r) (suid r) (gid r) (egid r) (sgid r) (groups r) (pgid r) (sid r) (ctty r) (state r) (exit_status r) (wait_chan r) (priority r) (quantum r) v (cpu_ticks r) (child_ticks r) (start_ticks r) (comm r) (exe r) (arg_start r) (arg_end r) (is_user r) (user_entry r) (user_stack_top r) (p_as r) (fs_base r) (fds r) (cloexec r) (cwd r) (umask r) (rlim r) (sigact r) (sig_pending r) (sig_blocked r) (sig_saved r) (sig_restore r) (p_next r) (p_prev r) (all_next r).
Definition set_cpu_ticks (v : Z) (r : process) : process := MkProcess (pid r) (ppid r) (uid r) (euid r) (suid r) (gid r) (egid r) (sgid r) (groups r) (pgid r) (sid r) (ctty r) (state r) (exit_status r) (wait_chan r) (priority r) (quantum r) (ticks_left r) v (child_ticks r) (start_ticks r) (comm r) (exe r) (arg_start r) (arg_end r) (is_user r) (user_entry r) (user_stack_top r) (p_as r) (fs_base r) (fds r) (cloexec r) (cwd r) (umask r) (rlim r) (sigact r) (sig_pending r) (sig_blocked r) (sig_saved r) (sig_restore r) (p_next r) (p_prev r) (all_next r).
Definition set_child_ticks (v : Z) (r : process) : process := MkProcess (pid r) (ppid r) (uid r) (euid r) (suid r) (gid r) (egid r) (sgid r) (groups r) (pgid r) (sid r) (ctty r) (state r) (exit_status r) (wait_chan r) (priority r) (quantum r) (ticks_left r) (cpu_ticks r) v (start_ticks r) (comm r) (exe r) (arg_start r) (arg_end r) (is_user r) (user_entry r) (user_stack_top r) (p_as r) (fs_base r) (fds r) (cloexec r) (cwd r) (umask r) (rlim r) (sigact r) (sig_pending r) (sig_blocked r) (sig_saved r) (sig_restore r) (p_next r) (p_prev r) (all_next r).
Definition set_start_ticks (v : Z) (r : process) : process := MkProcess (pid r) (ppid r) (uid r) (euid r) (suid r) (gid r) (egid r) (sgid r) (groups r) (pgid r) (sid r) (ctty r) (state r) (exit_status r) (wait_chan r) (priority r) (quantum r) (ticks_left r) (cpu_ticks r) (child_ticks r) v (comm r) (exe r) (arg_start r) (arg_end r) (is_user r) (user_entry r) (user_stack_top r) (p_as r) (fs_base r) (fds r) (cloexec r) (cwd r) (umask r) (rlim r) (sigact r) (sig_pending r) (sig_blocked r) (sig_saved r) (sig_restore r) (p_next r) (p_prev r) (all_next r).
Definition set_comm (v : string) (r : process) : process := MkProcess (pid r) (ppid r) (uid r) (euid r) (suid r) (gid r) (egid r) (sgid r) (groups r) (pgid r) (sid r) (ctty r) (state r) (exit_status r) (wait_chan r) (priority r) (quantum r) (ticks_left r) (cpu_ticks r) (child_ticks r) (start_ticks r) v (exe r) (arg_start r) (arg_end r) (is_user r) (user_entry r) (user_stack_top r) (p_as r) (fs_base r) (fds r) (cloexec r) (cwd r) (umask r) (rlim r) (sigact r) (sig_pending r) (sig_blocked r) (sig_saved r) (sig_restore r) (p_next r) (p_prev r) (all_next r).
Definition set_exe (v : option string) (r : process) : process := MkProcess (pid r) (ppid r) (uid r) (euid r) (suid r) (gid r) (egid r) (sgid r) (groups r) (pgid r) (sid r) (ctty r) (state r) (exit_status r) (wait_chan r) (priority r) (quantum r) (ticks_left r) (cpu_ticks r) (child_ticks r) (start_ticks r) (comm r) v (arg_start r) (arg_end r) (is_user r) (user_entry r) (user_stack_top r) (p_as r) (fs_base r) (fds r) (cloexec r) (cwd r) (umask r) (rlim r) (sigact r) (sig_pending r) (sig_blocked r) (sig_saved r) (sig_restore r) (p_next r) (p_prev r) (all_next r).
Definition set_arg_start (v : Z) (r : process) : process := MkProcess (pid r) (ppid r) (uid r) (euid r) (suid r) (gid r) (egid r) (sgid r) (groups r) (pgid r) (sid r) (ctty r) (state r) (exit_status r) (wait_chan r) (priority r) (quantum r) (ticks_left r) (cpu_ticks r) (child_ticks r) (start_ticks r) (comm r) (exe r) v (arg_end r) (is_user r) (user_entry r) (user_stack_top r) (p_as r) (fs_base r) (fds r) (cloexec r) (cwd r) (umask r) (rlim r) (sigact r) (sig_pending r) (sig_blocked r) (sig_saved r) (sig_restore r) (p_next r) (p_prev r) (all_next r).
Definition set_arg_end (v : Z) (r : process) : process := MkProcess (pid r) (ppid r) (uid r) (euid r) (suid r) (gid r) (egid r) (sgid r) (groups r) (pgid r) (sid r) (ctty r) (state r) (exit_status r) (wait_chan r) (priority r) (quantum r) (ticks_left r) (cpu_ticks r) (child_ticks r) (start_ticks r) (comm r) (exe r) (arg_start r) v (is_user r) (user_entry r) (user_stack_top r) (p_as r) (fs_base r) (fds r) (cloexec r) (cwd r) (umask r) (rlim r) (sigact r) (sig_pending r) (sig_blocked r) (sig_saved r) (sig_restore r) (p_next r) (p_prev r) (all_next r).
Definition set_is_user (v : bool) (r : process) : process := MkProcess (pid r) (ppid r) (uid r) (euid r) (suid r) (gid r) (egid r) (sgid r) (groups r) (pgid r) (sid r) (ctty r) (state r) (exit_status r) (wait_chan r) (priority r) (quantum r) (ticks_left r) (cpu_ticks r) (child_ticks r) (start_ticks r) (comm r) (exe r) (arg_start r) (arg_end r) v (user_entry r) (user_stack_top r) (p_as r) (fs_base r) (fds r) (cloexec r) (cwd r) (umask r) (rlim r) (sigact r) (sig_pending r) (sig_blocked r) (sig_saved r) (sig_restore r) (p_next r) (p_prev r) (all_next r).
Definition set_user_entry (v : Z) (r : process) : process := MkProcess (pid r) (ppid r) (uid r) (euid r) (suid r) (gid r) (egid r) (sgid r) (groups r) (pgid r) (sid r) (ctty r) (state r) (exit_status r) (wait_chan r) (priority r) (quantum r) (ticks_left r) (cpu_ticks r) (child_ticks r) (start_ticks r) (comm r) (exe r) (arg_start r) (arg_end r) (is_user r) v (user_stack_top r) (p_as r) (fs_base r) (fds r) (cloexec r) (cwd r) (umask r) (rlim r) (sigact r) (sig_pending r) (sig_blocked r) (sig_saved r) (sig_restore r) (p_next r) (p_prev r) (all_next r).
Definition set_user_stack_top (v : Z) (r : process) : process := MkProcess (pid r) (ppid r) (uid r) (euid r) (suid r) (gid r) (egid r) (sgid r) (groups r) (pgid r) (sid r) (ctty r) (state r) (exit_status r) (wait_chan r) (priority r) (quantum r) (ticks_left r) (cpu_ticks r) (child_ticks r) (start_ticks r) (comm r) (exe r) (arg_start r) (arg_end r) (is_user r) (user_entry r) v (p_as r) (fs_base r) (fds r) (cloexec r) (cwd r) (umask r) (rlim r) (sigact r) (sig_pending r) (sig_blocked r) (sig_saved r) (sig_restore r) (p_next r) (p_prev r) (all_next r).
Definition set_p_as (v : Z) (r : process) : process := MkProcess (pid r) (ppid r) (uid r) (euid r) (suid r) (gid r) (egid r) (sgid r) (groups r) (pgid r) (sid r) (ctty r) (state r) (exit_status r) (wait_chan r) (priority r) (quantum r) (ticks_left r) (cpu_ticks r) (child_ticks r) (start_ticks r) (comm r) (exe r) (arg_start r) (arg_end r) (is_user r) (user_entry r) (user_stack_top r) v (fs_base r) (fds r) (cloexec r) (cwd r) (umask r) (rlim r) (sigact r) (sig_pending r) (sig_blocked r) (sig_saved r) (sig_restore r) (p_next r) (p_prev r) (all_next r).
Definition set_fs_base (v : Z) (r : process) : process := MkProcess (pid r) (ppid r) (uid r) (euid r) (suid r) (gid r) (egid r) (sgid r) (groups r) (pgid r) (sid r) (ctty r) (state r) (exit_status r) (wait_chan r) (priority r) (quantum r) (ticks_left r) (cpu_ticks r) (child_ticks r) (start_ticks r) (comm r) (exe r) (arg_start r) (arg_end r) (is_user r) (user_entry r) (user_stack_top r) (p_as r) v (fds r) (cloexec r) (cwd r) (umask r) (rlim r) (sigact r) (sig_pending r) (sig_blocked r) (sig_saved r) (sig_restore r) (p_next r) (p_prev r) (all_next r).
Definition set_fds (v : list Z) (r : process) : process := MkProcess (pid r) (ppid r) (uid r) (euid r) (suid r) (gid r) (egid r) (sgid r) (groups r) (pgid r) (sid r) (ctty r) (state r) (exit_status r) (wait_chan r) (priority r) (quantum r) (ticks_left r) (cpu_ticks r) (child_ticks r) (start_ticks r) (comm r) (exe r) (arg_start r) (arg_end r) (is_user r) (user_entry r) (user_stack_top r) (p_as r) (fs_base r) v (cloexec r) (cwd r) (umask r) (rlim r) (sigact r) (sig_pending r) (sig_blocked r) (sig_saved r) (sig_restore r) (p_next r) (p_prev r) (all_next r).
Definition set_cloexec (v : list bool) (r : process) : process := MkProcess (pid r) (ppid r) (uid r) (euid r) (suid r) (gid r) (egid r) (sgid r) (groups r) (pgid r) (sid r) (ctty r) (state r) (exit_status r) (wait_chan r) (priority r) (quantum r) (ticks_left r) (cpu_ticks r) (child_ticks r) (start_ticks r) (comm r) (exe r) (arg_start r) (arg_end r) (is_user r) (user_entry r) (user_stack_top r) (p_as r) (fs_base r) (fds r) v (cwd r) (umask r) (rlim r) (sigact r) (sig_pending r) (sig_blocked r) (sig_saved r) (sig_restore r) (p_next r) (p_prev r) (all_next r).
Definition set_cwd (v : Z) (r : process) : process := MkProcess (pid r) (ppid r) (uid r) (euid r) (suid r) (gid r) (egid r) (sgid r) (groups r) (pgid r) (sid r) (ctty r) (state r) (exit_status r) (wait_chan r) (priority r) (quantum r) (ticks_left r) (cpu_ticks r) (child_ticks r) (start_ticks r) (comm r) (exe r) (arg_start r) (arg_end r) (is_user r) (user_entry r) (user_stack_top r) (p_as r) (fs_base r) (fds r) (cloexec r) v (umask r) (rlim r) (sigact r) (sig_pending r) (sig_blocked r) (sig_saved r) (sig_restore r) (p_next r) (p_prev r) (all_next r).
Definition set_umask (v : Z) (r : process) : process := MkProcess (pid r) (ppid r) (uid r) (euid r) (suid r) (gid r) (egid r) (sgid r) (groups r) (pgid r) (sid r) (ctty r) (state r) (exit_status r) (wait_chan r) (priority r) (quantum r) (ticks_left r) (cpu_ticks r) (child_ticks r) (start_ticks r) (comm r) (exe r) (arg_start r) (arg_end r) (is_user r) (user_entry r) (user_stack_top r) (p_as r) (fs_base r) (fds r) (cloexec r) (cwd r) v (rlim r) (sigact r) (sig_pending r) (sig_blocked r) (sig_saved r) (sig_restore r) (p_next r) (p_prev r) (all_next r).
Definition set_rlim (v : list (Z * Z)) (r : process) : process := MkProcess (pid r) (ppid r) (uid r) (euid r) (suid r) (gid r) (egid r) (sgid r) (groups r) (pgid r) (sid r) (ctty r) (state r) (exit_status r) (wait_chan r) (priority r) (quantum r) (ticks_left r) (cpu_ticks r) (child_ticks r) (start_ticks r) (comm r) (exe r) (arg_start r) (arg_end r) (is_user r) (user_entry r) (user_stack_top r) (p_as r) (fs_base r) (fds r) (cloexec r) (cwd r) (umask r) v (sigact r) (sig_pending r) (sig_blocked r) (sig_saved r) (sig_restore r) (p_next r) (p_prev r) (all_next r).
Definition set_sigact (v : list k_sigaction) (r : process) : process := MkProcess (pid r) (ppid r) (uid r) (euid r) (suid r) (gid r) (egid r) (sgid r) (groups r) (pgid r) (sid r) (ctty r) (state r) (exit_status r) (wait_chan r) (priority r) (quantum r) (ticks_left r) (cpu_ticks r) (child_ticks r) (start_ticks r) (comm r) (exe r) (arg_start r) (arg_end r) (is_user r) (user_entry r) (user_stack_top r) (p_as r) (fs_base r) (fds r) (cloexec r) (cwd r) (umask r) (rlim r) v (sig_pending r) (sig_blocked r) (sig_saved r) (sig_restore r) (p_next r) (p_prev r) (all_next r).
Definition set_sig_pending (v : Z) (r : process) : process := MkProcess (pid r) (ppid r) (uid r) (euid r) (suid r) (gid r) (egid r) (sgid r) (groups r) (pgid r) (sid r) (ctty r) (state r) (exit_status r) (wait_chan r) (priority r) (quantum r) (ticks_left r) (cpu_ticks r) (child_ticks r) (start_ticks r) (comm r) (exe r) (arg_start r) (arg_end r) (is_user r) (user_entry r) (user_stack_top r) (p_as r) (fs_base r) (fds r) (cloexec r) (cwd r) (umask r) (rlim r) (sigact r) v (sig_blocked r) (sig_saved r) (sig_restore r) (p_next r) (p_prev r) (all_next r).
Definition set_sig_blocked (v : Z) (r : process) : process := MkProcess (pid r) (ppid r) (uid r) (euid r) (suid r) (gid r) (egid r) (sgid r) (groups r) (pgid r) (sid r) (ctty r) (state r) (exit_status r) (wait_chan r) (priority r) (quantum r) (ticks_left r) (cpu_ticks r) (child_ticks r) (start_ticks r) (comm r) (exe r) (arg_start r) (arg_end r) (is_user r) (user_entry r) (user_stack_top r) (p_as r) (fs_base r) (fds r) (cloexec r) (cwd r) (umask r) (rlim r) (sigact r) (sig_pending r) v (sig_saved r) (sig_restore r) (p_next r) (p_prev r) (all_next r).
Definition set_sig_saved (v : Z) (r : process) : process := MkProcess (pid r) (ppid r) (uid r) (euid r) (suid r) (gid r) (egid r) (sgid r) (groups r) (pgid r) (sid r) (ctty r) (state r) (exit_status r) (wait_chan r) (priority r) (quantum r) (ticks_left r) (cpu_ticks r) (child_ticks r) (start_ticks r) (comm r) (exe r) (arg_start r) (arg_end r) (is_user r) (user_entry r) (user_stack_top r) (p_as r) (fs_base r) (fds r) (cloexec r) (cwd r) (umask r) (rlim r) (sigact r) (sig_pending r) (sig_blocked r) v (sig_restore r) (p_next r) (p_prev r) (all_next r).
Definition set_sig_restore (v : bool) (r : process) : process := MkProcess (pid r) (ppid r) (uid r) (euid r) (suid r) (gid r) (egid r) (sgid r) (groups r) (pgid r) (sid r) (ctty r) (state r) (exit_status r) (wait_chan r) (priority r) (quantum r) (ticks_left r) (cpu_ticks r) (child_ticks r) (start_ticks r) (comm r) (exe r) (arg_start r) (arg_end r) (is_user r) (user_entry r) (user_stack_top r) (p_as r) (fs_base r) (fds r) (cloexec r) (cwd r) (umask r) (rlim r) (sigact r) (sig_pending r) (sig_blocked r) (sig_saved r) v (p_next r) (p_prev r) (all_next r).
Definition set_p_next (v : Z) (r : process) : process := MkProcess (pid r) (ppid r) (uid r) (euid r) (suid r) (gid r) (egid r) (sgid r) (groups r) (pgid r) (sid r) (ctty r) (state r) (exit_status r) (wait_chan r) (priority r) (quantum r) (ticks_left r) (cpu_ticks r) (child_ticks r) (start_ticks r) (comm r) (exe r) (arg_start r) (arg_end r) (is_user r) (user_entry r) (user_stack_top r) (p_as r) (fs_base r) (fds r) (cloexec r) (cwd r) (umask r) (rlim r) (sigact r) (sig_pending r) (sig_blocked r) (sig_saved r) (sig_restore r) v (p_prev r) (all_next r).
Definition set_p_prev (v : Z) (r : process) : process := MkProcess (pid r) (ppid r) (uid r) (euid r) (suid r) (gid r) (egid r) (sgid r) (groups r) (pgid r) (sid r) (ctty r) (state r) (exit_status r) (wait_chan r) (priority r) (quantum r) (ticks_left r) (cpu_ticks r) (child_ticks r) (start_ticks r) (comm r) (exe r) (arg_start r) (arg_end r) (is_user r) (user_entry r) (user_stack_top r) (p_as r) (fs_base r) (fds r) (cloexec r) (cwd r) (umask r) (rlim r) (sigact r) (sig_pending r) (sig_blocked r) (sig_saved r) (sig_restore r) (p_next r) v (all_next r).
Definition set_all_next (v : Z) (r : process) : process := MkProcess (pid r) (ppid r) (uid r) (euid r) (suid r) (gid r) (egid r) (sgid r) (groups r) (pgid r) (sid r) (ctty r) (state r) (exit_status r) (wait_chan r) (priority r) (quantum r) (ticks_left r) (cpu_ticks r) (child_ticks r) (start_ticks r) (comm r) (exe r) (arg_start r) (arg_end r) (is_user r) (user_entry r) (user_stack_top r) (p_as r) (fs_base r) (fds r) (cloexec r) (cwd r) (umask r) (rlim r) (sigact r) (sig_pending r) (sig_blocked r) (sig_saved r) (sig_restore r) (p_next r) (p_prev r) v.

(** memset(proc, 0, sizeof *proc) *)
Definition zero_process : process :=
  MkProcess 0 0 0 0 0 0 0 0 [] 0 0 0 PROCESS_RUNNING 0 0 0 0 0 0 0 0 "" None 0 0 false 0 0 0 0 (replicate 64 0) (replicate 64 false) 0 0 (replicate 16 (0, 0)) (replicate 64 (MkAction 0 0 0 0)) 0 0 0 false 0 0 0.
