(* ===== verification/UserMem.v ===== *)
(** * User memory as the system calls see it

    The interface between the system calls and the virtual memory manager:
    [user_ok] is vmm_user_ok, which may also grow the stack, and once it has
    said yes every byte of the range can be read (and written, if asked) until
    the mapping changes. User memory lies below 2^47. Reads and writes of C objects in user memory are
    sequences of byte accesses, little endian. *)
From S2P Require Import Prelude.

(** USER_END: the last page below 2^47 is never mapped. *)
Definition user_top : Z := 2 ^ 47 - 4096.

Class UserMem (U : Type) := {
  um_inv : U -> Prop;
  peek : U -> Z -> option Z;
  writable : U -> Z -> Prop;
  user_ok : Z -> Z -> bool -> M U bool;
  user_store : Z -> Z -> M U unit;
  peek_user : forall u x b, um_inv u -> peek u x = Some b -> 0 <= x < 2 ^ 47;
  peek_byte : forall u x b, um_inv u -> peek u x = Some b -> 0 <= b < 256;
  writable_peek : forall u x, um_inv u -> writable u x -> is_Some (peek u x);
  user_ok_spec : forall u a n w, um_inv u -> 0 <= a < 2 ^ 64 -> 0 <= n < 2 ^ 64 ->
    wp (user_ok a n w) (fun ok u' => um_inv u'
      /\ (forall x b, peek u x = Some b -> peek u' x = Some b)
      /\ (forall x, writable u x -> writable u' x)
      /\ (ok = true -> forall x, a <= x < a + n -> 0 <= x < user_top /\ is_Some (peek u' x) /\ (w = true -> writable u' x))
      /\ (a + n <= user_top -> (forall x, a <= x < a + n -> is_Some (peek u x) /\ (w = true -> writable u x)) -> ok = true)) u;
  user_store_spec : forall u x b, um_inv u -> writable u x -> 0 <= b < 256 ->
    wp (user_store x b) (fun _ u' => um_inv u'
      /\ (forall y, peek u' y = if decide (y = x) then Some b else peek u y)
      /\ (forall y, writable u y -> writable u' y)) u;
}.

(** ** Objects of several bytes *)

Fixpoint le_bytes (n : nat) (v : Z) : list Z :=
  match n with
  | O => []
  | S n' => v mod 256 :: le_bytes n' (v / 256)
  end.

Fixpoint le_value (bs : list Z) : Z :=
  match bs with
  | [] => 0
  | b :: bs' => b + 256 * le_value bs'
  end.

Definition byte (b : Z) : Prop := 0 <= b < 256.

Lemma length_le_bytes n v : length (le_bytes n v) = n.
Proof. revert v; induction n as [|n IH]; intros v; simpl; [done|]. by rewrite IH. Qed.

Lemma le_bytes_byte n v : Forall byte (le_bytes n v).
Proof.
  revert v; induction n as [|n IH]; intros v; simpl; constructor; [|done].
  apply Z.mod_pos_bound. lia.
Qed.

Lemma le_value_bytes n v : 0 <= v < 256 ^ Z.of_nat n -> le_value (le_bytes n v) = v.
Proof.
  revert v; induction n as [|n IH]; intros v Hv; cbn [le_bytes le_value]; [simpl in Hv; lia|].
  rewrite IH. { pose proof (Z.div_mod v 256). lia. }
  rewrite Nat2Z.inj_succ, Z.pow_succ_r in Hv by lia.
  split; [apply Z.div_pos; lia|apply Z.div_lt_upper_bound; lia].
Qed.

Lemma le_value_bound bs : Forall byte bs -> 0 <= le_value bs < 256 ^ Z.of_nat (length bs).
Proof.
  induction 1 as [|b bs Hb _ IH]; cbn [le_value length]; [simpl; lia|].
  rewrite Nat2Z.inj_succ, Z.pow_succ_r by lia. unfold byte in Hb. lia.
Qed.

Section Access.
  Context {U : Type} `{UM : UserMem U}.

Definition user_load (x : Z) : M U Z := u ← get; lift (peek u x).

Fixpoint load_bytes (a : Z) (n : nat) : M U (list Z) :=
  match n with
  | O => mret []
  | S n' => b ← user_load a; bs ← load_bytes (a + 1) n'; mret (b :: bs)
  end.

Fixpoint store_bytes (a : Z) (bs : list Z) : M U unit :=
  match bs with
  | [] => mret tt
  | b :: bs' => _ ← user_store a b; store_bytes (a + 1) bs'
  end.

Definition load32 (a : Z) : M U Z := bs ← load_bytes a 4; mret (le_value bs).
Definition load64 (a : Z) : M U Z := bs ← load_bytes a 8; mret (le_value bs).
Definition store32 (a v : Z) : M U unit := store_bytes a (le_bytes 4 v).
Definition store64 (a v : Z) : M U unit := store_bytes a (le_bytes 8 v).

(** ** What the accesses promise *)

(** Nothing that could be read or written before is lost. *)
Definition grows (u u' : U) : Prop :=
  (forall x b, peek u x = Some b -> peek u' x = Some b) /\ (forall x, writable u x -> writable u' x).

Definition can_read (u : U) (a n : Z) : Prop := forall x, a <= x < a + n -> is_Some (peek u x).
Definition can_write (u : U) (a n : Z) : Prop := forall x, a <= x < a + n -> writable u x.

(** The bytes at [a] are [bs]; everything else as in [u]. *)
Definition stored (u u' : U) (a : Z) (bs : list Z) : Prop :=
  (forall y, peek u' y = if decide (a <= y < a + Z.of_nat (length bs))
                         then bs !! Z.to_nat (y - a) else peek u y)
  /\ (forall y, writable u y -> writable u' y).

#[global] Instance grows_preorder : PreOrder grows.
Proof. split; [by intros u|]. intros u1 u2 u3 [? ?] [? ?]. split; eauto. Qed.

Lemma grows_can_read u u' a n : grows u u' -> can_read u a n -> can_read u' a n.
Proof. intros [Hg _] Hr x Hx. destruct (Hr x Hx) as [b Hb]. eauto. Qed.

Lemma grows_can_write u u' a n : grows u u' -> can_write u a n -> can_write u' a n.
Proof. intros [_ Hg] Hw x Hx. eauto. Qed.

Lemma stored_can_write u u' a bs b n : stored u u' a bs -> can_write u b n -> can_write u' b n.
Proof. intros [_ Hw] H x Hx. auto. Qed.

Lemma wp_user_ok u a n w (Q : bool -> U -> Prop) :
  um_inv u -> 0 <= a < 2 ^ 64 -> 0 <= n < 2 ^ 64 ->
  (forall u', um_inv u' -> grows u u' -> Q false u') ->
  (forall u', um_inv u' -> grows u u' -> can_read u' a n -> (w = true -> can_write u' a n) -> Q true u') ->
  wp (user_ok a n w) Q u.
Proof.
  intros Hi Ha Hn Hf Ht. eapply wp_mono; [by apply user_ok_spec|].
  intros [] u' (Hi' & Hg & Hw & Hok & _); [|by apply Hf].
  apply Ht; [done|done|..]; [intros x Hx|intros Ew x Hx]; specialize (Hok eq_refl x Hx); naive_solver.
Qed.

(** The same, with the place of an accepted range. *)
Lemma wp_user_ok_top u a n w (Q : bool -> U -> Prop) :
  um_inv u -> 0 <= a < 2 ^ 64 -> 0 < n < 2 ^ 64 ->
  (forall u', um_inv u' -> grows u u' -> Q false u') ->
  (forall u', um_inv u' -> grows u u' -> can_read u' a n -> (w = true -> can_write u' a n) -> a + n <= user_top -> Q true u') ->
  wp (user_ok a n w) Q u.
Proof.
  intros Hi Ha Hn Hf Ht. eapply wp_mono; [apply user_ok_spec; [done|done|lia]|].
  intros [] u' (Hi' & Hg & Hw & Hok & _); [|by apply Hf]. specialize (Hok eq_refl).
  apply Ht; [done|done|..]; [intros x Hx|intros Ew x Hx|]; [by destruct (Hok x Hx) as (_ & ? & _)|by destruct (Hok x Hx) as (_ & _ & Hc); apply Hc|].
  destruct (Hok (a + n - 1)); lia.
Qed.

(** A range that can be read, below the top, is accepted. *)
Lemma wp_user_ok_read u a n (Q : bool -> U -> Prop) :
  um_inv u -> 0 <= a -> 0 <= n -> a + n <= user_top -> can_read u a n ->
  (forall u', um_inv u' -> grows u u' -> Q true u') -> wp (user_ok a n false) Q u.
Proof.
  intros Hi Ha Hn Ht Hr HQ. eapply wp_mono; [apply user_ok_spec; [done|unfold user_top in *; lia..]|].
  intros ok u' (Hi' & Hg & Hw & _ & Hc). rewrite Hc; [|done|]; [by apply HQ|]. intros x Hx. split; [by apply Hr|done].
Qed.

(** And with the reason why a range to read is refused. *)
Lemma wp_user_ok_why u a n (Q : bool -> U -> Prop) :
  um_inv u -> 0 <= a < 2 ^ 64 -> 0 <= n < 2 ^ 64 ->
  (forall u', um_inv u' -> grows u u' -> ~ (a + n <= user_top /\ can_read u a n) -> Q false u') ->
  (forall u', um_inv u' -> grows u u' -> can_read u' a n -> Q true u') -> wp (user_ok a n false) Q u.
Proof.
  intros Hi Ha Hn Hf Ht. eapply wp_mono; [by apply user_ok_spec|]. intros [] u' (Hi' & Hg & Hw & Hok & Hc).
  - apply Ht; [done|done|]. intros x Hx. by apply (Hok eq_refl x Hx).
  - apply Hf; [done|done|]. intros [Htop Hr]. discriminate Hc; [done|]. intros x Hx. split; [by apply Hr|done].
Qed.

Lemma wp_load_bytes u a n (Q : list Z -> U -> Prop) :
  um_inv u -> can_read u a (Z.of_nat n) ->
  (forall bs, length bs = n -> Forall byte bs ->
     (forall i, 0 <= i < Z.of_nat n -> peek u (a + i) = bs !! Z.to_nat i) -> Q bs u) ->
  wp (load_bytes a n) Q u.
Proof.
  intros Hi. revert a Q; induction n as [|n IH]; intros a Q Hr HQ; cbn [load_bytes].
  - wp_steps. apply HQ; [done|constructor|]. intros; lia.
  - destruct (Hr a) as [b Hb]; [lia|]. wp_step. unfold user_load. wp_steps.
    eapply wp_lift; [done|]. wp_step. apply IH; [intros x Hx; apply Hr; lia|].
    intros bs Hlen Hbs Hp. wp_steps. apply HQ.
    + simpl. by rewrite Hlen.
    + constructor; [by eapply peek_byte|done].
    + intros i Hi'. destruct (Z.eq_dec i 0) as [->|]; [by rewrite Z.add_0_r|].
      replace (a + i) with (a + 1 + (i - 1)) by lia. rewrite Hp by lia.
      replace (Z.to_nat i) with (S (Z.to_nat (i - 1))) by lia. done.
Qed.

Lemma wp_store_bytes u a bs (Q : unit -> U -> Prop) :
  um_inv u -> Forall byte bs -> can_write u a (Z.of_nat (length bs)) ->
  (forall u', um_inv u' -> stored u u' a bs -> Q tt u') ->
  wp (store_bytes a bs) Q u.
Proof.
  revert u a Q; induction bs as [|b bs IH]; intros u a Q Hi Hb Hw HQ; cbn [store_bytes].
  - wp_steps. apply HQ; [done|]. split; [|done]. intros y. case_decide; [simpl in *; lia|done].
  - apply Forall_cons in Hb as [Hb0 Hb]. simpl in Hw. wp_step.
    eapply wp_mono; [apply user_store_spec; [done|apply Hw; lia|done]|].
    intros [] u1 (Hi1 & Hp1 & Hw1). apply IH; [done|done|intros x Hx; apply Hw1, Hw; lia|].
    intros u2 Hi2 [Hp2 Hw2]. apply HQ; [done|]. split; [|auto]. intros y. rewrite Hp2, Hp1. simpl length.
    destruct (decide (y = a)) as [->|].
    + rewrite decide_False, decide_True by lia. by rewrite Z.sub_diag.
    + repeat case_decide; try lia; [|done].
      replace (Z.to_nat (y - a)) with (S (Z.to_nat (y - (a + 1)))) by lia. done.
Qed.
End Access.

(** ** A flat user memory, for examples: every byte of it may be written *)

Record flat := MkFlat { flat_bytes : gmap Z Z }.

Definition flat_ok (a n : Z) : M flat bool := fun u =>
  Some (((n =? 0) || (a + n <=? user_top)) && forallb (fun x => bool_decide (is_Some (flat_bytes u !! x))) (range a (a + n)), u).

Definition flat_store (x b : Z) : M flat unit := fun u =>
  match flat_bytes u !! x with
  | Some _ => Some (tt, MkFlat (<[x := b]> (flat_bytes u)))
  | None => None
  end.

Definition flat_inv (u : flat) : Prop := map_Forall (fun x b => 0 <= x < 2 ^ 47 /\ byte b) (flat_bytes u).

Lemma flat_ok_spec u a n (w : bool) :
  flat_inv u -> 0 <= a < 2 ^ 64 -> 0 <= n < 2 ^ 64 ->
  wp (flat_ok a n) (fun ok u' => flat_inv u'
    /\ (forall x b, flat_bytes u !! x = Some b -> flat_bytes u' !! x = Some b)
    /\ (forall x, is_Some (flat_bytes u !! x) -> is_Some (flat_bytes u' !! x))
    /\ (ok = true -> forall x, a <= x < a + n ->
          0 <= x < user_top /\ is_Some (flat_bytes u' !! x) /\ (w = true -> is_Some (flat_bytes u' !! x)))
    /\ (a + n <= user_top -> (forall x, a <= x < a + n -> is_Some (flat_bytes u !! x) /\ (w = true -> is_Some (flat_bytes u !! x))) -> ok = true)) u.
Proof.
  intros Hi Ha Hn. unfold wp, flat_ok. split_and!; [done|done|done|..].
  - intros [Ht Hall]%andb_true_iff x Hx. rewrite forallb_forall in Hall. specialize (Hall x).
    rewrite <- list_elem_of_In, elem_of_range, bool_decide_eq_true in Hall. split; [|auto].
    apply orb_true_iff in Ht as [Ht%Z.eqb_eq|Ht%Z.leb_le]; lia.
  - intros Ht Hall. apply andb_true_iff. split; [apply orb_true_iff; right; by apply Z.leb_le|]. apply forallb_forall. intros x.
    rewrite <- list_elem_of_In, elem_of_range, bool_decide_eq_true. intros Hx. by destruct (Hall x Hx).
Qed.

Lemma flat_store_spec u x b :
  flat_inv u -> is_Some (flat_bytes u !! x) -> 0 <= b < 256 ->
  wp (flat_store x b) (fun _ u' => flat_inv u'
    /\ (forall y, flat_bytes u' !! y = if decide (y = x) then Some b else flat_bytes u !! y)
    /\ (forall y, is_Some (flat_bytes u !! y) -> is_Some (flat_bytes u' !! y))) u.
Proof.
  intros Hi [c Hc] Hb. unfold wp, flat_store. rewrite Hc. simpl. split_and!.
  - apply map_Forall_insert_2; [|done]. split; [by apply (Hi x c)|done].
  - intros y. rewrite lookup_insert. repeat case_decide; congruence.
  - intros y Hy. rewrite lookup_insert. case_decide; [eauto|done].
Qed.

#[export] Instance flat_user_mem : UserMem flat := {|
  um_inv := flat_inv;
  peek u x := flat_bytes u !! x;
  writable u x := is_Some (flat_bytes u !! x);
  user_ok a n _ := flat_ok a n;
  user_store := flat_store;
  peek_user u x b Hi Hp := proj1 (Hi x b Hp);
  peek_byte u x b Hi Hp := proj2 (Hi x b Hp);
  writable_peek u x _ Hw := Hw;
  user_ok_spec := flat_ok_spec;
  user_store_spec := flat_store_spec;
|}.

(** Sixty-four zero bytes at 4096. *)
Definition flat64 : flat := MkFlat (list_to_map ((fun i => (i, 0)) <$> range 4096 4160)).

Lemma flat64_inv : flat_inv flat64.
Proof.
  intros x b Hb. apply elem_of_list_to_map_2, list_elem_of_fmap in Hb as (i & [= -> ->] & Hi).
  apply elem_of_range in Hi. unfold byte. lia.
Qed.

(** ** Pages *)

(** Memory is mapped by whole pages. *)
Class UserPages (U : Type) `{UM : UserMem U} : Prop :=
  page_peek : forall u x y, um_inv u -> is_Some (peek u x) -> x / 4096 = y / 4096 -> is_Some (peek u y).

(** A flat memory of whole pages. *)
Record paged := MkPaged { pg_flat : flat }.

Definition paged_inv (u : paged) : Prop :=
  flat_inv (pg_flat u) /\ forall x y, is_Some (flat_bytes (pg_flat u) !! x) -> x / 4096 = y / 4096 -> is_Some (flat_bytes (pg_flat u) !! y).

Definition on_flat {A} (m : M flat A) : M paged A := zoom pg_flat (fun f _ => MkPaged f) m.

Lemma paged_ok_spec u a n (w : bool) :
  paged_inv u -> 0 <= a < 2 ^ 64 -> 0 <= n < 2 ^ 64 ->
  wp (on_flat (flat_ok a n)) (fun ok u' => paged_inv u'
    /\ (forall x b, flat_bytes (pg_flat u) !! x = Some b -> flat_bytes (pg_flat u') !! x = Some b)
    /\ (forall x, is_Some (flat_bytes (pg_flat u) !! x) -> is_Some (flat_bytes (pg_flat u') !! x))
    /\ (ok = true -> forall x, a <= x < a + n ->
          0 <= x < user_top /\ is_Some (flat_bytes (pg_flat u') !! x) /\ (w = true -> is_Some (flat_bytes (pg_flat u') !! x)))
    /\ (a + n <= user_top -> (forall x, a <= x < a + n -> is_Some (flat_bytes (pg_flat u) !! x) /\ (w = true -> is_Some (flat_bytes (pg_flat u) !! x))) -> ok = true)) u.
Proof. intros [Hi Hp] Ha Hn. destruct (flat_ok_spec (pg_flat u) a n w Hi Ha Hn) as (_ & H). by split. Qed.

Lemma paged_store_spec u x b :
  paged_inv u -> is_Some (flat_bytes (pg_flat u) !! x) -> 0 <= b < 256 ->
  wp (on_flat (flat_store x b)) (fun _ u' => paged_inv u'
    /\ (forall y, flat_bytes (pg_flat u') !! y = if decide (y = x) then Some b else flat_bytes (pg_flat u) !! y)
    /\ (forall y, is_Some (flat_bytes (pg_flat u) !! y) -> is_Some (flat_bytes (pg_flat u') !! y))) u.
Proof.
  intros [Hi Hp] Hx Hb. apply wp_zoom. eapply wp_mono; [by apply flat_store_spec|]. intros [] f (Hi' & Hf & Hs). split_and!; [split; [done|]|done|done].
  cbn [pg_flat]. intros y z Hy E. apply Hs, (Hp y); [|done]. rewrite Hf in Hy. case_decide; [by subst|done].
Qed.

#[export] Instance paged_user_mem : UserMem paged | 100 := {|
  um_inv := paged_inv;
  peek u x := flat_bytes (pg_flat u) !! x;
  writable u x := is_Some (flat_bytes (pg_flat u) !! x);
  user_ok a n _ := on_flat (flat_ok a n);
  user_store x b := on_flat (flat_store x b);
  peek_user u x b Hi Hp := proj1 (proj1 Hi x b Hp);
  peek_byte u x b Hi Hp := proj2 (proj1 Hi x b Hp);
  writable_peek u x _ Hw := Hw;
  user_ok_spec := paged_ok_spec;
  user_store_spec := paged_store_spec;
|}.

#[export] Instance paged_pages : UserPages paged.
Proof. intros u x y [_ Hp]. apply Hp. Qed.

(** The page at 4096: [bs], and then zeros. *)
Definition page_of (bs : list Z) : paged := MkPaged (MkFlat (list_to_map (zip (range 4096 8192) (take 4096 (bs ++ replicate 4096 0))))).

Lemma page_of_inv bs : Forall byte bs -> paged_inv (page_of bs).
Proof.
  intros Hb. set (l := take 4096 (bs ++ replicate 4096 0)). assert (length l = 4096%nat) as Hl by (unfold l; rewrite length_take, length_app, length_replicate; lia).
  assert (forall x, is_Some (flat_bytes (pg_flat (page_of bs)) !! x) <-> 4096 <= x < 8192) as Hdom.
  { intros x. cbn [page_of pg_flat flat_bytes]. fold l. split.
    - intros [b Hx%elem_of_list_to_map_2%elem_of_zip_l]. by apply elem_of_range.
    - intros Hx%elem_of_range. destruct (list_to_map (zip (range 4096 8192) l) !! x) eqn:E; [eauto|]. apply not_elem_of_list_to_map_2 in E. rewrite fst_zip in E by (rewrite Hl; apply Nat.leb_le; vm_compute; reflexivity). done. }
  split.
  - intros x b Hx. assert (4096 <= x < 8192) by (apply Hdom; eauto). split; [lia|]. apply elem_of_list_to_map_2, elem_of_zip_r in Hx.
    assert (Forall byte l) as Hall by (apply Forall_take, Forall_app; split; [done|apply Forall_replicate; unfold byte; lia]). by eapply Forall_forall in Hall.
  - intros x y Hx E. apply Hdom. apply Hdom in Hx. lia_div.
Qed.
