(* ===== verification/Cred.v ===== *)
(** * Credentials: src/src/kernel/proc/cred.c

    Permission checks are functions of the current process ([None] before the
    scheduler runs: the kernel acts as root) and an inode. The system calls
    act on the current process; those that copy ids or groups also act on its
    memory, through the interface [UserMem]. *)
From S2P Require Import Prelude Types UserMem.

(** ** Checks *)

Definition cred_euid (p : option process) : Z := match p with Some p => euid p | None => 0 end.
Definition cred_egid (p : option process) : Z := match p with Some p => egid p | None => 0 end.

Definition member (p : process) (gid_ primary : Z) : bool :=
  if primary =? gid_ then true else existsb (fun g => g =? gid_) (groups p).

Definition cred_in_group (p : option process) (gid_ : Z) : bool :=
  match p with None => true | Some p => member p gid_ (egid p) end.

Definition itype (n : inode) : Z := Z.land (i_flags n) VFS_TYPE.

Definition check (p : option process) (n : inode) (mask : Z) (real : bool) : Z :=
  match p with
  | None => 0
  | Some p =>
      let uid_ := if real then uid p else euid p in
      let gid_ := if real then gid p else egid p in
      if uid_ =? 0 then
        let dir := itype n =? VFS_DIRECTORY in
        if negb (Z.land mask MAY_EXEC =? 0) && negb dir && (Z.land (i_mode n) 73 =? 0) then - EACCES else 0
      else
        let perm := if uid_ =? i_uid n then Z.shiftr (i_mode n) 6
                    else if member p (i_gid n) gid_ then Z.shiftr (i_mode n) 3
                    else i_mode n in
        if Z.land (Z.land perm 7) mask =? mask then 0 else - EACCES
  end.

Definition cred_permission (p : option process) (n : inode) (mask : Z) : Z := check p n mask false.
Definition cred_access (p : option process) (n : inode) (mask : Z) : Z := check p n mask true.

Definition cred_owns (p : option process) (n : inode) : bool :=
  let e := cred_euid p in (e =? 0) || (e =? i_uid n).

Definition cred_may_delete (p : option process) (dir victim : inode) : bool :=
  let e := cred_euid p in
  (Z.land (i_mode dir) S_ISVTX =? 0) || (e =? 0) || (e =? i_uid dir) || (e =? i_uid victim).

Notation SIGCONT := 18 (only parsing).

Definition cred_may_signal (me : option process) (p : process) (sig : Z) : bool :=
  match me with
  | None => true
  | Some me =>
      (euid me =? 0) ||
      (if (sig =? SIGCONT) && (sid me =? sid p) then true
       else (uid me =? uid p) || (uid me =? suid p) || (euid me =? uid p) || (euid me =? suid p))
  end.

(** ** Setting ids *)

Notation KEEP := 4294967295 (only parsing). (* (uint32_t)-1 *)

Definition ids : Type := Z * Z * Z.

(** The result, and [*r], [*e], [*s] afterwards. *)
Definition setres (c : ids) (nr ne ns : Z) (root : bool) : Z * ids :=
  let '(r, e, s) := c in
  let bad w := negb (w =? KEEP) && negb (w =? r) && negb (w =? e) && negb (w =? s) in
  if negb root && (bad nr || bad ne || bad ns) then (- EPERM, c)
  else (0, (if negb (nr =? KEEP) then nr else r,
            if negb (ne =? KEEP) then ne else e,
            if negb (ns =? KEEP) then ns else s)).

Definition uids (p : process) : ids := (uid p, euid p, suid p).
Definition gids (p : process) : ids := (gid p, egid p, sgid p).
Definition set_uids (c : ids) (p : process) : process := set_uid c.1.1 (set_euid c.1.2 (set_suid c.2 p)).
Definition set_gids (c : ids) (p : process) : process := set_gid c.1.1 (set_egid c.1.2 (set_sgid c.2 p)).

Definition sys_getuid (p : process) : Z := uid p.
Definition sys_geteuid (p : process) : Z := euid p.
Definition sys_getgid (p : process) : Z := gid p.
Definition sys_getegid (p : process) : Z := egid p.

Definition sys_setresuid (r e s : Z) (p : process) : Z * process :=
  let '(x, c) := setres (uids p) (u32 r) (u32 e) (u32 s) (euid p =? 0) in (x, set_uids c p).

Definition sys_setresgid (r e s : Z) (p : process) : Z * process :=
  let '(x, c) := setres (gids p) (u32 r) (u32 e) (u32 s) (euid p =? 0) in (x, set_gids c p).

Definition sys_setuid (u : Z) (p : process) : Z * process :=
  if u32 u =? KEEP then (- EINVAL, p)
  else if euid p =? 0 then (0, set_uids (u32 u, u32 u, u32 u) p)
  else sys_setresuid (-1) u (-1) p.

Definition sys_setgid (g : Z) (p : process) : Z * process :=
  if u32 g =? KEEP then (- EINVAL, p)
  else if euid p =? 0 then (0, set_gids (u32 g, u32 g, u32 g) p)
  else sys_setresgid (-1) g (-1) p.

Definition sys_setreuid (r e : Z) (p : process) : Z * process :=
  let ne := if u32 e =? KEEP then euid p else u32 e in
  let s := if negb (u32 r =? KEEP) || negb (ne =? uid p) then ne else KEEP in
  sys_setresuid r e s p.

Definition sys_setregid (r e : Z) (p : process) : Z * process :=
  let ne := if u32 e =? KEEP then egid p else u32 e in
  let s := if negb (u32 r =? KEEP) || negb (ne =? gid p) then ne else KEEP in
  sys_setresgid r e s p.

Definition sys_setfsuid (p : process) : Z := euid p.
Definition sys_setfsgid (p : process) : Z := egid p.

(** ** Calls that touch user memory *)

Section Calls.
  Context {U : Type} `{UM : UserMem U}.

(** The bool tells a write check, as in vmm_user_ok. *)
Definition put_res (ur ue us r e s : Z) : M U Z :=
  a ← user_ok (u64 ur) 4 true;
  if negb a then mret (- EFAULT) else
  b ← user_ok (u64 ue) 4 true;
  if negb b then mret (- EFAULT) else
  c ← user_ok (u64 us) 4 true;
  if negb c then mret (- EFAULT) else
  _ ← store32 (u64 ur) r;
  _ ← store32 (u64 ue) e;
  _ ← store32 (u64 us) s;
  mret 0.

Definition sys_getresuid (p : process) (ur ue us : Z) : M U Z := put_res ur ue us (uid p) (euid p) (suid p).
Definition sys_getresgid (p : process) (ur ue us : Z) : M U Z := put_res ur ue us (gid p) (egid p) (sgid p).

Fixpoint put_groups (list_ : Z) (gs : list Z) : M U unit :=
  match gs with
  | [] => mret tt
  | g :: gs' => _ ← store32 list_ g; put_groups (list_ + 4) gs'
  end.

Definition sys_getgroups (p : process) (size_ list_ : Z) : M U Z :=
  let n := Z.of_nat (length (groups p)) in
  if size_ <? 0 then mret (- EINVAL)
  else if size_ =? 0 then mret n
  else if u32 size_ <? n then mret (- EINVAL)
  else
    ok ← user_ok (u64 list_) (u64 (n * 4)) true;
    if negb ok then mret (- EFAULT) else
    _ ← put_groups (u64 list_) (groups p);
    mret n.

Fixpoint get_groups (list_ : Z) (n : nat) : M U (list Z) :=
  match n with
  | O => mret []
  | S n' => g ← load32 list_; gs ← get_groups (list_ + 4) n'; mret (g :: gs)
  end.

Definition sys_setgroups (p : process) (size_ list_ : Z) : M U (Z * process) :=
  if negb (euid p =? 0) then mret (- EPERM, p)
  else if (size_ <? 0) || (NGROUPS_MAX <? size_) then mret (- EINVAL, p)
  else
    ok ← user_ok (u64 list_) (u64 (size_ * 4)) false;
    if negb ok then mret (- EFAULT, p) else
    gs ← get_groups (u64 list_) (Z.to_nat size_);
    mret (0, set_groups gs p).
End Calls.

(** ** Permission bits *)

(** The rwx triplet that applies, as a shift of the mode. *)
Definition triplet (p : process) (n : inode) (u g : Z) : Z :=
  if u =? i_uid n then 6 else if member p (i_gid n) g then 3 else 0.

(** The policy: root passes except for executing a file nobody may execute;
    others need every bit they ask for in their triplet. *)
Definition granted (p : process) (n : inode) (mask u g : Z) : Prop :=
  if u =? 0 then
    Z.testbit mask 0 = true -> itype n = VFS_DIRECTORY \/
      Z.testbit (i_mode n) 0 = true \/ Z.testbit (i_mode n) 3 = true \/ Z.testbit (i_mode n) 6 = true
  else forall i, 0 <= i < 3 -> Z.testbit mask i = true -> Z.testbit (i_mode n) (triplet p n u g + i) = true.

Lemma mask_subset m mask k :
  0 <= k -> 0 <= mask < 8 ->
  Z.land (Z.land (Z.shiftr m k) 7) mask = mask <->
  forall i, 0 <= i < 3 -> Z.testbit mask i = true -> Z.testbit m (k + i) = true.
Proof.
  intros Hk Hm. assert (forall i, 3 <= i -> Z.testbit mask i = false) as Hhigh.
  { intros i Hi. rewrite Z.testbit_eqb by lia. rewrite Z.div_small; [done|].
    split; [lia|]. apply Z.lt_le_trans with (2 ^ 3); [lia|]. apply Z.pow_le_mono_r; lia. }
  split.
  - intros E i Hi Hb. rewrite <- E, !Z.land_spec, Z.shiftr_spec in Hb by lia.
    rewrite Z.add_comm. destruct (Z.testbit m (i + k)); [done|]. discriminate.
  - intros H. apply Z.bits_inj'. intros i Hi. rewrite !Z.land_spec, Z.shiftr_spec by lia.
    destruct (Z.testbit mask i) eqn:Eb; [|apply andb_false_r].
    assert (i < 3) by (destruct (Z.lt_ge_cases i 3); [done|]; rewrite Hhigh in Eb by lia; done).
    rewrite Z.add_comm, H by (try lia; done). change 7 with (Z.ones 3). by rewrite Z.ones_spec_low by lia.
Qed.

Lemma exec_bits m : Z.land m 73 = 0 <->
  Z.testbit m 0 = false /\ Z.testbit m 3 = false /\ Z.testbit m 6 = false.
Proof.
  split.
  - intros E. assert (forall i, Z.testbit (Z.land m 73) i = false) as H by (intros; by rewrite E, Z.bits_0).
    pose proof (H 0) as H0. pose proof (H 3) as H3. pose proof (H 6) as H6. rewrite Z.land_spec in *.
    change (Z.testbit 73 0) with true in H0. change (Z.testbit 73 3) with true in H3.
    change (Z.testbit 73 6) with true in H6. rewrite andb_true_r in *. done.
  - intros (H0 & H3 & H6). apply Z.bits_inj'. intros i Hi. rewrite Z.land_spec, Z.bits_0.
    destruct (Z.lt_ge_cases i 7) as [Hlt|Hge].
    + assert (i = 0 \/ i = 1 \/ i = 2 \/ i = 3 \/ i = 4 \/ i = 5 \/ i = 6) as Hcases by lia.
      destruct Hcases as [->|[->|[->|[->|[->|[->| ->]]]]]]; rewrite ?H0, ?H3, ?H6; try done; apply andb_false_r.
    + rewrite (Z.bits_above_log2 73 i), andb_false_r; [done|lia|]. change (Z.log2 73) with 6. lia.
Qed.

Lemma mask_exec mask : (Z.land mask MAY_EXEC =? 0) = negb (Z.testbit mask 0).
Proof.
  destruct (Z.testbit mask 0) eqn:E; simpl.
  - apply Z.eqb_neq. intros H. apply (f_equal (fun z => Z.testbit z 0)) in H.
    rewrite Z.land_spec, E in H. done.
  - apply Z.eqb_eq, Z.bits_inj'. intros i Hi. rewrite Z.land_spec, Z.bits_0.
    destruct (Z.eq_dec i 0) as [->|]; [by rewrite E|].
    rewrite (Z.bits_above_log2 1 i), andb_false_r; [done|lia|simpl; lia].
Qed.

(** the permission check grants exactly what the rwx triplets grant: the
    owner's bits to the owner, else the group's to a member of the group
    (primary or supplementary), else the others'; root passes, except for
    executing a non-directory without any x bit. *)
Theorem check_spec p n mask (real : bool) :
  0 <= mask < 8 ->
  check (Some p) n mask real = 0 <->
  granted p n mask (if real then uid p else euid p) (if real then gid p else egid p).
Proof.
  intros Hm. unfold check, granted. set (u := if real then _ else _). set (g := if real then _ else _).
  destruct (u =? 0).
  - rewrite mask_exec, negb_involutive. destruct (Z.testbit mask 0); cbn [negb andb]; [|naive_solver].
    destruct (Z.eqb_spec (itype n) VFS_DIRECTORY); cbn [negb andb]; [naive_solver|].
    destruct (Z.eqb_spec (Z.land (i_mode n) 73) 0) as [E|E]; rewrite exec_bits in E.
    + split; [done|]. intros H. exfalso. destruct (H eq_refl) as [|Hx]; [done|].
      destruct E as (E0 & E3 & E6). rewrite E0, E3, E6 in Hx. naive_solver.
    + split; [|done]. intros _ _. right. destruct (Z.testbit _ 0), (Z.testbit _ 3), (Z.testbit _ 6); tauto.
  - unfold triplet.
    assert (forall k, 0 <= k -> (if Z.land (Z.land (Z.shiftr (i_mode n) k) 7) mask =? mask then 0 else - EACCES) = 0 <->
              forall i, 0 <= i < 3 -> Z.testbit mask i = true -> Z.testbit (i_mode n) (k + i) = true) as Hk.
    { intros k Hk. rewrite <- (mask_subset _ mask k Hk Hm).
      destruct (Z.eqb_spec (Z.land (Z.land (Z.shiftr (i_mode n) k) 7) mask) mask); [tauto|]. split; [done|tauto]. }
    destruct (u =? i_uid n); [apply (Hk 6); lia|]. destruct (member p (i_gid n) g); [apply (Hk 3); lia|].
    rewrite <- (Z.shiftr_0_r (i_mode n)) at 1. apply (Hk 0); lia.
Qed.

Lemma check_spec_witness :
  check (Some (set_euid 1000 (set_groups [5] zero_process)))
        (set_i_mode 416 (set_i_gid 5 (set_i_flags VFS_FILE zero_inode))) 4 false = 0.
Proof.
  apply check_spec; [lia|]. simpl. intros i Hi Hb. assert (i = 2) as -> by
    (destruct (Z.eq_dec i 0) as [->|]; [done|]; destruct (Z.eq_dec i 1) as [->|]; [done|]; lia).
  by vm_compute.
Defined.

(** ** No way up *)

Definition has_id (c : ids) (x : Z) : Prop := x = c.1.1 \/ x = c.1.2 \/ x = c.2.

Lemma setres_user c nr ne ns x c' :
  setres c nr ne ns false = (x, c') -> forall y, has_id c' y -> has_id c y.
Proof.
  destruct c as [[r e] s]. unfold setres. cbn [negb andb].
  assert (forall w, negb (w =? KEEP) && negb (w =? r) && negb (w =? e) && negb (w =? s) = false ->
            forall d, has_id (r, e, s) d -> has_id (r, e, s) (if negb (w =? KEEP) then w else d)) as Hok.
  { intros w Hw d Hd. destruct (w =? KEEP); simpl in *; [done|]. unfold has_id; simpl.
    destruct (Z.eqb_spec w r); [auto|]. destruct (Z.eqb_spec w e); [auto|]. destruct (Z.eqb_spec w s); [auto|]. done. }
  destruct (_ || _ || _) eqn:Eb; intros [= <- <-]; [done|].
  apply orb_false_iff in Eb as [[Hr He]%orb_false_iff Hs].
  intros y [-> | [-> | ->]]; apply Hok; try done; unfold has_id; simpl; auto.
Qed.

(** The calls a process can make on its ids. *)
Inductive cred_call :=
| SetUid (u : Z) | SetGid (g : Z) | SetReUid (r e : Z) | SetReGid (r e : Z)
| SetResUid (r e s : Z) | SetResGid (r e s : Z) | SetGroups (n list_ : Z).

Section NoEscalation.
  Context {U : Type} `{UM : UserMem U}.

Definition run_call (c : cred_call) (p : process) : M U (Z * process) :=
  match c with
  | SetUid u => mret (sys_setuid u p)
  | SetGid g => mret (sys_setgid g p)
  | SetReUid r e => mret (sys_setreuid r e p)
  | SetReGid r e => mret (sys_setregid r e p)
  | SetResUid r e s => mret (sys_setresuid r e s p)
  | SetResGid r e s => mret (sys_setresgid r e s p)
  | SetGroups n l => sys_setgroups p n l
  end.

Fixpoint run_calls (cs : list cred_call) (p : process) : M U process :=
  match cs with
  | [] => mret p
  | c :: cs' => '(_, p) ← run_call c p; run_calls cs' p
  end.

(** [p'] holds no id that [p] does not hold. *)
Definition no_more (p p' : process) : Prop :=
  (forall x, has_id (uids p') x -> has_id (uids p) x)
  /\ (forall x, has_id (gids p') x -> has_id (gids p) x) /\ groups p' = groups p.

#[global] Instance no_more_preorder : PreOrder no_more.
Proof. split; [by intros p|]. intros p1 p2 p3 (? & ? & ?) (? & ? & ?). split_and!; [auto..|congruence]. Qed.

Lemma setresuid_no_more r e s p : euid p <> 0 -> no_more p (sys_setresuid r e s p).2.
Proof.
  intros Hp. unfold sys_setresuid. rewrite (proj2 (Z.eqb_neq _ _)) by done.
  destruct (setres _ _ _ _ _) as [x [[r' e'] s']] eqn:E. split_and!; [|done|done]. exact (setres_user _ _ _ _ _ _ E).
Qed.

Lemma setresgid_no_more r e s p : euid p <> 0 -> no_more p (sys_setresgid r e s p).2.
Proof.
  intros Hp. unfold sys_setresgid. rewrite (proj2 (Z.eqb_neq _ _)) by done.
  destruct (setres _ _ _ _ _) as [x [[r' e'] s']] eqn:E. split_and!; [done| |done]. exact (setres_user _ _ _ _ _ _ E).
Qed.

Lemma run_call_no_more c p (u : U) :
  euid p <> 0 -> wp (run_call c p) (fun r u' => u' = u /\ no_more p r.2) u.
Proof.
  intros Hp. assert ((euid p =? 0) = false) as E by by apply Z.eqb_neq.
  destruct c as [v|g|r e|r e|r e s|r e s|n l]; cbn [run_call].
  - wp_steps. split; [done|]. unfold sys_setuid. rewrite E. destruct (_ =? KEEP); [done|by apply setresuid_no_more].
  - wp_steps. split; [done|]. unfold sys_setgid. rewrite E. destruct (_ =? KEEP); [done|by apply setresgid_no_more].
  - wp_steps. split; [done|]. by apply setresuid_no_more.
  - wp_steps. split; [done|]. by apply setresgid_no_more.
  - wp_steps. split; [done|]. by apply setresuid_no_more.
  - wp_steps. split; [done|]. by apply setresgid_no_more.
  - unfold sys_setgroups. rewrite E. cbn [negb]. by wp_steps.
Qed.

Lemma no_more_user p p' : no_more p p' -> ~ has_id (uids p) 0 -> ~ has_id (uids p') 0.
Proof. intros (H & _) H0 H0'. auto. Qed.

(** C9: a process none of whose user ids is root's can make any sequence of
    set*id and setgroups calls: it ends with no user or group id it did not
    hold at the start and with the same supplementary groups; in particular
    it never becomes root. *)
Theorem no_escalation cs p (u : U) :
  ~ has_id (uids p) 0 -> wp (run_calls cs p) (fun p' u' => u' = u /\ no_more p p' /\ euid p' <> 0) u.
Proof.
  revert p; induction cs as [|c cs IH]; intros p H0; cbn [run_calls].
  - wp_steps. split_and!; [done|done|]. intros E. apply H0. right; left. done.
  - assert (euid p <> 0) by (intros E; apply H0; right; left; done).
    wp_step. eapply wp_mono; [by apply run_call_no_more|]. intros [x p1] u1 [-> Hn]. simpl in Hn.
    eapply wp_mono; [apply IH; by eapply no_more_user|]. intros p2 u2 (-> & Hn2 & He).
    split_and!; [done|by transitivity p1|done].
Qed.
End NoEscalation.

Lemma no_escalation_witness :
  wp (run_calls [SetReUid 1000 0; SetUid 0; SetGroups 0 4096] (set_uids (1000, 1001, 1002) zero_process))
     (fun p' u' => u' = flat64 /\ no_more (set_uids (1000, 1001, 1002) zero_process) p' /\ euid p' <> 0) flat64.
Proof. apply no_escalation. unfold has_id; simpl. lia. Defined.

(** ** Groups in user memory *)

Section Groups.
  Context {U : Type} `{UM : UserMem U}.
  Implicit Types u : U.

Definition group_bytes (gs : list Z) : list Z := concat (le_bytes 4 <$> gs).

Lemma length_group_bytes gs : length (group_bytes gs) = (4 * length gs)%nat.
Proof.
  unfold group_bytes. induction gs as [|g gs IH]; [done|].
  rewrite fmap_cons. cbn [concat length]. rewrite length_app, length_le_bytes. lia.
Qed.

Lemma group_bytes_byte gs : Forall byte (group_bytes gs).
Proof.
  unfold group_bytes. induction gs as [|g gs IH]; [constructor|].
  rewrite fmap_cons. cbn [concat]. apply Forall_app. split; [apply le_bytes_byte|done].
Qed.

Lemma store_bytes_app a bs bs' (u : U) :
  store_bytes a (bs ++ bs') u = (_ ← store_bytes a bs; store_bytes (a + Z.of_nat (length bs)) bs') u.
Proof.
  unfold mbind, M_bind. revert a u; induction bs as [|b bs IH]; intros a u.
  - cbn [app length store_bytes]. unfold mret, M_ret. by rewrite Z.add_0_r.
  - rewrite <- app_comm_cons. cbn [store_bytes length]. unfold mbind, M_bind.
    destruct (user_store a b u) as [[[] u1]|]; [|done]. rewrite IH.
    by replace (a + Z.of_nat (S (length bs))) with (a + 1 + Z.of_nat (length bs)) by lia.
Qed.

Lemma put_groups_bytes a gs (u : U) : put_groups a gs u = store_bytes a (group_bytes gs) u.
Proof.
  revert a u; induction gs as [|g gs IH]; intros a u; [done|].
  unfold group_bytes. rewrite fmap_cons. cbn [concat put_groups]. rewrite store_bytes_app, length_le_bytes.
  unfold store32, mbind, M_bind. destruct (store_bytes a (le_bytes 4 g) u) as [[[] u1]|]; [|done]. apply IH.
Qed.

Lemma le_bytes_value bs : Forall byte bs -> le_bytes (length bs) (le_value bs) = bs.
Proof.
  induction 1 as [|b bs Hb _ IH]; [done|]. cbn [length le_bytes le_value].
  replace ((b + 256 * le_value bs) mod 256) with b by (unfold byte in Hb; lia_div).
  replace ((b + 256 * le_value bs) / 256) with (le_value bs) by (unfold byte in Hb; lia_div). by rewrite IH.
Qed.

Lemma wp_get_groups u a n (Q : list Z -> U -> Prop) :
  um_inv u -> can_read u a (4 * Z.of_nat n) ->
  (forall gs, length gs = n -> (forall i, 0 <= i < 4 * Z.of_nat n -> peek u (a + i) = group_bytes gs !! Z.to_nat i) -> Q gs u) ->
  wp (get_groups a n) Q u.
Proof.
  intros Hi. revert a Q; induction n as [|n IH]; intros a Q Hr HQ; cbn [get_groups].
  { wp_steps. apply HQ; [done|]. intros; lia. }
  wp_step. unfold load32. wp_step. apply wp_load_bytes; [done|intros x Hx; apply Hr; lia|].
  intros bs Hlen Hbs Hp. wp_steps. apply IH; [intros x Hx; apply Hr; lia|].
  intros gs Hgs Hp'. wp_steps. apply HQ; [simpl; by rewrite Hgs|].
  intros i Hi'. unfold group_bytes. rewrite fmap_cons. cbn [concat].
  replace (le_bytes 4 (le_value bs)) with bs by (rewrite <- Hlen; symmetry; by apply le_bytes_value).
  destruct (Z.lt_ge_cases i 4).
  - rewrite lookup_app_l by lia. apply Hp. lia.
  - rewrite lookup_app_r by lia. replace (a + i) with (a + 4 + (i - 4)) by lia. rewrite Hp' by lia.
    f_equal. lia.
Qed.

(** groups set from one user buffer and read back into another are the
    same bytes, and neither call faults on any user pointer. *)
Theorem groups_roundtrip p u size_ src dst :
  um_inv u -> euid p = 0 -> 0 < size_ <= NGROUPS_MAX ->
  wp ('(r, p') ← sys_setgroups p size_ src;
      if negb (r =? 0) then mret r else sys_getgroups p' size_ dst)
     (fun x u' => um_inv u' /\ (x = - EFAULT \/ x = size_ /\
        forall i b, 0 <= i < 4 * size_ -> peek u (u64 src + i) = Some b -> peek u' (u64 dst + i) = Some b)) u.
Proof.
  intros Hi He Hsz. wp_step. unfold sys_setgroups, sys_getgroups. rewrite He. cbn [Z.eqb negb].
  rewrite (proj2 (Z.ltb_ge size_ 0)) by lia. rewrite (proj2 (Z.ltb_ge 32 size_)) by lia.
  rewrite (proj2 (Z.eqb_neq size_ 0)) by lia. cbn [orb]. rewrite (u64_small (size_ * 4)), (u32_small size_) by lia.
  wp_step. apply wp_user_ok; [done|apply u64_bound|lia| |]; intros u1 Hi1 Hg1; [|intros Hr1 _]; cbn [negb].
  { wp_steps. split; [done|by left]. }
  wp_step. apply wp_get_groups; [done|intros x Hx; apply Hr1; lia|]. intros gs Hlen Hp. wp_step. cbn [Z.eqb negb].
  simpl groups. rewrite Hlen, Z2Nat.id by lia. rewrite (proj2 (Z.ltb_ge size_ size_)), (u64_small (size_ * 4)) by lia.
  wp_step. apply wp_user_ok; [done|apply u64_bound|lia| |]; intros u2 Hi2 Hg2; [|intros _ Hw2]; cbn [negb].
  { wp_steps. split; [done|by left]. }
  wp_step. unfold wp at 1. rewrite put_groups_bytes.
  apply wp_store_bytes; [done|apply group_bytes_byte| |].
  { rewrite length_group_bytes, Hlen. intros x Hx. apply Hw2; [done|lia]. }
  intros u3 Hi3 [Hp3 _]. wp_steps. split; [done|right]. split; [done|]. intros i b Hi' Hb.
  rewrite Hp3, length_group_bytes, Hlen, decide_True by lia.
  replace (u64 dst + i - u64 dst) with i by lia. rewrite <- Hp by lia. by apply Hg1.
Qed.
End Groups.

Lemma groups_roundtrip_witness :
  wp ('(r, p') ← sys_setgroups zero_process 2 4096;
      if negb (r =? 0) then mret r else sys_getgroups p' 2 4128)
     (fun x u' => um_inv u' /\ (x = - EFAULT \/ x = 2 /\
        forall i b, 0 <= i < 4 * 2 -> peek flat64 (u64 4096 + i) = Some b -> peek u' (u64 4128 + i) = Some b)) flat64.
Proof. apply groups_roundtrip; [apply flat64_inv|done|lia]. Defined.
