(* ===== verification/CString.v ===== *)
(** * The kernel's C library: src/src/kernel/libc/string.c

    Memory is a partial map from addresses to bytes; reading or writing an
    address that is not mapped is a fault, the value [None]. Every function
    is therefore a proof obligation of memory safety as much as of its
    result. Loops bounded by a [size_t] recurse on that count; loops that
    run to a terminator take fuel, and each specification asks for one more
    step than the string is long. *)
From S2P Require Import Prelude.

Abbreviation mem := (gmap Z Z).

(** ** Loads and stores *)

Definition store (m : mem) (a v : Z) : option mem :=
  match m !! a with
  | Some _ => Some (<[a := v]> m)
  | None => None
  end.

(** ** string.c *)

Fixpoint memset_loop (n : nat) (m : mem) (p value : Z) : option mem :=
  match n with
  | O => Some m
  | S n' => m ← store m p (u8 value); memset_loop n' m (p + 1) value
  end.

Definition memset (m : mem) (ptr value size : Z) : option mem :=
  memset_loop (Z.to_nat size) m ptr value.

Fixpoint strcmp (fuel : nat) (m : mem) (s1 s2 : Z) : option Z :=
  match fuel with
  | O => None
  | S fuel' =>
      c1 ← m !! s1; c2 ← m !! s2;
      if negb (c1 =? 0) && (c1 =? c2) then strcmp fuel' m (s1 + 1) (s2 + 1)
      else Some (c1 - c2)
  end.

Fixpoint strncmp_loop (n : nat) (m : mem) (s1 s2 : Z) : option Z :=
  match n with
  | O => Some 0
  | S n' =>
      c1 ← m !! s1; c2 ← m !! s2;
      if negb (c1 =? c2) then Some (c1 - c2)
      else if c1 =? 0 then Some 0
      else strncmp_loop n' m (s1 + 1) (s2 + 1)
  end.

Definition strncmp (m : mem) (s1 s2 n : Z) : option Z :=
  strncmp_loop (Z.to_nat n) m s1 s2.

Fixpoint strcpy (fuel : nat) (m : mem) (dest src : Z) : option mem :=
  match fuel with
  | O => None
  | S fuel' =>
      c ← m !! src; m ← store m dest c;
      if c =? 0 then Some m else strcpy fuel' m (dest + 1) (src + 1)
  end.

Fixpoint memcpy_loop (n : nat) (m : mem) (d s : Z) : option mem :=
  match n with
  | O => Some m
  | S n' => c ← m !! s; m ← store m d c; memcpy_loop n' m (d + 1) (s + 1)
  end.

Definition memcpy (m : mem) (dest src n : Z) : option mem :=
  memcpy_loop (Z.to_nat n) m dest src.

(** The first loop copies until [n] bytes or the terminator, the second
    pads what is left with zeros. *)
Fixpoint strncpy_loop (n : nat) (m : mem) (dest src : Z) : option mem :=
  match n with
  | O => Some m
  | S n' =>
      c ← m !! src;
      if c =? 0 then memset_loop n m dest 0
      else m ← store m dest c; strncpy_loop n' m (dest + 1) (src + 1)
  end.

Definition strncpy (m : mem) (dest src n : Z) : option mem :=
  strncpy_loop (Z.to_nat n) m dest src.

Fixpoint strlen_from (fuel : nat) (m : mem) (s len : Z) : option Z :=
  match fuel with
  | O => None
  | S fuel' =>
      c ← m !! (s + len);
      if c =? 0 then Some len else strlen_from fuel' m s (len + 1)
  end.

Definition strlen (fuel : nat) (m : mem) (s : Z) : option Z :=
  strlen_from fuel m s 0.

(** A pointer result: [Some p] or [None] for [NULL]. *)
Fixpoint strchr (fuel : nat) (m : mem) (s c : Z) : option (option Z) :=
  match fuel with
  | O => None
  | S fuel' =>
      x ← m !! s;
      if negb (x =? 0) then
        if x =? u8 c then Some (Some s) else strchr fuel' m (s + 1) c
      else Some (if u8 c =? 0 then Some s else None)
  end.

Fixpoint strrchr_from (fuel : nat) (m : mem) (s c : Z) (last : option Z)
  : option (option Z) :=
  match fuel with
  | O => None
  | S fuel' =>
      x ← m !! s;
      let last := if x =? u8 c then Some s else last in
      if x =? 0 then Some last else strrchr_from fuel' m (s + 1) c last
  end.

Definition strrchr (fuel : nat) (m : mem) (s c : Z) : option (option Z) :=
  strrchr_from fuel m s c None.

Fixpoint strstr_from (fuel : nat) (m : mem) (haystack needle n : Z)
  : option (option Z) :=
  match fuel with
  | O => None
  | S fuel' =>
      x ← m !! haystack;
      if x =? 0 then Some (if n =? 0 then Some haystack else None)
      else
        r ← strncmp m haystack needle n;
        if r =? 0 then Some (Some haystack)
        else strstr_from fuel' m (haystack + 1) needle n
  end.

Definition strstr (fuel : nat) (m : mem) (haystack needle : Z) : option (option Z) :=
  n ← strlen fuel m needle; strstr_from fuel m haystack needle n.

(** The downward loop: [while (n--) d[n] = s[n]]. *)
Fixpoint memmove_down (n : nat) (m : mem) (d s : Z) : option mem :=
  match n with
  | O => Some m
  | S n' =>
      c ← m !! (s + Z.of_nat n'); m ← store m (d + Z.of_nat n') c;
      memmove_down n' m d s
  end.

Definition memmove (m : mem) (dst src n : Z) : option mem :=
  if dst <? src then memcpy_loop (Z.to_nat n) m dst src
  else memmove_down (Z.to_nat n) m dst src.

Fixpoint memcmp_loop (n : nat) (m : mem) (x y : Z) : option Z :=
  match n with
  | O => Some 0
  | S n' =>
      a ← m !! x; b ← m !! y;
      if negb (a =? b) then Some (a - b) else memcmp_loop n' m (x + 1) (y + 1)
  end.

Definition memcmp (m : mem) (a b n : Z) : option Z :=
  memcmp_loop (Z.to_nat n) m a b.

(** ** Specification vocabulary *)

(** The bytes [l] are stored from address [a] on. *)
Fixpoint bytes_at (m : mem) (a : Z) (l : list Z) : Prop :=
  match l with
  | [] => True
  | x :: l' => m !! a = Some x /\ bytes_at m (a + 1) l'
  end.

(** A NUL-terminated string with the non-NUL bytes [s]. *)
Definition cstr (m : mem) (a : Z) (s : list Z) : Prop :=
  bytes_at m a (s ++ [0]) /\ Forall (fun c => 0 < c < 256) s.

(** Every byte of [[a, a+n)] is mapped. *)
Definition mapped (m : mem) (a n : Z) : Prop :=
  forall i, 0 <= i < n -> is_Some (m !! (a + i)).

(** Nothing outside [[a, a+n)] changed, and nothing was unmapped. *)
Definition same_except (m m' : mem) (a n : Z) : Prop :=
  forall x, ~ (a <= x < a + n) -> m' !! x = m !! x.

(** Byte-wise lexicographic order, a proper prefix coming first. *)
Fixpoint lex_lt (a b : list Z) : Prop :=
  match a, b with
  | _, [] => False
  | [], _ :: _ => True
  | x :: a', y :: b' => x < y \/ (x = y /\ lex_lt a' b')
  end.

(** ** Lemmas on memory *)

Lemma bytes_at_lookup m a l :
  bytes_at m a l <-> forall (i : nat) x, l !! i = Some x -> m !! (a + Z.of_nat i) = Some x.
Proof.
  revert a; induction l as [|y l IH]; intros a; simpl.
  - split; [intros _ i x; by rewrite lookup_nil|done].
  - rewrite IH. split.
    + intros [H0 H] [|i] x Hx; simplify_eq/=.
      * by rewrite Z.add_0_r.
      * rewrite <- (H i) by done. f_equal. lia.
    + intros H. split.
      * rewrite <- (H 0%nat y) by done. f_equal. lia.
      * intros i x Hx. rewrite <- (H (S i) x) by done. f_equal. lia.
Qed.

Lemma bytes_at_app m a l1 l2 :
  bytes_at m a (l1 ++ l2) <-> bytes_at m a l1 /\ bytes_at m (a + Z.of_nat (length l1)) l2.
Proof.
  revert a; induction l1 as [|x l1 IH]; intros a; simpl.
  - rewrite Z.add_0_r. tauto.
  - rewrite IH. replace (a + 1 + Z.of_nat (length l1)) with (a + Z.of_nat (S (length l1))) by lia.
    tauto.
Qed.

Lemma bytes_at_insert_ne m a l x v :
  ~ (a <= x < a + Z.of_nat (length l)) -> bytes_at m a l -> bytes_at (<[x := v]> m) a l.
Proof.
  rewrite !bytes_at_lookup. intros Hx H i y Hi.
  pose proof (lookup_lt_Some _ _ _ Hi).
  rewrite lookup_insert_ne by lia. eauto.
Qed.

Lemma cstr_cons m a c s : cstr m a (c :: s) <-> m !! a = Some c /\ 0 < c < 256 /\ cstr m (a + 1) s.
Proof. unfold cstr; simpl. rewrite Forall_cons. tauto. Qed.

Lemma cstr_nil m a : cstr m a [] <-> m !! a = Some 0.
Proof. unfold cstr; simpl. split; [tauto|]. intros; repeat split; auto. Qed.

Lemma cstr_insert_ne m a s x v :
  ~ (a <= x <= a + Z.of_nat (length s)) -> cstr m a s -> cstr (<[x := v]> m) a s.
Proof.
  intros Hx [H Hs]; split; [|done]. apply bytes_at_insert_ne; [|done].
  rewrite length_app; simpl; lia.
Qed.

Lemma mapped_0 m a n : 0 < n -> mapped m a n -> is_Some (m !! a).
Proof. intros Hn H. specialize (H 0). rewrite Z.add_0_r in H. apply H. lia. Qed.

Lemma mapped_shift m a n : 0 < n -> mapped m a n -> mapped m (a + 1) (n - 1).
Proof. intros Hn H i Hi. rewrite <- Z.add_assoc. apply H. lia. Qed.

Lemma mapped_insert m a n x v : mapped m a n -> mapped (<[x := v]> m) a n.
Proof. intros H i Hi. rewrite lookup_insert. case_decide; [eauto|by apply H]. Qed.

Lemma mapped_weaken m a n n' : n' <= n -> mapped m a n -> mapped m a n'.
Proof. intros Hn H i Hi. apply H. lia. Qed.

Lemma store_mapped m a v : is_Some (m !! a) -> store m a v = Some (<[a := v]> m).
Proof. intros [y Hy]. unfold store. by rewrite Hy. Qed.

Lemma same_except_refl m a n : same_except m m a n.
Proof. by intros x _. Qed.

(** Writing the first byte and then the rest. *)
Lemma same_except_step m m' a n v :
  0 < n -> same_except (<[a := v]> m) m' (a + 1) (n - 1) -> same_except m m' a n.
Proof. intros Hn H x Hx. rewrite H by lia. apply lookup_insert_ne. lia. Qed.

Create HintDb cmem.
#[export] Hint Resolve mapped_insert mapped_weaken same_except_refl : cmem.

(** ** Copying and filling *)

Lemma memset_loop_spec n m p v :
  mapped m p (Z.of_nat n) ->
  exists m', memset_loop n m p v = Some m'
    /\ bytes_at m' p (replicate n (u8 v)) /\ same_except m m' p (Z.of_nat n).
Proof.
  revert m p; induction n as [|n IH]; intros m p Hm; simpl.
  - eauto with cmem.
  - rewrite store_mapped by (eapply mapped_0, Hm; lia). simpl.
    destruct (IH (<[p := u8 v]> m) (p + 1)) as (m' & Hr & Hb & Hs).
    { apply mapped_insert. eapply mapped_weaken; [|apply mapped_shift, Hm]; lia. }
    exists m'. split_and!; [done| |done|].
    + rewrite Hs by lia. apply lookup_insert_eq.
    + eapply same_except_step with (v := u8 v); [lia|].
      eapply eq_ind; [exact Hs|]. lia.
Qed.

(** An upward copy is right when the destination does not start inside
    the source. *)
Lemma memcpy_loop_spec n m d s :
  mapped m d (Z.of_nat n) -> mapped m s (Z.of_nat n) ->
  d <= s \/ s + Z.of_nat n <= d ->
  exists m', memcpy_loop n m d s = Some m'
    /\ (forall i, 0 <= i < Z.of_nat n -> m' !! (d + i) = m !! (s + i))
    /\ same_except m m' d (Z.of_nat n).
Proof.
  revert m d s; induction n as [|n IH]; intros m d s Hd Hs Ho; simpl.
  - exists m. split_and!; [done| intros; lia | done].
  - destruct (mapped_0 m s (Z.of_nat (S n))) as [c Hc]; [lia|done|].
    rewrite Hc; simpl. rewrite store_mapped by (eapply mapped_0, Hd; lia). simpl.
    destruct (IH (<[d := c]> m) (d + 1) (s + 1)) as (m' & Hr & Hb & Hx); [| |lia|].
    1,2: apply mapped_insert; eapply mapped_weaken; [|by apply mapped_shift; [|eassumption]]; lia.
    exists m'. split_and!; [done| |].
    + intros i Hi. destruct (decide (i = 0)) as [->|].
      * rewrite !Z.add_0_r, Hx, lookup_insert_eq by lia. done.
      * replace (d + i) with (d + 1 + (i - 1)) by lia. rewrite Hb by lia.
        rewrite lookup_insert_ne by lia. f_equal. lia.
    + eapply same_except_step with (v := c); [lia|]. eapply eq_ind; [exact Hx|]. lia.
Qed.

(** A downward copy is right when the destination is not below the source. *)
Lemma memmove_down_spec n m d s :
  mapped m d (Z.of_nat n) -> mapped m s (Z.of_nat n) -> s <= d ->
  exists m', memmove_down n m d s = Some m'
    /\ (forall i, 0 <= i < Z.of_nat n -> m' !! (d + i) = m !! (s + i))
    /\ same_except m m' d (Z.of_nat n).
Proof.
  revert m; induction n as [|n IH]; intros m Hd Hs Ho; simpl.
  - exists m. split_and!; [done| intros; lia | done].
  - destruct (Hs (Z.of_nat n)) as [c Hc]; [lia|]. rewrite Hc; simpl.
    rewrite store_mapped by (apply Hd; lia). simpl.
    destruct (IH (<[d + Z.of_nat n := c]> m)) as (m' & Hr & Hb & Hx); [| |done|].
    1,2: apply mapped_insert; eapply mapped_weaken; [|eassumption]; lia.
    exists m'. split_and!; [done| |].
    + intros i Hi. destruct (decide (i = Z.of_nat n)) as [->|].
      * rewrite Hx, lookup_insert_eq by lia. done.
      * rewrite Hb by lia. rewrite lookup_insert_ne by lia. done.
    + intros x Hx'. rewrite Hx by lia. apply lookup_insert_ne. lia.
Qed.

(** memmove copies correctly whatever the overlap: if both ranges are
    mapped it never faults, each destination byte becomes the source byte
    that was there before the call, and no other byte changes. *)
Theorem memmove_correct m dst src n :
  0 <= n -> mapped m dst n -> mapped m src n ->
  exists m', memmove m dst src n = Some m'
    /\ (forall i, 0 <= i < n -> m' !! (dst + i) = m !! (src + i))
    /\ same_except m m' dst n.
Proof.
  intros Hn Hd Hs. rewrite <- (Z2Nat.id n) in Hd, Hs |- * by done.
  unfold memmove. rewrite Nat2Z.id. destruct (Z.ltb_spec dst src).
  - apply memcpy_loop_spec; auto; lia.
  - apply memmove_down_spec; auto; lia.
Qed.

(** Ten mapped bytes, for the witnesses. *)
Definition mem10 : mem :=
  list_to_map (zip (seqZ 100 10) [104; 101; 108; 108; 111; 0; 108; 111; 0; 7]).

Lemma mem10_mapped a n : 100 <= a -> a + n <= 110 -> mapped mem10 a n.
Proof.
  intros Ha Hn i Hi. assert (a + i ∈ seqZ 100 10) as Hx by (apply elem_of_seqZ; lia).
  revert Hx. generalize (a + i). apply Forall_forall. repeat constructor; eexists; vm_compute; done.
Qed.

Lemma memmove_correct_witness :
  exists m', memmove mem10 102 100 6 = Some m'
    /\ (forall i, 0 <= i < 6 -> m' !! (102 + i) = mem10 !! (100 + i))
    /\ same_except mem10 m' 102 6.
Proof. apply memmove_correct; [lia | apply mem10_mapped; lia | apply mem10_mapped; lia]. Defined.

(** ** Comparing *)

Lemma lex_lt_irrefl a : ~ lex_lt a a.
Proof. induction a as [|x a IH]; simpl; [tauto|]. intros [?|[_ ?]]; [lia|auto]. Qed.

Lemma strcmp_spec fuel m a1 a2 s1 s2 :
  cstr m a1 s1 -> cstr m a2 s2 -> (length s1 < fuel)%nat ->
  exists r, strcmp fuel m a1 a2 = Some r
    /\ (r = 0 <-> s1 = s2) /\ (r < 0 <-> lex_lt s1 s2).
Proof.
  revert m a1 a2 s1 s2; induction fuel as [|fuel IH]; [lia|].
  intros m a1 a2 s1 s2 H1 H2 Hf; simpl.
  destruct s1 as [|c1 s1], s2 as [|c2 s2];
    rewrite ?cstr_nil, ?cstr_cons in *; destruct_and?;
    repeat match goal with H : m !! _ = Some _ |- _ => rewrite H; clear H end; simpl.
  - exists 0; split_and!; [done|tauto|lia].
  - exists (0 - c2); split_and!; [done|split; [lia|done]|]. split; [done|lia].
  - destruct (Z.eqb_spec c1 0); [lia|]. simpl. destruct (Z.eqb_spec c1 0); [lia|].
    exists (c1 - 0); split_and!; [done|split; [lia|done]|split; [lia|done]].
  - destruct (Z.eqb_spec c1 0); [lia|]. simpl. destruct (Z.eqb_spec c1 c2) as [->|].
    + destruct (IH m (a1 + 1) (a2 + 1) s1 s2) as (r & -> & He & Hl); [done|done|simpl in Hf; lia|].
      exists r; split_and!; [done| |].
      * rewrite He. split; [by intros ->|by intros [= ->]].
      * rewrite Hl. split; [tauto|]. intros [?|[_ ?]]; [lia|done].
    + exists (c1 - c2); split_and!; [done| |].
      * split; [lia|by intros [= -> ->]].
      * split; [lia|]. intros [?|[? _]]; lia.
Qed.

(** strcmp orders strings as the byte-wise lexicographic order does:
    zero exactly on equal strings, negative exactly when the first comes
    before the second, and it never reads past the terminators. *)
Theorem strcmp_order m a1 a2 s1 s2 :
  cstr m a1 s1 -> cstr m a2 s2 ->
  exists r, strcmp (S (length s1)) m a1 a2 = Some r
    /\ (r = 0 <-> s1 = s2) /\ (r < 0 <-> lex_lt s1 s2).
Proof. intros H1 H2. eapply strcmp_spec; eauto. Qed.

Lemma strcmp_order_witness :
  exists r, strcmp 3 mem10 103 106 = Some r
    /\ (r = 0 <-> [108; 111] = [108; 111]) /\ (r < 0 <-> lex_lt [108; 111] [108; 111]).
Proof.
  apply (strcmp_order mem10 103 106 [108; 111] [108; 111]);
    repeat (apply cstr_cons; split_and!; [by vm_compute|lia|lia|]); apply cstr_nil; by vm_compute.
Defined.

Lemma strncmp_loop_spec n m a1 a2 s1 s2 :
  cstr m a1 s1 -> cstr m a2 s2 ->
  exists r, strncmp_loop n m a1 a2 = Some r /\ (r = 0 <-> take n s1 = take n s2).
Proof.
  revert a1 a2 s1 s2; induction n as [|n IH]; intros a1 a2 s1 s2 H1 H2; simpl.
  { exists 0. by rewrite !take_0. }
  destruct s1 as [|c1 s1], s2 as [|c2 s2];
    rewrite ?cstr_nil, ?cstr_cons in *; destruct_and?;
    repeat match goal with H : m !! _ = Some _ |- _ => rewrite H; clear H end; cbn [mbind option_bind].
  - exists 0; simpl; tauto.
  - destruct (Z.eqb_spec 0 c2); [lia|]. eexists; split; [reflexivity|]. split; [lia|done].
  - destruct (Z.eqb_spec c1 0); [lia|]. eexists; split; [reflexivity|]. split; [lia|done].
  - destruct (Z.eqb_spec c1 c2) as [->|]; simpl.
    + destruct (Z.eqb_spec c2 0); [lia|].
      destruct (IH (a1 + 1) (a2 + 1) s1 s2) as (r & -> & He); [done|done|].
      exists r. split; [done|]. rewrite He. split; [by intros ->|by intros [= ->]].
    + exists (c1 - c2); split; [done|]. split; [lia|by intros [= -> _]].
Qed.

Lemma strncmp_spec m a1 a2 s1 s2 n :
  cstr m a1 s1 -> cstr m a2 s2 ->
  exists r, strncmp m a1 a2 n = Some r
    /\ (r = 0 <-> take (Z.to_nat n) s1 = take (Z.to_nat n) s2).
Proof. apply strncmp_loop_spec. Qed.

Lemma memcmp_spec n m a b l1 l2 :
  bytes_at m a l1 -> bytes_at m b l2 -> length l1 = n -> length l2 = n ->
  exists r, memcmp m a b (Z.of_nat n) = Some r /\ (r = 0 <-> l1 = l2).
Proof.
  unfold memcmp. rewrite Nat2Z.id.
  revert a b l1 l2; induction n as [|n IH]; intros a b [|x l1] [|y l2]; simpl; try done.
  { exists 0. tauto. }
  intros [-> H1] [-> H2] [= L1] [= L2]. simpl. destruct (Z.eqb_spec x y) as [->|]; simpl.
  - destruct (IH (a + 1) (b + 1) l1 l2) as (r & -> & He); auto.
    exists r. split; [done|]. rewrite He. split; [by intros ->|by intros [= ->]].
  - exists (x - y). split; [done|]. split; [lia|by intros [= -> _]].
Qed.

(** ** Scanning *)

Lemma strlen_from_spec fuel m a s k :
  cstr m (a + k) s -> (length s < fuel)%nat ->
  strlen_from fuel m a k = Some (k + Z.of_nat (length s)).
Proof.
  revert s k; induction fuel as [|fuel IH]; [lia|]. intros [|c s] k H Hf; simpl.
  - apply cstr_nil in H. rewrite H; simpl. f_equal; lia.
  - apply cstr_cons in H as (H & Hc & Hs). rewrite H; simpl.
    destruct (Z.eqb_spec c 0); [lia|]. rewrite (IH s); [f_equal; lia| |simpl in Hf; lia].
    by replace (a + (k + 1)) with (a + k + 1) by lia.
Qed.

Lemma strlen_spec fuel m a s :
  cstr m a s -> (length s < fuel)%nat -> strlen fuel m a = Some (Z.of_nat (length s)).
Proof.
  intros H Hf. unfold strlen. rewrite (strlen_from_spec _ _ _ s); [done| |done].
  by rewrite Z.add_0_r.
Qed.

(** strchr gives the first occurrence; the terminator counts as one. *)
Lemma strchr_spec fuel m a s c :
  cstr m a s -> (length s < fuel)%nat ->
  exists r, strchr fuel m a c = Some r /\
    match r with
    | Some p => exists i : nat, p = a + Z.of_nat i /\ (s ++ [0]) !! i = Some (u8 c)
                  /\ forall j x, (j < i)%nat -> s !! j = Some x -> x <> u8 c
    | None => u8 c ∉ s ++ [0]
    end.
Proof.
  revert a s; induction fuel as [|fuel IH]; [lia|]. intros a [|x s] H Hf; simpl.
  - apply cstr_nil in H. rewrite H; simpl. eexists; split; [done|].
    destruct (Z.eqb_spec (u8 c) 0) as [->|Hc].
    + exists 0%nat. split_and!; [lia|done|]. intros j y Hj; lia.
    + set_solver.
  - apply cstr_cons in H as (H & Hx & Hs). rewrite H; simpl.
    destruct (Z.eqb_spec x 0); [lia|]; simpl. destruct (Z.eqb_spec x (u8 c)) as [->|Hne].
    { eexists; split; [done|]. exists 0%nat. split_and!; [lia|done|]. intros j y Hj; lia. }
    destruct (IH (a + 1) s) as (r & -> & Hr); [done|simpl in Hf; lia|].
    exists r; split; [done|]. destruct r as [p|]; [|set_solver].
    destruct Hr as (i & -> & Hi & Hfirst). exists (S i). split_and!; [lia|done|].
    intros [|j] y Hj Hy; simplify_eq/=; [done|]. eapply Hfirst; [|done]. lia.
Qed.

(** strrchr gives the last occurrence. *)
Lemma strrchr_from_spec fuel m a s c last :
  cstr m a s -> (length s < fuel)%nat ->
  exists r, strrchr_from fuel m a c last = Some r /\
    ((r = last /\ u8 c ∉ s ++ [0]) \/
     exists i : nat, r = Some (a + Z.of_nat i) /\ (s ++ [0]) !! i = Some (u8 c)
       /\ forall j, (i < j)%nat -> (s ++ [0]) !! j <> Some (u8 c)).
Proof.
  revert a s last; induction fuel as [|fuel IH]; [lia|]. intros a [|x s] last H Hf; simpl.
  - apply cstr_nil in H. rewrite H; simpl. eexists; split; [done|].
    destruct (u8 c) eqn:E; [right|left; set_solver..].
    exists 0%nat. split_and!; [f_equal; lia|done|]. intros [|j] Hj; [lia|done].
  - apply cstr_cons in H as (H & Hx & Hs). rewrite H; cbn [mbind option_bind].
    destruct (Z.eqb_spec x 0); [lia|].
    destruct (IH (a + 1) s (if x =? u8 c then Some a else last)) as (r & -> & Hr);
      [done|simpl in Hf; lia|].
    exists r; split; [done|]. destruct Hr as [[-> Hno]|(i & -> & Hi & Hlast)].
    + destruct (Z.eqb_spec x (u8 c)) as [->|]; [right|left; set_solver].
      exists 0%nat. split_and!; [f_equal; lia|done|].
      intros [|j] Hj Hl; [lia|]. apply Hno. eapply list_elem_of_lookup_2, Hl.
    + right. exists (S i). split_and!; [f_equal; lia|done|].
      intros [|j] Hj; [lia|]. apply Hlast. lia.
Qed.

Lemma cstr_drop m a s k :
  (k <= length s)%nat -> cstr m a s -> cstr m (a + Z.of_nat k) (drop k s).
Proof.
  revert a s; induction k as [|k IH]; intros a s Hk H.
  - by rewrite Z.add_0_r, drop_0.
  - destruct s as [|c s]; [simpl in Hk; lia|]. apply cstr_cons in H as (_ & _ & H).
    replace (a + Z.of_nat (S k)) with (a + 1 + Z.of_nat k) by lia. apply IH; [simpl in Hk; lia|done].
Qed.

Lemma take_prefix (l1 l2 : list Z) :
  take (length l2) l1 = take (length l2) l2 <-> l2 `prefix_of` l1.
Proof.
  rewrite (take_ge l2) by lia. split.
  - intros <-. apply prefix_take.
  - intros [k ->]. by rewrite take_app_length.
Qed.

(** The first position from [haystack] on where the needle occurs. *)
Definition first_occurrence (a : Z) (hay nd : list Z) (r : option Z) : Prop :=
  match r with
  | Some p => exists i : nat, (i <= length hay)%nat /\ p = a + Z.of_nat i
                /\ nd `prefix_of` drop i hay
                /\ forall j, (j < i)%nat -> ~ nd `prefix_of` drop j hay
  | None => forall j, ~ nd `prefix_of` drop j hay
  end.

Lemma strstr_from_spec fuel m a nda hay nd :
  cstr m a hay -> cstr m nda nd -> (length hay < fuel)%nat ->
  exists r, strstr_from fuel m a nda (Z.of_nat (length nd)) = Some r
    /\ first_occurrence a hay nd r.
Proof.
  revert a hay; induction fuel as [|fuel IH]; [lia|]. intros a hay H Hn Hf; simpl.
  destruct hay as [|x hay].
  - pose proof H as H0. apply cstr_nil in H0. rewrite H0; cbn [mbind option_bind]. simpl.
    destruct nd as [|y nd]; simpl; (eexists; split; [reflexivity|]).
    + exists 0%nat. split_and!; [simpl; lia|lia|apply prefix_nil|]. intros; lia.
    + intros j. rewrite drop_nil. intros [k Hk]. done.
  - pose proof H as H0. apply cstr_cons in H0 as (H0 & Hx & Hs).
    rewrite H0; cbn [mbind option_bind]. destruct (Z.eqb_spec x 0); [lia|].
    destruct (strncmp_spec m a nda (x :: hay) nd (Z.of_nat (length nd))) as (r & -> & Hr); [done|done|].
    rewrite Nat2Z.id, take_prefix in Hr. cbn [mbind option_bind].
    destruct (Z.eqb_spec r 0) as [Hz|Hz].
    { eexists; split; [reflexivity|]. exists 0%nat.
      split_and!; [simpl; lia|lia|by apply Hr|]. intros; lia. }
    destruct (IH (a + 1) hay) as (q & -> & Hq); [done|done|simpl in Hf; lia|].
    exists q; split; [done|]. assert (~ nd `prefix_of` x :: hay) as Hno by tauto.
    destruct q as [p|]; simpl.
    + destruct Hq as (i & Hi & -> & Hp & Hfirst). exists (S i).
      split_and!; [simpl; lia|lia|done|]. intros [|j] Hj; [done|]. apply Hfirst. lia.
    + intros [|j]; [done|]. apply Hq.
Qed.

(** strstr returns the first position where the needle occurs in the
    haystack, and NULL exactly when it occurs nowhere; it reads neither
    string past its terminator. *)
Theorem strstr_first m a nda hay nd :
  cstr m a hay -> cstr m nda nd ->
  exists r, strstr (S (length hay + length nd)) m a nda = Some r
    /\ first_occurrence a hay nd r.
Proof.
  intros H Hn. unfold strstr. rewrite (strlen_spec _ _ _ nd) by (done || lia). simpl.
  apply (strstr_from_spec (S (length hay + length nd))); [done|done|lia].
Qed.

Lemma strstr_first_witness :
  exists r, strstr 8 mem10 100 106 = Some r
    /\ first_occurrence 100 [104; 101; 108; 108; 111] [108; 111] r.
Proof.
  apply (strstr_first mem10 100 106 [104; 101; 108; 108; 111] [108; 111]);
    repeat (apply cstr_cons; split_and!; [by vm_compute|lia|lia|]); apply cstr_nil; by vm_compute.
Defined.

(** ** Copying strings *)

Lemma strcpy_spec fuel m dest src s :
  cstr m src s -> (length s < fuel)%nat ->
  mapped m dest (Z.of_nat (length s) + 1) ->
  dest <= src \/ src + Z.of_nat (length s) < dest ->
  exists m', strcpy fuel m dest src = Some m'
    /\ cstr m' dest s /\ same_except m m' dest (Z.of_nat (length s) + 1).
Proof.
  revert m dest src s; induction fuel as [|fuel IH]; [lia|].
  intros m dest src s H Hf Hm Ho; simpl. destruct s as [|c s].
  - apply cstr_nil in H. rewrite H; cbn [mbind option_bind].
    rewrite store_mapped by (eapply mapped_0, Hm; simpl; lia). simpl.
    eexists; split_and!; [done| |].
    + apply cstr_nil, lookup_insert_eq.
    + intros x Hx. apply lookup_insert_ne. simpl in Hx; lia.
  - apply cstr_cons in H as (H & Hc & Hs). rewrite H; cbn [mbind option_bind].
    simpl in Ho, Hf, Hm.
    rewrite store_mapped by (eapply mapped_0, Hm; lia). cbn [mbind option_bind].
    destruct (Z.eqb_spec c 0); [lia|].
    destruct (IH (<[dest := c]> m) (dest + 1) (src + 1) s) as (m' & -> & Hd & Hx).
    + apply cstr_insert_ne; [lia|done].
    + lia.
    + apply mapped_insert. eapply mapped_weaken; [|apply mapped_shift, Hm]; lia.
    + lia.
    + exists m'; split_and!; [done| |].
      * apply cstr_cons. split_and!; [|lia|lia|done]. rewrite Hx by lia. apply lookup_insert_eq.
      * eapply same_except_step with (v := c); [simpl; lia|].
        eapply eq_ind; [exact Hx|]. simpl; lia.
Qed.

Lemma strncpy_loop_spec n m dest src s :
  cstr m src s -> mapped m dest (Z.of_nat n) ->
  dest + Z.of_nat n <= src \/ src + Z.of_nat (length s) < dest ->
  exists m', strncpy_loop n m dest src = Some m'
    /\ bytes_at m' dest (take n s ++ replicate (n - length s) 0)
    /\ same_except m m' dest (Z.of_nat n).
Proof.
  revert m dest src s; induction n as [|n IH]; intros m dest src s H Hm Ho; cbn [strncpy_loop].
  - exists m. split_and!; [done|done|done].
  - destruct s as [|c s].
    + apply cstr_nil in H. rewrite H; cbn [mbind option_bind].
      destruct (memset_loop_spec (S n) m dest 0 Hm) as (m' & Hr & Hb & Hs).
      exists m'. simpl length. rewrite Nat.sub_0_r, take_nil. auto.
    + apply cstr_cons in H as (H & Hc & Hs). rewrite H; cbn [mbind option_bind].
      destruct (Z.eqb_spec c 0); [lia|]. simpl in Ho.
      rewrite store_mapped by (eapply mapped_0, Hm; lia). cbn [mbind option_bind].
      destruct (IH (<[dest := c]> m) (dest + 1) (src + 1) s) as (m' & -> & Hd & Hx).
      * apply cstr_insert_ne; [lia|done].
      * apply mapped_insert. eapply mapped_weaken; [|apply mapped_shift, Hm]; lia.
      * lia.
      * exists m'; split_and!; [done| |].
        -- simpl. split; [|done]. rewrite Hx by lia. apply lookup_insert_eq.
        -- eapply same_except_step with (v := c); [lia|]. eapply eq_ind; [exact Hx|]. lia.
Qed.

(** strncpy writes exactly [n] bytes: the string cut to [n], padded with
    zeros when it is shorter, and no terminator when it is not. *)
Theorem strncpy_pads m dest src s n :
  0 <= n -> cstr m src s -> mapped m dest n ->
  dest + n <= src \/ src + Z.of_nat (length s) < dest ->
  exists m', strncpy m dest src n = Some m'
    /\ bytes_at m' dest (take (Z.to_nat n) s ++ replicate (Z.to_nat n - length s) 0)
    /\ same_except m m' dest n.
Proof.
  intros Hn H Hm Ho. unfold strncpy.
  destruct (strncpy_loop_spec (Z.to_nat n) m dest src s) as (m' & Hr & Hb & Hx);
    rewrite ?Z2Nat.id in * by done; eauto.
Qed.

Lemma strncpy_pads_witness :
  exists m', strncpy mem10 100 106 4 = Some m'
    /\ bytes_at m' 100 (take 4 [108; 111] ++ replicate 2 0)
    /\ same_except mem10 m' 100 4.
Proof.
  apply (strncpy_pads mem10 100 106 [108; 111] 4); [lia| |apply mem10_mapped; lia|lia].
  repeat (apply cstr_cons; split_and!; [by vm_compute|lia|lia|]); apply cstr_nil; by vm_compute.
Defined.
