(* ===== verification/Printf.v ===== *)
(** * Number and text formatting: src/src/kernel/libc/stdio.c and stdlib.c

    [kvsnprintf] writes through the bounded cursor [out_t]; [itoa] and
    [uitoa] write digits into memory and reverse them in place. A write
    outside a buffer, an argument of the wrong type and a signed overflow
    are faults ([None]). [render] interprets a format in the same way with no
    buffer in sight; what formats mean is specified in PrintfSpec. *)
From S2P Require Import Prelude CString.

(** ** stdio.c: the output cursor *)

Record out_t := mk_out { o_buf : list Z; o_size : Z; o_len : Z }.

(** Characters past the end of the buffer are dropped but counted. *)
Definition put (o : out_t) (c : Z) : option out_t :=
  b ← (if u64 (o_len o + 1) <? o_size o then
         if (Z.to_nat (o_len o) <? length (o_buf o))%nat then
           Some (<[Z.to_nat (o_len o) := c]> (o_buf o))
         else None
       else Some (o_buf o));
  Some (mk_out b (o_size o) (u64 (o_len o + 1))).

(** [put] of [n] copies of [c] and of a whole string. *)
Fixpoint put_n (n : nat) (o : out_t) (c : Z) : option out_t :=
  match n with
  | O => Some o
  | S n' => o ← put o c; put_n n' o c
  end.

Fixpoint put_all (o : out_t) (l : list Z) : option out_t :=
  match l with
  | [] => Some o
  | c :: l' => o ← put o c; put_all o l'
  end.

(** The digits of [n], least significant first, into [char tmp[24]]. *)
Fixpoint digits_loop (room : nat) (n base : Z) (digits tmp : list Z) : option (list Z) :=
  match room with
  | O => None
  | S room' =>
      d ← digits !! Z.to_nat (n mod base);
      let tmp := tmp ++ [d] in
      if n / base =? 0 then Some tmp else digits_loop room' (n / base) base digits tmp
  end.

Definition chr (s : string) : list Z :=
  (fun a => Z.of_N (Ascii.N_of_ascii a)) <$> String.list_ascii_of_string s.

Definition c_minus : Z := 45.
Definition c_zero : Z := 48.
Definition c_space : Z := 32.
Definition c_percent : Z := 37.

Definition putnum (o : out_t) (n base : Z) (neg : bool) (width pad : Z) (lft : bool)
    (digits : list Z) : option out_t :=
  tmp ← digits_loop 24 n base digits [];
  let len := Z.of_nat (length tmp) + (if neg then 1 else 0) in
  o ← (if neg && (pad =? c_zero) then put o c_minus else Some o);
  o ← (if lft then Some o else put_n (Z.to_nat (width - len)) o pad);
  o ← (if neg && negb (pad =? c_zero) then put o c_minus else Some o);
  o ← put_all o (reverse tmp);
  (if lft then put_n (Z.to_nat (width - len)) o c_space else Some o).

(** ** stdio.c: the format interpreter *)

(** A variadic argument: a register's worth of bits, or a string pointer. *)
Inductive varg :=
  | VInt (bits : Z)
  | VStr (s : option (list Z)).

Definition lower : list Z := chr "0123456789abcdef".
Definition upper : list Z := chr "0123456789ABCDEF".

(** The flag, width and length parsers return the rest of the format. *)
Fixpoint parse_flags (fmt : list Z) (lft : bool) (pad : Z) : bool * Z * list Z :=
  match fmt with
  | c :: fmt' =>
      if c =? c_minus then parse_flags fmt' true pad
      else if c =? c_zero then parse_flags fmt' lft c_zero
      else (lft, pad, fmt)
  | [] => (lft, pad, [])
  end.

Definition is_digit (c : Z) : bool := (48 <=? c) && (c <=? 57).

Fixpoint parse_width (fmt : list Z) (width : Z) : option (Z * list Z) :=
  match fmt with
  | c :: fmt' =>
      if is_digit c then
        let w := width * 10 + (c - 48) in
        if w <? 2 ^ 31 then parse_width fmt' w else None
      else Some (width, fmt)
  | [] => Some (width, [])
  end.

Fixpoint parse_long (fmt : list Z) (lng : bool) : bool * list Z :=
  match fmt with
  | c :: fmt' => if (c =? 108) || (c =? 122) then parse_long fmt' true else (lng, fmt)
  | [] => (lng, [])
  end.

(** [va_arg] of an integer type and of a string. *)
Definition va_signed (lng : bool) (ap : list varg) : option (Z * list varg) :=
  match ap with
  | VInt z :: ap' => Some (if lng then s64 z else s32 z, ap')
  | _ => None
  end.

Definition va_unsigned (lng : bool) (ap : list varg) : option (Z * list varg) :=
  match ap with
  | VInt z :: ap' => Some (if lng then u64 z else u32 z, ap')
  | _ => None
  end.

Definition va_str (ap : list varg) : option (list Z * list varg) :=
  match ap with
  | VStr (Some s) :: ap' => Some (s, ap')
  | VStr None :: ap' => Some (chr "(null)", ap')
  | _ => None
  end.

(** One conversion: the body of the [switch]. *)
Definition convert (o : out_t) (c : Z) (lng : bool) (width pad : Z) (lft : bool)
    (ap : list varg) : option (out_t * list varg) :=
  if (c =? 100) || (c =? 105) then                                  (* d, i *)
    '(v, ap) ← va_signed lng ap;
    o ← putnum o (if v <? 0 then u64 (- v) else u64 v) 10 (v <? 0) width pad lft lower;
    Some (o, ap)
  else if c =? 117 then                                             (* u *)
    '(v, ap) ← va_unsigned lng ap;
    o ← putnum o v 10 false width pad lft lower; Some (o, ap)
  else if (c =? 120) || (c =? 88) then                              (* x, X *)
    '(v, ap) ← va_unsigned lng ap;
    o ← putnum o v 16 false width pad lft (if c =? 120 then lower else upper); Some (o, ap)
  else if c =? 111 then                                             (* o *)
    '(v, ap) ← va_unsigned lng ap;
    o ← putnum o v 8 false width pad lft lower; Some (o, ap)
  else if c =? 112 then                                             (* p *)
    o ← put o 48; o ← put o 120;
    '(v, ap) ← va_unsigned true ap;
    o ← putnum o v 16 false 0 c_space false lower; Some (o, ap)
  else if c =? 115 then                                             (* s *)
    '(s, ap) ← va_str ap;
    let gap := Z.to_nat (width - Z.of_nat (length s)) in
    o ← (if lft then Some o else put_n gap o c_space);
    o ← put_all o s;
    o ← (if lft then put_n gap o c_space else Some o); Some (o, ap)
  else if c =? 99 then                                              (* c *)
    '(v, ap) ← va_signed false ap;
    o ← put o (u8 v); Some (o, ap)
  else if c =? c_percent then                                       (* %% *)
    o ← put o c_percent; Some (o, ap)
  else
    o ← put o c_percent; o ← put o c; Some (o, ap).

Fixpoint kvsnprintf_loop (fuel : nat) (o : out_t) (fmt : list Z) (ap : list varg)
  : option out_t :=
  match fuel with
  | O => None
  | S fuel' =>
      match fmt with
      | [] => Some o
      | c :: fmt =>
          if negb (c =? c_percent) then o ← put o c; kvsnprintf_loop fuel' o fmt ap
          else
            let '(lft, pad, fmt) := parse_flags fmt false c_space in
            let pad := if lft then c_space else pad in
            '(width, fmt) ← parse_width fmt 0;
            let '(lng, fmt) := parse_long fmt false in
            match fmt with
            | [] => Some o
            | c :: fmt =>
                '(o, ap) ← convert o c lng width pad lft ap;
                kvsnprintf_loop fuel' o fmt ap
            end
      end
  end.

(** The text in the buffer afterwards, and the returned [int]. *)
Definition kvsnprintf (buf : list Z) (size : Z) (fmt : list Z) (ap : list varg)
  : option (list Z * Z) :=
  o ← kvsnprintf_loop (S (length fmt)) (mk_out buf size 0) fmt ap;
  let at_ := Z.to_nat (if o_len o <? size then o_len o else size - 1) in
  b ← (if negb (size =? 0) then
         if (at_ <? length (o_buf o))%nat then Some (<[at_ := 0]> (o_buf o)) else None
       else Some (o_buf o));
  Some (b, s32 (o_len o)).

(** [ksnprintf] only packs its arguments. *)
Definition ksnprintf := kvsnprintf.

(** ** The interpreter without a buffer *)

Definition num_text (n base : Z) (neg : bool) (width pad : Z) (lft : bool)
    (digits : list Z) : option (list Z) :=
  ds ← reverse <$> digits_loop 24 n base digits [];
  let sign := if neg then [c_minus] else [] in
  let gap := Z.to_nat (width - Z.of_nat (length ds + length sign)) in
  Some (if lft then sign ++ ds ++ replicate gap c_space
        else if pad =? c_zero then sign ++ replicate gap c_zero ++ ds
        else replicate gap pad ++ sign ++ ds).

Definition conv_text (c : Z) (lng : bool) (width pad : Z) (lft : bool)
    (ap : list varg) : option (list Z * list varg) :=
  if (c =? 100) || (c =? 105) then
    '(v, ap) ← va_signed lng ap;
    t ← num_text (u64 (Z.abs v)) 10 (v <? 0) width pad lft lower; Some (t, ap)
  else if c =? 117 then
    '(v, ap) ← va_unsigned lng ap; t ← num_text v 10 false width pad lft lower; Some (t, ap)
  else if (c =? 120) || (c =? 88) then
    '(v, ap) ← va_unsigned lng ap;
    t ← num_text v 16 false width pad lft (if c =? 120 then lower else upper); Some (t, ap)
  else if c =? 111 then
    '(v, ap) ← va_unsigned lng ap; t ← num_text v 8 false width pad lft lower; Some (t, ap)
  else if c =? 112 then
    '(v, ap) ← va_unsigned true ap;
    t ← num_text v 16 false 0 c_space false lower; Some (chr "0x" ++ t, ap)
  else if c =? 115 then
    '(s, ap) ← va_str ap;
    let gap := replicate (Z.to_nat (width - Z.of_nat (length s))) c_space in
    Some (if lft then s ++ gap else gap ++ s, ap)
  else if c =? 99 then
    '(v, ap) ← va_signed false ap; Some ([u8 v], ap)
  else if c =? c_percent then Some ([c_percent], ap)
  else Some ([c_percent; c], ap).

Fixpoint render_loop (fuel : nat) (fmt : list Z) (ap : list varg) : option (list Z) :=
  match fuel, fmt with
  | O, _ => None
  | _, [] => Some []
  | S fuel', c :: fmt =>
      if negb (c =? c_percent) then cons c <$> render_loop fuel' fmt ap
      else
        let '(lft, pad, fmt) := parse_flags fmt false c_space in
        '(width, fmt) ← parse_width fmt 0;
        let '(lng, fmt) := parse_long fmt false in
        match fmt with
        | [] => Some []
        | c :: fmt =>
            '(t, ap) ← conv_text c lng width (if lft then c_space else pad) lft ap;
            app t <$> render_loop fuel' fmt ap
        end
  end.

Definition render (fmt : list Z) (ap : list varg) : option (list Z) :=
  render_loop (S (length fmt)) fmt ap.

(** ** The cursor implements appending to a text *)

(** The buffer once the text [t] went through a cursor over [buf]. *)
Definition filled (buf t : list Z) : list Z :=
  let k := Nat.min (length t) (length buf - 1) in take k t ++ drop k buf.

Definition cursor (buf t : list Z) : out_t :=
  mk_out (filled buf t) (Z.of_nat (length buf)) (Z.of_nat (length t)).

Lemma length_filled buf t : length (filled buf t) = length buf.
Proof. unfold filled. rewrite length_app, length_take, length_drop. lia. Qed.

Lemma put_cursor buf t c :
  Z.of_nat (length t) + 1 < 2 ^ 64 -> put (cursor buf t) c = Some (cursor buf (t ++ [c])).
Proof.
  intros Hl. unfold put, cursor; cbn [o_len o_size o_buf]. rewrite u64_small by lia.
  rewrite length_app; simpl length. rewrite Nat2Z.id, length_filled.
  replace (Z.of_nat (length t + 1)) with (Z.of_nat (length t) + 1) by lia.
  destruct (Z.ltb_spec (Z.of_nat (length t) + 1) (Z.of_nat (length buf))).
  - destruct (Nat.ltb_spec (length t) (length buf)); [|lia]. simpl. do 2 f_equal.
    unfold filled. rewrite length_app; simpl length.
    rewrite !Nat.min_l by lia. rewrite !take_ge by (rewrite ?length_app; simpl; lia).
    destruct (drop (length t) buf) as [|y l] eqn:E.
    { apply (f_equal length) in E. rewrite length_drop in E. simpl in E. lia. }
    rewrite insert_app_r_alt, Nat.sub_diag by lia. simpl. rewrite <- app_assoc; simpl. do 2 f_equal.
    by rewrite <- drop_drop, E.
  - simpl. do 2 f_equal. unfold filled. rewrite length_app; simpl length.
    rewrite !Nat.min_r by lia. by rewrite take_app_le by lia.
Qed.

Lemma put_all_cursor buf t l :
  Z.of_nat (length (t ++ l)) < 2 ^ 64 -> put_all (cursor buf t) l = Some (cursor buf (t ++ l)).
Proof.
  revert t; induction l as [|c l IH]; intros t Hl; simpl; [by rewrite app_nil_r|].
  rewrite length_app in Hl; simpl in Hl. rewrite put_cursor by lia. simpl.
  rewrite IH, <- app_assoc; [done|]. rewrite !length_app; simpl; lia.
Qed.

Lemma put_all_app o l1 l2 : put_all o (l1 ++ l2) = (put_all o l1 ≫= fun o => put_all o l2).
Proof. revert o; induction l1 as [|c l1 IH]; intros o; simpl; [done|]. destruct (put o c); simpl; auto. Qed.

Lemma put_n_all n o c : put_n n o c = put_all o (replicate n c).
Proof. revert o; induction n as [|n IH]; intros o; simpl; [done|]. destruct (put o c); simpl; auto. Qed.

Lemma put_all_1 o c : put_all o [c] = put o c.
Proof. simpl. by destruct (put o c). Qed.

(** Run the leftmost [put] of both sides in step. *)
Ltac step_puts :=
  repeat first
    [ done
    | rewrite put_n_all | rewrite put_all_app
    | match goal with
      | H : put_all ?o ?l = _ |- context [put_all ?o ?l] => rewrite H; cbn [mbind option_bind]
      end
    | match goal with
      | |- context [put ?o ?c] => rewrite <- (put_all_1 o c)
      | |- context [put_all ?o ?l] => destruct (put_all o l) eqn:?; cbn [mbind option_bind]
      end ].

Lemma putnum_text o n base neg width pad lft digits :
  putnum o n base neg width pad lft digits
  = (num_text n base neg width pad lft digits ≫= put_all o).
Proof.
  unfold putnum, num_text. destruct (digits_loop 24 n base digits []) as [tmp|]; [|done].
  cbn [mbind option_bind fmap option_fmap option_map].
  rewrite length_reverse.
  replace (Z.of_nat (length tmp) + (if neg then 1 else 0))
    with (Z.of_nat (length tmp + length (if neg then [c_minus] else [])))
    by (destruct neg; simpl; lia).
  set (gap := Z.to_nat _). clearbody gap.
  destruct (Z.eqb_spec pad c_zero) as [->|], neg, lft;
    rewrite ?app_nil_l; cbn [andb negb mbind option_bind]; step_puts.
Qed.

Lemma pair_app o (c d : Z) : put_all o [c; d] = put_all o ([c] ++ [d]).
Proof. done. Qed.

Lemma convert_text o c lng width pad lft ap :
  convert o c lng width pad lft ap
  = ('(t, ap) ← conv_text c lng width pad lft ap; o ← put_all o t; Some (o, ap)).
Proof.
  unfold convert, conv_text.
  repeat (case_match; [|]).
  all: try (destruct (va_signed _ _) as [[v ap']|]; [|done]).
  all: try (destruct (va_unsigned _ _) as [[v ap']|]).
  all: try (destruct (va_str _) as [[v ap']|]; [|done]).
  all: cbn [mbind option_bind]; rewrite ?putnum_text.
  1: replace (if v <? 0 then u64 (- v) else u64 v) with (u64 (Z.abs v))
      by (destruct (Z.ltb_spec v 0); f_equal; lia).
  all: try (destruct (num_text _ _ _ _ _ _ _) as [t|] eqn:Ht; cbn [mbind option_bind]).
  all: try (destruct lft); rewrite ?pair_app;
    try change (chr "0x") with ([48] ++ [120]); step_puts.
  all: rewrite putnum_text, Ht; cbn [mbind option_bind]; step_puts.
Qed.

Lemma kvsnprintf_loop_render fuel buf t fmt ap out :
  render_loop fuel fmt ap = Some out -> Z.of_nat (length (t ++ out)) < 2 ^ 64 ->
  kvsnprintf_loop fuel (cursor buf t) fmt ap = Some (cursor buf (t ++ out)).
Proof.
  revert t fmt ap out; induction fuel as [|fuel IH]; intros t fmt ap out Hr Hl; [done|].
  destruct fmt as [|c fmt]; simpl in Hr |- *.
  { simplify_eq. by rewrite app_nil_r. }
  destruct (Z.eqb_spec c c_percent) as [->|]; cbn [negb] in *.
  - destruct (parse_flags fmt false c_space) as [[lft pad] fmt1].
    destruct (parse_width fmt1 0) as [[width fmt2]|]; [|done]; simpl in *.
    destruct (parse_long fmt2 false) as [lng [|c fmt3]].
    { simplify_eq. by rewrite app_nil_r. }
    rewrite convert_text.
    destruct (conv_text _ _ _ _ _ _) as [[txt ap']|]; [|done]; simpl in *.
    destruct (render_loop fuel fmt3 ap') as [rest|] eqn:Hrest; [|done]; simplify_eq/=.
    rewrite app_assoc in *. rewrite put_all_cursor; [simpl; by apply IH|].
    rewrite length_app in Hl. lia.
  - destruct (render_loop fuel fmt ap) as [rest|] eqn:Hrest; [|done]; simplify_eq/=.
    rewrite length_app in Hl; simpl in Hl. rewrite put_cursor by lia. simpl.
    rewrite (IH (t ++ [c]) fmt ap rest); [by rewrite <- app_assoc|done|].
    rewrite !length_app; simpl; lia.
Qed.

(** What the caller finds in its buffer: the text cut to leave room for
    the terminator, the terminator, and the bytes after it untouched. *)
Definition truncated (buf out : list Z) : list Z :=
  let k := Nat.min (length out) (length buf - 1) in
  take k out ++ 0 :: drop (S k) buf.

Lemma filled_terminated buf out :
  (0 < length buf)%nat ->
  <[Nat.min (length out) (length buf - 1) := 0]> (filled buf out) = truncated buf out.
Proof.
  intros Hb. unfold filled, truncated. set (k := Nat.min _ _).
  rewrite insert_app_r_alt by (rewrite length_take; lia). rewrite length_take.
  replace (k - Nat.min k (length out))%nat with 0%nat by lia. f_equal.
  destruct (drop k buf) as [|y l] eqn:E.
  { apply (f_equal length) in E. rewrite length_drop in E; simpl in E; lia. }
  simpl. f_equal. replace (S k) with (k + 1)%nat by lia. by rewrite <- drop_drop, E.
Qed.

(** kvsnprintf on a buffer of the size it is told leaves what the interpreter
    renders, cut to size - 1 characters and NUL-terminated, the rest of the
    buffer untouched, and returns the length of it all. *)
Lemma kvsnprintf_render buf fmt ap out :
  render fmt ap = Some out -> Z.of_nat (length out) < 2 ^ 31 -> (0 < length buf)%nat ->
  kvsnprintf buf (Z.of_nat (length buf)) fmt ap
  = Some (truncated buf out, Z.of_nat (length out)).
Proof.
  intros Hr Hl Hb. unfold kvsnprintf.
  change (mk_out buf _ 0) with (cursor buf []).
  rewrite (kvsnprintf_loop_render _ _ _ _ _ out) by (done || simpl; lia). simpl.
  replace (Z.to_nat _) with (Nat.min (length out) (length buf - 1))
    by (destruct (Z.ltb_spec (Z.of_nat (length out)) (Z.of_nat (length buf))); lia).
  destruct (Z.eqb_spec (Z.of_nat (length buf)) 0); [lia|]. simpl.
  rewrite length_filled. destruct (Nat.ltb_spec (Nat.min (length out) (length buf - 1)) (length buf)); [|lia].
  rewrite filled_terminated by done. simpl. do 2 f_equal.
  unfold s32. rewrite Z.mod_small by lia. lia.
Qed.

(** ** stdlib.c: itoa and uitoa *)

Definition itoa_table : list Z :=
  chr "zyxwvutsrqponmlkjihgfedcba9876543210123456789abcdefghijklmnopqrstuvwxyz".
Definition uitoa_table : list Z := chr "0123456789abcdefghijklmnopqrstuvwxyz".

(** The conversion loop: C's truncating [%] and [/], so a negative value
    indexes the table below its middle. *)
Fixpoint itoa_loop (fuel : nat) (m : mem) (ptr value base : Z) : option (mem * Z) :=
  match fuel with
  | O => None
  | S fuel' =>
      c ← itoa_table !! Z.to_nat (35 + Z.rem value base);
      m ← store m ptr c;
      let value := Z.quot value base in
      if value =? 0 then Some (m, ptr + 1) else itoa_loop fuel' m (ptr + 1) value base
  end.

Fixpoint uitoa_loop (fuel : nat) (m : mem) (ptr value base : Z) : option (mem * Z) :=
  match fuel with
  | O => None
  | S fuel' =>
      c ← uitoa_table !! Z.to_nat (value mod base);
      m ← store m ptr c;
      let value := value / base in
      if value =? 0 then Some (m, ptr + 1) else uitoa_loop fuel' m (ptr + 1) value base
  end.

(** [while (low < ptr)] swap [*low++] and [*ptr--]. *)
Fixpoint reverse_loop (fuel : nat) (m : mem) (low ptr : Z) : option mem :=
  match fuel with
  | O => None
  | S fuel' =>
      if low <? ptr then
        tmp ← m !! low; c ← m !! ptr;
        m ← store m low c; m ← store m ptr tmp;
        reverse_loop fuel' m (low + 1) (ptr - 1)
      else Some m
  end.

Definition itoa (m : mem) (value str base : Z) : option mem :=
  if (base <? 2) || (36 <? base) then store m str 0
  else
    '(m, low) ← (if (value <? 0) && (base =? 10) then m ← store m str c_minus; Some (m, str + 1)
                 else Some (m, str));
    '(m, ptr) ← itoa_loop 64 m low value base;
    m ← store m ptr 0;
    reverse_loop 65 m low (ptr - 1).

Definition uitoa (m : mem) (value str base : Z) : option mem :=
  if (base <? 2) || (36 <? base) then store m str 0
  else
    '(m, ptr) ← uitoa_loop 64 m str value base;
    m ← store m ptr 0;
    reverse_loop 65 m str (ptr - 1).

(** ** Numerals *)

Definition digit_char (d : Z) : Z := if d <? 10 then 48 + d else 87 + d.
Definition digit_val (c : Z) : Z := if c <? 58 then c - 48 else if c <? 97 then c - 55 else c - 87.

(** Reading a numeral back, most significant digit first. *)
Definition parse_num (base : Z) (s : list Z) : Z :=
  foldl (fun acc c => acc * base + digit_val c) 0 s.

(** The digits of [n], least significant first. *)
Fixpoint le_digits (fuel : nat) (n base : Z) : list Z :=
  match fuel with
  | O => []
  | S fuel' => n mod base :: (if n / base =? 0 then [] else le_digits fuel' (n / base) base)
  end.

(** The canonical numeral of [n]: it reads back as [n] and has no leading
    zero, unless it is "0" itself. *)
Definition numeral (base n : Z) (s : list Z) : Prop :=
  parse_num base s = n /\ s <> [] /\ (head s = Some 48 -> s = [48])
  /\ Forall (fun c => 0 < c < 256) s.

Lemma digit_val_char d : 0 <= d < 36 -> digit_val (digit_char d) = d.
Proof.
  intros Hd. unfold digit_val, digit_char. destruct (Z.ltb_spec d 10).
  - destruct (Z.ltb_spec (48 + d) 58); lia.
  - destruct (Z.ltb_spec (87 + d) 58); [lia|]. destruct (Z.ltb_spec (87 + d) 97); lia.
Qed.

Lemma digit_char_48 d : 0 <= d -> digit_char d = 48 -> d = 0.
Proof. unfold digit_char. destruct (Z.ltb_spec d 10); lia. Qed.

Lemma digit_char_byte d : 0 <= d < 36 -> 0 < digit_char d < 256.
Proof. unfold digit_char. destruct (Z.ltb_spec d 10); lia. Qed.

Lemma le_digits_bound fuel n base : 2 <= base -> Forall (fun d => 0 <= d < base) (le_digits fuel n base).
Proof.
  intros Hb. revert n; induction fuel as [|fuel IH]; intros n; simpl; constructor.
  - apply Z.mod_pos_bound; lia.
  - destruct (n / base =? 0); [constructor|apply IH].
Qed.

(** Enough fuel: a numeral has at most [fuel] digits below [base^fuel]. *)
Lemma le_digits_spec fuel n base :
  2 <= base -> 0 <= n < base ^ Z.of_nat fuel -> (0 < fuel)%nat ->
  le_digits fuel n base <> [] /\
  foldr (fun d acc => d + acc * base) 0 (le_digits fuel n base) = n /\
  (last (le_digits fuel n base) = Some 0 -> le_digits fuel n base = [0]).
Proof.
  intros Hb. revert n; induction fuel as [|fuel IH]; intros n Hn Hf; [lia|]. cbn [le_digits].
  pose proof (Z.div_mod n base ltac:(lia)). pose proof (Z.mod_pos_bound n base ltac:(lia)).
  destruct (Z.eqb_spec (n / base) 0) as [E|E].
  - simpl. split_and!; [done|lia|intros [= ->]; done].
  - assert (0 < n / base) by (pose proof (Z.div_pos n base); lia).
    assert (0 < fuel)%nat by (destruct fuel; [simpl in Hn; nia|lia]).
    destruct (IH (n / base)) as (Hne & Hv & Hlast); [|done|].
    { split; [lia|]. apply Z.div_lt_upper_bound; [lia|].
      rewrite Nat2Z.inj_succ, Z.pow_succ_r in Hn by lia. lia. }
    split_and!; [done|simpl; lia|]. rewrite last_cons.
    destruct (last (le_digits fuel (n / base) base)) eqn:El.
    + intros [= ->]. rewrite Hlast in Hv by done. simpl in Hv. lia.
    + apply last_None in El. done.
Qed.

Lemma parse_num_reverse base ds :
  Forall (fun d => 0 <= d < 36) ds ->
  parse_num base (reverse (digit_char <$> ds)) = foldr (fun d acc => d + acc * base) 0 ds.
Proof.
  unfold parse_num.
  induction ds as [|d ds IH]; intros Hd; [done|].
  apply Forall_cons in Hd as [? ?]. rewrite fmap_cons, reverse_cons, foldl_app, IH by done.
  simpl. rewrite digit_val_char by done. lia.
Qed.

Lemma le_digits_numeral fuel n base :
  2 <= base <= 36 -> 0 <= n < base ^ Z.of_nat fuel -> (0 < fuel)%nat ->
  numeral base n (reverse (digit_char <$> le_digits fuel n base)).
Proof.
  intros Hb Hn Hf. destruct (le_digits_spec fuel n base) as (Hne & Hv & Hlast); [lia|done|done|].
  pose proof (le_digits_bound fuel n base ltac:(lia)) as Hd.
  assert (Forall (fun d => 0 <= d < 36) (le_digits fuel n base)) as Hd'.
  { eapply Forall_impl; [exact Hd|]. simpl; lia. }
  split_and!.
  - rewrite parse_num_reverse; done.
  - intros E. apply (f_equal length) in E. rewrite length_reverse, length_fmap in E.
    destruct (le_digits fuel n base); done.
  - rewrite head_reverse, fmap_last. destruct (last _) as [d|] eqn:El; [|done]. simpl.
    intros [= E]. rewrite Forall_forall in Hd. pose proof (Hd d ltac:(by apply last_Some_elem_of)).
    apply digit_char_48 in E; [|lia]. subst d. by rewrite Hlast.
  - apply Forall_reverse, Forall_fmap. eapply Forall_impl; [exact Hd'|]. apply digit_char_byte.
Qed.

(** ** The digit tables *)

Lemma lookup_by_range (P : Z -> Prop) lo hi :
  Forall P (range lo hi) -> forall d, lo <= d < hi -> P d.
Proof. intros H d Hd. rewrite Forall_forall in H. apply H, elem_of_range, Hd. Qed.

Lemma lower_lookup d : 0 <= d < 16 -> lower !! Z.to_nat d = Some (digit_char d).
Proof. revert d. apply lookup_by_range. repeat constructor. Qed.

Lemma uitoa_table_lookup d : 0 <= d < 36 -> uitoa_table !! Z.to_nat d = Some (digit_char d).
Proof. revert d. apply lookup_by_range. repeat constructor. Qed.

Lemma itoa_table_lookup d :
  -35 <= d < 36 -> itoa_table !! Z.to_nat (35 + d) = Some (digit_char (Z.abs d)).
Proof. revert d. apply lookup_by_range. repeat constructor. Qed.

(** ** The conversion loops produce the numeral's digits *)

Lemma digits_loop_table table digit room n base tmp :
  (forall d, 0 <= d < 16 -> table !! Z.to_nat d = Some (digit d)) -> 2 <= base <= 16 -> 0 <= n < base ^ Z.of_nat room ->
  (0 < room)%nat ->
  digits_loop room n base table tmp = Some (tmp ++ (digit <$> le_digits room n base)).
Proof.
  intros Htab Hb. revert n tmp; induction room as [|room IH]; intros n tmp Hn Hr; [lia|].
  cbn [digits_loop le_digits]. pose proof (Z.mod_pos_bound n base ltac:(lia)).
  rewrite Htab by lia. cbn [mbind option_bind].
  destruct (Z.eqb_spec (n / base) 0) as [E|E]; [done|].
  assert (0 < n / base) by (pose proof (Z.div_pos n base); lia).
  assert (0 < room)%nat by (destruct room; [simpl in Hn; pose proof (Z.div_small n base); lia|lia]).
  rewrite IH; [by rewrite <- app_assoc| |done].
  split; [lia|]. apply Z.div_lt_upper_bound; [lia|].
  rewrite Nat2Z.inj_succ, Z.pow_succ_r in Hn by lia. lia.
Qed.

Lemma digits_loop_spec room n base tmp :
  2 <= base <= 16 -> 0 <= n < base ^ Z.of_nat room -> (0 < room)%nat ->
  digits_loop room n base lower tmp = Some (tmp ++ (digit_char <$> le_digits room n base)).
Proof. apply digits_loop_table, lower_lookup. Qed.

(** the digits kvsnprintf prints for a 64-bit number in base 8 to 16 fit
    its 24-byte scratch array and are the number's canonical numeral: read
    back they give the number, with no leading zero. *)
Theorem printed_number_reads_back n base :
  0 <= n < 2 ^ 64 -> 8 <= base <= 16 ->
  exists tmp, digits_loop 24 n base lower [] = Some tmp /\ numeral base n (reverse tmp).
Proof.
  intros Hn Hb. assert (n < base ^ 24).
  { apply Z.lt_le_trans with (8 ^ 24); [lia|]. apply Z.pow_le_mono_l. lia. }
  eexists; split; [apply digits_loop_spec; lia|]. apply le_digits_numeral; lia.
Qed.

Lemma printed_number_reads_back_witness :
  exists tmp, digits_loop 24 18446744073709551615 8 lower [] = Some tmp
    /\ numeral 8 18446744073709551615 (reverse tmp).
Proof. apply printed_number_reads_back; lia. Defined.

Lemma quot_abs v base : 0 < base -> Z.abs (Z.quot v base) = Z.abs v / base.
Proof.
  intros. rewrite <- Z.quot_div_nonneg by lia.
  rewrite <- (Z.abs_eq base) at 2 by lia. by rewrite Z.quot_abs by lia.
Qed.

Lemma rem_abs v base : 0 < base -> Z.abs (Z.rem v base) = Z.abs v mod base.
Proof. intros. rewrite <- Z.rem_mod_nonneg by lia. by rewrite Z.rem_abs_l by lia. Qed.

Lemma itoa_loop_spec fuel m ptr v base :
  2 <= base <= 36 -> Z.abs v < base ^ Z.of_nat fuel -> (0 < fuel)%nat ->
  mapped m ptr (Z.of_nat fuel) ->
  let ds := digit_char <$> le_digits fuel (Z.abs v) base in
  exists m', itoa_loop fuel m ptr v base = Some (m', ptr + Z.of_nat (length ds))
    /\ (length ds <= fuel)%nat
    /\ bytes_at m' ptr ds /\ same_except m m' ptr (Z.of_nat (length ds)).
Proof.
  intros Hb. revert m ptr v; induction fuel as [|fuel IH]; intros m ptr v Hv Hf Hm; [lia|].
  cbn [itoa_loop le_digits]. rewrite <- rem_abs, <- quot_abs by lia.
  pose proof (Z.rem_bound_abs v base ltac:(lia)).
  rewrite itoa_table_lookup by lia. cbn [mbind option_bind].
  rewrite store_mapped by (eapply mapped_0, Hm; lia). cbn [mbind option_bind].
  set (c := digit_char _).
  destruct (Z.eqb_spec (Z.quot v base) 0) as [E|E].
  { rewrite E. simpl. eexists. split_and!; [done|lia|apply lookup_insert_eq|done|].
    intros x Hx. apply lookup_insert_ne. lia. }
  destruct (Z.eqb_spec (Z.abs (Z.quot v base)) 0); [lia|].
  assert (Z.abs (Z.quot v base) < base ^ Z.of_nat fuel).
  { rewrite quot_abs by lia. apply Z.div_lt_upper_bound; [lia|].
    rewrite Nat2Z.inj_succ, Z.pow_succ_r in Hv by lia. lia. }
  assert (0 < fuel)%nat by (destruct fuel; [simpl in *; lia|lia]).
  destruct (IH (<[ptr := c]> m) (ptr + 1) (Z.quot v base)) as (m' & -> & Hlen & Hbytes & Hs);
    [done|done| |].
  { apply mapped_insert. eapply mapped_weaken; [|apply mapped_shift, Hm]; lia. }
  rewrite fmap_cons; cbn [length]. exists m'. split_and!; [do 2 f_equal; lia|lia| |].
  - split; [|done]. rewrite Hs by lia. apply lookup_insert_eq.
  - eapply same_except_step with (v := c); [lia|]. eapply eq_ind; [exact Hs|]. lia.
Qed.

Lemma uitoa_loop_itoa fuel m ptr v base :
  0 <= v -> 2 <= base <= 36 -> uitoa_loop fuel m ptr v base = itoa_loop fuel m ptr v base.
Proof.
  intros Hv Hb. revert m ptr v Hv; induction fuel as [|fuel IH]; intros m ptr v Hv; [done|].
  cbn [uitoa_loop itoa_loop]. pose proof (Z.mod_pos_bound v base ltac:(lia)).
  rewrite uitoa_table_lookup by lia. rewrite Z.rem_mod_nonneg, Z.quot_div_nonneg by lia.
  rewrite itoa_table_lookup, Z.abs_eq by lia. cbn [mbind option_bind].
  destruct (store m ptr _); [|done]; cbn [mbind option_bind].
  case_match; [done|]. apply IH, Z.div_pos; lia.
Qed.

Lemma reverse_loop_spec fuel m low l :
  bytes_at m low l -> (length l < fuel)%nat ->
  exists m', reverse_loop fuel m low (low + Z.of_nat (length l) - 1) = Some m'
    /\ bytes_at m' low (reverse l) /\ same_except m m' low (Z.of_nat (length l)).
Proof.
  revert m low l; induction fuel as [|fuel IH]; intros m low l Hb Hf; [lia|]. cbn [reverse_loop].
  destruct l as [|x l].
  { rewrite (proj2 (Z.ltb_ge _ _)) by (simpl; lia). exists m. split_and!; [done|exact Hb|apply same_except_refl]. }
  destruct l as [|y l' _] using rev_ind.
  { rewrite (proj2 (Z.ltb_ge _ _)) by (simpl; lia). exists m. split_and!; [done|exact Hb|apply same_except_refl]. }
  simpl length. rewrite length_app; simpl length.
  set (k := Z.of_nat (length l')).
  replace (low + Z.of_nat (S (length l' + 1)) - 1) with (low + 1 + k) by lia.
  destruct (Z.ltb_spec low (low + 1 + k)); [|lia].
  simpl in Hb. destruct Hb as [Hx Hb]. apply bytes_at_app in Hb as [Hl' [Hy _]].
  fold k in Hy. rewrite Hx, Hy; cbn [mbind option_bind].
  rewrite store_mapped by (rewrite Hx; eauto); cbn [mbind option_bind].
  rewrite store_mapped by (rewrite lookup_insert_ne, Hy by lia; eauto); cbn [mbind option_bind].
  set (m1 := <[low + 1 + k := x]> (<[low := y]> m)).
  destruct (IH m1 (low + 1) l') as (m' & Hr & Hb' & Hs).
  { apply bytes_at_insert_ne; [lia|]. apply bytes_at_insert_ne; [lia|done]. }
  { rewrite length_cons, length_app in Hf; simpl in Hf; lia. }
  replace (low + 1 + k - 1) with (low + 1 + Z.of_nat (length l') - 1) by lia.
  exists m'. split_and!; [done| |].
  - rewrite reverse_cons, reverse_snoc; simpl. split.
    + rewrite Hs by lia. unfold m1. by rewrite lookup_insert_ne, lookup_insert_eq by lia.
    + apply bytes_at_app. split; [done|]. rewrite length_reverse; fold k. split; [|done].
      rewrite Hs by lia. apply lookup_insert_eq.
  - intros z Hz. rewrite Hs by lia. unfold m1. by rewrite !lookup_insert_ne by lia.
Qed.

(** Terminating and reversing the digits written from [low] on. *)
Lemma finish_digits m low ds :
  bytes_at m low ds -> (length ds < 65)%nat -> Forall (fun c => 0 < c < 256) ds ->
  is_Some (m !! (low + Z.of_nat (length ds))) ->
  exists m', (m ← store m (low + Z.of_nat (length ds)) 0;
              reverse_loop 65 m low (low + Z.of_nat (length ds) - 1)) = Some m'
    /\ cstr m' low (reverse ds) /\ same_except m m' low (Z.of_nat (length ds) + 1).
Proof.
  intros Hb Hlen Hc Hp. rewrite store_mapped by done. cbn [mbind option_bind].
  set (p := low + Z.of_nat (length ds)).
  destruct (reverse_loop_spec 65 (<[p := 0]> m) low ds) as (m' & Hr & Hb' & Hs); [|done|].
  { apply bytes_at_insert_ne; [lia|done]. }
  exists m'. split_and!; [done| |].
  - split; [|by apply Forall_reverse]. apply bytes_at_app. split; [done|].
    rewrite length_reverse; fold p. split; [|done]. rewrite Hs by lia. apply lookup_insert_eq.
  - intros x Hx. rewrite Hs by lia. apply lookup_insert_ne. lia.
Qed.

Lemma itoa_loop_mono fuel fuel' m ptr v base r :
  (fuel <= fuel')%nat -> itoa_loop fuel m ptr v base = Some r -> itoa_loop fuel' m ptr v base = Some r.
Proof.
  revert fuel' m ptr v; induction fuel as [|fuel IH]; intros [|fuel'] m ptr v Hf H; try done; [lia|].
  cbn [itoa_loop] in *. destruct (itoa_table !! _); [|done]. cbn [mbind option_bind] in *.
  destruct (store m ptr _); [|done]. cbn [mbind option_bind] in *.
  case_match; [done|]. apply IH; [lia|done].
Qed.

(** Both conversions from [low] on: a value of at most [k] digits needs a
    buffer of [k + 1] bytes. *)
Lemma convert_digits_in k m low v base :
  2 <= base <= 36 -> Z.abs v < base ^ Z.of_nat k -> (0 < k <= 64)%nat -> mapped m low (Z.of_nat k + 1) ->
  exists s m', ('(m, ptr) ← itoa_loop 64 m low v base;
                m ← store m ptr 0; reverse_loop 65 m low (ptr - 1)) = Some m'
    /\ numeral base (Z.abs v) s /\ (length s <= k)%nat /\ cstr m' low s
    /\ same_except m m' low (Z.of_nat (length s) + 1).
Proof.
  intros Hb Hv Hk Hm. destruct (itoa_loop_spec k m low v base) as (m1 & Hloop & Hlen & Hbytes & Hs);
    [done|done|lia|eapply mapped_weaken; [|done]; lia|].
  rewrite (itoa_loop_mono k 64 _ _ _ _ _ ltac:(lia) Hloop). set (ds := digit_char <$> _) in *.
  assert (numeral base (Z.abs v) (reverse ds)) as Hnum by (apply le_digits_numeral; lia).
  destruct (finish_digits m1 low ds) as (m' & Hf & Hc & Hs'); [done|lia| | |].
  - rewrite <- (reverse_involutive ds). apply Forall_reverse, Hnum.
  - rewrite Hs by lia. apply Hm. lia.
  - exists (reverse ds), m'. cbn [mbind option_bind]. split_and!; [done..|by rewrite length_reverse|done|].
    rewrite length_reverse. intros x Hx. rewrite Hs', Hs by lia. done.
Qed.

(** 64 digits and 64 swaps are enough for any 64-bit magnitude. *)
Lemma convert_digits m low v base :
  2 <= base <= 36 -> Z.abs v < 2 ^ 64 -> mapped m low 65 ->
  exists s m', ('(m, ptr) ← itoa_loop 64 m low v base;
                m ← store m ptr 0; reverse_loop 65 m low (ptr - 1)) = Some m'
    /\ numeral base (Z.abs v) s /\ cstr m' low s /\ same_except m m' low 65.
Proof.
  intros Hb Hv Hm. assert (Z.abs v < base ^ Z.of_nat 64).
  { apply Z.lt_le_trans with (2 ^ 64); [done|]. apply Z.pow_le_mono_l. lia. }
  destruct (convert_digits_in 64 m low v base) as (s & m' & ? & ? & ? & ? & Hs); [done|done|lia|done|].
  exists s, m'. split_and!; [done..|]. intros x Hx. apply Hs. lia.
Qed.

(** [uitoa] of a value of at most [k] digits stays in [k + 1] bytes. *)
Lemma uitoa_in k m value str base :
  2 <= base <= 36 -> 0 <= value < base ^ Z.of_nat k -> (0 < k <= 64)%nat -> mapped m str (Z.of_nat k + 1) ->
  exists m' s, uitoa m value str base = Some m' /\ numeral base value s /\ (length s <= k)%nat
    /\ cstr m' str s /\ same_except m m' str (Z.of_nat (length s) + 1).
Proof.
  intros Hb Hv Hk Hm. unfold uitoa. rewrite uitoa_loop_itoa by lia.
  destruct (Z.ltb_spec base 2); [lia|]. destruct (Z.ltb_spec 36 base); [lia|]. simpl orb. cbv iota.
  destruct (convert_digits_in k m str value base) as (s & m' & Hr & Hn & Hl & Hc & Hs); [done|lia|done|done|].
  rewrite Z.abs_eq in Hn by lia. by exists m', s.
Qed.

(** [itoa] writes, for every 32-bit int (INT_MIN included) and every base
    from 2 to 36, the canonical numeral of the value's magnitude as a C
    string, behind a minus sign exactly when the value is negative and the
    base ten, and changes nothing outside the 66-byte buffer. *)
Theorem itoa_reads_back m value str base :
  -2 ^ 31 <= value < 2 ^ 31 -> 2 <= base <= 36 -> mapped m str 66 ->
  exists m' s, itoa m value str base = Some m'
    /\ numeral base (Z.abs value) s
    /\ cstr m' str ((if (value <? 0) && (base =? 10) then [c_minus] else []) ++ s)
    /\ same_except m m' str 66.
Proof.
  intros Hv Hb Hm. unfold itoa.
  destruct (Z.ltb_spec base 2); [lia|]. destruct (Z.ltb_spec 36 base); [lia|]. simpl orb. cbv iota.
  destruct ((value <? 0) && (base =? 10)).
  - rewrite store_mapped by (eapply mapped_0, Hm; lia). cbn [mbind option_bind].
    destruct (convert_digits (<[str := c_minus]> m) (str + 1) value base)
      as (s & m' & Hr & Hn & Hc & Hs); [done|lia| |].
    { apply mapped_insert. eapply mapped_weaken; [|apply mapped_shift, Hm]; lia. }
    exists m', s. split_and!; [exact Hr|done| |].
    + simpl app. apply cstr_cons. split; [rewrite Hs by lia; apply lookup_insert_eq|by split].
    + intros x Hx. rewrite Hs by lia. apply lookup_insert_ne. lia.
  - cbn [mbind option_bind]. destruct (convert_digits m str value base)
      as (s & m' & Hr & Hn & Hc & Hs); [done|lia|eapply mapped_weaken; [|done]; lia|].
    exists m', s. split_and!; [exact Hr|done|done|]. intros x Hx. apply Hs. lia.
Qed.

(** A buffer of 66 zero bytes at 1000. *)
Definition zeros66 : mem := list_to_map ((fun i => (i, 0)) <$> range 1000 1066).

Lemma zeros66_mapped : mapped zeros66 1000 66.
Proof.
  unfold mapped. apply (lookup_by_range (fun i => is_Some (zeros66 !! (1000 + i)))).
  repeat (constructor; [by eexists; vm_compute|]). constructor.
Qed.

Lemma itoa_reads_back_witness :
  exists m' s, itoa zeros66 (-2147483648) 1000 10 = Some m'
    /\ numeral 10 2147483648 s
    /\ cstr m' 1000 ([c_minus] ++ s) /\ same_except zeros66 m' 1000 66.
Proof. apply (itoa_reads_back zeros66 (-2147483648) 1000 10); [lia|lia|apply zeros66_mapped]. Defined.

(** [uitoa] writes the canonical numeral of every 64-bit value in every
    base from 2 to 36 as a C string inside a 65-byte buffer. *)
Theorem uitoa_reads_back m value str base :
  0 <= value < 2 ^ 64 -> 2 <= base <= 36 -> mapped m str 65 ->
  exists m' s, uitoa m value str base = Some m'
    /\ numeral base value s /\ cstr m' str s /\ same_except m m' str 65.
Proof.
  intros Hv Hb Hm. unfold uitoa. rewrite uitoa_loop_itoa by lia.
  destruct (Z.ltb_spec base 2); [lia|]. destruct (Z.ltb_spec 36 base); [lia|]. simpl orb. cbv iota.
  destruct (convert_digits m str value base) as (s & m' & Hr & Hn & Hc & Hs); [done|lia|done|].
  rewrite Z.abs_eq in Hn by lia. by exists m', s.
Qed.

Lemma uitoa_reads_back_witness :
  exists m' s, uitoa zeros66 18446744073709551615 1000 2 = Some m'
    /\ numeral 2 18446744073709551615 s /\ cstr m' 1000 s /\ same_except zeros66 m' 1000 65.
Proof.
  apply uitoa_reads_back; [lia|lia|]. eapply mapped_weaken; [|apply zeros66_mapped]; lia.
Defined.
