(* ===== verification/PrintfSpec.v ===== *)
(** * What a format means

    The formats kvsnprintf documents, as a syntax of their own: literal
    characters and conversions with flags, a width and a length. [format] is
    how a format is written and [text] what it prints, both given without the
    code's parsers and loops; the theorem is that kvsnprintf prints it. *)
From S2P Require Import Prelude CString Printf.

(** ** Numbers *)

(** The number of digits: the least [k] with n < base^k. *)
Definition places (base n : Z) : Z := default 64 (head (filter (fun k => n < base ^ k) (range 1 64))).

Definition digit (up : bool) (d : Z) : Z := if d <? 10 then 48 + d else (if up then 55 else 87) + d.

(** The [k] lowest digits of [n], the highest first. *)
Definition digits_at (up : bool) (base n k : Z) : list Z := (fun i => digit up (n / base ^ i mod base)) <$> rev (range 0 k).

Definition number_text (up : bool) (base n : Z) : list Z := digits_at up base n (places base n).

(** ** Formats *)

Inductive fmt_flag := Minus | Zero.

#[global] Instance fmt_flag_eq_dec : EqDecision fmt_flag.
Proof. solve_decision. Defined.

(** The length: none, l, ll or z. *)
Inductive length_mod := Int | Long | LongLong | Size.

(** What stands between the percent sign and the conversion; width 0: none. *)
Record field := MkField { fl_flags : list fmt_flag; fl_width : Z; fl_len : length_mod }.

Inductive radix := Decimal | Octal | Hex | HexUpper.

Inductive item :=
| Lit (c : Z)
| Percent
| Signed (f : field) (i : bool) (v : Z)
| Unsigned (f : field) (r : radix) (v : Z)
| Pointer (v : Z)
| Text (f : field) (s : option (list Z))
| Char (c : Z)
| Unknown (f : field) (c : Z).

Definition flag_char (x : fmt_flag) : Z := match x with Minus => 45 | Zero => 48 end.
Definition width_text (w : Z) : list Z := if w =? 0 then [] else number_text false 10 w.
Definition len_text (m : length_mod) : list Z := match m with Int => [] | Long => [108] | LongLong => [108; 108] | Size => [122] end.
Definition field_format (f : field) : list Z := (flag_char <$> fl_flags f) ++ width_text (fl_width f) ++ len_text (fl_len f).

Definition radix_char (r : radix) : Z := match r with Decimal => 117 | Octal => 111 | Hex => 120 | HexUpper => 88 end.

Definition item_format (x : item) : list Z :=
  match x with
  | Lit c => [c]
  | Percent => [37; 37]
  | Signed f i _ => 37 :: field_format f ++ [if i then 105 else 100]
  | Unsigned f r _ => 37 :: field_format f ++ [radix_char r]
  | Pointer _ => [37; 112]
  | Text f _ => 37 :: field_format f ++ [115]
  | Char _ => [37; 99]
  | Unknown f c => 37 :: field_format f ++ [c]
  end.

Definition format (l : list item) : list Z := concat (item_format <$> l).

(** ** Their text *)

(** A sign and characters, at least [fl_width] wide: on the left if the flag
    says so, else after zeros that follow the sign, else after spaces. *)
Definition justified (f : field) (zeros : bool) (sign body : list Z) : list Z :=
  let gap := Z.to_nat (fl_width f - Z.of_nat (length (sign ++ body))) in
  if decide (Minus ∈ fl_flags f) then sign ++ body ++ replicate gap 32
  else if zeros && bool_decide (Zero ∈ fl_flags f) then sign ++ replicate gap 48 ++ body
  else replicate gap 32 ++ sign ++ body.

Definition radix_text (r : radix) (v : Z) : list Z :=
  match r with
  | Decimal => number_text false 10 v
  | Octal => number_text false 8 v
  | Hex => number_text false 16 v
  | HexUpper => number_text true 16 v
  end.

Definition item_text (x : item) : list Z :=
  match x with
  | Lit c => [c]
  | Percent => [37]
  | Signed f _ v => justified f true (if v <? 0 then [45] else []) (number_text false 10 (Z.abs v))
  | Unsigned f r v => justified f true [] (radix_text r v)
  | Pointer v => chr "0x" ++ number_text false 16 v
  | Text f s => justified f false [] (default (chr "(null)") s)
  | Char c => [c]
  | Unknown _ c => [37; c]
  end.

Definition text (l : list item) : list Z := concat (item_text <$> l).

(** ** Their arguments *)

Definition bits (f : field) : Z := match fl_len f with Int => 32 | _ => 64 end.

(** A register holds [v] in its low [k] bits. *)
Definition holds (k v : Z) (a : varg) : Prop := exists z, a = VInt z /\ z mod 2 ^ k = v mod 2 ^ k.

Fixpoint passes (l : list item) (ap : list varg) : Prop :=
  match l with
  | [] => True
  | x :: l' =>
      let arg (P : varg -> Prop) := match ap with a :: ap' => P a /\ passes l' ap' | [] => False end in
      match x with
      | Lit _ | Percent | Unknown _ _ => passes l' ap
      | Signed f _ v | Unsigned f _ v => arg (holds (bits f) v)
      | Pointer v => arg (holds 64 v)
      | Char c => arg (holds 8 c)
      | Text _ s => arg (eq (VStr s))
      end
  end.

Definition field_ok (f : field) : Prop := 0 <= fl_width f < 2 ^ 31.

(** The characters that do not end an unknown conversion. *)
Definition known : list Z := chr "-0123456789lzdiuxXopsc%".

Definition item_ok (x : item) : Prop :=
  match x with
  | Lit c => c <> 37
  | Percent => True
  | Signed f _ v => field_ok f /\ - 2 ^ (bits f - 1) <= v < 2 ^ (bits f - 1)
  | Unsigned f _ v => field_ok f /\ 0 <= v < 2 ^ bits f
  | Pointer v => 0 <= v < 2 ^ 64
  | Text f _ => field_ok f
  | Char c => 0 <= c < 256
  | Unknown f c => field_ok f /\ c ∉ known
  end.

(** ** The digit loop writes the number *)

Lemma first_in_range (P : Z -> Prop) `{!forall k, Decision (P k)} lo hi k :
  lo <= k < hi -> P k -> exists m, head (filter P (range lo hi)) = Some m /\ lo <= m /\ P m /\ forall j, lo <= j < m -> ~ P j.
Proof.
  remember (Z.to_nat (hi - lo)) as d eqn:Ed. revert lo Ed. induction d as [|d IH]; intros lo Ed Hk HP; [lia|].
  rewrite range_cons by lia. destruct (decide (P lo)) as [Hlo|Hlo].
  - rewrite filter_cons_True by done. exists lo. split_and!; [done|lia|done|lia].
  - rewrite filter_cons_False by done. destruct (IH (lo + 1)) as (m & E & Hm & HPm & Hj); [lia| |done|].
    + destruct (decide (k = lo)) as [->|]; [done|lia].
    + exists m. split_and!; [done|lia|done|]. intros j Hlj. destruct (decide (j = lo)) as [->|]; [done|]. apply Hj. lia.
Qed.

(** [k] is the number of digits of [n]. *)
Definition has_places (base n k : Z) : Prop := 1 <= k /\ n < base ^ k /\ (k = 1 \/ base ^ (k - 1) <= n).

Lemma places_ok base n : 8 <= base -> 0 <= n < 2 ^ 64 -> has_places base n (places base n).
Proof.
  intros Hb Hn. unfold places. destruct (first_in_range (fun k => n < base ^ k) 1 64 22) as (m & -> & Hm & HP & Hj); [lia| |].
  { apply Z.lt_le_trans with (8 ^ 22); [lia|]. apply Z.pow_le_mono_l. lia. }
  split_and!; [done|done|]. destruct (decide (m = 1)); [by left|right]. specialize (Hj (m - 1)). simpl. lia.
Qed.

Lemma le_digits_places fuel base n k :
  2 <= base -> 0 <= n < base ^ Z.of_nat fuel -> (0 < fuel)%nat -> has_places base n k ->
  le_digits fuel n base = (fun i => n / base ^ i mod base) <$> range 0 k.
Proof.
  intros Hb. revert n k. induction fuel as [|fuel IH]; intros n k Hn Hf (Hk & Hlt & Hge); [lia|]. cbn [le_digits].
  rewrite range_cons by lia. cbn [fmap list_fmap]. rewrite Z.pow_0_r, Z.div_1_r. f_equal.
  pose proof (Z.div_mod n base ltac:(lia)). pose proof (Z.mod_pos_bound n base ltac:(lia)).
  destruct (Z.eqb_spec (n / base) 0) as [E|E].
  - destruct Hge as [->|Hge]; [done|]. rewrite range_nil; [done|]. destruct (decide (k = 1)) as [->|]; [lia|exfalso].
    assert (base ^ 1 <= base ^ (k - 1)) by (apply Z.pow_le_mono_r; lia). lia.
  - assert (0 < n / base) by (pose proof (Z.div_pos n base); lia). rewrite Nat2Z.inj_succ, Z.pow_succ_r in Hn by lia.
    assert (1 < k) as Hk1 by (destruct (decide (k = 1)) as [->|]; [rewrite Z.pow_1_r in Hlt; by rewrite Z.div_small in E by lia|lia]).
    assert (0 < fuel)%nat by (destruct fuel; [simpl in Hn; by rewrite Z.div_small in E by lia|lia]).
    rewrite (IH (n / base) (k - 1)); [|split; [lia|apply Z.div_lt_upper_bound; lia]|done|].
    + replace (range (0 + 1) k) with (Z.add 1 <$> range 0 (k - 1)).
      * rewrite <- list_fmap_compose. apply list_fmap_ext. intros j i Hi. apply lookup_seqZ in Hi as [-> _]. simpl.
        rewrite Z.add_0_l, Z.pow_add_r, Z.pow_1_r by lia. by rewrite Z.div_div by lia.
      * unfold range. rewrite fmap_add_seqZ. f_equal; lia.
    + split_and!; [lia| |].
      * apply Z.div_lt_upper_bound; [lia|]. rewrite <- Z.pow_succ_r by lia. by replace (Z.succ (k - 1)) with k by lia.
      * destruct Hge as [|Hge]; [lia|]. destruct (decide (k = 2)) as [->|]; [by left|right]. apply Z.div_le_lower_bound; [lia|].
        rewrite <- Z.pow_succ_r by lia. by replace (Z.succ (k - 1 - 1)) with (k - 1) by lia.
Qed.

Lemma digit_table (up : bool) d : 0 <= d < 16 -> (if up then upper else lower) !! Z.to_nat d = Some (digit up d).
Proof. revert d. apply lookup_by_range. destruct up; repeat constructor. Qed.

(** A number of 64 bits fits the 24-byte array, in these bases. *)
Lemma number_text_ok (up : bool) base n :
  8 <= base <= 16 -> 0 <= n < 2 ^ 64 ->
  digits_loop 24 n base (if up then upper else lower) [] = Some (reverse (number_text up base n)).
Proof.
  intros Hb Hn. assert (n < base ^ Z.of_nat 24) by (apply Z.lt_le_trans with (8 ^ 24); [lia|]; apply Z.pow_le_mono_l; lia).
  rewrite (digits_loop_table _ (digit up)) by (apply digit_table || lia). rewrite app_nil_l. f_equal.
  rewrite (le_digits_places 24 base n (places base n)) by (lia || apply places_ok; lia).
  unfold number_text, digits_at. rewrite <- list_fmap_compose, <- fmap_reverse. f_equal.
  unfold reverse. by rewrite <- rev_alt, rev_involutive.
Qed.

(** ** The parsers read what [format] writes *)

(** What does not belong to a field: no flag, digit or length. *)
Definition ends_field (c : Z) : Prop := c <> 45 /\ is_digit c = false /\ c <> 108 /\ c <> 122.

Lemma parse_flags_ok fs rest lft pad :
  (forall c, head rest = Some c -> c <> 45 /\ c <> 48) ->
  parse_flags ((flag_char <$> fs) ++ rest) lft pad
  = (lft || bool_decide (Minus ∈ fs), if decide (Zero ∈ fs) then 48 else pad, rest).
Proof.
  intros Hr. revert lft pad. induction fs as [|x fs IH]; intros lft pad; cbn [fmap list_fmap app].
  - rewrite bool_decide_eq_false_2, orb_false_r, decide_False by set_solver. destruct rest as [|c rest]; [done|].
    destruct (Hr c eq_refl) as [H1 H2]. cbn [parse_flags]. unfold c_minus, c_zero.
    by rewrite (proj2 (Z.eqb_neq _ _) H1), (proj2 (Z.eqb_neq _ _) H2).
  - destruct x; cbn [flag_char parse_flags]; unfold c_minus, c_zero; cbn [Z.eqb Pos.eqb]; rewrite IH; f_equal; [f_equal|..].
    + rewrite orb_true_l, (bool_decide_eq_true_2 (Minus ∈ Minus :: fs)), orb_true_r by set_solver. done.
    + destruct (decide (Zero ∈ fs)), (decide (Zero ∈ Minus :: fs)); set_solver.
    + f_equal; [f_equal; apply bool_decide_ext; set_solver|].
      rewrite (decide_True (P := Zero ∈ Zero :: fs)) by set_solver. by destruct (decide _).
Qed.

Lemma digits_at_succ up base n k : 0 <= k -> digits_at up base n (k + 1) = digit up (n / base ^ k mod base) :: digits_at up base n k.
Proof. intros Hk. unfold digits_at. by rewrite range_snoc, rev_app_distr by lia. Qed.

Lemma is_digit_digit d : 0 <= d < 10 -> is_digit (digit false d) = true /\ digit false d - 48 = d.
Proof.
  intros Hd. unfold is_digit, digit. rewrite (proj2 (Z.ltb_lt d 10)) by lia.
  rewrite (proj2 (Z.leb_le _ _)), (proj2 (Z.leb_le _ _)) by lia. split; [done|lia].
Qed.

Lemma parse_digits k n rest acc :
  0 <= n -> 0 <= acc -> acc * 10 ^ Z.of_nat k + n mod 10 ^ Z.of_nat k < 2 ^ 31 ->
  parse_width (digits_at false 10 n (Z.of_nat k) ++ rest) acc = parse_width rest (acc * 10 ^ Z.of_nat k + n mod 10 ^ Z.of_nat k).
Proof.
  intros Hn. revert acc. induction k as [|k IH]; intros acc Ha Hlt.
  - unfold digits_at. rewrite range_nil by lia. rewrite Z.pow_0_r, Z.mod_1_r, Z.mul_1_r, Z.add_0_r. done.
  - rewrite Nat2Z.inj_succ in *. replace (Z.succ (Z.of_nat k)) with (Z.of_nat k + 1) in * by lia. rewrite digits_at_succ by lia.
    set (p := 10 ^ Z.of_nat k) in *. assert (0 < p) by (apply Z.pow_pos_nonneg; lia).
    rewrite Z.pow_add_r, Z.pow_1_r in * by lia. fold p in Hlt |- *. set (d := n / p mod 10).
    assert (n mod (p * 10) = p * d + n mod p) as E by (rewrite Z.rem_mul_r by lia; unfold d; lia). rewrite E in *.
    assert (0 <= d < 10) as Hd by (apply Z.mod_pos_bound; lia). destruct (is_digit_digit d Hd) as [H1 H2]. pose proof (Z.mod_pos_bound n p ltac:(lia)).
    cbn [app parse_width]. rewrite H1, H2, (proj2 (Z.ltb_lt _ _)) by nia. fold p in IH. rewrite IH by nia. f_equal. lia.
Qed.

Lemma parse_width_ok w rest :
  0 <= w < 2 ^ 31 -> (forall c, head rest = Some c -> is_digit c = false) -> parse_width (width_text w ++ rest) 0 = Some (w, rest).
Proof.
  intros Hw Hr. assert (forall v, parse_width rest v = Some (v, rest)) as Hstop.
  { intros v. destruct rest as [|c rest]; [done|]. cbn [parse_width]. by rewrite (Hr c eq_refl). }
  unfold width_text. destruct (Z.eqb_spec w 0) as [->|Hw0]; [apply Hstop|].
  destruct (places_ok 10 w) as (Hk & Hlt & _); [lia|lia|]. unfold number_text. rewrite <- (Z2Nat.id (places 10 w)) in Hlt |- * by lia.
  rewrite parse_digits, Z.mod_small by (rewrite ?Z.mod_small; lia). by rewrite Hstop.
Qed.

(** A width does not begin with a zero. *)
Lemma width_head w c : 0 <= w < 2 ^ 31 -> head (width_text w) = Some c -> c <> 45 /\ c <> 48.
Proof.
  intros Hw. unfold width_text. destruct (Z.eqb_spec w 0) as [|Hw0]; [done|]. destruct (places_ok 10 w) as (Hk & Hlt & Hge); [lia|lia|].
  unfold number_text. replace (places 10 w) with (places 10 w - 1 + 1) by lia. rewrite digits_at_succ by lia. intros [= <-].
  set (p := 10 ^ (places 10 w - 1)) in *. assert (0 < p) by (apply Z.pow_pos_nonneg; lia).
  assert (1 <= w / p < 10) as Hd.
  { split; [|apply Z.div_lt_upper_bound; [lia|]; replace (p * 10) with (10 ^ places 10 w); [done|]].
    - apply Z.div_le_lower_bound; [done|]. destruct Hge as [E|]; [|lia]. unfold p. rewrite E. simpl. lia.
    - unfold p. rewrite Z.mul_comm, <- Z.pow_succ_r by lia. f_equal. lia. }
  unfold digit. rewrite Z.mod_small, (proj2 (Z.ltb_lt _ _)) by lia. lia.
Qed.

Definition longer (f : field) : bool := match fl_len f with Int => false | _ => true end.

Lemma parse_long_ok f rest :
  (forall c, head rest = Some c -> c <> 108 /\ c <> 122) -> parse_long (len_text (fl_len f) ++ rest) false = (longer f, rest).
Proof.
  intros Hr. assert (forall b, parse_long rest b = (b, rest)) as Hstop.
  { intros b. destruct rest as [|c rest]; [done|]. destruct (Hr c eq_refl) as [H1 H2]. cbn [parse_long].
    by rewrite (proj2 (Z.eqb_neq _ _) H1), (proj2 (Z.eqb_neq _ _) H2). }
  unfold longer. destruct (fl_len f); cbn [len_text app parse_long Z.eqb Pos.eqb orb]; apply Hstop.
Qed.

Definition lft_of (f : field) : bool := bool_decide (Minus ∈ fl_flags f).
Definition pad_of (f : field) : Z := if lft_of f then 32 else if decide (Zero ∈ fl_flags f) then 48 else 32.

(** One conversion of the interpreter. *)
Lemma render_field fuel f c rest ap :
  field_ok f -> ends_field c ->
  render_loop (S fuel) ((37 :: field_format f ++ [c]) ++ rest) ap
  = ('(t, ap) ← conv_text c (longer f) (fl_width f) (pad_of f) (lft_of f) ap; app t <$> render_loop fuel rest ap).
Proof.
  intros Hf (H1 & H2 & H3 & H4). cbn [app render_loop]. unfold c_percent at 1. cbn [Z.eqb Pos.eqb negb].
  unfold field_format. rewrite <- !app_assoc. cbn [app].
  assert (c <> 48) as H0 by (intros ->; done). set (l := len_text (fl_len f) ++ c :: rest).
  assert (forall x, head l = Some x -> x <> 45 /\ x <> 48 /\ is_digit x = false) as Hl by (unfold l; destruct (fl_len f); simpl; by intros x [= <-]).
  rewrite parse_flags_ok.
  - rewrite parse_width_ok; [|done|by apply Hl]. cbn [mbind option_bind]. unfold l. rewrite parse_long_ok by (by intros x [= <-]). done.
  - intros x Hx. destruct (width_text (fl_width f)) as [|y w] eqn:Ew; [by split; apply (Hl x)|].
    apply (width_head (fl_width f)); [done|]. by rewrite Ew.
Qed.

Lemma num_text_ok (up : bool) n base (neg : bool) f :
  8 <= base <= 16 -> 0 <= n < 2 ^ 64 ->
  num_text n base neg (fl_width f) (pad_of f) (lft_of f) (if up then upper else lower)
  = Some (justified f true (if neg then [45] else []) (number_text up base n)).
Proof.
  intros Hb Hn. unfold num_text. rewrite number_text_ok by done. cbn [fmap option_fmap option_map mbind option_bind]. rewrite reverse_involutive.
  unfold justified, pad_of, lft_of. rewrite length_app, (Nat.add_comm (length (if neg then _ else _))). f_equal.
  destruct (decide (Minus ∈ fl_flags f)) as [Hm|Hm]; [by rewrite bool_decide_eq_true_2|]. rewrite bool_decide_eq_false_2 by done.
  destruct (decide (Zero ∈ fl_flags f)) as [Hz|Hz]; [by rewrite bool_decide_eq_true_2|by rewrite bool_decide_eq_false_2].
Qed.

Lemma str_text_ok f s :
  (let gap := replicate (Z.to_nat (fl_width f - Z.of_nat (length s))) c_space in if lft_of f then s ++ gap else gap ++ s)
  = justified f false [] s.
Proof.
  unfold justified, lft_of. cbn [app andb]. destruct (decide (Minus ∈ fl_flags f)) as [Hm|Hm]; [by rewrite bool_decide_eq_true_2|].
  by rewrite bool_decide_eq_false_2.
Qed.

(** ** Arguments *)

Lemma s32_holds z v : z mod 2 ^ 32 = v mod 2 ^ 32 -> - 2 ^ 31 <= v < 2 ^ 31 -> s32 z = v.
Proof. intros E Hv. unfold s32. rewrite <- Zplus_mod_idemp_l, E, Zplus_mod_idemp_l, Z.mod_small; lia. Qed.

Lemma s64_holds z v : z mod 2 ^ 64 = v mod 2 ^ 64 -> - 2 ^ 63 <= v < 2 ^ 63 -> s64 z = v.
Proof. intros E Hv. unfold s64. rewrite <- Zplus_mod_idemp_l, E, Zplus_mod_idemp_l, Z.mod_small; lia. Qed.

Lemma va_signed_ok f v a ap :
  holds (bits f) v a -> - 2 ^ (bits f - 1) <= v < 2 ^ (bits f - 1) -> va_signed (longer f) (a :: ap) = Some (v, ap).
Proof.
  intros (z & -> & E) Hv. unfold va_signed, longer, bits in *. do 2 f_equal. destruct (fl_len f); by (apply s32_holds || apply s64_holds).
Qed.

Lemma va_unsigned_ok f v a ap :
  holds (bits f) v a -> 0 <= v < 2 ^ bits f -> va_unsigned (longer f) (a :: ap) = Some (v, ap).
Proof.
  intros (z & -> & E) Hv. unfold va_unsigned, longer, bits, u32, u64 in *. rewrite (Z.mod_small v) in E by done. do 2 f_equal. by destruct (fl_len f).
Qed.

(** ** The interpreter prints the text *)

Definition plain : field := MkField [] 0 Int.

Lemma justified_plain sign body : justified plain true sign body = sign ++ body.
Proof.
  unfold justified, plain. cbn [fl_flags fl_width]. rewrite decide_False, bool_decide_eq_false_2 by set_solver.
  by replace (Z.to_nat _) with 0%nat by lia.
Qed.

Lemma field_bits_bound f : 2 ^ bits f <= 2 ^ 64 /\ 2 ^ (bits f - 1) <= 2 ^ 63.
Proof. unfold bits. destruct (fl_len f); by vm_compute. Qed.

Lemma conv_signed f (i : bool) v a ap :
  field_ok f -> holds (bits f) v a -> - 2 ^ (bits f - 1) <= v < 2 ^ (bits f - 1) ->
  conv_text (if i then 105 else 100) (longer f) (fl_width f) (pad_of f) (lft_of f) (a :: ap) = Some (item_text (Signed f i v), ap).
Proof.
  intros Hf Ha Hv. pose proof (field_bits_bound f). unfold conv_text. replace (_ || _) with true by (by destruct i).
  rewrite (va_signed_ok f v) by done. cbn [mbind option_bind]. rewrite u64_small by lia.
  rewrite (num_text_ok false) by lia. done.
Qed.

Lemma conv_unsigned f r v a ap :
  field_ok f -> holds (bits f) v a -> 0 <= v < 2 ^ bits f ->
  conv_text (radix_char r) (longer f) (fl_width f) (pad_of f) (lft_of f) (a :: ap) = Some (item_text (Unsigned f r v), ap).
Proof.
  intros Hf Ha Hv. pose proof (field_bits_bound f). unfold conv_text.
  destruct r; cbn [radix_char Z.eqb Pos.eqb orb]; rewrite (va_unsigned_ok f v) by done; cbn [mbind option_bind].
  1-3: rewrite (num_text_ok false) by lia; done.
  rewrite (num_text_ok true) by lia. done.
Qed.

Lemma unknown_ends c : c ∉ known ->
  ends_field c /\ forall f ap, conv_text c (longer f) (fl_width f) (pad_of f) (lft_of f) ap = Some ([37; c], ap).
Proof.
  intros Hc. assert (forall d, d ∈ known -> c <> d) as Hne by (by intros d Hd ->).
  assert (ends_field c) as He.
  { split_and!; [|unfold is_digit; destruct (Z.leb_spec 48 c), (Z.leb_spec c 57); try done|..].
    2: { exfalso. apply Hc. assert (c ∈ range 48 58) as Hr by (apply elem_of_range; lia). revert Hr. by vm_compute; set_solver. }
    all: apply Hne; by vm_compute; set_solver. }
  split; [done|]. intros f ap. unfold conv_text.
  rewrite !(proj2 (Z.eqb_neq c _)) by (apply Hne; vm_compute; set_solver). done.
Qed.

Lemma render_item fuel x l ap rest :
  item_ok x -> passes (x :: l) ap ->
  exists ap', passes l ap' /\ render_loop (S fuel) (item_format x ++ rest) ap = app (item_text x) <$> render_loop fuel rest ap'.
Proof.
  assert (forall c, c ∈ chr "diuxXopsc%" -> ends_field c) as Hend.
  { intros c Hc. assert (Forall ends_field (chr "diuxXopsc%")) as Hall by (repeat constructor; done). by apply (proj1 (Forall_forall _ _) Hall). }
  assert (forall f c t ap', field_ok f -> ends_field c -> passes l ap' ->
    conv_text c (longer f) (fl_width f) (pad_of f) (lft_of f) ap = Some (t, ap') ->
    exists ap', passes l ap' /\ render_loop (S fuel) ((37 :: field_format f ++ [c]) ++ rest) ap = app t <$> render_loop fuel rest ap') as Hconv.
  { intros f c t ap' Hf Hc Hp E. exists ap'. split; [done|]. rewrite render_field by done. by rewrite E. }
  assert (field_ok plain) as Hplain by done.
  destruct x as [c| |f i v|f r v|v|f s|c|f c]; cbn [item_ok passes item_format]; intros Hx Hp.
  - exists ap. split; [done|]. cbn [app render_loop]. unfold c_percent. by rewrite (proj2 (Z.eqb_neq _ _) Hx).
  - by apply (Hconv plain 37 [37] ap); [|apply Hend; vm_compute; set_solver|..].
  - destruct ap as [|a ap']; [done|]. destruct Hx, Hp.
    eapply Hconv; [done|destruct i; apply Hend; vm_compute; set_solver|done|by apply conv_signed].
  - destruct ap as [|a ap']; [done|]. destruct Hx, Hp.
    eapply Hconv; [done|destruct r; apply Hend; vm_compute; set_solver|done|by apply conv_unsigned].
  - destruct ap as [|a ap']; [done|]. destruct Hp as [Ha Hp].
    apply (Hconv plain 112 (item_text (Pointer v)) ap'); [done|apply Hend; vm_compute; set_solver|done|].
    pose proof (va_unsigned_ok (MkField [] 0 Long) v a ap' Ha Hx) as E. change (longer _) with true in E.
    unfold conv_text. cbn [Z.eqb Pos.eqb orb]. rewrite E. cbn [mbind option_bind].
    change (num_text v 16 false 0 c_space false lower) with (num_text v 16 false (fl_width plain) (pad_of plain) (lft_of plain) lower).
    rewrite (num_text_ok false v 16 false plain) by lia. cbn [mbind option_bind item_text]. by rewrite justified_plain.
  - destruct ap as [|a ap']; [done|]. destruct Hp as [<- Hp]. eapply Hconv; [done|apply Hend; vm_compute; set_solver|done|].
    unfold conv_text. cbn [Z.eqb Pos.eqb orb item_text]. rewrite <- (str_text_ok f). by destruct s.
  - destruct ap as [|a ap']; [done|]. destruct Hp as [(z & -> & E) Hp].
    apply (Hconv plain 99 [c] ap'); [done|apply Hend; vm_compute; set_solver|done|].
    unfold conv_text. cbn [Z.eqb Pos.eqb orb va_signed longer plain fl_len mbind option_bind]. do 3 f_equal.
    rewrite (Z.mod_small c) in E by lia. unfold u8, s32. change (2 ^ 8) with 256 in E. lia_div.
  - destruct Hx as [Hf Hc]. destruct (unknown_ends c Hc) as [He Ec]. by eapply Hconv.
Qed.

Lemma render_items l ap fuel :
  Forall item_ok l -> passes l ap -> (length l < fuel)%nat -> render_loop fuel (format l) ap = Some (text l).
Proof.
  intros Hl. revert ap fuel. induction Hl as [|x l Hx _ IH]; intros ap [|fuel] Hp Hf; cbn [length] in Hf; [lia|done|lia|].
  unfold format, text. cbn [fmap list_fmap concat]. destruct (render_item fuel x l ap (format l) Hx Hp) as (ap' & Hp' & E).
  etrans; [exact E|]. rewrite IH by (done || lia). done.
Qed.

Lemma item_format_length l : (length l <= length (format l))%nat.
Proof.
  unfold format. induction l as [|x l IH]; [done|]. cbn [fmap list_fmap concat length]. rewrite length_app.
  destruct x; cbn [item_format length app] in *; lia.
Qed.

(** C37: for every format made of ordinary characters, %%, %d, %i, %u, %o, %x
    and %X with any flags, width and length, %p, %s, %c and conversions it
    does not know, and the arguments they need, kvsnprintf returns; it writes
    the text the format means (numbers in positional notation, padded as C
    has it), cut to the size of the buffer, always NUL-terminated, the rest of
    the buffer untouched, and returns the length the whole text has. *)
Theorem kvsnprintf_correct buf l ap :
  Forall item_ok l -> passes l ap -> Z.of_nat (length (text l)) < 2 ^ 31 -> (0 < length buf)%nat ->
  kvsnprintf buf (Z.of_nat (length buf)) (format l) ap = Some (truncated buf (text l), Z.of_nat (length (text l))).
Proof.
  intros Hl Hp Ht Hb. apply kvsnprintf_render; [|done|done]. apply render_items; [done|done|]. pose proof (item_format_length l). lia.
Qed.

(** "%05d!" and "%-4lx|" *)
Lemma kvsnprintf_correct_witness :
  let l := [Signed (MkField [Zero] 5 Int) false (-42); Lit 33; Unsigned (MkField [Minus] 4 Long) Hex 254; Lit 124] in
  format l = chr "%05d!%-4lx|" /\ text l = chr "-0042!fe  |"
  /\ kvsnprintf (replicate 9 7) 9 (chr "%05d!%-4lx|") [VInt (-42); VInt 254] = Some (truncated (replicate 9 7) (chr "-0042!fe  |"), 11).
Proof.
  split; [by vm_compute|]. split; [by vm_compute|].
  apply (kvsnprintf_correct (replicate 9 7)
    [Signed (MkField [Zero] 5 Int) false (-42); Lit 33; Unsigned (MkField [Minus] 4 Long) Hex 254; Lit 124] [VInt (-42); VInt 254]).
  - repeat apply Forall_cons_2; [..|apply Forall_nil_2]; unfold item_ok, field_ok, bits; simpl; lia.
  - split; [by exists (-42)|]. split; [by exists 254|done].
  - by vm_compute.
  - simpl. lia.
Defined.

(** The width of %c and %p is read but not used. *)
Lemma width_of_char_ignored : kvsnprintf (replicate 9 7) 9 (chr "%3c") [VInt 65] = Some (truncated (replicate 9 7) (chr "A"), 1).
Proof. by vm_compute. Qed.
