(* ===== verification/Pmm.v ===== *)
(** * The physical memory manager: src/src/kernel/mm/pmm.c

    The frame bitmap is a list of bytes; an access past it is a fault. The
    state record [pmm] holds the file's static variables, [multiboot_info]
    what multiboot.c hands over. The abstract view of a state is [free_set],
    the set of frame numbers whose bit is clear: allocation takes the first
    fitting run out of it, a free puts a run back, and initialisation fills it
    with whole pages of available memory, clear of everything reserved. The
    class [FrameAlloc] is what the heap and the virtual memory manager may
    rely on. *)
From S2P Require Import Prelude.

(** ** memory.h *)

Definition PAGE_SIZE : Z := 4096.
Definition PHYS_ADDR_INVALID : Z := 0.
Definition KERNEL_BASE : Z := 18446744071562067968. (* 0xFFFFFFFF80000000 *)

Definition phys_to_virt (phys : Z) : Z := u64 (phys + KERNEL_BASE).
Definition virt_to_phys (virt : Z) : Z := u64 (virt - KERNEL_BASE).
Definition align_down_page (addr : Z) : Z := Z.land addr (u64 (Z.lnot (PAGE_SIZE - 1))).
Definition align_up_page (addr : Z) : Z := Z.land (u64 (addr + PAGE_SIZE - 1)) (u64 (Z.lnot (PAGE_SIZE - 1))).

(** ** multiboot.h, pmm.h *)

Definition MULTIBOOT_MEMORY_AVAILABLE : Z := 1.
Definition MULTIBOOT_MAX_MODULES : Z := 8.
Definition PMM_DIRECT_MAP_END : Z := 1073741824. (* 0x40000000 *)
Definition PMM_MAX_RESERVED : Z := 3 + MULTIBOOT_MAX_MODULES.

Record memory_map_entry := MkEntry { me_address : Z; me_length : Z; me_type : Z }.
Record phys_range := MkRange { r_start : Z; r_end : Z }.

(** What boot hands over: the memory map, the Multiboot block, the modules
    and the linker's bounds of the kernel image (virtual addresses). *)
Record multiboot_info := MkInfo {
  memory_map : list memory_map_entry;
  multiboot_info_addr : Z;
  multiboot_info_size : Z;
  modules : list phys_range;
  kernel_start : Z;
  kernel_end : Z;
}.

(** ** The state of pmm.c *)

Record pmm := MkPmm {
  bitmap : option (list Z);
  total_frames : Z;
  used_frames : Z;
  detected_ram : Z;
  managed_bytes : Z;
  bitmap_phys : Z;
  bitmap_bytes : Z;
  reserved : list phys_range;
}.

Definition set_bitmap b s := MkPmm b (total_frames s) (used_frames s) (detected_ram s) (managed_bytes s) (bitmap_phys s) (bitmap_bytes s) (reserved s).
Definition set_total t s := MkPmm (bitmap s) t (used_frames s) (detected_ram s) (managed_bytes s) (bitmap_phys s) (bitmap_bytes s) (reserved s).
Definition set_used u s := MkPmm (bitmap s) (total_frames s) u (detected_ram s) (managed_bytes s) (bitmap_phys s) (bitmap_bytes s) (reserved s).
Definition set_detected d s := MkPmm (bitmap s) (total_frames s) (used_frames s) d (managed_bytes s) (bitmap_phys s) (bitmap_bytes s) (reserved s).
Definition set_managed m s := MkPmm (bitmap s) (total_frames s) (used_frames s) (detected_ram s) m (bitmap_phys s) (bitmap_bytes s) (reserved s).
Definition set_bitmap_phys p s := MkPmm (bitmap s) (total_frames s) (used_frames s) (detected_ram s) (managed_bytes s) p (bitmap_bytes s) (reserved s).
Definition set_bitmap_bytes n s := MkPmm (bitmap s) (total_frames s) (used_frames s) (detected_ram s) (managed_bytes s) (bitmap_phys s) n (reserved s).
Definition set_reserved r s := MkPmm (bitmap s) (total_frames s) (used_frames s) (detected_ram s) (managed_bytes s) (bitmap_phys s) (bitmap_bytes s) r.

(** The static variables before pmm_init runs. *)
Definition pmm_start : pmm := MkPmm None 0 0 0 0 0 0 [].

(** ** Bitmap accesses *)

Definition frame_index (addr : Z) : Z := addr / PAGE_SIZE.

Definition frame_in_range (addr : Z) (s : pmm) : bool :=
  (addr <? managed_bytes s) && (addr mod PAGE_SIZE =? 0).

Definition test_bit (bm : list Z) (frame : Z) : option bool :=
  byte ← bm !! Z.to_nat (frame / 8);
  Some (negb (Z.land byte (Z.shiftl 1 (frame mod 8)) =? 0)).

Definition set_bit (bm : list Z) (frame : Z) : option (list Z) :=
  byte ← bm !! Z.to_nat (frame / 8);
  Some (<[Z.to_nat (frame / 8) := Z.lor byte (u8 (Z.shiftl 1 (frame mod 8)))]> bm).

Definition clear_bit (bm : list Z) (frame : Z) : option (list Z) :=
  byte ← bm !! Z.to_nat (frame / 8);
  Some (<[Z.to_nat (frame / 8) := Z.land byte (u8 (Z.lnot (Z.shiftl 1 (frame mod 8))))]> bm).

Definition bitmap_test (frame : Z) : M pmm bool :=
  s ← get; lift (bm ← bitmap s; test_bit bm frame).

Definition bitmap_set (frame : Z) : M pmm unit :=
  s ← get; bm ← lift (bm ← bitmap s; set_bit bm frame); modify (set_bitmap (Some bm)).

Definition bitmap_clear (frame : Z) : M pmm unit :=
  s ← get; bm ← lift (bm ← bitmap s; clear_bit bm frame); modify (set_bitmap (Some bm)).

(** ** Marking ranges *)

(** [for (addr = lo; addr < hi; addr += PAGE_SIZE)] *)
Definition page_steps (lo hi : Z) : list Z :=
  (fun i => lo + i * PAGE_SIZE) <$> range 0 ((hi - lo + PAGE_SIZE - 1) / PAGE_SIZE).

Definition mark_used (addr : Z) : M pmm unit :=
  let frame := frame_index addr in
  b ← bitmap_test frame;
  when (negb b) (_ ← bitmap_set frame; modify (fun s => set_used (u64 (used_frames s + 1)) s)).

Definition pmm_mark_used_range (start end_ : Z) : M pmm unit :=
  if end_ <=? start then mret tt else
  let lo := align_down_page start in
  let hi := align_up_page end_ in
  managed ← gets managed_bytes;
  if managed <=? lo then mret tt else
  let hi := if managed <? hi then managed else hi in
  for_each (page_steps lo hi) mark_used.

Definition mark_free (addr : Z) : M pmm unit :=
  let frame := frame_index addr in
  b ← bitmap_test frame;
  when b (_ ← bitmap_clear frame;
          modify (fun s => if 0 <? used_frames s then set_used (used_frames s - 1) s else s)).

Definition pmm_mark_free_range (start end_ : Z) : M pmm unit :=
  if end_ <=? start then mret tt else
  let lo := align_up_page start in
  let hi := align_down_page end_ in
  managed ← gets managed_bytes;
  if managed <=? lo then mret tt else
  let hi := if managed <? hi then managed else hi in
  for_each (page_steps lo hi) mark_free.

(** ** Initialisation *)

Definition available (e : memory_map_entry) : bool := me_type e =? MULTIBOOT_MEMORY_AVAILABLE.

Definition compute_detected_ram (info : multiboot_info) : Z :=
  foldl (fun total e => if available e then u64 (total + me_length e) else total) 0 (memory_map info).

Definition managed_limit_step (limit : Z) (e : memory_map_entry) : Z :=
  if negb (available e) then limit else
  let start := me_address e in
  let end_ := u64 (start + me_length e) in
  if PMM_DIRECT_MAP_END <=? start then limit else
  let end_ := if PMM_DIRECT_MAP_END <? end_ then PMM_DIRECT_MAP_END else end_ in
  if limit <? end_ then end_ else limit.

Definition compute_managed_limit (info : multiboot_info) : Z :=
  align_down_page (foldl managed_limit_step 0 (memory_map info)).

Definition add_reserved (start end_ : Z) (rs : list phys_range) : list phys_range :=
  if (end_ <=? start) || (Z.of_nat (length rs) =? PMM_MAX_RESERVED) then rs
  else rs ++ [MkRange (align_down_page start) (align_up_page end_)].

Definition collect_reserved (info : multiboot_info) : list phys_range :=
  let rs := add_reserved 0 1048576 [] in
  let rs := add_reserved (virt_to_phys (kernel_start info)) (virt_to_phys (kernel_end info)) rs in
  let mb_addr := multiboot_info_addr info in
  let rs := add_reserved mb_addr (u64 (mb_addr + multiboot_info_size info)) rs in
  foldl (fun rs m => add_reserved (r_start m) (r_end m) rs) rs (modules info).

(** The inner [while] of find_bitmap_home: skip past every reserved range
    that overlaps, restarting the scan of the ranges after each skip. *)
Fixpoint home_search (fuel : nat) (rs : list phys_range) (r : nat) (start len end_ : Z) : option Z :=
  match fuel with
  | O => None
  | S fuel' =>
      if (r <? length rs)%nat && (u64 (start + len) <=? end_) then
        x ← rs !! r;
        if (start <? r_end x) && (r_start x <? u64 (start + len))
        then home_search fuel' rs 0 (r_end x) len end_
        else home_search fuel' rs (S r) start len end_
      else Some start
  end.

(** One pass per range, and one restart per range skipped. *)
Definition home_fuel (rs : list phys_range) : nat := (S (length rs) * S (length rs))%nat.

Fixpoint find_bitmap_home (map : list memory_map_entry) (rs : list phys_range) (managed len : Z) : option Z :=
  match map with
  | [] => Some PHYS_ADDR_INVALID
  | e :: map' =>
      if negb (available e) then find_bitmap_home map' rs managed len else
      let start := align_up_page (me_address e) in
      let end_ := align_down_page (u64 (me_address e + me_length e)) in
      let end_ := if managed <? end_ then managed else end_ in
      start ← home_search (home_fuel rs) rs 0 start len end_;
      if u64 (start + len) <=? end_ then Some start
      else find_bitmap_home map' rs managed len
  end.

Definition free_entry (e : memory_map_entry) : M pmm unit :=
  if negb (available e) then mret tt else
  let start := me_address e in
  let end_ := u64 (start + me_length e) in
  pmm_mark_free_range start end_.

Definition pmm_init (info : multiboot_info) : M pmm unit :=
  _ ← modify (set_detected (compute_detected_ram info));
  _ ← modify (set_managed (compute_managed_limit info));
  managed ← gets managed_bytes;
  if managed <? PAGE_SIZE * 16 then
    modify (fun s => set_used 0 (set_total 0 (set_bitmap None s)))
  else
    let total := managed / PAGE_SIZE in
    let bytes := (total + 7) / 8 in
    let pages := (bytes + PAGE_SIZE - 1) / PAGE_SIZE in
    _ ← modify (fun s => set_bitmap_bytes bytes (set_total total s));
    _ ← modify (set_reserved (collect_reserved info));
    rs ← gets reserved;
    home ← lift (find_bitmap_home (memory_map info) rs managed (pages * PAGE_SIZE));
    _ ← modify (set_bitmap_phys home);
    if home =? PHYS_ADDR_INVALID then modify (fun s => set_total 0 (set_bitmap None s))
    else
      _ ← modify (set_bitmap (Some (replicate (Z.to_nat (pages * PAGE_SIZE)) 255)));
      _ ← modify (set_used total);
      _ ← for_each (memory_map info) free_entry;
      _ ← for_each rs (fun r => pmm_mark_used_range (r_start r) (r_end r));
      pmm_mark_used_range home (u64 (home + pages * PAGE_SIZE)).

(** ** Allocation and release *)

Fixpoint alloc_scan (frames : list Z) (run run_start count : Z) : M pmm Z :=
  match frames with
  | [] => mret PHYS_ADDR_INVALID
  | frame :: frames' =>
      b ← bitmap_test frame;
      if negb b then
        let run_start := if run =? 0 then frame else run_start in
        let run := run + 1 in
        if run =? count then
          _ ← for_each (range run_start (run_start + count)) bitmap_set;
          _ ← modify (fun s => set_used (u64 (used_frames s + count)) s);
          mret (u64 (run_start * PAGE_SIZE))
        else alloc_scan frames' run run_start count
      else alloc_scan frames' 0 run_start count
  end.

Definition pmm_alloc_pages (count : Z) : M pmm Z :=
  s ← get;
  if (count =? 0) || (if bitmap s then false else true) || (total_frames s =? 0) then mret PHYS_ADDR_INVALID
  else if total_frames s <? count then mret PHYS_ADDR_INVALID
  else alloc_scan (range 0 (total_frames s)) 0 0 count.

Definition pmm_alloc_page : M pmm Z := pmm_alloc_pages 1.

(** The double-free test: every frame of the run must be marked used. *)
Fixpoint all_used (frames : list Z) : M pmm bool :=
  match frames with
  | [] => mret true
  | f :: frames' => b ← bitmap_test f; if negb b then mret false else all_used frames'
  end.

Definition pmm_free_pages (page count : Z) : M pmm unit :=
  s ← get;
  if (count =? 0) || (if bitmap s then false else true) then mret tt
  else if negb (frame_in_range page s) then mret tt
  else if (total_frames s <? count) || (total_frames s <? u64 (frame_index page + count)) then mret tt
  else
    let start := frame_index page in
    ok ← all_used (range start (start + count));
    if negb ok then mret tt
    else
      _ ← for_each (range start (start + count)) bitmap_clear;
      modify (fun s => set_used (u64 (used_frames s - count)) s).

Definition pmm_free_page (page : Z) : M pmm unit := pmm_free_pages page 1.

Record pmm_stats := MkStats {
  st_total_frames : Z; st_used_frames : Z; st_free_frames : Z;
  st_usable_bytes : Z; st_detected_ram : Z; st_managed_bytes : Z;
}.

Definition pmm_get_stats (s : pmm) : pmm_stats :=
  let free := if used_frames s <=? total_frames s then total_frames s - used_frames s else 0 in
  MkStats (total_frames s) (used_frames s) free (u64 (free * PAGE_SIZE)) (detected_ram s) (managed_bytes s).

(** ** The abstract view *)

(** The frames [f, f+1, ..., f+n-1]. *)
Definition frames (f n : Z) : gset Z := list_to_set (range f (f + n)).

Definition free_set (s : pmm) : gset Z :=
  match bitmap s with
  | Some bm => list_to_set (filter (fun f => test_bit bm f = Some false) (range 0 (total_frames s)))
  | None => ∅
  end.

(** First fit: the lowest run of [n] free frames, if there is one. *)
Definition first_fit (F : gset Z) (n : Z) (o : option Z) : Prop :=
  match o with
  | Some f => frames f n ⊆ F /\ forall g, g < f -> ~ frames g n ⊆ F
  | None => forall g, ~ frames g n ⊆ F
  end.

Definition is_byte (b : Z) : Prop := 0 <= b < 256.

(** A bitmap that covers its frames, and a count of used frames that agrees
    with it. Without a bitmap there is nothing to allocate. *)
Definition pmm_bits (s : pmm) : Prop :=
  0 <= total_frames s <= 262144 /\
  match bitmap s with
  | Some bm => Forall is_byte bm /\ total_frames s <= 8 * Z.of_nat (length bm)
               /\ managed_bytes s = total_frames s * PAGE_SIZE
               /\ used_frames s = total_frames s - Z.of_nat (size (free_set s))
  | None => total_frames s = 0
  end.

(** Frame 0 is never free: its address is the "no page" value. *)
Definition pmm_inv (s : pmm) : Prop := pmm_bits s /\ 0 ∉ free_set s.

(** ** Alignment *)

Lemma page_mask x : 0 <= x < 2 ^ 64 -> Z.land x (u64 (Z.lnot (PAGE_SIZE - 1))) = x - x mod 4096.
Proof. apply (align_mask 12). lia. Qed.

Lemma align_down_eq x : 0 <= x < 2 ^ 64 -> align_down_page x = x / 4096 * 4096.
Proof. intros. unfold align_down_page. rewrite page_mask by done. pose proof (Z.div_mod x 4096). lia. Qed.

Lemma align_up_eq x : 0 <= x <= 2 ^ 64 - 4096 -> align_up_page x = (x + 4095) / 4096 * 4096.
Proof.
  intros. unfold align_up_page. rewrite page_mask by apply u64_bound. unfold PAGE_SIZE.
  rewrite u64_small by lia. replace (x + 4096 - 1) with (x + 4095) by lia. pose proof (Z.div_mod (x + 4095) 4096). lia.
Qed.

(** ** Bits of the bitmap *)

Lemma test_bit_spec bm f :
  0 <= f < 8 * Z.of_nat (length bm) ->
  exists byte, bm !! Z.to_nat (f / 8) = Some byte /\ test_bit bm f = Some (Z.testbit byte (f mod 8)).
Proof.
  intros Hf. destruct (lookup_lt_is_Some_2 bm (Z.to_nat (f / 8))) as [byte Hb].
  { apply Nat2Z.inj_lt. rewrite Z2Nat.id by (apply Z.div_pos; lia).
    apply Z.div_lt_upper_bound; lia. }
  exists byte; split; [done|]. unfold test_bit. rewrite Hb. cbn [mbind option_bind]. f_equal.
  pose proof (Z.mod_pos_bound f 8).
  rewrite Z.shiftl_mul_pow2, Z.mul_1_l by lia. set (k := f mod 8) in *.
  destruct (Z.testbit byte k) eqn:E.
  - apply negb_true_iff, Z.eqb_neq. intros H0.
    apply (f_equal (fun z => Z.testbit z k)) in H0.
    rewrite Z.land_spec, E, Z.pow2_bits_true, Z.bits_0 in H0 by lia. done.
  - apply negb_false_iff, Z.eqb_eq, Z.bits_inj'. intros j Hj. rewrite Z.land_spec, Z.bits_0.
    destruct (Z.eq_dec j k) as [->|]; [by rewrite E|].
    rewrite Z.pow2_bits_false by lia. apply andb_false_r.
Qed.

Lemma is_byte_testbit b : is_byte b <-> 0 <= b /\ forall j, 8 <= j -> Z.testbit b j = false.
Proof.
  split.
  - intros Hb. split; [unfold is_byte in Hb; lia|]. intros j Hj. rewrite Z.testbit_eqb by lia.
    rewrite Z.div_small; [done|]. unfold is_byte in Hb. split; [lia|].
    apply Z.lt_le_trans with (2 ^ 8); [lia|]. apply Z.pow_le_mono_r; lia.
  - intros [H0 Hb]. split; [done|]. replace b with (b mod 2 ^ 8); [apply Z.mod_pos_bound; lia|].
    apply Z.bits_inj'. intros j Hj. destruct (Z.lt_ge_cases j 8).
    + by rewrite Z.mod_pow2_bits_low by lia.
    + rewrite Z.mod_pow2_bits_high by lia. by rewrite Hb.
Qed.

Lemma set_byte_testbit b k j :
  0 <= k < 8 -> 0 <= j -> Z.testbit (Z.lor b (u8 (Z.shiftl 1 k))) j = Z.testbit b j || (k =? j).
Proof.
  intros Hk Hj. rewrite Z.lor_spec. f_equal. rewrite Z.shiftl_mul_pow2, Z.mul_1_l by lia.
  rewrite u8_small. { apply Z.pow2_bits_eqb. lia. }
  split; [lia|]. apply Z.pow_lt_mono_r; lia.
Qed.

Lemma clear_byte_testbit b k j :
  0 <= k < 8 -> 0 <= j < 8 ->
  Z.testbit (Z.land b (u8 (Z.lnot (Z.shiftl 1 k)))) j = Z.testbit b j && negb (k =? j).
Proof.
  intros Hk Hj. rewrite Z.land_spec. f_equal. unfold u8. rewrite Z.mod_pow2_bits_low by lia.
  rewrite Z.lnot_spec by lia. f_equal. rewrite Z.shiftl_mul_pow2, Z.mul_1_l by lia.
  apply Z.pow2_bits_eqb. lia.
Qed.

(** What a bitmap looks like after one of its bits became [v]. *)
Definition bit_updated (bm bm' : list Z) (f : Z) (v : bool) : Prop :=
  length bm' = length bm /\ Forall is_byte bm' /\
  forall g, 0 <= g < 8 * Z.of_nat (length bm) ->
    test_bit bm' g = if decide (g = f) then Some v else test_bit bm g.

Lemma put_byte_spec bm f byte byte' v :
  Forall is_byte bm -> 0 <= f < 8 * Z.of_nat (length bm) -> bm !! Z.to_nat (f / 8) = Some byte ->
  is_byte byte' ->
  (forall j, 0 <= j < 8 -> Z.testbit byte' j = if j =? f mod 8 then v else Z.testbit byte j) ->
  bit_updated bm (<[Z.to_nat (f / 8) := byte']> bm) f v.
Proof.
  intros Hbm Hf Hbyte Hb' Hbits. split_and!; [apply length_insert|by apply Forall_insert|].
  intros g Hg. destruct (test_bit_spec (<[Z.to_nat (f / 8) := byte']> bm) g) as (bg & Hbg & ->).
  { by rewrite length_insert. }
  pose proof (Z.mod_pos_bound g 8). pose proof (Z.div_mod g 8). pose proof (Z.div_mod f 8).
  pose proof (Z.div_pos g 8). pose proof (Z.div_pos f 8).
  assert (Z.to_nat (f / 8) < length bm)%nat by (eapply lookup_lt_Some; done).
  destruct (decide (g / 8 = f / 8)) as [E|E].
  - rewrite E, list_lookup_insert_eq in Hbg by done. injection Hbg as <-.
    rewrite Hbits by lia. case_decide; [subst; by rewrite Z.eqb_refl|].
    destruct (Z.eqb_spec (g mod 8) (f mod 8)); [lia|].
    destruct (test_bit_spec bm g) as (bg & Hbg & ->); [done|]. rewrite E in Hbg. by simplify_eq.
  - rewrite list_lookup_insert_ne in Hbg by lia. case_decide; [congruence|].
    destruct (test_bit_spec bm g) as (bg' & Hbg' & ->); [done|]. by simplify_eq.
Qed.

Lemma set_bit_spec bm f :
  Forall is_byte bm -> 0 <= f < 8 * Z.of_nat (length bm) ->
  exists bm', set_bit bm f = Some bm' /\ bit_updated bm bm' f true.
Proof.
  intros Hbm Hf. destruct (test_bit_spec bm f Hf) as (byte & Hb & _).
  assert (is_byte byte) as [H0 H8]%is_byte_testbit by (by eapply Forall_lookup_1).
  pose proof (Z.mod_pos_bound f 8 ltac:(lia)).
  unfold set_bit. rewrite Hb. cbn [mbind option_bind]. eexists; split; [done|].
  apply put_byte_spec with byte; [done..| |].
  - apply is_byte_testbit. split.
    + apply Z.lor_nonneg. split; [done|]. apply u8_bound.
    + intros j Hj. rewrite set_byte_testbit, H8 by lia. simpl. apply Z.eqb_neq. lia.
  - intros j Hj. rewrite set_byte_testbit by lia. rewrite (Z.eqb_sym j).
    destruct (f mod 8 =? j); [apply orb_true_r|apply orb_false_r].
Qed.

Lemma clear_bit_spec bm f :
  Forall is_byte bm -> 0 <= f < 8 * Z.of_nat (length bm) ->
  exists bm', clear_bit bm f = Some bm' /\ bit_updated bm bm' f false.
Proof.
  intros Hbm Hf. destruct (test_bit_spec bm f Hf) as (byte & Hb & _).
  assert (is_byte byte) as [H0 H8]%is_byte_testbit by (by eapply Forall_lookup_1).
  pose proof (Z.mod_pos_bound f 8 ltac:(lia)).
  unfold clear_bit. rewrite Hb. cbn [mbind option_bind]. eexists; split; [done|].
  apply put_byte_spec with byte; [done..| |].
  - apply is_byte_testbit. split.
    + apply Z.land_nonneg. by left.
    + intros j Hj. by rewrite Z.land_spec, H8 by lia.
  - intros j Hj. rewrite clear_byte_testbit by lia. rewrite (Z.eqb_sym j).
    destruct (f mod 8 =? j); simpl; [apply andb_false_r|apply andb_true_r].
Qed.

(** ** Frame sets *)

Lemma elem_of_frames g f n : g ∈ frames f n <-> f <= g < f + n.
Proof. unfold frames. rewrite elem_of_list_to_set, elem_of_range. lia. Qed.

Lemma frames_nil f n : n <= 0 -> frames f n = ∅.
Proof. intros. unfold frames. by rewrite range_nil by lia. Qed.

Lemma frames_snoc f n : 0 <= n -> frames f (n + 1) = frames f n ∪ {[f + n]}.
Proof. intros. apply set_eq. intros g. rewrite elem_of_union, elem_of_singleton, !elem_of_frames. lia. Qed.

Lemma size_frames f n : 0 <= n -> Z.of_nat (size (frames f n)) = n.
Proof.
  intros. unfold frames. rewrite size_list_to_set; [rewrite length_range; lia|].
  unfold range. apply NoDup_seqZ.
Qed.

Lemma elem_of_free_set s g :
  g ∈ free_set s <-> exists bm, bitmap s = Some bm /\ 0 <= g < total_frames s /\ test_bit bm g = Some false.
Proof.
  unfold free_set. destruct (bitmap s) as [bm|]; [|set_solver].
  rewrite elem_of_list_to_set, list_elem_of_filter, elem_of_range. naive_solver.
Qed.

Lemma free_set_bound s g : g ∈ free_set s -> 0 <= g < total_frames s.
Proof. rewrite elem_of_free_set. naive_solver. Qed.

(** ** Triples of the bitmap accesses *)

Definition covers (s : pmm) : Prop :=
  exists bm, bitmap s = Some bm /\ Forall is_byte bm /\ total_frames s <= 8 * Z.of_nat (length bm).

(** Only the bitmap's contents and the use count may differ. *)
Definition same_layout (s s' : pmm) : Prop :=
  total_frames s' = total_frames s /\ managed_bytes s' = managed_bytes s
  /\ detected_ram s' = detected_ram s /\ bitmap_phys s' = bitmap_phys s
  /\ bitmap_bytes s' = bitmap_bytes s /\ reserved s' = reserved s.

#[global] Instance same_layout_preorder : PreOrder same_layout.
Proof. split; [by intros s|]. unfold same_layout. intros s1 s2 s3 ??. naive_solver congruence. Qed.

Lemma wp_bitmap_test s f (Q : bool -> pmm -> Prop) :
  covers s -> 0 <= f < total_frames s ->
  Q (bool_decide (f ∉ free_set s)) s -> wp (bitmap_test f) Q s.
Proof.
  intros (bm & Hb & _ & Hlen) Hf HQ. unfold bitmap_test. wp_steps.
  destruct (test_bit_spec bm f) as (byte & _ & Ht); [lia|].
  eapply wp_lift; [rewrite Hb; exact Ht|].
  replace (Z.testbit byte (f mod 8)) with (bool_decide (f ∉ free_set s)); [exact HQ|].
  destruct (Z.testbit _ _).
  - apply bool_decide_eq_true. rewrite elem_of_free_set. intros (? & ? & _ & ?). by simplify_eq.
  - apply bool_decide_eq_false. rewrite elem_of_free_set. intros Hn. apply Hn. eauto.
Qed.

Lemma wp_bitmap_test_cases s f (Q : bool -> pmm -> Prop) :
  covers s -> 0 <= f < total_frames s ->
  (f ∉ free_set s -> Q true s) -> (f ∈ free_set s -> Q false s) -> wp (bitmap_test f) Q s.
Proof.
  intros Hc Hf Ht Hfalse. apply wp_bitmap_test; [done..|]. destruct (decide (f ∈ free_set s)).
  - rewrite bool_decide_eq_false_2 by tauto. auto.
  - rewrite bool_decide_eq_true_2 by done. auto.
Qed.

Lemma bit_updated_free s bm bm' f v :
  bitmap s = Some bm -> total_frames s <= 8 * Z.of_nat (length bm) -> 0 <= f < total_frames s ->
  bit_updated bm bm' f v ->
  free_set (set_bitmap (Some bm') s) = if v then free_set s ∖ {[f]} else free_set s ∪ {[f]}.
Proof.
  intros Hb Hlen Hf (_ & _ & Hbits). apply set_eq. intros g.
  rewrite elem_of_free_set. simpl.
  assert ((exists b, Some bm' = Some b /\ 0 <= g < total_frames s /\ test_bit b g = Some false) <->
          0 <= g < total_frames s /\ (if decide (g = f) then Some v else test_bit bm g) = Some false) as ->.
  { split; [intros (? & [= <-] & ? & H); rewrite <- Hbits by lia; done|].
    intros [? H]. exists bm'. split_and!; [done|lia|lia|]. by rewrite Hbits by lia. }
  assert (g ∈ free_set s <-> 0 <= g < total_frames s /\ test_bit bm g = Some false) as Hg.
  { rewrite elem_of_free_set. naive_solver. }
  destruct v; [rewrite elem_of_difference|rewrite elem_of_union]; rewrite elem_of_singleton, Hg;
    case_decide; subst; intuition congruence.
Qed.

Lemma wp_bitmap_set s f (Q : unit -> pmm -> Prop) :
  covers s -> 0 <= f < total_frames s ->
  (forall s', covers s' -> same_layout s s' -> used_frames s' = used_frames s ->
     free_set s' = free_set s ∖ {[f]} -> Q tt s') ->
  wp (bitmap_set f) Q s.
Proof.
  intros (bm & Hb & Hbytes & Hlen) Hf HQ. unfold bitmap_set. wp_steps.
  destruct (set_bit_spec bm f) as (bm' & Hs & Hu); [done|lia|].
  eapply wp_lift; [rewrite Hb; exact Hs|]. wp_steps. apply HQ; [|done|done|].
  - exists bm'. destruct Hu as (Hl & ? & _). split_and!; [done|done|simpl; lia].
  - by apply (bit_updated_free s bm bm' f true).
Qed.

Lemma wp_bitmap_clear s f (Q : unit -> pmm -> Prop) :
  covers s -> 0 <= f < total_frames s ->
  (forall s', covers s' -> same_layout s s' -> used_frames s' = used_frames s ->
     free_set s' = free_set s ∪ {[f]} -> Q tt s') ->
  wp (bitmap_clear f) Q s.
Proof.
  intros (bm & Hb & Hbytes & Hlen) Hf HQ. unfold bitmap_clear. wp_steps.
  destruct (clear_bit_spec bm f) as (bm' & Hs & Hu); [done|lia|].
  eapply wp_lift; [rewrite Hb; exact Hs|]. wp_steps. apply HQ; [|done|done|].
  - exists bm'. destruct Hu as (Hl & ? & _). split_and!; [done|done|simpl; lia].
  - by apply (bit_updated_free s bm bm' f false).
Qed.

(** A loop of bit updates over consecutive frames. *)
Lemma wp_set_run s f n (Q : unit -> pmm -> Prop) :
  covers s -> 0 <= f -> 0 <= n -> f + n <= total_frames s ->
  (forall s', covers s' -> same_layout s s' -> used_frames s' = used_frames s ->
     free_set s' = free_set s ∖ frames f n -> Q tt s') ->
  wp (for_each (range f (f + n)) bitmap_set) Q s.
Proof.
  intros Hc Hf Hn Hle HQ.
  apply wp_for_each with (I := fun done s' => covers s' /\ same_layout s s'
    /\ used_frames s' = used_frames s /\ free_set s' = free_set s ∖ list_to_set done).
  - split_and!; [done|done|done|set_solver].
  - intros done x todo s' Hl (Hc' & Hlay & Hu & Hfree).
    assert (f <= x < f + n) by (apply elem_of_range; rewrite Hl; set_solver).
    assert (total_frames s' = total_frames s) as Ht by apply Hlay.
    apply wp_bitmap_set; [done|lia|]. intros s'' ? ? ? Hfree'. split_and!; [done|by transitivity s'|congruence|].
    rewrite Hfree', Hfree, list_to_set_app_L. set_solver.
  - intros s' (? & ? & ? & ?). by apply HQ.
Qed.

Lemma wp_clear_run s f n (Q : unit -> pmm -> Prop) :
  covers s -> 0 <= f -> 0 <= n -> f + n <= total_frames s ->
  (forall s', covers s' -> same_layout s s' -> used_frames s' = used_frames s ->
     free_set s' = free_set s ∪ frames f n -> Q tt s') ->
  wp (for_each (range f (f + n)) bitmap_clear) Q s.
Proof.
  intros Hc Hf Hn Hle HQ.
  apply wp_for_each with (I := fun done s' => covers s' /\ same_layout s s'
    /\ used_frames s' = used_frames s /\ free_set s' = free_set s ∪ list_to_set done).
  - split_and!; [done|done|done|set_solver].
  - intros done x todo s' Hl (Hc' & Hlay & Hu & Hfree).
    assert (f <= x < f + n) by (apply elem_of_range; rewrite Hl; set_solver).
    assert (total_frames s' = total_frames s) as Ht by apply Hlay.
    apply wp_bitmap_clear; [done|lia|]. intros s'' ? ? ? Hfree'. split_and!; [done|by transitivity s'|congruence|].
    rewrite Hfree', Hfree, list_to_set_app_L. set_solver.
  - intros s' (? & ? & ? & ?). by apply HQ.
Qed.

(** ** Allocation finds the first fit *)

(** The scan's invariant before it looks at [frame]: the [run] frames below it
    are free and start right after a used one, and no fitting run ends here. *)
Definition scan_inv (F : gset Z) (count frame run run_start : Z) : Prop :=
  0 <= run < count /\ run <= frame /\ (0 < run -> run_start = frame - run)
  /\ frames (frame - run) run ⊆ F /\ frame - run - 1 ∉ F
  /\ forall g, g + count <= frame -> ~ frames g count ⊆ F.

Lemma frames_sub_elem F f n g : frames f n ⊆ F -> f <= g < f + n -> g ∈ F.
Proof. intros HF Hg. apply HF, elem_of_frames, Hg. Qed.

Lemma scan_inv_used F count frame run run_start :
  frame ∉ F -> scan_inv F count frame run run_start -> scan_inv F count (frame + 1) 0 run_start.
Proof.
  intros Hn (? & ? & _ & ? & ? & Hno). split_and!; [lia|lia|lia|lia| | |].
  - rewrite frames_nil by lia. set_solver.
  - by replace (frame + 1 - 0 - 1) with frame by lia.
  - intros g Hg. destruct (Z.eq_dec (g + count) (frame + 1)); [|apply Hno; lia].
    intros HF. apply Hn. eapply frames_sub_elem; [exact HF|lia].
Qed.

Lemma scan_inv_extend F count frame run run_start :
  frame ∈ F -> scan_inv F count frame run run_start ->
  let run_start' := if run =? 0 then frame else run_start in
  run_start' = frame - run /\ frames (frame - run) (run + 1) ⊆ F
  /\ (forall g, g < frame - run -> ~ frames g count ⊆ F)
  /\ (run + 1 <> count -> scan_inv F count (frame + 1) (run + 1) run_start').
Proof.
  intros Hf (? & ? & Hs & Hsub & Hprev & Hno). cbv zeta.
  assert ((if run =? 0 then frame else run_start) = frame - run) as ->
    by (destruct (Z.eqb_spec run 0); lia).
  assert (frames (frame - run) (run + 1) ⊆ F) as Hsub'.
  { rewrite frames_snoc by lia. replace (frame - run + run) with frame by lia. set_solver. }
  assert (forall g, g < frame - run -> ~ frames g count ⊆ F) as Hlow.
  { intros g Hg. destruct (Z.le_gt_cases (g + count) frame); [by apply Hno|].
    intros HF. apply Hprev. eapply frames_sub_elem; [exact HF|lia]. }
  split_and!; [done..|]. intros Hne.
  assert (frame + 1 - (run + 1) = frame - run) as E by lia.
  unfold scan_inv. rewrite E. split_and!; [lia|lia|lia|done|done|done|].
  intros g Hg. destruct (Z.lt_ge_cases g (frame - run)); [by apply Hlow|lia].
Qed.

Definition alloc_result (s : pmm) (count : Z) (o : option Z) (r : Z) (s' : pmm) : Prop :=
  covers s' /\ same_layout s s' /\
  match o with
  | Some f => r = u64 (f * PAGE_SIZE) /\ used_frames s' = u64 (used_frames s + count)
              /\ free_set s' = free_set s ∖ frames f count
  | None => r = PHYS_ADDR_INVALID /\ s' = s
  end.

Lemma alloc_scan_spec s count frame run run_start :
  covers s -> 0 <= frame <= total_frames s -> scan_inv (free_set s) count frame run run_start ->
  wp (alloc_scan (range frame (total_frames s)) run run_start count)
     (fun r s' => exists o, first_fit (free_set s) count o /\ alloc_result s count o r s') s.
Proof.
  intros Hc. remember (Z.to_nat (total_frames s - frame)) as k eqn:Hk.
  revert frame run run_start Hk. induction k as [|k IH]; intros frame run run_start Hk Hf Hi.
  { rewrite range_nil by lia. simpl. wp_steps. exists None. split; [|done].
    destruct Hi as (? & ? & _ & _ & _ & Hno). intros g HF. apply (Hno g); [|done].
    assert (g + count - 1 ∈ free_set s) as Hb by (eapply frames_sub_elem; [done|lia]).
    apply free_set_bound in Hb. lia. }
  rewrite range_cons by lia. cbn [alloc_scan]. wp_step.
  apply wp_bitmap_test_cases; [done|lia|intros Hout|intros Hin]; cbn [negb].
  - apply IH; [lia|lia|]. by eapply scan_inv_used.
  - destruct (scan_inv_extend _ _ _ _ _ Hin Hi) as (Hs & Hsub & Hlow & Hnext).
    destruct (Z.eqb_spec (run + 1) count) as [E|E].
    + rewrite Hs. assert (run <= frame /\ 0 <= run) by (destruct Hi; lia).
      wp_step. apply wp_set_run; [done|lia|lia|lia|]. intros s1 Hc1 Hl1 Hu1 Hf1. wp_steps.
      exists (Some (frame - run)). split; [split; [by rewrite <- E|done]|].
      split_and!; [done| |done|simpl; by rewrite Hu1|exact Hf1]. done.
    + apply IH; [lia|lia|auto].
Qed.

(** ** The operations against the abstract view *)

Lemma pmm_bits_covers s : pmm_bits s -> bitmap s <> None -> covers s.
Proof. intros [_ H] Hb. unfold covers. destruct (bitmap s) as [bm|]; [naive_solver|done]. Qed.

Lemma free_set_size s : pmm_bits s -> Z.of_nat (size (free_set s)) <= total_frames s.
Proof.
  intros [Ht _]. rewrite <- (size_frames 0 (total_frames s)) by lia. apply inj_le.
  apply subseteq_size. intros g Hg%free_set_bound. apply elem_of_frames. lia.
Qed.

Lemma first_fit_none_large F n total :
  (forall g, g ∈ F -> 0 <= g < total) -> total < n -> 0 < n -> first_fit F n None.
Proof.
  intros HF Hn Hn0 g Hg. pose proof (HF g (frames_sub_elem _ _ _ g Hg ltac:(lia))).
  pose proof (HF (g + n - 1) (frames_sub_elem _ _ _ (g + n - 1) Hg ltac:(lia))). lia.
Qed.

Lemma alloc_count s s' f n :
  pmm_bits s -> bitmap s <> None -> 0 < n -> frames f n ⊆ free_set s -> covers s' -> same_layout s s' ->
  used_frames s' = u64 (used_frames s + n) -> free_set s' = free_set s ∖ frames f n -> pmm_bits s'.
Proof.
  intros Hb Hbm Hn Hsub (bm' & Hb' & ? & Hlen') (Ht & Hm & _) Hu Hfree.
  pose proof (free_set_size s Hb). destruct Hb as [Hrange Hb]. unfold pmm_bits. rewrite Hb', Ht, Hm.
  destruct (bitmap s) as [bm|]; [|done]. destruct Hb as (_ & _ & ? & Huse).
  split; [done|]. split_and!; [done|by rewrite <- Ht|done|].
  assert (Z.of_nat (size (free_set s')) = Z.of_nat (size (free_set s)) - n) as ->.
  { rewrite Hfree, size_difference by done. apply subseteq_size in Hsub.
    pose proof (size_frames f n ltac:(lia)). lia. }
  rewrite Hu, u64_small; [lia|]. apply subseteq_size in Hsub. pose proof (size_frames f n ltac:(lia)). lia.
Qed.

(** What [pmm_alloc_pages] promises: the first fitting run leaves the free
    set and its address is returned, or nothing fits and nothing changes. *)
Definition alloc_post (s : pmm) (count : Z) (r : Z) (s' : pmm) : Prop :=
  pmm_inv s' /\ same_layout s s' /\
  exists o, first_fit (free_set s) count o /\
    match o with
    | Some f => 0 < f /\ r = f * PAGE_SIZE /\ free_set s' = free_set s ∖ frames f count
    | None => r = PHYS_ADDR_INVALID /\ s' = s
    end.

Lemma alloc_pages_ok s count :
  pmm_inv s -> 0 < count -> wp (pmm_alloc_pages count) (alloc_post s count) s.
Proof.
  intros [Hb H0] Hn. unfold pmm_alloc_pages. wp_steps.
  rewrite (proj2 (Z.eqb_neq count 0)) by lia. cbn [orb].
  assert (first_fit (free_set s) count None -> alloc_post s count PHYS_ADDR_INVALID s) as Hfail.
  { intros Hff. split_and!; [done|done|]. by exists None. }
  destruct (bitmap s) as [bm|] eqn:Ebm; cbn [orb].
  2: { wp_steps. apply Hfail. intros g Hg. eapply frames_sub_elem with (g := g) in Hg; [|lia].
       apply free_set_bound in Hg. destruct Hb as [_ Hb]. rewrite Ebm in Hb. lia. }
  destruct (Z.eqb_spec (total_frames s) 0) as [E|E].
  { wp_steps. apply Hfail. apply (first_fit_none_large _ _ 0); [|lia|lia].
    intros g Hg%free_set_bound. lia. }
  destruct (Z.ltb_spec (total_frames s) count).
  { wp_steps. apply Hfail. apply (first_fit_none_large _ _ (total_frames s)); [|lia|lia].
    apply free_set_bound. }
  assert (bitmap s <> None) as Hnb by congruence.
  eapply wp_mono; [apply alloc_scan_spec|].
  - by apply pmm_bits_covers.
  - destruct Hb; lia.
  - split_and!; [lia|lia|lia|lia| | |].
    + rewrite frames_nil by lia. set_solver.
    + intros Hg%free_set_bound. lia.
    + intros g Hg HF. eapply frames_sub_elem with (g := g) in HF; [|lia]. apply free_set_bound in HF. lia.
  - intros r s' ([f|] & Hff & Hc & Hl & Hr); [|destruct Hr as [-> ->]; by apply Hfail].
    destruct Hr as (-> & Hu & Hfree). destruct Hff as [Hsub Hlow].
    pose proof (frames_sub_elem _ _ _ f Hsub ltac:(lia)) as Hf.
    pose proof (free_set_bound _ _ Hf). assert (f <> 0) by congruence.
    split_and!; [split; [|set_solver]|done|exists (Some f); split_and!; try done].
    + by eapply alloc_count.
    + lia.
    + apply u64_small. destruct Hb. unfold PAGE_SIZE. lia.
Qed.

Lemma all_used_spec s fs :
  covers s -> Forall (fun f => 0 <= f < total_frames s) fs ->
  wp (all_used fs) (fun b s' => s' = s /\ b = bool_decide (Forall (fun f => f ∉ free_set s) fs)) s.
Proof.
  intros Hc. induction fs as [|f fs IH]; intros Hb; cbn [all_used]; [by wp_steps|].
  apply Forall_cons in Hb as [Hf Hb]. wp_step.
  apply wp_bitmap_test_cases; [done..| |]; intros Hin; cbn [negb].
  - eapply wp_mono; [by apply IH|]. intros b s' [-> ->]. split; [done|]. apply bool_decide_ext.
    rewrite Forall_cons. tauto.
  - wp_steps. split; [done|]. symmetry. apply bool_decide_eq_false. rewrite Forall_cons. tauto.
Qed.

(** The runs that may be released: page-aligned, inside the managed frames
    and wholly in use. *)
Definition releasable (s : pmm) (page count : Z) : Prop :=
  0 < count /\ page mod PAGE_SIZE = 0 /\ page / PAGE_SIZE + count <= total_frames s
  /\ frames (page / PAGE_SIZE) count ## free_set s.

Lemma free_count s s' f n :
  pmm_bits s -> bitmap s <> None -> 0 < n -> 0 <= f -> f + n <= total_frames s ->
  frames f n ## free_set s -> covers s' -> same_layout s s' ->
  used_frames s' = u64 (used_frames s - n) -> free_set s' = free_set s ∪ frames f n -> pmm_bits s'.
Proof.
  intros Hb Hbm Hn Hf Hle Hdis (bm' & Hb' & ? & Hlen') (Ht & Hm & _) Hu Hfree.
  assert (Z.of_nat (size (free_set s) + size (frames f n)) <= total_frames s).
  { rewrite <- size_union by done. rewrite <- (size_frames 0 (total_frames s)) by (destruct Hb; lia).
    apply inj_le, subseteq_size. intros g. rewrite elem_of_union, !elem_of_frames.
    intros [Hg%free_set_bound|Hg]; lia. }
  pose proof (size_frames f n ltac:(lia)).
  destruct Hb as [Hrange Hb]. unfold pmm_bits. rewrite Hb', Ht, Hm.
  destruct (bitmap s) as [bm|]; [|done]. destruct Hb as (_ & _ & ? & Huse).
  split; [done|]. split_and!; [done|by rewrite <- Ht|done|].
  rewrite Hfree, size_union by done. rewrite Hu, u64_small; lia.
Qed.

Definition release_post (s : pmm) (page count : Z) (s' : pmm) : Prop :=
  pmm_inv s' /\ same_layout s s' /\
  (releasable s page count -> free_set s' = free_set s ∪ frames (page / PAGE_SIZE) count) /\
  (~ releasable s page count -> s' = s).

Lemma free_pages_ok s page count :
  pmm_inv s -> 0 < page -> 0 <= count < 2 ^ 64 ->
  wp (pmm_free_pages page count) (fun _ => release_post s page count) s.
Proof.
  intros [Hb H0] Hp Hn. unfold pmm_free_pages. wp_steps.
  assert (~ releasable s page count -> release_post s page count s) as Hsame by (intros; split_and!; done).
  assert (0 <= total_frames s <= 262144) by apply Hb. unfold PAGE_SIZE in *.
  destruct (Z.eqb_spec count 0); cbn [orb].
  { wp_steps. apply Hsame. intros [? _]. lia. }
  pose proof (Z.div_pos page 4096 ltac:(lia) ltac:(lia)).
  destruct (bitmap s) as [bm|] eqn:Ebm; cbn [orb].
  2: { wp_steps. apply Hsame. intros (_ & _ & Ht & _). destruct Hb as [_ Hb]. rewrite Ebm in Hb.
       unfold PAGE_SIZE in *. lia. }
  assert (managed_bytes s = total_frames s * 4096) as Hm by (destruct Hb as [_ Hb]; rewrite Ebm in Hb; apply Hb).
  assert (page / 4096 * 4096 <= page < page / 4096 * 4096 + 4096) by
    (pose proof (Z.div_mod page 4096); pose proof (Z.mod_pos_bound page 4096); lia).
  unfold frame_in_range, frame_index, PAGE_SIZE.
  destruct (Z.ltb_spec page (managed_bytes s)); destruct (Z.eqb_spec (page mod 4096) 0); cbn [andb negb].
  2-4: wp_steps; apply Hsame; intros (? & ? & ? & _); unfold PAGE_SIZE in *; lia.
  destruct (Z.ltb_spec (total_frames s) count); cbn [orb].
  { wp_steps. apply Hsame. intros (_ & _ & ? & _). unfold PAGE_SIZE in *. lia. }
  rewrite u64_small by lia. destruct (Z.ltb_spec (total_frames s) (page / 4096 + count)).
  { wp_steps. apply Hsame. intros (_ & _ & ? & _). unfold PAGE_SIZE in *. lia. }
  assert (covers s) as Hc by (apply pmm_bits_covers; [done|congruence]).
  wp_step. eapply wp_mono; [apply all_used_spec; [done|]|].
  { apply Forall_forall. intros g Hg%elem_of_range. lia. }
  intros b s' [-> ->]. case_bool_decide as Hall; cbn [negb].
  2: { wp_steps. apply Hsame. intros (_ & _ & _ & Hd). apply Hall, Forall_forall. intros g Hg Hg'.
       apply (Hd g); [|done]. apply elem_of_frames, elem_of_range, Hg. }
  rewrite Forall_forall in Hall.
  assert (frames (page / 4096) count ## free_set s) as Hd.
  { intros g Hg. apply Hall, elem_of_range, elem_of_frames, Hg. }
  wp_step. apply wp_clear_run; [done|lia|lia|lia|]. intros s1 Hc1 Hl1 Hu1 Hf1. wp_steps.
  assert (releasable s page count) as Hrel by (unfold releasable, PAGE_SIZE; split_and!; [lia|done|lia|done]).
  split_and!; [split|done|done|done].
  - eapply free_count; [done|congruence|..]; [| | |exact Hd|exact Hc1|exact Hl1|simpl; by rewrite Hu1|exact Hf1]; lia.
  - change (0 ∉ free_set s1). rewrite Hf1, elem_of_union, elem_of_frames. pose proof (Z.div_mod page 4096).
    intros [|]; [done|lia].
Qed.

(** ** Marking ranges *)

(** Page [f] lies wholly inside, or touches, the byte range [start, end_). *)
Definition within (f start end_ : Z) : Prop := start <= f * PAGE_SIZE /\ (f + 1) * PAGE_SIZE <= end_.
Definition touches (f start end_ : Z) : Prop :=
  start < end_ /\ f * PAGE_SIZE < end_ /\ start < (f + 1) * PAGE_SIZE.

(** A well-formed bitmap with its count. *)
Definition counted (s : pmm) : Prop := pmm_bits s /\ bitmap s <> None.

Lemma counted_covers s : counted s -> covers s.
Proof. intros [? ?]. by apply pmm_bits_covers. Qed.

Lemma covers_bitmap s : covers s -> bitmap s <> None.
Proof. intros (bm & -> & _). done. Qed.

Lemma set_used_free u s : free_set (set_used u s) = free_set s.
Proof. done. Qed.

Lemma frames_one f : frames f 1 = {[f]}.
Proof. apply set_eq. intros g. rewrite elem_of_frames, elem_of_singleton. lia. Qed.

Lemma wp_mark_used s addr :
  counted s -> 0 <= addr / PAGE_SIZE < total_frames s ->
  wp (mark_used addr) (fun _ s' => counted s' /\ same_layout s s'
    /\ free_set s' = free_set s ∖ {[addr / PAGE_SIZE]}) s.
Proof.
  intros [Hb Hbm] Hf. unfold mark_used, frame_index. set (f := addr / PAGE_SIZE) in *.
  assert (covers s) as Hc by by apply pmm_bits_covers.
  wp_step. apply wp_bitmap_test_cases; [done..|intros Hin|intros Hin]; cbn [negb when].
  - wp_steps. split_and!; [done..|set_solver].
  - wp_step. apply wp_bitmap_set; [done..|]. intros s1 Hc1 Hl1 Hu1 Hf1. wp_steps.
    split_and!; [split|done|done].
    + eapply (alloc_count s _ f 1); [done|done|lia|rewrite frames_one; set_solver|done|done| |].
      * simpl. by rewrite Hu1.
      * by rewrite frames_one.
    + simpl. by apply covers_bitmap.
Qed.

Lemma wp_mark_free s addr :
  counted s -> 0 <= addr / PAGE_SIZE < total_frames s ->
  wp (mark_free addr) (fun _ s' => counted s' /\ same_layout s s'
    /\ free_set s' = free_set s ∪ {[addr / PAGE_SIZE]}) s.
Proof.
  intros [Hb Hbm] Hf. unfold mark_free, frame_index. set (f := addr / PAGE_SIZE) in *.
  assert (covers s) as Hc by by apply pmm_bits_covers.
  wp_step. apply wp_bitmap_test_cases; [done..|intros Hin|intros Hin]; cbn [when].
  2: { wp_steps. split_and!; [done..|set_solver]. }
  wp_step. apply wp_bitmap_clear; [done..|]. intros s1 Hc1 Hl1 Hu1 Hf1. wp_steps.
  assert (frames f 1 ## free_set s) as Hd by (rewrite frames_one; set_solver).
  assert (0 < used_frames s <= 262144) as Hused.
  { assert (size (free_set s ∪ frames f 1) <= size (frames 0 (total_frames s)))%nat as Hsz.
    { apply subseteq_size. intros g. rewrite frames_one, elem_of_union, elem_of_singleton, elem_of_frames.
      intros [Hg%free_set_bound| ->]; lia. }
    rewrite size_union in Hsz by done. pose proof (size_frames f 1 ltac:(lia)).
    pose proof (size_frames 0 (total_frames s) ltac:(lia)).
    destruct Hb as [? Hb]. destruct (bitmap s); [|done]. destruct Hb as (_ & _ & _ & Hu). lia. }
  rewrite Hu1, (proj2 (Z.ltb_lt _ _)) by lia. split_and!; [split|done|done].
  - eapply (free_count s _ f 1); [done|done|lia|lia|lia|done|done|done| |].
    + simpl. by rewrite u64_small by lia.
    + by rewrite frames_one.
  - simpl. by apply covers_bitmap.
Qed.

(** A marking loop over whole pages. *)
Lemma page_steps_frames lo hi done x todo :
  page_steps (lo * PAGE_SIZE) hi = done ++ x :: todo ->
  lo <= x / PAGE_SIZE /\ x / PAGE_SIZE * PAGE_SIZE < hi.
Proof.
  intros E. assert (x ∈ page_steps (lo * PAGE_SIZE) hi) as Hx by (rewrite E; set_solver).
  unfold page_steps in Hx. apply list_elem_of_fmap in Hx as (i & -> & Hi%elem_of_range).
  unfold PAGE_SIZE in *. lia_div.
Qed.

Lemma page_steps_set lo hi f :
  f ∈ ((fun x => x / PAGE_SIZE) <$> page_steps (lo * PAGE_SIZE) hi) <-> lo <= f /\ f * PAGE_SIZE < hi.
Proof.
  unfold page_steps. rewrite list_elem_of_fmap. setoid_rewrite list_elem_of_fmap.
  setoid_rewrite elem_of_range. unfold PAGE_SIZE. split.
  - intros (x & -> & i & -> & Hi). lia_div.
  - intros Hf. exists (f * 4096). split; [lia_div|]. exists (f - lo). lia_div.
Qed.

Lemma wp_mark_loop_used s lo hi :
  counted s -> 0 <= lo -> hi <= total_frames s * PAGE_SIZE ->
  wp (for_each (page_steps (lo * PAGE_SIZE) hi) mark_used) (fun _ s' => counted s' /\ same_layout s s'
    /\ forall f, f ∈ free_set s' <-> f ∈ free_set s /\ ~ (lo <= f /\ f * PAGE_SIZE < hi)) s.
Proof.
  intros Hc Hlo Hhi. apply wp_for_each with (I := fun done s' => counted s' /\ same_layout s s' /\
    free_set s' = free_set s ∖ list_to_set ((fun x => x / PAGE_SIZE) <$> done)).
  - split_and!; [done|done|set_solver].
  - intros done x todo s' E (Hc' & Hl' & Hf'). destruct (page_steps_frames _ _ _ _ _ E).
    eapply wp_mono; [apply wp_mark_used; [done|]|].
    { destruct Hl' as [-> _]. unfold PAGE_SIZE in *. lia. }
    intros [] s'' (Hc'' & Hl'' & Hf''). split_and!; [done|by transitivity s'|].
    rewrite Hf'', Hf', fmap_app, list_to_set_app_L. set_solver.
  - intros s' (Hc' & Hl' & Hf'). split_and!; [done..|]. intros f.
    by rewrite Hf', elem_of_difference, elem_of_list_to_set, page_steps_set.
Qed.

Lemma wp_mark_loop_free s lo hi :
  counted s -> 0 <= lo -> hi <= total_frames s * PAGE_SIZE ->
  wp (for_each (page_steps (lo * PAGE_SIZE) hi) mark_free) (fun _ s' => counted s' /\ same_layout s s'
    /\ forall f, f ∈ free_set s' <-> f ∈ free_set s \/ (lo <= f /\ f * PAGE_SIZE < hi)) s.
Proof.
  intros Hc Hlo Hhi. apply wp_for_each with (I := fun done s' => counted s' /\ same_layout s s' /\
    free_set s' = free_set s ∪ list_to_set ((fun x => x / PAGE_SIZE) <$> done)).
  - split_and!; [done|done|set_solver].
  - intros done x todo s' E (Hc' & Hl' & Hf'). destruct (page_steps_frames _ _ _ _ _ E).
    eapply wp_mono; [apply wp_mark_free; [done|]|].
    { destruct Hl' as [-> _]. unfold PAGE_SIZE in *. lia. }
    intros [] s'' (Hc'' & Hl'' & Hf''). split_and!; [done|by transitivity s'|].
    rewrite Hf'', Hf', fmap_app, list_to_set_app_L. set_solver.
  - intros s' (Hc' & Hl' & Hf'). split_and!; [done..|]. intros f.
    by rewrite Hf', elem_of_union, elem_of_list_to_set, page_steps_set.
Qed.

Lemma counted_managed s : counted s -> managed_bytes s = total_frames s * PAGE_SIZE.
Proof. intros [[_ Hb] Hbm]. destruct (bitmap s); [apply Hb|done]. Qed.

Lemma wp_mark_used_range s start end_ :
  counted s -> 0 <= start -> end_ <= 2 ^ 63 ->
  wp (pmm_mark_used_range start end_) (fun _ s' => counted s' /\ same_layout s s'
    /\ forall f, f ∈ free_set s' <-> f ∈ free_set s /\ ~ touches f start end_) s.
Proof.
  intros Hc Hs He. pose proof (counted_managed s Hc) as Hm.
  unfold pmm_mark_used_range. destruct (Z.leb_spec end_ start).
  { wp_steps. split_and!; [done..|]. intros f. unfold touches. split; [intros; split; [done|lia]|tauto]. }
  rewrite align_down_eq, align_up_eq by lia. wp_step. wp_step. rewrite Hm.
  assert (forall f, f ∈ free_set s -> 0 <= f < total_frames s) as Hbd by apply free_set_bound.
  unfold touches, PAGE_SIZE in *. destruct (Z.leb_spec (total_frames s * 4096) (start / 4096 * 4096)).
  { wp_steps. split_and!; [done..|]. intros f. split; [|tauto]. intros Hf. split; [done|].
    specialize (Hbd f Hf). lia_div. }
  match goal with |- context [page_steps _ ?h] => set (hi := h) end.
  eapply wp_mono; [apply (wp_mark_loop_used s (start / 4096) hi); [done| |]|].
  { apply Z.div_pos; lia. }
  { unfold hi, PAGE_SIZE. case_match eqn:E; [done|]. apply Z.ltb_ge in E. lia. }
  intros [] s' (Hc' & Hl' & Hf'). split_and!; [done..|]. intros f. rewrite Hf'.
  unfold hi, PAGE_SIZE. destruct (Z.ltb_spec (total_frames s * 4096) ((end_ + 4095) / 4096 * 4096));
    (split; [intros [Hf Hn]; specialize (Hbd f Hf); split; [done|lia_div]
            |intros [Hf Hn]; specialize (Hbd f Hf); split; [done|lia_div]]).
Qed.

Lemma wp_mark_free_range s start end_ :
  counted s -> 0 <= start -> end_ <= 2 ^ 63 ->
  wp (pmm_mark_free_range start end_) (fun _ s' => counted s' /\ same_layout s s'
    /\ forall f, f ∈ free_set s' <-> f ∈ free_set s \/ (0 <= f < total_frames s /\ within f start end_)) s.
Proof.
  intros Hc Hs He. pose proof (counted_managed s Hc) as Hm.
  unfold pmm_mark_free_range. destruct (Z.leb_spec end_ start).
  { wp_steps. split_and!; [done..|]. intros f. unfold within, PAGE_SIZE. split; [tauto|]. intros [|]; [done|lia]. }
  rewrite align_down_eq, align_up_eq by lia. wp_step. wp_step. rewrite Hm.
  unfold within, PAGE_SIZE in *. destruct (Z.leb_spec (total_frames s * 4096) ((start + 4095) / 4096 * 4096)).
  { wp_steps. split_and!; [done..|]. intros f. split; [tauto|]. intros [|]; [done|lia_div]. }
  match goal with |- context [page_steps _ ?h] => set (hi := h) end.
  eapply wp_mono; [apply (wp_mark_loop_free s ((start + 4095) / 4096) hi); [done| |]|].
  { apply Z.div_pos; lia. }
  { unfold hi, PAGE_SIZE. case_match eqn:E; [done|]. apply Z.ltb_ge in E. lia. }
  intros [] s' (Hc' & Hl' & Hf'). split_and!; [done..|]. intros f. rewrite Hf'.
  unfold hi, PAGE_SIZE. apply or_iff_compat_l.
  destruct (Z.ltb_spec (total_frames s * 4096) (end_ / 4096 * 4096)); lia_div.
Qed.

(** ** Initialisation *)

Definition sane_entry (e : memory_map_entry) : Prop :=
  0 <= me_address e /\ 0 <= me_length e /\ me_address e + me_length e <= 2 ^ 62.
Definition sane_range (r : phys_range) : Prop := 0 <= r_start r /\ r_end r <= 2 ^ 62.

(** [start, start+len) avoids every range of [rs]. *)
Definition clear_of (rs : list phys_range) (start len : Z) : Prop :=
  Forall (fun r => ~ (start < r_end r /\ r_start r < start + len)) rs.

Definition ranges_above (rs : list phys_range) (start : Z) : nat :=
  length (filter (fun r => start < r_end r) rs).

Lemma ranges_above_mono rs start start' :
  start <= start' -> (ranges_above rs start' <= ranges_above rs start)%nat.
Proof.
  intros Hle. unfold ranges_above. induction rs as [|r rs IH]; [done|].
  rewrite !filter_cons. repeat case_decide; simpl; lia.
Qed.

Lemma ranges_above_skip rs start x :
  x ∈ rs -> start < r_end x -> (ranges_above rs (r_end x) < ranges_above rs start)%nat.
Proof.
  intros Hx Hs. induction rs as [|r rs IH]; [set_solver|].
  pose proof (ranges_above_mono rs start (r_end x) ltac:(lia)) as Hm.
  unfold ranges_above in *. rewrite !filter_cons. apply elem_of_cons in Hx as [->|Hx].
  - repeat case_decide; simpl; lia.
  - specialize (IH Hx). repeat case_decide; simpl; lia.
Qed.

Lemma ranges_above_length rs start : (ranges_above rs start <= length rs)%nat.
Proof. apply length_filter. Qed.

(** The search never runs out of steps: every restart skips a range for good. *)
Lemma home_search_spec rs len end_ fuel r start :
  Forall (fun x => sane_range x /\ r_end x mod PAGE_SIZE = 0) rs -> 0 < len <= 2 ^ 62 ->
  0 <= start <= 2 ^ 62 -> start mod PAGE_SIZE = 0 ->
  (r <= length rs)%nat -> clear_of (take r rs) start len ->
  (ranges_above rs start * S (length rs) + (length rs - r) < fuel)%nat ->
  exists h, home_search fuel rs r start len end_ = Some h /\ start <= h <= 2 ^ 62
    /\ h mod PAGE_SIZE = 0 /\ (h + len <= end_ -> clear_of rs h len).
Proof.
  intros Hrs Hlen. revert r start.
  induction fuel as [|fuel IH]; intros r start Hst Hal Hr Hclear Hfuel; [lia|]. cbn [home_search].
  rewrite u64_small by lia.
  destruct (Nat.ltb_spec r (length rs)) as [Hlt|Hge]; cbn [andb].
  2: { exists start. split_and!; [done|lia|lia|done|]. intros _. by rewrite take_ge in Hclear by lia. }
  destruct (Z.leb_spec (start + len) end_); [|exists start; split_and!; [done|lia|lia|done|lia]].
  destruct (lookup_lt_is_Some_2 rs r Hlt) as [x Hx]. rewrite Hx. cbn [mbind option_bind].
  assert (x ∈ rs) as Hin by by eapply list_elem_of_lookup_2.
  rewrite Forall_forall in Hrs. destruct (Hrs x Hin) as [[? ?] Halx].
  destruct (Z.ltb_spec start (r_end x)); [destruct (Z.ltb_spec (r_start x) (start + len))|]; cbn [andb].
  { pose proof (ranges_above_skip rs start x Hin ltac:(done)).
    destruct (IH 0%nat (r_end x)) as (h & -> & ? & ? & ?); [lia|done|lia|constructor|nia|].
    exists h. split_and!; [done|lia|lia|done..]. }
  all: apply IH; [lia|done|lia| |lia]; rewrite (take_S_r _ _ x) by done; apply Forall_app;
    (split; [done|]); constructor; [lia|constructor].
Qed.

Definition good_home (map : list memory_map_entry) (rs : list phys_range) (managed len h : Z) : Prop :=
  0 < h /\ h mod PAGE_SIZE = 0 /\ h + len <= managed /\ clear_of rs h len
  /\ exists e, e ∈ map /\ available e = true /\ me_address e <= h /\ h + len <= me_address e + me_length e.

Lemma find_bitmap_home_spec map rs managed len :
  Forall sane_entry map -> Forall (fun x => sane_range x /\ r_end x mod PAGE_SIZE = 0) rs ->
  0 < len <= 2 ^ 62 ->
  exists h, find_bitmap_home map rs managed len = Some h
    /\ (h <> PHYS_ADDR_INVALID -> good_home map rs managed len h).
Proof.
  intros Hmap Hrs Hlen. induction Hmap as [|e map He Hmap IH]; [by exists 0|]. cbn [find_bitmap_home].
  destruct IH as (h' & Hh' & Hgood').
  assert (h' <> PHYS_ADDR_INVALID -> good_home (e :: map) rs managed len h') as Hrec.
  { intros Hne. destruct (Hgood' Hne) as (? & ? & ? & ? & e' & ? & ?). split_and!; [done..|].
    exists e'. split; [set_solver|done]. }
  destruct (available e) eqn:Eav; cbn [negb]; [|by exists h'].
  destruct He as (Ha & Hl & Hsum). rewrite (u64_small (me_address e + me_length e)) by lia.
  rewrite align_down_eq, align_up_eq by lia.
  match goal with |- context [home_search _ _ _ _ _ ?x] => set (end_ := x) end.
  assert (end_ <= me_address e + me_length e /\ end_ <= managed) as [Hend Hman].
  { unfold end_. destruct (Z.ltb_spec managed ((me_address e + me_length e) / 4096 * 4096)); lia_div. }
  destruct (home_search_spec rs len end_ (home_fuel rs) 0 ((me_address e + 4095) / 4096 * 4096))
    as (h & -> & Hh & Hal & Hclear).
  - done.
  - done.
  - lia_div.
  - by apply Z.mod_mul.
  - lia.
  - constructor.
  - unfold home_fuel. pose proof (ranges_above_length rs ((me_address e + 4095) / 4096 * 4096)). nia.
  - cbn [mbind option_bind]. rewrite u64_small by lia_div.
    destruct (Z.leb_spec (h + len) end_) as [Hle|Hle]; [|by exists h'].
    exists h. split; [done|]. unfold PHYS_ADDR_INVALID. intros Hne.
    split_and!; [lia_div|done|lia|auto|]. exists e. split_and!; [set_solver|done|lia_div|lia].
Qed.

(** What must never be handed out, as boot describes it. *)
Definition protected (info : multiboot_info) : list phys_range :=
  MkRange 0 1048576
  :: MkRange (virt_to_phys (kernel_start info)) (virt_to_phys (kernel_end info))
  :: MkRange (multiboot_info_addr info) (u64 (multiboot_info_addr info + multiboot_info_size info))
  :: modules info.

Definition sane_info (info : multiboot_info) : Prop :=
  Forall sane_entry (memory_map info) /\ Forall sane_range (protected info)
  /\ (length (modules info) <= 8)%nat.

Definition add_range (rs : list phys_range) (r : phys_range) : list phys_range :=
  add_reserved (r_start r) (r_end r) rs.

Lemma collect_reserved_foldl info : collect_reserved info = foldl add_range [] (protected info).
Proof. done. Qed.

Definition aligned_range (r : phys_range) : Prop :=
  sane_range r /\ r_start r < r_end r /\ r_end r mod PAGE_SIZE = 0.

(** The reserved array covers exactly the pages the protected ranges touch. *)
Lemma add_ranges_spec ps rs :
  Forall sane_range ps -> (length rs + length ps <= 11)%nat -> Forall aligned_range rs ->
  let rs' := foldl add_range rs ps in
  Forall aligned_range rs' /\
  forall f, Exists (fun r => touches f (r_start r) (r_end r)) rs' <->
            Exists (fun r => touches f (r_start r) (r_end r)) (rs ++ ps).
Proof.
  revert rs. induction ps as [|p ps IH]; intros rs Hps Hlen Hrs; cbv zeta.
  { simpl. split; [done|]. intros f. by rewrite app_nil_r. }
  apply Forall_cons in Hps as [[H0 He] Hps]. simpl in Hlen. cbn [foldl].
  assert (length (add_range rs p) <= S (length rs))%nat as Hlen'.
  { unfold add_range, add_reserved. case_match; [lia|]. rewrite length_app. simpl. lia. }
  assert (Forall aligned_range (add_range rs p) /\
          forall f, Exists (fun r => touches f (r_start r) (r_end r)) (add_range rs p) <->
            Exists (fun r => touches f (r_start r) (r_end r)) rs \/ touches f (r_start p) (r_end p)) as [Ha Ht].
  { unfold add_range, add_reserved, PMM_MAX_RESERVED, MULTIBOOT_MAX_MODULES.
    rewrite (proj2 (Z.eqb_neq _ _)) by lia. rewrite orb_false_r.
    destruct (Z.leb_spec (r_end p) (r_start p)).
    { split; [done|]. intros f. unfold touches. split; [tauto|]. intros [|]; [done|lia]. }
    rewrite align_down_eq, align_up_eq by lia. split.
    - apply Forall_app. split; [done|]. constructor; [|constructor]. unfold aligned_range, sane_range, PAGE_SIZE; simpl.
      split_and!; [lia_div..|]. by apply Z.mod_mul.
    - intros f. rewrite Exists_app, Exists_cons, Exists_nil. unfold touches, PAGE_SIZE; simpl.
      apply or_iff_compat_l. split; [intros [|]; [lia_div|done]|intros; left; lia_div]. }
  destruct (IH (add_range rs p)) as [Hal Htt]; [done|lia|done|].
  split; [exact Hal|]. intros f. rewrite Htt, !Exists_app, Ht, Exists_cons. tauto.
Qed.

Lemma managed_limit_bound info :
  exists t, compute_managed_limit info = t * PAGE_SIZE /\ 0 <= t <= 262144.
Proof.
  unfold compute_managed_limit.
  assert (forall map limit, 0 <= limit <= PMM_DIRECT_MAP_END ->
            0 <= foldl managed_limit_step limit map <= PMM_DIRECT_MAP_END) as H.
  { induction map as [|e map IH]; intros limit Hl; [done|]. cbn [foldl]. apply IH.
    unfold managed_limit_step. pose proof (u64_bound (me_address e + me_length e)).
    unfold PMM_DIRECT_MAP_END in *. repeat (case_match; try lia). }
  specialize (H (memory_map info) 0 ltac:(done)). unfold PMM_DIRECT_MAP_END, PAGE_SIZE in *.
  rewrite align_down_eq by lia. eexists. split; [done|]. lia_div.
Qed.

Lemma free_available s map :
  Forall sane_entry map -> counted s -> free_set s = ∅ ->
  wp (for_each map free_entry) (fun _ s' => counted s' /\ same_layout s s' /\
    forall f, f ∈ free_set s' <-> 0 <= f < total_frames s /\
      Exists (fun e => available e = true /\ within f (me_address e) (me_address e + me_length e)) map) s.
Proof.
  intros Hmap Hc Hempty. apply wp_for_each with (I := fun done s' => counted s' /\ same_layout s s' /\
    forall f, f ∈ free_set s' <-> 0 <= f < total_frames s /\
      Exists (fun e => available e = true /\ within f (me_address e) (me_address e + me_length e)) done).
  - split_and!; [done|done|]. intros f. rewrite Hempty, Exists_nil. set_solver.
  - intros done e todo s' -> (Hc' & Hl' & Hf').
    apply Forall_app in Hmap as [_ [(? & ? & ?) _]%Forall_cons]. unfold free_entry.
    destruct (available e) eqn:Eav; cbn [negb].
    + rewrite u64_small by lia. eapply wp_mono; [apply wp_mark_free_range; [done|lia|lia]|].
      intros [] s'' (Hc'' & Hl'' & Hf''). split_and!; [done|by transitivity s'|].
      intros f. destruct Hl' as [Ht _]. rewrite Hf'', Hf', Ht, Exists_app, Exists_cons, Exists_nil, Eav. tauto.
    + wp_steps. split_and!; [done..|]. intros f. rewrite Hf', Exists_app, Exists_cons, Exists_nil, Eav.
      naive_solver.
  - done.
Qed.

Lemma protect_ranges s rs :
  Forall aligned_range rs -> counted s ->
  wp (for_each rs (fun r => pmm_mark_used_range (r_start r) (r_end r)))
     (fun _ s' => counted s' /\ same_layout s s' /\ forall f, f ∈ free_set s' <-> f ∈ free_set s /\
        ~ Exists (fun r => touches f (r_start r) (r_end r)) rs) s.
Proof.
  intros Hrs Hc. apply wp_for_each with (I := fun done s' => counted s' /\ same_layout s s' /\
    forall f, f ∈ free_set s' <-> f ∈ free_set s /\ ~ Exists (fun r => touches f (r_start r) (r_end r)) done).
  - split_and!; [done|done|]. intros f. rewrite Exists_nil. tauto.
  - intros done r todo s' -> (Hc' & Hl' & Hf').
    apply Forall_app in Hrs as [_ [([? ?] & ? & ?) _]%Forall_cons].
    eapply wp_mono; [apply wp_mark_used_range; [done|lia|lia]|].
    intros [] s'' (Hc'' & Hl'' & Hf''). split_and!; [done|by transitivity s'|].
    intros f. rewrite Hf'', Hf', Exists_app, Exists_cons, Exists_nil. tauto.
  - done.
Qed.

(** The pages that hold the bitmap itself. *)
Definition bitmap_len (s : pmm) : Z := (bitmap_bytes s + PAGE_SIZE - 1) / PAGE_SIZE * PAGE_SIZE.

(** What initialisation establishes. *)
Definition init_post (info : multiboot_info) (s : pmm) : Prop :=
  pmm_inv s /\
  (bitmap s <> None ->
   total_frames s * PAGE_SIZE = compute_managed_limit info /\
   good_home (memory_map info) (reserved s) (managed_bytes s) (bitmap_len s) (bitmap_phys s) /\
   (forall f, touches f (bitmap_phys s) (bitmap_phys s + bitmap_len s) ->
      ~ Exists (fun r => touches f (r_start r) (r_end r)) (protected info)) /\
   forall f, f ∈ free_set s <->
     0 <= f < total_frames s
     /\ Exists (fun e => available e = true /\ within f (me_address e) (me_address e + me_length e)) (memory_map info)
     /\ ~ Exists (fun r => touches f (r_start r) (r_end r)) (protected info)
     /\ ~ touches f (bitmap_phys s) (bitmap_phys s + bitmap_len s)).

Lemma no_bitmap_inv s : bitmap s = None -> total_frames s = 0 -> pmm_inv s.
Proof.
  intros Hb Ht. split; [unfold pmm_bits; rewrite Hb, Ht; lia|]. intros Hin%free_set_bound. lia.
Qed.

(** A bitmap of 0xFF bytes: every frame is in use. *)
Lemma full_bitmap s n :
  bitmap s = Some (replicate n 255) -> 0 <= total_frames s <= 262144 -> total_frames s <= 8 * Z.of_nat n ->
  managed_bytes s = total_frames s * PAGE_SIZE -> used_frames s = total_frames s ->
  counted s /\ free_set s = ∅.
Proof.
  intros Hb Ht Hn Hm Hu.
  assert (free_set s = ∅) as Hfree.
  { apply set_eq. intros f. rewrite elem_of_free_set, Hb. split; [|set_solver].
    intros (bm & [= <-] & Hf & Htest). exfalso.
    destruct (test_bit_spec (replicate n 255) f) as (byte & Hbyte & Htest'); [rewrite length_replicate; lia|].
    apply lookup_replicate in Hbyte as [-> _]. rewrite Htest' in Htest. injection Htest as Htest.
    revert Htest. change 255 with (Z.ones 8). rewrite Z.ones_spec_low; [done|].
    apply Z.mod_pos_bound. lia. }
  split; [|done]. split; [|congruence]. unfold pmm_bits. rewrite Hb, Hfree, size_empty, length_replicate.
  split; [done|]. split_and!; [|done|done|lia]. by apply Forall_replicate.
Qed.

Lemma home_not_protected rs h len f :
  clear_of rs h len -> h mod PAGE_SIZE = 0 -> len mod PAGE_SIZE = 0 -> touches f h (h + len) ->
  ~ Exists (fun r => touches f (r_start r) (r_end r)) rs.
Proof.
  intros Hc Hh Hl (? & ? & ?) (r & Hr & Ht)%Exists_exists. unfold clear_of in Hc.
  rewrite Forall_forall in Hc. apply (Hc r Hr). unfold touches, PAGE_SIZE in *. lia_div.
Qed.

Lemma pmm_init_ok info s :
  sane_info info -> wp (pmm_init info) (fun _ => init_post info) s.
Proof.
  intros (Hmap & Hprot & Hmods). destruct (managed_limit_bound info) as (t & Hlim & Ht).
  unfold pmm_init. do 2 (wp_step; wp_step). wp_step. wp_step. simpl managed_bytes. rewrite Hlim.
  assert (t * PAGE_SIZE / PAGE_SIZE = t) as -> by by apply Z.div_mul.
  destruct (Z.ltb_spec (t * PAGE_SIZE) (PAGE_SIZE * 16)) as [Hsmall|Hbig].
  { wp_steps. split; [by apply no_bitmap_inv|done]. }
  do 5 wp_step. wp_step. simpl reserved. rewrite collect_reserved_foldl.
  destruct (add_ranges_spec (protected info) []) as [Hal Htouch]; [done|simpl; lia|constructor|].
  set (rs := foldl add_range [] (protected info)) in *. simpl app in Htouch.
  set (len := (_ + _ - 1) / _ * PAGE_SIZE).
  assert (0 < len <= 32768 /\ t <= 8 * len /\ len mod PAGE_SIZE = 0) as (Hlen & Hcov & Hlenal).
  { unfold len, PAGE_SIZE in *. split_and!; [lia_div..|by apply Z.mod_mul]. }
  destruct (find_bitmap_home_spec (memory_map info) rs (t * PAGE_SIZE) len) as (h & Hh & Hgood); [done| |lia|].
  { eapply Forall_impl; [exact Hal|]. unfold aligned_range. tauto. }
  wp_step. eapply wp_lift; [exact Hh|]. do 2 wp_step.
  destruct (Z.eqb_spec h PHYS_ADDR_INVALID) as [|Hne].
  { wp_steps. split; [by apply no_bitmap_inv|done]. }
  specialize (Hgood Hne). do 4 wp_step.
  match goal with |- wp _ _ ?x => set (s0 := x) end.
  destruct (full_bitmap s0 (Z.to_nat len)) as [Hc0 He0]; [done|done|simpl; lia|done|done|].
  wp_step. eapply wp_mono; [by apply free_available|]. intros [] s1 (Hc1 & Hl1 & Hf1).
  wp_step. eapply wp_mono; [by apply protect_ranges|]. intros [] s2 (Hc2 & Hl2 & Hf2).
  destruct Hgood as (Hh0 & Hhal & Hhle & Hhc & He). rewrite u64_small by (unfold PAGE_SIZE in *; lia).
  eapply wp_mono; [apply wp_mark_used_range; [done|lia|unfold PAGE_SIZE in *; lia]|].
  intros [] s3 (Hc3 & Hl3 & Hf3).
  assert (same_layout s0 s3) as (E1 & E2 & E3 & E4 & E5 & E6) by (transitivity s1; [|transitivity s2]; done).
  assert (forall f, f ∈ free_set s3 <-> 0 <= f < t
     /\ Exists (fun e => available e = true /\ within f (me_address e) (me_address e + me_length e)) (memory_map info)
     /\ ~ Exists (fun r => touches f (r_start r) (r_end r)) (protected info)
     /\ ~ touches f h (h + len)) as Hfinal.
  { intros f. rewrite Hf3, Hf2, Hf1, Htouch. simpl. tauto. }
  unfold init_post, bitmap_len. rewrite E1, E2, E4, E5, E6. simpl. fold len rs. split_and!.
  - split; [apply Hc3|]. rewrite Hfinal. intros (_ & _ & Hn & _). apply Hn. constructor.
    unfold touches, PAGE_SIZE. simpl. lia.
  - intros _. split; [done|]. split; [done|]. split; [|done].
    intros f Hf. rewrite <- Htouch. by eapply home_not_protected.
Qed.


(** from any well-formed state [pmm_alloc_pages] does not fault, keeps the
    state well-formed, and returns the address of the lowest run of [count]
    free frames, which leaves the free set; it fails exactly when no such run
    exists, and then changes nothing. *)
Theorem pmm_alloc_first_fit s count :
  pmm_inv s -> 0 < count -> wp (pmm_alloc_pages count) (alloc_post s count) s.
Proof. apply alloc_pages_ok. Qed.

(** [pmm_free_pages] returns exactly the frames of a page-aligned, in-range
    run that is wholly in use, and rejects everything else without a change:
    a misaligned or outside address, a run past the end, and any run with a
    frame already free (the double free). *)
Theorem pmm_free_exact s page count :
  pmm_inv s -> 0 < page -> 0 <= count < 2 ^ 64 ->
  wp (pmm_free_pages page count) (fun _ => release_post s page count) s.
Proof. apply free_pages_ok. Qed.

(** releasing a fresh allocation restores the free set and the counts. *)
Theorem pmm_alloc_free_roundtrip s count :
  pmm_inv s -> 0 < count < 2 ^ 64 ->
  wp (r ← pmm_alloc_pages count; _ ← when (negb (r =? PHYS_ADDR_INVALID)) (pmm_free_pages r count); mret r)
     (fun r s' => pmm_inv s' /\ free_set s' = free_set s /\ used_frames s' = used_frames s) s.
Proof.
  intros Hi Hn. wp_step. eapply wp_mono; [apply alloc_pages_ok; [done|lia]|].
  intros r s1 (Hi1 & Hl1 & o & Hff & Ho). destruct o as [f|].
  2: { destruct Ho as [-> ->]. change (PHYS_ADDR_INVALID =? PHYS_ADDR_INVALID) with true.
       by do 2 (wp_step; try apply wp_ret). }
  destruct Ho as (Hf & -> & Hfree). destruct Hff as [Hsub _].
  assert (f * PAGE_SIZE / PAGE_SIZE = f) as Ediv by (by apply Z.div_mul).
  assert (releasable s1 (f * PAGE_SIZE) count) as Hrel.
  { unfold releasable. rewrite Ediv. split_and!; [lia|by apply Z.mod_mul| |set_solver].
    pose proof (free_set_bound _ _ (frames_sub_elem _ _ _ (f + count - 1) Hsub ltac:(lia))).
    destruct Hl1. lia. }
  rewrite (proj2 (Z.eqb_neq _ _)) by (unfold PAGE_SIZE, PHYS_ADDR_INVALID; lia).
  wp_step. cbn [negb when]. eapply wp_mono; [apply free_pages_ok; unfold PAGE_SIZE; [done|lia|lia]|].
  intros [] s2 (Hi2 & Hl2 & Hok & _). wp_steps. specialize (Hok Hrel). rewrite Ediv in Hok.
  assert (free_set s2 = free_set s) as Efree.
  { rewrite Hok, Hfree. symmetry. rewrite union_comm_L. by apply union_difference_L. }
  split_and!; [done|done|]. transitivity (total_frames s - Z.of_nat (size (free_set s))).
  - destruct Hi2 as [[_ Hb2] _]. destruct (bitmap s2).
    + destruct Hb2 as (_ & _ & _ & ->). rewrite Efree. destruct Hl1, Hl2. congruence.
    + exfalso. pose proof (free_set_bound _ _ (frames_sub_elem _ _ _ f Hsub ltac:(lia))).
      destruct Hl1, Hl2. lia.
  - destruct Hi as [[_ Hb] _]. destruct (bitmap s); [symmetry; apply Hb|].
    pose proof (free_set_bound _ _ (frames_sub_elem _ _ _ f Hsub ltac:(lia))). lia.
Qed.

(** Sixteen frames: 0-2 and 12-15 in use, 3-11 free. *)
Definition pmm16 : pmm := MkPmm (Some [7; 240]) 16 7 65536 65536 4096 2 [].

Lemma pmm16_inv : pmm_inv pmm16.
Proof.
  split; [|by vm_compute]. split; [simpl; lia|]. split_and!; [|by vm_compute..].
  repeat constructor; vm_compute; congruence.
Qed.

Lemma pmm_alloc_first_fit_witness :
  wp (pmm_alloc_pages 3) (alloc_post pmm16 3) pmm16 /\ pmm_alloc_pages 3 pmm16 =
    Some (12288, MkPmm (Some [63; 240]) 16 10 65536 65536 4096 2 []).
Proof. split; [apply pmm_alloc_first_fit; [apply pmm16_inv|lia]|by vm_compute]. Defined.

Lemma pmm_free_exact_witness :
  wp (pmm_free_pages 49152 2) (fun _ => release_post pmm16 49152 2) pmm16 /\ releasable pmm16 49152 2.
Proof.
  split; [apply pmm_free_exact; [apply pmm16_inv|lia|lia]|].
  split_and!; [lia|by vm_compute|by vm_compute|apply (bool_decide_unpack _); by vm_compute].
Defined.

Lemma pmm_alloc_free_roundtrip_witness :
  wp (r ← pmm_alloc_pages 4; _ ← when (negb (r =? PHYS_ADDR_INVALID)) (pmm_free_pages r 4); mret r)
     (fun r s' => pmm_inv s' /\ free_set s' = free_set pmm16 /\ used_frames s' = used_frames pmm16) pmm16.
Proof. apply pmm_alloc_free_roundtrip; [apply pmm16_inv|lia]. Defined.

(** A PC with 639 KiB of low memory and 1 MiB above 1 MiB, the kernel in its
    first 64 KiB, and one module. *)
Definition small_pc : multiboot_info :=
  MkInfo [MkEntry 0 654336 1; MkEntry 654336 1024 2; MkEntry 1048576 1048576 1]
         1200128 256 [MkRange 1212416 1216512]
         (KERNEL_BASE + 1048576) (KERNEL_BASE + 1114112).

Lemma small_pc_sane : sane_info small_pc.
Proof. split_and!; [repeat constructor; vm_compute; congruence..|vm_compute; lia]. Qed.


(** ** What the allocator's clients rely on

    [fa_alloc n] hands out [n] consecutive free frames and returns their
    physical address, or fails if there is no such run; [fa_release] takes a run back.
    Frames are numbered below [fa_total]. *)
Class FrameAlloc (F : Type) := {
  fa_inv : F -> Prop;
  fa_free : F -> gset Z;
  fa_total : F -> Z;
  fa_alloc : Z -> M F Z;
  fa_release : Z -> Z -> M F unit;
  fa_total_bound : forall s, fa_inv s -> 0 <= fa_total s <= 262144;
  fa_free_bound : forall s f, fa_inv s -> f ∈ fa_free s -> 0 < f < fa_total s;
  fa_alloc_ok : forall s n, fa_inv s -> 0 < n ->
    wp (fa_alloc n) (fun r s' => fa_inv s' /\ fa_total s' = fa_total s /\
      (r = PHYS_ADDR_INVALID /\ fa_free s' = fa_free s /\ (forall f, ~ frames f n ⊆ fa_free s) \/
       exists f, r = f * PAGE_SIZE /\ frames f n ⊆ fa_free s /\ fa_free s' = fa_free s ∖ frames f n)) s;
  fa_release_ok : forall s f n, fa_inv s -> 0 < f -> 0 < n -> f + n <= fa_total s ->
    frames f n ## fa_free s ->
    wp (fa_release (f * PAGE_SIZE) n) (fun _ s' => fa_inv s' /\ fa_total s' = fa_total s
      /\ fa_free s' = fa_free s ∪ frames f n) s;
}.

Lemma pmm_fa_free s f : pmm_inv s -> f ∈ free_set s -> 0 < f < total_frames s.
Proof. intros [_ H0] Hf. pose proof (free_set_bound _ _ Hf). assert (f <> 0) by congruence. lia. Qed.

Lemma pmm_fa_alloc s n :
  pmm_inv s -> 0 < n ->
  wp (pmm_alloc_pages n) (fun r s' => pmm_inv s' /\ total_frames s' = total_frames s /\
    (r = PHYS_ADDR_INVALID /\ free_set s' = free_set s /\ (forall f, ~ frames f n ⊆ free_set s) \/
     exists f, r = f * PAGE_SIZE /\ frames f n ⊆ free_set s /\ free_set s' = free_set s ∖ frames f n)) s.
Proof.
  intros Hi Hn. eapply wp_mono; [by apply alloc_pages_ok|].
  intros r s' (? & [? _] & o & Hff & Hr). split_and!; [done|done|]. destruct o as [f|].
  - right. exists f. destruct Hff, Hr as (_ & ? & ?). done.
  - left. by destruct Hr as [-> ->].
Qed.

Lemma pmm_fa_release s f n :
  pmm_inv s -> 0 < f -> 0 < n -> f + n <= total_frames s -> frames f n ## free_set s ->
  wp (pmm_free_pages (f * PAGE_SIZE) n) (fun _ s' => pmm_inv s' /\ total_frames s' = total_frames s
    /\ free_set s' = free_set s ∪ frames f n) s.
Proof.
  intros Hi Hf Hn Hle Hd. assert (f * PAGE_SIZE / PAGE_SIZE = f) as E by by apply Z.div_mul.
  eapply wp_mono; [apply free_pages_ok; [done|unfold PAGE_SIZE; lia|destruct Hi as [[? _] _]; lia]|].
  intros [] s' (? & [? _] & Hok & _). rewrite E in Hok. split_and!; [done|done|]. apply Hok.
  unfold releasable. rewrite E. split_and!; [lia|by apply Z.mod_mul|lia|done].
Qed.

#[export] Instance pmm_frame_alloc : FrameAlloc pmm := {|
  fa_inv := pmm_inv;
  fa_free := free_set;
  fa_total := total_frames;
  fa_alloc := pmm_alloc_pages;
  fa_release := pmm_free_pages;
  fa_total_bound := fun s Hi => proj1 (proj1 Hi);
  fa_free_bound := pmm_fa_free;
  fa_alloc_ok := pmm_fa_alloc;
  fa_release_ok := pmm_fa_release;
|}.
