(* ===== verification/Heap.v ===== *)
(** * The kernel heap: src/src/kernel/mm/memory.c

    Block headers live in memory: [h_mem] maps a header's address to its
    fields, and a header that was merged away stays there, as it does in the
    machine. The list is walked through the [next] fields only. The heap is
    proved against the interface [FrameAlloc] of the frame allocator; the
    invariant [heap_inv] reads the linked list as a list of blocks laid out in
    address order, without overlap, in frames the allocator does not count as
    free. *)
From S2P Require Import Prelude Pmm.

Definition BLOCK_HEADER_SIZE : Z := 32.
Definition ALIGN : Z := 16.
Definition MIN_SPLIT : Z := BLOCK_HEADER_SIZE + ALIGN.

(** [next] is an address, 0 for NULL. *)
Record mem_block := MkBlock { b_size : Z; b_next : Z; b_is_free : bool }.

Definition with_size (z : Z) (b : mem_block) : mem_block := MkBlock z (b_next b) (b_is_free b).
Definition with_next (p : Z) (b : mem_block) : mem_block := MkBlock (b_size b) p (b_is_free b).
Definition with_free (x : bool) (b : mem_block) : mem_block := MkBlock (b_size b) (b_next b) x.

Record heap (F : Type) := MkHeap {
  h_frames : F;
  h_mem : gmap Z mem_block;
  free_list : Z;
  heap_start : Z;
  heap_pointer : Z;
}.
Arguments MkHeap {F}.
Arguments h_frames {F}.
Arguments h_mem {F}.
Arguments free_list {F}.
Arguments heap_start {F}.
Arguments heap_pointer {F}.

Section Heap.
  Context {F : Type} `{FrameAlloc F}.

Definition set_frames (f : F) (h : heap F) : heap F :=
  MkHeap f (h_mem h) (free_list h) (heap_start h) (heap_pointer h).
Definition set_mem (m : gmap Z mem_block) (h : heap F) : heap F :=
  MkHeap (h_frames h) m (free_list h) (heap_start h) (heap_pointer h).
Definition set_free_list (p : Z) (h : heap F) : heap F :=
  MkHeap (h_frames h) (h_mem h) p (heap_start h) (heap_pointer h).
Definition set_heap_start (p : Z) (h : heap F) : heap F :=
  MkHeap (h_frames h) (h_mem h) (free_list h) p (heap_pointer h).
Definition set_heap_pointer (p : Z) (h : heap F) : heap F :=
  MkHeap (h_frames h) (h_mem h) (free_list h) (heap_start h) p.

(** A call into the frame allocator. *)
Definition on_frames {A} (m : M F A) : M (heap F) A := fun h =>
  match m (h_frames h) with Some (a, f) => Some (a, set_frames f h) | None => None end.

(** Reading a header, and writing one or one of its fields. NULL faults. *)
Definition load (p : Z) : M (heap F) mem_block := h ← get; lift (h_mem h !! p).
Definition put_block (p : Z) (b : mem_block) : M (heap F) unit :=
  modify (fun h => set_mem (<[p := b]> (h_mem h)) h).
Definition update (p : Z) (f : mem_block -> mem_block) : M (heap F) unit :=
  b ← load p; put_block p (f b).

(** ** memory.c *)

Definition adjacent (a b : Z) : M (heap F) bool :=
  x ← load a; mret (u64 (a + BLOCK_HEADER_SIZE + b_size x) =? b).

Fixpoint find_free (fuel : nat) (current size : Z) : M (heap F) Z :=
  match fuel with
  | O => fault
  | S fuel' =>
      if current =? 0 then mret 0 else
      b ← load current;
      if b_is_free b && (size <=? b_size b) then mret current
      else find_free fuel' (b_next b) size
  end.

(** Every block of the list has a header in memory. *)
Definition list_fuel (h : heap F) : nat := S (size (h_mem h)).

Definition k_find_free_block (size : Z) : M (heap F) Z :=
  h ← get; find_free (list_fuel h) (free_list h) size.

(** [while (current->next && current->next < block)] *)
Fixpoint insert_point (fuel : nat) (current block : Z) : M (heap F) Z :=
  match fuel with
  | O => fault
  | S fuel' =>
      b ← load current;
      if negb (b_next b =? 0) && (b_next b <? block) then insert_point fuel' (b_next b) block
      else mret current
  end.

Definition k_expand_heap (size : Z) : M (heap F) Z :=
  let total_size := u64 (size + BLOCK_HEADER_SIZE) in
  let num_pages := u64 (total_size + PAGE_SIZE - 1) / PAGE_SIZE in
  phys ← on_frames (fa_alloc num_pages);
  if phys =? PHYS_ADDR_INVALID then mret 0 else
  let block := phys_to_virt phys in
  _ ← put_block block (MkBlock (u64 (num_pages * PAGE_SIZE - BLOCK_HEADER_SIZE)) 0 false);
  h ← get;
  if (free_list h =? 0) || (block <? free_list h) then
    _ ← update block (with_next (free_list h));
    _ ← modify (set_free_list block);
    mret block
  else
    current ← insert_point (list_fuel h) (free_list h) block;
    c ← load current;
    _ ← update block (with_next (b_next c));
    _ ← update current (with_next block);
    c ← load current;
    adj ← adjacent current block;
    if b_is_free c && adj then
      b ← load block;
      _ ← update current (fun x => with_size (u64 (b_size x + u64 (b_size b + BLOCK_HEADER_SIZE))) x);
      _ ← update current (with_next (b_next b));
      mret current
    else mret block.

Definition split (block size : Z) : M (heap F) unit :=
  b ← load block;
  if b_size b <? u64 (size + MIN_SPLIT) then mret tt else
  let rest := u64 (block + BLOCK_HEADER_SIZE + size) in
  _ ← put_block rest (MkBlock (u64 (b_size b - size - BLOCK_HEADER_SIZE)) (b_next b) true);
  _ ← update block (with_size size);
  update block (with_next rest).

Definition k_malloc (size : Z) : M (heap F) Z :=
  if size =? 0 then mret 0 else
  let size := Z.land (u64 (size + ALIGN - 1)) (u64 (Z.lnot (ALIGN - 1))) in
  found ← k_find_free_block size;
  block ← (if found =? 0 then k_expand_heap size else mret found);
  if block =? 0 then mret 0 else
  _ ← update block (with_free false);
  _ ← split block size;
  mret (u64 (block + BLOCK_HEADER_SIZE)).

(** [for (prev = free_list; prev; prev = prev->next)], up to the [break]. *)
Fixpoint merge_prev (fuel : nat) (prev block : Z) : M (heap F) unit :=
  match fuel with
  | O => fault
  | S fuel' =>
      if prev =? 0 then mret tt else
      p ← load prev;
      if b_next p =? block then
        adj ← adjacent prev block;
        when (b_is_free p && adj)
          (b ← load block;
           _ ← update prev (fun x => with_size (u64 (b_size x + u64 (b_size b + BLOCK_HEADER_SIZE))) x);
           update prev (with_next (b_next b)))
      else merge_prev fuel' (b_next p) block
  end.

Definition merge_next (block : Z) : M (heap F) unit :=
  b ← load block;
  if b_next b =? 0 then mret tt else
  n ← load (b_next b);
  adj ← adjacent block (b_next b);
  when (b_is_free n && adj)
    (_ ← update block (fun x => with_size (u64 (b_size x + u64 (b_size n + BLOCK_HEADER_SIZE))) x);
     update block (with_next (b_next n))).

Definition k_free (ptr : Z) : M (heap F) unit :=
  if ptr =? 0 then mret tt else
  let block := u64 (ptr - BLOCK_HEADER_SIZE) in
  _ ← update block (with_free true);
  _ ← merge_next block;
  h ← get;
  merge_prev (list_fuel h) (free_list h) block.

Definition k_heap_init : M (heap F) unit :=
  phys ← on_frames (fa_alloc 1);
  if phys =? PHYS_ADDR_INVALID then
    _ ← modify (set_heap_start 0); modify (set_free_list 0)
  else
    let start := phys_to_virt phys in
    _ ← modify (set_heap_start start);
    _ ← put_block start (MkBlock (PAGE_SIZE - BLOCK_HEADER_SIZE) 0 true);
    _ ← modify (set_free_list start);
    modify (set_heap_pointer (u64 (start + PAGE_SIZE))).

End Heap.

(** k_memory_init on the real frame allocator. *)
Definition k_memory_init (info : multiboot_info) : M (heap pmm) Z :=
  _ ← on_frames (pmm_init info);
  _ ← modify (set_free_list 0);
  _ ← k_heap_init;
  mret 0.

(** ** The abstract heap: a list of blocks *)

(** Address of the header, payload bytes, free? *)
Definition blk : Type := Z * Z * bool.
Definition blk_addr (b : blk) : Z := b.1.1.
Definition blk_size (b : blk) : Z := b.1.2.
Definition blk_free (b : blk) : bool := b.2.
Definition blk_end (b : blk) : Z := blk_addr b + BLOCK_HEADER_SIZE + blk_size b.
Arguments blk_addr !b /.
Arguments blk_size !b /.
Arguments blk_free !b /.
Arguments blk_end !b /.

(** The memory holds the blocks [l] linked from [p] to [q]. *)
Fixpoint lseg (m : gmap Z mem_block) (p : Z) (l : list blk) (q : Z) : Prop :=
  match l with
  | [] => p = q
  | b :: l' => p = blk_addr b /\ p <> 0 /\
      exists nx, m !! p = Some (MkBlock (blk_size b) nx (blk_free b)) /\ lseg m nx l' q
  end.

(** In address order, without overlap, 16-byte aligned. *)
Fixpoint laid_out (lo : Z) (l : list blk) : Prop :=
  match l with
  | [] => True
  | b :: l' => lo <= blk_addr b /\ blk_addr b mod ALIGN = 0 /\ 0 <= blk_size b
               /\ blk_size b mod ALIGN = 0 /\ laid_out (blk_end b) l'
  end.

(** The frame of a kernel virtual address in the direct map. *)
Definition frame_of (x : Z) : Z := (x - KERNEL_BASE) / PAGE_SIZE.

(** The blocks handed out, and the bytes all blocks cover. *)
Definition in_use (l : list blk) : list (Z * Z) :=
  (fun b => (blk_addr b, blk_size b)) <$> filter (fun b => blk_free b = false) l.
Definition extent (l : list blk) : Z := foldr (fun b acc => BLOCK_HEADER_SIZE + blk_size b + acc) 0 l.

(** ** Linked segments *)

Lemma lseg_app m p l1 l2 q :
  lseg m p (l1 ++ l2) q <-> exists r, lseg m p l1 r /\ lseg m r l2 q.
Proof.
  revert p; induction l1 as [|b l1 IH]; intros p; simpl; [naive_solver|].
  setoid_rewrite IH. naive_solver.
Qed.

Lemma lseg_update m p l q a x :
  a ∉ blk_addr <$> l -> lseg (<[a := x]> m) p l q <-> lseg m p l q.
Proof.
  revert p; induction l as [|b l IH]; intros p Ha; [done|].
  rewrite fmap_cons, not_elem_of_cons in Ha. destruct Ha as [Hne Ha]. simpl. split.
  - intros (-> & H0 & nx & Hm & Hl). rewrite lookup_insert_ne in Hm by done. rewrite IH in Hl by done. eauto.
  - intros (-> & H0 & nx & Hm & Hl). split_and!; [done|done|]. exists nx.
    rewrite lookup_insert_ne by done. by rewrite IH.
Qed.

Lemma lseg_dom m p l q b : lseg m p l q -> b ∈ l -> is_Some (m !! blk_addr b).
Proof.
  revert p; induction l as [|b' l IH]; intros p Hl Hb; [set_solver|].
  destruct Hl as (-> & _ & nx & Hm & Hl). apply elem_of_cons in Hb as [->|Hb]; eauto.
Qed.

(** ** Layout *)

Lemma laid_out_ge lo l b : laid_out lo l -> b ∈ l -> lo <= blk_addr b /\ 0 <= blk_size b.
Proof.
  revert lo; induction l as [|b' l IH]; intros lo Hl Hb; [set_solver|].
  destruct Hl as (? & ? & ? & ? & Hl). apply elem_of_cons in Hb as [->|Hb]; [done|].
  destruct (IH _ Hl Hb). unfold blk_end, BLOCK_HEADER_SIZE in *. lia.
Qed.

Lemma laid_out_weaken lo lo' l : lo' <= lo -> laid_out lo l -> laid_out lo' l.
Proof. destruct l; simpl; [done|]. intros ? (? & ?). split; [lia|done]. Qed.

Lemma laid_out_app lo l1 l2 :
  laid_out lo (l1 ++ l2) <-> laid_out lo l1 /\ laid_out (from_option blk_end lo (last l1)) l2.
Proof.
  revert lo; induction l1 as [|b l1 IH]; intros lo; [simpl; tauto|].
  rewrite last_cons. simpl. rewrite IH. destruct (last l1); simpl; tauto.
Qed.

Lemma laid_out_below lo l1 b l2 b' :
  laid_out lo (l1 ++ b :: l2) -> b' ∈ l1 -> blk_end b' <= blk_addr b.
Proof.
  revert lo; induction l1 as [|b1 l1 IH]; intros lo Hl Hb; [set_solver|].
  destruct Hl as (? & ? & ? & ? & Hl). apply elem_of_cons in Hb as [->|Hb]; [|eauto].
  by destruct (laid_out_ge _ _ b Hl ltac:(set_solver)).
Qed.

Lemma laid_out_above lo l1 b l2 b' :
  laid_out lo (l1 ++ b :: l2) -> b' ∈ l2 -> blk_end b <= blk_addr b'.
Proof.
  intros Hl Hb. rewrite laid_out_app in Hl. destruct Hl as [_ (? & ? & ? & ? & Hl)].
  by destruct (laid_out_ge _ _ b' Hl Hb).
Qed.

Lemma laid_out_elem lo l b : laid_out lo l -> b ∈ l -> 0 <= blk_size b.
Proof. intros Hl Hb. by destruct (laid_out_ge _ _ _ Hl Hb). Qed.

(** A block's address occurs nowhere else in the list. *)
Lemma laid_out_fresh lo l1 b l2 :
  laid_out lo (l1 ++ b :: l2) -> blk_addr b ∉ blk_addr <$> l1 /\ blk_addr b ∉ blk_addr <$> l2.
Proof.
  intros Hl. assert (0 <= blk_size b) by (eapply laid_out_elem; [done|set_solver]).
  split; intros (b' & E & Hb')%list_elem_of_fmap.
  - pose proof (laid_out_below _ _ _ _ _ Hl Hb').
    assert (0 <= blk_size b') by (eapply laid_out_elem; [done|set_solver]).
    unfold blk_end, BLOCK_HEADER_SIZE in *. lia.
  - pose proof (laid_out_above _ _ _ _ _ Hl Hb'). unfold blk_end, BLOCK_HEADER_SIZE in *. lia.
Qed.

Lemma laid_out_NoDup lo l : laid_out lo l -> NoDup (blk_addr <$> l).
Proof.
  revert lo; induction l as [|b l IH]; intros lo Hl; [constructor|].
  destruct (laid_out_fresh lo [] b l Hl) as [_ ?]. destruct Hl as (_ & _ & _ & _ & Hl).
  rewrite fmap_cons. constructor; eauto.
Qed.

Lemma lseg_length m p l q lo : lseg m p l q -> laid_out lo l -> (length l <= size m)%nat.
Proof.
  intros Hs Hl. rewrite <- (length_fmap blk_addr l), <- size_dom.
  rewrite <- (size_list_to_set (C:=gset Z)) by (by eapply laid_out_NoDup).
  apply subseteq_size. intros a. rewrite elem_of_list_to_set, elem_of_dom.
  intros (b & -> & Hb)%list_elem_of_fmap. by eapply lseg_dom.
Qed.

(** Putting a block of its own region between two lists. *)
Lemma laid_out_insert lo l1 b l2 :
  laid_out lo (l1 ++ l2) -> lo <= blk_addr b -> blk_addr b mod ALIGN = 0 ->
  0 <= blk_size b -> blk_size b mod ALIGN = 0 ->
  (forall b', b' ∈ l1 -> blk_end b' <= blk_addr b) -> (forall b', b' ∈ l2 -> blk_end b <= blk_addr b') ->
  laid_out lo (l1 ++ b :: l2).
Proof.
  intros Hl Hlo Ha Hs Hsa H1 H2. rewrite laid_out_app in Hl |- *. destruct Hl as [Hl1 Hl2].
  split; [done|]. simpl. split_and!; [|done..|].
  - destruct (last l1) eqn:E; simpl; [|done]. apply H1. by apply last_Some_elem_of.
  - destruct l2 as [|b2 l2]; [done|]. simpl in Hl2 |- *. split; [|tauto]. apply H2. set_solver.
Qed.

Section HeapProofs.
  Context {F : Type} `{FA : FrameAlloc F}.
  Implicit Types (h : heap F) (l : list blk).

(** Every byte of every block lies in a frame the allocator handed out. *)
Definition owned (h : heap F) (l : list blk) : Prop :=
  forall b x, b ∈ l -> blk_addr b <= x < blk_end b ->
    0 < frame_of x < fa_total (h_frames h) /\ frame_of x ∉ fa_free (h_frames h).

Definition heap_inv (h : heap F) (l : list blk) : Prop :=
  fa_inv (h_frames h) /\ lseg (h_mem h) (free_list h) l 0 /\ laid_out 0 l /\ owned h l.

(** Bytes under the heap's or the allocator's control. *)
Definition heap_total (h : heap F) (l : list blk) : Z :=
  extent l + PAGE_SIZE * Z.of_nat (size (fa_free (h_frames h))).

(** *** Triples of the accesses *)

Lemma wp_on_frames {A} (m : M F A) (Q : A -> heap F -> Prop) h :
  wp m (fun a f => Q a (set_frames f h)) (h_frames h) -> wp (on_frames m) Q h.
Proof. unfold wp, on_frames. by destruct (m (h_frames h)) as [[a f]|]. Qed.

Lemma wp_load p b (Q : mem_block -> heap F -> Prop) h :
  h_mem h !! p = Some b -> Q b h -> wp (load p) Q h.
Proof. intros Hb HQ. unfold load. wp_steps. by eapply wp_lift. Qed.

Lemma wp_put_block p b (Q : unit -> heap F -> Prop) h :
  Q tt (set_mem (<[p := b]> (h_mem h)) h) -> wp (put_block p b) Q h.
Proof. done. Qed.

Lemma wp_update p f b (Q : unit -> heap F -> Prop) h :
  h_mem h !! p = Some b -> Q tt (set_mem (<[p := f b]> (h_mem h)) h) -> wp (update p f) Q h.
Proof. intros Hb HQ. unfold update. wp_step. by eapply wp_load. Qed.

Lemma wp_adjacent a b x (Q : bool -> heap F -> Prop) h :
  h_mem h !! a = Some x -> Q (u64 (a + BLOCK_HEADER_SIZE + b_size x) =? b) h -> wp (adjacent a b) Q h.
Proof. intros Hb HQ. unfold adjacent. wp_step. eapply wp_load; [done|]. by wp_steps. Qed.

(** *** Bounds *)

Lemma heap_bounds h l b :
  heap_inv h l -> b ∈ l ->
  KERNEL_BASE + PAGE_SIZE <= blk_addr b /\ blk_end b <= KERNEL_BASE + 1073741824 /\ 0 <= blk_size b.
Proof.
  intros (Hfa & _ & Hl & Ho) Hb. pose proof (laid_out_elem _ _ _ Hl Hb).
  pose proof (fa_total_bound _ Hfa).
  destruct (Ho b (blk_addr b) Hb) as [H1 _]; [unfold blk_end, BLOCK_HEADER_SIZE; lia|].
  destruct (Ho b (blk_end b - 1) Hb) as [H2 _]; [unfold blk_end, BLOCK_HEADER_SIZE; lia|].
  unfold frame_of, blk_end, PAGE_SIZE, BLOCK_HEADER_SIZE in *. lia_div.
Qed.

(** Splitting a list at one of its blocks. *)
Lemma lseg_split m p l1 b l2 :
  lseg m p (l1 ++ b :: l2) 0 ->
  exists nx, lseg m p l1 (blk_addr b) /\ blk_addr b <> 0 /\
    m !! blk_addr b = Some (MkBlock (blk_size b) nx (blk_free b)) /\ lseg m nx l2 0.
Proof. rewrite lseg_app. intros (r & H1 & -> & H0 & nx & Hm & H2). eauto. Qed.

Lemma lseg_join m p l1 b nx l2 :
  lseg m p l1 (blk_addr b) -> blk_addr b <> 0 ->
  m !! blk_addr b = Some (MkBlock (blk_size b) nx (blk_free b)) -> lseg m nx l2 0 ->
  lseg m p (l1 ++ b :: l2) 0.
Proof. intros H1 H0 Hm H2. rewrite lseg_app. exists (blk_addr b). split; [done|]. simpl. eauto. Qed.

(** Rewriting the header of a block in place. *)
Lemma lseg_set m p l1 a s f s' f' l2 lo nx :
  lseg m p (l1 ++ (a, s, f) :: l2) 0 -> laid_out lo (l1 ++ (a, s, f) :: l2) ->
  m !! a = Some (MkBlock s nx f) ->
  lseg (<[a := MkBlock s' nx f']> m) p (l1 ++ (a, s', f') :: l2) 0.
Proof.
  intros Hs Hl Hm. destruct (laid_out_fresh _ _ _ _ Hl) as [Hf1 Hf2].
  destruct (lseg_split _ _ _ _ _ Hs) as (nx' & H1 & H0 & Hm' & H2). simpl in *. simplify_eq.
  eapply lseg_join with (nx := nx); simpl; [by apply lseg_update|done|by rewrite lookup_insert_eq|].
  by apply lseg_update.
Qed.

Lemma extent_app l1 l2 : extent (l1 ++ l2) = extent l1 + extent l2.
Proof. induction l1 as [|b l1 IH]; simpl; lia. Qed.

Lemma in_use_app l1 l2 : in_use (l1 ++ l2) = in_use l1 ++ in_use l2.
Proof. unfold in_use. by rewrite filter_app, fmap_app. Qed.

Lemma in_use_cons b l :
  in_use (b :: l) = (if blk_free b then [] else [(blk_addr b, blk_size b)]) ++ in_use l.
Proof. unfold in_use. rewrite filter_cons. destruct (blk_free b); by case_decide. Qed.

Definition covered (l : list blk) (x : Z) : Prop := exists b, b ∈ l /\ blk_addr b <= x < blk_end b.

Lemma owned_covered h h' l l' :
  h_frames h' = h_frames h -> (forall x, covered l' x -> covered l x) -> owned h l -> owned h' l'.
Proof.
  intros Ef Hc Ho b x Hb Hx. rewrite Ef. destruct (Hc x) as (b0 & Hb0 & Hx0); [by exists b|]. eauto.
Qed.

Lemma covered_app l1 l2 x : covered (l1 ++ l2) x <-> covered l1 x \/ covered l2 x.
Proof. unfold covered. setoid_rewrite elem_of_app. naive_solver. Qed.

Lemma covered_cons b l x : covered (b :: l) x <-> (blk_addr b <= x < blk_end b) \/ covered l x.
Proof. unfold covered. setoid_rewrite elem_of_cons. naive_solver. Qed.

(** Changing the flag of a block. *)
Lemma heap_inv_flag h l1 a s f f' l2 :
  heap_inv h (l1 ++ (a, s, f) :: l2) ->
  exists nx, h_mem h !! a = Some (MkBlock s nx f) /\
    heap_inv (set_mem (<[a := MkBlock s nx f']> (h_mem h)) h) (l1 ++ (a, s, f') :: l2).
Proof.
  intros (Hfa & Hs & Hl & Ho). destruct (lseg_split _ _ _ _ _ Hs) as (nx & _ & _ & Hm & _).
  simpl in Hm. exists nx. split; [done|]. split_and!; [done| | |].
  - simpl. by eapply lseg_set.
  - by rewrite laid_out_app in *.
  - eapply owned_covered; [done| |exact Ho]. intros x. by rewrite !covered_app, !covered_cons.
Qed.

(** *** Finding a free block *)

Lemma find_free_spec h fuel p l size :
  lseg (h_mem h) p l 0 -> (length l < fuel)%nat ->
  wp (find_free fuel p size) (fun r h' => h' = h /\
    (r = 0 \/ exists l1 s l2, l = l1 ++ (r, s, true) :: l2 /\ size <= s /\ r <> 0)) h.
Proof.
  revert p l; induction fuel as [|fuel IH]; intros p l Hs Hf; [lia|]. cbn [find_free].
  destruct l as [|[[a s] f] l]; simpl in Hs.
  { subst p. rewrite Z.eqb_refl. wp_steps. split; [done|by left]. }
  destruct Hs as (-> & H0 & nx & Hm & Hs). simpl in *. rewrite (proj2 (Z.eqb_neq _ _)) by done.
  wp_step. eapply wp_load; [done|]. simpl.
  destruct (f && (size <=? s)) eqn:E.
  - apply andb_true_iff in E as [-> ?%Z.leb_le]. wp_steps. split; [done|]. right. by exists [], s, l.
  - eapply wp_mono; [apply (IH nx l); [done|lia]|].
    intros r h' [-> [->|(l1 & s1 & l2 & -> & ?)]]; split; [done|by left|done|].
    right. by exists ((a, s, f) :: l1), s1, l2.
Qed.

(** *** Splitting a block *)

Lemma heap_inv_split h l1 a s f l2 size nx :
  heap_inv h (l1 ++ (a, s, f) :: l2) -> h_mem h !! a = Some (MkBlock s nx f) ->
  0 <= size -> size + BLOCK_HEADER_SIZE <= s -> size mod ALIGN = 0 ->
  let rest := a + BLOCK_HEADER_SIZE + size in
  heap_inv (set_mem (<[a := MkBlock size rest f]>
                      (<[rest := MkBlock (s - size - BLOCK_HEADER_SIZE) nx true]> (h_mem h))) h)
           (l1 ++ (a, size, f) :: (rest, s - size - BLOCK_HEADER_SIZE, true) :: l2).
Proof.
  intros Hi Hm Hsz Hle Hal rest.
  destruct (heap_bounds _ _ (a, s, f) Hi ltac:(set_solver)) as (Hlo & _ & _).
  pose proof Hi as (Hfa & Hs & Hl & Ho). destruct (lseg_split _ _ _ _ _ Hs) as (nx' & H1 & H0 & Hm' & H2).
  destruct (laid_out_fresh _ _ _ _ Hl) as [Hf1 Hf2]. simpl in *. simplify_eq.
  assert (laid_out 0 (l1 ++ (a, size, f) :: (rest, s - size - BLOCK_HEADER_SIZE, true) :: l2)) as Hl'.
  { rewrite laid_out_app in Hl |- *. destruct Hl as [? (? & ? & ? & ? & Hl)]. split; [done|]. simpl in *.
    unfold rest, ALIGN, BLOCK_HEADER_SIZE in *. split_and!; try lia_div.
    eapply laid_out_weaken; [|exact Hl]. lia. }
  destruct (laid_out_fresh 0 (l1 ++ [(a, size, f)]) (rest, s - size - BLOCK_HEADER_SIZE, true) l2)
    as [Hr1 Hr2]; [by rewrite <- app_assoc|]. rewrite fmap_app, not_elem_of_app in Hr1.
  destruct Hr1 as [Hr1 Hra]. simpl in *. split_and!; [done| |done|].
  - simpl. eapply lseg_join with (nx := rest); simpl; [|done|by rewrite lookup_insert_eq|].
    + by rewrite !lseg_update.
    + split_and!; [done|unfold rest, KERNEL_BASE, PAGE_SIZE, BLOCK_HEADER_SIZE in *; lia|]. exists nx.
      rewrite lookup_insert_ne, lookup_insert_eq by set_solver. by rewrite !lseg_update.
  - eapply owned_covered; [done| |exact Ho]. intros x. rewrite !covered_app, !covered_cons. simpl.
    unfold rest, BLOCK_HEADER_SIZE in *. intros [?|[?|[?|?]]]; [by left|right; left; lia|right; left; lia|tauto].
Qed.

Lemma split_ok h l1 a s l2 size :
  heap_inv h (l1 ++ (a, s, false) :: l2) -> 0 <= size <= s -> size mod ALIGN = 0 ->
  wp (split a size) (fun _ h' => exists s' tail, size <= s' <= s /\ Forall (fun b => blk_free b = true) tail
    /\ heap_inv h' (l1 ++ (a, s', false) :: tail ++ l2) /\ h_frames h' = h_frames h
    /\ extent ((a, s', false) :: tail) = extent [(a, s, false)]) h.
Proof.
  intros Hi Hsz Hal. destruct (heap_bounds _ _ (a, s, false) Hi ltac:(set_solver)) as (Hlo & Hhi & _).
  pose proof Hi as (_ & Hs & _ & _). destruct (lseg_split _ _ _ _ _ Hs) as (nx & _ & _ & Hm & _). simpl in *.
  unfold KERNEL_BASE, PAGE_SIZE, BLOCK_HEADER_SIZE in Hlo, Hhi.
  unfold split. wp_step. eapply wp_load; [done|]. cbn [b_size b_next].
  rewrite (u64_small (size + MIN_SPLIT)) by (unfold MIN_SPLIT, BLOCK_HEADER_SIZE, ALIGN; lia).
  destruct (Z.ltb_spec s (size + MIN_SPLIT)) as [Hlt|Hge].
  { wp_steps. exists s, []. split_and!; [lia|lia|constructor|exact Hi|done|done]. }
  unfold MIN_SPLIT, ALIGN in Hge.
  rewrite !u64_small by (unfold BLOCK_HEADER_SIZE in *; lia).
  wp_step. apply wp_put_block. wp_step. unfold BLOCK_HEADER_SIZE in *.
  eapply wp_update; [simpl; rewrite lookup_insert_ne by lia; done|].
  eapply wp_update; [simpl; by rewrite lookup_insert_eq|].
  exists size, [(a + 32 + size, s - size - 32, true)].
  split_and!; [lia|lia|by constructor| |done|simpl; unfold BLOCK_HEADER_SIZE; lia].
  simpl. rewrite insert_insert_eq. unfold with_next; simpl.
  apply (heap_inv_split h l1 a s false l2 size nx); unfold BLOCK_HEADER_SIZE; [done|done|lia|lia|done].
Qed.

(** *** Merging neighbours *)

Lemma heap_inv_merge h l1 a s f b s2 f2 l2 nx :
  heap_inv h (l1 ++ (a, s, f) :: (b, s2, f2) :: l2) -> a + BLOCK_HEADER_SIZE + s = b ->
  h_mem h !! b = Some (MkBlock s2 nx f2) ->
  heap_inv (set_mem (<[a := MkBlock (s + (s2 + BLOCK_HEADER_SIZE)) nx f]> (h_mem h)) h)
           (l1 ++ (a, s + (s2 + BLOCK_HEADER_SIZE), f) :: l2).
Proof.
  intros (Hfa & Hs & Hl & Ho) Hadj Hm. destruct (laid_out_fresh _ _ _ _ Hl) as [Hf1 Hf2].
  destruct (lseg_split _ _ _ _ _ Hs) as (nb & H1 & H0 & _ & (-> & _ & nx' & Hm' & H2)).
  rewrite fmap_cons, not_elem_of_cons in Hf2. simpl in *. simplify_eq. split_and!; [done| | |].
  - eapply lseg_join with (nx := nx); simpl; [by apply lseg_update|done|by rewrite lookup_insert_eq|].
    apply lseg_update; tauto.
  - rewrite laid_out_app in Hl |- *. destruct Hl as [? (? & ? & ? & ? & (? & ? & ? & ? & Hl))]. split; [done|].
    simpl in *. unfold ALIGN, BLOCK_HEADER_SIZE in *. split_and!; try lia_div.
    eapply laid_out_weaken; [|exact Hl]. lia.
  - eapply owned_covered; [done| |exact Ho]. intros x. rewrite !covered_app, !covered_cons. simpl.
    unfold BLOCK_HEADER_SIZE in *. intros [?|[?|?]]; [by left| |tauto].
    destruct (Z.lt_ge_cases x (a + 32 + s)); right; [left|right; left]; lia.
Qed.

(** *** Growing the heap *)

(** A run of frames still free shares no byte with a block. *)
Lemma fresh_run_disjoint h l f n b :
  heap_inv h l -> 0 < n -> frames f n ⊆ fa_free (h_frames h) -> b ∈ l ->
  let block := KERNEL_BASE + f * PAGE_SIZE in
  blk_end b <= block \/ block + n * PAGE_SIZE <= blk_addr b.
Proof.
  intros (_ & _ & Hl & Ho) Hn Hsub Hb block. pose proof (laid_out_elem _ _ _ Hl Hb).
  assert (forall x, blk_addr b <= x < blk_end b -> ~ block <= x < block + n * PAGE_SIZE) as Hx.
  { intros x Hx1 Hx2. destruct (Ho b x Hb Hx1) as [_ Hnf]. apply Hnf, Hsub, elem_of_frames.
    unfold frame_of, block, PAGE_SIZE in *. lia_div. }
  pose proof (Hx (blk_addr b)) as Hxa. pose proof (Hx block) as Hxb.
  unfold blk_end, BLOCK_HEADER_SIZE, PAGE_SIZE in *. lia.
Qed.

(** The new block between the blocks below it and above it. *)
Lemma heap_inv_grow h l1 l2 f n fr :
  heap_inv h (l1 ++ l2) -> 0 < n -> frames f n ⊆ fa_free (h_frames h) ->
  fa_total fr = fa_total (h_frames h) -> fa_free fr = fa_free (h_frames h) ∖ frames f n ->
  let block := KERNEL_BASE + f * PAGE_SIZE in
  (forall b, b ∈ l1 -> blk_addr b < block) -> (forall b, b ∈ l2 -> block < blk_addr b) ->
  let l := l1 ++ (block, n * PAGE_SIZE - BLOCK_HEADER_SIZE, false) :: l2 in
  laid_out 0 l /\ owned (set_frames fr h) l.
Proof.
  intros Hi Hn Hsub Ht Hfree block H1 H2 l.
  assert (forall b, b ∈ l1 ++ l2 -> blk_end b <= block \/ block + n * PAGE_SIZE <= blk_addr b) as Hd
    by (intros b; by apply (fresh_run_disjoint h (l1 ++ l2))).
  destruct Hi as (Hfa & Hs & Hl & Ho).
  assert (forall g, f <= g < f + n -> 0 < g < fa_total (h_frames h)) as Hfr.
  { intros g Hg. apply (fa_free_bound _ _ Hfa). by eapply frames_sub_elem. }
  pose proof (Hfr f ltac:(lia)). split.
  - apply laid_out_insert; simpl; unfold block, ALIGN, KERNEL_BASE, BLOCK_HEADER_SIZE, PAGE_SIZE in *; [done|lia|lia_div|lia|lia_div| |].
    + intros b Hb. specialize (H1 b Hb). destruct (Hd b ltac:(set_solver)); lia.
    + intros b Hb. specialize (H2 b Hb). pose proof (laid_out_elem _ _ b Hl ltac:(set_solver)).
      destruct (Hd b ltac:(set_solver)); [|lia]. unfold blk_end, BLOCK_HEADER_SIZE in *. lia.
  - intros b x Hb Hx. simpl. rewrite Ht, Hfree. unfold l in Hb. rewrite elem_of_app, elem_of_cons in Hb.
    destruct Hb as [Hb|[->|Hb]]; [destruct (Ho b x ltac:(set_solver) Hx); set_solver| |
      destruct (Ho b x ltac:(set_solver) Hx); set_solver].
    simpl in Hx. assert (f <= frame_of x < f + n) as Hg.
    { unfold frame_of, block, BLOCK_HEADER_SIZE, PAGE_SIZE in *. lia_div. }
    split; [by apply Hfr|]. rewrite elem_of_difference, elem_of_frames. tauto.
Qed.

Lemma insert_point_spec h fuel b0 l block lo :
  lseg (h_mem h) (blk_addr b0) (b0 :: l) 0 -> laid_out lo (b0 :: l) -> blk_addr b0 < block ->
  block ∉ blk_addr <$> l -> (length l < fuel)%nat ->
  wp (insert_point fuel (blk_addr b0) block) (fun r h' => h' = h /\
    exists l1 b l2, b0 :: l = l1 ++ b :: l2 /\ r = blk_addr b /\ r < block /\
      (forall b', b' ∈ l2 -> block < blk_addr b')) h.
Proof.
  revert b0 l lo; induction fuel as [|fuel IH]; intros b0 l lo Hs Hl Hb0 Hn Hf; [lia|]. cbn [insert_point].
  destruct Hs as (_ & H0 & nx & Hm & Hs). destruct Hl as (_ & _ & _ & _ & Hl).
  wp_step. eapply wp_load; [done|]. cbn [b_next]. destruct l as [|b1 l].
  { simpl in Hs. subst nx. rewrite Z.eqb_refl. cbn [negb andb]. wp_steps. split; [done|].
    exists [], b0, []. split_and!; [done..|set_solver]. }
  pose proof Hs as (-> & Hnz & _). rewrite (proj2 (Z.eqb_neq _ _)) by done. cbn [negb andb].
  rewrite fmap_cons, not_elem_of_cons in Hn. destruct Hn as [Hn1 Hn]. simpl in Hf.
  destruct (Z.ltb_spec (blk_addr b1) block).
  - eapply wp_mono; [apply (IH b1 l (blk_end b0)); [done..|lia]|].
    intros r h' (-> & l1 & b & l2 & E & ? & ? & ?). split; [done|].
    exists (b0 :: l1), b, l2. rewrite E. done.
  - wp_steps. split; [done|]. exists [], b0, (b1 :: l). split_and!; [done..|].
    intros b' Hb'. destruct (laid_out_ge _ _ b' Hl Hb') as [? ?].
    apply elem_of_cons in Hb' as [->|Hb']; [lia|]. destruct Hl as (? & ? & ? & ? & Hl).
    destruct (laid_out_ge _ _ b' Hl Hb'). unfold blk_end, BLOCK_HEADER_SIZE in *. lia.
Qed.

Lemma fresh_addr h l f n :
  heap_inv h l -> 0 < n -> frames f n ⊆ fa_free (h_frames h) ->
  KERNEL_BASE + f * PAGE_SIZE ∉ blk_addr <$> l.
Proof.
  intros Hi Hn Hsub (b & E & Hb)%list_elem_of_fmap. pose proof (fresh_run_disjoint h l f n b Hi Hn Hsub Hb) as Hd.
  destruct (heap_bounds _ _ _ Hi Hb) as (_ & _ & ?). unfold blk_end, BLOCK_HEADER_SIZE, PAGE_SIZE in *. simpl in Hd. lia.
Qed.

Lemma expand_size size :
  0 < size <= 2 ^ 62 ->
  let n := u64 (u64 (size + BLOCK_HEADER_SIZE) + PAGE_SIZE - 1) / PAGE_SIZE in
  0 < n /\ size <= n * PAGE_SIZE - BLOCK_HEADER_SIZE.
Proof.
  intros Hs. unfold BLOCK_HEADER_SIZE, PAGE_SIZE. rewrite (u64_small (size + 32)) by lia.
  rewrite u64_small by lia. lia_div.
Qed.

(** What growing promises: a block of at least [size] bytes, in use or about
    to be, while every other block keeps its state. *)
Definition expand_post (h : heap F) (l : list blk) (size : Z) (r : Z) (h' : heap F) : Prop :=
  (r = 0 /\ heap_inv h' l /\ fa_free (h_frames h') = fa_free (h_frames h)) \/
  (exists l1 s f l2, r <> 0 /\ size <= s /\ heap_inv h' (l1 ++ (r, s, f) :: l2)
     /\ in_use l = in_use (l1 ++ l2) /\ heap_total h' (l1 ++ (r, s, f) :: l2) = heap_total h l).

Lemma heap_total_grow h fr f n l l' :
  0 < n -> frames f n ⊆ fa_free (h_frames h) -> fa_free fr = fa_free (h_frames h) ∖ frames f n ->
  forall h', h_frames h' = fr -> extent l' = extent l + n * PAGE_SIZE -> heap_total h' l' = heap_total h l.
Proof.
  intros Hn Hsub Hfree h' Hf Hext. unfold heap_total. rewrite Hf, Hfree, size_difference, Hext by done.
  pose proof (size_frames f n ltac:(lia)). apply subseteq_size in Hsub. unfold PAGE_SIZE. lia.
Qed.

(** Linking the fresh block in front of the list or behind [b]. *)
Lemma lseg_push m p l block s :
  lseg m p l 0 -> block ∉ blk_addr <$> l -> block <> 0 ->
  lseg (<[block := MkBlock s p false]> m) block ((block, s, false) :: l) 0.
Proof.
  intros Hl Hn H0. simpl. split_and!; [done|done|]. exists p. split; [by rewrite lookup_insert_eq|].
  by apply lseg_update.
Qed.

Lemma lseg_link m p l1 c sc fc l2 block s nc lo :
  lseg m p (l1 ++ (c, sc, fc) :: l2) 0 -> laid_out lo (l1 ++ (c, sc, fc) :: l2) ->
  m !! c = Some (MkBlock sc nc fc) -> block ∉ blk_addr <$> (l1 ++ (c, sc, fc) :: l2) -> block <> 0 ->
  lseg (<[c := MkBlock sc block fc]> (<[block := MkBlock s nc false]> m)) p
       (l1 ++ (c, sc, fc) :: (block, s, false) :: l2) 0.
Proof.
  intros Hs Hl Hm Hn H0. destruct (laid_out_fresh _ _ _ _ Hl) as [Hc1 Hc2].
  destruct (lseg_split _ _ _ _ _ Hs) as (nx & H1 & Hc0 & Hm' & H2). simpl in *.
  rewrite fmap_app, fmap_cons, not_elem_of_app, not_elem_of_cons in Hn. destruct Hn as (Hn1 & Hnc & Hn2).
  simpl in *. simplify_eq. eapply lseg_join with (nx := block); simpl; [by rewrite !lseg_update|done|by rewrite lookup_insert_eq|].
  split_and!; [done|done|]. exists nc. rewrite lookup_insert_ne, lookup_insert_eq by done.
  split; [done|]. by rewrite !lseg_update.
Qed.

Lemma in_use_insert l1 b l2 : blk_free b = true -> in_use (l1 ++ b :: l2) = in_use (l1 ++ l2).
Proof. intros E. by rewrite !in_use_app, in_use_cons, E. Qed.

Lemma phys_to_virt_frame f : 0 < f < 262144 -> phys_to_virt (f * PAGE_SIZE) = KERNEL_BASE + f * PAGE_SIZE.
Proof. intros. unfold phys_to_virt, PAGE_SIZE, KERNEL_BASE. rewrite u64_small; lia. Qed.

(** The tail of k_expand_heap once the block sits behind [c]. *)
Lemma expand_merge h l1 c sc fc block s l2 size :
  heap_inv h (l1 ++ (c, sc, fc) :: (block, s, false) :: l2) -> size <= s ->
  wp (x ← load c; adj ← adjacent c block;
      if b_is_free x && adj then
        b ← load block;
        _ ← update c (fun x => with_size (u64 (b_size x + u64 (b_size b + BLOCK_HEADER_SIZE))) x);
        _ ← update c (with_next (b_next b));
        mret c
      else mret block)
     (fun r h' => exists l1' s' f' l2', r <> 0 /\ size <= s' /\ heap_inv h' (l1' ++ (r, s', f') :: l2')
        /\ in_use (l1 ++ (c, sc, fc) :: l2) = in_use (l1' ++ l2') /\ h_frames h' = h_frames h
        /\ extent (l1' ++ (r, s', f') :: l2') = extent (l1 ++ (c, sc, fc) :: (block, s, false) :: l2)) h.
Proof.
  intros Hi Hsz. destruct (heap_bounds _ _ (c, sc, fc) Hi ltac:(set_solver)) as (Hlo & Hhi & ?).
  destruct (heap_bounds _ _ (block, s, false) Hi ltac:(set_solver)) as (Hblo & Hbhi & ?). simpl in *.
  pose proof Hi as (_ & Hs & Hl & _).
  destruct (lseg_split _ _ _ _ _ Hs) as (nx & _ & Hc0 & Hm & (-> & Hb0 & nb & Hmb & _)). simpl in *.
  assert (block <> c) as Hne.
  { destruct (laid_out_fresh _ _ _ _ Hl) as [_ Hf]. simpl in Hf. set_solver. }
  wp_step. eapply wp_load; [done|]. wp_step. eapply wp_adjacent; [done|]. cbn [b_size b_is_free].
  rewrite u64_small by (unfold KERNEL_BASE, PAGE_SIZE, BLOCK_HEADER_SIZE in *; lia).
  destruct (fc && (c + BLOCK_HEADER_SIZE + sc =? block)) eqn:E.
  2: { wp_steps. exists (l1 ++ [(c, sc, fc)]), s, false, l2. rewrite <- !app_assoc. done. }
  apply andb_true_iff in E as [-> E%Z.eqb_eq]. wp_step. eapply wp_load; [done|]. cbn [b_size b_next].
  wp_step. eapply wp_update; [done|]. wp_step. eapply wp_update; [simpl; by rewrite lookup_insert_eq|].
  wp_steps. simpl. rewrite insert_insert_eq. unfold with_next, with_size; simpl.
  rewrite (u64_small (s + BLOCK_HEADER_SIZE)) by (unfold KERNEL_BASE, PAGE_SIZE, BLOCK_HEADER_SIZE in *; lia).
  rewrite u64_small by (unfold KERNEL_BASE, PAGE_SIZE, BLOCK_HEADER_SIZE in *; lia).
  exists l1, (sc + (s + BLOCK_HEADER_SIZE)), true, l2.
  split_and!; [done|unfold BLOCK_HEADER_SIZE; lia| |by apply in_use_insert|done|].
  - by apply (heap_inv_merge h l1 c sc true block s false l2 nb).
  - rewrite !extent_app. simpl. unfold BLOCK_HEADER_SIZE. lia.
Qed.

Lemma expand_ok h l size :
  heap_inv h l -> 0 < size <= 2 ^ 62 -> wp (k_expand_heap size) (expand_post h l size) h.
Proof.
  intros Hi Hsz. unfold k_expand_heap. destruct (expand_size size Hsz) as [Hn Hle].
  set (n := u64 (u64 (size + BLOCK_HEADER_SIZE) + PAGE_SIZE - 1) / PAGE_SIZE) in *.
  wp_step. apply wp_on_frames. pose proof Hi as (Hfa & Hs & Hl & Ho).
  eapply wp_mono; [by apply fa_alloc_ok|]. intros r fr (Hfa' & Ht & [(-> & Hfree & _)|(f & -> & Hsub & Hfree)]).
  { rewrite Z.eqb_refl. wp_steps. left. split_and!; [done| |done]. split_and!; [done..|].
    intros b x Hb Hx. simpl. rewrite Ht, Hfree. by eapply Ho. }
  pose proof (fa_total_bound _ Hfa). pose proof (fa_free_bound _ f Hfa ltac:(eapply frames_sub_elem; [done|lia])).
  pose proof (fa_free_bound _ (f + n - 1) Hfa ltac:(eapply frames_sub_elem; [done|lia])).
  rewrite (proj2 (Z.eqb_neq _ _)) by (unfold PAGE_SIZE, PHYS_ADDR_INVALID; lia).
  rewrite phys_to_virt_frame by lia. pose proof (fresh_addr h l f n Hi Hn Hsub) as Hnew.
  rewrite u64_small by (unfold PAGE_SIZE, BLOCK_HEADER_SIZE in *; lia).
  set (block := KERNEL_BASE + f * PAGE_SIZE) in *. set (s := n * PAGE_SIZE - BLOCK_HEADER_SIZE) in *.
  assert (block <> 0) as Hb0 by (unfold block, KERNEL_BASE, PAGE_SIZE; lia).
  wp_step. apply wp_put_block. wp_step. wp_step. simpl free_list.
  assert (forall h', h_frames h' = fr -> forall l', extent l' = extent l + (BLOCK_HEADER_SIZE + s) ->
            heap_total h' l' = heap_total h l) as Htot.
  { intros h' Hh' l' He. eapply heap_total_grow; [done..|]. unfold s in He. lia. }
  destruct ((free_list h =? 0) || (block <? free_list h)) eqn:Ehead.
  - wp_step. eapply wp_update; [simpl; by rewrite lookup_insert_eq|]. wp_steps. simpl.
    rewrite insert_insert_eq. unfold with_next; simpl. right. exists [], s, false, l.
    destruct (heap_inv_grow h [] l f n fr) as [Hl' Ho']; [done..|set_solver| |].
    { intros b Hb. destruct l as [|b0 l']; [set_solver|]. destruct Hs as (Hp & Hp0 & _). rewrite Hp in *.
      rewrite (proj2 (Z.eqb_neq _ _)) in Ehead by done. simpl in Ehead. apply Z.ltb_lt in Ehead.
      apply elem_of_cons in Hb as [->|Hb]; [done|]. pose proof (laid_out_above 0 [] b0 l' b Hl Hb).
      pose proof (laid_out_elem _ _ b0 Hl ltac:(set_solver)). unfold blk_end, BLOCK_HEADER_SIZE in *. lia. }
    split_and!; [done|lia| |done|apply Htot; simpl; [done|lia]].
    split_and!; [done| |done|done]. simpl. by apply lseg_push.
  - apply orb_false_iff in Ehead as [E0%Z.eqb_neq E1%Z.ltb_ge].
    destruct l as [|b0 l']; [done|]. pose proof Hs as (Hp & _ & _). rewrite Hp in *.
    rewrite fmap_cons, not_elem_of_cons in Hnew. destruct Hnew as [Hnew0 Hnew'].
    wp_step. set (h1 := set_mem _ _). assert (lseg (h_mem h1) (blk_addr b0) (b0 :: l') 0) as Hs1.
    { unfold h1, set_mem. cbn [h_mem]. apply lseg_update; [rewrite fmap_cons; set_solver|done]. }
    eapply wp_mono; [apply (insert_point_spec h1 _ b0 l' block 0); [done|done|lia|done|]|].
    { pose proof (lseg_length _ _ _ _ _ Hs1 Hl). unfold list_fuel. simpl in *. lia. }
    intros cur h2 (-> & l1 & [[c sc] fc] & l2 & El & -> & Hc & Habove). simpl in Hc |- *.
    assert (block ∉ blk_addr <$> (b0 :: l')) as Hfresh by (rewrite fmap_cons; set_solver).
    rewrite El in *. clear Hs1 El Hnew0 Hnew'.
    destruct (lseg_split _ _ _ _ _ Hs) as (nc & _ & _ & Hmc & _). simpl in Hmc.
    assert (c <> block) as Hne by lia.
    wp_step. eapply wp_load; [simpl; by rewrite lookup_insert_ne|].
    wp_step. eapply wp_update; [simpl; by rewrite lookup_insert_eq|].
    wp_step. eapply wp_update; [simpl; rewrite insert_insert_eq; by rewrite lookup_insert_ne|].
    unfold with_next. simpl. rewrite insert_insert_eq.
    destruct (heap_inv_grow h (l1 ++ [(c, sc, fc)]) l2 f n fr) as [Hl' Ho'];
      [by rewrite <- app_assoc|done..| |done|].
    { intros b. rewrite elem_of_app, list_elem_of_singleton. intros [Hb| ->]; [|done].
      pose proof (laid_out_below _ _ _ _ _ Hl Hb). pose proof (laid_out_elem _ _ b Hl ltac:(set_solver)).
      unfold blk_end, BLOCK_HEADER_SIZE in *. simpl in *. lia. }
    rewrite <- app_assoc in Hl', Ho'. simpl in Hl', Ho'.
    eapply wp_mono; [apply (expand_merge _ l1 c sc fc block s l2 size)|].
    + split_and!; [done| |done|done]. simpl. rewrite Hp. by eapply lseg_link.
    + done.
    + intros r h' (l1' & s' & f' & l2' & Hr & Hs' & Hi' & Huse & Hfr & Hext). right.
      exists l1', s', f', l2'. split_and!; [done..|]. apply Htot; [done|]. rewrite Hext, !extent_app. simpl. lia.
Qed.

(** *** k_malloc *)

Lemma round_size size :
  0 < size <= 2 ^ 61 ->
  let sz := Z.land (u64 (size + ALIGN - 1)) (u64 (Z.lnot (ALIGN - 1))) in
  size <= sz <= 2 ^ 62 /\ sz mod ALIGN = 0.
Proof.
  intros Hs. change (ALIGN - 1) with (2 ^ 4 - 1). unfold ALIGN. rewrite u64_small by lia.
  rewrite align_mask by lia. change (2 ^ 4) with 16. lia_div.
Qed.

Lemma take_block h l1 r s f l2 size :
  heap_inv h (l1 ++ (r, s, f) :: l2) -> 0 < size <= s -> size mod ALIGN = 0 ->
  wp (_ ← update r (with_free false); _ ← split r size; mret (u64 (r + BLOCK_HEADER_SIZE)))
     (fun p h' => exists l' s', heap_inv h' l' /\ h_frames h' = h_frames h
        /\ extent l' = extent (l1 ++ (r, s, f) :: l2) /\ size <= s' /\ p = r + BLOCK_HEADER_SIZE
        /\ in_use l' ≡ₚ (r, s') :: in_use (l1 ++ l2)) h.
Proof.
  intros Hi Hsz Hal. destruct (heap_bounds _ _ (r, s, f) Hi ltac:(set_solver)) as (Hlo & Hhi & _). simpl in *.
  destruct (heap_inv_flag _ _ _ _ _ false _ Hi) as (nx & Hm & Hi').
  wp_step. eapply wp_update; [done|]. wp_step.
  eapply wp_mono; [apply (split_ok _ l1 r s l2 size); [done|lia|done]|].
  intros [] h' (s' & tail & Hs' & Htail & Hi'' & Hfr & Hext). wp_steps.
  exists (l1 ++ (r, s', false) :: tail ++ l2), s'. split_and!; [done|done| |lia| |].
  - rewrite !extent_app. simpl in Hext |- *. rewrite extent_app. lia.
  - apply u64_small. unfold KERNEL_BASE, PAGE_SIZE, BLOCK_HEADER_SIZE in *. lia.
  - assert (in_use tail = []) as Ht.
    { unfold in_use. replace (filter _ tail) with (@nil blk); [done|]. symmetry.
      clear - Htail. induction Htail as [|b t Hb _ IH]; [done|]. rewrite filter_cons_False by congruence. done. }
    rewrite !in_use_app, in_use_cons, in_use_app, Ht. simpl. by rewrite Permutation_middle.
Qed.

(** Allocation adds one block to those in use, keeps all others as they are,
    and neither loses nor invents memory. *)
Definition malloc_post (h : heap F) (l : list blk) (size p : Z) (h' : heap F) : Prop :=
  exists l', heap_inv h' l' /\ heap_total h' l' = heap_total h l /\
    (p = 0 /\ in_use l' = in_use l \/
     exists s, size <= s /\ p mod ALIGN = 0 /\ in_use l' ≡ₚ (p - BLOCK_HEADER_SIZE, s) :: in_use l).

Lemma block_aligned h l b : heap_inv h l -> b ∈ l -> (blk_addr b + BLOCK_HEADER_SIZE) mod ALIGN = 0.
Proof.
  intros (_ & _ & Hl & _) (l1 & l2 & ->)%list_elem_of_split. rewrite laid_out_app in Hl.
  destruct Hl as [_ (_ & Ha & _)]. unfold BLOCK_HEADER_SIZE, ALIGN in *. lia_div.
Qed.

Lemma malloc_ok h l size :
  heap_inv h l -> 0 <= size <= 2 ^ 61 -> wp (k_malloc size) (malloc_post h l size) h.
Proof.
  intros Hi Hsz. unfold k_malloc. destruct (Z.eqb_spec size 0).
  { wp_steps. exists l. split_and!; [done|done|]. by left. }
  destruct (round_size size) as [Hr Hal]; [lia|]. cbv zeta. set (sz := Z.land _ _) in *.
  pose proof Hi as (_ & Hs & Hl & _).
  wp_step. unfold k_find_free_block. wp_step. wp_step.
  eapply wp_mono; [apply (find_free_spec h _ _ l sz); [done|]|].
  { pose proof (lseg_length _ _ _ _ _ Hs Hl). unfold list_fuel. lia. }
  assert (forall l1 r s f l2 h', heap_inv h' (l1 ++ (r, s, f) :: l2) -> sz <= s -> in_use l = in_use (l1 ++ l2) ->
            heap_total h' (l1 ++ (r, s, f) :: l2) = heap_total h l ->
            wp (_ ← update r (with_free false); _ ← split r sz; mret (u64 (r + BLOCK_HEADER_SIZE)))
               (malloc_post h l size) h') as Htake.
  { intros l1 r s f l2 h' Hi' Hle Huse Htot. eapply wp_mono; [apply (take_block h' l1 r s f l2 sz); [done|lia|done]|].
    intros p h'' (l' & s' & Hi'' & Hfr & Hext & Hs' & -> & Hp). exists l'. split_and!; [done| |right].
    - unfold heap_total in *. by rewrite Hfr, Hext.
    - exists s'. split_and!; [lia|apply (block_aligned _ _ (r, s, f) Hi'); set_solver|].
      rewrite Huse. by replace (r + BLOCK_HEADER_SIZE - BLOCK_HEADER_SIZE) with r by lia. }
  intros r h1 [-> [->|(l1 & s & l2 & -> & Hle & Hr0)]].
  - rewrite Z.eqb_refl. wp_step. eapply wp_mono; [apply expand_ok; [done|lia]|].
    intros b h' [(-> & Hi' & Hfree)|(l1 & s & f & l2 & Hb & Hle & Hi' & Huse & Htot)].
    + rewrite Z.eqb_refl. wp_steps. exists l. split_and!; [done| |by left]. unfold heap_total. by rewrite Hfree.
    + rewrite (proj2 (Z.eqb_neq _ _)) by done. by eapply Htake.
  - rewrite (proj2 (Z.eqb_neq r 0)) by done. wp_step. wp_step. rewrite (proj2 (Z.eqb_neq r 0)) by done.
    eapply Htake; [done|done|by apply in_use_insert|done].
Qed.

(** *** k_free *)

(** Merging the free block [b] behind [a] into [a]. *)
Lemma merge_step h l1 a s f b s2 l2 nx :
  heap_inv h (l1 ++ (a, s, f) :: (b, s2, true) :: l2) -> a + BLOCK_HEADER_SIZE + s = b ->
  h_mem h !! b = Some (MkBlock s2 nx true) ->
  wp (_ ← update a (fun x => with_size (u64 (b_size x + u64 (s2 + BLOCK_HEADER_SIZE))) x);
      update a (with_next nx))
     (fun _ h' => h_frames h' = h_frames h /\
        heap_inv h' (l1 ++ (a, s + (s2 + BLOCK_HEADER_SIZE), f) :: l2)) h.
Proof.
  intros Hi Hadj Hm. destruct (heap_bounds _ _ (a, s, f) Hi ltac:(set_solver)) as (Hlo & _ & ?).
  destruct (heap_bounds _ _ (b, s2, true) Hi ltac:(set_solver)) as (_ & Hhi & ?). simpl in *.
  pose proof Hi as (_ & Hs & _ & _). destruct (lseg_split _ _ _ _ _ Hs) as (na & _ & _ & Hma & _). simpl in *.
  wp_step. eapply wp_update; [done|]. eapply wp_update; [simpl; by rewrite lookup_insert_eq|].
  simpl. rewrite insert_insert_eq. unfold with_next, with_size; simpl.
  rewrite (u64_small (s2 + BLOCK_HEADER_SIZE)) by (unfold KERNEL_BASE, PAGE_SIZE, BLOCK_HEADER_SIZE in *; lia).
  rewrite u64_small by (unfold KERNEL_BASE, PAGE_SIZE, BLOCK_HEADER_SIZE in *; lia).
  split; [done|]. by apply (heap_inv_merge h l1 a s f b s2 true l2 nx).
Qed.

Lemma adjacent_ok h l a s f nx b :
  heap_inv h l -> (a, s, f) ∈ l -> h_mem h !! a = Some (MkBlock s nx f) ->
  wp (adjacent a b) (fun r h' => h' = h /\ r = (a + BLOCK_HEADER_SIZE + s =? b)) h.
Proof.
  intros Hi Hin Hm. destruct (heap_bounds _ _ _ Hi Hin) as (Hlo & Hhi & ?). simpl in *.
  eapply wp_adjacent; [done|]. cbn [b_size].
  by rewrite u64_small by (unfold KERNEL_BASE, PAGE_SIZE, BLOCK_HEADER_SIZE in *; lia).
Qed.

(** The freed block may swallow its successor, never one in use. *)
Lemma merge_next_ok h l1 a s l2 :
  heap_inv h (l1 ++ (a, s, true) :: l2) ->
  wp (merge_next a) (fun _ h' => exists s' l2', heap_inv h' (l1 ++ (a, s', true) :: l2')
    /\ h_frames h' = h_frames h /\ in_use l2' = in_use l2
    /\ extent ((a, s', true) :: l2') = extent ((a, s, true) :: l2)) h.
Proof.
  intros Hi. pose proof Hi as (_ & Hs & _ & _). destruct (lseg_split _ _ _ _ _ Hs) as (nx & _ & Ha0 & Hm & Hs2).
  simpl in *. unfold merge_next. wp_step. eapply wp_load; [done|]. cbn [b_next].
  destruct l2 as [|[[b s2] f2] l2].
  { simpl in Hs2. subst nx. rewrite Z.eqb_refl. wp_steps. by exists s, []. }
  destruct Hs2 as (-> & Hb0 & nb & Hmb & _). simpl in *. rewrite (proj2 (Z.eqb_neq _ _)) by done.
  wp_step. eapply wp_load; [done|]. wp_step. eapply wp_mono; [apply (adjacent_ok h _ a s true b b Hi); [set_solver|done]|].
  intros r h' [-> ->]. cbn [b_is_free b_size b_next]. destruct (f2 && (a + BLOCK_HEADER_SIZE + s =? b)) eqn:E; cbn [when].
  - apply andb_true_iff in E as [-> E%Z.eqb_eq]. eapply wp_mono; [by eapply merge_step|].
    intros [] h' [Hfr Hi']. exists (s + (s2 + BLOCK_HEADER_SIZE)), l2. split_and!; [done|done|by rewrite in_use_cons|].
    unfold BLOCK_HEADER_SIZE. lia.
  - wp_steps. by exists s, ((b, s2, f2) :: l2).
Qed.

(** The walk for the predecessor ends without one at the head of the list. *)
Lemma merge_prev_none h fuel p l block :
  lseg (h_mem h) p l 0 -> (length l < fuel)%nat -> block <> 0 -> block ∉ blk_addr <$> tail l ->
  wp (merge_prev fuel p block) (fun _ h' => h' = h) h.
Proof.
  revert p l; induction fuel as [|fuel IH]; intros p l Hs Hf Hb0 Hn; [lia|]. cbn [merge_prev].
  destruct l as [|b l]. { simpl in Hs. subst p. rewrite Z.eqb_refl. by wp_steps. }
  destruct Hs as (-> & H0 & nx & Hm & Hs). rewrite (proj2 (Z.eqb_neq _ _)) by done.
  wp_step. eapply wp_load; [done|]. cbn [b_next]. simpl in Hn, Hf.
  assert (nx <> block) as Hne.
  { destruct l as [|b1 l]; simpl in Hs; [congruence|]. destruct Hs as (-> & _). rewrite fmap_cons in Hn. set_solver. }
  rewrite (proj2 (Z.eqb_neq _ _)) by done. apply (IH nx l); [done|lia|done|].
  destruct l; [set_solver|]. rewrite fmap_cons in Hn. set_solver.
Qed.

(** Otherwise it reaches the block in front. *)
Lemma merge_prev_walk h fuel p l1 c b l2 (Q : unit -> heap F -> Prop) :
  lseg (h_mem h) p (l1 ++ c :: b :: l2) 0 -> blk_addr b ∉ blk_addr <$> (l1 ++ [c]) -> (length l1 < fuel)%nat ->
  (forall fuel', wp (merge_prev (S fuel') (blk_addr c) (blk_addr b)) Q h) ->
  wp (merge_prev fuel p (blk_addr b)) Q h.
Proof.
  intros Hs Hn Hf HQ. revert p l1 Hs Hn Hf; induction fuel as [|fuel IH]; intros p l1 Hs Hn Hf; [lia|].
  destruct l1 as [|b1 l1]; [destruct Hs as (-> & _); apply HQ|]. simpl in Hf. cbn [merge_prev].
  destruct Hs as (-> & H0 & nx & Hm & Hs). rewrite <- app_comm_cons, fmap_cons, not_elem_of_cons in Hn.
  destruct Hn as [Hn1 Hn]. rewrite (proj2 (Z.eqb_neq _ _)) by done.
  wp_step. eapply wp_load; [done|]. cbn [b_next]. rewrite (proj2 (Z.eqb_neq _ _)).
  - apply (IH nx l1); [done|done|lia].
  - destruct l1 as [|b2 l1]; destruct Hs as (-> & _); simpl in Hn; rewrite not_elem_of_cons in Hn; naive_solver.
Qed.

Lemma merge_prev_ok h l1 a s l2 :
  heap_inv h (l1 ++ (a, s, true) :: l2) ->
  wp (merge_prev (list_fuel h) (free_list h) a) (fun _ h' => exists l', heap_inv h' l'
    /\ h_frames h' = h_frames h /\ in_use l' = in_use (l1 ++ l2)
    /\ extent l' = extent (l1 ++ (a, s, true) :: l2)) h.
Proof.
  intros Hi. pose proof Hi as (_ & Hs & Hl & _). destruct (laid_out_fresh _ _ _ _ Hl) as [Hf1 Hf2].
  pose proof (lseg_length _ _ _ _ _ Hs Hl) as Hlen. rewrite length_app in Hlen. simpl in Hlen, Hf1, Hf2.
  destruct (lseg_split _ _ _ _ _ Hs) as (nx & _ & Ha0 & Hma & _). simpl in Ha0, Hma.
  destruct l1 as [|[[c sc] fc] l1 _] using rev_ind.
  { eapply wp_mono; [apply (merge_prev_none h _ _ ((a, s, true) :: l2)); [done|unfold list_fuel; simpl in *; lia|done|done]|].
    intros [] h' ->. exists ((a, s, true) :: l2). split_and!; [done|done|by rewrite in_use_cons|done]. }
  rewrite <- app_assoc in Hs, Hi. rewrite length_app in Hlen. simpl in Hs, Hi, Hlen.
  apply (merge_prev_walk h _ _ l1 (c, sc, fc) (a, s, true) l2); [done|done|unfold list_fuel; lia|].
  intros fuel'. simpl blk_addr. cbn [merge_prev].
  destruct (lseg_split _ _ _ _ _ Hs) as (nc & _ & Hc0 & Hmc & (-> & _)). simpl in *.
  rewrite (proj2 (Z.eqb_neq _ _)) by done. wp_step. eapply wp_load; [done|]. cbn [b_next]. rewrite Z.eqb_refl.
  wp_step. eapply wp_mono; [apply (adjacent_ok h _ c sc fc a a Hi); [set_solver|done]|].
  intros r h' [-> ->]. cbn [b_is_free]. destruct (fc && (c + BLOCK_HEADER_SIZE + sc =? a)) eqn:E; cbn [when].
  - apply andb_true_iff in E as [-> E%Z.eqb_eq]. wp_step. eapply wp_load; [done|]. cbn [b_size b_next].
    eapply wp_mono; [by eapply merge_step|]. intros [] h' [Hfr Hi'].
    exists (l1 ++ (c, sc + (s + BLOCK_HEADER_SIZE), true) :: l2). split_and!; [done|done| |].
    + by rewrite <- app_assoc, !in_use_app, !in_use_cons.
    + rewrite <- app_assoc, !extent_app. simpl. unfold BLOCK_HEADER_SIZE. lia.
  - wp_steps. exists (l1 ++ (c, sc, fc) :: (a, s, true) :: l2). rewrite <- !app_assoc.
    split_and!; [done|done| |done]. simpl. by rewrite !in_use_app, !in_use_cons.
Qed.

Definition free_post (h : heap F) (l : list blk) (p s : Z) (h' : heap F) : Prop :=
  exists l', heap_inv h' l' /\ heap_total h' l' = heap_total h l
    /\ in_use l ≡ₚ (p - BLOCK_HEADER_SIZE, s) :: in_use l'.

Lemma in_use_elem l a s : (a, s) ∈ in_use l -> (a, s, false) ∈ l.
Proof.
  unfold in_use. intros ([[a' s'] f] & [= -> ->] & [Hf Hb]%list_elem_of_filter)%list_elem_of_fmap.
  simpl in Hf. by subst f.
Qed.

Lemma free_ok h l p s :
  heap_inv h l -> (p - BLOCK_HEADER_SIZE, s) ∈ in_use l -> wp (k_free p) (fun _ => free_post h l p s) h.
Proof.
  intros Hi Hp. apply in_use_elem in Hp as Hin. destruct (heap_bounds _ _ _ Hi Hin) as (Hlo & Hhi & ?).
  apply list_elem_of_split in Hin as (l1 & l2 & ->). simpl in *. set (a := p - BLOCK_HEADER_SIZE) in *.
  unfold KERNEL_BASE, PAGE_SIZE, BLOCK_HEADER_SIZE in *.
  unfold k_free. rewrite (proj2 (Z.eqb_neq _ _)) by (unfold a in *; lia).
  unfold BLOCK_HEADER_SIZE. rewrite u64_small by (unfold a in *; lia). fold a.
  destruct (heap_inv_flag _ _ _ _ _ true _ Hi) as (nx & Hm & Hi').
  wp_step. eapply wp_update; [done|]. wp_step. eapply wp_mono; [by apply merge_next_ok|].
  intros [] h1 (s1 & l3 & Hi1 & Hfr1 & Huse1 & Hext1). wp_step. wp_step.
  eapply wp_mono; [by apply merge_prev_ok|]. intros [] h2 (l' & Hi2 & Hfr2 & Huse2 & Hext2).
  exists l'. split_and!; [done| |].
  - unfold heap_total. rewrite Hfr2, Hfr1, Hext2, !extent_app, Hext1. simpl. lia.
  - rewrite Huse2, !in_use_app, Huse1, in_use_cons. simpl. fold a. by rewrite Permutation_middle.
Qed.

(** *** Initialisation *)

Lemma heap_init_ok h :
  fa_inv (h_frames h) -> free_list h = 0 ->
  wp k_heap_init (fun _ h' => exists l, heap_inv h' l /\ in_use l = []) h.
Proof.
  intros Hfa Hfl. unfold k_heap_init. wp_step. apply wp_on_frames. eapply wp_mono; [by apply fa_alloc_ok|].
  intros r fr (Hfa' & Ht & [(-> & Hfree & _)|(f & -> & Hsub & Hfree)]).
  { rewrite Z.eqb_refl. wp_steps. exists []. split; [|done]. split_and!; [done|done|done|]. intros b x Hb. set_solver. }
  pose proof (fa_total_bound _ Hfa). pose proof (fa_free_bound _ f Hfa ltac:(eapply frames_sub_elem; [done|lia])).
  rewrite (proj2 (Z.eqb_neq _ _)) by (unfold PAGE_SIZE, PHYS_ADDR_INVALID; lia).
  rewrite phys_to_virt_frame by lia. wp_steps. apply wp_put_block. wp_steps.
  set (a := KERNEL_BASE + f * PAGE_SIZE). exists [(a, PAGE_SIZE - BLOCK_HEADER_SIZE, true)]. split; [|done].
  assert (heap_inv (set_free_list 0 h) ([] ++ [])) as Hnil.
  { split_and!; [done|done|done|]. intros b x Hb. set_solver. }
  destruct (heap_inv_grow _ [] [] f 1 fr Hnil) as [Hl Ho]; [lia|done|done|done|set_solver|set_solver|].
  split_and!; [done| | |].
  - simpl. split_and!; [done|unfold a, KERNEL_BASE, PAGE_SIZE; lia|]. exists 0. by rewrite lookup_insert_eq.
  - exact Hl.
  - intros b x Hb Hx. apply (Ho (b.1, false) x); [|done].
    apply list_elem_of_singleton in Hb as ->. set_solver.
Qed.

(** *** Blocks in use never overlap *)

Lemma laid_out_disjoint lo l b1 b2 :
  laid_out lo l -> b1 ∈ l -> b2 ∈ l -> blk_addr b1 <> blk_addr b2 ->
  blk_end b1 <= blk_addr b2 \/ blk_end b2 <= blk_addr b1.
Proof.
  intros Hl (l1 & l2 & ->)%list_elem_of_split Hb2 Hne.
  apply elem_of_app in Hb2 as [Hb2|[->|Hb2]%elem_of_cons]; [|done|].
  - right. by eapply laid_out_below.
  - left. by eapply laid_out_above.
Qed.

Lemma in_use_NoDup lo l : laid_out lo l -> NoDup ((in_use l).*1).
Proof.
  intros Hl. apply laid_out_NoDup in Hl. unfold in_use. rewrite <- list_fmap_compose.
  change (compose fst _) with blk_addr. induction l as [|b l IH]; [constructor|].
  rewrite fmap_cons in Hl. apply NoDup_cons in Hl as [Hn Hl]. rewrite filter_cons. case_decide; [|auto].
  rewrite fmap_cons. constructor; [|auto]. rewrite list_elem_of_fmap in Hn |- *.
  intros (b' & E & Hb'). apply Hn. exists b'. split; [done|]. apply list_elem_of_filter in Hb'. tauto.
Qed.

(** Two allocations, headers included. *)
Definition apart (x y : Z * Z) : Prop :=
  x.1 + BLOCK_HEADER_SIZE + x.2 <= y.1 \/ y.1 + BLOCK_HEADER_SIZE + y.2 <= x.1.

Lemma in_use_apart lo l x U : laid_out lo l -> in_use l ≡ₚ x :: U -> Forall (apart x) U.
Proof.
  intros Hl Hp. pose proof (in_use_NoDup _ _ Hl) as Hnd. rewrite Hp, fmap_cons in Hnd.
  apply NoDup_cons in Hnd as [Hnd _]. apply Forall_forall. intros [a2 s2] Hy. destruct x as [a1 s1].
  assert ((a1, s1) ∈ in_use l) as H1%in_use_elem by (rewrite Hp; set_solver).
  assert ((a2, s2) ∈ in_use l) as H2%in_use_elem by (rewrite Hp; set_solver).
  apply (laid_out_disjoint _ _ _ _ Hl H1 H2). simpl. intros ->. apply Hnd.
  apply list_elem_of_fmap. by exists (a2, s2).
Qed.

(** C24: over any frame allocator that keeps its promise, [k_malloc] of up to
    2^61 bytes does not fault and keeps the heap well-formed. It returns NULL
    and leaves the blocks in use as they were, or a 16-byte aligned pointer to
    a block of at least [size] bytes that overlaps no block in use, header
    included; all other blocks in use stay, and no byte is lost. *)
Theorem k_malloc_correct (h : heap F) (l : list blk) size :
  heap_inv h l -> 0 <= size <= 2 ^ 61 ->
  wp (k_malloc size) (fun p h' => malloc_post h l size p h' /\
    (p <> 0 -> Forall (apart (p - BLOCK_HEADER_SIZE, size)) (in_use l))) h.
Proof.
  intros Hi Hsz. eapply wp_mono; [by apply malloc_ok|]. intros p h' Hpost. split; [done|]. intros Hp.
  destruct Hpost as (l' & (_ & _ & Hl' & _) & _ & [[? _]|(s & Hs & _ & Hu)]); [done|].
  eapply Forall_impl; [by eapply in_use_apart|]. intros [a n]. unfold apart; simpl. lia.
Qed.

(** [k_free] of a block in use does not fault, removes exactly that block
    from those in use, keeps the heap well-formed and loses no byte. *)
Theorem k_free_correct (h : heap F) (l : list blk) p s :
  heap_inv h l -> (p - BLOCK_HEADER_SIZE, s) ∈ in_use l -> wp (k_free p) (fun _ => free_post h l p s) h.
Proof. apply free_ok. Qed.
End HeapProofs.

(** ** The heap over the physical memory manager *)

(** A client's run: allocations of any size up to 2^61 bytes and frees of what
    it holds. [live] lists the pointers held, with the sizes asked for. *)
Inductive heap_step : heap pmm * list (Z * Z) -> heap pmm * list (Z * Z) -> Prop :=
| step_malloc h live size p h' :
    0 <= size <= 2 ^ 61 -> k_malloc size h = Some (p, h') -> p <> 0 ->
    heap_step (h, live) (h', (p, size) :: live)
| step_malloc_fail h live size h' :
    0 <= size <= 2 ^ 61 -> k_malloc size h = Some (0, h') -> heap_step (h, live) (h', live)
| step_free h l1 p size l2 h' :
    k_free p h = Some (tt, h') -> heap_step (h, l1 ++ (p, size) :: l2) (h', l1 ++ l2)
| step_free_null h live h' : k_free 0 h = Some (tt, h') -> heap_step (h, live) (h', live).

(** The client's view agrees with the heap's. *)
Definition holds (x y : Z * Z) : Prop := x.1 = y.1 - BLOCK_HEADER_SIZE /\ y.2 <= x.2.
Definition client_inv (c : heap pmm * list (Z * Z)) : Prop :=
  exists l U, heap_inv c.1 l /\ in_use l ≡ₚ U /\ Forall2 holds U c.2.

Lemma client_inv_step c c' : client_inv c -> heap_step c c' -> client_inv c'.
Proof.
  intros (l & U & Hi & Hu & Hh) Hs. destruct Hs as [h live size p h' Hsz E Hp|h live size h' Hsz E|h l1 p size l2 h' E|h live h' E];
    cbn [fst snd] in *.
  - pose proof (malloc_ok h l size Hi Hsz) as Hw. unfold wp in Hw. rewrite E in Hw.
    destruct Hw as (l' & Hi' & _ & [[? _]|(s & Hle & _ & Hu')]); [done|].
    exists l', ((p - BLOCK_HEADER_SIZE, s) :: U). split_and!; [done|by rewrite Hu', Hu|by constructor].
  - pose proof (malloc_ok h l size Hi Hsz) as Hw. unfold wp in Hw. rewrite E in Hw.
    destruct Hw as (l' & Hi' & _ & [[_ Hu']|(s & Hle & _ & Hu')]).
    + exists l', U. by rewrite Hu'.
    + exfalso. assert ((0 - BLOCK_HEADER_SIZE, s) ∈ in_use l') as Hin%in_use_elem by (rewrite Hu'; set_solver).
      destruct (heap_bounds _ _ _ Hi' Hin) as [Hb _]. simpl in Hb. unfold KERNEL_BASE, BLOCK_HEADER_SIZE, PAGE_SIZE in Hb. lia.
  - apply Forall2_app_inv_r in Hh as (U1 & U2 & Hh1 & Hh2 & ->).
    apply Forall2_cons_inv_r in Hh2 as ([a s] & U2' & [Ha Hs] & Hh2 & ->). simpl in Ha, Hs. subst a.
    assert ((p - BLOCK_HEADER_SIZE, s) ∈ in_use l) as Hin by (rewrite Hu; set_solver).
    pose proof (free_ok h l p s Hi Hin) as Hw. unfold wp in Hw. rewrite E in Hw.
    destruct Hw as (l' & Hi' & _ & Hu'). exists l', (U1 ++ U2'). split_and!; [done| |by apply Forall2_app].
    apply (Permutation_cons_inv (a := (p - BLOCK_HEADER_SIZE, s))). rewrite <- Hu', Hu. by rewrite Permutation_middle.
  - unfold k_free in E. simpl in E. injection E as <-. by exists l, U.
Qed.

Lemma client_inv_apart c l1 x l2 : client_inv c -> c.2 = l1 ++ x :: l2 ->
  Forall (fun y => apart (x.1 - BLOCK_HEADER_SIZE, x.2) (y.1 - BLOCK_HEADER_SIZE, y.2)) (l1 ++ l2).
Proof.
  intros (l & U & (_ & _ & Hl & _) & Hu & Hh) E. rewrite E in Hh.
  apply Forall2_app_inv_r in Hh as (U1 & U2 & Hh1 & Hh2 & ->).
  apply Forall2_cons_inv_r in Hh2 as (u & U2' & [Ha Hs] & Hh2 & ->).
  rewrite <- Permutation_middle in Hu. pose proof (in_use_apart _ _ _ _ Hl Hu) as Hap.
  assert (Forall2 holds (U1 ++ U2') (l1 ++ l2)) as Hall by by apply Forall2_app.
  apply Forall_forall. intros y (i & Hy)%list_elem_of_lookup_1.
  destruct (Forall2_lookup_r _ _ _ _ _ Hall Hy) as (v & Hv & [Hva Hvs]).
  rewrite Forall_forall in Hap. specialize (Hap v (list_elem_of_lookup_2 _ _ _ Hv)).
  unfold apart in *. simpl. destruct u, v, x, y; simpl in *. lia.
Qed.

(** C12: after [k_memory_init] on any sane memory map, whatever a client
    allocates and frees, the blocks it holds never overlap, the next
    allocation does not fault, and neither does freeing any block it holds. *)
Theorem heap_client_safe info h0 :
  sane_info info ->
  wp (k_memory_init info) (fun _ h => forall c, rtc heap_step (h, []) c ->
    (forall l1 x l2, c.2 = l1 ++ x :: l2 ->
       Forall (fun y => apart (x.1 - BLOCK_HEADER_SIZE, x.2) (y.1 - BLOCK_HEADER_SIZE, y.2)) (l1 ++ l2)) /\
    (forall size, 0 <= size <= 2 ^ 61 -> is_Some (k_malloc size c.1)) /\
    (forall x, x ∈ c.2 -> is_Some (k_free x.1 c.1))) h0.
Proof.
  intros Hsane. unfold k_memory_init. wp_step. apply wp_on_frames. eapply wp_mono; [by apply pmm_init_ok|].
  intros [] fr [Hinv _]. do 2 wp_step. wp_step.
  eapply wp_mono; [by apply heap_init_ok|]. intros [] h (l & Hi & Hu). wp_steps. intros c Hrun.
  assert (client_inv c) as Hc.
  { cut (client_inv (h, [])).
    - clear - Hrun. induction Hrun as [|x y z Hs Hr IH]; [done|]. intros Hx. apply IH. by eapply client_inv_step.
    - exists l, []. split_and!; [done|by rewrite Hu|constructor]. }
  split_and!.
  - intros. by apply (client_inv_apart c).
  - destruct Hc as (l' & U & Hi' & _). intros size Hsz.
    destruct (wp_run _ _ _ (malloc_ok _ _ size Hi' Hsz)) as (p & h' & -> & _). done.
  - destruct Hc as (l' & U & Hi' & Hu' & Hh). intros x (i & Hx)%list_elem_of_lookup_1.
    destruct (Forall2_lookup_r _ _ _ _ _ Hh Hx) as ([a s] & Ha & [Ea _]). simpl in Ea. subst a.
    assert ((x.1 - BLOCK_HEADER_SIZE, s) ∈ in_use l') as Hin by (rewrite Hu'; by eapply list_elem_of_lookup_2).
    destruct (wp_run _ _ _ (free_ok _ _ x.1 s Hi' Hin)) as (p & h' & -> & _). done.
Qed.

(** ** Sample states *)

(** The heap of [pmm16] just after its first page was taken. *)
Definition heap16 : heap pmm :=
  MkHeap (MkPmm (Some [15; 240]) 16 8 65536 65536 4096 2 [])
         {[KERNEL_BASE + 12288 := MkBlock 4064 0 true]} (KERNEL_BASE + 12288) (KERNEL_BASE + 12288) (KERNEL_BASE + 16384).

Definition heap16_init : heap pmm := MkHeap pmm16 ∅ 0 0 0.

Lemma heap16_run : k_heap_init heap16_init = Some (tt, heap16).
Proof. by vm_compute. Qed.

Lemma heap16_inv : heap_inv heap16 [(KERNEL_BASE + 12288, 4064, true)].
Proof.
  split_and!.
  - split; [|by vm_compute]. split; [simpl; lia|]. split_and!; [|by vm_compute..].
    repeat constructor; vm_compute; congruence.
  - simpl. split_and!; [done|done|]. exists 0. split; [by vm_compute|done].
  - simpl. unfold ALIGN. split_and!; [vm_compute; congruence|by vm_compute|lia|by vm_compute|done].
  - intros b x ->%list_elem_of_singleton. simpl. intros Hx. assert (frame_of x = 3) as ->.
    { unfold frame_of, PAGE_SIZE, KERNEL_BASE, BLOCK_HEADER_SIZE in *. lia_div. }
    split; [vm_compute; done|by vm_compute].
Qed.

(** The rounding of [k_malloc] wraps for sizes within 16 bytes of SIZE_MAX: it
    then returns a block of no payload instead of NULL. *)
Lemma k_malloc_wraps :
  exists h', k_malloc (2 ^ 64 - 1) heap16 = Some (KERNEL_BASE + 12320, h')
    /\ h_mem h' !! (KERNEL_BASE + 12288) = Some (MkBlock 0 (KERNEL_BASE + 12320) false).
Proof. eexists. split; by vm_compute. Qed.

Lemma k_malloc_correct_witness :
  wp (k_malloc 100) (fun p h' => malloc_post heap16 [(KERNEL_BASE + 12288, 4064, true)] 100 p h' /\
    (p <> 0 -> Forall (apart (p - BLOCK_HEADER_SIZE, 100)) (in_use [(KERNEL_BASE + 12288, 4064, true)]))) heap16.
Proof. apply k_malloc_correct; [apply heap16_inv|lia]. Defined.

(** The same heap with its only block in use. *)
Lemma k_free_correct_witness :
  exists nx, heap_inv (set_mem (<[KERNEL_BASE + 12288 := MkBlock 4064 nx false]> (h_mem heap16)) heap16)
    [(KERNEL_BASE + 12288, 4064, false)] /\
  wp (k_free (KERNEL_BASE + 12320))
    (fun _ => free_post (set_mem (<[KERNEL_BASE + 12288 := MkBlock 4064 nx false]> (h_mem heap16)) heap16)
       [(KERNEL_BASE + 12288, 4064, false)] (KERNEL_BASE + 12320) 4064)
    (set_mem (<[KERNEL_BASE + 12288 := MkBlock 4064 nx false]> (h_mem heap16)) heap16).
Proof.
  destruct (heap_inv_flag heap16 [] (KERNEL_BASE + 12288) 4064 true false [] heap16_inv) as (nx & _ & Hi).
  exists nx. split; [exact Hi|]. apply k_free_correct; [exact Hi|]. by apply list_elem_of_singleton.
Defined.

Lemma heap_client_safe_witness :
  wp (k_memory_init small_pc) (fun _ h => forall c, rtc heap_step (h, []) c ->
    (forall l1 x l2, c.2 = l1 ++ x :: l2 ->
       Forall (fun y => apart (x.1 - BLOCK_HEADER_SIZE, x.2) (y.1 - BLOCK_HEADER_SIZE, y.2)) (l1 ++ l2)) /\
    (forall size, 0 <= size <= 2 ^ 61 -> is_Some (k_malloc size c.1)) /\
    (forall x, x ∈ c.2 -> is_Some (k_free x.1 c.1))) (MkHeap pmm_start ∅ 0 0 0).
Proof. apply heap_client_safe, small_pc_sane. Defined.
