(* ===== verification/Vmm.v ===== *)
(** * The virtual memory manager: src/src/kernel/mm/vmm.c

    Physical memory is a map from frame numbers to contents: a page table of
    512 words, or 4096 bytes of data. A frame takes its kind when it is
    cleared or copied over; using a frame as the other kind is a fault, so the
    theorems also show that page tables and user data never mix. An address
    space is named by the physical address of its PML4; the k_malloc of the
    address space structure succeeds or not as the caller of the model says.
    TLB flushes and the load of CR3 have no effect on the model. *)
From S2P Require Import Prelude Pmm.

(** ** vmm.h *)

Definition PAGE_PRESENT : Z := 1.
Notation PAGE_WRITE := 2 (only parsing).
Definition PAGE_USER : Z := 4.
Notation PAGE_PWT := 8 (only parsing).
Notation PAGE_PCD := 16 (only parsing).
Notation PAGE_HUGE := 128 (only parsing).
Definition USER_END : Z := 140737488351232. (* 0x00007FFFFFFFF000 *)
Notation USER_STACK_MAX := 8388608 (only parsing).
Definition MMAP_TOP : Z := USER_END - 268435456.
Definition MMAP_MIN : Z := 65536.
Definition ADDR_MASK : Z := 4503599627366400. (* 0x000FFFFFFFFFF000 *)
Definition TABLE_MASK : Z := 18446744073709547520. (* ~0xFFF *)
Definition HUGE_MASK : Z := 18446744073707454464. (* ~0x1FFFFF *)

Record address_space := MkSpace { pml4 : Z; brk_start : Z; brk : Z; mmap_hint : Z }.

(** ** Physical memory *)

Inductive frame_data := FTable (ws : list Z) | FData (bs : list Z).

Record vmm (F : Type) := MkVmm {
  v_frames : F;
  v_mem : gmap Z frame_data;
  page_table_l4 : list Z;
  kernel_address_space : option address_space;
  io_next : Z;
}.
Arguments MkVmm {F}.
Arguments v_frames {F}.
Arguments v_mem {F}.
Arguments page_table_l4 {F}.
Arguments kernel_address_space {F}.
Arguments io_next {F}.

Definition flag (e f : Z) : bool := negb (Z.land e f =? 0).

Section Vmm.
  Context {F : Type} `{FA : FrameAlloc F}.

Definition set_vframes (f : F) (s : vmm F) : vmm F :=
  MkVmm f (v_mem s) (page_table_l4 s) (kernel_address_space s) (io_next s).
Definition set_vmem (m : gmap Z frame_data) (s : vmm F) : vmm F :=
  MkVmm (v_frames s) m (page_table_l4 s) (kernel_address_space s) (io_next s).
Definition set_kernel_space (a : option address_space) (s : vmm F) : vmm F :=
  MkVmm (v_frames s) (v_mem s) (page_table_l4 s) a (io_next s).
Definition set_io_next (n : Z) (s : vmm F) : vmm F :=
  MkVmm (v_frames s) (v_mem s) (page_table_l4 s) (kernel_address_space s) n.

Definition v_alloc : M (vmm F) Z := fun s =>
  match fa_alloc 1 (v_frames s) with Some (a, f) => Some (a, set_vframes f s) | None => None end.
Definition v_free (page : Z) : M (vmm F) unit := fun s =>
  match fa_release page 1 (v_frames s) with Some (a, f) => Some (a, set_vframes f s) | None => None end.

(** Word [i] of the table at physical address [t]. *)
Definition table_of (m : gmap Z frame_data) (f : Z) : option (list Z) :=
  match m !! f with Some (FTable ws) => Some ws | _ => None end.
Definition data_of (m : gmap Z frame_data) (f : Z) : option (list Z) :=
  match m !! f with Some (FData bs) => Some bs | _ => None end.

Definition rd (t i : Z) : M (vmm F) Z :=
  s ← get; lift (ws ← table_of (v_mem s) (t / PAGE_SIZE); ws !! Z.to_nat i).
Definition wr (t i e : Z) : M (vmm F) unit :=
  s ← get;
  ws ← lift (table_of (v_mem s) (t / PAGE_SIZE));
  if (Z.to_nat i <? length ws)%nat
  then modify (fun s => set_vmem (<[t / PAGE_SIZE := FTable (<[Z.to_nat i := e]> ws)]> (v_mem s)) s)
  else fault.

(** Filling a whole frame. *)
Definition fill (phys : Z) (d : frame_data) : M (vmm F) unit :=
  modify (fun s => set_vmem (<[phys / PAGE_SIZE := d]> (v_mem s)) s).

(** ** Tables *)

Definition alloc_zeroed_table : M (vmm F) Z :=
  phys ← v_alloc;
  if phys =? PHYS_ADDR_INVALID then mret PHYS_ADDR_INVALID else
  _ ← fill phys (FTable (replicate 512 0));
  mret phys.

(** [malloc_ok] tells whether the k_malloc of the structure succeeds. *)
Definition vmm_create_address_space (malloc_ok : bool) : M (vmm F) (option address_space) :=
  if negb malloc_ok then mret None else
  phys ← v_alloc;
  if phys =? PHYS_ADDR_INVALID then mret None else
  let as_ := MkSpace phys 0 0 MMAP_TOP in
  s ← get;
  _ ← fill phys (FTable (replicate 256 0 ++ drop 256 (page_table_l4 s)));
  _ ← (match kernel_address_space s with
       | None => modify (set_kernel_space (Some as_))
       | Some _ => mret tt
       end);
  mret (Some as_).

(** One upper level of vmm_map_page: the table below entry [i] of [t], made
    if there is none; [None] when out of memory. *)
Definition next_table (t i : Z) (want_user : bool) : M (vmm F) (option Z) :=
  e ← rd t i;
  if flag e PAGE_PRESENT then
    _ ← when want_user (wr t i (Z.lor e PAGE_USER));
    mret (Some (Z.land e TABLE_MASK))
  else
    phys ← alloc_zeroed_table;
    if phys =? PHYS_ADDR_INVALID then mret None else
    _ ← wr t i (Z.lor (Z.lor (Z.lor phys PAGE_PRESENT) PAGE_WRITE) (if want_user then PAGE_USER else 0));
    mret (Some phys).

(** The last level: a 2 MiB page is first split into 512 small ones. *)
Definition last_table (t i : Z) (want_user : bool) : M (vmm F) (option Z) :=
  e ← rd t i;
  if flag e PAGE_PRESENT && flag e PAGE_HUGE then
    let base := Z.land e HUGE_MASK in
    let flags := Z.land e (Z.lor PAGE_PRESENT PAGE_WRITE) in
    phys ← alloc_zeroed_table;
    if phys =? PHYS_ADDR_INVALID then mret None else
    _ ← fill phys (FTable ((fun k => Z.lor (base + k * PAGE_SIZE) flags) <$> range 0 512));
    _ ← wr t i (Z.lor (Z.lor (Z.lor phys PAGE_PRESENT) PAGE_WRITE) (if want_user then PAGE_USER else 0));
    mret (Some phys)
  else next_table t i want_user.

Definition va_index (va shift : Z) : Z := Z.land (Z.shiftr va shift) 511.

Definition vmm_map_page (root va phys flags : Z) : M (vmm F) Z :=
  let want_user := flag flags PAGE_USER in
  l3 ← next_table root (va_index va 39) want_user;
  match l3 with None => mret (-1) | Some l3 =>
  l2 ← next_table l3 (va_index va 30) want_user;
  match l2 with None => mret (-1) | Some l2 =>
  l1 ← last_table l2 (va_index va 21) want_user;
  match l1 with None => mret (-1) | Some l1 =>
  _ ← wr l1 (va_index va 12) (Z.lor phys flags);
  mret 0
  end end end.

(** ** Walks *)

(** The slot of the leaf entry: its table and index. *)
Fixpoint pte_walk (shifts : list Z) (t va : Z) : M (vmm F) (option (Z * Z)) :=
  match shifts with
  | [] => mret (Some (t, va_index va 12))
  | shift :: shifts' =>
      e ← rd t (va_index va shift);
      if negb (flag e PAGE_PRESENT) || flag e PAGE_HUGE then mret None
      else pte_walk shifts' (Z.land e ADDR_MASK) va
  end.

Definition pte (root va : Z) : M (vmm F) (option (Z * Z)) := pte_walk [39; 30; 21] root va.

(** The entry behind [pte], if there is one. *)
Definition leaf (root va : Z) : M (vmm F) (option Z) :=
  slot ← pte root va;
  match slot with
  | None => mret None
  | Some (t, i) => e ← rd t i; mret (Some e)
  end.

Definition vmm_translate (root va : Z) : M (vmm F) Z :=
  e ← leaf root va;
  match e with
  | None => mret PHYS_ADDR_INVALID
  | Some e =>
      if negb (flag e PAGE_PRESENT) then mret PHYS_ADDR_INVALID
      else mret (Z.lor (Z.land e ADDR_MASK) (Z.land va (PAGE_SIZE - 1)))
  end.

(** ** Copies through the direct map *)

Definition read_phys (phys : Z) (n : nat) : M (vmm F) (list Z) :=
  s ← get;
  bs ← lift (data_of (v_mem s) (phys / PAGE_SIZE));
  let off := Z.to_nat (phys mod PAGE_SIZE) in
  if (off + n <=? length bs)%nat then mret (take n (drop off bs)) else fault.

Definition write_phys (phys : Z) (src : list Z) : M (vmm F) unit :=
  s ← get;
  bs ← lift (data_of (v_mem s) (phys / PAGE_SIZE));
  let off := Z.to_nat (phys mod PAGE_SIZE) in
  if (off + length src <=? length bs)%nat
  then fill phys (FData (take off bs ++ src ++ drop (off + length src) bs))
  else fault.

Definition chunk_of (va : Z) (n : nat) : nat :=
  let room := Z.to_nat (PAGE_SIZE - Z.land va (PAGE_SIZE - 1)) in if (room <? n)%nat then room else n.

(** Every round copies at least one byte. *)
Fixpoint vmm_copy_to (fuel : nat) (root va : Z) (src : list Z) : M (vmm F) Z :=
  match fuel with
  | O => fault
  | S fuel' =>
      match src with
      | [] => mret 0
      | _ =>
          let chunk := chunk_of va (length src) in
          phys ← vmm_translate root va;
          if phys =? PHYS_ADDR_INVALID then mret (-1) else
          _ ← write_phys phys (take chunk src);
          vmm_copy_to fuel' root (u64 (va + Z.of_nat chunk)) (drop chunk src)
      end
  end.

Fixpoint vmm_copy_from (fuel : nat) (root va : Z) (n : nat) : M (vmm F) (Z * list Z) :=
  match fuel with
  | O => fault
  | S fuel' =>
      if (n =? 0)%nat then mret (0, []) else
      let chunk := chunk_of va n in
      phys ← vmm_translate root va;
      if phys =? PHYS_ADDR_INVALID then mret (-1, []) else
      bs ← read_phys phys chunk;
      '(r, rest) ← vmm_copy_from fuel' root (u64 (va + Z.of_nat chunk)) (n - chunk);
      mret (r, bs ++ rest)
  end.

(** ** Ranges

    [va] runs over the pages from [start] rounded down up to [end_]. *)

Definition range_pages (start end_ : Z) : list Z := page_steps (align_down_page start) end_.

(** What memset leaves in a new page. *)
Definition zero_page : list Z := replicate (Z.to_nat PAGE_SIZE) 0.

Definition alloc_range_page (root flags va : Z) : M (vmm F) bool :=
  phys ← vmm_translate root va;
  if phys =? PHYS_ADDR_INVALID then
    phys ← v_alloc;
    if phys =? PHYS_ADDR_INVALID then mret false else
    _ ← fill phys (FData zero_page);
    r ← vmm_map_page root va phys flags;
    mret (negb (r <? 0))
  else if negb (flag flags PAGE_WRITE) then mret true
  else
    r ← vmm_map_page root va phys flags;
    mret (negb (r <? 0)).

Definition vmm_alloc_range (root start end_ flags : Z) : M (vmm F) Z :=
  ok ← for_while (range_pages start end_) (alloc_range_page root flags);
  mret (if (ok : bool) then 0 else -1).

Definition free_range_page (root va : Z) : M (vmm F) unit :=
  slot ← pte root va;
  match slot with
  | None => mret tt
  | Some (t, i) =>
      e ← rd t i;
      when (flag e PAGE_PRESENT) (_ ← v_free (Z.land e ADDR_MASK); wr t i 0)
  end.

Definition vmm_free_range (root start end_ : Z) : M (vmm F) unit :=
  for_each (range_pages start end_) (free_range_page root).

Definition protect_range_page (root flags va : Z) : M (vmm F) unit :=
  slot ← pte root va;
  match slot with
  | None => mret tt
  | Some (t, i) =>
      e ← rd t i;
      when (flag e PAGE_PRESENT) (wr t i (Z.lor (Z.land e ADDR_MASK) flags))
  end.

Definition vmm_protect_range (root start end_ flags : Z) : M (vmm F) unit :=
  for_each (range_pages start end_) (protect_range_page root flags).

Definition vmm_range_is_free (root start end_ : Z) : M (vmm F) bool :=
  for_while (range_pages start end_)
    (fun va => phys ← vmm_translate root va; mret (phys =? PHYS_ADDR_INVALID)).

(** ** The check of user pointers; [root] is the active address space, both the
    one in CR3 and that of the current process *)

Definition absent (e : option Z) : bool :=
  match e with Some e => negb (flag e PAGE_PRESENT) | None => true end.

Definition user_ok_page (root need va : Z) : M (vmm F) bool :=
  e ← leaf root va;
  e ← (if absent e && (USER_END - USER_STACK_MAX <=? va) then
         r ← vmm_alloc_range root va (u64 (va + PAGE_SIZE)) (Z.lor (Z.lor PAGE_PRESENT PAGE_USER) PAGE_WRITE);
         if r =? 0 then leaf root va else mret e
       else mret e);
  mret (match e with Some e => Z.land e need =? need | None => false end).

Definition vmm_user_ok (root addr len : Z) (write : bool) : M (vmm F) bool :=
  let end_ := u64 (addr + len) in
  let need := Z.lor (Z.lor PAGE_PRESENT PAGE_USER) (if write then PAGE_WRITE else 0) in
  if len =? 0 then mret true
  else if (end_ <? addr) || (USER_END <? end_) then mret false
  else for_while (range_pages addr end_) (user_ok_page root need).

(** ** Whole address spaces *)

Definition destroy_leaves (i4 l1 : Z) : M (vmm F) unit :=
  _ ← when (i4 <? 256)
        (for_each (range 0 512) (fun i =>
           e ← rd l1 i; when (flag e PAGE_PRESENT) (v_free (Z.land e ADDR_MASK))));
  v_free l1.

Definition destroy_l2 (i4 l2 : Z) : M (vmm F) unit :=
  _ ← for_each (range 0 512) (fun i =>
        e ← rd l2 i;
        when (flag e PAGE_PRESENT && negb (flag e PAGE_HUGE)) (destroy_leaves i4 (Z.land e TABLE_MASK)));
  v_free l2.

Definition destroy_l3 (i4 l3 : Z) : M (vmm F) unit :=
  _ ← for_each (range 0 512) (fun i =>
        e ← rd l3 i; when (flag e PAGE_PRESENT) (destroy_l2 i4 (Z.land e TABLE_MASK)));
  v_free l3.

Definition vmm_destroy_address_space (root : Z) : M (vmm F) unit :=
  _ ← for_each (range 0 512) (fun i4 =>
        e ← rd root i4;
        s ← get;
        boot ← lift (page_table_l4 s !! Z.to_nat i4);
        when (flag e PAGE_PRESENT && negb (Z.land e TABLE_MASK =? Z.land boot TABLE_MASK))
          (destroy_l3 i4 (Z.land e TABLE_MASK)));
  v_free root.

(** Visiting the user half: [body] sees the virtual address and the entry of
    every present leaf, and answers whether to go on. *)
Definition for_leaves (root : Z) (body : Z -> Z -> M (vmm F) bool) : M (vmm F) bool :=
  for_while (range 0 256) (fun i4 =>
    e4 ← rd root i4;
    if negb (flag e4 PAGE_PRESENT) then mret true else
    for_while (range 0 512) (fun i3 =>
      e3 ← rd (Z.land e4 ADDR_MASK) i3;
      if negb (flag e3 PAGE_PRESENT) then mret true else
      for_while (range 0 512) (fun i2 =>
        e2 ← rd (Z.land e3 ADDR_MASK) i2;
        if negb (flag e2 PAGE_PRESENT) || flag e2 PAGE_HUGE then mret true else
        for_while (range 0 512) (fun i1 =>
          e1 ← rd (Z.land e2 ADDR_MASK) i1;
          if negb (flag e1 PAGE_PRESENT) then mret true else
          body (Z.lor (Z.lor (Z.lor (Z.shiftl i4 39) (Z.shiftl i3 30)) (Z.shiftl i2 21)) (Z.shiftl i1 12)) e1)))).

Definition clone_page (dst va e : Z) : M (vmm F) bool :=
  copy ← v_alloc;
  if copy =? PHYS_ADDR_INVALID then mret false else
  r ← vmm_map_page dst va copy (Z.land e 4095);
  if r <? 0 then _ ← v_free copy; mret false else
  bs ← read_phys (Z.land e ADDR_MASK) 4096;
  _ ← fill copy (FData bs);
  mret true.

Definition vmm_clone (malloc_ok : bool) (src : address_space) : M (vmm F) (option address_space) :=
  dst ← vmm_create_address_space malloc_ok;
  match dst with
  | None => mret None
  | Some dst =>
      let dst := MkSpace (pml4 dst) (brk_start src) (brk src) (mmap_hint src) in
      ok ← for_leaves (pml4 src) (clone_page (pml4 dst));
      if (ok : bool) then mret (Some dst)
      else _ ← vmm_destroy_address_space (pml4 dst); mret None
  end.

(** The number of present user pages, counted as the loops visit them. *)
Fixpoint count_while (l : list Z) (body : Z -> M (vmm F) Z) : M (vmm F) Z :=
  match l with
  | [] => mret 0
  | x :: l' => a ← body x; b ← count_while l' body; mret (a + b)
  end.

Definition vmm_user_pages (root : Z) : M (vmm F) Z :=
  count_while (range 0 256) (fun i4 =>
    e4 ← rd root i4;
    if negb (flag e4 PAGE_PRESENT) then mret 0 else
    count_while (range 0 512) (fun i3 =>
      e3 ← rd (Z.land e4 ADDR_MASK) i3;
      if negb (flag e3 PAGE_PRESENT) then mret 0 else
      count_while (range 0 512) (fun i2 =>
        e2 ← rd (Z.land e3 ADDR_MASK) i2;
        if negb (flag e2 PAGE_PRESENT) || flag e2 PAGE_HUGE then mret 0 else
        count_while (range 0 512) (fun i1 =>
          e1 ← rd (Z.land e2 ADDR_MASK) i1;
          mret (if flag e1 PAGE_PRESENT then 1 else 0))))).

(** ** Device memory *)

Definition IOREMAP_END : Z := 18446744073707454464. (* 0xFFFFFFFFFFE00000 *)

Definition vmm_ioremap (phys size_ : Z) (uncached : bool) : M (vmm F) Z :=
  let start := align_down_page phys in
  let pages := u64 (align_up_page (u64 (phys + size_)) - start) / PAGE_SIZE in
  s ← get;
  let va := io_next s in
  let flags := Z.lor (Z.lor PAGE_PRESENT PAGE_WRITE) (if uncached then Z.lor PAGE_PCD PAGE_PWT else 0) in
  if IOREMAP_END <? u64 (va + pages * PAGE_SIZE) then mret 0 else
  k ← lift (kernel_address_space s);
  ok ← for_while (range 0 pages) (fun i =>
         r ← vmm_map_page (pml4 k) (u64 (va + i * PAGE_SIZE)) (u64 (start + i * PAGE_SIZE)) flags;
         mret (negb (r <? 0)));
  if negb ok then mret 0 else
  _ ← modify (fun s => set_io_next (u64 (io_next s + pages * PAGE_SIZE)) s);
  mret (u64 (va + (phys - start))).
End Vmm.

Lemma zero_page_ok : length zero_page = 4096%nat /\ Forall (fun b => 0 <= b < 256) zero_page.
Proof. unfold zero_page. split; [apply length_replicate|apply Forall_replicate; lia]. Qed.

(** ** Entries as frame and flags *)

Definition frame (e : Z) : Z := Z.land e ADDR_MASK / PAGE_SIZE.
Definition entry_ok (e : Z) : Prop := 0 <= e < 2 ^ 52.

Lemma land_low f fl k : 0 <= fl < 4096 -> 0 <= k < 4096 -> Z.land (f * 4096 + fl) k = Z.land fl k.
Proof.
  intros Hfl Hk. assert (forall x, Z.land x k = Z.land (x mod 2 ^ 12) k) as E.
  { intros x. apply Z.bits_inj'. intros i Hi. rewrite !Z.land_spec. destruct (Z.lt_ge_cases i 12).
    - by rewrite Z.mod_pow2_bits_low by lia.
    - replace (Z.testbit k i) with false; [by rewrite !andb_false_r|]. symmetry.
      rewrite Z.testbit_eqb by lia. rewrite Z.div_small; [done|]. split; [lia|].
      apply Z.lt_le_trans with (2 ^ 12); [lia|]. apply Z.pow_le_mono_r; lia. }
  rewrite E. f_equal. change (2 ^ 12) with 4096. lia_div.
Qed.

Lemma land_table e : 0 <= e < 2 ^ 64 -> Z.land e TABLE_MASK = e / 4096 * 4096.
Proof.
  intros He. change TABLE_MASK with (u64 (Z.lnot (2 ^ 12 - 1))). rewrite align_mask by lia.
  change (2 ^ 12) with 4096. lia_div.
Qed.

Lemma land_addr e : entry_ok e -> Z.land e ADDR_MASK = e / 4096 * 4096.
Proof.
  intros He. unfold entry_ok in He. change ADDR_MASK with (Z.land TABLE_MASK (Z.ones 52)).
  rewrite Z.land_assoc, land_table by lia. rewrite Z.land_ones by lia. apply Z.mod_small. lia_div.
Qed.

Lemma frame_eq e : entry_ok e -> frame e = e / 4096.
Proof. intros He. unfold frame, PAGE_SIZE. rewrite land_addr by done. by apply Z.div_mul. Qed.

Lemma lor_flags f fl : 0 <= fl < 4096 -> Z.lor (f * 4096) fl = f * 4096 + fl.
Proof.
  intros Hfl. pose proof (Z.add_lor_land (f * 4096) fl). assert (Z.land (f * 4096) fl = 0); [|lia].
  rewrite <- (Z.add_0_r (f * 4096)), land_low by lia. apply Z.land_0_l.
Qed.

Lemma lor_small a b : 0 <= a < 4096 -> 0 <= b < 4096 -> 0 <= Z.lor a b < 4096.
Proof.
  intros Ha Hb. split; [apply Z.lor_nonneg; lia|].
  destruct (Z.eq_dec (Z.lor a b) 0) as [->|]; [lia|].
  apply (Z.log2_lt_pow2 _ 12); [pose proof (Z.lor_nonneg a b); lia|]. rewrite Z.log2_lor by lia.
  apply Z.max_lub_lt.
  - destruct (Z.eq_dec a 0) as [->|]; [simpl; lia|]. apply Z.log2_lt_pow2; lia.
  - destruct (Z.eq_dec b 0) as [->|]; [simpl; lia|]. apply Z.log2_lt_pow2; lia.
Qed.

Lemma flag_entry f fl k : 0 <= fl < 4096 -> 0 <= k < 4096 -> flag (f * 4096 + fl) k = flag fl k.
Proof. intros. unfold flag. by rewrite land_low. Qed.

(** Setting PAGE_USER leaves everything else alone. *)
Lemma set_user_entry e :
  entry_ok e -> entry_ok (Z.lor e PAGE_USER) /\ frame (Z.lor e PAGE_USER) = frame e
  /\ flag (Z.lor e PAGE_USER) PAGE_PRESENT = flag e PAGE_PRESENT
  /\ flag (Z.lor e PAGE_USER) PAGE_HUGE = flag e PAGE_HUGE.
Proof.
  intros He. assert (entry_ok (Z.lor e PAGE_USER)) as Hu.
  { unfold entry_ok, PAGE_USER in *. split; [apply Z.lor_nonneg; lia|].
    destruct (Z.eq_dec e 0) as [->|]; [rewrite Z.lor_0_l; lia|].
    apply Z.log2_lt_pow2; [assert (0 <= Z.lor e 4) by (apply Z.lor_nonneg; lia);
      assert (Z.lor e 4 <> 0) by (rewrite Z.lor_eq_0_iff; lia); lia|].
    rewrite Z.log2_lor by lia. apply Z.max_lub_lt; [apply Z.log2_lt_pow2; lia|simpl; lia]. }
  split_and!; [done|..]; unfold frame, flag; rewrite Z.land_lor_distr_l.
  - change (Z.land PAGE_USER ADDR_MASK) with 0. by rewrite Z.lor_0_r.
  - change (Z.land PAGE_USER PAGE_PRESENT) with 0. by rewrite Z.lor_0_r.
  - change (Z.land PAGE_USER PAGE_HUGE) with 0. by rewrite Z.lor_0_r.
Qed.

(** ** Indices of a virtual address *)

Lemma va_index_eq va s : 0 <= va -> 0 <= s -> va_index va s = (va / 2 ^ s) mod 512.
Proof.
  intros Hv Hs. unfold va_index. change 511 with (Z.ones 9).
  by rewrite Z.land_ones, Z.shiftr_div_pow2 by lia.
Qed.

Lemma va_index_bound va s : 0 <= va_index va s < 512.
Proof. unfold va_index. change 511 with (Z.ones 9). rewrite Z.land_ones by lia. apply Z.mod_pos_bound. lia. Qed.

(** A user address: its first index lies in the user half. *)
Definition user_va (va : Z) : Prop := 0 <= va < 2 ^ 47.

Lemma user_index va : user_va va -> va_index va 39 < 256.
Proof. unfold user_va. intros. rewrite va_index_eq by lia. lia_div. Qed.

Definition vpath (va : Z) : list Z := [va_index va 39; va_index va 30; va_index va 21].

Lemma va_page_indices va : user_va va ->
  va / 4096 = ((va_index va 39 * 512 + va_index va 30) * 512 + va_index va 21) * 512 + va_index va 12.
Proof.
  unfold user_va. intros Hv. rewrite !va_index_eq by lia.
  change (2 ^ 39) with (4096 * 512 * 512 * 512). change (2 ^ 30) with (4096 * 512 * 512).
  change (2 ^ 21) with (4096 * 512). change (2 ^ 12) with 4096. rewrite <- !Z.div_div by lia.
  set (q := va / 4096). assert (0 <= q < 2 ^ 35) by (unfold q; lia_div). lia_div.
Qed.

Lemma vpath_inj va va' :
  user_va va -> user_va va' -> vpath va = vpath va' -> va_index va 12 = va_index va' 12 -> va / 4096 = va' / 4096.
Proof. intros Hv Hv' [= E1 E2 E3] E4. rewrite !va_page_indices by done. congruence. Qed.

Lemma vpath_page va va' :
  user_va va -> user_va va' -> va / 4096 = va' / 4096 -> vpath va = vpath va' /\ va_index va 12 = va_index va' 12.
Proof.
  unfold user_va. intros Hv Hv' E. unfold vpath. rewrite !va_index_eq by lia.
  change (2 ^ 39) with (4096 * 134217728). change (2 ^ 30) with (4096 * 262144).
  change (2 ^ 21) with (4096 * 512). change (2 ^ 12) with 4096. rewrite <- !Z.div_div by lia. by rewrite E.
Qed.

(** ** The tree of tables *)

(** The table below entry [i] of table [t]. *)
Definition child (m : gmap Z frame_data) (t i : Z) : option Z :=
  ws ← table_of m t; e ← ws !! Z.to_nat i;
  if flag e PAGE_PRESENT && negb (flag e PAGE_HUGE) then Some (frame e) else None.

(** The table reached from the root [r] along a path of indices. *)
Definition table_at (m : gmap Z frame_data) (r : Z) (p : list Z) : option Z :=
  foldl (fun acc i => t ← acc; child m t i) (Some r) p.

Definition leaf_at (m : gmap Z frame_data) (r : Z) (p : list Z) (i : Z) : option Z :=
  t ← table_at m r p; ws ← table_of m t; ws !! Z.to_nat i.

(** The entry, if it maps a page. *)
Definition pleaf (m : gmap Z frame_data) (r : Z) (p : list Z) (i : Z) : option Z :=
  e ← leaf_at m r p i; if flag e PAGE_PRESENT then Some e else None.

(** Paths of tables of the user half: at most three indices. *)
Definition upath (p : list Z) : Prop :=
  Forall (fun i => 0 <= i < 512) p /\ (length p <= 3)%nat /\ (forall i, head p = Some i -> i < 256).

(** Index [i] of a table at path [p] belongs to the user half. *)
Definition uindex (p : list Z) (i : Z) : Prop := 0 <= i < 512 /\ (p = [] -> i < 256).

Lemma table_at_snoc m r p i : table_at m r (p ++ [i]) = (t ← table_at m r p; child m t i).
Proof. unfold table_at. by rewrite foldl_snoc. Qed.

Lemma upath_nil : upath [].
Proof. split_and!; [constructor|simpl; lia|done]. Qed.

Lemma upath_snoc p i : upath (p ++ [i]) <-> upath p /\ uindex p i /\ (length p < 3)%nat.
Proof.
  unfold upath, uindex. rewrite Forall_app, Forall_singleton, length_app. simpl.
  destruct p as [|j p]; simpl; [naive_solver lia|]. split.
  - intros ([? ?] & ? & Hh). split_and!; [done|lia|auto|lia|lia|done|lia].
  - intros ((? & ? & Hh) & (? & _) & ?). split_and!; [done|lia|lia|lia|auto].
Qed.

Lemma upath_ind (P : list Z -> Prop) :
  P [] -> (forall p i, upath p -> uindex p i -> (length p < 3)%nat -> P p -> P (p ++ [i])) ->
  forall p, upath p -> P p.
Proof.
  intros H0 Hs p. induction p as [|i p IH] using rev_ind; [done|].
  intros (Hp & Hi & Hl)%upath_snoc. auto.
Qed.

Lemma vpath_upath va : user_va va -> upath (vpath va).
Proof.
  intros Hv. split_and!; [|simpl; lia|].
  - repeat constructor; apply va_index_bound.
  - intros i [= <-]. by apply user_index.
Qed.

(** Two memories with the same children have the same tables. *)
Lemma table_at_ext m m' r p : (forall t i, child m' t i = child m t i) -> table_at m' r p = table_at m r p.
Proof.
  intros Hc. induction p as [|i p IH] using rev_ind; [done|].
  rewrite !table_at_snoc, IH. destruct (table_at m r p); [|done]. cbn [mbind option_bind]. apply Hc.
Qed.

Lemma table_of_insert m t d x :
  table_of (<[t := d]> m) x = if decide (x = t) then match d with FTable ws => Some ws | _ => None end else table_of m x.
Proof. unfold table_of. rewrite lookup_insert. repeat case_decide; congruence. Qed.

Lemma data_of_insert m t d x :
  data_of (<[t := d]> m) x = if decide (x = t) then match d with FData bs => Some bs | _ => None end else data_of m x.
Proof. unfold data_of. rewrite lookup_insert. repeat case_decide; congruence. Qed.

Section View.
  Context {F : Type} `{FA : FrameAlloc F}.
  Implicit Types (s : vmm F) (roots : gset Z).

(** A leaf slot of one of the address spaces. *)
Definition slot roots r p i : Prop := r ∈ roots /\ upath p /\ length p = 3%nat /\ uindex p i.

(** The frame holds a page of bytes. *)
Definition page_data (m : gmap Z frame_data) (f : Z) : Prop :=
  exists bs, data_of m f = Some bs /\ length bs = 4096%nat /\ Forall (fun b => 0 <= b < 256) bs.

(** The frame is handed out by the allocator. *)
Definition held s (f : Z) : Prop := 0 < f < fa_total (v_frames s) /\ f ∉ fa_free (v_frames s).

(** Well-formed address spaces with PML4s in the frames [roots]: the tables of
    their user halves form trees that share nothing, all present leaves map
    data frames, no two leaves the same one, and no frame in use is free. *)
Record vinv s roots : Prop := {
  vi_frames : fa_inv (v_frames s);
  vi_boot : length (page_table_l4 s) = 512%nat;
  vi_table : forall r p t, r ∈ roots -> upath p -> table_at (v_mem s) r p = Some t ->
    held s t /\ exists ws, table_of (v_mem s) t = Some ws /\ length ws = 512%nat;
  vi_entry : forall r p t ws i e, r ∈ roots -> upath p -> uindex p i ->
    table_at (v_mem s) r p = Some t -> table_of (v_mem s) t = Some ws -> ws !! Z.to_nat i = Some e ->
    entry_ok e /\ ((length p < 3)%nat -> flag e PAGE_PRESENT = true -> flag e PAGE_HUGE = false);
  vi_inj : forall r p r' p' t, r ∈ roots -> r' ∈ roots -> upath p -> upath p' ->
    table_at (v_mem s) r p = Some t -> table_at (v_mem s) r' p' = Some t -> r = r' /\ p = p';
  vi_leaf : forall r p i e, slot roots r p i -> pleaf (v_mem s) r p i = Some e ->
    held s (frame e) /\ page_data (v_mem s) (frame e);
  vi_leaf_inj : forall r p i e r' p' i' e', slot roots r p i -> slot roots r' p' i' ->
    pleaf (v_mem s) r p i = Some e -> pleaf (v_mem s) r' p' i' = Some e' -> frame e = frame e' ->
    r = r' /\ p = p' /\ i = i';
}.

Lemma vi_root s roots r : vinv s roots -> r ∈ roots -> held s r /\ exists ws, table_of (v_mem s) r = Some ws /\ length ws = 512%nat.
Proof. intros Hi Hr. eapply (vi_table _ _ Hi r []); [done|apply upath_nil|done]. Qed.

(** *** Triples of the accesses *)

Lemma wp_rd s t i ws e (Q : Z -> vmm F -> Prop) :
  table_of (v_mem s) t = Some ws -> ws !! Z.to_nat i = Some e -> Q e s -> wp (rd (t * PAGE_SIZE) i) Q s.
Proof.
  intros Ht He HQ. unfold rd. wp_steps. rewrite Z.div_mul by done.
  eapply wp_lift; [|done]. rewrite Ht. exact He.
Qed.

Lemma wp_wr s t i ws e e' (Q : unit -> vmm F -> Prop) :
  table_of (v_mem s) t = Some ws -> ws !! Z.to_nat i = Some e ->
  Q tt (set_vmem (<[t := FTable (<[Z.to_nat i := e']> ws)]> (v_mem s)) s) -> wp (wr (t * PAGE_SIZE) i e') Q s.
Proof.
  intros Ht He HQ. unfold wr. wp_steps. rewrite Z.div_mul by done. eapply wp_lift; [done|].
  apply lookup_lt_Some in He. rewrite (proj2 (Nat.ltb_lt _ _)) by done. by wp_steps.
Qed.

Lemma wp_fill s f d (Q : unit -> vmm F -> Prop) :
  Q tt (set_vmem (<[f := d]> (v_mem s)) s) -> wp (fill (f * PAGE_SIZE) d) Q s.
Proof. intros HQ. unfold fill. wp_steps. by rewrite Z.div_mul. Qed.

Lemma wp_v_alloc s (Q : Z -> vmm F -> Prop) :
  fa_inv (v_frames s) ->
  (forall fr, fa_inv fr -> fa_total fr = fa_total (v_frames s) -> fa_free fr = fa_free (v_frames s) -> fa_free fr = ∅ ->
     Q PHYS_ADDR_INVALID (set_vframes fr s)) ->
  (forall fr f, fa_inv fr -> fa_total fr = fa_total (v_frames s) -> f ∈ fa_free (v_frames s) ->
     0 < f < fa_total (v_frames s) -> fa_free fr = fa_free (v_frames s) ∖ {[f]} ->
     Q (f * PAGE_SIZE) (set_vframes fr s)) ->
  wp v_alloc Q s.
Proof.
  intros Hi H0 H1. pose proof (fa_alloc_ok (v_frames s) 1 Hi ltac:(lia)) as Hw. unfold wp, v_alloc in *.
  destruct (fa_alloc 1 (v_frames s)) as [[a fr]|]; [|done].
  destruct Hw as (Hi' & Ht & [(-> & Hf & Hn)|(f & -> & Hsub & Hf)]).
  { apply H0; [done..|]. apply set_eq. intros f. specialize (Hn f). rewrite frames_one in Hn. set_solver. }
  rewrite frames_one in Hsub, Hf. apply singleton_subseteq_l in Hsub.
  apply H1; [done|done|done|by eapply fa_free_bound|done].
Qed.

Lemma wp_v_free s f (Q : unit -> vmm F -> Prop) :
  fa_inv (v_frames s) -> held s f ->
  (forall fr, fa_inv fr -> fa_total fr = fa_total (v_frames s) ->
     fa_free fr = fa_free (v_frames s) ∪ {[f]} -> Q tt (set_vframes fr s)) ->
  wp (v_free (f * PAGE_SIZE)) Q s.
Proof.
  intros Hi [Hf Hn] HQ. pose proof (fa_release_ok (v_frames s) f 1 Hi) as Hw. unfold wp, v_free in *.
  rewrite frames_one in Hw. specialize (Hw ltac:(lia) ltac:(lia) ltac:(lia) ltac:(set_solver)).
  destruct (fa_release _ 1 (v_frames s)) as [[[] fr]|]; [|done]. destruct Hw as (? & ? & ?). by apply HQ.
Qed.

(** A frame number times the page size is never the "no page" value. *)
Lemma frame_valid f : 0 < f -> (f * PAGE_SIZE =? PHYS_ADDR_INVALID) = false.
Proof. intros. apply Z.eqb_neq. unfold PAGE_SIZE, PHYS_ADDR_INVALID. lia. Qed.

(** *** Walks read the tree *)

Lemma entry_read s roots r p t i :
  vinv s roots -> r ∈ roots -> upath p -> uindex p i -> table_at (v_mem s) r p = Some t ->
  exists ws e, table_of (v_mem s) t = Some ws /\ length ws = 512%nat /\ ws !! Z.to_nat i = Some e /\ entry_ok e
    /\ ((length p < 3)%nat -> flag e PAGE_PRESENT = true -> flag e PAGE_HUGE = false).
Proof.
  intros Hi Hr Hp Hx Ht. destruct (vi_table _ _ Hi r p t Hr Hp Ht) as (_ & ws & Hws & Hlen).
  destruct (lookup_lt_is_Some_2 ws (Z.to_nat i)) as [e He]; [destruct Hx; lia|].
  destruct (vi_entry _ _ Hi r p t ws i e) as [? ?]; [done..|]. eauto 10.
Qed.

Lemma land_frame e : entry_ok e -> Z.land e ADDR_MASK = frame e * PAGE_SIZE.
Proof. intros He. rewrite land_addr, frame_eq by done. done. Qed.

Lemma land_frame_table e : entry_ok e -> Z.land e TABLE_MASK = frame e * PAGE_SIZE.
Proof. intros He. rewrite frame_eq, land_table by (unfold entry_ok in He; done || lia). done. Qed.

Lemma pte_walk_step s roots r p t shift shifts va (Q : option (Z * Z) -> vmm F -> Prop) :
  let i := va_index va shift in
  vinv s roots -> r ∈ roots -> upath (p ++ [i]) -> table_at (v_mem s) r p = Some t ->
  (table_at (v_mem s) r (p ++ [i]) = None -> Q None s) ->
  (forall t', table_at (v_mem s) r (p ++ [i]) = Some t' -> wp (pte_walk shifts (t' * PAGE_SIZE) va) Q s) ->
  wp (pte_walk (shift :: shifts) (t * PAGE_SIZE) va) Q s.
Proof.
  intros i. cbn [pte_walk]. fold i.
  intros Hi Hr Hp Ht Hnone Hsome. apply upath_snoc in Hp as (Hp & Hx & Hl).
  destruct (entry_read s roots r p t i) as (ws & e & Hws & _ & He & Hok & _); [done..|].
  wp_step. eapply wp_rd; [done..|]. rewrite table_at_snoc, Ht in Hnone, Hsome.
  unfold child in Hnone, Hsome. cbn [mbind option_bind] in Hnone, Hsome. rewrite Hws in Hnone, Hsome.
  cbn [mbind option_bind] in Hnone, Hsome. rewrite He in Hnone, Hsome. cbn [mbind option_bind] in Hnone, Hsome.
  destruct (flag e PAGE_PRESENT); cbn [negb orb andb] in *; [|by apply wp_ret, Hnone].
  destruct (flag e PAGE_HUGE); cbn [negb] in *; [by apply wp_ret, Hnone|].
  rewrite land_frame by done. by apply Hsome.
Qed.

Lemma wp_pte s roots r va (Q : option (Z * Z) -> vmm F -> Prop) :
  vinv s roots -> r ∈ roots -> user_va va ->
  (table_at (v_mem s) r (vpath va) = None -> Q None s) ->
  (forall t, table_at (v_mem s) r (vpath va) = Some t -> Q (Some (t * PAGE_SIZE, va_index va 12)) s) ->
  wp (pte (r * PAGE_SIZE) va) Q s.
Proof.
  intros Hi Hr Hv Hnone Hsome. pose proof (vpath_upath va Hv) as Hup3. unfold vpath in *.
  change [va_index va 39; va_index va 30; va_index va 21] with
    (([va_index va 39; va_index va 30] ++ [va_index va 21])) in *.
  pose proof Hup3 as (Hup2 & _)%upath_snoc. change [va_index va 39; va_index va 30] with
    ([va_index va 39] ++ [va_index va 30]) in Hup2. pose proof Hup2 as (Hup1 & _)%upath_snoc.
  unfold pte.
  apply (pte_walk_step s roots r [] r); [done|done|done|done| |].
  { intros E. apply Hnone. rewrite table_at_snoc.
    change [va_index va 39; va_index va 30] with ([va_index va 39] ++ [va_index va 30]).
    cbn [app] in E. by rewrite table_at_snoc, E. }
  intros t1 E1. cbn [app] in E1. apply (pte_walk_step s roots r [va_index va 39] t1); [done..| |].
  { intros E. apply Hnone. cbn [app] in E. by rewrite table_at_snoc, E. }
  intros t2 E2. cbn [app] in E2. apply (pte_walk_step s roots r [va_index va 39; va_index va 30] t2); [done..|].
  intros t3 E3. cbn [pte_walk]. wp_steps. by apply Hsome.
Qed.

Definition va_leaf s r va : option Z := leaf_at (v_mem s) r (vpath va) (va_index va 12).

Lemma va_uindex va : uindex (vpath va) (va_index va 12).
Proof. split; [apply va_index_bound|done]. Qed.

Lemma wp_leaf s roots r va (Q : option Z -> vmm F -> Prop) :
  vinv s roots -> r ∈ roots -> user_va va -> Q (va_leaf s r va) s -> wp (leaf (r * PAGE_SIZE) va) Q s.
Proof.
  intros Hi Hr Hv HQ. unfold leaf, va_leaf, leaf_at in *. wp_step.
  eapply wp_pte; [done|done|done|intros E|intros t E]; rewrite E in HQ; cbn [mbind option_bind] in HQ.
  - by wp_steps.
  - destruct (entry_read s roots r (vpath va) t (va_index va 12)) as (ws & e & Hws & _ & He & _);
      [done|done|by apply vpath_upath|apply va_uindex|done|].
    rewrite Hws in HQ. cbn [mbind option_bind] in HQ. rewrite He in HQ.
    wp_step. eapply wp_rd; [done..|]. by wp_steps.
Qed.

(** The physical address behind [va], by the tree. *)
Definition va_pleaf s r va : option Z := pleaf (v_mem s) r (vpath va) (va_index va 12).
Definition translation s r va : option Z :=
  (fun e => frame e * PAGE_SIZE + va mod PAGE_SIZE) <$> va_pleaf s r va.

Lemma leaf_entry_ok s roots r p i e :
  vinv s roots -> r ∈ roots -> upath p -> uindex p i -> leaf_at (v_mem s) r p i = Some e -> entry_ok e.
Proof.
  intros Hi Hr Hp Hx. unfold leaf_at. destruct (table_at _ _ _) as [t|] eqn:Et; [|done]. cbn [mbind option_bind].
  destruct (table_of _ _) as [ws|] eqn:Ew; [|done]. cbn [mbind option_bind]. intros He.
  by destruct (vi_entry _ _ Hi r p t ws i e).
Qed.

Lemma wp_translate s roots r va (Q : Z -> vmm F -> Prop) :
  vinv s roots -> r ∈ roots -> user_va va ->
  Q (default PHYS_ADDR_INVALID (translation s r va)) s -> wp (vmm_translate (r * PAGE_SIZE) va) Q s.
Proof.
  intros Hi Hr Hv HQ. unfold vmm_translate, translation, va_pleaf, pleaf in *. wp_step. eapply wp_leaf; [done..|].
  change (leaf_at _ _ _ _) with (va_leaf s r va) in HQ.
  destruct (va_leaf s r va) as [e|] eqn:E; [|by wp_steps]. cbn [mbind option_bind] in HQ.
  assert (entry_ok e) by (eapply leaf_entry_ok; [done|done|by apply vpath_upath|apply va_uindex|exact E]).
  destruct (flag e PAGE_PRESENT); cbn [negb]; wp_steps; [|done]. rewrite land_frame by done.
  change (PAGE_SIZE - 1) with (Z.ones 12). rewrite Z.land_ones by lia. change (2 ^ 12) with PAGE_SIZE.
  unfold PAGE_SIZE in *. rewrite lor_flags by (apply Z.mod_pos_bound; lia). exact HQ.
Qed.

(** *** Updates of the tree *)

Lemma table_not_data s roots r p t x :
  vinv s roots -> r ∈ roots -> upath p -> table_at (v_mem s) r p = Some t -> is_Some (data_of (v_mem s) x) -> x <> t.
Proof.
  intros Hi Hr Hp Ht [bs Hd] ->. destruct (vi_table _ _ Hi r p t Hr Hp Ht) as (_ & ws & Hws & _).
  unfold table_of, data_of in *. destruct (v_mem s !! t) as [[]|]; done.
Qed.

Lemma page_data_insert_table m t ws f :
  page_data m f -> f <> t -> page_data (<[t := FTable ws]> m) f.
Proof. intros (bs & Hd & ?) Hne. exists bs. rewrite data_of_insert, decide_False by done. done. Qed.

Lemma child_insert m t ws i e' x j :
  table_of m t = Some ws -> (Z.to_nat i < length ws)%nat -> 0 <= i -> 0 <= j ->
  child (<[t := FTable (<[Z.to_nat i := e']> ws)]> m) x j =
  if decide (x = t /\ j = i) then if flag e' PAGE_PRESENT && negb (flag e' PAGE_HUGE) then Some (frame e') else None
  else child m x j.
Proof.
  intros Ht Hlen Hi Hj. unfold child. rewrite table_of_insert. destruct (decide (x = t)) as [->|].
  - cbn [mbind option_bind]. destruct (decide (j = i)) as [->|].
    + rewrite list_lookup_insert_eq, decide_True by done. done.
    + rewrite list_lookup_insert_ne, decide_False by (intros; lia || naive_solver). by rewrite Ht.
  - by rewrite decide_False by naive_solver.
Qed.

(** Changing only flags of an upper entry. *)
Lemma vinv_touch s roots r p t ws i e e' :
  vinv s roots -> r ∈ roots -> upath p -> (length p < 3)%nat -> uindex p i ->
  table_at (v_mem s) r p = Some t -> table_of (v_mem s) t = Some ws -> ws !! Z.to_nat i = Some e ->
  entry_ok e' -> frame e' = frame e -> flag e' PAGE_PRESENT = flag e PAGE_PRESENT ->
  flag e' PAGE_HUGE = flag e PAGE_HUGE ->
  let s' := set_vmem (<[t := FTable (<[Z.to_nat i := e']> ws)]> (v_mem s)) s in
  vinv s' roots /\ (forall r p, table_at (v_mem s') r p = table_at (v_mem s) r p)
  /\ (forall r p i, slot roots r p i -> pleaf (v_mem s') r p i = pleaf (v_mem s) r p i).
Proof.
  intros Hi Hr Hp Hl Hx Ht Hws He Hok Hf Hpr Hh s'. pose proof (lookup_lt_Some _ _ _ He) as Hlen.
  assert (forall r' p', table_at (v_mem s') r' p' = table_at (v_mem s) r' p') as Htab.
  { intros r' p'. apply table_at_ext. intros x j. simpl. unfold child. rewrite table_of_insert.
    destruct (decide (x = t)) as [->|]; [|done]. rewrite Hws. cbn [mbind option_bind].
    destruct (decide (Z.to_nat j = Z.to_nat i)) as [Ej|].
    - rewrite Ej, list_lookup_insert_eq, He by done. cbn [mbind option_bind]. by rewrite Hf, Hpr, Hh.
    - by rewrite list_lookup_insert_ne. }
  assert (forall r' p' j, slot roots r' p' j -> leaf_at (v_mem s') r' p' j = leaf_at (v_mem s) r' p' j) as Hleaf.
  { intros r' p' j (Hr' & Hp' & Hl' & _). unfold leaf_at. rewrite Htab.
    destruct (table_at (v_mem s) r' p') as [t'|] eqn:Et; [|done]. cbn [mbind option_bind]. simpl.
    rewrite table_of_insert, decide_False; [done|]. intros ->.
    destruct (vi_inj _ _ Hi r' p' r p t) as [_ ->]; [done..|]. lia. }
  assert (forall r' p' j, slot roots r' p' j -> pleaf (v_mem s') r' p' j = pleaf (v_mem s) r' p' j) as Hpl.
  { intros r' p' j Hs. unfold pleaf. by rewrite Hleaf. }
  split_and!; [|done|done]. split.
  - apply Hi.
  - apply Hi.
  - intros r' p' t' Hr' Hp' Ht'. rewrite Htab in Ht'. destruct (vi_table _ _ Hi r' p' t' Hr' Hp' Ht') as (Hh' & ws' & Hws' & Hl').
    split; [done|]. simpl. rewrite table_of_insert. case_decide; [|eauto]. subst. eexists. split; [done|].
    rewrite length_insert. congruence.
  - intros r' p' t' ws' j e0 Hr' Hp' Hx' Ht' Hws' He0. rewrite Htab in Ht'. simpl in Hws'.
    rewrite table_of_insert in Hws'. case_decide as Ett; [|by eapply (vi_entry _ _ Hi)].
    subst t'. injection Hws' as <-. destruct (vi_inj _ _ Hi r' p' r p t) as [-> ->]; [done..|].
    destruct (decide (Z.to_nat j = Z.to_nat i)) as [Ej|].
    + rewrite Ej, list_lookup_insert_eq in He0 by done. injection He0 as <-. split; [done|].
      rewrite Hpr, Hh. apply (vi_entry _ _ Hi r p t ws i e); done.
    + rewrite list_lookup_insert_ne in He0 by done. by eapply (vi_entry _ _ Hi).
  - intros r1 p1 r2 p2 t'. rewrite !Htab. apply (vi_inj _ _ Hi).
  - intros r' p' j e0 Hs He0. rewrite Hpl in He0 by done. destruct (vi_leaf _ _ Hi r' p' j e0 Hs He0) as [Hh' Hd].
    split; [done|]. apply page_data_insert_table; [done|]. eapply table_not_data; [done..|]. destruct Hd as (bs & -> & _). done.
  - intros r1 p1 i1 e1 r2 p2 i2 e2 Hs1 Hs2. rewrite !Hpl by done. by apply (vi_leaf_inj _ _ Hi).
Qed.

Section Fresh.
  Context (s : vmm F) (roots : gset Z) (r t i e e' f : Z) (p ws : list Z) (fr : F).
  Hypotheses (Hi : vinv s roots) (Hr : r ∈ roots) (Hp : upath p) (Hl : (length p < 3)%nat) (Hx : uindex p i)
    (Ht : table_at (v_mem s) r p = Some t) (Hws : table_of (v_mem s) t = Some ws)
    (He : ws !! Z.to_nat i = Some e) (Habs : flag e PAGE_PRESENT = false)
    (Hfr : fa_inv fr) (Htot : fa_total fr = fa_total (v_frames s)) (Hf : f ∈ fa_free (v_frames s))
    (Hfb : 0 < f < fa_total (v_frames s)) (Hfree : fa_free fr = fa_free (v_frames s) ∖ {[f]})
    (Hok : entry_ok e') (Hfe : frame e' = f) (Hpr : flag e' PAGE_PRESENT = true) (Hhu : flag e' PAGE_HUGE = false).

(** A zeroed table from a fresh frame hung below an absent upper entry. *)
Definition fresh_state : vmm F :=
  set_vmem (<[t := FTable (<[Z.to_nat i := e']> ws)]> (<[f := FTable (replicate 512 0)]> (v_mem s))) (set_vframes fr s).
Let m' := v_mem fresh_state.

Lemma fresh_not_held x : held s x -> x <> f.
Proof. intros [_ Hn] ->. done. Qed.

Lemma fresh_held x : held s x -> held fresh_state x.
Proof. intros [? ?]. split; simpl; [by rewrite Htot|rewrite Hfree; set_solver]. Qed.

Lemma fresh_table_of x : held s x -> x <> t -> table_of m' x = table_of (v_mem s) x.
Proof. intros Hh Hne. unfold m'. simpl. rewrite !table_of_insert, !decide_False by (done || by apply fresh_not_held). done. Qed.

Lemma fresh_t_of : table_of m' t = Some (<[Z.to_nat i := e']> ws).
Proof. unfold m'. simpl. by rewrite table_of_insert, decide_True. Qed.

Lemma fresh_f_of : table_of m' f = Some (replicate 512 0).
Proof.
  unfold m'. simpl. rewrite table_of_insert, decide_False; [by rewrite table_of_insert, decide_True|].
  destruct (vi_table _ _ Hi r p t) as [Hh _]; [done..|]. apply not_eq_sym. by apply fresh_not_held.
Qed.

Lemma zero_table_child j : child m' f j = None.
Proof.
  unfold child. rewrite fresh_f_of. cbn [mbind option_bind].
  destruct (replicate 512 0 !! Z.to_nat j) as [x|] eqn:E; [|done]. by apply lookup_replicate in E as [-> _].
Qed.

Lemma absent_child : child (v_mem s) t i = None.
Proof. unfold child. rewrite Hws. cbn [mbind option_bind]. rewrite He. cbn [mbind option_bind]. by rewrite Habs. Qed.

Lemma fresh_table_at r' p' :
  r' ∈ roots -> upath p' ->
  table_at m' r' p' = if decide (r' = r /\ p' = p ++ [i]) then Some f else table_at (v_mem s) r' p'.
Proof.
  intros Hr'. revert p'. apply upath_ind.
  { rewrite decide_False; [done|]. intros [_ E]. by destruct p. }
  intros q j Hq Hj Hlq IH. rewrite !table_at_snoc, IH.
  destruct (decide (r' = r /\ q = p ++ [i])) as [[-> ->]|Hne].
  - cbn [mbind option_bind]. rewrite zero_table_child. rewrite decide_False.
    + rewrite table_at_snoc, Ht. cbn [mbind option_bind]. by rewrite absent_child.
    + intros [_ E]. apply (f_equal length) in E. rewrite !length_app in E. simpl in E. lia.
  - destruct (table_at (v_mem s) r' q) as [tq|] eqn:Eq; cbn [mbind option_bind].
    2: { rewrite decide_False; [done|]. intros [-> [-> _]%app_inj_2]; [|done]. congruence. }
    destruct (vi_table _ _ Hi r' q tq) as [Hh _]; [done..|].
    destruct (decide (tq = t)) as [->|Htq].
    + destruct (vi_inj _ _ Hi r' q r p t) as [-> ->]; [done..|].
      unfold child at 1. rewrite fresh_t_of. cbn [mbind option_bind]. destruct (decide (j = i)) as [->|Hji].
      * rewrite decide_True by done. rewrite list_lookup_insert_eq by (by eapply lookup_lt_Some).
        cbn [mbind option_bind]. by rewrite Hpr, Hhu, Hfe.
      * rewrite decide_False by (intros [_ [_ [=]]%app_inj_2]; done).
        unfold child. rewrite Hws. cbn [mbind option_bind].
        rewrite list_lookup_insert_ne; [done|]. destruct Hj, Hx. lia.
    + rewrite decide_False by (intros [-> [-> _]%app_inj_2]; [congruence|done]).
      unfold child. by rewrite fresh_table_of.
Qed.

Lemma absent_table : table_at (v_mem s) r (p ++ [i]) = None.
Proof. rewrite table_at_snoc, Ht. cbn [mbind option_bind]. apply absent_child. Qed.

Lemma fresh_pleaf r' p' j : slot roots r' p' j -> pleaf m' r' p' j = pleaf (v_mem s) r' p' j.
Proof.
  intros (Hr' & Hp' & Hl' & Hj). unfold pleaf, leaf_at. rewrite fresh_table_at by done.
  case_decide as Hd.
  - destruct Hd as [-> ->]. rewrite absent_table. cbn [mbind option_bind]. rewrite fresh_f_of. cbn [mbind option_bind].
    destruct (replicate 512 0 !! Z.to_nat j) as [x|] eqn:E; [|done]. by apply lookup_replicate in E as [-> _].
  - destruct (table_at (v_mem s) r' p') as [t'|] eqn:Et; [|done]. cbn [mbind option_bind].
    destruct (vi_table _ _ Hi r' p' t') as [Hh _]; [done..|]. rewrite fresh_table_of; [done|done|].
    intros ->. destruct (vi_inj _ _ Hi r' p' r p t) as [_ ->]; [done..|]. lia.
Qed.

Lemma fresh_page_data x : held s x -> page_data (v_mem s) x -> page_data m' x.
Proof.
  intros Hh Hd. apply page_data_insert_table; [|].
  - apply page_data_insert_table; [done|by apply fresh_not_held].
  - eapply table_not_data; [done..|]. destruct Hd as (bs & -> & _). done.
Qed.

Lemma fresh_table_shape r' p' t' :
  r' ∈ roots -> upath p' -> table_at m' r' p' = Some t' ->
  exists ws', table_of m' t' = Some ws' /\ length ws' = 512%nat.
Proof.
  intros Hr' Hp' Ht'. rewrite fresh_table_at in Ht' by done. case_decide as Hd.
  { injection Ht' as <-. rewrite fresh_f_of. eexists. split; [done|]. apply length_replicate. }
  destruct (vi_table _ _ Hi r' p' t') as (Hh & ws' & Hws' & Hlen); [done..|]. destruct (decide (t' = t)) as [->|].
  - rewrite fresh_t_of. eexists. split; [done|]. rewrite length_insert. congruence.
  - rewrite fresh_table_of by done. eauto.
Qed.

Lemma fresh_entry r' p' t' ws' j e0 :
  r' ∈ roots -> upath p' -> uindex p' j -> table_at m' r' p' = Some t' -> table_of m' t' = Some ws' ->
  ws' !! Z.to_nat j = Some e0 ->
  entry_ok e0 /\ ((length p' < 3)%nat -> flag e0 PAGE_PRESENT = true -> flag e0 PAGE_HUGE = false).
Proof.
  intros Hr' Hp' Hj Ht' Hws' He0. rewrite fresh_table_at in Ht' by done. case_decide as Hd.
  { injection Ht' as <-. rewrite fresh_f_of in Hws'. assert (ws' = replicate 512 0) as -> by congruence.
    apply lookup_replicate in He0 as [-> _]. split; [unfold entry_ok; lia|done]. }
  destruct (vi_table _ _ Hi r' p' t') as (Hh & _); [done..|]. destruct (decide (t' = t)) as [->|].
  - rewrite fresh_t_of in Hws'. injection Hws' as <-. destruct (vi_inj _ _ Hi r' p' r p t) as [-> ->]; [done..|].
    destruct (decide (Z.to_nat j = Z.to_nat i)) as [Ej|].
    + rewrite Ej, list_lookup_insert_eq in He0 by (by eapply lookup_lt_Some). injection He0 as <-. done.
    + rewrite list_lookup_insert_ne in He0 by done. by eapply (vi_entry _ _ Hi).
  - rewrite fresh_table_of in Hws' by done. by eapply (vi_entry _ _ Hi).
Qed.

Lemma vinv_fresh : vinv fresh_state roots.
Proof.
  split.
  - done.
  - apply Hi.
  - intros r' p' t' Hr' Hp' Ht'. split; [|by eapply fresh_table_shape]. fold m' in Ht'.
    rewrite fresh_table_at in Ht' by done. case_decide.
    + injection Ht' as <-. split; simpl; [by rewrite Htot|rewrite Hfree; set_solver].
    + apply fresh_held. by destruct (vi_table _ _ Hi r' p' t').
  - apply fresh_entry.
  - intros r1 p1 r2 p2 t' Hr1 Hr2 Hp1 Hp2. fold m'. rewrite !fresh_table_at by done.
    repeat case_decide; intros E1 E2.
    + naive_solver.
    + injection E1 as <-. destruct (vi_table _ _ Hi r2 p2 f) as [Hh _]; [done..|]. by apply fresh_not_held in Hh.
    + injection E2 as <-. destruct (vi_table _ _ Hi r1 p1 f) as [Hh _]; [done..|]. by apply fresh_not_held in Hh.
    + by eapply (vi_inj _ _ Hi).
  - intros r' p' j e0 Hs. fold m'. rewrite fresh_pleaf by done. intros He0.
    destruct (vi_leaf _ _ Hi r' p' j e0 Hs He0). split; [by apply fresh_held|by apply fresh_page_data].
  - intros r1 p1 i1 e1 r2 p2 i2 e2 Hs1 Hs2. fold m'. rewrite !fresh_pleaf by done. by apply (vi_leaf_inj _ _ Hi).
Qed.
End Fresh.

Section Leaf.
  Context (s : vmm F) (roots : gset Z) (r t i e' : Z) (p ws : list Z).
  Hypotheses (Hi : vinv s roots) (Hs : slot roots r p i) (Ht : table_at (v_mem s) r p = Some t)
    (Hws : table_of (v_mem s) t = Some ws) (Hlen : length ws = 512%nat) (Hok : entry_ok e')
    (Hmap : flag e' PAGE_PRESENT = true -> held s (frame e') /\ page_data (v_mem s) (frame e') /\
       forall r' p' i' e0, slot roots r' p' i' -> pleaf (v_mem s) r' p' i' = Some e0 -> frame e0 = frame e' ->
         r' = r /\ p' = p /\ i' = i).

(** Writing a leaf entry. *)
Definition leaf_state : vmm F := set_vmem (<[t := FTable (<[Z.to_nat i := e']> ws)]> (v_mem s)) s.
Let m' := v_mem leaf_state.

Lemma leaf_table_of x : x <> t -> table_of m' x = table_of (v_mem s) x.
Proof. intros Hne. unfold m'. simpl. by rewrite table_of_insert, decide_False. Qed.

Lemma leaf_t_of : table_of m' t = Some (<[Z.to_nat i := e']> ws).
Proof. unfold m'. simpl. by rewrite table_of_insert, decide_True. Qed.

Lemma leaf_table_at r' p' : r' ∈ roots -> upath p' -> table_at m' r' p' = table_at (v_mem s) r' p'.
Proof.
  intros Hr'. destruct Hs as (Hr & Hp & Hl & Hx). revert p'. apply upath_ind; [done|].
  intros q j Hq Hj Hlq IH. rewrite !table_at_snoc, IH.
  destruct (table_at (v_mem s) r' q) as [tq|] eqn:Eq; [|done]. cbn [mbind option_bind].
  unfold child. rewrite leaf_table_of; [done|]. intros ->.
  destruct (vi_inj _ _ Hi r' q r p t) as [_ ->]; [done..|]. lia.
Qed.

Lemma leaf_pleaf r' p' j :
  slot roots r' p' j -> pleaf m' r' p' j =
  if decide (r' = r /\ p' = p /\ j = i) then (if flag e' PAGE_PRESENT then Some e' else None)
  else pleaf (v_mem s) r' p' j.
Proof.
  intros (Hr' & Hp' & Hl' & Hj). pose proof Hs as (Hr & Hp & Hl & Hx).
  unfold pleaf, leaf_at. rewrite leaf_table_at by done.
  destruct (table_at (v_mem s) r' p') as [t'|] eqn:Et; cbn [mbind option_bind].
  2: { rewrite decide_False; [done|]. intros (-> & -> & _). congruence. }
  destruct (decide (t' = t)) as [->|Hne].
  - destruct (vi_inj _ _ Hi r' p' r p t) as [-> ->]; [done..|]. rewrite leaf_t_of. cbn [mbind option_bind].
    destruct (decide (j = i)) as [->|Hji].
    + rewrite decide_True by done. rewrite list_lookup_insert_eq; [done|]. destruct Hx. lia.
    + rewrite decide_False by naive_solver. rewrite list_lookup_insert_ne by (destruct Hx, Hj; lia). by rewrite Hws.
  - rewrite decide_False by (intros (-> & -> & _); congruence). by rewrite leaf_table_of.
Qed.

Lemma leaf_page_data x : page_data (v_mem s) x -> page_data m' x.
Proof.
  intros Hd. apply page_data_insert_table; [done|]. destruct Hs as (Hr & Hp & _).
  eapply table_not_data; [done..|]. destruct Hd as (bs & -> & _). done.
Qed.

Lemma vinv_leaf_set : vinv leaf_state roots.
Proof.
  pose proof Hs as (Hr & Hp & Hl & Hx). split.
  - apply Hi.
  - apply Hi.
  - intros r' p' t' Hr' Hp'. fold m'. rewrite leaf_table_at by done. intros Ht'.
    destruct (vi_table _ _ Hi r' p' t') as (Hh & ws' & Hws' & Hlen'); [done..|]. split; [done|].
    destruct (decide (t' = t)) as [->|]; [|rewrite leaf_table_of; eauto]. rewrite leaf_t_of.
    eexists. split; [done|]. by rewrite length_insert.
  - intros r' p' t' ws' j e0 Hr' Hp' Hj. fold m'. rewrite leaf_table_at by done. intros Ht' Hws' He0.
    destruct (decide (t' = t)) as [->|]; [|rewrite leaf_table_of in Hws' by done; by eapply (vi_entry _ _ Hi)].
    rewrite leaf_t_of in Hws'. injection Hws' as <-. destruct (vi_inj _ _ Hi r' p' r p t) as [-> ->]; [done..|].
    destruct (decide (Z.to_nat j = Z.to_nat i)) as [Ej|].
    + rewrite Ej, list_lookup_insert_eq in He0 by (destruct Hx; lia). injection He0 as <-. split; [done|lia].
    + rewrite list_lookup_insert_ne in He0 by done. by eapply (vi_entry _ _ Hi).
  - intros r1 p1 r2 p2 t' Hr1 Hr2 Hp1 Hp2. fold m'. rewrite !leaf_table_at by done. by apply (vi_inj _ _ Hi).
  - intros r' p' j e0 Hs'. fold m'. rewrite leaf_pleaf by done. case_decide.
    + destruct (flag e' PAGE_PRESENT) eqn:Ep; [|done]. intros [= <-]. destruct (Hmap eq_refl) as (? & ? & _).
      split; [done|by apply leaf_page_data].
    + intros He0. destruct (vi_leaf _ _ Hi r' p' j e0 Hs' He0). split; [done|by apply leaf_page_data].
  - intros r1 p1 i1 e1 r2 p2 i2 e2 Hs1 Hs2. fold m'. rewrite !leaf_pleaf by done.
    assert (forall r0 p0 i0 e0, slot roots r0 p0 i0 -> pleaf (v_mem s) r0 p0 i0 = Some e0 ->
      (if flag e' PAGE_PRESENT then Some e' else None) = Some e' -> frame e0 = frame e' ->
      r0 = r /\ p0 = p /\ i0 = i) as Hu.
    { intros r0 p0 i0 e0 Hs0 E0 Ep. destruct (flag e' PAGE_PRESENT) eqn:Ef; [|done].
      destruct (Hmap eq_refl) as (_ & _ & Hu). by eapply Hu. }
    destruct (decide (r1 = r /\ p1 = p /\ i1 = i)) as [D1|D1], (decide (r2 = r /\ p2 = p /\ i2 = i)) as [D2|D2]; intros E1 E2 Ef.
    + destruct D1 as (-> & -> & ->), D2 as (-> & -> & ->). done.
    + assert (e1 = e') as -> by (destruct (flag e' PAGE_PRESENT); congruence).
      exfalso. apply D2. by apply (Hu r2 p2 i2 e2).
    + assert (e2 = e') as -> by (destruct (flag e' PAGE_PRESENT); congruence).
      exfalso. apply D1. by apply (Hu r1 p1 i1 e1).
    + by eapply (vi_leaf_inj _ _ Hi).
Qed.
End Leaf.

(** *** Mapping a page *)

(** Frames in use stay in use with their bytes; nothing else of the state
    but tables and the allocator changes. *)
Definition keeps s s' : Prop :=
  fa_total (v_frames s') = fa_total (v_frames s) /\ fa_free (v_frames s') ⊆ fa_free (v_frames s)
  /\ page_table_l4 s' = page_table_l4 s /\ kernel_address_space s' = kernel_address_space s
  /\ io_next s' = io_next s
  /\ forall x bs, held s x -> data_of (v_mem s) x = Some bs -> data_of (v_mem s') x = Some bs.

Lemma keeps_held s s' x : keeps s s' -> held s x -> held s' x.
Proof. intros (Ht & Hf & _) [? ?]. split; [by rewrite Ht|set_solver]. Qed.

#[global] Instance keeps_preorder : PreOrder keeps.
Proof.
  split; [by intros s|]. intros s1 s2 s3 H12 H23. pose proof (fun x => keeps_held s1 s2 x H12) as Hh.
  destruct H12 as (? & ? & ? & ? & ? & Hd1), H23 as (? & ? & ? & ? & ? & Hd2).
  split_and!; [congruence|set_solver|congruence..|]. eauto.
Qed.

Definition same_leaves s s' roots : Prop :=
  forall r p i, slot roots r p i -> pleaf (v_mem s') r p i = pleaf (v_mem s) r p i.

Lemma keeps_table s t ws ws' : table_of (v_mem s) t = Some ws -> keeps s (set_vmem (<[t := FTable ws']> (v_mem s)) s).
Proof.
  intros Hws. split_and!; [done..|]. intros x bs _ Hd. simpl. rewrite data_of_insert, decide_False; [done|].
  intros ->. unfold table_of, data_of in *. by destruct (v_mem s !! t) as [[]|].
Qed.

(** Taking frames from the allocator. *)
Lemma vinv_set_frames s roots fr :
  vinv s roots -> fa_inv fr -> fa_total fr = fa_total (v_frames s) -> fa_free fr ⊆ fa_free (v_frames s) ->
  vinv (set_vframes fr s) roots.
Proof.
  intros Hi Hfr Ht Hsub. assert (keeps s (set_vframes fr s)) as Hk by (split_and!; done).
  split; simpl; [done|apply Hi| |apply Hi|apply Hi| |apply Hi].
  - intros r' p' t' Hr' Hp' Ht'. destruct (vi_table _ _ Hi r' p' t') as [Hh ?]; [done..|].
    split; [by eapply keeps_held|done].
  - intros r' p' j e0 Hs He0. destruct (vi_leaf _ _ Hi r' p' j e0 Hs He0) as [Hh ?].
    split; [by eapply keeps_held|done].
Qed.

(** The entry written for a new table. *)
Lemma table_entry f (wu : bool) :
  0 < f < 262144 ->
  let e := Z.lor (Z.lor (Z.lor (f * PAGE_SIZE) PAGE_PRESENT) PAGE_WRITE) (if wu then PAGE_USER else 0) in
  entry_ok e /\ frame e = f /\ flag e PAGE_PRESENT = true /\ flag e PAGE_HUGE = false.
Proof.
  intros Hf. cbv zeta. unfold PAGE_SIZE.
  assert (Z.lor (Z.lor (Z.lor (f * 4096) PAGE_PRESENT) PAGE_WRITE) (if wu then PAGE_USER else 0)
          = f * 4096 + (if wu then 7 else 3)) as ->.
  { rewrite <- !Z.lor_assoc. destruct wu; by rewrite lor_flags. }
  assert (0 <= (if wu then 7 else 3) < 4096) by (destruct wu; lia).
  assert (entry_ok (f * 4096 + (if wu then 7 else 3))) as Hok by (unfold entry_ok; lia).
  split_and!; [done| |rewrite flag_entry by done; by destruct wu..]. rewrite frame_eq by done. lia_div.
Qed.

Definition next_post s roots r p i (o : option Z) s' : Prop :=
  vinv s' roots /\ keeps s s' /\ same_leaves s s' roots /\
  match o with
  | None => fa_free (v_frames s') = ∅
  | Some x => exists t, x = t * PAGE_SIZE /\ table_at (v_mem s') r (p ++ [i]) = Some t
  end.

Lemma next_table_ok s roots r p i t wu :
  vinv s roots -> r ∈ roots -> upath (p ++ [i]) -> table_at (v_mem s) r p = Some t ->
  wp (next_table (t * PAGE_SIZE) i wu) (next_post s roots r p i) s.
Proof.
  intros Hi Hr Hpi Ht. pose proof Hpi as (Hp & Hx & Hl)%upath_snoc.
  destruct (entry_read s roots r p t i) as (ws & e & Hws & Hlen & He & Hok & Hhuge); [done..|].
  unfold next_table. wp_step. eapply wp_rd; [done..|]. destruct (flag e PAGE_PRESENT) eqn:Ep.
  - assert (child (v_mem s) t i = Some (frame e)) as Hc.
    { unfold child. rewrite Hws. cbn [mbind option_bind]. rewrite He. cbn [mbind option_bind]. by rewrite Ep, Hhuge. }
    assert (table_at (v_mem s) r (p ++ [i]) = Some (frame e)) as Hnext.
    { rewrite table_at_snoc, Ht. exact Hc. }
    rewrite land_frame_table by done. wp_step. destruct wu; cbn [when].
    + eapply wp_wr; [done..|]. wp_steps. destruct (set_user_entry e Hok) as (Hok' & Hf' & Hp' & Hh').
      destruct (vinv_touch s roots r p t ws i e (Z.lor e PAGE_USER)) as (Hi' & Htab & Hpl); [done..|].
      split_and!; [done|by eapply keeps_table|done|]. exists (frame e). by rewrite Htab.
    + wp_steps. split_and!; [done|done|done|]. eauto.
  - wp_step. unfold alloc_zeroed_table. wp_step. apply wp_v_alloc; [apply Hi| |].
    + intros fr Hfr Htot Hfree Hnone. rewrite Z.eqb_refl. wp_steps. rewrite Z.eqb_refl. wp_steps.
      assert (keeps s (set_vframes fr s)) as Hk by (split_and!; simpl; [done|by rewrite Hfree|done..]).
      split_and!; [|done|done|done]. apply vinv_set_frames; [done..|by rewrite Hfree].
    + intros fr f Hfr Htot Hf Hfb Hfree. rewrite frame_valid by lia. wp_step. apply wp_fill. wp_steps.
      rewrite frame_valid by lia. pose proof (fa_total_bound _ (vi_frames _ _ Hi)).
      destruct (table_entry f wu) as (Hok' & Hfe & Hpr & Hhu); [lia|]. set (e' := Z.lor _ _) in *.
      destruct (vi_table _ _ Hi r p t) as [Hh _]; [done..|].
      assert (t <> f) as Hne by (intros ->; destruct Hh; done).
      wp_step. eapply (wp_wr _ t i ws e); [simpl; by rewrite table_of_insert, decide_False|done|]. wp_steps.
      change (set_vmem _ _) with (fresh_state s t i e' f ws fr).
      split_and!; [by eapply (vinv_fresh s roots r t i e e' f p ws fr)| | |].
      * split_and!; simpl; [done|set_solver|done..|]. intros x bs Hhx Hd.
        assert (x <> f) by (intros ->; destruct Hhx; done).
        assert (x <> t) by (eapply table_not_data; [done..|by rewrite Hd]).
        by rewrite !data_of_insert, !decide_False by done.
      * intros r' p' j Hs. by apply (fresh_pleaf s roots r t i e e' f p ws fr).
      * exists f. split; [done|]. rewrite (fresh_table_at s roots r t i e e' f p ws fr) by done. by rewrite decide_True.
Qed.

(** A frame ready to be mapped at slot [(r, p, i)]: a page of bytes mapped
    nowhere else. *)
Definition mappable s roots r p i f : Prop :=
  held s f /\ page_data (v_mem s) f /\
  forall r' p' i' e, slot roots r' p' i' -> pleaf (v_mem s) r' p' i' = Some e -> frame e = f ->
    r' = r /\ p' = p /\ i' = i.

Lemma mappable_keeps s s' roots r p i f :
  keeps s s' -> same_leaves s s' roots -> mappable s roots r p i f -> mappable s' roots r p i f.
Proof.
  intros Hk Hl (Hh & (bs & Hd & ?) & Hu). split_and!; [by eapply keeps_held| |].
  - exists bs. split; [|done]. destruct Hk as (_ & _ & _ & _ & _ & Hk). by apply Hk.
  - intros r' p' i' e Hs. rewrite Hl by done. by apply Hu.
Qed.

Lemma leaf_entry f flags :
  0 <= f < 2 ^ 40 -> 0 <= flags < 4096 ->
  Z.lor (f * PAGE_SIZE) flags = f * PAGE_SIZE + flags /\ entry_ok (f * PAGE_SIZE + flags)
  /\ frame (f * PAGE_SIZE + flags) = f /\ forall k, 0 <= k < 4096 -> flag (f * PAGE_SIZE + flags) k = flag flags k.
Proof.
  intros Hf Hfl. unfold PAGE_SIZE. assert (entry_ok (f * 4096 + flags)) by (unfold entry_ok; lia).
  split_and!; [by apply lor_flags|done| |intros; by apply flag_entry]. rewrite frame_eq by done. lia_div.
Qed.

Definition map_post s roots r va e (x : Z) s' : Prop :=
  vinv s' roots /\ keeps s s' /\
  (x = 0 /\ (forall r' p i, slot roots r' p i -> pleaf (v_mem s') r' p i =
     if decide (r' = r /\ p = vpath va /\ i = va_index va 12) then Some e else pleaf (v_mem s) r' p i)
   \/ x = -1 /\ same_leaves s s' roots /\ fa_free (v_frames s') = ∅).

Lemma next_fail s roots r va e p i s' :
  next_post s roots r p i None s' -> map_post s roots r va e (-1) s'.
Proof. intros (? & ? & ? & ?). split_and!; [done|done|]. by right. Qed.

Lemma same_leaves_trans s1 s2 s3 roots : same_leaves s1 s2 roots -> same_leaves s2 s3 roots -> same_leaves s1 s3 roots.
Proof. intros H12 H23 r p i Hs. rewrite H23, H12; done. Qed.

Lemma last_table_next s roots r p i t wu :
  vinv s roots -> r ∈ roots -> upath (p ++ [i]) -> table_at (v_mem s) r p = Some t ->
  last_table (t * PAGE_SIZE) i wu s = next_table (t * PAGE_SIZE) i wu s.
Proof.
  intros Hi Hr Hpi Ht. pose proof Hpi as (Hp & Hx & Hl)%upath_snoc.
  destruct (entry_read s roots r p t i) as (ws & e & Hws & Hlen & He & Hok & Hhuge); [done..|].
  unfold last_table, rd, mbind, M_bind, get. rewrite Z.div_mul, Hws by done. unfold lift. cbn [mbind option_bind].
  rewrite He. destruct (flag e PAGE_PRESENT); [|done]. by rewrite Hhuge.
Qed.

Lemma map_page_ok s roots r va f flags :
  vinv s roots -> r ∈ roots -> user_va va -> 0 <= flags < 4096 -> flag flags PAGE_PRESENT = true ->
  mappable s roots r (vpath va) (va_index va 12) f ->
  wp (vmm_map_page (r * PAGE_SIZE) va (f * PAGE_SIZE) flags) (map_post s roots r va (f * PAGE_SIZE + flags)) s.
Proof.
  intros Hi Hr Hv Hfl Hpr Hm. pose proof (vpath_upath va Hv) as Hup3.
  change (vpath va) with ([va_index va 39; va_index va 30] ++ [va_index va 21]) in Hup3.
  pose proof Hup3 as (Hup2 & _)%upath_snoc.
  change [va_index va 39; va_index va 30] with ([va_index va 39] ++ [va_index va 30]) in Hup2.
  pose proof Hup2 as (Hup1 & _)%upath_snoc.
  unfold vmm_map_page. wp_step. eapply wp_mono; [apply (next_table_ok s roots r [] _ r); done|].
  intros [x|] s1 Hn1; [|by eapply wp_ret, next_fail]. destruct Hn1 as (Hi1 & Hk1 & Hl1 & t1 & -> & Ht1).
  cbn [app] in Ht1. wp_step. eapply wp_mono; [apply (next_table_ok s1 roots r [va_index va 39] _ t1); done|].
  intros [x|] s2 (Hi2 & Hk2 & Hl2 & Hx2).
  2: { wp_steps. split_and!; [done|by transitivity s1|]. right. split_and!; [done|by eapply same_leaves_trans|done]. }
  destruct Hx2 as (t2 & -> & Ht2). cbn [app] in Ht2.
  wp_step. unfold wp at 1. erewrite last_table_next; [|exact Hi2|exact Hr|exact Hup3|exact Ht2].
  apply (wp_mono (next_table (t2 * PAGE_SIZE) (va_index va 21) (flag flags PAGE_USER)) (next_post s2 roots r [va_index va 39; va_index va 30] (va_index va 21)));
    [by apply next_table_ok|].
  assert (keeps s s2) as Hk by by transitivity s1.
  assert (same_leaves s s2 roots) as Hl by by eapply same_leaves_trans.
  intros [x|] s3 (Hi3 & Hk3 & Hl3 & Hx3).
  2: { wp_steps. split_and!; [done|by transitivity s2|]. right. split_and!; [done|by eapply same_leaves_trans|done]. }
  destruct Hx3 as (t3 & -> & Ht3). change (table_at (v_mem s3) r (vpath va) = Some t3) in Ht3.
  assert (slot roots r (vpath va) (va_index va 12)) as Hslot by (split_and!; [done|by apply vpath_upath|done|apply va_uindex..]).
  destruct (entry_read s3 roots r (vpath va) t3 (va_index va 12)) as (ws & e & Hws & Hlen & He & _);
    [done|done|by apply vpath_upath|apply va_uindex|done|].
  assert (keeps s s3) as Hk' by by transitivity s2.
  assert (same_leaves s s3 roots) as Hl' by by eapply same_leaves_trans.
  pose proof (mappable_keeps _ _ _ _ _ _ _ Hk' Hl' Hm) as (Hh & Hd & Hu).
  pose proof (fa_total_bound _ (vi_frames _ _ Hi3)).
  destruct (leaf_entry f flags) as (-> & Hok & Hfe & Hflag); [destruct Hh; lia|done|].
  wp_step. eapply wp_wr; [done..|]. wp_steps. set (e' := f * PAGE_SIZE + flags) in *.
  assert (flag e' PAGE_PRESENT = true -> held s3 (frame e') /\ page_data (v_mem s3) (frame e') /\
       forall r' p' i' e0, slot roots r' p' i' -> pleaf (v_mem s3) r' p' i' = Some e0 -> frame e0 = frame e' ->
         r' = r /\ p' = vpath va /\ i' = va_index va 12) as Hmap by (rewrite Hfe; done).
  split_and!.
  - by apply (vinv_leaf_set s3 roots r t3 (va_index va 12) e' (vpath va) ws).
  - transitivity s3; [done|]. by eapply keeps_table.
  - left. split; [done|]. intros r' p' i' Hs'. rewrite <- Hl' by done.
    rewrite (leaf_pleaf s3 roots r t3 (va_index va 12) e' (vpath va) ws) by done.
    by rewrite (Hflag PAGE_PRESENT), Hpr by (unfold PAGE_PRESENT; lia).
Qed.
End View.
