(* ===== verification/VmmRange.v ===== *)
(** * Ranges of pages: what the vmm_*_range functions do to an address space

    Theorems on the range operations of vmm.c, for the user half of address
    spaces that satisfy [vinv]. They are stated on the pages themselves:
    [va_pleaf s r va] is the entry that maps [va] in the address space with
    root frame [r]. All three loops go through one lemma, [range_loop]. *)
From S2P Require Import Prelude Pmm Vmm.

(** The pages a range operation visits. *)
Definition in_range (start end_ va : Z) : Prop := start / 4096 <= va / 4096 /\ va / 4096 * 4096 < end_.

Lemma elem_of_range_pages start end_ x :
  0 <= start < 2 ^ 64 ->
  x ∈ range_pages start end_ <-> in_range start end_ x /\ x mod 4096 = 0.
Proof.
  intros Hs. unfold range_pages, page_steps, in_range. rewrite align_down_eq by done.
  rewrite list_elem_of_fmap. setoid_rewrite elem_of_range. unfold PAGE_SIZE. split.
  - intros (i & -> & Hi). rewrite <- Z.mul_add_distr_r, Z.div_mul, Z.mod_mul by lia. lia_div.
  - intros [[? ?] ?]. exists (x / 4096 - start / 4096). lia_div.
Qed.

Lemma NoDup_range_pages start end_ : NoDup (range_pages start end_).
Proof.
  unfold range_pages, page_steps. apply NoDup_fmap_2_strong; [|apply NoDup_seqZ].
  unfold PAGE_SIZE. intros. lia.
Qed.

#[local] Opaque zero_page.

Section Ranges.
  Context {F : Type} `{FA : FrameAlloc F}.
  Implicit Types (s : vmm F) (roots : gset Z).

Lemma va_pleaf_page s r va va' :
  user_va va -> user_va va' -> va / 4096 = va' / 4096 -> va_pleaf s r va = va_pleaf s r va'.
Proof. intros Hv Hv' E. destruct (vpath_page va va') as [E1 E2]; [done..|]. unfold va_pleaf. by rewrite E1, E2. Qed.

(** Only the page of [x] in the address space [r] may change. *)
Definition only_page s s' roots r x : Prop :=
  forall r' va, r' ∈ roots -> user_va va -> ~ (r' = r /\ va / 4096 = x / 4096) ->
    va_pleaf s' r' va = va_pleaf s r' va.

Lemma slot_va roots r va : r ∈ roots -> user_va va -> slot roots r (vpath va) (va_index va 12).
Proof. intros. split_and!; [done|by apply vpath_upath|done|apply va_uindex..]. Qed.

(** A change of one slot, seen at the addresses. *)
Lemma only_slot s s' roots r x o :
  r ∈ roots -> user_va x ->
  (forall r' p i, slot roots r' p i -> pleaf (v_mem s') r' p i =
     if decide (r' = r /\ p = vpath x /\ i = va_index x 12) then o else pleaf (v_mem s) r' p i) ->
  only_page s s' roots r x /\ va_pleaf s' r x = o.
Proof.
  intros Hr Hx Hp. split.
  - intros r' va Hr' Hv Hne. unfold va_pleaf. rewrite Hp, decide_False; [done| |by apply slot_va].
    intros (-> & E1 & E2). apply Hne. split; [done|]. by apply vpath_inj.
  - unfold va_pleaf. rewrite Hp by (by apply slot_va). by rewrite decide_True.
Qed.

Lemma same_only s s' roots r x :
  r ∈ roots -> user_va x -> same_leaves s s' roots -> only_page s s' roots r x /\ va_pleaf s' r x = va_pleaf s r x.
Proof. intros Hr Hx Hs. split; [intros r' va Hr' Hv _|]; apply Hs; by apply slot_va. Qed.

(** The loop rule: [K] is what every step keeps, [R] what it does to its page. *)
Section RangeLoop.
  Context (K : relation (vmm F)) `{!PreOrder K} (R : vmm F -> vmm F -> option Z -> option Z -> Prop).
  Hypothesis (R_stable : forall s1 s2 s3 s4 o o', K s1 s2 -> K s3 s4 -> R s2 s3 o o' -> R s1 s4 o o').

Definition range_post s roots r start end_ (ok : bool) s' : Prop :=
  vinv s' roots /\ K s s'
  /\ (forall r' va, r' ∈ roots -> user_va va -> ~ (r' = r /\ in_range start end_ va) -> va_pleaf s' r' va = va_pleaf s r' va)
  /\ (forall va, user_va va -> in_range start end_ va ->
        R s s' (va_pleaf s r va) (va_pleaf s' r va) \/ ok = false /\ va_pleaf s' r va = va_pleaf s r va)
  /\ (ok = false -> fa_free (v_frames s') = ∅).

Definition page_post s roots r x (ok : bool) s' : Prop :=
  vinv s' roots /\ K s s' /\ only_page s s' roots r x /\
  if ok then R s s' (va_pleaf s r x) (va_pleaf s' r x) else va_pleaf s' r x = va_pleaf s r x /\ fa_free (v_frames s') = ∅.

Lemma range_loop s roots r start end_ body :
  vinv s roots -> r ∈ roots -> 0 <= start <= end_ -> end_ <= 2 ^ 47 ->
  (forall s1 x, vinv s1 roots -> K s s1 -> user_va x -> x mod 4096 = 0 -> in_range start end_ x ->
     va_pleaf s1 r x = va_pleaf s r x -> wp (body x) (page_post s1 roots r x) s1) ->
  wp (for_while (range_pages start end_) body) (range_post s roots r start end_) s.
Proof.
  intros Hi Hr Hs He Hbody.
  pose (I := fun (done : list Z) s1 => vinv s1 roots /\ K s s1
    /\ (forall r' va, r' ∈ roots -> user_va va -> ~ (r' = r /\ va / 4096 * 4096 ∈ done) -> va_pleaf s1 r' va = va_pleaf s r' va)
    /\ (forall va, user_va va -> va / 4096 * 4096 ∈ done -> R s s1 (va_pleaf s r va) (va_pleaf s1 r va))).
  assert (forall va, user_va va -> in_range start end_ va <-> va / 4096 * 4096 ∈ range_pages start end_) as Hin.
  { intros va Hv. rewrite elem_of_range_pages by lia. unfold in_range. rewrite Z.div_mul, Z.mod_mul by lia. tauto. }
  apply (wp_for_while I).
  - split_and!; [done|done|done|]. intros va _ []%not_elem_of_nil.
  - intros done x todo s1 E (Hi1 & HK1 & Ho1 & HR1).
    assert (x ∈ range_pages start end_) as Hx by (rewrite E; set_solver).
    apply elem_of_range_pages in Hx as [Hx Hm]; [|lia].
    assert (user_va x) as Hv by (unfold user_va, in_range in *; lia_div).
    assert (x / 4096 * 4096 = x) as Ex by lia_div.
    assert (x ∉ done) as Hnd. { pose proof (NoDup_range_pages start end_) as Hd. rewrite E in Hd. apply NoDup_app in Hd as (_ & Hd & _). set_solver. }
    eapply wp_mono. { apply Hbody; [done..|]. apply Ho1; [done|done|]. rewrite Ex. tauto. }
    assert (forall va, user_va va -> va / 4096 * 4096 ∈ done -> va / 4096 <> x / 4096) as Hdx.
    { intros va _ Hd Exx. rewrite Exx, Ex in Hd. done. }
    intros ok s2 (Hi2 & HK2 & Ho2 & HR2).
    assert (K s s2) as HK by by transitivity s1.
    assert (forall r' va, r' ∈ roots -> user_va va -> ~ (r' = r /\ (va / 4096 * 4096 ∈ done \/ va / 4096 = x / 4096)) ->
      va_pleaf s2 r' va = va_pleaf s r' va) as Ho.
    { intros r' va Hr' Hva Hne. rewrite Ho2, Ho1; tauto. }
    assert (forall va, user_va va -> va / 4096 * 4096 ∈ done -> R s s2 (va_pleaf s r va) (va_pleaf s2 r va)) as HRd.
    { intros va Hva Hd. rewrite Ho2; [|done|done|intros [_ Exx]; by eapply Hdx]. eapply R_stable; [reflexivity|exact HK2|by apply HR1]. }
    assert (va_pleaf s1 r x = va_pleaf s r x) as Es1. { apply Ho1; [done|done|]. rewrite Ex. tauto. }
    destruct ok.
    + split_and!; [done|done| |].
      * intros r' va Hr' Hva Hne. apply Ho; [done|done|]. intros [-> [Hd|Exx]]; apply Hne; (split; [done|]); [set_solver|].
        rewrite Exx, Ex. set_solver.
      * intros va Hva [Hd|Exx%list_elem_of_singleton]%elem_of_app; [by apply HRd|].
        assert (va / 4096 = x / 4096) as Exx' by lia_div.
        rewrite !(va_pleaf_page _ _ va x) by done. rewrite <- Es1. eapply R_stable; [exact HK1|reflexivity|done].
    + destruct HR2 as [HR2 Hnone]. split_and!; [done|done| | |done].
      * intros r' va Hr' Hva Hne. apply Ho; [done|done|]. intros [-> Hd]. apply Hne. split; [done|]. apply Hin; [done|].
        rewrite E. destruct Hd as [Hd|Exx]; [set_solver|]. rewrite Exx, Ex. set_solver.
      * intros va Hva Hir. destruct (decide (va / 4096 * 4096 ∈ done)) as [Hd|Hd]; [left; by apply HRd|]. right. split; [done|].
        destruct (decide (va / 4096 = x / 4096)) as [Exx|Exx].
        -- rewrite !(va_pleaf_page _ _ va x) by done. congruence.
        -- apply Ho; tauto.
  - intros s' (Hi' & HK' & Ho' & HR'). split_and!; [done|done| | |done].
    + intros r' va Hr' Hva Hne. apply Ho'; [done|done|]. rewrite <- Hin by done. tauto.
    + intros va Hva Hir. left. apply HR'; [done|]. by apply Hin.
Qed.
End RangeLoop.

(** ** Allocation *)

(** New bytes in a frame that is no table. *)
Lemma vinv_set_data s roots f bs :
  vinv s roots -> (forall r p t, r ∈ roots -> upath p -> table_at (v_mem s) r p = Some t -> t <> f) ->
  length bs = 4096%nat -> Forall (fun b => 0 <= b < 256) bs ->
  let s' := set_vmem (<[f := FData bs]> (v_mem s)) s in
  vinv s' roots /\ same_leaves s s' roots.
Proof.
  intros Hi Hnt Hlen Hbs s'.
  assert (forall r p t, r ∈ roots -> upath p -> table_at (v_mem s) r p = Some t ->
    table_of (v_mem s') t = table_of (v_mem s) t) as Hof.
  { intros r p t Hr Hp Ht. simpl. by rewrite table_of_insert, decide_False by eauto. }
  assert (forall r p, r ∈ roots -> upath p -> table_at (v_mem s') r p = table_at (v_mem s) r p) as Htab.
  { intros r p Hr. revert p. apply upath_ind; [done|]. intros q j Hq Hj Hl IH. rewrite !table_at_snoc, IH.
    destruct (table_at (v_mem s) r q) as [t|] eqn:Et; [|done]. cbn [mbind option_bind]. unfold child.
    by rewrite (Hof r q). }
  assert (same_leaves s s' roots) as Hsl.
  { intros r p i (Hr & Hp & _). unfold pleaf, leaf_at. rewrite Htab by done.
    destruct (table_at (v_mem s) r p) as [t|] eqn:Et; [|done]. cbn [mbind option_bind]. by rewrite (Hof r p). }
  split; [|done]. split.
  - apply Hi.
  - apply Hi.
  - intros r p t Hr Hp. rewrite Htab by done. intros Ht. rewrite (Hof r p) by done. by apply (vi_table _ _ Hi r p).
  - intros r p t ws i e Hr Hp Hx. rewrite Htab by done. intros Ht. rewrite (Hof r p) by done. by apply (vi_entry _ _ Hi r p).
  - intros r p r' p' t Hr Hr' Hp Hp'. rewrite !Htab by done. by apply (vi_inj _ _ Hi).
  - intros r p i e Hs. rewrite Hsl by done. intros He. destruct (vi_leaf _ _ Hi r p i e) as [Hh (bs' & Hd & ?)]; [done..|].
    split; [done|]. unfold page_data. simpl. rewrite data_of_insert. case_decide; [by exists bs|]. by exists bs'.
  - intros r p i e r' p' i' e' Hs Hs'. rewrite !Hsl by done. by apply (vi_leaf_inj _ _ Hi).
Qed.

(** What vmm_alloc_range does to a page of its range: a page that is mapped
    stays, with the new flags if they allow writing; else a zeroed page comes
    from the free frames. *)
Definition alloc_at (flags : Z) s s' (o o' : option Z) : Prop :=
  match o with
  | Some e => o' = Some (if flag flags PAGE_WRITE then frame e * PAGE_SIZE + flags else e)
  | None => exists f, o' = Some (f * PAGE_SIZE + flags) /\ f ∈ fa_free (v_frames s) /\ held s' f
              /\ data_of (v_mem s') f = Some zero_page
  end.

Lemma alloc_at_stable flags s1 s2 s3 s4 o o' :
  keeps s1 s2 -> keeps s3 s4 -> alloc_at flags s2 s3 o o' -> alloc_at flags s1 s4 o o'.
Proof.
  intros H12 H34. destruct o as [e|]; [done|]. intros (f & -> & Hf & Hh & Hd). exists f.
  split_and!; [done| |by eapply keeps_held|].
  - destruct H12 as (_ & Hsub & _). by apply Hsub.
  - destruct H34 as (_ & _ & _ & _ & _ & Hk). by apply Hk.
Qed.

(** vmm_map_page at an address, seen at the pages. *)
Lemma map_page_at s roots r x f flags :
  vinv s roots -> r ∈ roots -> user_va x -> 0 <= flags < 4096 -> flag flags PAGE_PRESENT = true ->
  mappable s roots r (vpath x) (va_index x 12) f ->
  wp (ok ← vmm_map_page (r * PAGE_SIZE) x (f * PAGE_SIZE) flags; mret (negb (ok <? 0)))
     (page_post keeps (fun _ _ _ o' => o' = Some (f * PAGE_SIZE + flags)) s roots r x) s.
Proof.
  intros Hi Hr Hx Hfl Hpr Hm. wp_step. eapply wp_mono; [by apply map_page_ok|].
  intros z s' (Hi' & Hk & [[-> Hl]|(-> & Hl & Hnone)]); wp_steps.
  - apply only_slot in Hl as [Ho Hv]; [|done..]. by split_and!.
  - destruct (same_only s s' roots r x) as [Ho Hv]; [done..|]. by split_and!.
Qed.

Lemma remappable s roots r x e :
  vinv s roots -> r ∈ roots -> user_va x -> va_pleaf s r x = Some e ->
  mappable s roots r (vpath x) (va_index x 12) (frame e).
Proof.
  intros Hi Hr Hx He. assert (slot roots r (vpath x) (va_index x 12)) as Hs by by apply slot_va.
  destruct (vi_leaf _ _ Hi r (vpath x) (va_index x 12) e) as [? ?]; [done..|]. split_and!; [done..|].
  intros r' p' i' e' Hs' He' Ef. by eapply (vi_leaf_inj _ _ Hi).
Qed.

(** A zeroed frame fresh from the allocator. *)
Lemma fresh_mappable s roots r p i fr f :
  vinv s roots -> fa_inv fr -> fa_total fr = fa_total (v_frames s) -> f ∈ fa_free (v_frames s) ->
  0 < f < fa_total (v_frames s) -> fa_free fr = fa_free (v_frames s) ∖ {[f]} ->
  let s1 := set_vmem (<[f := FData zero_page]> (v_mem s)) (set_vframes fr s) in
  vinv s1 roots /\ keeps s s1 /\ same_leaves s s1 roots /\ mappable s1 roots r p i f.
Proof.
  intros Hi Hfr Ht Hf Hb Hfree s1.
  assert (vinv (set_vframes fr s) roots) as Hi0 by (apply vinv_set_frames; [done..|set_solver]).
  assert (forall x, held s x -> x <> f) as Hnf by (intros x [_ Hn] ->; done).
  destruct (vinv_set_data (set_vframes fr s) roots f zero_page) as [Hi1 Hl]; [done| |apply zero_page_ok..|].
  { intros r' p' t Hr' Hp' Htab. apply Hnf. by apply (vi_table _ _ Hi r' p' t). }
  split_and!; [done| |done|].
  - split_and!; simpl; [done|set_solver|done..|]. intros x bs Hx Hd. by rewrite data_of_insert, decide_False by auto.
  - split_and!; [split; simpl; [lia|set_solver]| |].
    + exists zero_page. split; [|apply zero_page_ok]. simpl. by rewrite data_of_insert, decide_True.
    + intros r' p' i' e Hs He Efr. exfalso. rewrite Hl in He by done. simpl in He.
      destruct (vi_leaf _ _ Hi r' p' i' e) as [Hh _]; [done..|]. by apply (Hnf _ Hh).
Qed.

Lemma alloc_page_ok s roots r x flags :
  vinv s roots -> r ∈ roots -> user_va x -> x mod 4096 = 0 -> 0 <= flags < 4096 -> flag flags PAGE_PRESENT = true ->
  wp (alloc_range_page (r * PAGE_SIZE) flags x) (page_post keeps (alloc_at flags) s roots r x) s.
Proof.
  intros Hi Hr Hx Hm Hfl Hpr. unfold alloc_range_page. wp_step. eapply wp_translate; [done..|]. unfold translation.
  destruct (va_pleaf s r x) as [e|] eqn:Ee; cbn [fmap option_fmap option_map default from_option id].
  - change (x mod PAGE_SIZE) with (x mod 4096). rewrite Hm, Z.add_0_r.
    pose proof (remappable s roots r x e Hi Hr Hx Ee) as Hmp. rewrite frame_valid by (by destruct Hmp as [[? ?] _]; lia).
    destruct (flag flags PAGE_WRITE) eqn:Ew; cbn [negb].
    + eapply wp_mono; [by apply map_page_at|]. intros ok s' (? & ? & ? & HR). split_and!; [done..|].
      destruct ok; [|done]. rewrite Ee. unfold alloc_at. by rewrite Ew.
    + wp_steps. split_and!; [done|done|by intros ?|]. rewrite Ee. unfold alloc_at. by rewrite Ew.
  - rewrite Z.eqb_refl. wp_step. apply wp_v_alloc; [apply Hi| |].
    + intros fr Hfr Ht Hfree Hnone. rewrite Z.eqb_refl. wp_steps. split_and!; [|split_and!; simpl; [done|by rewrite Hfree|done..]|done..].
      apply vinv_set_frames; [done..|by rewrite Hfree].
    + intros fr f Hfr Ht Hf Hb Hfree. rewrite frame_valid by lia. wp_step. apply wp_fill.
      destruct (fresh_mappable s roots r (vpath x) (va_index x 12) fr f) as (Hi1 & Hk1 & Hl1 & Hm1); [done..|].
      destruct (same_only s _ roots r x Hr Hx Hl1) as [Ho1 Ev1].
      eapply wp_mono; [by apply map_page_at|]. intros ok s' (Hi' & Hk' & Ho' & HR). split_and!; [done|by etransitivity| |].
      * intros r' va Hr' Hva Hne. rewrite Ho', Ho1; done.
      * destruct ok; [|destruct HR as [HR ?]; split; [by etransitivity; [exact HR|exact Ev1]|done]]. rewrite Ee. exists f. split_and!; [done|done|eapply keeps_held; [done|apply Hm1]|].
        destruct Hk' as (_ & _ & _ & _ & _ & Hk'). apply Hk'; [apply Hm1|]. simpl. by rewrite data_of_insert, decide_True.
Qed.

Lemma alloc_range_ok s roots r start end_ flags :
  vinv s roots -> r ∈ roots -> 0 <= start <= end_ -> end_ <= 2 ^ 47 ->
  0 <= flags < 4096 -> flag flags PAGE_PRESENT = true ->
  wp (vmm_alloc_range (r * PAGE_SIZE) start end_ flags) (fun x s' => (x = 0 \/ x = -1 /\ fa_free (v_frames s') = ∅) /\
    range_post keeps (alloc_at flags) s roots r start end_ (x =? 0) s') s.
Proof.
  intros Hi Hr Hs He Hfl Hpr. unfold vmm_alloc_range. wp_step. eapply wp_mono.
  - apply (range_loop keeps (alloc_at flags)); [apply alloc_at_stable|done..|].
    intros s1 x Hi1 _ Hx Hm _ _. by apply alloc_page_ok.
  - intros [] s' Hp; wp_steps; (split; [|exact Hp]); [by left|]. right. split; [done|]. by apply Hp.
Qed.

(** C17: vmm_alloc_range keeps the address spaces well formed and changes no
    page outside its range or of another address space. When it returns 0
    every page of the range is mapped: pages that were mapped keep their frame
    and contents, with the new flags only if those allow writing, and all
    others are zeroed pages from the free frames. It returns -1 only when no
    frame is free any more, and then each page of the range is either like
    that or as it was. *)
Theorem vmm_alloc_range_correct s roots r start end_ flags :
  vinv s roots -> r ∈ roots -> 0 <= start <= end_ -> end_ <= 2 ^ 47 ->
  0 <= flags < 4096 -> flag flags PAGE_PRESENT = true ->
  wp (vmm_alloc_range (r * PAGE_SIZE) start end_ flags) (fun x s' => (x = 0 \/ x = -1 /\ fa_free (v_frames s') = ∅) /\
    range_post keeps (alloc_at flags) s roots r start end_ (x =? 0) s') s.
Proof. apply alloc_range_ok. Qed.

(** ** Release and protection *)

Lemma pleaf_entry s r x t ws e :
  table_at (v_mem s) r (vpath x) = Some t -> table_of (v_mem s) t = Some ws ->
  ws !! Z.to_nat (va_index x 12) = Some e -> va_pleaf s r x = if flag e PAGE_PRESENT then Some e else None.
Proof.
  intros Ht Hws He. unfold va_pleaf, pleaf, leaf_at. rewrite Ht. cbn [mbind option_bind]. rewrite Hws.
  cbn [mbind option_bind]. by rewrite He.
Qed.

Lemma pleaf_no_table s r x : table_at (v_mem s) r (vpath x) = None -> va_pleaf s r x = None.
Proof. intros Ht. unfold va_pleaf, pleaf, leaf_at. by rewrite Ht. Qed.

(** A visit of the entry of [x]: nothing happens unless the page is mapped. *)
Lemma visit_page s roots r x body (Q : unit -> vmm F -> Prop) :
  vinv s roots -> r ∈ roots -> user_va x ->
  (va_pleaf s r x = None -> Q tt s) ->
  (forall t ws e, table_at (v_mem s) r (vpath x) = Some t -> table_of (v_mem s) t = Some ws -> length ws = 512%nat ->
     ws !! Z.to_nat (va_index x 12) = Some e -> entry_ok e -> va_pleaf s r x = Some e ->
     wp (body (t * PAGE_SIZE) (va_index x 12) e) Q s) ->
  wp (slot ← pte (r * PAGE_SIZE) x;
      match slot with
      | None => mret tt
      | Some (t, i) => e ← rd t i; when (flag e PAGE_PRESENT) (body t i e)
      end) Q s.
Proof.
  intros Hi Hr Hx H0 H1. wp_step. eapply wp_pte; [done..| |].
  - intros Ht. wp_steps. by apply H0, pleaf_no_table.
  - intros t Ht. destruct (entry_read s roots r (vpath x) t (va_index x 12)) as (ws & e & Hws & Hlen & He & Hok & _);
      [done|done|by apply vpath_upath|apply va_uindex|done|].
    pose proof (pleaf_entry s r x t ws e Ht Hws He) as Ev. wp_step. eapply wp_rd; [done..|].
    wp_step; rewrite H in Ev; [by eapply H1|by apply H0].
Qed.

(** Returning a page of bytes that nothing maps. *)
Lemma vinv_release s roots fr f :
  vinv s roots -> fa_inv fr -> fa_total fr = fa_total (v_frames s) -> fa_free fr = fa_free (v_frames s) ∪ {[f]} ->
  is_Some (data_of (v_mem s) f) ->
  (forall r p i e, slot roots r p i -> pleaf (v_mem s) r p i = Some e -> frame e <> f) ->
  vinv (set_vframes fr s) roots.
Proof.
  intros Hi Hfr Ht Hfree Hd Hun.
  assert (forall x, held s x -> x <> f -> held (set_vframes fr s) x) as Hh.
  { intros x [? ?] ?. split; simpl; [by rewrite Ht|set_solver]. }
  split; simpl; [done|apply Hi| |apply Hi|apply Hi| |apply Hi].
  - intros r p t Hr Hp Htab. destruct (vi_table _ _ Hi r p t) as [? ?]; [done..|]. split; [|done].
    apply Hh; [done|]. intros ->. by eapply table_not_data.
  - intros r p i e Hs He. destruct (vi_leaf _ _ Hi r p i e) as [? ?]; [done..|]. eauto.
Qed.

(** Frames are only returned, and only those in [A]; no byte changes. *)
Definition frees (A : Z -> Prop) s s' : Prop :=
  fa_total (v_frames s') = fa_total (v_frames s) /\ fa_free (v_frames s) ⊆ fa_free (v_frames s')
  /\ (forall f, f ∈ fa_free (v_frames s') -> f ∈ fa_free (v_frames s) \/ A f)
  /\ (forall x, data_of (v_mem s') x = data_of (v_mem s) x).

#[global] Instance frees_preorder A : PreOrder (frees A).
Proof.
  split; [intros s; split_and!; auto|]. intros s1 s2 s3 (? & ? & Ha & Hd) (? & ? & Hb & He).
  split_and!; [congruence|set_solver|naive_solver|congruence].
Qed.

(** The frames mapped in a range. *)
Definition mapped_in s r start end_ (f : Z) : Prop :=
  exists va e, user_va va /\ in_range start end_ va /\ va_pleaf s r va = Some e /\ frame e = f.

(** vmm_free_range unmaps a page and gives its frame back. *)
Definition free_at s s' (o o' : option Z) : Prop :=
  o' = None /\ forall e, o = Some e -> frame e ∈ fa_free (v_frames s').

(** vmm_protect_range changes the flags of a mapped page. *)
Definition protect_at (flags : Z) s s' (o o' : option Z) : Prop :=
  o' = (fun e => frame e * PAGE_SIZE + flags) <$> o.

(** Writing the entry of a page that is mapped. *)
Lemma set_entry s roots r x t ws e e' :
  vinv s roots -> r ∈ roots -> user_va x -> table_at (v_mem s) r (vpath x) = Some t ->
  table_of (v_mem s) t = Some ws -> length ws = 512%nat -> va_pleaf s r x = Some e -> entry_ok e' ->
  (flag e' PAGE_PRESENT = true -> frame e' = frame e) ->
  let s' := set_vmem (<[t := FTable (<[Z.to_nat (va_index x 12) := e']> ws)]> (v_mem s)) s in
  vinv s' roots /\ only_page s s' roots r x /\ va_pleaf s' r x = (if flag e' PAGE_PRESENT then Some e' else None)
  /\ (forall y, data_of (v_mem s') y = data_of (v_mem s) y)
  /\ (forall r' p i e0, slot roots r' p i -> pleaf (v_mem s') r' p i = Some e0 -> frame e0 = frame e ->
        flag e' PAGE_PRESENT = true).
Proof.
  intros Hi Hr Hx Ht Hws Hlen He Hok Hfr s'. assert (slot roots r (vpath x) (va_index x 12)) as Hs by by apply slot_va.
  pose proof (remappable s roots r x e Hi Hr Hx He) as (Hh & Hd & Hu).
  assert (flag e' PAGE_PRESENT = true -> held s (frame e') /\ page_data (v_mem s) (frame e') /\
       forall r' p' i' e0, slot roots r' p' i' -> pleaf (v_mem s) r' p' i' = Some e0 -> frame e0 = frame e' ->
         r' = r /\ p' = vpath x /\ i' = va_index x 12) as Hmap by (intros E; rewrite (Hfr E); done).
  pose proof (leaf_pleaf s roots r t (va_index x 12) e' (vpath x) ws Hi Hs Ht Hws Hlen Hmap) as Hpl. change (leaf_state s t (va_index x 12) e' ws) with s' in Hpl.
  destruct (only_slot s s' roots r x (if flag e' PAGE_PRESENT then Some e' else None)) as [Ho Hv]; [done|done|exact Hpl|].
  split_and!; [by apply (vinv_leaf_set s roots r t (va_index x 12) e' (vpath x) ws)|done|done| |].
  - intros y. simpl. rewrite data_of_insert. case_decide as Ey; [|done]. subst y. unfold table_of, data_of in *.
    by destruct (v_mem s !! t) as [[]|].
  - intros r' p i e0 Hs'. rewrite Hpl by done. case_decide as D; [by destruct (flag e' PAGE_PRESENT)|].
    intros He0 Ef. exfalso. by eapply D, Hu.
Qed.

Lemma free_page_ok (A : Z -> Prop) s roots r x :
  vinv s roots -> r ∈ roots -> user_va x -> (forall e, va_pleaf s r x = Some e -> A (frame e)) ->
  wp (free_range_page (r * PAGE_SIZE) x) (fun _ => page_post (frees A) free_at s roots r x true) s.
Proof.
  intros Hi Hr Hx HA. apply (visit_page s roots r x (fun t i e => _ ← v_free (Z.land e ADDR_MASK); wr t i 0)); [done..| |].
  { intros E. split_and!; [done|done|by intros ?|]. rewrite E. by split. }
  intros t ws e Ht Hws Hlen He Hok Ev. rewrite land_frame by done.
  pose proof (remappable s roots r x e Hi Hr Hx Ev) as (Hh & (bs & Hd & _) & _).
  wp_step. apply wp_v_free; [apply Hi|done|]. intros fr Hfr Htot Hfree. eapply wp_wr; [done..|].
  destruct (set_entry s roots r x t ws e 0) as (Hi' & Ho & Ev' & Hd' & Hu); [done..|unfold entry_ok; lia|done|].
  assert (flag 0 PAGE_PRESENT = false) as E0 by done. rewrite E0 in Ev', Hu.
  set (s1 := set_vmem _ s) in *. split_and!.
  - apply (vinv_release s1 roots fr (frame e)); [done..|rewrite Hd'; by rewrite Hd|].
    intros r' p i e0 Hs He0 Ef. by specialize (Hu _ _ _ _ Hs He0 Ef).
  - split_and!; simpl; [done|rewrite Hfree; apply union_subseteq_l| |exact Hd']. intros f. rewrite Hfree, elem_of_union, elem_of_singleton.
    intros [?| ->]; eauto.
  - done.
  - split; [done|]. rewrite Ev. intros e0 [= <-]. simpl. rewrite Hfree. by apply elem_of_union_r, elem_of_singleton.
Qed.

Lemma protect_page_ok s roots r x flags :
  vinv s roots -> r ∈ roots -> user_va x -> 0 <= flags < 4096 -> flag flags PAGE_PRESENT = true ->
  wp (protect_range_page (r * PAGE_SIZE) flags x)
     (fun _ => page_post (frees (fun _ => False)) (protect_at flags) s roots r x true) s.
Proof.
  intros Hi Hr Hx Hfl Hpr.
  apply (visit_page s roots r x (fun t i e => wr t i (Z.lor (Z.land e ADDR_MASK) flags))); [done..| |].
  { intros E. split_and!; [done|done|by intros ?|]. by rewrite E. }
  intros t ws e Ht Hws Hlen He Hok Ev. rewrite land_frame by done.
  pose proof (remappable s roots r x e Hi Hr Hx Ev) as (Hh & _).
  pose proof (fa_total_bound _ (vi_frames _ _ Hi)).
  destruct (leaf_entry (frame e) flags) as (-> & Hok' & Hf' & Hflag); [destruct Hh; lia|done|].
  eapply wp_wr; [done..|]. set (e' := frame e * PAGE_SIZE + flags) in *.
  assert (flag e' PAGE_PRESENT = true) as Hp' by (rewrite Hflag; [done|unfold PAGE_PRESENT; lia]).
  destruct (set_entry s roots r x t ws e e') as (Hi' & Ho & Ev' & Hd' & _); [done..|]. rewrite Hp' in Ev'.
  split_and!; [done| |done|by rewrite Ev', Ev]. split_and!; simpl; [done|done|auto|exact Hd'].
Qed.

Lemma for_each_while {A} (l : list A) body (Q : unit -> vmm F -> Prop) s :
  wp (for_while l (fun x => _ ← body x; mret true)) (fun b s' => b = true -> Q tt s') s -> wp (for_each l body) Q s.
Proof.
  revert s; induction l as [|x l IH]; intros s; [intros H; by apply H|]. cbn [for_while for_each]. unfold wp, mbind, M_bind.
  destruct (body x s) as [[[] s']|]; [|done]. exact (IH s').
Qed.

Lemma free_range_ok s roots r start end_ :
  vinv s roots -> r ∈ roots -> 0 <= start <= end_ -> end_ <= 2 ^ 47 ->
  wp (vmm_free_range (r * PAGE_SIZE) start end_) (fun _ =>
    range_post (frees (mapped_in s r start end_)) free_at s roots r start end_ true) s.
Proof.
  intros Hi Hr Hs He. apply for_each_while.
  eapply wp_mono; [apply (range_loop (frees (mapped_in s r start end_)) free_at); [|done..|]|].
  - intros s1 s2 s3 s4 o o' _ (_ & Hk & _) [-> Ho]. split; [done|]. eauto.
  - intros s1 x Hi1 _ Hx _ Hin Ev. wp_step. 
    eapply wp_mono; [apply (free_page_ok (mapped_in s r start end_)); [done..|]|].
    + intros e E. exists x, e. by rewrite <- Ev.
    + intros [] s' Hp. by wp_steps.
  - intros b s' Hp Hb. by rewrite Hb in Hp.
Qed.

(** vmm_free_range keeps the address spaces well formed. Afterwards no
    page of the range is mapped, the frames of those that were are free again,
    no other frame was released, and pages outside the range and of other
    address spaces are as they were. *)
Theorem vmm_free_range_correct s roots r start end_ :
  vinv s roots -> r ∈ roots -> 0 <= start <= end_ -> end_ <= 2 ^ 47 ->
  wp (vmm_free_range (r * PAGE_SIZE) start end_) (fun _ =>
    range_post (frees (mapped_in s r start end_)) free_at s roots r start end_ true) s.
Proof. apply free_range_ok. Qed.

Lemma protect_range_ok s roots r start end_ flags :
  vinv s roots -> r ∈ roots -> 0 <= start <= end_ -> end_ <= 2 ^ 47 ->
  0 <= flags < 4096 -> flag flags PAGE_PRESENT = true ->
  wp (vmm_protect_range (r * PAGE_SIZE) start end_ flags) (fun _ =>
    range_post (frees (fun _ => False)) (protect_at flags) s roots r start end_ true) s.
Proof.
  intros Hi Hr Hs He Hfl Hpr. apply for_each_while.
  eapply wp_mono; [apply (range_loop (frees (fun _ => False)) (protect_at flags)); [|done..|]|].
  - by intros s1 s2 s3 s4 o o' _ _ ?.
  - intros s1 x Hi1 _ Hx _ Hin Ev. wp_step. eapply wp_mono; [by apply protect_page_ok|].
    intros [] s' Hp. by wp_steps.
  - intros b s' Hp Hb. by rewrite Hb in Hp.
Qed.

(** vmm_protect_range keeps the address spaces well formed, gives every
    mapped page of its range the new flags over the same frame, maps and
    unmaps nothing, and leaves all other pages alone. *)
Theorem vmm_protect_range_correct s roots r start end_ flags :
  vinv s roots -> r ∈ roots -> 0 <= start <= end_ -> end_ <= 2 ^ 47 ->
  0 <= flags < 4096 -> flag flags PAGE_PRESENT = true ->
  wp (vmm_protect_range (r * PAGE_SIZE) start end_ flags) (fun _ =>
    range_post (frees (fun _ => False)) (protect_at flags) s roots r start end_ true) s.
Proof. apply protect_range_ok. Qed.

Lemma range_is_free_ok s roots r start end_ :
  vinv s roots -> r ∈ roots -> 0 <= start <= end_ -> end_ <= 2 ^ 47 ->
  wp (vmm_range_is_free (r * PAGE_SIZE) start end_) (fun ok s' => s' = s /\
    (ok = true <-> forall va, user_va va -> in_range start end_ va -> va_pleaf s r va = None)) s.
Proof.
  intros Hi Hr Hs He.
  assert (forall x, x ∈ range_pages start end_ -> user_va x /\ in_range start end_ x) as Hpg.
  { intros x [Hx Hm]%elem_of_range_pages; [|lia]. split; [unfold user_va, in_range in *; lia_div|done]. }
  apply (wp_for_while (fun done s1 => s1 = s /\ forall x, x ∈ done -> va_pleaf s r x = None)).
  - split; [done|]. intros x []%not_elem_of_nil.
  - intros done x todo s1 E [-> Hd]. destruct (Hpg x) as [Hx Hin]; [rewrite E; set_solver|].
    wp_step. eapply wp_translate; [done..|]. unfold translation.
    destruct (va_pleaf s r x) as [e|] eqn:Ee; cbn [fmap option_fmap option_map default from_option id]; wp_steps.
    + destruct (remappable s roots r x e Hi Hr Hx Ee) as [[? _] _].
      rewrite (proj2 (Z.eqb_neq _ _)) by (unfold PHYS_ADDR_INVALID, PAGE_SIZE; lia_div). split; [done|].
      split; [done|]. intros Hall. rewrite Hall in Ee by done. done.
    + rewrite Z.eqb_refl. split; [done|]. intros y [Hy| ->%list_elem_of_singleton]%elem_of_app; auto.
  - intros s' [-> Hd]. split; [done|]. split; [|done]. intros _ va Hva Hin.
    assert (va / 4096 * 4096 ∈ range_pages start end_) as Hp.
    { apply elem_of_range_pages; [lia|]. unfold in_range in *. lia_div. }
    destruct (Hpg _ Hp) as [? _]. rewrite (va_pleaf_page s r va (va / 4096 * 4096)) by (done || lia_div). by apply Hd.
Qed.
End Ranges.
