(* ===== verification/VmmUser.v ===== *)
(** * User memory on top of the page tables

    Creation of address spaces, vmm_copy_to and vmm_copy_from, and the check
    of user pointers. [vbyte s r x] is the byte at the user address [x] of the
    address space with root frame [r]. The last part makes the active address
    space an instance of the [UserMem] interface the system calls are written
    against. *)
From S2P Require Import Prelude Types UserMem Pmm Vmm VmmRange.

#[local] Opaque zero_page.

Section User.
  Context {F : Type} `{FA : FrameAlloc F}.
  Implicit Types (s : vmm F) (roots : gset Z).

Definition vbyte s r x : option Z :=
  e ← va_pleaf s r x; bs ← data_of (v_mem s) (frame e); bs !! Z.to_nat (x mod 4096).

(** The processor's own access: the entry must be there, be the user's, and
    allow writing. *)
Definition user_entry s r x : option Z :=
  e ← va_pleaf s r x; if flag e PAGE_USER then Some e else None.

(** ** Writing a piece of a page *)

Definition splice (off : nat) (src bs : list Z) : list Z := take off bs ++ src ++ drop (off + length src) bs.

Lemma length_splice off src bs : (off + length src <= length bs)%nat -> length (splice off src bs) = length bs.
Proof. intros. unfold splice. rewrite !length_app, length_take, length_drop. lia. Qed.

Lemma Forall_splice (P : Z -> Prop) off src bs : Forall P src -> Forall P bs -> Forall P (splice off src bs).
Proof. intros. unfold splice. rewrite !Forall_app. split_and!; [by apply Forall_take|done|by apply Forall_drop]. Qed.

Lemma lookup_splice off src bs k :
  (off + length src <= length bs)%nat ->
  splice off src bs !! k = if decide (off <= k < off + length src)%nat then src !! (k - off)%nat else bs !! k.
Proof.
  intros Hl. unfold splice. destruct (decide (k < off)%nat).
  - rewrite lookup_app_l, lookup_take_lt, decide_False by (rewrite ?length_take; lia). done.
  - rewrite lookup_app_r, length_take, Nat.min_l by (rewrite ?length_take; lia). case_decide.
    + rewrite lookup_app_l by lia. done.
    + rewrite lookup_app_r, lookup_drop by lia. f_equal. lia.
Qed.

Lemma phys_parts f x : (f * PAGE_SIZE + x mod 4096) / PAGE_SIZE = f /\ (f * PAGE_SIZE + x mod 4096) mod PAGE_SIZE = x mod 4096.
Proof. unfold PAGE_SIZE. split; lia_div. Qed.

Lemma wp_write_phys s f x src bs (Q : unit -> vmm F -> Prop) :
  data_of (v_mem s) f = Some bs -> (Z.to_nat (x mod 4096) + length src <= length bs)%nat ->
  Q tt (set_vmem (<[f := FData (splice (Z.to_nat (x mod 4096)) src bs)]> (v_mem s)) s) ->
  wp (write_phys (f * PAGE_SIZE + x mod 4096) src) Q s.
Proof.
  intros Hd Hl HQ. unfold write_phys, fill. destruct (phys_parts f x) as [-> ->]. wp_steps.
  eapply wp_lift; [done|]. cbv zeta. rewrite (proj2 (Nat.leb_le _ _)) by done. by wp_steps.
Qed.

Lemma wp_read_phys s f x n bs (Q : list Z -> vmm F -> Prop) :
  data_of (v_mem s) f = Some bs -> (Z.to_nat (x mod 4096) + n <= length bs)%nat ->
  Q (take n (drop (Z.to_nat (x mod 4096)) bs)) s ->
  wp (read_phys (f * PAGE_SIZE + x mod 4096) n) Q s.
Proof.
  intros Hd Hl HQ. unfold read_phys. destruct (phys_parts f x) as [-> ->]. wp_steps.
  eapply wp_lift; [done|]. cbv zeta. rewrite (proj2 (Nat.leb_le _ _)) by done. by wp_steps.
Qed.

(** Only bytes change: tables, leaves and the allocator are as before. *)
Definition same_spaces s s' roots : Prop :=
  vinv s' roots /\ v_frames s' = v_frames s
  /\ forall r va, r ∈ roots -> user_va va -> va_pleaf s' r va = va_pleaf s r va.

Lemma write_page s roots r x e bs src :
  vinv s roots -> r ∈ roots -> user_va x -> va_pleaf s r x = Some e -> data_of (v_mem s) (frame e) = Some bs ->
  Forall byte src -> x mod 4096 + Z.of_nat (length src) <= 4096 ->
  let s' := set_vmem (<[frame e := FData (splice (Z.to_nat (x mod 4096)) src bs)]> (v_mem s)) s in
  same_spaces s s' roots /\ forall r' y, r' ∈ roots -> user_va y ->
    vbyte s' r' y = if decide (r' = r /\ x <= y < x + Z.of_nat (length src)) then src !! Z.to_nat (y - x) else vbyte s r' y.
Proof.
  intros Hi Hr Hx He Hd Hsrc Hl s'. pose proof (Z.mod_pos_bound x 4096 ltac:(lia)) as Hm.
  destruct (vi_leaf _ _ Hi r (vpath x) (va_index x 12) e) as [Hh (bs' & Hd' & Hlen & Hbs)]; [by apply slot_va|done|].
  assert (bs' = bs) as -> by congruence.
  destruct (vinv_set_data s roots (frame e) (splice (Z.to_nat (x mod 4096)) src bs)) as [Hi' Hsl]; [done| |..].
  { intros r' p t Hr' Hp Ht Et. subst t. eapply table_not_data; [exact Hi|exact Hr'|exact Hp|exact Ht|by rewrite Hd|done]. }
  { rewrite length_splice; [done|lia]. }
  { by apply Forall_splice. }
  assert (forall r' va, r' ∈ roots -> user_va va -> va_pleaf s' r' va = va_pleaf s r' va) as Hpl.
  { intros r' va Hr' Hva. apply Hsl. by apply slot_va. }
  split; [by split_and!|]. intros r' y Hr' Hy. unfold vbyte. rewrite Hpl by done.
  destruct (va_pleaf s r' y) as [e'|] eqn:Ee'; cbn [mbind option_bind].
  - simpl. rewrite data_of_insert. destruct (decide (frame e' = frame e)) as [Ef|Ef]; cbn [mbind option_bind].
    + destruct (vi_leaf_inj _ _ Hi r' (vpath y) (va_index y 12) e' r (vpath x) (va_index x 12) e)
        as (-> & E1 & E2); [by apply slot_va..|done|done|done|].
      pose proof (vpath_inj y x Hy Hx E1 E2) as Ep.
      rewrite lookup_splice by lia. rewrite Ef, Hd. cbn [mbind option_bind].
      repeat case_decide; try lia_div; [|done]. f_equal. lia_div.
    + rewrite decide_False; [done|]. intros [-> Hyx]. apply Ef.
      assert (va_pleaf s r y = va_pleaf s r x) by (apply va_pleaf_page; [done|done|lia_div]). congruence.
  - rewrite decide_False; [done|]. intros [-> Hyx].
    assert (va_pleaf s r y = va_pleaf s r x) by (apply va_pleaf_page; [done|done|lia_div]). congruence.
Qed.

(** ** Copies *)

Lemma chunk_of_eq va n : chunk_of va n = Nat.min (Z.to_nat (4096 - va mod 4096)) n.
Proof.
  unfold chunk_of. change (PAGE_SIZE - 1) with (Z.ones 12). rewrite Z.land_ones by lia.
  change (PAGE_SIZE - va mod 2 ^ 12) with (4096 - va mod 4096). destruct (Nat.ltb_spec (Z.to_nat (4096 - va mod 4096)) n); lia.
Qed.

(** The effect of storing [src] from [va] up to [y]. *)
Definition stored_to s s' roots r va y (src : list Z) : Prop :=
  forall r' z, r' ∈ roots -> user_va z ->
    vbyte s' r' z = if decide (r' = r /\ va <= z < y) then src !! Z.to_nat (z - va) else vbyte s r' z.

(** The copy stops at the first page that is not mapped. *)
Definition copied s r va len (x : Z) y : Prop :=
  (forall z, va <= z < y -> is_Some (va_pleaf s r z)) /\
  (x = 0 /\ y = va + len \/ x = -1 /\ va <= y < va + len /\ va_pleaf s r y = None).

Lemma same_spaces_trans s1 s2 s3 roots : same_spaces s1 s2 roots -> same_spaces s2 s3 roots -> same_spaces s1 s3 roots.
Proof.
  intros (_ & E1 & H1) (Hi & E2 & H2). split_and!; [done|congruence|]. intros r va Hr Hva. by rewrite H2, H1.
Qed.

Lemma mapped_data s roots r x e :
  vinv s roots -> r ∈ roots -> user_va x -> va_pleaf s r x = Some e ->
  0 < frame e /\ exists bs, data_of (v_mem s) (frame e) = Some bs /\ length bs = 4096%nat /\ Forall byte bs.
Proof.
  intros Hi Hr Hx He. destruct (vi_leaf _ _ Hi r (vpath x) (va_index x 12) e) as [[? _] ?]; [by apply slot_va|done|].
  split; [lia|done].
Qed.

Lemma copied_first s s1 roots r va n c x y :
  vinv s roots -> r ∈ roots -> 0 <= va -> 0 < c <= n -> va + n <= 2 ^ 47 -> va mod 4096 + c <= 4096 ->
  is_Some (va_pleaf s r va) ->
  (forall va, user_va va -> va_pleaf s1 r va = va_pleaf s r va) ->
  va + c <= y <= va + n -> copied s1 r (va + c) (n - c) x y -> copied s r va n x y.
Proof.
  intros Hi Hr Hva Hc Hn Hm Hsome Hpl Hy [Hall Hx]. split.
  - intros z Hz. destruct (Z.lt_ge_cases z (va + c)).
    + by rewrite (va_pleaf_page s r z va) by (unfold user_va; lia_div).
    + rewrite <- Hpl by (unfold user_va; lia). apply Hall. lia.
  - destruct Hx as [[-> ->]|(-> & Hy' & Hnone)]; [left; lia|]. right. split_and!; [done|lia..|].
    rewrite <- Hpl; [done|]. unfold user_va; lia.
Qed.

Lemma copy_to_step fuel root va src :
  src <> [] -> vmm_copy_to (F:=F) (S fuel) root va src =
    (let chunk := chunk_of va (length src) in
     phys ← vmm_translate root va;
     if phys =? PHYS_ADDR_INVALID then mret (-1) else
     _ ← write_phys phys (take chunk src);
     vmm_copy_to fuel root (u64 (va + Z.of_nat chunk)) (drop chunk src)).
Proof. by destruct src. Qed.

Lemma copy_to_ok fuel s roots r va src :
  vinv s roots -> r ∈ roots -> (length src < fuel)%nat -> 0 <= va -> va + Z.of_nat (length src) <= 2 ^ 47 -> Forall byte src ->
  wp (vmm_copy_to fuel (r * PAGE_SIZE) va src) (fun x s' => same_spaces s s' roots /\
    exists y, va <= y <= va + Z.of_nat (length src) /\ copied s r va (Z.of_nat (length src)) x y /\ stored_to s s' roots r va y src) s.
Proof.
  intros Hi Hr. revert s va src Hi; induction fuel as [|fuel IH]; intros s va src Hi Hf Hva Hb Hsrc; [lia|].
  destruct (decide (src = [])) as [->|Hne].
  - cbn [vmm_copy_to]. wp_steps. split; [by split_and!|]. exists va. simpl. split_and!; [lia|lia| |].
    + split; [intros; lia|]. left. lia.
    + intros r' z _ _. rewrite decide_False by lia. done.
  - assert (0 < length src)%nat as Hpos by (destruct src; simpl; [done|lia]).
    rewrite copy_to_step by done.
    cbv zeta. rewrite chunk_of_eq. pose proof (Z.mod_pos_bound va 4096 ltac:(lia)).
    set (c := Nat.min _ _). assert (0 < c <= length src)%nat as Hc by lia.
    assert (va mod 4096 + Z.of_nat c <= 4096) as Hcp by lia.
    assert (user_va va) as Hv by (unfold user_va; lia).
    wp_step. eapply wp_translate; [done..|]. unfold translation. destruct (va_pleaf s r va) as [e|] eqn:Ee; cbn [fmap option_fmap option_map default from_option id].
    2: { rewrite Z.eqb_refl. wp_steps. split; [by split_and!|]. exists va. split_and!; [lia|lia| |].
         - split; [intros; lia|]. right. split_and!; [done|lia|lia|done].
         - intros r' z _ _. by rewrite decide_False by lia. }
    destruct (mapped_data s roots r va e) as (Hfr & bs & Hd & Hlen & Hbs); [done..|].
    rewrite (proj2 (Z.eqb_neq _ _)) by (unfold PHYS_ADDR_INVALID, PAGE_SIZE; lia_div).
    assert (length (take c src) = c) as Htl by (rewrite length_take; lia).
    wp_step. eapply wp_write_phys; [done|lia|].
    destruct (write_page s roots r va e bs (take c src)) as [Hss Hst]; [done..|by apply Forall_take|lia|].
    set (s1 := set_vmem _ s) in *. pose proof Hss as (Hi1 & _ & Hpl).
    rewrite u64_small by lia. eapply wp_mono; [apply IH; [done|rewrite ?length_drop; lia..|by apply Forall_drop]|].
    rewrite length_drop. intros x s2 (Hss2 & y & Hy & Hcop & Hst2). split; [by eapply same_spaces_trans|]. exists y. split_and!; [lia|lia| |].
    + eapply (copied_first s s1 roots r va _ (Z.of_nat c)); [done|done|lia..|by rewrite Ee|auto|lia|].
      by replace (Z.of_nat (length src) - Z.of_nat c) with (Z.of_nat (length src - c)) by lia.
    + intros r' z Hr' Hz. rewrite Hst2, Hst by done. rewrite Htl. repeat case_decide; try lia; try done.
      * rewrite lookup_drop. f_equal. lia.
      * rewrite lookup_take_lt by lia. done.
Qed.

Lemma copy_from_ok fuel s roots r va n :
  vinv s roots -> r ∈ roots -> (n < fuel)%nat -> 0 <= va -> va + Z.of_nat n <= 2 ^ 47 ->
  wp (vmm_copy_from fuel (r * PAGE_SIZE) va n) (fun '(x, bs) s' => s' = s /\
    exists y, va <= y <= va + Z.of_nat n /\ copied s r va (Z.of_nat n) x y /\ va + Z.of_nat (length bs) = y /\
      forall z, va <= z < y -> vbyte s r z = bs !! Z.to_nat (z - va)) s.
Proof.
  intros Hi Hr. revert va n; induction fuel as [|fuel IH]; intros va n Hf Hva Hb; [lia|].
  cbn [vmm_copy_from]. destruct (Nat.eqb_spec n 0) as [->|Hne].
  - wp_steps. split; [done|]. exists va. simpl. split_and!; [lia|lia| |lia|intros; lia]. split; [intros; lia|]. left. lia.
  - rewrite chunk_of_eq. pose proof (Z.mod_pos_bound va 4096 ltac:(lia)).
    set (c := Nat.min _ _). assert (0 < c <= n)%nat as Hc by lia.
    assert (va mod 4096 + Z.of_nat c <= 4096) as Hcp by lia.
    assert (user_va va) as Hv by (unfold user_va; lia).
    wp_step. eapply wp_translate; [done..|]. unfold translation. destruct (va_pleaf s r va) as [e|] eqn:Ee; cbn [fmap option_fmap option_map default from_option id].
    2: { rewrite Z.eqb_refl. wp_steps. split; [done|]. exists va. simpl. split_and!; [lia|lia| |lia|intros; lia].
         split; [intros; lia|]. right. split_and!; [done|lia|lia|done]. }
    destruct (mapped_data s roots r va e) as (Hfr & bs & Hd & Hlen & Hbs); [done..|].
    rewrite (proj2 (Z.eqb_neq _ _)) by (unfold PHYS_ADDR_INVALID, PAGE_SIZE; lia_div).
    wp_step. eapply wp_read_phys; [done|lia|]. rewrite u64_small by lia. wp_step.
    eapply wp_mono; [apply IH; lia|]. intros [x rest] s' (-> & y & Hy & Hcop & Hlr & Hrest). wp_steps. split; [done|]. exists y.
    assert (length (take c (drop (Z.to_nat (va mod 4096)) bs)) = c) as Htl by (rewrite length_take, length_drop; lia).
    split_and!; [lia|lia| |rewrite length_app, Htl; lia|].
    + eapply (copied_first s s roots r va _ (Z.of_nat c)); [done|done|lia..|by rewrite Ee|done|lia|].
      by replace (Z.of_nat n - Z.of_nat c) with (Z.of_nat (n - c)) by lia.
    + intros z Hz. destruct (Z.lt_ge_cases z (va + Z.of_nat c)).
      * rewrite lookup_app_l by lia. unfold vbyte. rewrite (va_pleaf_page s r z va) by (unfold user_va; lia_div).
        rewrite Ee. cbn [mbind option_bind]. rewrite Hd. cbn [mbind option_bind].
        rewrite lookup_take_lt, lookup_drop by lia. f_equal. lia_div.
      * rewrite lookup_app_r, Htl, Hrest by lia. f_equal. lia.
Qed.

(** vmm_copy_to copies the bytes up to the first page that is not mapped,
    and returns 0 exactly when there is none; no other byte of any address
    space changes. vmm_copy_from then reads the same bytes back. *)
Theorem vmm_copy_roundtrip s roots r va src :
  vinv s roots -> r ∈ roots -> 0 <= va -> va + Z.of_nat (length src) <= 2 ^ 47 -> Forall byte src ->
  wp (x ← vmm_copy_to (S (length src)) (r * PAGE_SIZE) va src;
      '(z, bs) ← vmm_copy_from (S (length src)) (r * PAGE_SIZE) va (length src); mret (x, z, bs))
     (fun '(x, z, bs) s' => same_spaces s s' roots /\ z = x /\
        (x = 0 <-> forall a, va <= a < va + Z.of_nat (length src) -> is_Some (va_pleaf s r a)) /\
        (x = 0 -> bs = src) /\
        exists y, copied s r va (Z.of_nat (length src)) x y /\ stored_to s s' roots r va y src) s.
Proof.
  intros Hi Hr Hva Hb Hsrc. wp_step. eapply wp_mono; [apply copy_to_ok; [done|done|lia|done..]|].
  intros x s1 (Hss & y & Hy & Hcop & Hst). pose proof Hss as (Hi1 & _ & Hpl). wp_step.
  eapply wp_mono; [apply (copy_from_ok _ _ roots); [done|done|lia|done..]|].
  intros [z bs] s2 (-> & y' & Hy' & Hcop' & Hlen & Hbs). wp_steps.
  destruct Hcop as [Hall Hx], Hcop' as [Hall' Hz].
  assert (forall a, va <= a < va + Z.of_nat (length src) -> va_pleaf s1 r a = va_pleaf s r a) as Hpl'.
  { intros a Ha. apply Hpl; [done|]. unfold user_va. lia. }
  assert (x = 0 <-> forall a, va <= a < va + Z.of_nat (length src) -> is_Some (va_pleaf s r a)) as Hiff.
  { destruct Hx as [[-> ->]|(-> & Hyb & Hnone)]; split; [by intros _|done|done|].
    intros Hsome. destruct (Hsome y) as [? E]; [lia|congruence]. }
  assert (z = x) as ->.
  { destruct Hx as [[-> ->]|(-> & Hyb & Hnone)], Hz as [[-> ->]|(-> & Hzb & Hznone)]; [done| | |done].
    - rewrite Hpl' in Hznone by lia. destruct (Hall y') as [? E]; [lia|congruence].
    - destruct (Hall' y) as [? E]; [lia|]. rewrite Hpl' in E by lia. congruence. }
  split_and!; [done|done|done| |exists y; by split_and!].
  intros ->. assert (y' = va + Z.of_nat (length src)) as -> by lia. assert (y = va + Z.of_nat (length src)) as -> by lia.
  apply list_eq. intros k. destruct (decide (k < length src)%nat) as [Hk|Hk].
  - specialize (Hbs (va + Z.of_nat k) ltac:(lia)). rewrite Hst, decide_True in Hbs by (done || unfold user_va; lia).
    by replace (Z.to_nat (va + Z.of_nat k - va)) with k in Hbs by lia.
  - rewrite !lookup_ge_None_2 by lia. done.
Qed.

(** ** New address spaces *)

(** A root whose user half is empty. *)
Lemma empty_root m r ws p :
  table_of m r = Some (replicate 256 0 ++ ws) -> upath p -> p <> [] -> table_at m r p = None.
Proof.
  intros Hr Hp. revert p Hp. apply (upath_ind (fun p => p <> [] -> table_at m r p = None)); [done|].
  intros p i Hp Hx Hl IH _. rewrite table_at_snoc. destruct p as [|j p]; [|by rewrite IH].
  unfold table_at, child. cbn [foldl mbind option_bind]. rewrite Hr. cbn [mbind option_bind].
  destruct Hx as [? Hx]. specialize (Hx eq_refl). rewrite lookup_app_l, lookup_replicate_2 by (rewrite ?length_replicate; lia). done.
Qed.

Lemma vinv_new_root s roots r ws :
  vinv s roots -> held s r -> r ∉ roots -> (forall r' p t, r' ∈ roots -> upath p -> table_at (v_mem s) r' p = Some t -> t <> r) ->
  (forall r' p i e, slot roots r' p i -> pleaf (v_mem s) r' p i = Some e -> frame e <> r) ->
  length ws = 256%nat ->
  let s' := set_vmem (<[r := FTable (replicate 256 0 ++ ws)]> (v_mem s)) s in
  vinv s' (roots ∪ {[r]}) /\ same_leaves s s' roots /\ (forall va, user_va va -> va_pleaf s' r va = None).
Proof.
  intros Hi Hh Hnr Hnt Hnl Hlen s'.
  assert (table_of (v_mem s') r = Some (replicate 256 0 ++ ws)) as Hrt by (simpl; by rewrite table_of_insert, decide_True).
  pose proof (empty_root (v_mem s') r ws) as Hempty.
  assert (forall r' p t, r' ∈ roots -> upath p -> table_at (v_mem s) r' p = Some t ->
    table_of (v_mem s') t = table_of (v_mem s) t) as Hof.
  { intros r' p t Hr Hp Ht. simpl. by rewrite table_of_insert, decide_False by eauto. }
  assert (forall r' p, r' ∈ roots -> upath p -> table_at (v_mem s') r' p = table_at (v_mem s) r' p) as Htab.
  { intros r' p Hr. revert p. apply upath_ind; [done|]. intros q j Hq Hj Hl IH. rewrite !table_at_snoc, IH.
    destruct (table_at (v_mem s) r' q) as [t|] eqn:Et; [|done]. cbn [mbind option_bind]. unfold child. by rewrite (Hof r' q). }
  assert (same_leaves s s' roots) as Hsl.
  { intros r' p i (Hr & Hp & _). unfold pleaf, leaf_at. rewrite Htab by done.
    destruct (table_at (v_mem s) r' p) as [t|] eqn:Et; [|done]. cbn [mbind option_bind]. by rewrite (Hof r' p). }
  assert (forall p i, upath p -> length p = 3%nat -> pleaf (v_mem s') r p i = None) as Hrl.
  { intros p i Hp Hl. unfold pleaf, leaf_at. rewrite Hempty; [done..|]. by intros ->. }
  assert (forall r' p i e, slot (roots ∪ {[r]}) r' p i -> pleaf (v_mem s') r' p i = Some e ->
    slot roots r' p i /\ pleaf (v_mem s) r' p i = Some e) as Hback.
  { intros r' p i e ([Hr| ->%elem_of_singleton]%elem_of_union & Hp & Hl & Hx) He.
    - split; [by split_and!|]. by rewrite <- Hsl by by split_and!.
    - by rewrite Hrl in He. }
  assert (forall r' p t, r' ∈ roots ∪ {[r]} -> upath p -> table_at (v_mem s') r' p = Some t ->
    (r' ∈ roots /\ table_at (v_mem s) r' p = Some t) \/ (r' = r /\ p = [] /\ t = r)) as Hcase.
  { intros r' p t [Hr| ->%elem_of_singleton]%elem_of_union Hp Ht; [left; by rewrite <- Htab|right].
    destruct (decide (p = [])) as [->|]; [by injection Ht as <-|]. by rewrite Hempty in Ht. }
  split_and!; [|done|intros va Hva; apply Hrl; [by apply vpath_upath|done]]. split.
  - apply Hi.
  - apply Hi.
  - intros r' p t Hr Hp Ht. destruct (Hcase r' p t Hr Hp Ht) as [[Hr' Ht']|(-> & -> & ->)].
    + rewrite (Hof r' p) by done. by apply (vi_table _ _ Hi r' p).
    + split; [done|]. eexists. split; [done|]. by rewrite length_app, length_replicate, Hlen.
  - intros r' p t ws' i e Hr Hp Hx Ht Hws He. destruct (Hcase r' p t Hr Hp Ht) as [[Hr' Ht']|(-> & -> & ->)].
    + rewrite (Hof r' p) in Hws by done. by apply (vi_entry _ _ Hi r' p t ws' i).
    + assert (ws' = replicate 256 0 ++ ws) as -> by congruence. destruct Hx as [? Hx]. specialize (Hx eq_refl).
      rewrite lookup_app_l, lookup_replicate_2 in He by (rewrite ?length_replicate; lia). injection He as <-. split; [unfold entry_ok; lia|done].
  - intros r1 p1 r2 p2 t Hr1 Hr2 Hp1 Hp2 Ht1 Ht2.
    destruct (Hcase r1 p1 t Hr1 Hp1 Ht1) as [[Hr1' Ht1']|(-> & -> & ->)], (Hcase r2 p2 _ Hr2 Hp2 Ht2) as [[Hr2' Ht2']|(-> & -> & Et)].
    + by apply (vi_inj _ _ Hi r1 p1 r2 p2 t).
    + subst t. by destruct (Hnt r1 p1 r).
    + by destruct (Hnt r2 p2 r).
    + done.
  - intros r' p i e Hs He. apply Hback in He as [Hs' He']; [|done]. destruct (vi_leaf _ _ Hi r' p i e) as [? ?]; [done..|].
    split; [done|]. apply page_data_insert_table; [done|]. by eapply Hnl.
  - intros r1 p1 i1 e1 r2 p2 i2 e2 Hs1 Hs2 He1 He2. apply Hback in He1 as [? ?]; [|done]. apply Hback in He2 as [? ?]; [|done].
    by eapply (vi_leaf_inj _ _ Hi).
Qed.

(** What creation returns. *)
Definition created s roots (o : option address_space) s' : Prop :=
  match o with
  | None => vinv s' roots /\ v_mem s' = v_mem s
  | Some a => exists r, a = MkSpace (r * PAGE_SIZE) 0 0 MMAP_TOP /\ r ∉ roots /\ vinv s' (roots ∪ {[r]})
      /\ (forall va, user_va va -> va_pleaf s' r va = None)
      /\ (exists ws, table_of (v_mem s') r = Some ws /\ drop 256 ws = drop 256 (page_table_l4 s))
      /\ (forall r' va, r' ∈ roots -> user_va va -> va_pleaf s' r' va = va_pleaf s r' va)
      /\ is_Some (kernel_address_space s')
  end.

Lemma create_ok s roots malloc_ok :
  vinv s roots -> wp (vmm_create_address_space malloc_ok) (created s roots) s.
Proof.
  intros Hi. unfold vmm_create_address_space. destruct malloc_ok; cbn [negb]; [|by wp_steps].
  wp_step. apply wp_v_alloc; [apply Hi| |].
  - intros fr Hfr Ht Hfree _. rewrite Z.eqb_refl. wp_steps. split; [|done]. apply vinv_set_frames; [done..|by rewrite Hfree].
  - intros fr f Hfr Ht Hf Hb Hfree. rewrite frame_valid by lia. wp_steps. apply wp_fill.
    assert (vinv (set_vframes fr s) roots) as Hi0 by (apply vinv_set_frames; [done..|rewrite Hfree; apply subseteq_difference_l; done]).
    assert (forall x, held s x -> x <> f) as Hnf by (intros x [_ Hn] ->; done).
    assert (f ∉ roots) as Hnr by (intros Hr; by apply (Hnf f); [apply (vi_root s roots)|]).
    destruct (vinv_new_root (set_vframes fr s) roots f (drop 256 (page_table_l4 s))) as (Hi1 & Hsl & Hnone); [done|..].
    { split; simpl; [lia|]. rewrite Hfree. set_solver. }
    { done. }
    { intros r' p t Hr' Hp Htab. apply Hnf. by apply (vi_table _ _ Hi r' p t). }
    { intros r' p i e Hs He. apply Hnf. by apply (vi_leaf _ _ Hi r' p i e). }
    { rewrite length_drop, (vi_boot _ _ Hi). done. }
    set (s1 := set_vmem _ _) in *. assert (table_of (v_mem s1) f = Some (replicate 256 0 ++ drop 256 (page_table_l4 s))) as Hrt
      by (simpl; by rewrite table_of_insert, decide_True).
    assert (drop 256 (replicate 256 0 ++ drop 256 (page_table_l4 s)) = drop 256 (page_table_l4 s)) as Hdrop
      by (rewrite drop_app_length'; [done|by rewrite length_replicate]).
    assert (forall r' va, r' ∈ roots -> user_va va -> va_pleaf s1 r' va = va_pleaf s r' va) as Hother
      by (intros r' va Hr' Hva; apply Hsl; by apply slot_va).
    wp_step. change (kernel_address_space (set_vframes fr s)) with (kernel_address_space s1).
    destruct (kernel_address_space s1) as [k|] eqn:Ek; wp_steps; exists f.
    + split_and!; [done|done|done|done|by eexists|done|by rewrite Ek].
    + split_and!; [done|done| |done|by eexists|done|done].
      destruct Hi1. by split.
Qed.

(** vmm_create_address_space either fails and changes nothing, or returns
    a new well-formed address space next to the existing ones: its root is a
    frame none of them used, its user half is empty, its kernel half is that
    of the boot table, and their pages are as they were. *)
Theorem vmm_create_correct s roots malloc_ok :
  vinv s roots -> wp (vmm_create_address_space malloc_ok) (created s roots) s.
Proof. apply create_ok. Qed.

(** ** The check of user pointers *)

(** [x] lies in a page of the user's, writable if asked. *)
Definition good s r (w : bool) x : Prop :=
  exists e, va_pleaf s r x = Some e /\ flag e PAGE_USER = true /\ (w = true -> flag e PAGE_WRITE = true).

(** Nothing mapped changes; pages may be added. *)
Definition grown s s' roots : Prop :=
  keeps s s' /\ forall r va e, r ∈ roots -> user_va va -> va_pleaf s r va = Some e -> va_pleaf s' r va = Some e.

Lemma grown_trans s1 s2 s3 roots : grown s1 s2 roots -> grown s2 s3 roots -> grown s1 s3 roots.
Proof. intros [? ?] [? ?]. split; [by transitivity s2|eauto]. Qed.

(** The only pages added are zeroed, writable ones of the stack of [r], in the
    range [a..a+n-1]. *)
Definition stack_grown s s' roots r a n : Prop :=
  forall r' va, r' ∈ roots -> user_va va -> va_pleaf s' r' va <> va_pleaf s r' va ->
    r' = r /\ in_range a (a + n) va /\ USER_END - USER_STACK_MAX <= va < USER_END
    /\ va_pleaf s r va = None /\ alloc_at (Z.lor (Z.lor PAGE_PRESENT PAGE_USER) PAGE_WRITE) s s' None (va_pleaf s' r va).

Lemma stack_grown_trans s1 s2 s3 roots r a n :
  keeps s1 s2 -> keeps s2 s3 -> stack_grown s1 s2 roots r a n -> stack_grown s2 s3 roots r a n -> stack_grown s1 s3 roots r a n.
Proof.
  intros K1 K2 H12 H23 r' va Hr' Hva Hne. destruct (decide (va_pleaf s3 r' va = va_pleaf s2 r' va)) as [E|E].
  - rewrite E in Hne. destruct (H12 r' va) as (-> & ? & ? & ? & Ha); [done..|]. split_and!; try done; try lia.
    rewrite E. by eapply (alloc_at_stable _ s1 s1 s2 s3).
  - destruct (H23 r' va) as (-> & ? & ? & E2 & Ha); [done..|]. split_and!; try done; try lia.
    + destruct (decide (va_pleaf s2 r va = va_pleaf s1 r va)) as [E1|E1]; [congruence|].
      destruct (H12 r va) as (_ & _ & _ & ? & _); done.
    + by eapply (alloc_at_stable _ s1 s2 s3 s3).
Qed.

Lemma grown_good s s' roots r w x : grown s s' roots -> r ∈ roots -> user_va x -> good s r w x -> good s' r w x.
Proof. intros [_ Hg] Hr Hx (e & He & ?). exists e. split; [by apply Hg|done]. Qed.

Lemma land_mod8 e k : 0 <= k < 8 -> Z.land e k = Z.land (e mod 8) k.
Proof.
  intros Hk. change 8 with (2 ^ 3). rewrite <- Z.land_ones, <- Z.land_assoc by lia. f_equal.
  assert (k = 0 \/ k = 1 \/ k = 2 \/ k = 3 \/ k = 4 \/ k = 5 \/ k = 6 \/ k = 7) as Hc by lia.
  by destruct Hc as [->|[->|[->|[->|[->|[->|[->| ->]]]]]]].
Qed.

Definition need_of (write : bool) : Z := Z.lor (Z.lor PAGE_PRESENT PAGE_USER) (if write then PAGE_WRITE else 0).

Lemma need_flags e w :
  (Z.land e (need_of w) =? need_of w) =
  flag e PAGE_PRESENT && flag e PAGE_USER && (negb w || flag e PAGE_WRITE).
Proof.
  unfold flag. rewrite (land_mod8 e (need_of w)), (land_mod8 e PAGE_PRESENT), (land_mod8 e PAGE_USER), (land_mod8 e PAGE_WRITE)
    by (destruct w; split; by vm_compute).
  pose proof (Z.mod_pos_bound e 8 ltac:(lia)) as Hb. set (x := e mod 8) in *. clearbody x.
  assert (x = 0 \/ x = 1 \/ x = 2 \/ x = 3 \/ x = 4 \/ x = 5 \/ x = 6 \/ x = 7) as Hc by lia.
  destruct w, Hc as [->|[->|[->|[->|[->|[->|[->| ->]]]]]]]; reflexivity.
Qed.

(** The test of the entry, against the tree. *)
Lemma leaf_test s r w x :
  match va_leaf s r x with Some e => Z.land e (need_of w) =? need_of w | None => false end = true <-> good s r w x.
Proof.
  unfold good, va_pleaf, pleaf. change (leaf_at _ _ _ _) with (va_leaf s r x).
  destruct (va_leaf s r x) as [e|]; cbn [mbind option_bind]; [|split; [done|by intros (? & ? & _)]].
  rewrite need_flags, !andb_true_iff, orb_true_iff, negb_true_iff. destruct (flag e PAGE_PRESENT); split.
  - intros [[_ ?] Hw]. exists e. split_and!; [done|done|]. intros ->. by destruct Hw.
  - intros (? & [= <-] & ? & Hw). split_and!; [done|done|]. destruct w; auto.
  - by intros [[? _] _].
  - by intros (? & ? & _).
Qed.

(** A page of the stack: there, or one that can be added. *)
Definition growable s r (w : bool) x : Prop :=
  good s r w x \/ va_pleaf s r x = None /\ USER_END - USER_STACK_MAX <= x.

Lemma alloc_good s s' roots r w x :
  vinv s' roots -> alloc_at (Z.lor (Z.lor PAGE_PRESENT PAGE_USER) PAGE_WRITE) s s' None (va_pleaf s' r x) -> good s' r w x.
Proof.
  intros Hi (f & E & _ & [Hf _] & _). pose proof (fa_total_bound _ (vi_frames _ _ Hi)). set (fl := Z.lor _ _) in *.
  destruct (leaf_entry f fl) as (_ & _ & _ & Hfl); [lia|by vm_compute|].
  exists (f * PAGE_SIZE + fl). rewrite !Hfl by (by vm_compute). by split_and!.
Qed.

Lemma user_ok_page_ok s roots r w x :
  vinv s roots -> r ∈ roots -> 0 <= x -> x + 4096 <= USER_END -> x mod 4096 = 0 ->
  wp (user_ok_page (r * PAGE_SIZE) (need_of w) x) (fun ok s' =>
    vinv s' roots /\ grown s s' roots /\ stack_grown s s' roots r x 4096 /\ (ok = true -> good s' r w x) /\ (good s r w x -> ok = true)
    /\ (growable s r w x -> ok = true \/ fa_free (v_frames s') = ∅)) s.
Proof.
  intros Hi Hr Hx0 Hx1 Hm. assert (user_va x) as Hx by (unfold user_va, USER_END in *; lia).
  unfold user_ok_page. wp_step. eapply wp_leaf; [done..|]. wp_step.
  assert (grown s s roots) as Hg0 by by split. assert (stack_grown s s roots r x 4096) as Hs0 by by intros ?.
  assert (va_pleaf s r x = None <-> absent (va_leaf s r x) = true) as Habs.
  { unfold va_pleaf, pleaf, absent. change (leaf_at _ _ _ _) with (va_leaf s r x). destruct (va_leaf s r x) as [e|]; cbn [mbind option_bind]; [|done].
    by destruct (flag e PAGE_PRESENT). }
  destruct (absent (va_leaf s r x)) eqn:Ea; cbn [andb].
  2: { wp_steps. split_and!; [done..|apply leaf_test|apply leaf_test|]. intros [Hg|[Hn _]]; [left; by apply leaf_test|by apply Habs in Hn]. }
  destruct (Z.leb_spec (USER_END - USER_STACK_MAX) x) as [Hst|Hst].
  2: { wp_steps. split_and!; [done..|apply leaf_test|apply leaf_test|]. intros [Hg|[_ ?]]; [left; by apply leaf_test|lia]. }
  rewrite u64_small by (unfold PAGE_SIZE, USER_END in *; lia). wp_step.
  eapply wp_mono; [apply (alloc_range_ok s roots); [done|done|unfold PAGE_SIZE, USER_END in *; lia..|by vm_compute|done]|].
  intros z s1 (Hz & Hi1 & Hk & Ho & HR & _).
  assert (va_pleaf s r x = None) as Enone by (by apply Habs).
  assert (grown s s1 roots) as Hg.
  { split; [done|]. intros r' va e Hr' Hva He. rewrite Ho; [done..|]. intros [-> Hin].
    rewrite (va_pleaf_page s r va x) in He; [congruence|done|done|]. unfold in_range, PAGE_SIZE in Hin. lia_div. }
  assert (stack_grown s s1 roots r x 4096) as Hsg.
  { intros r' va Hr' Hva Hne. destruct (decide (r' = r /\ in_range x (x + PAGE_SIZE) va)) as [[-> Hin]|Hn]; [|by rewrite Ho in Hne].
    assert (va_pleaf s r va = None) as En.
    { rewrite (va_pleaf_page s r va x); [done..|]. unfold in_range, PAGE_SIZE in Hin. lia_div. }
    destruct (HR va Hva Hin) as [Ha|[_ Ha]]; [|done]. rewrite En in Ha.
    split_and!; [done|done|unfold in_range, PAGE_SIZE, USER_END in *; lia_div|unfold in_range, PAGE_SIZE, USER_END in *; lia_div|done|done]. }
  destruct Hz as [-> |[-> Hnone]].
  - rewrite Z.eqb_refl. eapply wp_leaf; [done..|]. wp_steps. split_and!; [done|done|done|apply leaf_test| |].
    + intros Hgood. apply leaf_test. by eapply grown_good.
    + intros _. left. apply leaf_test. destruct (HR x Hx) as [Ha|[? _]]; [unfold in_range, PAGE_SIZE; lia_div| |done].
      rewrite Enone in Ha. by eapply alloc_good.
  - cbn [Z.eqb]. wp_steps. split_and!; [done|done|done| |apply leaf_test|by right].
    intros Ht%leaf_test. by eapply grown_good.
Qed.

Lemma user_ok_ok s roots r a n w :
  vinv s roots -> r ∈ roots -> 0 <= a < 2 ^ 64 -> 0 <= n < 2 ^ 64 ->
  wp (vmm_user_ok (r * PAGE_SIZE) a n w) (fun ok s' => vinv s' roots /\ grown s s' roots /\ stack_grown s s' roots r a n
    /\ (ok = true -> forall x, a <= x < a + n -> 0 <= x < USER_END /\ good s' r w x)
    /\ (a + n <= USER_END -> (forall x, a <= x < a + n -> good s r w x) -> ok = true)
    /\ (a + n <= USER_END -> (forall x, a <= x < a + n -> growable s r w x) -> ok = true \/ fa_free (v_frames s') = ∅)) s.
Proof.
  intros Hi Hr Ha Hn. unfold vmm_user_ok. fold (need_of w). assert (grown s s roots) as Hg0 by by split.
  assert (stack_grown s s roots r a n) as Hs0 by by intros ?.
  destruct (Z.eqb_spec n 0) as [->|Hn0]; [wp_steps; split_and!; [done|done|done|intros; lia|done|by left]|].
  assert (u64 (a + n) = a + n \/ u64 (a + n) < a) as Hw by (unfold u64; lia_div).
  destruct (Z.ltb_spec (u64 (a + n)) a) as [Hlt|Hge]; cbn [orb].
  { wp_steps. split_and!; [done|done|done|done|..]; intros Hle; rewrite u64_small in Hlt by (unfold USER_END in *; lia); lia. }
  destruct Hw as [-> |]; [|lia].
  destruct (Z.ltb_spec USER_END (a + n)) as [Hend|Hend]; [wp_steps; split_and!; [done|done|done|done|lia|lia]|].
  assert (forall x, x ∈ range_pages a (a + n) -> 0 <= x /\ x + 4096 <= USER_END /\ x mod 4096 = 0 /\ in_range a (a + n) x) as Hpg.
  { intros x [Hx Hm]%elem_of_range_pages; [|lia]. split_and!; unfold in_range, USER_END in *; lia_div. }
  apply (wp_for_while (fun done s1 => vinv s1 roots /\ grown s s1 roots /\ stack_grown s s1 roots r a n /\ forall x, x ∈ done -> good s1 r w x)).
  - split_and!; [done|done|done|]. intros x []%not_elem_of_nil.
  - intros done x todo s1 E (Hi1 & Hg1 & Hs1 & Hd1). destruct (Hpg x) as (Hx0 & Hx1 & Hm & Hin); [rewrite E; set_solver|].
    eapply wp_mono; [by apply user_ok_page_ok|]. intros ok s2 (Hi2 & Hg2 & Hs2 & Hok & Hok' & Hfull).
    assert (grown s s2 roots) by by eapply grown_trans.
    assert (stack_grown s s2 roots r a n).
    { apply (stack_grown_trans s s1); [apply Hg1|apply Hg2|done|]. intros r' va Hr' Hva Hne.
      destruct (Hs2 r' va) as (? & Hx & ?); [done..|]. split; [done|]. split; [|done]. unfold in_range in *. lia_div. }
    destruct ok.
    + split_and!; [done|done|done|]. intros y [Hy| ->%list_elem_of_singleton]%elem_of_app; [|auto].
      apply (grown_good s1 s2 roots); [done|done| |by apply Hd1]. destruct (Hpg y) as (? & ? & _); [rewrite E; set_solver|].
      unfold user_va, USER_END in *. lia.
    + assert (exists z, a <= z < a + n /\ z / 4096 = x / 4096) as (z & Hz & Ez).
      { exists (Z.max a x). unfold in_range in Hin. lia_div. }
      assert (user_va x /\ user_va z) as [Hvx Hvz] by (unfold user_va, USER_END in *; lia).
      pose proof (fun t : vmm F => va_pleaf_page t r x z Hvx Hvz (eq_sym Ez)) as Ep.
      assert (good s r w z -> good s1 r w x) as Hgd.
      { intros Hgz. destruct (grown_good s s1 roots r w z) as (e & He & ?); [done..|]. exists e. by rewrite Ep. }
      split_and!; [done|done|done|done|intros _ Hall; by apply Hok', Hgd, Hall|]. intros _ Hall. apply Hfull.
      destruct (Hall z Hz) as [Hgz|[En Hst]]; [left; by apply Hgd|].
      destruct (decide (va_pleaf s1 r x = va_pleaf s r x)) as [E1|E1].
      * right. rewrite E1, Ep. split; [done|]. unfold USER_END in *. lia_div.
      * left. destruct (Hs1 r x) as (_ & _ & _ & _ & Hal); [done..|]. by eapply alloc_good.
  - intros s' (Hi' & Hg' & Hs' & Hd'). split_and!; [done|done|done| |done|by left]. intros _ x Hx.
    assert (user_va x) as Hvx by (unfold user_va, USER_END in *; lia). split; [lia|].
    assert (x / 4096 * 4096 ∈ range_pages a (a + n)) as Hp.
    { apply elem_of_range_pages; [lia|]. unfold in_range. lia_div. }
    destruct (Hd' _ Hp) as (e & He & ?). exists e. destruct (Hpg _ Hp) as (? & ? & _).
    rewrite (va_pleaf_page s' r x (x / 4096 * 4096)) by (unfold user_va, USER_END in *; lia_div). done.
Qed.

(** C16: when vmm_user_ok accepts a range, every byte of it lies in a page of
    the user's, writable if asked, so the kernel can use the pointer; a range
    below USER_END that is all mapped that way is accepted, and so is one
    whose other pages are unmapped pages of the stack, unless no frame is free
    any more; and the check changes nothing that was mapped: the only pages it
    adds are zeroed pages of the range that lie in the last USER_STACK_MAX
    bytes below USER_END and were not mapped. *)
Theorem vmm_user_ok_correct s roots r a n w :
  vinv s roots -> r ∈ roots -> 0 <= a < 2 ^ 64 -> 0 <= n < 2 ^ 64 ->
  wp (vmm_user_ok (r * PAGE_SIZE) a n w) (fun ok s' => vinv s' roots /\ grown s s' roots /\ stack_grown s s' roots r a n
    /\ (ok = true -> forall x, a <= x < a + n -> 0 <= x < USER_END /\ good s' r w x)
    /\ (a + n <= USER_END -> (forall x, a <= x < a + n -> good s r w x) -> ok = true)
    /\ (a + n <= USER_END -> (forall x, a <= x < a + n -> growable s r w x) -> ok = true \/ fa_free (v_frames s') = ∅)) s.
Proof. apply user_ok_ok. Qed.

(** ** The active address space as user memory *)

(** The machine state with the root frame of the active address space. *)
Record uview := MkUview { uv_vmm : vmm F; uv_root : Z }.

Definition on_vmm {A} (m : M (vmm F) A) : M uview A := fun v =>
  match m (uv_vmm v) with Some (a, s) => Some (a, MkUview s (uv_root v)) | None => None end.

Definition uv_inv (v : uview) : Prop := exists roots, vinv (uv_vmm v) roots /\ uv_root v ∈ roots.

Definition uv_writable (v : uview) (x : Z) : Prop := user_va x /\ good (uv_vmm v) (uv_root v) true x.

Definition uv_peek (v : uview) (x : Z) : option Z :=
  if (0 <=? x) && (x <? 2 ^ 47) then
    match user_entry (uv_vmm v) (uv_root v) x with Some _ => vbyte (uv_vmm v) (uv_root v) x | None => None end
  else None.

Definition uv_user_ok (a n : Z) (w : bool) : M uview bool := fun v =>
  on_vmm (vmm_user_ok (uv_root v * PAGE_SIZE) a n w) v.

(** The processor's store: it faults unless the page is the user's and
    writable. *)
Definition cpu_store (root x b : Z) : M (vmm F) unit :=
  e ← leaf root x;
  match e with
  | Some e => if Z.land e (need_of true) =? need_of true
              then phys ← vmm_translate root x; write_phys phys [b] else fault
  | None => fault
  end.
Definition uv_store (x b : Z) : M uview unit := fun v => on_vmm (cpu_store (uv_root v * PAGE_SIZE) x b) v.

Lemma wp_on_vmm {A} (m : M (vmm F) A) (Q : A -> uview -> Prop) v :
  wp m (fun a s => Q a (MkUview s (uv_root v))) (uv_vmm v) -> wp (on_vmm m) Q v.
Proof. unfold wp, on_vmm. by destruct (m (uv_vmm v)) as [[a s]|]. Qed.

Lemma uv_peek_eq v x b :
  uv_peek v x = Some b <-> user_va x /\ good (uv_vmm v) (uv_root v) false x /\ vbyte (uv_vmm v) (uv_root v) x = Some b.
Proof.
  unfold uv_peek, user_va, good, user_entry. destruct (Z.leb_spec 0 x), (Z.ltb_spec x (2 ^ 47)); cbn [andb]; try (split; [done|lia]).
  destruct (va_pleaf _ _ x) as [e|]; cbn [mbind option_bind]; [|split; [done|by intros (_ & (? & ? & _) & _)]].
  destruct (flag e PAGE_USER) eqn:Eu; split.
  - intros Hb. split_and!; [lia|lia|by exists e|done].
  - by intros (_ & _ & ?).
  - done.
  - intros (_ & (? & [= <-] & ? & _) & _). congruence.
Qed.

Lemma good_mono s r x : good s r true x -> good s r false x.
Proof. intros (e & ? & ? & _). by exists e. Qed.

Lemma good_byte s roots r w x :
  vinv s roots -> r ∈ roots -> user_va x -> good s r w x -> exists b, vbyte s r x = Some b /\ byte b.
Proof.
  intros Hi Hr Hx (e & He & _). destruct (mapped_data s roots r x e) as (_ & bs & Hd & Hlen & Hbs); [done..|].
  destruct (lookup_lt_is_Some_2 bs (Z.to_nat (x mod 4096))) as [b Hb]; [lia_div|]. exists b. split.
  - unfold vbyte. rewrite He. cbn [mbind option_bind]. by rewrite Hd.
  - by eapply Forall_lookup_1.
Qed.

Lemma uv_peek_user v x b : uv_inv v -> uv_peek v x = Some b -> 0 <= x < 2 ^ 47.
Proof. by intros _ (Hx & _)%uv_peek_eq. Qed.

Lemma uv_peek_byte v x b : uv_inv v -> uv_peek v x = Some b -> 0 <= b < 256.
Proof.
  intros (roots & Hi & Hr) (Hx & Hg & Hb)%uv_peek_eq. destruct (good_byte _ _ _ _ _ Hi Hr Hx Hg) as (b' & Hb' & ?).
  assert (b' = b) as <- by congruence. done.
Qed.

Lemma uv_writable_peek v x : uv_inv v -> uv_writable v x -> is_Some (uv_peek v x).
Proof.
  intros (roots & Hi & Hr) (Hx & Hg). destruct (good_byte _ _ _ _ _ Hi Hr Hx Hg) as (b & Hb & _).
  exists b. apply uv_peek_eq. split_and!; [apply Hx..|by apply good_mono|done].
Qed.

Lemma grown_vbyte s s' roots r x b :
  vinv s roots -> r ∈ roots -> user_va x -> grown s s' roots -> vbyte s r x = Some b -> vbyte s' r x = Some b.
Proof.
  intros Hi Hr Hx [Hk Hg]. unfold vbyte. destruct (va_pleaf s r x) as [e|] eqn:Ee; [|done]. cbn [mbind option_bind].
  rewrite (Hg r x e) by done. cbn [mbind option_bind]. destruct (data_of (v_mem s) (frame e)) as [bs|] eqn:Ed; [|done].
  destruct Hk as (_ & _ & _ & _ & _ & Hk). destruct (vi_leaf _ _ Hi r (vpath x) (va_index x 12) e) as [Hh _]; [by apply slot_va|done|].
  by rewrite (Hk _ bs).
Qed.

Lemma uv_user_ok_spec v a n (w : bool) :
  uv_inv v -> 0 <= a < 2 ^ 64 -> 0 <= n < 2 ^ 64 ->
  wp (uv_user_ok a n w) (fun ok v' => uv_inv v'
    /\ (forall x b, uv_peek v x = Some b -> uv_peek v' x = Some b)
    /\ (forall x, uv_writable v x -> uv_writable v' x)
    /\ (ok = true -> forall x, a <= x < a + n -> 0 <= x < user_top /\ is_Some (uv_peek v' x) /\ (w = true -> uv_writable v' x))
    /\ (a + n <= user_top -> (forall x, a <= x < a + n -> is_Some (uv_peek v x) /\ (w = true -> uv_writable v x)) -> ok = true)) v.
Proof.
  intros (roots & Hi & Hr) Ha Hn. apply wp_on_vmm. eapply wp_mono; [by apply user_ok_ok|].
  intros ok s' (Hi' & Hg & _ & Hok & Hall & _). split_and!; [by exists roots| | | |].
  - intros x b (Hx & Hgd & Hb)%uv_peek_eq. apply uv_peek_eq.
    split_and!; [apply Hx..|by apply (grown_good (uv_vmm v) s' roots)|by apply (grown_vbyte (uv_vmm v) s' roots)].
  - intros x [Hx Hgd]. split; [done|]. by eapply grown_good.
  - intros Ht x Hxn. destruct (Hok Ht x Hxn) as [Hxt Hgd]. split; [done|].
    assert (user_va x) as Hx by (unfold user_va, USER_END in *; lia). split.
    + destruct (good_byte _ _ _ _ _ Hi' Hr Hx Hgd) as (b & Hb & _). exists b. apply uv_peek_eq.
      split_and!; [apply Hx..| |done]. destruct Hgd as (e & ? & ? & _). by exists e.
    + intros ->. by split.
  - intros Ht Hr'. apply Hall; [done|]. intros x Hx. destruct (Hr' x Hx) as [[b (_ & Hgd & _)%uv_peek_eq] Hw]. destruct w; [by apply Hw|done].
Qed.

Lemma uv_store_spec v x b :
  uv_inv v -> uv_writable v x -> 0 <= b < 256 ->
  wp (uv_store x b) (fun _ v' => uv_inv v'
    /\ (forall y, uv_peek v' y = if decide (y = x) then Some b else uv_peek v y)
    /\ (forall y, uv_writable v y -> uv_writable v' y)) v.
Proof.
  intros (roots & Hi & Hr) [Hx Hg] Hb. apply wp_on_vmm. unfold cpu_store. wp_step. eapply wp_leaf; [done..|].
  pose proof (proj2 (leaf_test _ _ _ _) Hg) as Ht. destruct (va_leaf _ _ x) as [e0|]; [|done]. rewrite Ht.
  destruct Hg as (e & He & Hu & Hw). destruct (mapped_data (uv_vmm v) roots (uv_root v) x e) as (Hf & bs & Hd & Hlen & _); [done..|].
  wp_step. eapply wp_translate; [done..|]. unfold translation. rewrite He. cbn [fmap option_fmap option_map default from_option id].
  pose proof (Z.mod_pos_bound x 4096 ltac:(lia)).
  eapply wp_write_phys; [done|simpl; lia|].
  destruct (write_page (uv_vmm v) roots (uv_root v) x e bs [b]) as [(Hi' & _ & Hpl) Hst]; [done..|by constructor|simpl; lia|].
  set (s' := set_vmem _ _) in *.
  assert (forall w y, user_va y -> good s' (uv_root v) w y <-> good (uv_vmm v) (uv_root v) w y) as Hgood.
  { intros w y Hy. unfold good. by rewrite Hpl. }
  split_and!; [by exists roots| |].
  - intros y. apply option_eq. intros c. rewrite uv_peek_eq. simpl. destruct (decide (y = x)) as [->|Hne].
    + rewrite Hst, decide_True, Z.sub_diag by (done || (simpl; lia)). simpl. split; [by intros (_ & _ & ?)|].
      intros [= <-]. split_and!; [apply Hx..| |done]. apply Hgood; [done|]. by exists e.
    + rewrite uv_peek_eq. split; intros (Hy & Hgy & Hby); (split_and!; [apply Hy..|by apply Hgood|]);
        rewrite Hst, decide_False in * by (done || (simpl; lia)); done.
  - intros y [Hy Hgy]. split; [done|]. by apply Hgood.
Qed.

#[global] Instance vmm_user_mem : UserMem uview := {|
  um_inv := uv_inv;
  peek := uv_peek;
  writable := uv_writable;
  user_ok := uv_user_ok;
  user_store := uv_store;
  peek_user := uv_peek_user;
  peek_byte := uv_peek_byte;
  writable_peek := uv_writable_peek;
  user_ok_spec := uv_user_ok_spec;
  user_store_spec := uv_store_spec;
|}.

Lemma va_index_page x y k : 12 <= k -> x / 4096 = y / 4096 -> va_index x k = va_index y k.
Proof.
  intros Hk E. unfold va_index. f_equal. rewrite !Z.shiftr_div_pow2 by lia. replace (2 ^ k) with (4096 * 2 ^ (k - 12)) by (change 4096 with (2 ^ 12); rewrite <- Z.pow_add_r by lia; f_equal; lia).
  rewrite <- !Z.div_div by lia. by rewrite E.
Qed.

#[global] Instance vmm_user_pages : UserPages uview.
Proof.
  intros v x y Hi [b (Hx & Hg & _)%uv_peek_eq] E. pose proof Hi as (roots & Hv & Hr). assert (user_va y) as Hy by (unfold user_va in *; lia_div).
  assert (va_pleaf (uv_vmm v) (uv_root v) y = va_pleaf (uv_vmm v) (uv_root v) x) as Ep by (unfold va_pleaf, vpath; by rewrite !(va_index_page y x) by (done || lia)).
  assert (good (uv_vmm v) (uv_root v) false y) as Hgy by (unfold good in *; by rewrite Ep). destruct (good_byte _ _ _ _ _ Hv Hr Hy Hgy) as (c & Hc & _). exists c. by apply uv_peek_eq.
Qed.
End User.

(** ** An example: one address space on the sixteen frames of [pmm16] *)

Definition vm0 : vmm pmm := MkVmm pmm16 ∅ (replicate 512 0) None 0.

Lemma vm0_inv : vinv vm0 ∅.
Proof.
  split; [apply pmm16_inv|apply length_replicate|..]; [intros ? ? ? []%not_elem_of_empty|intros ? ? ? ? ? ? []%not_elem_of_empty
    |intros ? ? ? ? ? []%not_elem_of_empty|intros ? ? ? ? ([]%not_elem_of_empty & _)|].
  intros ? ? ? ? ? ? ? ? ([]%not_elem_of_empty & _).
Qed.

(** The address space gets frame 3. *)
Definition vm1 : vmm pmm :=
  match vmm_create_address_space true vm0 with Some (_, s) => s | None => vm0 end.

Lemma vm1_created : vmm_create_address_space true vm0 = Some (Some (MkSpace (3 * PAGE_SIZE) 0 0 MMAP_TOP), vm1).
Proof. by vm_compute. Qed.

Lemma vm1_inv : vinv vm1 {[3]}.
Proof.
  pose proof (create_ok vm0 ∅ true vm0_inv) as Hw. unfold wp in Hw. rewrite vm1_created in Hw.
  destruct Hw as (r & E & _ & Hi & _). assert (r = 3) as -> by (injection E; unfold PAGE_SIZE; lia).
  by rewrite union_empty_l_L in Hi.
Qed.

Lemma vmm_create_correct_witness :
  wp (vmm_create_address_space true) (created vm0 ∅) vm0 /\ vinv vm0 ∅.
Proof. split; [apply vmm_create_correct|]; apply vm0_inv. Defined.

Lemma vmm_copy_roundtrip_witness :
  wp (x ← vmm_copy_to 4 (3 * PAGE_SIZE) 4094 [1; 2; 3];
      '(z, bs) ← vmm_copy_from 4 (3 * PAGE_SIZE) 4094 3; mret (x, z, bs))
     (fun '(x, z, bs) s' => same_spaces vm1 s' {[3]} /\ z = x /\
        (x = 0 <-> forall a, 4094 <= a < 4094 + 3 -> is_Some (va_pleaf vm1 3 a)) /\
        (x = 0 -> bs = [1; 2; 3]) /\
        exists y, copied vm1 3 4094 3 x y /\ stored_to vm1 s' {[3]} 3 4094 y [1; 2; 3]) vm1.
Proof.
  apply (vmm_copy_roundtrip vm1 {[3]} 3 4094 [1; 2; 3]); [apply vm1_inv|set_solver|lia|simpl; lia|].
  repeat constructor; unfold byte; lia.
Defined.

Lemma vmm_user_ok_correct_witness :
  wp (vmm_user_ok (3 * PAGE_SIZE) (USER_END - 10) 10 true) (fun ok s' => vinv s' {[3]} /\ grown vm1 s' {[3]} /\ stack_grown vm1 s' {[3]} 3 (USER_END - 10) 10
    /\ (ok = true -> forall x, USER_END - 10 <= x < USER_END - 10 + 10 -> 0 <= x < USER_END /\ good s' 3 true x)
    /\ (USER_END - 10 + 10 <= USER_END -> (forall x, USER_END - 10 <= x < USER_END - 10 + 10 -> good vm1 3 true x) -> ok = true)
    /\ (USER_END - 10 + 10 <= USER_END -> (forall x, USER_END - 10 <= x < USER_END - 10 + 10 -> growable vm1 3 true x) ->
        ok = true \/ fa_free (v_frames s') = ∅)) vm1
  /\ (fst <$> vmm_user_ok (3 * PAGE_SIZE) (USER_END - 10) 10 true vm1) = Some true.
Proof. split; [apply vmm_user_ok_correct|by vm_compute]; [apply vm1_inv|set_solver|unfold USER_END; lia|lia]. Defined.

Lemma vmm_alloc_range_correct_witness :
  wp (vmm_alloc_range (3 * PAGE_SIZE) 8192 12288 7) (fun x s' => (x = 0 \/ x = -1 /\ fa_free (v_frames s') = ∅) /\
    range_post keeps (alloc_at 7) vm1 {[3]} 3 8192 12288 (x =? 0) s') vm1
  /\ (fst <$> vmm_alloc_range (3 * PAGE_SIZE) 8192 12288 7 vm1) = Some 0.
Proof. split; [apply vmm_alloc_range_correct|by vm_compute]; [apply vm1_inv|set_solver|lia|lia|lia|by vm_compute]. Defined.

Lemma vmm_free_range_correct_witness :
  wp (vmm_free_range (3 * PAGE_SIZE) 8192 12288) (fun _ =>
    range_post (frees (mapped_in vm1 3 8192 12288)) free_at vm1 {[3]} 3 8192 12288 true) vm1.
Proof. apply vmm_free_range_correct; [apply vm1_inv|set_solver|lia|lia]. Defined.

Lemma vmm_protect_range_correct_witness :
  wp (vmm_protect_range (3 * PAGE_SIZE) 8192 12288 5) (fun _ =>
    range_post (frees (fun _ => False)) (protect_at 5) vm1 {[3]} 3 8192 12288 true) vm1.
Proof. apply vmm_protect_range_correct; [apply vm1_inv|set_solver|lia|lia|lia|by vm_compute]. Defined.
