(* ===== verification/Mman.v ===== *)
(** * Memory mappings of a process: syscall/mman.c

    The state is the machine's memory together with the address space of the
    current process. The loops of find_free run on fuel: each round of either
    loop moves down by at least a page, so more rounds than pages below the
    hint are never needed ([find_free_ok]). *)
From S2P Require Import Prelude Types Pmm Vmm VmmRange VmmUser.

Notation PROT_WRITE := 2 (only parsing).
Notation MAP_FIXED := 16 (only parsing).
Notation MAP_ANONYMOUS := 32 (only parsing).
Notation MAP_FIXED_NOREPLACE := 1048576 (only parsing).

(** PROT_NONE keeps the frame but drops PAGE_USER. *)
Definition prot_flags (prot : Z) : Z :=
  Z.lor (Z.lor PAGE_PRESENT (if prot =? 0 then 0 else PAGE_USER)) (if flag prot PROT_WRITE then PAGE_WRITE else 0).

Definition user_range (addr len : Z) : bool :=
  (Z.land addr (PAGE_SIZE - 1) =? 0) && negb (len =? 0)
  && (addr <? u64 (addr + len)) && (u64 (addr + len) <=? USER_END).

Record mm (F : Type) := MkMm { mm_vmm : vmm F; cur_as : address_space }.
Arguments MkMm {F}.
Arguments mm_vmm {F}.
Arguments cur_as {F}.

Definition set_hint (h : Z) (a : address_space) : address_space := MkSpace (pml4 a) (brk_start a) (brk a) h.
Definition set_brk (b : Z) (a : address_space) : address_space := MkSpace (pml4 a) (brk_start a) b (mmap_hint a).

Section Mman.
  Context {F : Type} `{FA : FrameAlloc F}.

(** Code of the virtual memory manager, run on the current address space. *)
Definition vm {A} (op : Z -> M (vmm F) A) : M (mm F) A := fun s =>
  match op (pml4 (cur_as s)) (mm_vmm s) with Some (a, v) => Some (a, MkMm v (cur_as s)) | None => None end.
Definition with_as (f : address_space -> address_space) : M (mm F) unit :=
  modify (fun s => MkMm (mm_vmm s) (f (cur_as s))).

(** [for (p = top; p > lo; p -= PAGE_SIZE)] up to the first mapped page. *)
Fixpoint gap_scan (fuel : nat) (lo p : Z) : M (mm F) Z :=
  match fuel with
  | O => fault
  | S fuel' =>
      if negb (lo <? p) then mret p else
      phys ← vm (fun root => vmm_translate root (u64 (p - PAGE_SIZE)));
      if negb (phys =? PHYS_ADDR_INVALID) then mret p else gap_scan fuel' lo (u64 (p - PAGE_SIZE))
  end.

Fixpoint find_free_from (fuel : nat) (len top : Z) : M (mm F) Z :=
  match fuel with
  | O => fault
  | S fuel' =>
      s ← get;
      if negb (u64 (brk_start (cur_as s) + len) <=? top) then mret 0 else
      let lo := u64 (top - len) in
      p ← gap_scan (S fuel') lo top;
      if p =? lo then _ ← with_as (set_hint lo); mret lo
      else find_free_from fuel' len (u64 (p - PAGE_SIZE))
  end.

Definition find_free (fuel : nat) (len : Z) : M (mm F) Z :=
  s ← get; find_free_from fuel len (mmap_hint (cur_as s)).

Definition sys_brk (addr : Z) : M (mm F) Z :=
  s ← get;
  let a := cur_as s in
  let want := u64 addr in
  let oldp := align_up_page (brk a) in
  let newp := align_up_page want in
  if (want <? brk_start a) || (MMAP_TOP <? want) then mret (brk a)
  else if oldp <? newp then
    free ← vm (fun root => vmm_range_is_free root oldp newp);
    if negb free then mret (brk a) else
    r ← vm (fun root => vmm_alloc_range root oldp newp (Z.lor (Z.lor PAGE_PRESENT PAGE_USER) PAGE_WRITE));
    if r <? 0 then _ ← vm (fun root => vmm_free_range root oldp newp); mret (brk a)
    else _ ← with_as (set_brk want); mret want
  else
    _ ← when (newp <? oldp) (vm (fun root => vmm_free_range root newp oldp));
    _ ← with_as (set_brk want);
    mret want.

(** The tail of sys_mmap: the pages themselves. *)
Definition mmap_pages (va size prot : Z) : M (mm F) Z :=
  r ← vm (fun root => vmm_alloc_range root va (u64 (va + size)) (prot_flags prot));
  if r <? 0 then _ ← vm (fun root => vmm_free_range root va (u64 (va + size))); mret (- ENOMEM)
  else mret va.

Definition sys_mmap (fuel : nat) (addr len prot flags off : Z) : M (mm F) Z :=
  let size := align_up_page (u64 len) in
  if (len <=? 0) || (size =? 0) || negb (Z.land off (PAGE_SIZE - 1) =? 0) then mret (- EINVAL)
  else if negb (flag flags MAP_ANONYMOUS) then mret (- EBADF)
  else if flag flags (Z.lor MAP_FIXED MAP_FIXED_NOREPLACE) then
    let va := u64 addr in
    if negb (user_range va size) || (va <? MMAP_MIN) then mret (- EINVAL) else
    free ← vm (fun root => vmm_range_is_free root va (u64 (va + size)));
    if negb free then
      if flag flags MAP_FIXED_NOREPLACE then mret (- EEXIST)
      else _ ← vm (fun root => vmm_free_range root va (u64 (va + size))); mmap_pages va size prot
    else mmap_pages va size prot
  else
    va ← find_free fuel size;
    if va =? 0 then mret (- ENOMEM) else mmap_pages va size prot.

Definition sys_munmap (addr len : Z) : M (mm F) Z :=
  let size := align_up_page (u64 len) in
  let end_ := u64 (u64 addr + size) in
  if (len <=? 0) || negb (user_range (u64 addr) size) then mret (- EINVAL) else
  _ ← vm (fun root => vmm_free_range root (u64 addr) end_);
  s ← get;
  _ ← when ((mmap_hint (cur_as s) <? end_) && (u64 addr <? MMAP_TOP))
        (with_as (set_hint (if end_ <? MMAP_TOP then end_ else MMAP_TOP)));
  mret 0.

Definition sys_mprotect (addr len prot : Z) : M (mm F) Z :=
  let size := align_up_page (u64 len) in
  if (len <=? 0) || negb (user_range (u64 addr) size) then mret (- EINVAL) else
  _ ← vm (fun root => vmm_protect_range root (u64 addr) (u64 (u64 addr + size)) (prot_flags prot));
  mret 0.

(** ** What the search finds *)

(** The current address space, with root frame [r], is well formed. *)
Record mm_inv (s : mm F) (roots : gset Z) (r : Z) : Prop := {
  mi_vinv : vinv (mm_vmm s) roots;
  mi_root : pml4 (cur_as s) = r * PAGE_SIZE;
  mi_elem : r ∈ roots;
  mi_start : 0 < brk_start (cur_as s) /\ brk_start (cur_as s) mod 4096 = 0;
  mi_brk : brk_start (cur_as s) <= brk (cur_as s) <= USER_END;
  mi_hint : 0 <= mmap_hint (cur_as s) <= MMAP_TOP /\ mmap_hint (cur_as s) mod 4096 = 0;
}.

(** The entry of the page of [va]. *)
Definition page (s : mm F) (r va : Z) : option Z := va_pleaf (mm_vmm s) r va.

Lemma wp_vm {A} (op : Z -> M (vmm F) A) (Q : A -> mm F -> Prop) s roots r :
  mm_inv s roots r -> wp (op (r * PAGE_SIZE)) (fun a v => Q a (MkMm v (cur_as s))) (mm_vmm s) -> wp (vm op) Q s.
Proof.
  intros Hi. unfold wp, vm. rewrite (mi_root _ _ _ Hi). by destruct (op _ (mm_vmm s)) as [[a v]|].
Qed.

Lemma mm_eta (s : mm F) : MkMm (mm_vmm s) (cur_as s) = s.
Proof. by destruct s. Qed.

Lemma gap_scan_ok fuel s roots r lo p :
  mm_inv s roots r -> 0 <= lo <= p -> p <= 2 ^ 47 -> lo mod 4096 = 0 -> p mod 4096 = 0 -> (Z.to_nat ((p - lo) / 4096) < fuel)%nat ->
  wp (gap_scan fuel lo p) (fun q s' => s' = s /\ lo <= q <= p /\ q mod 4096 = 0
    /\ (forall x, q <= x < p -> page s r x = None) /\ (q = lo \/ lo < q /\ is_Some (page s r (q - 4096)))) s.
Proof.
  intros Hi Hlo Hp Hml. revert p Hlo Hp; induction fuel as [|fuel IH]; intros p Hlo Hp Hmp Hf; [lia|].
  cbn [gap_scan]. destruct (Z.ltb_spec lo p) as [Hlt|Hge]; cbn [negb].
  2: { wp_steps. split_and!; [done|lia|lia|done|intros; lia|]. left. lia. }
  assert (user_va (p - 4096)) as Hv by (unfold user_va; lia_div).
  rewrite u64_small by (unfold PAGE_SIZE; unfold user_va in Hv; lia). wp_step. eapply wp_vm; [done|].
  eapply wp_translate; [apply Hi..|exact Hv|]. rewrite mm_eta. unfold translation. change (p - PAGE_SIZE) with (p - 4096).
  destruct (va_pleaf (mm_vmm s) r (p - 4096)) as [e|] eqn:Ee; cbn [fmap option_fmap option_map default from_option id].
  - destruct (mapped_data (mm_vmm s) roots r (p - 4096) e) as [? _]; [apply Hi|apply Hi|done|done|].
    rewrite (proj2 (Z.eqb_neq _ _)) by (unfold PHYS_ADDR_INVALID, PAGE_SIZE; lia_div). cbn [negb]. wp_steps.
    split_and!; [done|lia|lia|done|intros; lia|]. right. split; [done|]. unfold page. by rewrite Ee.
  - rewrite Z.eqb_refl. cbn [negb]. eapply wp_mono; [apply IH; [unfold user_va in Hv; lia_div|lia|lia_div|lia_div]|].
    intros q s' (-> & Hq & Hmq & Hall & Hend). split_and!; [done|lia|lia|done| |done].
    intros x Hx. destruct (Z.lt_ge_cases x (p - 4096)); [apply Hall; lia|].
    unfold page. rewrite (va_pleaf_page _ r x (p - 4096)); [done|unfold user_va; lia|done|lia_div].
Qed.

(** [len] free bytes from a page boundary [va] on, above the heap's start. *)
Definition fits (s : mm F) (r len va : Z) : Prop :=
  va mod 4096 = 0 /\ brk_start (cur_as s) <= va /\ forall x, va <= x < va + len -> page s r x = None.

(** The highest fit that ends at or below [top], if there is one. *)
Definition best_fit (s : mm F) (r len top : Z) (x : Z) (s' : mm F) : Prop :=
  (forall va, fits s r len va -> va + len <= top -> va <= x) /\
  (x = 0 /\ s' = s \/ fits s r len x /\ x + len <= top /\ s' = MkMm (mm_vmm s) (set_hint x (cur_as s))).

Lemma find_free_from_ok fuel s roots r len top :
  mm_inv s roots r -> 0 < len < 2 ^ 63 + 4096 -> len mod 4096 = 0 -> 0 <= top <= 2 ^ 47 -> top mod 4096 = 0 ->
  (Z.to_nat (top / 4096) < fuel)%nat ->
  wp (find_free_from fuel len top) (best_fit s r len top) s.
Proof.
  intros Hi Hlen Hml. revert top; induction fuel as [|fuel IH]; intros top Htop Hmt Hf; [lia|].
  cbn [find_free_from]. wp_step. wp_step. pose proof (mi_start _ _ _ Hi) as [Hs Hms]. pose proof (mi_brk _ _ _ Hi) as Hb.
  rewrite (u64_small (brk_start (cur_as s) + len)) by (unfold USER_END in *; lia).
  destruct (Z.leb_spec (brk_start (cur_as s) + len) top) as [Hle|Hgt]; cbn [negb].
  2: { wp_steps. split; [|by left]. intros va (_ & ? & _) ?. lia. }
  rewrite (u64_small (top - len)) by lia. wp_step.
  eapply wp_mono; [apply (gap_scan_ok _ s roots r); [done|lia|lia|lia_div|done|lia_div]|].
  intros q s' (-> & Hq & Hmq & Hall & Hend). destruct (Z.eqb_spec q (top - len)) as [->|Hne].
  - unfold with_as. wp_steps. split; [intros; lia|]. right. split; [split_and!; [done|lia|]|split; [lia|done]].
    intros x Hx. apply Hall. lia.
  - destruct Hend as [|[Hlq Hmap]]; [done|]. rewrite u64_small by (unfold PAGE_SIZE; lia_div).
    eapply wp_mono; [apply IH; [unfold PAGE_SIZE; lia_div|unfold PAGE_SIZE; lia_div|unfold PAGE_SIZE; lia_div]|].
    intros x s' [Hbest Hx]. split.
    + intros va Hfit Hva. apply Hbest; [done|]. destruct (Z.le_gt_cases (va + len) (q - PAGE_SIZE)); [done|].
      destruct Hfit as (Hmv & _ & Hfree). destruct Hmap as [e He]. rewrite Hfree in He; [done|]. unfold PAGE_SIZE in *. lia_div.
    + destruct Hx as [?|(? & ? & ?)]; [by left|right]. split_and!; [apply H..|unfold PAGE_SIZE in *; lia|done].
Qed.

Lemma find_free_ok fuel s roots r len :
  mm_inv s roots r -> 0 < len < 2 ^ 63 + 4096 -> len mod 4096 = 0 -> (Z.to_nat (mmap_hint (cur_as s) / 4096) < fuel)%nat ->
  wp (find_free fuel len) (best_fit s r len (mmap_hint (cur_as s))) s.
Proof.
  intros Hi Hl Hm Hf. unfold find_free. wp_step. wp_step. pose proof (mi_hint _ _ _ Hi) as [? ?].
  eapply find_free_from_ok; [done..|unfold MMAP_TOP, USER_END in *; lia|done|done].
Qed.

(** ** Changes of the mappings *)

(** Pages and bytes outside [[va, va + size)] of the address space [r] are as
    before. *)
Definition elsewhere (s s' : vmm F) (roots : gset Z) (r va size : Z) : Prop :=
  forall r' y, r' ∈ roots -> user_va y -> ~ (r' = r /\ va <= y < va + size) ->
    va_pleaf s' r' y = va_pleaf s r' y /\ vbyte s' r' y = vbyte s r' y.

(** Zeroed pages with these flags. *)
Definition fresh_pages (s' : vmm F) (r va size flags : Z) : Prop :=
  forall y, va <= y < va + size ->
    (exists f, va_pleaf s' r y = Some (f * PAGE_SIZE + flags)) /\ vbyte s' r y = Some 0.

Definition unmapped (s : vmm F) (r va size : Z) : Prop :=
  forall y, va <= y < va + size -> va_pleaf s r y = None.

Lemma elsewhere_trans s1 s2 s3 roots r va size :
  elsewhere s1 s2 roots r va size -> elsewhere s2 s3 roots r va size -> elsewhere s1 s3 roots r va size.
Proof. intros H12 H23 r' y Hr Hy Hn. destruct (H12 r' y), (H23 r' y); try done. split; congruence. Qed.

(** A range that was not mapped and is not mapped now did not change. *)
Lemma elsewhere_unmapped s s' roots r va size :
  elsewhere s s' roots r va size -> unmapped s r va size -> unmapped s' r va size -> elsewhere s s' roots r 0 0.
Proof.
  intros He Hu Hu' r' y Hr Hy _. destruct (decide (r' = r /\ va <= y < va + size)) as [[-> Hin]|]; [|by apply He].
  unfold vbyte. rewrite Hu, Hu' by done. done.
Qed.

Lemma keeps_vbyte s s' roots r x :
  vinv s roots -> r ∈ roots -> user_va x -> keeps s s' -> va_pleaf s' r x = va_pleaf s r x -> vbyte s' r x = vbyte s r x.
Proof.
  intros Hi Hr Hx (_ & _ & _ & _ & _ & Hk) E. unfold vbyte. rewrite E.
  destruct (va_pleaf s r x) as [e|] eqn:Ee; [|done]. cbn [mbind option_bind].
  destruct (vi_leaf _ _ Hi r (vpath x) (va_index x 12) e) as [Hh (bs & Hd & _)]; [by apply slot_va|done|].
  by rewrite Hd, (Hk _ bs).
Qed.

Lemma frees_vbyte A s s' r x : frees A s s' -> va_pleaf s' r x = va_pleaf s r x -> vbyte s' r x = vbyte s r x.
Proof. intros (_ & _ & _ & Hd) E. unfold vbyte. rewrite E. destruct (va_pleaf s r x); cbn; by rewrite ?Hd. Qed.

Lemma in_range_pages va size y :
  va mod 4096 = 0 -> size mod 4096 = 0 -> in_range va (va + size) y <-> va <= y < va + size.
Proof. unfold in_range. intros. lia_div. Qed.

Section Range.
  Context (s : vmm F) (roots : gset Z) (r va size : Z).
  Hypotheses (Hi : vinv s roots) (Hr : r ∈ roots) (Hva : 0 <= va) (Hsz : 0 < size) (Hend : va + size <= 2 ^ 47)
    (Hmv : va mod 4096 = 0) (Hms : size mod 4096 = 0).

Lemma alloc_elsewhere flags ok s' :
  range_post keeps (alloc_at flags) s roots r va (va + size) ok s' -> vinv s' roots /\ elsewhere s s' roots r va size.
Proof.
  intros (Hi' & Hk & Ho & _). split; [done|]. intros r' y Hr' Hy Hn.
  assert (va_pleaf s' r' y = va_pleaf s r' y) as E by (apply Ho; [done|done|]; by rewrite in_range_pages).
  split; [done|]. by eapply keeps_vbyte.
Qed.

Lemma alloc_fresh flags s' :
  0 <= flags < 4096 -> unmapped s r va size ->
  range_post keeps (alloc_at flags) s roots r va (va + size) true s' -> fresh_pages s' r va size flags.
Proof.
  intros Hfl Hu (Hi' & _ & _ & HR & _) y Hy. assert (user_va y) as Hv by (unfold user_va; lia).
  destruct (HR y Hv) as [Ha|[? _]]; [by apply in_range_pages| |done].
  rewrite Hu in Ha by done. destruct Ha as (f & He & _ & [Hf _] & Hd).
  pose proof (fa_total_bound _ (vi_frames _ _ Hi')).
  split; [by exists f|]. unfold vbyte. rewrite He. cbn [mbind option_bind].
  destruct (leaf_entry f flags) as (_ & _ & -> & _); [lia|done|]. rewrite Hd. cbn [mbind option_bind].
  apply lookup_replicate_2. unfold PAGE_SIZE. lia_div.
Qed.

Lemma free_elsewhere s' :
  range_post (frees (mapped_in s r va (va + size))) free_at s roots r va (va + size) true s' ->
  vinv s' roots /\ elsewhere s s' roots r va size /\ unmapped s' r va size.
Proof.
  intros (Hi' & Hk & Ho & HR & _). split_and!; [done| |].
  - intros r' y Hr' Hy Hn.
    assert (va_pleaf s' r' y = va_pleaf s r' y) as E by (apply Ho; [done|done|]; by rewrite in_range_pages).
    split; [done|]. by eapply frees_vbyte.
  - intros y Hy. assert (user_va y) as Hv by (unfold user_va; lia).
    destruct (HR y Hv) as [[? _]|[? _]]; [by apply in_range_pages|done|done].
Qed.
End Range.

Lemma prot_flags_ok prot : 0 <= prot_flags prot < 4096 /\ flag (prot_flags prot) PAGE_PRESENT = true.
Proof. unfold prot_flags. destruct (prot =? 0), (flag prot PROT_WRITE); (split; [by vm_compute|done]). Qed.

(** The invariant after the page tables changed. *)
Lemma mm_inv_vmm s roots r v : mm_inv s roots r -> vinv v roots -> mm_inv (MkMm v (cur_as s)) roots r.
Proof. intros [] Hv. by split. Qed.

Lemma free_pages_at s roots r va size (Q : unit -> mm F -> Prop) :
  mm_inv s roots r -> 0 <= va -> 0 < size -> va + size <= 2 ^ 47 -> va mod 4096 = 0 -> size mod 4096 = 0 ->
  (forall v, vinv v roots -> elsewhere (mm_vmm s) v roots r va size -> unmapped v r va size ->
     mm_inv (MkMm v (cur_as s)) roots r -> Q tt (MkMm v (cur_as s))) ->
  wp (vm (fun root => vmm_free_range root va (va + size))) Q s.
Proof.
  intros Hi Hva Hsz Hend Hmv Hms HQ. eapply wp_vm; [done|].
  eapply wp_mono; [apply (free_range_ok (mm_vmm s) roots); [apply Hi|apply Hi|lia|done]|]. intros [] v Hp.
  destruct (free_elsewhere _ _ _ _ _ Hva Hend Hmv Hms _ Hp) as (Hv & He & Hu). apply HQ; [done..|]. by apply (mm_inv_vmm s).
Qed.

(** Pages for a range that is not mapped. *)
Lemma mmap_alloc_ok s roots r va size flags :
  mm_inv s roots r -> 0 <= va -> 0 < size -> va + size <= 2 ^ 47 -> va mod 4096 = 0 -> size mod 4096 = 0 ->
  unmapped (mm_vmm s) r va size -> 0 <= flags < 4096 -> flag flags PAGE_PRESENT = true ->
  wp (vm (fun root => vmm_alloc_range root va (va + size) flags)) (fun x s' => mm_inv s' roots r /\ cur_as s' = cur_as s
    /\ elsewhere (mm_vmm s) (mm_vmm s') roots r va size
    /\ (x = 0 /\ fresh_pages (mm_vmm s') r va size flags \/ x = -1)) s.
Proof.
  intros Hi Hva Hsz Hend Hmv Hms Hu Hfl Hpr. pose proof (mi_vinv _ _ _ Hi) as Hv. pose proof (mi_elem _ _ _ Hi) as Hr.
  eapply wp_vm; [done|]. eapply wp_mono; [apply (alloc_range_ok (mm_vmm s) roots); [done|done|lia|done..]|].
  intros x v1 [Hx Hp]. destruct (alloc_elsewhere _ _ _ _ _ Hv Hmv Hms _ _ _ Hp) as [Hv1 He1].
  split_and!; [by apply (mm_inv_vmm s)|done|done|]. destruct Hx as [-> |[-> _]]; [left|by right]. split; [done|].
  by apply (alloc_fresh (mm_vmm s) roots).
Qed.

(** A result of sys_mmap: an address, with its pages there, or out of memory,
    with the range not mapped. *)
Definition mapped_or_not (s : mm F) roots r va size flags x s' : Prop :=
  mm_inv s' roots r /\ cur_as s' = cur_as s /\ elsewhere (mm_vmm s) (mm_vmm s') roots r va size /\
  (x = va /\ fresh_pages (mm_vmm s') r va size flags \/ x = - ENOMEM /\ unmapped (mm_vmm s') r va size).

Lemma mmap_pages_ok s roots r va size prot :
  mm_inv s roots r -> 0 <= va -> 0 < size -> va + size <= 2 ^ 47 -> va mod 4096 = 0 -> size mod 4096 = 0 ->
  unmapped (mm_vmm s) r va size ->
  wp (mmap_pages va size prot) (mapped_or_not s roots r va size (prot_flags prot)) s.
Proof.
  intros Hi Hva Hsz Hend Hmv Hms Hu. destruct (prot_flags_ok prot) as [Hfl Hpr]. unfold mmap_pages. rewrite u64_small by lia.
  wp_step. eapply wp_mono; [by apply (mmap_alloc_ok s roots r)|]. intros x s1 (Hi1 & Hc1 & He1 & [[-> Hfr]| ->]).
  - cbn [Z.ltb Z.compare]. wp_steps. split_and!; [done|done|done|]. by left.
  - cbn [Z.ltb Z.compare]. wp_step. apply (free_pages_at s1 roots r); [done..|]. intros v Hv He Hu' Hi2. wp_steps.
    split_and!; [done|done|by eapply elsewhere_trans|]. by right.
Qed.

(** ** The system calls *)

Lemma size_of_len len : 0 < len < 2 ^ 63 ->
  u64 len = len /\ align_up_page len = (len + 4095) / 4096 * 4096 /\ len <= align_up_page len < len + 4096
  /\ align_up_page len mod 4096 = 0.
Proof. intros Hl. rewrite u64_small, align_up_eq by lia. split_and!; [done|done|lia_div..]. Qed.

Lemma user_range_true addr len :
  0 <= addr < 2 ^ 64 -> 0 <= len < 2 ^ 64 -> user_range addr len = true ->
  addr mod 4096 = 0 /\ 0 < len /\ addr + len <= USER_END /\ u64 (addr + len) = addr + len.
Proof.
  intros Ha Hl. unfold user_range. change (PAGE_SIZE - 1) with (Z.ones 12). rewrite Z.land_ones by lia.
  rewrite !andb_true_iff, negb_true_iff, Z.eqb_eq, Z.eqb_neq, Z.ltb_lt, Z.leb_le. change (2 ^ 12) with 4096.
  intros [[[Hm Hn] Hlt] He]. assert (u64 (addr + len) = addr + len) as E by (unfold u64 in *; lia_div).
  rewrite E in He. split_and!; [done|lia|done|done].
Qed.

Lemma range_free s roots r va size :
  mm_inv s roots r -> 0 <= va -> 0 < size -> va + size <= 2 ^ 47 -> va mod 4096 = 0 -> size mod 4096 = 0 ->
  wp (vm (fun root => vmm_range_is_free root va (va + size))) (fun ok s' => s' = s /\
    (ok = true <-> unmapped (mm_vmm s) r va size)) s.
Proof.
  intros Hi Hva Hsz Hend Hmv Hms. eapply wp_vm; [done|].
  eapply wp_mono; [apply (range_is_free_ok (mm_vmm s) roots); [apply Hi|apply Hi|lia|done]|].
  intros ok v [-> Hok]. split; [apply mm_eta|]. rewrite Hok. split.
  - intros Hall y Hy. apply Hall; [unfold user_va; lia|by apply in_range_pages].
  - intros Hu y _ Hy. apply Hu. by apply in_range_pages in Hy.
Qed.

Definition mmap_errors : list Z := [- EINVAL; - EBADF; - EEXIST; - ENOMEM].

(** Whether sys_mmap may replace what is there. *)
Definition replaces (flags : Z) : bool :=
  flag flags (Z.lor MAP_FIXED MAP_FIXED_NOREPLACE) && negb (flag flags MAP_FIXED_NOREPLACE).

Definition mmap_post (s : mm F) roots r addr size prot flags (x : Z) (s' : mm F) : Prop :=
  mm_inv s' roots r /\
  (x ∈ mmap_errors /\ (elsewhere (mm_vmm s) (mm_vmm s') roots r 0 0
      \/ x = - ENOMEM /\ replaces flags = true /\ elsewhere (mm_vmm s) (mm_vmm s') roots r (u64 addr) size)
   \/ x mod 4096 = 0 /\ 0 < x /\ x + size <= USER_END
      /\ fresh_pages (mm_vmm s') r x size (prot_flags prot) /\ elsewhere (mm_vmm s) (mm_vmm s') roots r x size
      /\ (replaces flags = false -> unmapped (mm_vmm s) r x size)
      /\ if flag flags (Z.lor MAP_FIXED MAP_FIXED_NOREPLACE) then x = u64 addr
         else forall va, fits s r size va -> va + size <= mmap_hint (cur_as s) -> va <= x).

Lemma mmap_error s roots r addr size prot flags x :
  mm_inv s roots r -> x ∈ mmap_errors -> mmap_post s roots r addr size prot flags x s.
Proof. intros Hi Hx. split; [done|]. left. split; [done|]. left. by intros r' y. Qed.

Lemma mmap_fixed_ok s roots r addr size prot flags :
  mm_inv s roots r -> 0 <= size < 2 ^ 64 -> size mod 4096 = 0 -> flag flags (Z.lor MAP_FIXED MAP_FIXED_NOREPLACE) = true ->
  wp (if negb (user_range (u64 addr) size) || (u64 addr <? MMAP_MIN) then mret (- EINVAL) else
      free ← vm (fun root => vmm_range_is_free root (u64 addr) (u64 (u64 addr + size)));
      if negb free then
        if flag flags MAP_FIXED_NOREPLACE then mret (- EEXIST)
        else _ ← vm (fun root => vmm_free_range root (u64 addr) (u64 (u64 addr + size))); mmap_pages (u64 addr) size prot
      else mmap_pages (u64 addr) size prot) (mmap_post s roots r addr size prot flags) s.
Proof.
  intros Hi Hsz Hms Hfix. pose proof (u64_bound addr) as Hub. set (va := u64 addr) in *.
  destruct (user_range va size) eqn:Hur; cbn [negb orb]; [|wp_steps; apply mmap_error; [done|unfold mmap_errors; set_solver]].
  apply user_range_true in Hur as (Hmv & Hpos & Hend & ->); [|done..]. unfold USER_END in Hend.
  destruct (Z.ltb_spec va MMAP_MIN) as [_|Hmin]; [wp_steps; apply mmap_error; [done|unfold mmap_errors; set_solver]|].
  unfold MMAP_MIN in Hmin. wp_step. eapply wp_mono; [apply (range_free s roots r); [done|lia..|done|done]|].
  intros free s' [-> Hfree].
  destruct free; cbn [negb].
  - assert (unmapped (mm_vmm s) r va size) as Hu by by apply Hfree.
    eapply wp_mono; [apply mmap_pages_ok; [done|lia..|done|done|done]|]. intros x s' (Hi' & _ & He & Hx). split; [done|].
    destruct Hx as [[-> Hfr]|[-> Hu']].
    + right. rewrite Hfix. split_and!; [done|lia|unfold USER_END; lia|done|done|done|done].
    + left. split; [unfold mmap_errors; set_solver|]. left. by eapply elsewhere_unmapped.
  - destruct (flag flags MAP_FIXED_NOREPLACE) eqn:Hnr; [wp_steps; apply mmap_error; [done|unfold mmap_errors; set_solver]|].
    wp_step. apply (free_pages_at s roots r); [done|lia..|done|done|]. intros v Hv He Hu Hi1.
    eapply wp_mono; [apply mmap_pages_ok; [done|lia..|done|done|done]|]. intros x s' (Hi' & _ & He' & Hx). split; [done|].
    assert (elsewhere (mm_vmm s) (mm_vmm s') roots r va size) as Hels by by eapply elsewhere_trans.
    assert (replaces flags = true) as Hrep by (unfold replaces; by rewrite Hfix, Hnr).
    destruct Hx as [[-> Hfr]|[-> Hu']].
    + right. rewrite Hfix, Hrep. split_and!; [done|lia|unfold USER_END; lia|done|done|done|done].
    + left. split; [unfold mmap_errors; set_solver|]. by right.
Qed.


(** sys_munmap rejects a range that is not page aligned, is empty, wraps
    around or leaves the user half, changing nothing; else it unmaps exactly
    the pages of the range. *)
Theorem sys_munmap_correct s roots r addr len :
  mm_inv s roots r -> len < 2 ^ 63 ->
  let size := align_up_page (u64 len) in
  wp (sys_munmap addr len) (fun x s' => mm_inv s' roots r /\
    if (len <=? 0) || negb (user_range (u64 addr) size) then x = - EINVAL /\ s' = s
    else x = 0 /\ unmapped (mm_vmm s') r (u64 addr) size
         /\ elsewhere (mm_vmm s) (mm_vmm s') roots r (u64 addr) size) s.
Proof.
  intros Hi Hlen size. unfold sys_munmap. fold size. destruct (Z.leb_spec len 0) as [_|Hpos]; cbn [orb]; [by wp_steps|].
  unfold size. destruct (size_of_len len) as (-> & _ & Hsz & Hms); [lia|]. clear size. set (size := align_up_page len) in *.
  pose proof (u64_bound addr) as Hub. destruct (user_range (u64 addr) size) eqn:Hur; cbn [negb]; [|by wp_steps].
  apply user_range_true in Hur as (Hmv & Hp & Hend & ->); [|lia..]. pose proof Hend as Hend'. unfold USER_END in Hend'.
  wp_step. apply (free_pages_at s roots r); [done|lia..|done|done|]. intros v Hv He Hu Hi1. wp_step. wp_step.
  unfold with_as. wp_steps; [|done]. split; [|done]. apply andb_true_iff in H as [_ Hlt%Z.ltb_lt].
  destruct Hi1. split; simpl in *; try done. unfold MMAP_TOP, USER_END in *. destruct (Z.ltb_spec (u64 addr + size) (140737488351232 - 268435456)); lia_div.
Qed.

(** sys_brk refuses a break below the heap's start or above MMAP_TOP, one
    whose growth meets a mapping, and one there is no memory for, returning
    the old break with nothing changed; else the break becomes [addr], new
    pages of the heap are zeroed and writable, pages given up are unmapped,
    and nothing else changes. *)
Theorem sys_brk_correct s roots r addr :
  mm_inv s roots r ->
  let a := cur_as s in
  let oldp := align_up_page (brk a) in
  let newp := align_up_page (u64 addr) in
  wp (sys_brk addr) (fun x s' => mm_inv s' roots r /\
    (x = brk a /\ cur_as s' = a /\ elsewhere (mm_vmm s) (mm_vmm s') roots r 0 0
     \/ x = u64 addr /\ brk_start a <= x <= MMAP_TOP /\ cur_as s' = set_brk x a
        /\ (if oldp <? newp
            then unmapped (mm_vmm s) r oldp (newp - oldp) /\ fresh_pages (mm_vmm s') r oldp (newp - oldp) 7
                 /\ elsewhere (mm_vmm s) (mm_vmm s') roots r oldp (newp - oldp)
            else unmapped (mm_vmm s') r newp (oldp - newp)
                 /\ elsewhere (mm_vmm s) (mm_vmm s') roots r newp (oldp - newp)))) s.
Proof.
  intros Hi a oldp newp. unfold sys_brk. wp_step. wp_step. fold a oldp newp.
  assert (mm_inv s roots r /\ (brk a = brk a /\ cur_as s = a /\ elsewhere (mm_vmm s) (mm_vmm s) roots r 0 0)) as Hsame.
  { split_and!; [done..|]. by intros r' y. }
  destruct (Z.ltb_spec (u64 addr) (brk_start a)) as [_|Hlo]; cbn [orb]; [wp_steps; split; [done|]; left; apply Hsame|].
  destruct (Z.ltb_spec MMAP_TOP (u64 addr)) as [_|Hhi]; [wp_steps; split; [done|]; left; apply Hsame|].
  pose proof (mi_start _ _ _ Hi) as [Hs Hms]. pose proof (mi_brk _ _ _ Hi) as Hb. fold a in Hs, Hms, Hb.
  unfold MMAP_TOP, USER_END in Hhi, Hb.
  assert (oldp mod 4096 = 0 /\ 0 <= oldp <= 2 ^ 47) as [Hmo Ho] by (unfold oldp; rewrite align_up_eq by lia; lia_div).
  assert (newp mod 4096 = 0 /\ 0 <= newp <= 2 ^ 47) as [Hmn Hn] by (unfold newp; rewrite align_up_eq by lia; lia_div).
  assert ((newp - oldp) mod 4096 = 0 /\ (oldp - newp) mod 4096 = 0) as [Hmd Hmd'] by (clear -Hmo Hmn; lia_div).
  assert (forall v, mm_inv (MkMm v a) roots r -> mm_inv (MkMm v (set_brk (u64 addr) a)) roots r) as Hset.
  { intros v []. split; simpl in *; try done. unfold USER_END. lia. }
  destruct (Z.ltb_spec oldp newp) as [Hlt|Hge].
  - replace newp with (oldp + (newp - oldp)) by lia. set (size := newp - oldp) in *.
    replace (oldp + size - oldp) with size by lia.
    assert (0 <= oldp /\ 0 < size /\ oldp + size <= 2 ^ 47) as (Ho' & Hz & Hend) by lia.
    wp_step. eapply wp_mono; [by apply (range_free s roots r)|]. intros free s1 [-> Hfree].
    destruct free; cbn [negb]; [|wp_steps; split; [done|]; left; apply Hsame].
    assert (unmapped (mm_vmm s) r oldp size) as Hu by by apply Hfree.
    wp_step. eapply wp_mono; [apply (mmap_alloc_ok s roots r oldp size 7); [done..|lia|done]|].
    intros x s1 (Hi1 & Hc1 & He1 & Hx). destruct Hx as [[-> Hfr]| ->].
    + cbn [Z.ltb Z.compare]. unfold with_as. wp_steps. rewrite Hc1. split.
      { apply Hset. rewrite <- (mm_eta s1), Hc1 in Hi1. done. }
      right. split_and!; [done|done|unfold MMAP_TOP, USER_END; lia|done|done|done|done].
    + cbn [Z.ltb Z.compare]. wp_step. apply (free_pages_at s1 roots r); [done..|]. intros v Hv He Hu' Hi2. wp_steps.
      split; [done|]. left. split_and!; [done|done|]. eapply elsewhere_unmapped; [by eapply elsewhere_trans|done|done].
  - wp_step. wp_step; [apply Z.ltb_lt in H|apply Z.ltb_ge in H].
    + pose proof (fun Q => free_pages_at s roots r newp (oldp - newp) Q) as Hfp.
      replace (newp + (oldp - newp)) with oldp in Hfp by lia. apply Hfp; [done|lia|lia|lia|done|done|]. intros v Hv He Hu Hi1. unfold with_as. wp_steps. split; [by apply Hset|].
      right. split_and!; [done|done|unfold MMAP_TOP, USER_END; lia|done|done|done].
    + unfold with_as. wp_steps. assert (newp = oldp) as -> by lia. split; [apply Hset; unfold a; by rewrite mm_eta|].
      right. rewrite Z.sub_diag. split_and!; [done|done|unfold MMAP_TOP, USER_END; lia|done|intros y; lia|by intros r' y].
Qed.

(** sys_mprotect rejects the ranges sys_munmap rejects; else every mapped
    page of the range gets the new protection over the same frame, no byte
    changes, and nothing else does. *)
Theorem sys_mprotect_correct s roots r addr len prot :
  mm_inv s roots r -> len < 2 ^ 63 ->
  let size := align_up_page (u64 len) in
  wp (sys_mprotect addr len prot) (fun x s' => mm_inv s' roots r /\
    if (len <=? 0) || negb (user_range (u64 addr) size) then x = - EINVAL /\ s' = s
    else x = 0 /\ (forall y, u64 addr <= y < u64 addr + size -> va_pleaf (mm_vmm s') r y =
            (fun e => frame e * PAGE_SIZE + prot_flags prot) <$> va_pleaf (mm_vmm s) r y)
         /\ elsewhere (mm_vmm s) (mm_vmm s') roots r (u64 addr) size) s.
Proof.
  intros Hi Hlen size. unfold sys_mprotect. fold size. destruct (Z.leb_spec len 0) as [_|Hpos]; cbn [orb]; [by wp_steps|].
  unfold size. destruct (size_of_len len) as (-> & _ & Hsz & Hms); [lia|]. clear size. set (size := align_up_page len) in *.
  pose proof (u64_bound addr) as Hub. destruct (user_range (u64 addr) size) eqn:Hur; cbn [negb]; [|by wp_steps].
  apply user_range_true in Hur as (Hmv & Hp & Hend & ->); [|lia..]. unfold USER_END in Hend.
  destruct (prot_flags_ok prot) as [Hfl Hpr]. wp_step. eapply wp_vm; [done|].
  eapply wp_mono; [apply (protect_range_ok (mm_vmm s) roots); [apply Hi|apply Hi|lia|lia|done|done]|].
  intros [] v (Hv & Hk & Ho & HR & _). wp_steps. split; [by apply (mm_inv_vmm s)|]. split_and!; [done| |].
  - intros y Hy. destruct (HR y) as [E|[? _]]; [unfold user_va; lia|by apply in_range_pages|exact E|done].
  - intros r' y Hr' Hy Hn. assert (va_pleaf v r' y = va_pleaf (mm_vmm s) r' y) as E.
    { apply Ho; [done|done|]. by rewrite in_range_pages. }
    split; [done|]. by eapply frees_vbyte.
Qed.
End Mman.

(** ** An example on the sixteen frames of [vm1] *)

Definition mm1 : mm pmm := MkMm vm1 (MkSpace (3 * PAGE_SIZE) 131072 131072 196608).

Lemma mm1_inv : mm_inv mm1 {[3]} 3.
Proof. split; simpl; [apply vm1_inv|done|set_solver|done|unfold USER_END; lia|unfold MMAP_TOP, USER_END; split; [lia|done]]. Qed.


Lemma sys_munmap_correct_witness :
  let size := align_up_page (u64 100) in
  wp (sys_munmap 188416 100) (fun x s' => mm_inv s' {[3]} 3 /\
    if (100 <=? 0) || negb (user_range (u64 188416) size) then x = - EINVAL /\ s' = mm1
    else x = 0 /\ unmapped (mm_vmm s') 3 (u64 188416) size
         /\ elsewhere (mm_vmm mm1) (mm_vmm s') {[3]} 3 (u64 188416) size) mm1.
Proof. apply sys_munmap_correct; [apply mm1_inv|lia]. Defined.

Lemma sys_brk_correct_witness :
  wp (sys_brk 135000) (fun x s' => mm_inv s' {[3]} 3 /\
    (x = 131072 /\ cur_as s' = cur_as mm1 /\ elsewhere (mm_vmm mm1) (mm_vmm s') {[3]} 3 0 0
     \/ x = u64 135000 /\ 131072 <= x <= MMAP_TOP /\ cur_as s' = set_brk x (cur_as mm1)
        /\ (if 131072 <? align_up_page (u64 135000)
            then unmapped (mm_vmm mm1) 3 131072 (align_up_page (u64 135000) - 131072)
                 /\ fresh_pages (mm_vmm s') 3 131072 (align_up_page (u64 135000) - 131072) 7
                 /\ elsewhere (mm_vmm mm1) (mm_vmm s') {[3]} 3 131072 (align_up_page (u64 135000) - 131072)
            else unmapped (mm_vmm s') 3 (align_up_page (u64 135000)) (131072 - align_up_page (u64 135000))
                 /\ elsewhere (mm_vmm mm1) (mm_vmm s') {[3]} 3 (align_up_page (u64 135000)) (131072 - align_up_page (u64 135000))))) mm1
  /\ (fst <$> sys_brk 135000 mm1) = Some 135000.
Proof. split; [apply (sys_brk_correct mm1 {[3]} 3 135000 mm1_inv)|by vm_compute]. Defined.

Lemma sys_mprotect_correct_witness :
  let size := align_up_page (u64 100) in
  wp (sys_mprotect 188416 100 1) (fun x s' => mm_inv s' {[3]} 3 /\
    if (100 <=? 0) || negb (user_range (u64 188416) size) then x = - EINVAL /\ s' = mm1
    else x = 0 /\ (forall y, u64 188416 <= y < u64 188416 + size -> va_pleaf (mm_vmm s') 3 y =
            (fun e => frame e * PAGE_SIZE + prot_flags 1) <$> va_pleaf (mm_vmm mm1) 3 y)
         /\ elsewhere (mm_vmm mm1) (mm_vmm s') {[3]} 3 (u64 188416) size) mm1.
Proof. apply sys_mprotect_correct; [apply mm1_inv|lia]. Defined.
