(* ===== verification/Pipe.v ===== *)
(** * Pipes: vfs/pipe.c

    A pipe is a ring buffer with a count of open descriptions per end. A call
    of pipe_read or pipe_write runs until it returns or sleeps; nothing else
    runs in between, since system calls run with interrupts off and only
    sleep_on gives the processor away. So one run of a call is one function,
    from the place where it stands to its result or its next sleep, and the
    interleaving of the calls is a step relation on the pipe and the calls in
    progress, where wakeup readies every sleeper. *)
From S2P Require Import Prelude Types.

Definition PIPE_SIZE : Z := 4096.

Record pipe_t := MkPipe { buf : list Z; head : Z; len : Z; readers : Z; writers : Z }.

Definition set_buf (b : list Z) (p : pipe_t) : pipe_t := MkPipe b (head p) (len p) (readers p) (writers p).
Definition set_head (h : Z) (p : pipe_t) : pipe_t := MkPipe (buf p) h (len p) (readers p) (writers p).
Definition set_len (n : Z) (p : pipe_t) : pipe_t := MkPipe (buf p) (head p) n (readers p) (writers p).
Definition set_readers (n : Z) (p : pipe_t) : pipe_t := MkPipe (buf p) (head p) (len p) n (writers p).
Definition set_writers (n : Z) (p : pipe_t) : pipe_t := MkPipe (buf p) (head p) (len p) (readers p) n.

(** Cell [i] of the ring, counted from [head]. *)
Definition cell (p : pipe_t) (i : Z) : Z := (head p + i) mod PIPE_SIZE.

(** ** Running a call

    A run ends with the call's result (and the bytes read) or at [sleep_on],
    and tells whether it called wakeup(p). *)
Inductive outcome (C : Type) := Returned (r : Z) (out : list Z) | Sleeps (at_ : C).
Arguments Returned {C}.
Arguments Sleeps {C}.

(** [sig] tells whether a signal is pending for the caller. *)
Definition pipe_read (sig : bool) (size : Z) (p : pipe_t) : outcome unit * bool * pipe_t :=
  if len p =? 0 then
    if writers p =? 0 then (Returned 0 [], false, p)
    else if sig then (Returned (- ERESTARTSYS) [], false, p)
    else (Sleeps tt, false, p)
  else
    let k := if size <? len p then size else len p in
    let out := (fun i => nth (Z.to_nat (cell p i)) (buf p) 0) <$> range 0 k in
    (Returned k out, true, set_len (len p - k) (set_head ((head p + k) mod PIPE_SIZE) p)).

(** Where a writer stands: in the first loop, or in the second with [done]
    bytes written. *)
Inductive write_at := AtWait | AtCopy (done : Z).

(** The innermost loop. *)
Fixpoint fill_ring (src : list Z) (p : pipe_t) : Z * pipe_t :=
  match src with
  | [] => (0, p)
  | b :: src' =>
      if len p <? PIPE_SIZE then
        let '(n, p') := fill_ring src' (set_len (len p + 1) (set_buf (<[Z.to_nat (cell p (len p)) := b]> (buf p)) p)) in
        (n + 1, p')
      else (0, p)
  end.

(** The second loop: [woken] records that wakeup(p) was called. *)
Fixpoint copy_loop (fuel : nat) (sig : bool) (src : list Z) (done : Z) (woken : bool) (p : pipe_t)
  : option (outcome write_at * bool * pipe_t) :=
  match fuel with
  | O => None
  | S fuel' =>
      if negb (done <? Z.of_nat (length src)) then Some (Returned done [], woken, p)
      else if readers p =? 0 then Some (Returned (if done =? 0 then - EPIPE else done) [], woken, p)
      else if len p =? PIPE_SIZE then
        if sig then Some (Returned (if done =? 0 then - ERESTARTSYS else done) [], woken, p)
        else Some (Sleeps (AtCopy done), woken, p)
      else
        let '(n, p') := fill_ring (drop (Z.to_nat done) src) p in
        copy_loop fuel' sig src (done + n) true p'
  end.

Definition pipe_write (sig : bool) (src : list Z) (at_ : write_at) (p : pipe_t) : option (outcome write_at * bool * pipe_t) :=
  let size := Z.of_nat (length src) in
  match at_ with
  | AtWait =>
      if (size <=? PIPE_SIZE) && (PIPE_SIZE - len p <? size) && negb (readers p =? 0) then
        if sig then Some (Returned (- ERESTARTSYS) [], false, p) else Some (Sleeps AtWait, false, p)
      else copy_loop 3 sig src 0 false p
  | AtCopy done => copy_loop 3 sig src done false p
  end.

Definition pipe_poll (flags : Z) (p : pipe_t) : Z :=
  if Z.land flags O_ACCMODE =? O_RDONLY then
    Z.lor (if 0 <? len p then POLLIN else 0) (if writers p =? 0 then POLLHUP else 0)
  else if readers p =? 0 then POLLERR else if len p <? PIPE_SIZE then POLLOUT else 0.

(** The last close frees the pipe and its inode: no pipe is left. *)
Definition pipe_release (flags : Z) (p : pipe_t) : option pipe_t :=
  let p' := if Z.land flags O_ACCMODE =? O_RDONLY then set_readers (u32 (readers p - 1)) p
            else set_writers (u32 (writers p - 1)) p in
  if (readers p' =? 0) && (writers p' =? 0) then None else Some p'.


(** ** The ring is a queue *)

Record pipe_inv (p : pipe_t) : Prop := {
  pi_buf : length (buf p) = Z.to_nat PIPE_SIZE;
  pi_head : 0 <= head p < PIPE_SIZE;
  pi_len : 0 <= len p <= PIPE_SIZE;
  pi_readers : 0 <= readers p < 2 ^ 32;
  pi_writers : 0 <= writers p < 2 ^ 32;
}.

(** The bytes in the pipe, oldest first. *)
Definition contents (p : pipe_t) : list Z :=
  (fun i => nth (Z.to_nat (cell p i)) (buf p) 0) <$> range 0 (len p).

Lemma length_contents p : pipe_inv p -> Z.of_nat (length (contents p)) = len p.
Proof. intros Hi. unfold contents. rewrite length_fmap, length_range. pose proof (pi_len _ Hi). lia. Qed.

Lemma cell_inj p i j : 0 <= i < PIPE_SIZE -> 0 <= j < PIPE_SIZE -> Z.to_nat (cell p i) = Z.to_nat (cell p j) -> i = j.
Proof. unfold cell, PIPE_SIZE. intros. lia_div. Qed.

Lemma range_app a b c : a <= b <= c -> range a c = range a b ++ range b c.
Proof.
  intros H. unfold range. replace (c - a) with ((b - a) + (c - b)) by lia. rewrite seqZ_app by lia. do 2 f_equal; lia.
Qed.

Lemma range_shift k n : range k (k + n) = Z.add k <$> range 0 n.
Proof. unfold range. rewrite fmap_add_seqZ. f_equal; lia. Qed.

(** Reading takes from the front. *)
Lemma pipe_read_ok sig size p :
  pipe_inv p -> 0 <= size < 2 ^ 32 ->
  match pipe_read sig size p with
  | (Returned r out, woken, p') =>
      pipe_inv p' /\ contents p = out ++ contents p' /\ readers p' = readers p /\ writers p' = writers p
      /\ (r = Z.min size (len p) /\ len p <> 0 /\ Z.of_nat (length out) = r /\ woken = true
          \/ len p = 0 /\ out = [] /\ p' = p /\ woken = false /\ (writers p = 0 /\ r = 0 \/ writers p <> 0 /\ sig = true /\ r = - ERESTARTSYS))
  | (Sleeps _, woken, p') => p' = p /\ woken = false /\ len p = 0 /\ writers p <> 0 /\ sig = false
  end.
Proof.
  intros Hi Hs. unfold pipe_read. pose proof (pi_len _ Hi) as Hl. destruct (Z.eqb_spec (len p) 0) as [E|E].
  { destruct (Z.eqb_spec (writers p) 0); [split_and!; try done; right; split_and!; auto|].
    destruct sig; [|done]. split_and!; try done. right. split_and!; auto. }
  set (k := if size <? len p then size else len p).
  assert (k = Z.min size (len p)) as Ek by (unfold k; destruct (Z.ltb_spec size (len p)); lia). clearbody k.
  split_and!; [|..|done|done|].
  - destruct Hi. split; simpl; [done|apply Z.mod_pos_bound; unfold PIPE_SIZE; lia|lia|done|done].
  - unfold contents. simpl. rewrite (range_app 0 k (len p)) by lia. rewrite fmap_app. f_equal.
    replace (len p) with (k + (len p - k)) at 1 by lia. rewrite range_shift, <- list_fmap_compose.
    apply list_fmap_ext. intros _ i _. unfold compose, cell. simpl. do 2 f_equal. unfold PIPE_SIZE. lia_div.
  - left. split_and!; [done|done| |done]. rewrite length_fmap, length_range. lia.
Qed.

Lemma pipe_inv_push p b :
  pipe_inv p -> len p < PIPE_SIZE ->
  let p' := set_len (len p + 1) (set_buf (<[Z.to_nat (cell p (len p)) := b]> (buf p)) p) in
  pipe_inv p' /\ contents p' = contents p ++ [b].
Proof.
  intros Hi Hl p'. assert (pipe_inv p') as Hi'.
  { destruct Hi. split; simpl; [by rewrite length_insert|done|lia|done|done]. }
  split; [done|]. pose proof (pi_len _ Hi). unfold contents. simpl. rewrite range_snoc, fmap_app by lia. f_equal.
  - apply list_fmap_ext. intros _ i Hin%list_elem_of_lookup_2%elem_of_range. change (cell p' i) with (cell p i).
    rewrite !nth_lookup, list_lookup_insert_ne; [done|]. intros Ec%cell_inj; lia.
  - simpl. change (cell p' (len p)) with (cell p (len p)). f_equal. rewrite nth_lookup, list_lookup_insert_eq; [done|].
    rewrite (pi_buf _ Hi). unfold cell, PIPE_SIZE. lia_div.
Qed.

Lemma fill_ring_ok src p n p' :
  pipe_inv p -> fill_ring src p = (n, p') ->
  pipe_inv p' /\ readers p' = readers p /\ writers p' = writers p
  /\ n = Z.min (Z.of_nat (length src)) (PIPE_SIZE - len p) /\ len p' = len p + n /\ contents p' = contents p ++ take (Z.to_nat n) src.
Proof.
  revert p n; induction src as [|b src IH]; intros p n Hi; cbn [fill_ring].
  - intros [= <- <-]. pose proof (pi_len _ Hi). simpl. rewrite app_nil_r. split_and!; [done|done|done|lia|lia|done].
  - destruct (Z.ltb_spec (len p) PIPE_SIZE) as [Hl|Hl].
    + destruct (pipe_inv_push p b Hi Hl) as [Hi1 Hc1]. set (p1 := set_len _ _) in *.
      destruct (fill_ring src p1) as [m q] eqn:E. intros [= <- <-].
      destruct (IH p1 m Hi1 E) as (Hq & Hr & Hw & Hm & Hlq & Hc). change (len p1) with (len p + 1) in *.
      split_and!; [done|done|done|simpl length; lia|lia|]. rewrite Hc, Hc1, <- app_assoc.
      replace (Z.to_nat (m + 1)) with (S (Z.to_nat m)) by lia. done.
    + intros [= <- <-]. pose proof (pi_len _ Hi). simpl. rewrite app_nil_r. split_and!; [done|done|done|lia|lia|done].
Qed.

(** What a run of the second loop leaves, having started with [d0] bytes
    written: [n] more bytes in the pipe, behind the others. *)
Definition copied (sig : bool) (src : list Z) (d0 n : Z) (p : pipe_t) (o : outcome write_at) (p' : pipe_t) : Prop :=
  pipe_inv p' /\ readers p' = readers p /\ writers p' = writers p
  /\ 0 <= n /\ d0 + n <= Z.of_nat (length src)
  /\ contents p' = contents p ++ take (Z.to_nat n) (drop (Z.to_nat d0) src) /\ len p' = len p + n
  /\ match o with
     | Returned r out => out = [] /\
         (r = d0 + n /\ (d0 + n = Z.of_nat (length src) \/ 0 < d0 + n /\ (readers p = 0 \/ sig = true /\ len p' = PIPE_SIZE))
          \/ d0 + n = 0 /\ (r = - EPIPE /\ readers p = 0 \/ r = - ERESTARTSYS /\ sig = true /\ len p' = PIPE_SIZE))
     | Sleeps at_ => at_ = AtCopy (d0 + n) /\ d0 + n < Z.of_nat (length src) /\ len p' = PIPE_SIZE /\ readers p <> 0 /\ sig = false
     end.

(** The loop stops without copying. *)
Lemma copy_stops fuel sig src d w p :
  pipe_inv p -> 0 <= d <= Z.of_nat (length src) ->
  d = Z.of_nat (length src) \/ readers p = 0 \/ len p = PIPE_SIZE ->
  exists o, copy_loop (S fuel) sig src d w p = Some (o, w, p) /\ copied sig src d 0 p o p.
Proof.
  intros Hi Hd Hstop. assert (forall o, match o with
     | Returned r out => out = [] /\ (r = d /\ (d = Z.of_nat (length src) \/ 0 < d /\ (readers p = 0 \/ sig = true /\ len p = PIPE_SIZE))
          \/ d = 0 /\ (r = - EPIPE /\ readers p = 0 \/ r = - ERESTARTSYS /\ sig = true /\ len p = PIPE_SIZE))
     | Sleeps at_ => at_ = AtCopy d /\ d < Z.of_nat (length src) /\ len p = PIPE_SIZE /\ readers p <> 0 /\ sig = false
     end -> copied sig src d 0 p o p) as Hc.
  { intros o Ho. unfold copied. rewrite !Z.add_0_r. simpl. rewrite app_nil_r. split_and!; try done; lia. }
  cbn [copy_loop]. destruct (Z.ltb_spec d (Z.of_nat (length src))) as [Hlt|Hge]; cbn [negb].
  2: { eexists. split; [done|]. apply Hc. split; [done|]. left. lia. }
  destruct (Z.eqb_spec (readers p) 0) as [Er|Er].
  { eexists. split; [done|]. apply Hc. split; [done|]. destruct (Z.eqb_spec d 0); [right|left]; auto with lia. }
  destruct (Z.eqb_spec (len p) PIPE_SIZE) as [El|El]; [|lia]. destruct sig.
  - eexists. split; [done|]. apply Hc. split; [done|]. destruct (Z.eqb_spec d 0); [right|left]; auto with lia.
  - eexists. split; [done|]. by apply Hc.
Qed.

Lemma copy_loop_ok fuel sig src d w p :
  pipe_inv p -> 0 <= d <= Z.of_nat (length src) ->
  exists o w' p' n, copy_loop (S (S fuel)) sig src d w p = Some (o, w', p') /\ copied sig src d n p o p'
    /\ (n = 0 /\ p' = p /\ w' = w \/ 0 < n /\ w' = true)
    /\ (d < Z.of_nat (length src) -> readers p <> 0 -> n = Z.min (Z.of_nat (length src) - d) (PIPE_SIZE - len p)).
Proof.
  intros Hi Hd. pose proof (pi_len _ Hi) as Hl.
  destruct (decide (d = Z.of_nat (length src) \/ readers p = 0 \/ len p = PIPE_SIZE)) as [Hstop|Hgo].
  { destruct (copy_stops (S fuel) sig src d w p Hi Hd Hstop) as (o & E & Hc). exists o, w, p, 0. split_and!; [done|done|by left|lia]. }
  remember (S fuel) as fuel' eqn:Ef. cbn [copy_loop]. rewrite (proj2 (Z.ltb_lt _ _)) by lia. cbn [negb].
  rewrite (proj2 (Z.eqb_neq _ _)) by lia. rewrite (proj2 (Z.eqb_neq (len p) _)) by lia.
  destruct (fill_ring (drop (Z.to_nat d) src) p) as [n p1] eqn:E.
  destruct (fill_ring_ok _ _ _ _ Hi E) as (Hi1 & Hr & Hw & Hn & Hl1 & Hc1). rewrite length_drop in Hn.
  destruct (copy_stops fuel sig src (d + n) true p1) as (o & Eo & Hc); [done|lia|lia|].
  rewrite Ef, Eo. exists o, true, p1, n. split_and!; [done| |right; lia|lia].
  destruct Hc as (_ & _ & _ & _ & Hd2 & _ & _ & Ho). rewrite Hr in Ho. rewrite !Z.add_0_r in *.
  unfold copied. split_and!; [done|done|done|lia|lia|done|lia|done].
Qed.

(** A run of pipe_write from any place it can stand at: [n] more bytes of
    [src] are in the pipe afterwards. *)
Lemma pipe_write_ok sig src at_ p :
  let d0 := match at_ with AtWait => 0 | AtCopy d => d end in
  pipe_inv p -> 0 <= d0 <= Z.of_nat (length src) ->
  exists o woken p' n, pipe_write sig src at_ p = Some (o, woken, p')
    /\ (copied sig src d0 n p o p'
        \/ at_ = AtWait /\ n = 0 /\ p' = p /\ Z.of_nat (length src) <= PIPE_SIZE /\ PIPE_SIZE - len p < Z.of_nat (length src)
           /\ readers p <> 0 /\ (o = Sleeps AtWait /\ sig = false \/ o = Returned (- ERESTARTSYS) [] /\ sig = true))
    /\ (n = 0 /\ p' = p /\ woken = false \/ 0 < n /\ woken = true)
    /\ (at_ = AtWait -> Z.of_nat (length src) <= PIPE_SIZE ->
          (n = 0 \/ n = Z.of_nat (length src)) /\ forall d, o <> Sleeps (AtCopy d)).
Proof.
  intros d0 Hi Hd. destruct at_ as [|d]; cbn [pipe_write] in *.
  - destruct ((Z.of_nat (length src) <=? PIPE_SIZE) && (PIPE_SIZE - len p <? Z.of_nat (length src)) && negb (readers p =? 0)) eqn:Ew.
    + apply andb_true_iff in Ew as [[Hs%Z.leb_le Hf%Z.ltb_lt]%andb_true_iff Hr%negb_true_iff%Z.eqb_neq].
      destruct sig; (eexists _, _, _, 0; split_and!; [done|right; split_and!; auto|by left|intros; split; [by left|done]]).
    + destruct (copy_loop_ok 1 sig src 0 false p Hi Hd) as (o & w' & p' & n & E & Hc & Hw & Hn).
      exists o, w', p', n. split_and!; [done|by left|done|]. intros _ Hs.
      assert (readers p <> 0 -> n = Z.of_nat (length src)) as Hall.
      { intros Hr. destruct (decide (length src = 0%nat)); [destruct Hc as (_ & _ & _ & ? & ? & _); lia|]. rewrite Hn by lia.
        apply andb_false_iff in Ew as [Ew|Ew]; [|by apply negb_false_iff, Z.eqb_eq in Ew].
        apply andb_false_iff in Ew as [Ew%Z.leb_gt|Ew%Z.ltb_ge]; lia. }
      split.
      * destruct (decide (readers p = 0)) as [Er|Er]; [left|right; auto]. destruct Hw as [[? _]|[Hpos _]]; [done|]. exfalso.
        destruct (copy_stops 2 sig src 0 false p Hi Hd) as (o1 & E1 & _); [auto|]. rewrite E1 in E. injection E as <- <- <-.
        destruct Hc as (_ & _ & _ & _ & _ & _ & Hc & _). lia.
      * intros d ->. destruct Hc as (_ & _ & _ & _ & _ & _ & _ & _ & Hlt & _ & Hr & _). specialize (Hall Hr). lia.
  - destruct (copy_loop_ok 1 sig src d false p Hi Hd) as (o & w' & p' & n & E & Hc & Hw & _).
    exists o, w', p', n. split_and!; [done|by left|done|done].
Qed.

(** ** Calls in progress *)

Inductive call := CRead (size : Z) | CWrite (src : list Z) (at_ : write_at).

Record task := MkTask { t_call : call; asleep : bool }.

(** The pipe, the calls on it, and all bytes ever written and read. *)
Record psys := MkSys { ps_pipe : pipe_t; ps_tasks : gmap nat task; ps_in : list Z; ps_out : list Z }.

Definition wake_all (ts : gmap nat task) : gmap nat task := (fun t => MkTask (t_call t) false) <$> ts.

(** After a run of call [i]: [None] when it returned. *)
Definition settle (woken : bool) (i : nat) (c : option call) (ts : gmap nat task) : gmap nat task :=
  let ts' := if woken then wake_all ts else ts in
  match c with
  | None => delete i ts'
  | Some c => <[i := MkTask c true]> ts'
  end.

#[global] Arguments settle : simpl never.

Definition new_call (c : call) : Prop :=
  match c with
  | CRead size => 0 <= size < 2 ^ 32
  | CWrite src at_ => at_ = AtWait /\ Z.of_nat (length src) < 2 ^ 32
  end.

Inductive pstep : psys -> psys -> Prop :=
  | step_begin s i c :
      ps_tasks s !! i = None -> new_call c ->
      pstep s (MkSys (ps_pipe s) (<[i := MkTask c false]> (ps_tasks s)) (ps_in s) (ps_out s))
  | step_read s i sig size o woken p' :
      ps_tasks s !! i = Some (MkTask (CRead size) false) ->
      pipe_read sig size (ps_pipe s) = (o, woken, p') ->
      pstep s (MkSys p' (settle woken i (match o with Returned _ _ => None | Sleeps _ => Some (CRead size) end) (ps_tasks s))
                 (ps_in s) (ps_out s ++ match o with Returned _ out => out | Sleeps _ => [] end))
  | step_write s i sig src at_ o woken p' :
      ps_tasks s !! i = Some (MkTask (CWrite src at_) false) ->
      pipe_write sig src at_ (ps_pipe s) = Some (o, woken, p') ->
      pstep s (MkSys p' (settle woken i (match o with Returned _ _ => None | Sleeps a => Some (CWrite src a) end) (ps_tasks s))
                 (ps_in s ++ take (Z.to_nat (len p' - len (ps_pipe s)))
                                  (drop (Z.to_nat (match at_ with AtWait => 0 | AtCopy d => d end)) src)) (ps_out s))
  | step_close s flags p' :
      (if Z.land flags O_ACCMODE =? O_RDONLY then 0 < readers (ps_pipe s) else 0 < writers (ps_pipe s)) ->
      pipe_release flags (ps_pipe s) = Some p' ->
      pstep s (MkSys p' (wake_all (ps_tasks s)) (ps_in s) (ps_out s))
  | step_signal s i c :
      ps_tasks s !! i = Some (MkTask c true) ->
      pstep s (MkSys (ps_pipe s) (<[i := MkTask c false]> (ps_tasks s)) (ps_in s) (ps_out s)).

(** A call that sleeps has a reason to. *)
Definition must_wait (p : pipe_t) (c : call) : Prop :=
  match c with
  | CRead _ => len p = 0 /\ writers p <> 0
  | CWrite src AtWait => Z.of_nat (length src) <= PIPE_SIZE /\ PIPE_SIZE - len p < Z.of_nat (length src) /\ readers p <> 0
  | CWrite src (AtCopy d) => len p = PIPE_SIZE /\ readers p <> 0
  end.

Definition call_ok (c : call) : Prop :=
  match c with
  | CRead size => 0 <= size < 2 ^ 32
  | CWrite src AtWait => True
  | CWrite src (AtCopy d) => 0 <= d <= Z.of_nat (length src) /\ PIPE_SIZE < Z.of_nat (length src)
  end.

Record psys_inv (s : psys) : Prop := {
  py_pipe : pipe_inv (ps_pipe s);
  py_fifo : ps_in s = ps_out s ++ contents (ps_pipe s);
  py_tasks : forall i t, ps_tasks s !! i = Some t -> call_ok (t_call t) /\ (asleep t = true -> must_wait (ps_pipe s) (t_call t));
}.

Lemma wake_all_ok ts i t p :
  (forall j u, ts !! j = Some u -> call_ok (t_call u)) -> wake_all ts !! i = Some t ->
  call_ok (t_call t) /\ (asleep t = true -> must_wait p (t_call t)).
Proof.
  intros Hts. unfold wake_all. rewrite lookup_fmap. destruct (ts !! i) as [u|] eqn:E; [|done].
  intros [= <-]. simpl. split; [by eapply Hts|done].
Qed.

Lemma settle_ok s woken j c p' i t :
  psys_inv s -> (woken = false -> p' = ps_pipe s) ->
  (forall c', c = Some c' -> call_ok c' /\ must_wait p' c') ->
  settle woken j c (ps_tasks s) !! i = Some t ->
  call_ok (t_call t) /\ (asleep t = true -> must_wait p' (t_call t)).
Proof.
  intros Hi Hw Hc. unfold settle.
  assert (forall i t, (if woken then wake_all (ps_tasks s) else ps_tasks s) !! i = Some t ->
    call_ok (t_call t) /\ (asleep t = true -> must_wait p' (t_call t))) as Hts.
  { intros k u. destruct woken; [apply wake_all_ok; intros; by eapply (py_tasks _ Hi)|].
    rewrite (Hw eq_refl). apply (py_tasks _ Hi). }
  destruct c as [c'|].
  - rewrite lookup_insert. case_decide as D; [|apply Hts]. intros [= <-]. simpl. destruct (Hc c' eq_refl). done.
  - rewrite lookup_delete. case_decide; [done|apply Hts].
Qed.

Lemma release_inv flags p p' :
  pipe_inv p -> (if Z.land flags O_ACCMODE =? O_RDONLY then 0 < readers p else 0 < writers p) ->
  pipe_release flags p = Some p' -> pipe_inv p' /\ contents p' = contents p.
Proof.
  intros [] Hopen. unfold pipe_release. destruct (_ =? O_RDONLY);
    (destruct (_ && _); [done|]; intros [= <-]; split; [split; simpl; try done|done]; rewrite u32_small; lia).
Qed.

Lemma pstep_inv s s' : psys_inv s -> pstep s s' -> psys_inv s'.
Proof.
  intros Hi Hs. pose proof (py_pipe _ Hi) as Hp. pose proof (py_fifo _ Hi) as Hf. destruct Hs as
    [s i c Hn Hc|s i sig size o woken p' Ht E|s i sig src at_ o woken p' Ht E|s flags p' Ho E|s i c Ht]; simpl in *.
  - split; simpl; [done..|]. intros j t. rewrite lookup_insert. case_decide; [|by apply (py_tasks _ Hi)].
    intros [= <-]. simpl. split; [|done]. destruct c as [|src []]; simpl in *; [done|done|by destruct Hc].
  - destruct (py_tasks _ Hi i _ Ht) as [Hok _]. simpl in Hok. pose proof (pipe_read_ok sig size (ps_pipe s) Hp Hok) as Hr.
    rewrite E in Hr. destruct o as [r out|[]].
    + destruct Hr as (Hp' & Hc & _ & _ & Hcase). split; simpl; [done| |].
      * by rewrite Hf, Hc, app_assoc.
      * intros j t. apply settle_ok; [done| |done]. intros ->. destruct Hcase as [(_ & _ & _ & ?)|(_ & _ & ? & _)]; done.
    + destruct Hr as (-> & -> & Hl & Hw & _). split; simpl; [done|by rewrite app_nil_r|].
      intros j t. apply settle_ok; [done|done|]. intros c [= <-]. done.
  - destruct (py_tasks _ Hi i _ Ht) as [Hok _]. simpl in Hok.
    destruct (pipe_write_ok sig src at_ (ps_pipe s)) as (o1 & w1 & p1 & n & E1 & Hcop & Hw & Hat); [done|destruct at_; lia|].
    rewrite E1 in E. injection E as <- <- <-.
    assert (w1 = false -> p1 = ps_pipe s) as Hsame by (intros ->; destruct Hw as [(_ & ? & _)|[_ ?]]; done).
    destruct Hcop as [(Hp1 & Hr & Hwr & Hn0 & Hn & Hc & Hl & Ho)|(-> & -> & -> & Hs & Hfit & Hr & Ho)].
    + split; simpl; [done| |].
      * rewrite Hc, Hl, Hf, app_assoc. do 2 f_equal. f_equal. lia.
      * intros j t. apply settle_ok; [done|done|]. destruct o1 as [|a]; [done|]. intros c [= <-].
        destruct Ho as (-> & Hlt & Hfull & Hrd & _). simpl. rewrite Hr. split; [|done].
        destruct at_ as [|d]; simpl in *; [|lia]. split; [lia|].
        destruct (Z.le_gt_cases (Z.of_nat (length src)) PIPE_SIZE) as [Hle|Hgt]; [|lia].
        destruct (Hat eq_refl Hle) as [_ Hno]. by destruct (Hno n).
    + split; simpl; [done| |].
      * by rewrite Z.sub_diag, app_nil_r.
      * intros j t. apply settle_ok; [done|done|]. intros c. destruct Ho as [[-> _]|[-> _]]; [|done]. intros [= <-]. done.
  - destruct (release_inv _ _ _ Hp Ho E) as [Hp' Hc]. split; simpl; [done|by rewrite Hc|].
    intros j t. apply wake_all_ok. intros k u Hu. by eapply (py_tasks _ Hi).
  - split; simpl; [done..|]. intros j t. rewrite lookup_insert. case_decide; [|by apply (py_tasks _ Hi)].
    intros [= <-]. simpl. split; [|done]. apply (py_tasks _ Hi i _ Ht).
Qed.

Lemma reachable_inv p s : pipe_inv p -> len p = 0 -> rtc pstep (MkSys p ∅ [] []) s -> psys_inv s.
Proof.
  intros Hp Hl Hs. assert (psys_inv (MkSys p ∅ [] [])) as H0.
  { split; simpl; [done| |]; [|intros i t; by rewrite lookup_empty]. unfold contents. by rewrite Hl. }
  revert H0. induction Hs as [|s1 s2 s3 Hs12 _ IH]; [done|]. intros H1. apply IH. by eapply pstep_inv.
Qed.

(** C13: however the calls on a pipe interleave, sleep, are interrupted by
    signals or find ends closed, the bytes come out in the order they went in,
    none lost and none twice; a call sleeps only while it still has to wait
    (no wakeup is lost), so a reader and a writer never sleep at the same
    time. *)
Theorem pipe_fifo p s :
  pipe_inv p -> len p = 0 -> rtc pstep (MkSys p ∅ [] []) s ->
  ps_in s = ps_out s ++ contents (ps_pipe s)
  /\ (forall i t, ps_tasks s !! i = Some t -> asleep t = true -> must_wait (ps_pipe s) (t_call t))
  /\ (forall i j size src at_, ps_tasks s !! i = Some (MkTask (CRead size) true) ->
        ps_tasks s !! j = Some (MkTask (CWrite src at_) true) -> False).
Proof.
  intros Hp Hl Hs. pose proof (reachable_inv p s Hp Hl Hs) as Hi.
  assert (forall i t, ps_tasks s !! i = Some t -> asleep t = true -> must_wait (ps_pipe s) (t_call t)) as Hw.
  { intros i t Ht. apply (py_tasks _ Hi i t Ht). }
  split_and!; [apply Hi|done|]. intros i j size src at_ Hr Hwr. destruct (Hw i _ Hr eq_refl) as [Hlen _].
  destruct at_ as [|d]; destruct (Hw j _ Hwr eq_refl) as [? ?]; unfold PIPE_SIZE in *; lia.
Qed.

(** a write of at most PIPE_SIZE bytes is atomic: a run of it puts all of
    its bytes into the pipe, behind the others, and returns their number, or
    it puts none and sleeps or fails; it never sleeps half way. *)
Theorem pipe_write_atomic sig src p :
  pipe_inv p -> Z.of_nat (length src) <= PIPE_SIZE ->
  exists o woken p', pipe_write sig src AtWait p = Some (o, woken, p') /\
    (o = Returned (Z.of_nat (length src)) [] /\ contents p' = contents p ++ src
     \/ p' = p /\ (o = Sleeps AtWait \/ o = Returned (- EPIPE) [] /\ readers p = 0 \/ o = Returned (- ERESTARTSYS) [] /\ sig = true)).
Proof.
  intros Hi Hs. destruct (pipe_write_ok sig src AtWait p Hi) as (o & w & p' & n & E & Hc & Hw & Hat); [lia|].
  exists o, w, p'. split; [done|]. destruct (Hat eq_refl Hs) as [Hn Hno].
  destruct Hc as [(_ & _ & _ & _ & _ & Hc & _ & Ho)|(_ & _ & -> & _ & _ & _ & Ho)].
  2: { right. split; [done|]. destruct Ho as [[-> _]|[-> ?]]; auto. }
  destruct o as [r out|a]; [|destruct Ho as (-> & _); by destruct (Hno (0 + n))].
  destruct Ho as [-> Ho]. rewrite Z.add_0_l in Ho. destruct Hn as [-> | ->].
  - destruct Hw as [(_ & -> & _)|[? _]]; [|lia]. destruct Ho as [[-> Ho]|[_ Ho]].
    + left. destruct src; simpl in *; [|lia]. by rewrite app_nil_r.
    + right. split; [done|]. destruct Ho as [[-> ?]|(-> & ? & _)]; auto.
  - rewrite Nat2Z.id, firstn_all in Hc. simpl in Hc. destruct Ho as [[-> _]|[E0 Ho]]; [by left|].
    destruct src; [|simpl in E0; lia]. simpl in Hw. right. destruct Hw as [(_ & -> & _)|[? _]]; [|lia]. split; [done|].
    destruct Ho as [[-> ?]|(-> & ? & _)]; auto.
Qed.

(** ** An example: an empty pipe with both ends open *)

Definition pipe0 : pipe_t := MkPipe (replicate (Z.to_nat PIPE_SIZE) 0) 0 0 1 1.

Lemma pipe0_inv : pipe_inv pipe0.
Proof. split; [apply length_replicate|..]; cbn [head len readers writers pipe0]; unfold PIPE_SIZE; lia. Qed.

Lemma pipe_fifo_witness :
  let s := MkSys pipe0 (settle false 0 (Some (CRead 10)) {[0%nat := MkTask (CRead 10) false]}) [] [] in
  ps_in s = ps_out s ++ contents (ps_pipe s)
  /\ (forall i t, ps_tasks s !! i = Some t -> asleep t = true -> must_wait (ps_pipe s) (t_call t))
  /\ (forall i j size src at_, ps_tasks s !! i = Some (MkTask (CRead size) true) ->
        ps_tasks s !! j = Some (MkTask (CWrite src at_) true) -> False).
Proof.
  intros s. apply (pipe_fifo pipe0); [apply pipe0_inv|done|].
  apply (rtc_l _ _ (MkSys pipe0 {[0%nat := MkTask (CRead 10) false]} [] [])); [by apply step_begin|].
  apply rtc_once. subst s.
  exact (step_read (MkSys pipe0 {[0%nat := MkTask (CRead 10) false]} [] []) 0 false 10 (Sleeps tt) false pipe0 eq_refl eq_refl).
Defined.

Lemma pipe_write_atomic_witness :
  exists o woken p', pipe_write false [104; 105] AtWait pipe0 = Some (o, woken, p') /\
    (o = Returned 2 [] /\ contents p' = contents pipe0 ++ [104; 105]
     \/ p' = pipe0 /\ (o = Sleeps AtWait \/ o = Returned (- EPIPE) [] /\ readers pipe0 = 0 \/ o = Returned (- ERESTARTSYS) [] /\ false = true)).
Proof. apply (pipe_write_atomic false [104; 105] pipe0); [apply pipe0_inv|unfold PIPE_SIZE; simpl; lia]. Defined.
