(* ===== verification/Sched.v ===== *)
(** * Processes and the scheduler: proc/scheduler.c, proc/process.h

    Processes live in a map from addresses to structures. The ready queues
    are the doubly linked lists through [p_next] and [p_prev] the code
    builds, the list of all processes the one through [all_next]. The context
    switch itself, FPU state and kernel stacks are left out: after
    scheduler_yield the process in [current] runs. *)
From S2P Require Import Prelude Types.

Record sched := MkSched {
  procs : gmap Z process;
  ready_head : list Z;
  ready_tail : list Z;
  current : Z;
  all_procs : Z;
  next_pid : Z;
  loadavg : list Z;
}.

Definition set_procs (m : gmap Z process) (s : sched) : sched :=
  MkSched m (ready_head s) (ready_tail s) (current s) (all_procs s) (next_pid s) (loadavg s).
Definition set_ready_head (l : list Z) (s : sched) : sched :=
  MkSched (procs s) l (ready_tail s) (current s) (all_procs s) (next_pid s) (loadavg s).
Definition set_ready_tail (l : list Z) (s : sched) : sched :=
  MkSched (procs s) (ready_head s) l (current s) (all_procs s) (next_pid s) (loadavg s).
Definition set_current (c : Z) (s : sched) : sched :=
  MkSched (procs s) (ready_head s) (ready_tail s) c (all_procs s) (next_pid s) (loadavg s).
Definition set_all_procs (p : Z) (s : sched) : sched :=
  MkSched (procs s) (ready_head s) (ready_tail s) (current s) p (next_pid s) (loadavg s).
Definition set_next_pid (n : Z) (s : sched) : sched :=
  MkSched (procs s) (ready_head s) (ready_tail s) (current s) (all_procs s) n (loadavg s).
Definition set_loadavg (l : list Z) (s : sched) : sched :=
  MkSched (procs s) (ready_head s) (ready_tail s) (current s) (all_procs s) (next_pid s) l.

(** Access through a pointer: NULL and dangling pointers fault. *)
Definition pget (p : Z) : M sched process := s ← get; lift (procs s !! p).
Definition pset (p : Z) (f : process -> process) : M sched unit :=
  pr ← pget p; modify (fun s => set_procs (<[p := f pr]> (procs s)) s).

(** Array elements: out of bounds faults. *)
Definition head_at (q : Z) : M sched Z := s ← get; lift (ready_head s !! Z.to_nat q).
Definition tail_at (q : Z) : M sched Z := s ← get; lift (ready_tail s !! Z.to_nat q).
Definition put_head (q p : Z) : M sched unit :=
  _ ← head_at q; modify (fun s => set_ready_head (<[Z.to_nat q := p]> (ready_head s)) s).
Definition put_tail (q p : Z) : M sched unit :=
  _ ← tail_at q; modify (fun s => set_ready_tail (<[Z.to_nat q := p]> (ready_tail s)) s).

Definition default_quantum_for_priority (priority : Z) : Z := 2 + priority.

(** ** The ready queues *)

Definition queue_push_back (p : Z) : M sched unit :=
  _ ← pset p (set_p_next 0);
  pr ← pget p;
  tail ← tail_at (priority pr);
  _ ← pset p (set_p_prev tail);
  _ ← (if negb (tail =? 0) then pset tail (set_p_next p) else put_head (priority pr) p);
  put_tail (priority pr) p.

Definition queue_pop_front (q : Z) : M sched Z :=
  p ← head_at q;
  if p =? 0 then mret 0 else
  pr ← pget p;
  _ ← put_head q (p_next pr);
  _ ← (if negb (p_next pr =? 0) then pset (p_next pr) (set_p_prev 0) else put_tail q 0);
  _ ← pset p (set_p_next 0);
  _ ← pset p (set_p_prev 0);
  mret p.

Fixpoint pick_from (qs : list Z) : M sched Z :=
  match qs with
  | [] => mret 0
  | q :: qs' => h ← head_at q; if negb (h =? 0) then queue_pop_front q else pick_from qs'
  end.

Definition pick_next : M sched Z := pick_from (range 0 NUM_SCHED_QUEUES).

Definition scheduler_init : M sched unit :=
  _ ← for_each (range 0 NUM_SCHED_QUEUES) (fun i => _ ← put_head i 0; put_tail i 0);
  _ ← modify (set_current 0);
  modify (set_next_pid 0).

(** ** Creation *)

(** The structure process_alloc fills in, all else zero. *)
Definition new_process (pid_ start first prio : Z) : process :=
  MkProcess pid_ 0 0 0 0 0 0 0 [] 0 0 0 PROCESS_READY 0 0 prio (default_quantum_for_priority prio)
    (default_quantum_for_priority prio) 0 0 start "" None 0 0 false 0 0 0 0 (replicate 64 0) (replicate 64 false)
    0 0 (replicate 16 (0, 0)) (replicate 64 (MkAction 0 0 0 0)) 0 0 0 false 0 0 first.

(** [proc] is the address k_malloc returns for the structure, 0 when it
    fails; [stack_ok] tells whether the stack was allocated; [jiffies] is the
    clock. *)
Definition process_alloc (proc : Z) (stack_ok : bool) (jiffies prio : Z) : M sched Z :=
  let prio := if NUM_SCHED_QUEUES <=? prio then NUM_SCHED_QUEUES - 1 else prio in
  if proc =? 0 then mret 0 else
  if negb stack_ok then mret 0 else
  s ← get;
  let pr := new_process (next_pid s) jiffies (all_procs s) prio in
  _ ← modify (fun s => set_procs (<[proc := pr]> (procs s)) s);
  _ ← modify (set_next_pid (u32 (next_pid s + 1)));
  _ ← modify (set_all_procs proc);
  mret proc.

Definition process_create (proc : Z) (stack_ok : bool) (jiffies prio : Z) : M sched Z :=
  p ← process_alloc proc stack_ok jiffies prio;
  if p =? 0 then mret 0 else _ ← queue_push_back p; mret p.

Definition process_create_user (proc : Z) (stack_ok : bool) (jiffies as_ entry rsp prio : Z) : M sched Z :=
  p ← process_alloc proc stack_ok jiffies prio;
  if p =? 0 then mret 0 else
  _ ← pset p (fun pr => set_user_stack_top rsp (set_user_entry entry (set_p_as as_ (set_is_user true pr))));
  _ ← queue_push_back p;
  mret p.

(** ** Switching *)

Definition scheduler_start : M sched unit :=
  next ← pick_next;
  if next =? 0 then mret tt else
  _ ← pset next (set_state PROCESS_RUNNING);
  modify (set_current next).

Definition scheduler_yield : M sched unit :=
  s ← get;
  let prev := current s in
  next ← pick_next;
  if next =? 0 then mret tt else
  _ ← (if negb (prev =? 0) then
         pr ← pget prev;
         when (state_eqb (state pr) PROCESS_RUNNING)
           (_ ← pset prev (fun pr => set_ticks_left (quantum pr) (set_state PROCESS_READY pr));
            queue_push_back prev)
       else mret tt);
  _ ← pset next (set_state PROCESS_RUNNING);
  modify (set_current next).

(** ** Walks of the list of all processes

    [fuel] bounds the length of the list. *)
Fixpoint walk_all (fuel : nat) (p : Z) : M sched (list Z) :=
  match fuel with
  | O => fault
  | S fuel' =>
      if p =? 0 then mret [] else
      pr ← pget p;
      rest ← walk_all fuel' (all_next pr);
      mret (p :: rest)
  end.

Definition all_list : M sched (list Z) := s ← get; walk_all (S (size (procs s))) (all_procs s).

Definition is_runnable (st : process_state) : bool := state_eqb st PROCESS_RUNNING || state_eqb st PROCESS_READY.

Notation FSHIFT := 11 (only parsing).
Definition FIXED_1 : Z := Z.shiftl 1 FSHIFT.
Definition load_exp : list Z := [1884; 2014; 2037].
Notation CLOCK_HZ := 100 (only parsing).

(** The number of processes that satisfy [f], counted along the list. *)
Definition count_procs (f : process -> bool) : M sched Z :=
  l ← all_list;
  s ← get;
  mret (Z.of_nat (length (filter (fun p => is_true (match procs s !! p with Some pr => f pr | None => false end)) l))).

Definition calc_load : M sched unit :=
  n ← count_procs (fun pr => is_user pr && is_runnable (state pr));
  modify (fun s => set_loadavg
    (zip_with (fun l e => Z.shiftr (u64 (l * e + n * FIXED_1 * (FIXED_1 - e))) FSHIFT) (loadavg s) load_exp) s).

Definition process_count : M sched Z := n ← count_procs is_user; mret (u32 n).

Definition scheduler_tick (jiffies : Z) : M sched unit :=
  _ ← when (jiffies mod (5 * CLOCK_HZ) =? 0) calc_load;
  s ← get;
  if current s =? 0 then mret tt else
  _ ← pset (current s) (fun pr => set_cpu_ticks (u64 (cpu_ticks pr + 1)) pr);
  _ ← pset (current s) (fun pr => if 0 <? ticks_left pr then set_ticks_left (ticks_left pr - 1) pr else pr);
  pr ← pget (current s);
  when (ticks_left pr =? 0) scheduler_yield.

(** ** Sleeping and waking *)

Definition sleep_on (chan : Z) : M sched unit :=
  s ← get;
  _ ← pset (current s) (fun pr => set_state PROCESS_BLOCKED (set_wait_chan chan pr));
  scheduler_yield.

Definition make_ready (p : Z) : M sched unit :=
  _ ← pset p (fun pr => set_state PROCESS_READY (set_wait_chan 0 pr));
  queue_push_back p.

Definition process_wake (p : Z) : M sched unit :=
  pr ← pget p;
  when (state_eqb (state pr) PROCESS_BLOCKED) (make_ready p).

Definition wakeup (chan : Z) : M sched unit :=
  l ← all_list;
  for_each l (fun p => pr ← pget p; when (state_eqb (state pr) PROCESS_BLOCKED && (wait_chan pr =? chan)) (make_ready p)).

Definition process_find (pid_ : Z) : M sched Z :=
  l ← all_list;
  s ← get;
  mret (default 0 (list_find (fun p => is_true (match procs s !! p with Some pr => pid pr =? pid_ | None => false end)) l
                   ≫= fun x => Some x.2)).

(** Unlinking [p]: [pp] is the process whose [all_next] is looked at, 0 for
    the head. *)
Fixpoint unlink_all (l : list Z) (pp p : Z) : M sched unit :=
  match l with
  | [] => mret tt
  | x :: l' =>
      if x =? p then
        pr ← pget p;
        if pp =? 0 then modify (set_all_procs (all_next pr)) else pset pp (set_all_next (all_next pr))
      else unlink_all l' x p
  end.

Definition process_reap (p : Z) : M sched unit :=
  pr ← pget p;
  parent ← process_find (ppid pr);
  _ ← when (negb (parent =? 0))
        (pset parent (fun q => set_child_ticks (u64 (child_ticks q + u64 (cpu_ticks pr + child_ticks pr))) q));
  l ← all_list;
  _ ← unlink_all l 0 p;
  modify (fun s => set_procs (delete p (procs s)) s).

(** ** The queues as lists *)

Lemma wp_pget p pr s (Q : process -> sched -> Prop) : procs s !! p = Some pr -> Q pr s -> wp (pget p) Q s.
Proof. intros Hp HQ. unfold pget. wp_steps. by eapply wp_lift. Qed.

Lemma wp_pset p f pr s (Q : unit -> sched -> Prop) :
  procs s !! p = Some pr -> Q tt (set_procs (<[p := f pr]> (procs s)) s) -> wp (pset p f) Q s.
Proof. intros Hp HQ. unfold pset. wp_step. eapply wp_pget; [done|]. by wp_steps. Qed.

Lemma wp_head_at q p s (Q : Z -> sched -> Prop) : ready_head s !! Z.to_nat q = Some p -> Q p s -> wp (head_at q) Q s.
Proof. intros Hp HQ. unfold head_at. wp_steps. by eapply wp_lift. Qed.

Lemma wp_tail_at q p s (Q : Z -> sched -> Prop) : ready_tail s !! Z.to_nat q = Some p -> Q p s -> wp (tail_at q) Q s.
Proof. intros Hp HQ. unfold tail_at. wp_steps. by eapply wp_lift. Qed.

Lemma wp_put_head q p x s (Q : unit -> sched -> Prop) :
  ready_head s !! Z.to_nat q = Some x -> Q tt (set_ready_head (<[Z.to_nat q := p]> (ready_head s)) s) -> wp (put_head q p) Q s.
Proof. intros Hp HQ. unfold put_head. wp_step. eapply wp_head_at; [done|]. by wp_steps. Qed.

Lemma wp_put_tail q p x s (Q : unit -> sched -> Prop) :
  ready_tail s !! Z.to_nat q = Some x -> Q tt (set_ready_tail (<[Z.to_nat q := p]> (ready_tail s)) s) -> wp (put_tail q p) Q s.
Proof. intros Hp HQ. unfold put_tail. wp_step. eapply wp_tail_at; [done|]. by wp_steps. Qed.

(** A doubly linked segment from [prev] to [nxt]. *)
Fixpoint linked (m : gmap Z process) (prev : Z) (l : list Z) (nxt : Z) : Prop :=
  match l with
  | [] => True
  | x :: l' => (exists pr, m !! x = Some pr /\ p_prev pr = prev /\ p_next pr = default nxt (head l')) /\ linked m x l' nxt
  end.

Lemma linked_app m prev l1 l2 nxt :
  linked m prev (l1 ++ l2) nxt <-> linked m prev l1 (default nxt (head l2)) /\ linked m (default prev (last l1)) l2 nxt.
Proof.
  revert prev; induction l1 as [|x l1 IH]; intros prev; simpl; [tauto|]. rewrite IH.
  assert (default nxt (head (l1 ++ l2)) = default (default nxt (head l2)) (head l1)) as -> by (by destruct l1).
  assert (default x (last l1) = default prev (last (x :: l1))) as -> by (rewrite last_cons; by destruct (last l1)). tauto.
Qed.

(** Segments depend only on the links of their own processes. *)
Lemma linked_ext m m' prev l nxt :
  (forall x pr, x ∈ l -> m !! x = Some pr -> exists pr', m' !! x = Some pr' /\ p_prev pr' = p_prev pr /\ p_next pr' = p_next pr) ->
  linked m prev l nxt -> linked m' prev l nxt.
Proof.
  revert prev; induction l as [|x l IH]; intros prev Hm; simpl; [done|]. intros [(pr & Hx & Hp & Hn) Hl]. split.
  - destruct (Hm x pr) as (pr' & ? & ? & ?); [set_solver|done|]. exists pr'. split_and!; [done|congruence|congruence].
  - apply IH; [|done]. intros y pr' Hy. apply Hm. set_solver.
Qed.

Lemma linked_elem m prev l nxt x : linked m prev l nxt -> x ∈ l -> is_Some (m !! x).
Proof.
  revert prev; induction l as [|y l IH]; intros prev; simpl; [by intros _ ?%not_elem_of_nil|].
  intros [(pr & Hy & _) Hl] [->|Hx]%elem_of_cons; [by rewrite Hy|by eapply IH].
Qed.

(** The ready queues hold the lists [qs]. *)
Record queues_ok (s : sched) (qs : list (list Z)) : Prop := {
  qo_heads : ready_head s = (fun l => default 0 (head l)) <$> qs;
  qo_tails : ready_tail s = (fun l => default 0 (last l)) <$> qs;
  qo_linked : forall q l, qs !! q = Some l -> linked (procs s) 0 l 0;
  qo_nodup : NoDup (concat qs);
  qo_null : 0 ∉ concat qs;
  qo_count : length qs = Z.to_nat NUM_SCHED_QUEUES;
}.

(** A process without its place in a queue. *)
Definition strip (pr : process) : process := set_p_next 0 (set_p_prev 0 pr).

(** Only links changed. *)
Definition same_procs (s s' : sched) : Prop :=
  strip <$> procs s' = strip <$> procs s /\ current s' = current s /\ all_procs s' = all_procs s
  /\ next_pid s' = next_pid s /\ loadavg s' = loadavg s.

Lemma strip_next v pr : strip (set_p_next v pr) = strip pr.
Proof. by destruct pr. Qed.

Lemma strip_prev v pr : strip (set_p_prev v pr) = strip pr.
Proof. by destruct pr. Qed.

Lemma strip_insert (m : gmap Z process) x pr pr' : m !! x = Some pr -> strip pr' = strip pr -> strip <$> <[x := pr']> m = strip <$> m.
Proof. intros Hx E. rewrite fmap_insert, E. apply insert_id. by rewrite lookup_fmap, Hx. Qed.

Lemma elem_of_concat_lookup {A} (x : A) (qs : list (list A)) : x ∈ concat qs <-> exists q l, qs !! q = Some l /\ x ∈ l.
Proof.
  rewrite list_elem_of_In, in_concat. setoid_rewrite <- list_elem_of_In. split.
  - intros (l & [q Hq]%list_elem_of_lookup & Hx). eauto.
  - intros (q & l & Hq & Hx). exists l. split; [by eapply list_elem_of_lookup_2|done].
Qed.

Lemma concat_insert_perm {A} (qs : list (list A)) q l l' :
  qs !! q = Some l -> concat (<[q := l']> qs) ++ l ≡ₚ concat qs ++ l'.
Proof.
  revert q; induction qs as [|k qs IH]; intros [|q] H; simplify_eq/=.
  - rewrite (Permutation_app_comm (l' ++ concat qs) l), (Permutation_app_comm (l ++ concat qs) l').
    rewrite !app_assoc. apply Permutation_app_tail, Permutation_app_comm.
  - rewrite <- !app_assoc. by apply Permutation_app_head, IH.
Qed.

Lemma nodup_queue {A} (qs : list (list A)) i j l l' x :
  NoDup (concat qs) -> qs !! i = Some l -> qs !! j = Some l' -> x ∈ l -> x ∈ l' -> i = j.
Proof.
  revert i j; induction qs as [|k qs IH]; intros [|i] [|j] Hn Hi Hj Hx Hx'; simplify_eq/=; [done|..];
    apply NoDup_app in Hn as (_ & Hd & Hn).
  - exfalso. apply (Hd x Hx). apply elem_of_concat_lookup. eauto.
  - exfalso. apply (Hd x Hx'). apply elem_of_concat_lookup. eauto.
  - f_equal. by eapply IH.
Qed.

Lemma nodup_each {A} (qs : list (list A)) i l : NoDup (concat qs) -> qs !! i = Some l -> NoDup l.
Proof.
  revert i; induction qs as [|k qs IH]; intros [|i] Hn Hi; simplify_eq/=; apply NoDup_app in Hn as (? & _ & ?); eauto.
Qed.

(** The queues after [x] is put at the end of queue [q]. *)
Definition push (q : Z) (x : Z) (qs : list (list Z)) : list (list Z) := alter (fun l => l ++ [x]) (Z.to_nat q) qs.

Lemma push_insert q x qs l : qs !! Z.to_nat q = Some l -> push q x qs = <[Z.to_nat q := l ++ [x]]> qs.
Proof.
  intros H. unfold push. apply list_eq. intros i. destruct (decide (i = Z.to_nat q)) as [->|].
  - rewrite list_lookup_alter_eq, H, list_lookup_insert_eq; [done|]. by eapply lookup_lt_Some.
  - by rewrite list_lookup_alter_ne, list_lookup_insert_ne.
Qed.

Lemma push_perm q x qs l : qs !! Z.to_nat q = Some l -> concat (push q x qs) ≡ₚ x :: concat qs.
Proof.
  intros H. rewrite (push_insert q x qs l H). apply (Permutation_app_inv_r l). rewrite (concat_insert_perm qs _ l _ H).
  rewrite app_assoc. rewrite <- Permutation_cons_append. done.
Qed.

Lemma linked_frame m m' prev l nxt : (forall y, y ∈ l -> m' !! y = m !! y) -> linked m prev l nxt -> linked m' prev l nxt.
Proof. intros Hm. apply linked_ext. intros x pr Hx Hp. exists pr. by rewrite Hm. Qed.

(** The lists after a change at queue [q] only. *)
Lemma queues_update s s' qs q l l' :
  queues_ok s qs -> qs !! q = Some l ->
  ready_head s' = <[q := default 0 (head l')]> (ready_head s) -> ready_tail s' = <[q := default 0 (last l')]> (ready_tail s) ->
  linked (procs s') 0 l' 0 -> (forall y, y ∉ l -> y ∉ l' -> procs s' !! y = procs s !! y) ->
  NoDup (concat (<[q := l']> qs)) -> 0 ∉ concat (<[q := l']> qs) -> queues_ok s' (<[q := l']> qs).
Proof.
  intros Hok Hq Hh Ht Hl Hm Hn H0. pose proof (lookup_lt_Some _ _ _ Hq) as Hlt. split.
  - by rewrite Hh, (qo_heads _ _ Hok), list_fmap_insert.
  - by rewrite Ht, (qo_tails _ _ Hok), list_fmap_insert.
  - intros q' k. destruct (decide (q' = q)) as [->|Hne].
    + rewrite list_lookup_insert_eq by done. by intros [= <-].
    + rewrite list_lookup_insert_ne by done. intros Hk. apply (linked_frame (procs s)); [|by eapply (qo_linked _ _ Hok)].
      intros y Hy. apply Hm.
      * intros Hyl. apply Hne. by eapply (nodup_queue qs q' q k l y); [apply Hok|..].
      * intros Hyl. apply Hne. eapply (nodup_queue (<[q := l']> qs) q' q k l' y); [done|..|done|done].
        -- by rewrite list_lookup_insert_ne.
        -- by rewrite list_lookup_insert_eq.
  - done.
  - done.
  - rewrite length_insert. apply Hok.
Qed.

Lemma queue_lookup s qs q :
  queues_ok s qs -> 0 <= q < NUM_SCHED_QUEUES -> exists l, qs !! Z.to_nat q = Some l
    /\ ready_head s !! Z.to_nat q = Some (default 0 (head l)) /\ ready_tail s !! Z.to_nat q = Some (default 0 (last l)).
Proof.
  intros Hok Hq. destruct (lookup_lt_is_Some_2 qs (Z.to_nat q)) as [l Hl]; [rewrite (qo_count _ _ Hok); lia|].
  exists l. rewrite (qo_heads _ _ Hok), (qo_tails _ _ Hok), !list_lookup_fmap, Hl. done.
Qed.

Lemma push_back_ok s qs x pr :
  queues_ok s qs -> procs s !! x = Some pr -> x <> 0 -> x ∉ concat qs -> 0 <= priority pr < NUM_SCHED_QUEUES ->
  wp (queue_push_back x) (fun _ s' => queues_ok s' (push (priority pr) x qs) /\ same_procs s s') s.
Proof.
  intros Hok Hx Hx0 Hnx Hpr. destruct (queue_lookup s qs (priority pr) Hok Hpr) as (l & Hl & Hhd & Htl).
  rewrite (push_insert _ _ _ _ Hl). set (q := Z.to_nat (priority pr)) in *.
  assert (x ∉ l) as Hxl. { intros Hin. apply Hnx, elem_of_concat_lookup. eauto. }
  assert (NoDup (concat (<[q := l ++ [x]]> qs)) /\ 0 ∉ concat (<[q := l ++ [x]]> qs)) as [Hnd H0].
  { unfold q in *. rewrite <- (push_insert _ _ _ _ Hl), (push_perm _ _ _ _ Hl). split.
    - constructor; [done|apply Hok].
    - intros [E|H0]%elem_of_cons; [congruence|]. by apply (qo_null _ _ Hok). }
  unfold queue_push_back. wp_step. eapply wp_pset; [done|]. wp_step. eapply wp_pget; [simpl; apply lookup_insert_eq|].
  wp_step. eapply wp_tail_at; [exact Htl|]. wp_step. eapply wp_pset; [simpl; apply lookup_insert_eq|]. simpl.
  rewrite insert_insert_eq. set (x' := set_p_prev _ _). wp_step.
  assert (strip x' = strip pr) as Ex by by destruct pr.
  pose proof (strip_insert _ _ _ x' Hx Ex) as Hstr. destruct l as [|t l0 _] using rev_ind; simpl in x'.
  - cbn [Z.eqb negb]. eapply wp_put_head; [exact Hhd|]. eapply wp_put_tail; [exact Htl|]. split; [|done].
    apply (queues_update s _ qs q []); [done..| | |done|done]; simpl.
    + split; [|done]. exists x'. by rewrite lookup_insert_eq.
    + intros y _ Hy. rewrite lookup_insert_ne; [done|set_solver].
  - rewrite last_snoc in *. simpl in x', Htl |- *.
    assert (t ∈ concat qs) as Hcat by (apply elem_of_concat_lookup; exists q, (l0 ++ [t]); set_solver).
    assert (t <> 0) as Ht0 by (intros ->; by apply (qo_null _ _ Hok)).
    assert (t <> x) as Htx by (intros ->; done).
    pose proof (qo_linked _ _ Hok q _ Hl) as Hlink. apply linked_app in Hlink as [Hl0 Hlt]. simpl in Hl0.
    destruct Hlt as [(prt & Hpt & Hprev & Hnext) _].
    rewrite (proj2 (Z.eqb_neq _ _)) by done. cbn [negb].
    eapply wp_pset; [simpl; rewrite lookup_insert_ne by done; exact Hpt|]. eapply wp_put_tail; [exact Htl|]. split.
    + assert (t ∉ l0) as Htl0.
      { pose proof (nodup_each _ _ _ (qo_nodup _ _ Hok) Hl) as Hn. apply NoDup_app in Hn as (_ & Hn & _). intros Hin. apply (Hn t Hin). set_solver. }
      apply (queues_update s _ qs q (l0 ++ [t])); [done|done| | | | |done|done]; simpl.
      * rewrite list_insert_id; [done|]. rewrite Hhd. by destruct l0.
      * by rewrite last_snoc.
      * rewrite <- app_assoc. apply linked_app. simpl. split; [|split; [|split; [|done]]].
        -- eapply linked_frame; [|exact Hl0]. intros y Hy. rewrite !lookup_insert_ne; [done|set_solver|set_solver].
        -- exists (set_p_next x prt). rewrite lookup_insert_eq. done.
        -- exists x'. rewrite lookup_insert_ne, lookup_insert_eq by done. split_and!; [done| |done]. unfold x'. simpl. by rewrite ?last_snoc.
      * intros y Hy1 Hy2. rewrite !lookup_insert_ne; [done|set_solver|set_solver].
    + split_and!; simpl; [|done..]. rewrite (strip_insert _ t prt); [done| |by destruct prt]. by rewrite lookup_insert_ne.
Qed.

(** Taking the front of the first queue that is not empty; 0 when all are. *)
Fixpoint pick (qs : list (list Z)) : Z * list (list Z) :=
  match qs with
  | [] => (0, [])
  | [] :: qs' => let '(x, r) := pick qs' in (x, [] :: r)
  | (x :: l) :: qs' => (x, l :: qs')
  end.

Lemma pick_cases qs :
  (forall q l, qs !! q = Some l -> l = []) /\ pick qs = (0, qs) \/
  exists q x l, qs !! q = Some (x :: l) /\ (forall q' l', (q' < q)%nat -> qs !! q' = Some l' -> l' = []) /\ pick qs = (x, <[q := l]> qs).
Proof.
  induction qs as [|[|x l] qs IH].
  - left. split; [|done]. intros q l. by rewrite lookup_nil.
  - destruct IH as [[He Hp]|(q & x & l & Hq & He & Hp)]; simpl; rewrite Hp.
    + left. split; [|done]. intros [|q] l; simpl; [by intros [= <-]|apply He].
    + right. exists (S q), x, l. split_and!; [done| |done]. intros [|q'] l' Hlt; simpl; [by intros [= <-]|apply He; lia].
  - right. exists 0%nat, x, l. split_and!; [done| |done]. intros; lia.
Qed.

Lemma pop_perm {A} (qs : list (list A)) q x l : qs !! q = Some (x :: l) -> x :: concat (<[q := l]> qs) ≡ₚ concat qs.
Proof.
  intros Hq. apply (Permutation_app_inv_r l). rewrite <- (concat_insert_perm qs q (x :: l) l Hq). simpl.
  apply Permutation_middle.
Qed.

Lemma pop_front_ok s qs q x l :
  queues_ok s qs -> 0 <= q < NUM_SCHED_QUEUES -> qs !! Z.to_nat q = Some (x :: l) ->
  wp (queue_pop_front q) (fun y s' => y = x /\ queues_ok s' (<[Z.to_nat q := l]> qs) /\ same_procs s s') s.
Proof.
  intros Hok Hq Hl. destruct (queue_lookup s qs q Hok Hq) as (l1 & Hl1 & Hhd & Htl). assert (l1 = x :: l) as -> by congruence.
  assert (NoDup (x :: concat (<[Z.to_nat q := l]> qs)) /\ 0 ∉ x :: concat (<[Z.to_nat q := l]> qs)) as [Hnd H0].
  { rewrite (pop_perm qs _ x l Hl). split; apply Hok. }
  apply NoDup_cons in Hnd as [Hx Hnd]. apply not_elem_of_cons in H0 as [Hx0 H0].
  pose proof (qo_linked _ _ Hok _ _ Hl) as [(prx & Hpx & Hprev & Hnext) Hlink].
  assert (forall y, y ∈ l -> y ∈ concat (<[Z.to_nat q := l]> qs)) as Hsub.
  { intros y Hy. apply elem_of_concat_lookup. exists (Z.to_nat q), l. split; [|done]. rewrite list_lookup_insert_eq; [done|]. by eapply lookup_lt_Some. }
  unfold queue_pop_front. wp_step. eapply wp_head_at; [exact Hhd|]. simpl default.
  rewrite (proj2 (Z.eqb_neq _ _)) by congruence. wp_step. eapply wp_pget; [done|]. wp_step. eapply wp_put_head; [exact Hhd|].
  wp_step. rewrite Hnext. destruct l as [|y l]; simpl default.
  - cbn [Z.eqb negb]. eapply wp_put_tail; [exact Htl|]. wp_step. eapply wp_pset; [exact Hpx|]. wp_step.
    eapply wp_pset; [simpl; apply lookup_insert_eq|]. wp_steps. simpl. rewrite insert_insert_eq. split_and!; [done| |].
    + eapply (queues_update s _ qs _ [x]); [done|exact Hl|..]; simpl; [done|done|done| |done|done].
      intros z Hz _. rewrite lookup_insert_ne; [done|set_solver].
    + split_and!; simpl; [|done..]. apply (strip_insert _ _ prx); [done|by destruct prx].
  - assert (y <> 0) as Hy0 by (intros ->; apply H0, Hsub; set_solver).
    assert (y <> x) as Hyx by (intros ->; apply Hx, Hsub; set_solver).
    destruct Hlink as [(pry & Hpy & Hyprev & Hynext) Hrest].
    rewrite (proj2 (Z.eqb_neq _ _)) by done. cbn [negb]. eapply wp_pset; [exact Hpy|]. wp_step.
    eapply wp_pset; [simpl; rewrite lookup_insert_ne by done; exact Hpx|]. wp_step.
    eapply wp_pset; [simpl; apply lookup_insert_eq|]. wp_steps. simpl. rewrite insert_insert_eq. split_and!; [done| |].
    + assert (y ∉ l) as Hyl. { pose proof (nodup_each _ _ _ (qo_nodup _ _ Hok) Hl) as Hn. inversion Hn as [|? ? _ Hn']. by inversion Hn'. }
      eapply (queues_update s _ qs _ (x :: y :: l)); [done|exact Hl|..]; simpl.
      * done.
      * rewrite list_insert_id; [done|]. rewrite Htl. simpl. by rewrite !last_cons; destruct (last l).
      * split.
        -- exists (set_p_prev 0 pry). rewrite lookup_insert_ne, lookup_insert_eq by done. done.
        -- eapply linked_frame; [|exact Hrest]. intros z Hz. rewrite !lookup_insert_ne; [done|set_solver|].
           intros ->. apply Hx, Hsub. set_solver.
      * intros z Hz1 _. rewrite !lookup_insert_ne; [done|set_solver|set_solver].
      * done.
      * done.
    + split_and!; simpl; [|done..]. rewrite (strip_insert _ _ prx); [|by rewrite lookup_insert_ne|by destruct prx].
      apply (strip_insert _ _ pry); [done|by destruct pry].
Qed.

Lemma pick_from_ok s qs k :
  queues_ok s qs -> 0 <= k <= NUM_SCHED_QUEUES -> (forall q l, (q < Z.to_nat k)%nat -> qs !! q = Some l -> l = []) ->
  wp (pick_from (range k NUM_SCHED_QUEUES)) (fun x s' => x = (pick qs).1 /\ queues_ok s' (pick qs).2 /\ same_procs s s') s.
Proof.
  intros Hok Hk. assert (exists n, n = Z.to_nat (NUM_SCHED_QUEUES - k)) as [n Hn] by eauto.
  revert k Hk Hn; induction n as [|n IH]; intros k Hk Hn Hempty.
  - rewrite range_nil by lia. simpl. wp_steps. assert (forall q l, qs !! q = Some l -> l = []) as Hall.
    { intros q l Hq. apply (Hempty q l); [|done]. apply lookup_lt_Some in Hq. rewrite (qo_count _ _ Hok) in Hq. lia. }
    destruct (pick_cases qs) as [[_ ->]|(q & x & l & Hq & _)]; [done|]. by specialize (Hall q _ Hq).
  - rewrite range_cons by lia. cbn [pick_from]. destruct (queue_lookup s qs k Hok) as (l & Hl & Hhd & _); [lia|].
    wp_step. eapply wp_head_at; [exact Hhd|]. destruct l as [|x l]; simpl default.
    + cbn [Z.eqb negb]. apply IH; [lia|lia|]. intros q l Hq Hql. destruct (decide (q = Z.to_nat k)) as [->|]; [congruence|].
      apply (Hempty q l); [lia|done].
    + assert (x <> 0) as Hx0. { intros ->. apply (qo_null _ _ Hok), elem_of_concat_lookup. eexists _, _. split; [done|set_solver]. }
      rewrite (proj2 (Z.eqb_neq _ _)) by done. cbn [negb]. eapply wp_mono; [apply pop_front_ok; [done|lia|done]|].
      intros y s' (-> & Hok' & Hs). destruct (pick_cases qs) as [[Hall _]|(q & x' & l' & Hq & He & ->)].
      { by specialize (Hall _ _ Hl). }
      assert (q = Z.to_nat k) as ->.
      { destruct (Nat.lt_trichotomy q (Z.to_nat k)) as [Hlt|[?|Hgt]]; [|done|].
        - by specialize (Hempty _ _ Hlt Hq).
        - by specialize (He _ _ Hgt Hl). }
      assert (x' = x /\ l' = l) as [-> ->] by (split; congruence). done.
Qed.

Lemma pick_next_ok s qs :
  queues_ok s qs -> wp pick_next (fun x s' => x = (pick qs).1 /\ queues_ok s' (pick qs).2 /\ same_procs s s') s.
Proof. intros Hok. apply pick_from_ok; [done|unfold NUM_SCHED_QUEUES; lia|]. intros; lia. Qed.

(** ** The invariant of the scheduler *)

(** The processes, without their links. *)
Definition table (s : sched) : gmap Z process := strip <$> procs s.

(** The chain of all processes. *)
Fixpoint chained (m : gmap Z process) (p : Z) (l : list Z) : Prop :=
  match l with
  | [] => p = 0
  | x :: l' => p = x /\ exists pr, m !! x = Some pr /\ chained m (all_next pr) l'
  end.

(** What scheduling never changes: pids are those given out, all different;
    the list of all processes is complete. *)
Record base_inv (T : gmap Z process) (first npid : Z) (all : list Z) : Prop := {
  bi_bound : forall x pr, T !! x = Some pr -> 0 <= priority pr < NUM_SCHED_QUEUES;
  bi_null : T !! 0 = None;
  bi_all : chained T first all;
  bi_nodup : NoDup all;
  bi_dom : forall x, x ∈ all <-> is_Some (T !! x);
  bi_pids : forall x y prx pry, T !! x = Some prx -> T !! y = Some pry -> pid prx = pid pry -> x = y;
  bi_pid_bound : forall x pr, T !! x = Some pr -> 0 <= pid pr < npid;
}.

Definition at_queue (qs : list (list Z)) (q : nat) (x : Z) : Prop := exists l, qs !! q = Some l /\ x ∈ l.

(** [qs] are the ready queues, [all] the list of all processes. Ready
    processes are exactly those in a queue, each in that of its priority, and
    only the current process runs. *)
Record sched_inv (s : sched) (qs : list (list Z)) (all : list Z) : Prop := {
  sv_queues : queues_ok s qs;
  sv_ready : forall x pr q, table s !! x = Some pr ->
    at_queue qs q x <-> state pr = PROCESS_READY /\ Z.of_nat q = priority pr;
  sv_running : forall x pr, table s !! x = Some pr -> state pr = PROCESS_RUNNING -> x = current s;
  sv_current : current s <> 0 -> is_Some (table s !! current s);
  sv_base : base_inv (table s) (all_procs s) (next_pid s) all;
}.

Lemma table_lookup s x pr : procs s !! x = Some pr -> table s !! x = Some (strip pr).
Proof. intros Hx. unfold table. by rewrite lookup_fmap, Hx. Qed.

Lemma table_lookup_inv s x pr : table s !! x = Some pr -> exists pr', procs s !! x = Some pr' /\ pr = strip pr'.
Proof. unfold table. rewrite lookup_fmap. destruct (procs s !! x) as [pr'|]; [|done]. intros [= <-]. eauto. Qed.

Lemma same_table s s' : same_procs s s' -> table s' = table s.
Proof. by intros [? _]. Qed.

(** A queued process is in the table. *)
Lemma queued_table s qs q l x : queues_ok s qs -> qs !! q = Some l -> x ∈ l -> is_Some (table s !! x).
Proof.
  intros Hok Hq Hx. destruct (linked_elem _ _ _ _ x (qo_linked _ _ Hok q l Hq) Hx) as [pr Hp].
  rewrite (table_lookup _ _ _ Hp). done.
Qed.

(** *** The base does not see what scheduling changes *)

Definition key (pr : process) : Z * Z * Z := (pid pr, priority pr, all_next pr).

Lemma key_insert (T : gmap Z process) x pr pr' : T !! x = Some pr -> key pr' = key pr -> key <$> <[x := pr']> T = key <$> T.
Proof. intros Hx E. rewrite fmap_insert, E. apply insert_id. by rewrite lookup_fmap, Hx. Qed.

Lemma key_lookup (T T' : gmap Z process) x pr : key <$> T' = key <$> T -> T' !! x = Some pr -> exists pr', T !! x = Some pr' /\ key pr' = key pr.
Proof.
  intros E Hx. assert ((key <$> T) !! x = Some (key pr)) as Hk by (by rewrite <- E, lookup_fmap, Hx).
  rewrite lookup_fmap in Hk. destruct (T !! x) as [pr'|]; [|done]. injection Hk as Hk. exists pr'. split; [done|]. unfold key. congruence.
Qed.

Lemma chained_ext (T T' : gmap Z process) p l : key <$> T' = key <$> T -> chained T p l -> chained T' p l.
Proof.
  intros E. revert p; induction l as [|x l IH]; intros p; simpl; [done|]. intros (-> & pr & Hx & Hl). split; [done|].
  destruct (key_lookup T' T x pr) as (pr' & Hx' & Hk); [done|done|]. exists pr'. split; [done|].
  injection Hk as _ _ ->. by apply IH.
Qed.

Lemma base_ext (T T' : gmap Z process) first npid all : key <$> T' = key <$> T -> base_inv T first npid all -> base_inv T' first npid all.
Proof.
  intros E []. assert (forall x, is_Some (T' !! x) <-> is_Some (T !! x)) as Hdom.
  { intros x. split; intros [pr Hx]; [destruct (key_lookup T T' x pr) as (? & ? & _)|destruct (key_lookup T' T x pr) as (? & ? & _)]; eauto. }
  split.
  - intros x pr Hx. destruct (key_lookup T T' x pr) as (pr' & Hx' & [= _ <- _]); eauto.
  - apply eq_None_not_Some. rewrite Hdom. by apply eq_None_not_Some.
  - by eapply chained_ext.
  - done.
  - intros x. by rewrite Hdom.
  - intros x y prx pry Hx Hy Ep. destruct (key_lookup T T' x prx) as (px & Hx' & [= Epx _ _]); [done..|].
    destruct (key_lookup T T' y pry) as (py & Hy' & [= Epy _ _]); [done..|]. eapply bi_pids0; [done..|congruence].
  - intros x pr Hx. destruct (key_lookup T T' x pr) as (pr' & Hx' & [= <- _ _]); eauto.
Qed.

(** *** Access through the table *)

(** An update that leaves the links alone. *)
Definition data_update (f : process -> process) : Prop :=
  forall pr, strip (f pr) = f (strip pr) /\ p_next (f pr) = p_next pr /\ p_prev (f pr) = p_prev pr.

Definition rest_same (s s' : sched) : Prop :=
  current s' = current s /\ all_procs s' = all_procs s /\ next_pid s' = next_pid s /\ loadavg s' = loadavg s.

#[global] Instance rest_same_preorder : PreOrder rest_same.
Proof. split; [by intros s|]. unfold rest_same. intros s1 s2 s3 (? & ? & ? & ?) (? & ? & ? & ?). split_and!; congruence. Qed.

Lemma pget_ok s p t (Q : process -> sched -> Prop) :
  table s !! p = Some t -> (forall pr, procs s !! p = Some pr -> t = strip pr -> Q pr s) -> wp (pget p) Q s.
Proof. intros (pr & Hp & ->)%table_lookup_inv HQ. eapply wp_pget; [done|]. by apply HQ. Qed.

Lemma pset_ok s qs p f t (Q : unit -> sched -> Prop) :
  queues_ok s qs -> data_update f -> table s !! p = Some t ->
  (forall s', queues_ok s' qs -> table s' = <[p := f t]> (table s) -> rest_same s s' -> Q tt s') -> wp (pset p f) Q s.
Proof.
  intros Hok Hf (pr & Hp & ->)%table_lookup_inv HQ. eapply wp_pset; [done|]. destruct (Hf pr) as (Es & En & Ep). apply HQ.
  - destruct Hok. split; simpl; try done. intros q l Hq. eapply linked_ext; [|by eapply qo_linked0].
    intros x prx Hx Hpx. destruct (decide (x = p)) as [->|]; [rewrite lookup_insert_eq|rewrite lookup_insert_ne by done; eauto].
    exists (f pr). assert (prx = pr) as -> by congruence. done.
  - unfold table. simpl. by rewrite fmap_insert, Es.
  - done.
Qed.

Lemma push_ok s qs x t (Q : unit -> sched -> Prop) :
  queues_ok s qs -> table s !! x = Some t -> x <> 0 -> x ∉ concat qs -> 0 <= priority t < NUM_SCHED_QUEUES ->
  (forall s', queues_ok s' (push (priority t) x qs) -> table s' = table s -> rest_same s s' -> Q tt s') ->
  wp (queue_push_back x) Q s.
Proof.
  intros Hok (pr & Hp & ->)%table_lookup_inv Hx Hn Hb HQ. eapply wp_mono; [by eapply push_back_ok|].
  intros [] s' (Hok' & Ht & Hr). by apply HQ.
Qed.

Lemma at_queue_push qs k x q y :
  0 <= k -> (Z.to_nat k < length qs)%nat -> at_queue (push k x qs) q y <-> at_queue qs q y \/ (q = Z.to_nat k /\ y = x).
Proof.
  intros Hk Hl. destruct (lookup_lt_is_Some_2 qs (Z.to_nat k) Hl) as [l Hq]. unfold at_queue. rewrite (push_insert _ _ _ _ Hq).
  destruct (decide (q = Z.to_nat k)) as [->|Hne].
  - rewrite list_lookup_insert_eq by done. rewrite Hq. split.
    + intros (l' & [= <-] & [?|?%list_elem_of_singleton]%elem_of_app); eauto.
    + intros [(l' & [= <-] & ?)|[_ ->]]; (eexists; split; [done|]); set_solver.
  - rewrite list_lookup_insert_ne by done. naive_solver.
Qed.

Lemma at_queue_pop qs k x l q y :
  NoDup (concat qs) -> qs !! k = Some (x :: l) -> at_queue (<[k := l]> qs) q y <-> at_queue qs q y /\ y <> x.
Proof.
  intros Hn Hk. pose proof (lookup_lt_Some _ _ _ Hk) as Hl. unfold at_queue. destruct (decide (q = k)) as [->|Hne].
  - rewrite list_lookup_insert_eq, Hk by done. pose proof (nodup_each _ _ _ Hn Hk) as [Hx _]%NoDup_cons. split.
    + intros (l' & [= <-] & Hy). split; [eexists; split; [done|set_solver]|]. by intros ->.
    + intros [(l' & [= <-] & [->|Hy]%elem_of_cons) Hyx]; [done|eauto].
  - rewrite list_lookup_insert_ne by done. split; [|naive_solver]. intros (l' & Hq & Hy). split; [eauto|]. intros ->.
    apply Hne. eapply (nodup_queue qs q k l' (x :: l) x); [done..|set_solver].
Qed.

Lemma at_queue_concat qs x : x ∈ concat qs <-> exists q, at_queue qs q x.
Proof. rewrite elem_of_concat_lookup. unfold at_queue. naive_solver. Qed.

(** ** The scheduler as an abstract machine

    A state is the table of processes, the ready queues as lists, and the
    current process. *)
Definition astate : Type := gmap Z process * list (list Z) * Z.

(** The outgoing process goes to the back of its queue if it still runs. *)
Definition a_requeue (T : gmap Z process) (qs : list (list Z)) (prev : Z) : gmap Z process * list (list Z) :=
  match T !! prev with
  | Some t =>
      if state_eqb (state t) PROCESS_RUNNING
      then (<[prev := set_ticks_left (quantum t) (set_state PROCESS_READY t)]> T, push (priority t) prev qs)
      else (T, qs)
  | None => (T, qs)
  end.

Definition a_yield (a : astate) : astate :=
  let '(T, qs, cur) := a in
  let '(n, qs1) := pick qs in
  if n =? 0 then a
  else let '(T1, qs2) := a_requeue T qs1 cur in (alter (set_state PROCESS_RUNNING) n T1, qs2, n).

Definition a_wake (T : gmap Z process) (qs : list (list Z)) (p : Z) : gmap Z process * list (list Z) :=
  match T !! p with
  | Some t => (<[p := set_state PROCESS_READY (set_wait_chan 0 t)]> T, push (priority t) p qs)
  | None => (T, qs)
  end.

(** The state [s] of the code implements [a]. *)
Definition implements (s : sched) (a : astate) (all : list Z) : Prop :=
  sched_inv s a.1.2 all /\ table s = a.1.1 /\ current s = a.2.

Definition others_same (s s' : sched) : Prop := all_procs s' = all_procs s /\ next_pid s' = next_pid s.

Lemma state_eqb_eq x y : state_eqb x y = true <-> x = y.
Proof. unfold state_eqb. apply bool_decide_eq_true. Qed.

Lemma state_eqb_neq x y : state_eqb x y = false <-> x <> y.
Proof. unfold state_eqb. apply bool_decide_eq_false. Qed.

(** Queues and table agree. *)
Definition agree (T : gmap Z process) (qs : list (list Z)) : Prop :=
  forall x pr q, T !! x = Some pr -> at_queue qs q x <-> state pr = PROCESS_READY /\ Z.of_nat q = priority pr.

(** A process that becomes ready joins its queue. *)
Lemma agree_push (T : gmap Z process) qs x t t' :
  agree T qs -> T !! x = Some t -> state t <> PROCESS_READY -> state t' = PROCESS_READY -> priority t' = priority t ->
  0 <= priority t < NUM_SCHED_QUEUES -> length qs = Z.to_nat NUM_SCHED_QUEUES ->
  agree (<[x := t']> T) (push (priority t) x qs).
Proof.
  intros Ha Hx Hn Ht' Hpr Hb Hl y pr q. rewrite at_queue_push by lia. destruct (decide (y = x)) as [->|Hne].
  - rewrite lookup_insert_eq. intros [= <-]. rewrite (Ha x t q Hx). split.
    + intros [[? _]|[-> _]]; [done|]. split; [done|]. rewrite Hpr. lia.
    + intros [_ E]. right. split; [|done]. rewrite Hpr in E. lia.
  - rewrite lookup_insert_ne by done. intros Hy. rewrite (Ha y pr q Hy). naive_solver.
Qed.

(** A process taken off its queue runs. *)
Lemma agree_pop (T : gmap Z process) qs k x l t t' :
  agree T qs -> NoDup (concat qs) -> qs !! k = Some (x :: l) -> T !! x = Some t -> state t' <> PROCESS_READY ->
  agree (<[x := t']> T) (<[k := l]> qs).
Proof.
  intros Ha Hn Hk Hx Ht' y pr q. rewrite at_queue_pop by done. destruct (decide (y = x)) as [->|Hne].
  - rewrite lookup_insert_eq. intros [= <-]. naive_solver.
  - rewrite lookup_insert_ne by done. intros Hy. rewrite (Ha y pr q Hy). naive_solver.
Qed.

Lemma not_ready_not_queued T qs x t :
  agree T qs -> T !! x = Some t -> state t <> PROCESS_READY -> x ∉ concat qs.
Proof. intros Ha Hx Hn [q Hq]%at_queue_concat. apply (Ha x t q Hx) in Hq as [? _]. done. Qed.

Lemma pick_ready s qs all q x l :
  sched_inv s qs all -> qs !! q = Some (x :: l) ->
  x <> 0 /\ exists t, table s !! x = Some t /\ state t = PROCESS_READY /\ Z.of_nat q = priority t.
Proof.
  intros Hi Hq. destruct (queued_table s qs q (x :: l) x (sv_queues _ _ _ Hi) Hq) as [t Ht]; [set_solver|]. split.
  - intros ->. by rewrite (bi_null _ _ _ _ (sv_base _ _ _ Hi)) in Ht.
  - exists t. split; [done|]. apply (sv_ready _ _ _ Hi x t q Ht). exists (x :: l). split; [done|set_solver].
Qed.

Lemma running_update : data_update (set_state PROCESS_RUNNING).
Proof. by intros []. Qed.

Lemma yield_update : data_update (fun pr => set_ticks_left (quantum pr) (set_state PROCESS_READY pr)).
Proof. by intros []. Qed.

Lemma ready_update : data_update (fun pr => set_state PROCESS_READY (set_wait_chan 0 pr)).
Proof. by intros []. Qed.

Create HintDb sched.
#[export] Hint Resolve running_update yield_update ready_update : sched.

(** Putting the outgoing process back. *)
Lemma requeue_ok s qs prev :
  queues_ok s qs -> table s !! 0 = None -> (prev <> 0 -> is_Some (table s !! prev)) ->
  (forall t, table s !! prev = Some t -> state t = PROCESS_RUNNING -> prev ∉ concat qs /\ 0 <= priority t < NUM_SCHED_QUEUES) ->
  wp (if negb (prev =? 0) then
        pr ← pget prev;
        when (state_eqb (state pr) PROCESS_RUNNING)
          (_ ← pset prev (fun pr => set_ticks_left (quantum pr) (set_state PROCESS_READY pr)); queue_push_back prev)
      else mret tt)
     (fun _ s' => queues_ok s' (a_requeue (table s) qs prev).2 /\ table s' = (a_requeue (table s) qs prev).1 /\ rest_same s s') s.
Proof.
  intros Hok Hnull Hprev Hrun. unfold a_requeue. destruct (Z.eqb_spec prev 0) as [->|Hne]; cbn [negb]; [by rewrite Hnull; wp_steps|].
  destruct (Hprev Hne) as [t Ht]. rewrite Ht. wp_step. eapply pget_ok; [done|]. intros pr Hp ->.
  change (state pr) with (state (strip pr)). destruct (state_eqb (state (strip pr)) PROCESS_RUNNING) eqn:Es; cbn [when]; [|by wp_steps].
  apply state_eqb_eq in Es. destruct (Hrun _ Ht Es) as [Hnq Hb]. wp_step. eapply pset_ok; [done|auto with sched|done|].
  intros s1 Hok1 Ht1 Hr1. eapply push_ok; [done|rewrite Ht1; apply lookup_insert_eq|done|done|exact Hb|].
  intros s2 Hok2 Ht2 Hr2. split_and!; [exact Hok2|by rewrite Ht2, Ht1|by transitivity s1..].
Qed.

(** The abstract queues and table after the process [n] was picked and the
    outgoing one put back. *)
Lemma requeue_agree T qs k n l tn prev npid all first :
  agree T qs -> NoDup (concat qs) -> length qs = Z.to_nat NUM_SCHED_QUEUES -> base_inv T first npid all ->
  (forall x pr, T !! x = Some pr -> state pr = PROCESS_RUNNING -> x = prev) ->
  qs !! k = Some (n :: l) -> T !! n = Some tn -> state tn = PROCESS_READY ->
  let T1 := (a_requeue T (<[k := l]> qs) prev).1 in
  let qs2 := (a_requeue T (<[k := l]> qs) prev).2 in
  T1 !! n = Some tn /\ key <$> T1 = key <$> T /\ (forall x pr, T1 !! x = Some pr -> state pr <> PROCESS_RUNNING)
  /\ agree (<[n := set_state PROCESS_RUNNING tn]> T1) qs2.
Proof.
  intros Ha Hnd Hlen Hbase Hrun Hk Hn Hready. unfold a_requeue.
  pose proof (agree_pop T qs k n l tn (set_state PROCESS_RUNNING tn) Ha Hnd Hk Hn ltac:(by destruct tn)) as Hap.
  destruct (T !! prev) as [t|] eqn:Ht.
  2: { simpl. split_and!; [done|done| |done]. intros x pr Hx Hs. rewrite (Hrun x pr Hx Hs) in Hx. congruence. }
  destruct (state_eqb (state t) PROCESS_RUNNING) eqn:Es; simpl.
  2: { split_and!; [done|done| |done]. intros x pr Hx Hs. rewrite (Hrun x pr Hx Hs) in Hx.
       assert (pr = t) as -> by congruence. by apply state_eqb_neq in Es. }
  apply state_eqb_eq in Es. assert (prev <> n) as Hpn by (intros ->; congruence).
  split_and!; [by rewrite lookup_insert_ne|apply (key_insert _ _ t); [done|by destruct t]| |].
  - intros x pr. destruct (decide (x = prev)) as [->|Hx]; [rewrite lookup_insert_eq|rewrite lookup_insert_ne by done].
    + intros [= <-]. by destruct t.
    + intros Hxp Hs. by apply Hx, (Hrun x pr).
  - rewrite insert_insert_ne by done. apply (agree_push _ _ prev t); [exact Hap|by rewrite lookup_insert_ne|by rewrite Es|by destruct t..
      |by eapply (bi_bound _ _ _ _ Hbase)|by rewrite length_insert].
Qed.

Lemma yield_ok s qs all :
  sched_inv s qs all ->
  wp scheduler_yield (fun _ s' => implements s' (a_yield (table s, qs, current s)) all /\ others_same s s') s.
Proof.
  intros Hi. pose proof (sv_queues _ _ _ Hi) as Hok. pose proof (sv_base _ _ _ Hi) as Hb.
  unfold scheduler_yield. wp_step. wp_step. wp_step.
  eapply wp_mono; [by apply pick_next_ok|]. intros n s1 (-> & Hok1 & Ht1 & Hc1 & Hal1 & Hnp1 & _).
  change (table s1 = table s) in Ht1.
  unfold a_yield. destruct (pick_cases qs) as [[_ Ep]|(k & n & l & Hk & Hfirst & Ep)]; rewrite Ep in Hok1 |- *; simpl in Hok1 |- *.
  { wp_steps. split; [|done]. split_and!; simpl; [|done|done]. destruct Hi. split; rewrite ?Ht1, ?Hc1, ?Hal1, ?Hnp1; done. }
  destruct (pick_ready s qs all k n l Hi Hk) as (Hn0 & tn & Htn & Hrn & Hkn).
  rewrite (proj2 (Z.eqb_neq _ _)) by done. wp_step. eapply wp_mono.
  { apply (requeue_ok s1 (<[k := l]> qs) (current s)); [done|rewrite Ht1; apply Hb|rewrite Ht1; apply Hi|].
    rewrite Ht1. intros t Ht Hs. split; [|by eapply (bi_bound _ _ _ _ Hb)]. intros Hin.
    assert (current s ∈ concat qs) as Hin' by (rewrite <- (pop_perm qs k n l Hk); set_solver).
    apply (not_ready_not_queued (table s) qs (current s) t (sv_ready _ _ _ Hi) Ht); [by rewrite Hs|done]. }
  rewrite Ht1. intros [] s2 (Hok2 & Ht2 & Hc2 & Hal2 & Hnp2 & _).
  destruct (requeue_agree (table s) qs k n l tn (current s) (next_pid s) all (all_procs s)) as (Hn1 & Hkey & Hnorun & Hagree);
    [exact (sv_ready _ _ _ Hi)|apply Hok|apply Hok|done|apply Hi|done..|].
  destruct (a_requeue (table s) (<[k := l]> qs) (current s)) as [T1 qs2]. simpl in *.
  wp_step. eapply pset_ok; [exact Hok2|auto with sched|rewrite Ht2; exact Hn1|].
  intros s3 Hok3 Ht3 (Hc3 & Hal3 & Hnp3 & _). wp_steps. rewrite Ht2 in Ht3.
  assert (alter (set_state PROCESS_RUNNING) n T1 = <[n := set_state PROCESS_RUNNING tn]> T1) as Ealt.
  { apply map_eq. intros i. destruct (decide (i = n)) as [->|]; [by rewrite lookup_alter_eq, lookup_insert_eq, Hn1|].
    by rewrite lookup_alter_ne, lookup_insert_ne. }
  split; [|split; simpl; congruence]. split_and!; simpl; [|by rewrite Ealt|done]. split; simpl.
  - destruct Hok3. by split.
  - intros x pr q. change (table (set_current n s3)) with (table s3). rewrite Ht3. apply Hagree.
  - intros x pr. change (table (set_current n s3)) with (table s3). rewrite Ht3. destruct (decide (x = n)) as [->|]; [done|].
    rewrite lookup_insert_ne by done. intros Hx Hs. by destruct (Hnorun x pr Hx).
  - intros _. change (table (set_current n s3)) with (table s3). rewrite Ht3, lookup_insert_eq. done.
  - change (table (set_current n s3)) with (table s3). rewrite Ht3, Hal3, Hal2, Hal1, Hnp3, Hnp2, Hnp1.
    eapply base_ext; [|exact Hb]. rewrite (key_insert _ _ tn), Hkey; [done|done|by destruct tn].
Qed.

(** ** Walks *)

Lemma walk_all_ok s p l fuel :
  table s !! 0 = None -> chained (table s) p l -> (length l < fuel)%nat -> wp (walk_all fuel p) (fun r s' => r = l /\ s' = s) s.
Proof.
  intros H0. revert p l; induction fuel as [|fuel IH]; intros p l Hc Hf; [lia|]. cbn [walk_all]. destruct l as [|x l]; simpl in *.
  - subst p. cbn [Z.eqb]. by wp_steps.
  - destruct Hc as (-> & pr & Hx & Hc). rewrite (proj2 (Z.eqb_neq _ _)) by (intros ->; congruence).
    wp_step. eapply pget_ok; [done|]. intros pr' Hp ->. wp_step. eapply wp_mono; [apply (IH _ l); [exact Hc|lia]|].
    intros r s' [-> ->]. by wp_steps.
Qed.

Lemma base_length s first npid all : base_inv (table s) first npid all -> length all = size (procs s).
Proof.
  intros []. rewrite <- size_dom, <- (dom_fmap_L strip). change (strip <$> procs s) with (table s).
  rewrite <- (size_list_to_set (C:=gset Z) all) by done. f_equal. apply set_eq. intros x.
  rewrite elem_of_list_to_set, elem_of_dom. apply bi_dom0.
Qed.

Lemma all_list_ok s first npid all : base_inv (table s) (all_procs s) npid all -> first = all_procs s -> wp all_list (fun l s' => l = all /\ s' = s) s.
Proof.
  intros Hb ->. unfold all_list. wp_step. wp_step. apply walk_all_ok; [apply Hb|apply Hb|]. rewrite (base_length _ _ _ _ Hb). lia.
Qed.

(** The process with a pid is found, if there is one. *)
Definition has_pid (s : sched) (pid_ x : Z) : Prop := exists pr, table s !! x = Some pr /\ pid pr = pid_.

Lemma find_ok s npid all pid_ :
  base_inv (table s) (all_procs s) npid all ->
  wp (process_find pid_) (fun x s' => s' = s /\ (has_pid s pid_ x \/ x = 0 /\ forall y, ~ has_pid s pid_ y)) s.
Proof.
  intros Hb. unfold process_find. wp_step. eapply wp_mono; [by eapply all_list_ok|]. intros l s' [-> ->]. wp_steps.
  split; [done|].
  assert (forall x, has_pid s pid_ x <-> x ∈ all /\ is_true (match procs s !! x with Some pr => pid pr =? pid_ | None => false end)) as Hp.
  { intros x. rewrite (bi_dom _ _ _ _ Hb). unfold has_pid, table. rewrite lookup_fmap. destruct (procs s !! x) as [pr|]; simpl.
    - split.
      + intros (? & [= <-] & E). split; [done|]. by apply Z.eqb_eq.
      + intros [_ E%Z.eqb_eq]. exists (strip pr). done.
    - split; [by intros (? & ? & _)|by intros [[? ?] _]]. }
  destruct (list_find _ all) as [[i x]|] eqn:Ef; simpl.
  - apply list_find_Some in Ef as (Hi & HP & _). left. apply Hp. split; [by eapply list_elem_of_lookup_2|done].
  - right. split; [done|]. intros y [Hy HP]%Hp. apply list_find_None in Ef. rewrite Forall_forall in Ef. by apply (Ef y Hy).
Qed.

(** ** Waking *)

Lemma make_ready_ok s qs all p t :
  sched_inv s qs all -> table s !! p = Some t -> state t = PROCESS_BLOCKED ->
  wp (make_ready p) (fun _ s' => implements s' (a_wake (table s) qs p, current s) all /\ others_same s s') s.
Proof.
  intros Hi Ht Hb. pose proof (sv_base _ _ _ Hi) as Hbase. pose proof (bi_bound _ _ _ _ Hbase p t Ht) as Hpr.
  assert (p <> 0) as Hp0 by (intros ->; rewrite (bi_null _ _ _ _ Hbase) in Ht; done).
  assert (p ∉ concat qs) as Hnq by (apply (not_ready_not_queued (table s) qs p t (sv_ready _ _ _ Hi) Ht); by rewrite Hb).
  unfold make_ready. wp_step. eapply pset_ok; [apply Hi|auto with sched|done|]. intros s1 Hok1 Ht1 Hr1.
  eapply push_ok; [done|rewrite Ht1; apply lookup_insert_eq|done|done|exact Hpr|].
  intros s2 Hok2 Ht2 Hr2. destruct Hr1 as (Hc1 & Ha1 & Hn1 & _), Hr2 as (Hc2 & Ha2 & Hn2 & _). rewrite Ht1 in Ht2.
  unfold a_wake. rewrite Ht. split; [|split; congruence]. split_and!; simpl; [|done|congruence]. split.
  - exact Hok2.
  - rewrite Ht2. apply (agree_push _ _ p t); [exact (sv_ready _ _ _ Hi)|done|by rewrite Hb|done|done|done|apply Hi].
  - rewrite Ht2, Hc2, Hc1. intros x pr. destruct (decide (x = p)) as [->|]; [rewrite lookup_insert_eq; by intros [= <-]|].
    rewrite lookup_insert_ne by done. apply (sv_running _ _ _ Hi).
  - rewrite Ht2, Hc2, Hc1. intros Hc. destruct (decide (current s = p)) as [->|]; [by rewrite lookup_insert_eq|].
    rewrite lookup_insert_ne by done. by apply (sv_current _ _ _ Hi).
  - rewrite Ht2, Ha2, Ha1, Hn2, Hn1. eapply base_ext; [|exact Hbase]. by apply (key_insert _ _ t); [|destruct t].
Qed.

(** Whether the process sleeps on the channel. *)
Definition sleeps_on (chan : Z) (t : process) : bool := state_eqb (state t) PROCESS_BLOCKED && (wait_chan t =? chan).

Definition a_wake_if (chan : Z) (a : gmap Z process * list (list Z)) (p : Z) : gmap Z process * list (list Z) :=
  match a.1 !! p with
  | Some t => if sleeps_on chan t then a_wake a.1 a.2 p else a
  | None => a
  end.

Definition a_wakeup (chan : Z) (all : list Z) (T : gmap Z process) (qs : list (list Z)) : gmap Z process * list (list Z) :=
  foldl (a_wake_if chan) (T, qs) all.

Lemma wakeup_ok s qs all chan :
  sched_inv s qs all ->
  wp (wakeup chan) (fun _ s' => implements s' (a_wakeup chan all (table s) qs, current s) all /\ others_same s s') s.
Proof.
  intros Hi. unfold wakeup. wp_step. eapply wp_mono; [eapply all_list_ok; [apply Hi|done]|]. intros l s' [-> ->].
  apply (wp_for_each (fun done s' => implements s' (a_wakeup chan done (table s) qs, current s) all /\ others_same s s')).
  - split; [|done]. by split_and!.
  - intros done p todo s1 E [(Hi1 & Ht1 & Hc1) Ho1]. unfold a_wakeup. rewrite foldl_snoc. change (foldl (a_wake_if chan) (table s, qs) done) with (a_wakeup chan done (table s) qs).
    destruct (a_wakeup chan done (table s) qs) as [T1 qs1]. simpl in *. unfold a_wake_if. simpl.
    assert (is_Some (table s1 !! p)) as [t Ht] by (apply (bi_dom _ _ _ _ (sv_base _ _ _ Hi1)); rewrite E; set_solver).
    rewrite <- Ht1, Ht. wp_step. eapply pget_ok; [exact Ht|]. intros pr Hp ->.
    change (state_eqb (state pr) PROCESS_BLOCKED && (wait_chan pr =? chan)) with (sleeps_on chan (strip pr)).
    destruct (sleeps_on chan (strip pr)) eqn:Es; cbn [when].
    + apply andb_true_iff in Es as [Es%state_eqb_eq _]. eapply wp_mono; [by eapply make_ready_ok|].
      intros [] s2 [Hi2 [Ha Hn]]. rewrite Hc1 in Hi2. split; [done|]. destruct Ho1. split; congruence.
    + wp_steps. split; [|done]. by split_and!.
  - intros s' H. exact H.
Qed.

(** ** Sleeping, the clock, creation *)

(** A change of the current process that keeps it out of the queues. *)
Lemma inv_set_current s s' qs all t t' :
  sched_inv s qs all -> queues_ok s' qs -> table s !! current s = Some t -> table s' = <[current s := t']> (table s) ->
  rest_same s s' -> state t <> PROCESS_READY -> state t' <> PROCESS_READY -> key t' = key t -> sched_inv s' qs all.
Proof.
  intros Hi Hok Ht Ht' (Hc & Ha & Hn & _) Hs Hs' Hk. split.
  - exact Hok.
  - rewrite Ht'. intros x pr q. destruct (decide (x = current s)) as [->|].
    + rewrite lookup_insert_eq. intros [= <-]. rewrite (sv_ready _ _ _ Hi _ _ q Ht). tauto.
    + rewrite lookup_insert_ne by done. apply (sv_ready _ _ _ Hi).
  - rewrite Ht', Hc. intros x pr. destruct (decide (x = current s)) as [->|]; [done|].
    rewrite lookup_insert_ne by done. apply (sv_running _ _ _ Hi).
  - rewrite Ht', Hc, lookup_insert_eq. done.
  - rewrite Ht', Ha, Hn. eapply base_ext; [|apply (sv_base _ _ _ Hi)]. by apply (key_insert _ _ t).
Qed.

(** sleep_on as the abstract machine does it. *)
Definition a_sleep (chan : Z) (a : astate) : astate :=
  let '(T, qs, cur) := a in
  a_yield (alter (fun t => set_state PROCESS_BLOCKED (set_wait_chan chan t)) cur T, qs, cur).

Lemma alter_insert (T : gmap Z process) f x t : T !! x = Some t -> alter f x T = <[x := f t]> T.
Proof.
  intros Hx. apply map_eq. intros i. destruct (decide (i = x)) as [->|]; [by rewrite lookup_alter_eq, lookup_insert_eq, Hx|].
  by rewrite lookup_alter_ne, lookup_insert_ne.
Qed.

Lemma sleep_ok s qs all chan t :
  sched_inv s qs all -> table s !! current s = Some t -> state t = PROCESS_RUNNING ->
  wp (sleep_on chan) (fun _ s' => implements s' (a_sleep chan (table s, qs, current s)) all /\ others_same s s') s.
Proof.
  intros Hi Ht Hs. unfold sleep_on, a_sleep. rewrite (alter_insert _ _ _ _ Ht). wp_step. wp_step. wp_step.
  eapply pset_ok; [apply Hi|by intros []|exact Ht|]. intros s1 Hok1 Ht1 Hr1.
  assert (sched_inv s1 qs all) as Hi1 by (eapply inv_set_current; [done|done|exact Ht|exact Ht1|done|by rewrite Hs|done|by destruct t]).
  eapply wp_mono; [by apply yield_ok|]. intros [] s2 [Hi2 [Ha Hn]]. destruct Hr1 as (Hc & Ha1 & Hn1 & _).
  rewrite Ht1, Hc in Hi2. split; [done|]. split; congruence.
Qed.

Lemma load_ok s qs all :
  sched_inv s qs all -> wp calc_load (fun _ s' => sched_inv s' qs all /\ table s' = table s /\ current s' = current s /\ others_same s s') s.
Proof.
  intros Hi. unfold calc_load, count_procs. wp_step. wp_step. eapply wp_mono; [eapply all_list_ok; [apply Hi|done]|].
  intros l s' [-> ->]. wp_steps. split_and!; [|done..]. destruct Hi as [Hq]. split; try done. destruct Hq. by split.
Qed.

(** The tick charges the running process, and at the end of its turn the
    next one runs. *)
Definition a_tick (a : astate) : astate :=
  let '(T, qs, cur) := a in
  match T !! cur with
  | Some t =>
      let t1 := set_cpu_ticks (u64 (cpu_ticks t + 1)) t in
      let t2 := if 0 <? ticks_left t then set_ticks_left (ticks_left t - 1) t1 else t1 in
      if ticks_left t2 =? 0 then a_yield (<[cur := t2]> T, qs, cur) else (<[cur := t2]> T, qs, cur)
  | None => a
  end.

Lemma tick_ok s qs all jiffies :
  sched_inv s qs all -> (forall t, table s !! current s = Some t -> state t <> PROCESS_READY) ->
  wp (scheduler_tick jiffies) (fun _ s' => implements s' (a_tick (table s, qs, current s)) all /\ others_same s s') s.
Proof.
  intros Hi Hnr. unfold scheduler_tick. wp_step. eapply (wp_mono _ (fun _ s' => sched_inv s' qs all /\ table s' = table s /\ current s' = current s /\ others_same s s')).
  { apply wp_when; intros _; [by apply load_ok|done]. }
  intros [] s0 (Hi0 & Ht0 & Hc0 & Ho0). wp_step. wp_step. unfold a_tick. rewrite <- Ht0, <- Hc0 in *.
  destruct (Z.eqb_spec (current s0) 0) as [E|E].
  { rewrite E, (bi_null _ _ _ _ (sv_base _ _ _ Hi0)). wp_steps. split; [|done]. by split_and!. }
  destruct (sv_current _ _ _ Hi0 E) as [t Ht]. rewrite Ht. specialize (Hnr t Ht).
  wp_step. eapply pset_ok; [apply Hi0|by intros []|exact Ht|]. intros s1 Hok1 Ht1 Hr1.
  wp_step. eapply (pset_ok s1 qs (current s0) (fun pr => if 0 <? ticks_left pr then set_ticks_left (ticks_left pr - 1) pr else pr));
    [exact Hok1|intros []; simpl; by case_match|rewrite Ht1; apply lookup_insert_eq|].
  intros s2 Hok2 Ht2 Hr2. rewrite Ht1, insert_insert_eq in Ht2. change (ticks_left (set_cpu_ticks _ t)) with (ticks_left t) in Ht2.
  set (t2 := if 0 <? ticks_left t then _ else _) in *.
  assert (state t2 = state t /\ key t2 = key t) as [Es Ek] by (unfold t2; destruct (0 <? ticks_left t); by destruct t).
  assert (rest_same s0 s2) as Hr by by transitivity s1.
  assert (sched_inv s2 qs all) as Hi2 by (eapply inv_set_current; [exact Hi0|done|exact Ht|exact Ht2|done|done|by rewrite Es|done]).
  destruct Hr as (Hc & Ha & Hn & _). wp_step. eapply pget_ok; [rewrite Ht2; apply lookup_insert_eq|]. intros pr Hp Epr.
  assert (ticks_left pr = ticks_left t2) as -> by (rewrite Epr; done).
  destruct (ticks_left t2 =? 0); cbn [when].
  - eapply wp_mono; [by apply yield_ok|]. intros [] s3 [Hi3 [Ha3 Hn3]]. rewrite Ht2, Hc in Hi3. split; [done|].
    destruct Ho0. split; congruence.
  - wp_steps. split; [by split_and!|]. destruct Ho0. split; congruence.
Qed.

(** *** Creation *)

Lemma chained_frame (T T' : gmap Z process) p l :
  (forall x, x ∈ l -> all_next <$> T' !! x = all_next <$> T !! x) -> chained T p l -> chained T' p l.
Proof.
  revert p; induction l as [|x l IH]; intros p Hx; simpl; [done|]. intros (-> & pr & Hp & Hc). split; [done|].
  specialize (Hx x ltac:(set_solver)) as Hxx. rewrite Hp in Hxx. destruct (T' !! x) as [pr'|]; [|done]. injection Hxx as E.
  exists pr'. split; [done|]. rewrite E. apply IH; [|done]. intros y Hy. apply Hx. set_solver.
Qed.

Lemma base_insert (T : gmap Z process) first npid all x t :
  base_inv T first npid all -> T !! x = None -> x <> 0 -> 0 <= npid -> pid t = npid -> all_next t = first ->
  0 <= priority t < NUM_SCHED_QUEUES -> base_inv (<[x := t]> T) x (npid + 1) (x :: all).
Proof.
  intros [] Hx Hx0 Hn Hp Ha Hpr.
  assert (x ∉ all) as Hxa by (rewrite bi_dom0, Hx; by intros [? ?]).
  assert (forall y pr, <[x := t]> T !! y = Some pr -> y = x /\ pr = t \/ y <> x /\ T !! y = Some pr) as Hl.
  { intros y pr. destruct (decide (y = x)) as [->|]; [rewrite lookup_insert_eq|rewrite lookup_insert_ne by done]; [|auto].
    intros [= <-]. auto. }
  split.
  - intros y pr [[_ ->]|[_ Hy]]%Hl; eauto.
  - by rewrite lookup_insert_ne.
  - split; [done|]. exists t. rewrite lookup_insert_eq. split; [done|]. rewrite Ha. eapply chained_frame; [|done].
    intros y Hy. rewrite lookup_insert_ne; [done|]. by intros ->.
  - by constructor.
  - intros y. rewrite elem_of_cons, bi_dom0. destruct (decide (y = x)) as [->|]; [rewrite lookup_insert_eq|rewrite lookup_insert_ne by done].
    + split; [done|by left].
    + split; [by intros [?|?]|by right].
  - intros y z py pz [[-> ->]|[Hyx Hy]]%Hl [[-> ->]|[Hzx Hz]]%Hl E; [done| | |by eapply bi_pids0].
    + specialize (bi_pid_bound0 z pz Hz). lia.
    + specialize (bi_pid_bound0 y py Hy). lia.
  - intros y pr [[_ ->]|[_ Hy]]%Hl; [lia|]. specialize (bi_pid_bound0 y pr Hy). lia.
Qed.

Definition clamp (prio : Z) : Z := if NUM_SCHED_QUEUES <=? prio then NUM_SCHED_QUEUES - 1 else prio.

Lemma alloc_ok s qs all proc stack_ok jiffies prio :
  sched_inv s qs all -> procs s !! proc = None -> 0 <= prio < 256 -> 0 <= next_pid s < 2 ^ 32 - 1 ->
  wp (process_alloc proc stack_ok jiffies prio) (fun x s' =>
    (x = 0 /\ s' = s) \/
    (x = proc /\ proc <> 0 /\ proc ∉ concat qs /\ queues_ok s' qs /\ table s' = <[proc := new_process (next_pid s) jiffies (all_procs s) (clamp prio)]> (table s)
     /\ current s' = current s /\ base_inv (table s') (all_procs s') (next_pid s') (proc :: all))) s.
Proof.
  intros Hi Hp Hprio Hn. unfold process_alloc. destruct (Z.eqb_spec proc 0) as [->|Hp0]; [wp_steps; by left|].
  destruct stack_ok; cbn [negb]; [|wp_steps; by left]. wp_steps. right. cbn [next_pid set_procs]. rewrite u32_small by lia.
  assert (table s !! proc = None) as Ht by (unfold table; by rewrite lookup_fmap, Hp).
  assert (proc ∉ concat qs) as Hnq.
  { intros (q & l & Hq & Hx)%elem_of_concat_lookup. destruct (queued_table s qs q l proc (sv_queues _ _ _ Hi) Hq Hx) as [? ?]. congruence. }
  set (s' := set_all_procs _ _).
  assert (table s' = <[proc := new_process (next_pid s) jiffies (all_procs s) (clamp prio)]> (table s)) as Et.
  { unfold table, s'. cbn [procs set_all_procs set_next_pid set_procs]. rewrite fmap_insert. reflexivity. }
  split_and!; [done|done|done| |done|done|].
  - destruct (sv_queues _ _ _ Hi). split; simpl; try done. intros q l Hq. eapply linked_frame; [|by eapply qo_linked0].
    intros y Hy. rewrite lookup_insert_ne; [done|]. intros ->. apply Hnq, elem_of_concat_lookup. eauto.
  - rewrite Et. apply (base_insert _ (all_procs s)); [apply Hi|done|done|lia|done|done|].
    change (0 <= clamp prio < 16). unfold clamp, NUM_SCHED_QUEUES. destruct (Z.leb_spec 16 prio); lia.
Qed.

(** The abstract machine with one more ready process. *)
Lemma inv_new s s' qs all proc t :
  sched_inv s qs all -> table s !! proc = None -> proc ∉ concat qs -> state t = PROCESS_READY -> 0 <= priority t < NUM_SCHED_QUEUES ->
  queues_ok s' (push (priority t) proc qs) -> table s' = <[proc := t]> (table s) -> current s' = current s ->
  base_inv (table s') (all_procs s') (next_pid s') (proc :: all) ->
  implements s' (<[proc := t]> (table s), push (priority t) proc qs, current s) (proc :: all).
Proof.
  intros Hi Hp Hnq Hst Hb Hok Ht Hc Hbase. split_and!; [|done|done]. simpl.
  assert (length qs = Z.to_nat NUM_SCHED_QUEUES) as Hlen by apply Hi. split; [done|..]; rewrite ?Ht, ?Hc.
  - intros x pr q. rewrite at_queue_push by lia. destruct (decide (x = proc)) as [->|Hne].
    + rewrite lookup_insert_eq. intros [= <-]. split; [intros [Hq|[-> _]]|intros [_ E]; right].
      * destruct Hnq. apply at_queue_concat. eauto.
      * split; [done|lia].
      * split; [lia|done].
    + rewrite lookup_insert_ne by done. intros Hx. rewrite (sv_ready _ _ _ Hi x pr q Hx). naive_solver.
  - intros x pr. destruct (decide (x = proc)) as [->|]; [rewrite lookup_insert_eq; intros [= <-]; congruence|].
    rewrite lookup_insert_ne by done. apply (sv_running _ _ _ Hi).
  - intros Hcur. destruct (sv_current _ _ _ Hi Hcur) as [tc Htc]. rewrite lookup_insert_ne; [by rewrite Htc|]. intros E. congruence.
  - by rewrite Ht in Hbase.
Qed.

Lemma create_user_ok s qs all proc stack_ok jiffies as_ entry rsp prio :
  sched_inv s qs all -> procs s !! proc = None -> 0 <= prio < 256 -> 0 <= next_pid s < 2 ^ 32 - 1 ->
  wp (process_create_user proc stack_ok jiffies as_ entry rsp prio) (fun x s' =>
    (x = 0 /\ s' = s) \/
    exists t, x = proc /\ pid t = next_pid s /\ state t = PROCESS_READY /\ is_user t = true /\ p_as t = as_
      /\ user_entry t = entry /\ user_stack_top t = rsp /\ priority t = Z.min prio 15 /\ (0 < ticks_left t)
      /\ implements s' (<[proc := t]> (table s), push (priority t) proc qs, current s) (proc :: all)) s.
Proof.
  intros Hi Hp Hprio Hn. unfold process_create_user. wp_step. eapply wp_mono; [by apply alloc_ok|].
  intros x s1 [[-> ->]|(-> & Hp0 & Hnq & Hok1 & Ht1 & Hc1 & Hb1)]; [wp_steps; by left|].
  rewrite (proj2 (Z.eqb_neq _ _)) by done. wp_step. eapply pset_ok; [done|by intros []|rewrite Ht1; apply lookup_insert_eq|].
  intros s2 Hok2 Ht2 (Hc2 & Ha2 & Hn2 & _). rewrite Ht1, insert_insert_eq in Ht2. set (t := set_user_stack_top _ _) in *.
  assert (priority t = Z.min prio 15) as Hpt.
  { change (priority t) with (clamp prio). unfold clamp, NUM_SCHED_QUEUES. destruct (Z.leb_spec 16 prio); lia. }
  assert (table s !! proc = None) as Hnone by (unfold table; by rewrite lookup_fmap, Hp).
  wp_step. eapply push_ok; [done|rewrite Ht2; apply lookup_insert_eq|done|done|unfold NUM_SCHED_QUEUES; lia|].
  intros s3 Hok3 Ht3 (Hc3 & Ha3 & Hn3 & _). wp_steps. right. exists t. split_and!; [done..|exact Hpt| |].
  - change (ticks_left t) with (2 + clamp prio). change (priority t) with (clamp prio) in Hpt. lia.
  - apply (inv_new s); [done|done|done|done|unfold NUM_SCHED_QUEUES; lia|done|congruence|congruence|].
    rewrite Ha3, Ha2, Hn3, Hn2, Ht3, Ht2. eapply base_ext; [|exact Hb1]. rewrite Ht1.
    rewrite <- (insert_insert_eq (table s) proc t (new_process (next_pid s) jiffies (all_procs s) (clamp prio))).
    by apply (key_insert _ _ (new_process (next_pid s) jiffies (all_procs s) (clamp prio))); [apply lookup_insert_eq|].
Qed.

(** *** Reaping *)

Lemma unlink_walk l pp p post :
  p ∉ l -> unlink_all (l ++ p :: post) pp p = unlink_all (p :: post) (default pp (last l)) p.
Proof.
  revert pp; induction l as [|x l IH]; intros pp Hp; [done|]. cbn [app unlink_all].
  rewrite (proj2 (Z.eqb_neq _ _)) by set_solver. rewrite IH by set_solver. rewrite last_cons. by destruct (last l).
Qed.

(** The chain without [p]. *)
Lemma chained_skip (T : gmap Z process) first pre p tp post :
  chained T first (pre ++ p :: post) -> NoDup (pre ++ p :: post) -> T !! p = Some tp ->
  match last pre with
  | None => chained (delete p T) (all_next tp) post
  | Some pp => exists tpp, T !! pp = Some tpp /\ chained (delete p (<[pp := set_all_next (all_next tp) tpp]> T)) first (pre ++ post)
  end.
Proof.
  revert first; induction pre as [|x pre IH]; intros first Hc Hn Hp.
  - simpl in *. destruct Hc as (_ & pr & Hpr & Hc). assert (pr = tp) as -> by congruence. apply NoDup_cons in Hn as [Hn _].
    eapply chained_frame; [|exact Hc]. intros y Hy. rewrite lookup_delete_ne; [done|]. by intros ->.
  - simpl in Hc. destruct Hc as (-> & pr & Hx & Hc). simpl in Hn. apply NoDup_cons in Hn as [Hxn Hn].
    assert (x <> p) as Hxp by set_solver. rewrite last_cons. specialize (IH (all_next pr) Hc Hn Hp).
    destruct (last pre) as [pp|] eqn:El.
    + destruct IH as (tpp & Hpp & IH). exists tpp. split; [done|]. simpl. split; [done|]. exists pr.
      assert (pp ∈ pre) as Hin by (by eapply last_Some_elem_of). rewrite lookup_delete_ne, lookup_insert_ne by set_solver. done.
    + apply last_None in El as ->. exists pr. split; [done|]. simpl. split; [done|]. exists (set_all_next (all_next tp) pr).
      rewrite lookup_delete_ne, lookup_insert_eq by done. split; [done|]. change (chained (delete p (<[x := set_all_next (all_next tp) pr]> T)) (all_next tp) post).
      eapply chained_frame; [|exact IH]. intros y Hy. simpl in Hxn. destruct (decide (y = p)) as [->|]; [by rewrite !lookup_delete_eq|].
      rewrite !lookup_delete_ne, lookup_insert_ne by set_solver. done.
Qed.

(** A table with [p] gone and the chain linked around it; nothing else
    changes. *)
Definition without (p : Z) (T T' : gmap Z process) : Prop :=
  T' !! p = None /\ forall x, x <> p -> set_all_next 0 <$> T' !! x = set_all_next 0 <$> T !! x.

Lemma without_lookup p T T' x pr :
  without p T T' -> T' !! x = Some pr -> x <> p /\ exists pr', T !! x = Some pr' /\ set_all_next 0 pr = set_all_next 0 pr'.
Proof.
  intros [Hp Hx] Hl. assert (x <> p) as Hne by congruence. split; [done|]. specialize (Hx x Hne). rewrite Hl in Hx.
  destruct (T !! x) as [pr'|]; [|done]. exists pr'. split; [done|]. by apply (inj Some) in Hx.
Qed.

Lemma without_dom p T T' x : without p T T' -> is_Some (T' !! x) <-> x <> p /\ is_Some (T !! x).
Proof.
  intros [Hp Hx]. destruct (decide (x = p)) as [->|Hne]; [rewrite Hp; split; [by intros [? ?]|by intros [? _]]|].
  specialize (Hx x Hne). destruct (T' !! x), (T !! x); try done; (split; [|intros [_ [? ?]]]; done || by intros [? ?]).
Qed.

Lemma base_without T T' first first' npid all all' p :
  base_inv T first npid all -> without p T T' -> chained T' first' all' -> NoDup all' -> (forall x, x ∈ all' <-> x <> p /\ x ∈ all) ->
  base_inv T' first' npid all'.
Proof.
  intros [] Hw Hc Hn Hel.
  assert (forall x pr, T' !! x = Some pr -> exists pr', T !! x = Some pr' /\ pid pr = pid pr' /\ priority pr = priority pr') as Hl.
  { intros x pr Hx. destruct (without_lookup p T T' x pr Hw Hx) as (_ & pr' & Hx' & E). exists pr'. split; [done|].
    split; [exact (f_equal pid E)|exact (f_equal priority E)]. }
  split.
  - intros x pr (pr' & Hx & _ & ->)%Hl. eauto.
  - apply eq_None_not_Some. rewrite (without_dom p T T') by done. rewrite bi_null0. by intros [_ [? ?]].
  - done.
  - done.
  - intros x. rewrite Hel, bi_dom0, (without_dom p T T') by done. done.
  - intros x y px py (px' & Hx & Ex & _)%Hl (py' & Hy & Ey & _)%Hl E. eapply bi_pids0; [done..|congruence].
  - intros x pr (pr' & Hx & -> & _)%Hl. eauto.
Qed.

Lemma queues_delete s qs p : queues_ok s qs -> p ∉ concat qs -> queues_ok (set_procs (delete p (procs s)) s) qs.
Proof.
  intros [] Hp. split; simpl; try done. intros q l Hq. eapply linked_frame; [|by eapply qo_linked0].
  intros y Hy. rewrite lookup_delete_ne; [done|]. intros ->. apply Hp, elem_of_concat_lookup. eauto.
Qed.

Lemma table_delete s p : table (set_procs (delete p (procs s)) s) = delete p (table s).
Proof. unfold table. simpl. by rewrite fmap_delete. Qed.

(** Taking [p] off the list of all processes and freeing it. *)
Lemma unlink_ok s qs npid all p tp :
  queues_ok s qs -> base_inv (table s) (all_procs s) npid all -> table s !! p = Some tp -> p ∉ concat qs ->
  wp (_ ← unlink_all all 0 p; modify (fun s => set_procs (delete p (procs s)) s)) (fun _ s' => queues_ok s' qs
    /\ without p (table s) (table s') /\ current s' = current s /\ next_pid s' = next_pid s
    /\ exists all', base_inv (table s') (all_procs s') npid all' /\ forall x, x ∈ all' <-> x <> p /\ x ∈ all) s.
Proof.
  intros Hok Hb Hp Hnq. assert (p ∈ all) as Hin by (apply (bi_dom _ _ _ _ Hb); by rewrite Hp).
  apply list_elem_of_split in Hin as (pre & post & ->). pose proof (bi_nodup _ _ _ _ Hb) as Hnd.
  pose proof (chained_skip (table s) (all_procs s) pre p tp post (bi_all _ _ _ _ Hb) Hnd Hp) as Hskip.
  apply NoDup_app in Hnd as Hnd'. destruct Hnd' as (Hn1 & Hd & [Hpp Hn2]%NoDup_cons).
  assert (p ∉ pre) as Hpre by (intros Hin; apply (Hd p Hin); set_solver).
  assert (forall x, x ∈ pre ++ post <-> x <> p /\ x ∈ pre ++ p :: post) as Hel by (intros x; set_solver).
  assert (NoDup (pre ++ post)) as Hndr by (apply NoDup_app; split_and!; [done|intros x Hx; specialize (Hd x Hx); set_solver|done]).
  rewrite unlink_walk by done. cbn [unlink_all]. rewrite Z.eqb_refl. wp_step. wp_step. eapply pget_ok; [exact Hp|]. intros pr Hpr ->.
  destruct (last pre) as [pp|] eqn:El; simpl default.
  - destruct Hskip as (tpp & Htpp & Hchain). assert (pp ∈ pre) as Hppin by (by eapply last_Some_elem_of).
    assert (pp <> 0) as Hpp0 by (intros ->; rewrite (bi_null _ _ _ _ Hb) in Htpp; done).
    rewrite (proj2 (Z.eqb_neq _ _)) by done. eapply pset_ok; [done|by intros []|exact Htpp|].
    intros s1 Hok1 Ht1 (Hc1 & Ha1 & Hnp1 & _). wp_steps. rewrite table_delete, Ht1.
    assert (without p (table s) (delete p (<[pp := set_all_next (all_next pr) tpp]> (table s)))) as Hw.
    { split; [apply lookup_delete_eq|]. intros x Hx. rewrite lookup_delete_ne by done.
      destruct (decide (x = pp)) as [->|]; [rewrite lookup_insert_eq, Htpp; by destruct tpp|by rewrite lookup_insert_ne]. }
    split_and!; [by apply queues_delete|done|done|done|]. exists (pre ++ post). split; [|done].
    eapply (base_without (table s)); [exact Hb|exact Hw|simpl; rewrite Ha1; exact Hchain|done|done].
  - apply last_None in El as ->. cbn [Z.eqb]. wp_steps. rewrite table_delete. change (table (set_all_procs _ s)) with (table s).
    assert (without p (table s) (delete p (table s))) as Hw.
    { split; [apply lookup_delete_eq|]. intros x Hx. by rewrite lookup_delete_ne. }
    split_and!; [apply queues_delete; [destruct Hok; by split|done]|done|done|done|]. exists post. split; [|done].
    eapply (base_without (table s)); [exact Hb|exact Hw|exact Hskip|done|done].
Qed.

(** The parent is charged with the time of the child. *)
Definition charge (n : Z) (t : process) : process := set_child_ticks (u64 (child_ticks t + n)) t.

Lemma inv_find s npid all pid_ x :
  base_inv (table s) (all_procs s) npid all -> has_pid s pid_ x -> x <> 0.
Proof. intros Hb (pr & Hx & _) ->. by rewrite (bi_null _ _ _ _ Hb) in Hx. Qed.

Lemma reap_ok s qs all p t :
  sched_inv s qs all -> table s !! p = Some t -> state t = PROCESS_TERMINATED -> p <> current s ->
  wp (process_reap p) (fun _ s' => exists parent all',
    (has_pid s (ppid t) parent \/ parent = 0 /\ forall y, ~ has_pid s (ppid t) y)
    /\ sched_inv s' qs all' /\ (forall x, x ∈ all' <-> x <> p /\ x ∈ all) /\ current s' = current s
    /\ without p (alter (charge (u64 (cpu_ticks t + child_ticks t))) parent (table s)) (table s')) s.
Proof.
  intros Hi Hp Hs Hc. pose proof (sv_base _ _ _ Hi) as Hb. unfold process_reap. wp_step. eapply pget_ok; [exact Hp|].
  intros pr Hpr ->. wp_step. eapply wp_mono; [by eapply find_ok|]. intros parent s0 [-> Hfind].
  set (n := u64 (cpu_ticks pr + child_ticks pr)). wp_step.
  eapply (wp_mono _ (fun _ s1 => queues_ok s1 qs /\ table s1 = alter (charge n) parent (table s) /\ rest_same s s1)).
  { destruct Hfind as [(pq & Hq & Epid)|[-> _]].
    - rewrite (proj2 (Z.eqb_neq _ _)) by (by eapply inv_find; [|exists pq]). cbn [negb when].
      eapply pset_ok; [apply Hi|by intros []|exact Hq|]. intros s1 Hok1 Ht1 Hr1. split_and!; [done| |apply Hr1..].
      by rewrite (alter_insert _ _ _ _ Hq).
    - cbn [Z.eqb negb when]. wp_steps. split_and!; [apply Hi| |done..]. symmetry. apply alter_id. intros q Hq. rewrite (bi_null _ _ _ _ Hb) in Hq. done. }
  intros [] s1 (Hok1 & Ht1 & Hc1 & Ha1 & Hn1 & _).
  assert (key <$> table s1 = key <$> table s) as Hkey.
  { rewrite Ht1. destruct (table s !! parent) as [q|] eqn:Eq.
    - rewrite (alter_insert _ _ _ _ Eq). by apply (key_insert _ _ q).
    - by rewrite alter_id by (intros ? ?; congruence). }
  assert (base_inv (table s1) (all_procs s1) (next_pid s1) all) as Hb1 by (rewrite Ha1, Hn1; by eapply base_ext).
  assert (forall x t1, table s1 !! x = Some t1 -> exists t0, table s !! x = Some t0 /\ state t1 = state t0 /\ priority t1 = priority t0) as Hst.
  { intros x t1. rewrite Ht1. destruct (decide (x = parent)) as [->|]; [rewrite lookup_alter_eq|rewrite lookup_alter_ne by done; eauto].
    destruct (table s !! parent) as [q|]; [|done]. intros [= <-]. exists q. by split_and!. }
  assert (is_Some (table s1 !! p)) as [t1 Hp1].
  { apply (bi_dom _ _ _ _ Hb1), (bi_dom _ _ _ _ Hb). by rewrite Hp. }
  assert (p ∉ concat qs) as Hnq.
  { apply (not_ready_not_queued (table s) qs p (strip pr) (sv_ready _ _ _ Hi) Hp). by rewrite Hs. }
  wp_step. eapply wp_mono; [by eapply all_list_ok|]. intros l s2 [-> ->].
  eapply wp_mono; [by eapply unlink_ok|]. intros [] s2 (Hok2 & Hw & Hc2 & Hn2 & all' & Hb2 & Hel).
  exists parent, all'. assert (current s2 = current s) as Hc3 by congruence.
  change (u64 (cpu_ticks (strip pr) + child_ticks (strip pr))) with n. rewrite <- Ht1. split_and!; [done| |exact Hel|done|exact Hw]. split.
  - done.
  - intros x px q Hx. destruct (without_lookup _ _ _ _ _ Hw Hx) as (_ & p1 & Hx1 & E). destruct (Hst x p1 Hx1) as (p0 & Hx0 & Es & Epr).
    rewrite (sv_ready _ _ _ Hi x p0 q Hx0). rewrite <- Es, <- Epr. change (state p1) with (state (set_all_next 0 p1)). change (priority p1) with (priority (set_all_next 0 p1)).
    rewrite <- E. done.
  - intros x px Hx Hr. destruct (without_lookup _ _ _ _ _ Hw Hx) as (_ & p1 & Hx1 & E). destruct (Hst x p1 Hx1) as (p0 & Hx0 & Es & _).
    rewrite Hc3. apply (sv_running _ _ _ Hi x p0 Hx0). rewrite <- Es. change (state (set_all_next 0 p1) = PROCESS_RUNNING). by rewrite <- E.
  - rewrite Hc3. intros Hne. apply (without_dom p (table s1)); [done|]. split; [done|].
    apply (bi_dom _ _ _ _ Hb1), (bi_dom _ _ _ _ Hb). by apply (sv_current _ _ _ Hi).
  - by rewrite Hn2.
Qed.

(** ** What the abstract machine does *)

(** wakeup, in one piece: the sleepers join their queues in the order of the
    list of all processes. *)
Definition woken (chan : Z) (t : process) : process :=
  if sleeps_on chan t then set_state PROCESS_READY (set_wait_chan 0 t) else t.

Definition joins (chan : Z) (T : gmap Z process) (q : nat) (p : Z) : bool :=
  match T !! p with Some t => sleeps_on chan t && (Z.of_nat q =? priority t) | None => false end.

Lemma wakeup_char chan T qs all :
  NoDup all -> (forall x t, T !! x = Some t -> 0 <= priority t < NUM_SCHED_QUEUES) -> length qs = Z.to_nat NUM_SCHED_QUEUES ->
  (forall x, x ∈ all -> is_Some (T !! x)) ->
  let '(T', qs') := a_wakeup chan all T qs in
  (forall x, T' !! x = if decide (x ∈ all) then woken chan <$> T !! x else T !! x)
  /\ (forall q l, qs !! q = Some l -> qs' !! q = Some (l ++ filter (fun p => joins chan T q p) all)) /\ length qs' = length qs.
Proof.
  intros Hn Hb Hlen Hall. unfold a_wakeup. induction all as [|p all IH] using rev_ind.
  { cbn [foldl]. split_and!; [intros x; by rewrite decide_False by set_solver| |done]. intros q l Hq. by rewrite filter_nil, app_nil_r. }
  apply NoDup_app in Hn as (Hn & Hd & _). rewrite foldl_snoc.
  specialize (IH Hn ltac:(intros; apply Hall; set_solver)). destruct (foldl (a_wake_if chan) (T, qs) all) as [T1 qs1].
  destruct IH as (HT & Hq & Hl). assert (p ∉ all) as Hp by (intros Hin; apply (Hd p Hin); set_solver).
  destruct (Hall p ltac:(set_solver)) as [t Ht]. unfold a_wake_if. simpl. rewrite HT, decide_False, Ht by done.
  assert (forall x, x <> p -> T1 !! x = if decide (x ∈ all ++ [p]) then woken chan <$> T !! x else T !! x) as HT'.
  { intros x Hx. rewrite HT. repeat case_decide; set_solver. }
  assert (forall q l, qs !! q = Some l -> qs1 !! q = Some (l ++ filter (fun y => joins chan T q y) all)) as Hq' by done.
  assert (forall q, filter (fun y => joins chan T q y) (all ++ [p]) =
    filter (fun y => joins chan T q y) all ++ if sleeps_on chan t && (Z.of_nat q =? priority t) then [p] else []) as Hf.
  { intros q. rewrite filter_app, filter_cons, filter_nil.
    assert (sleeps_on chan t && (Z.of_nat q =? priority t) = joins chan T q p) as -> by (unfold joins; by rewrite Ht).
    by destruct (joins chan T q p). }
  destruct (sleeps_on chan t) eqn:Es.
  - unfold a_wake. rewrite HT, decide_False, Ht by done. split_and!.
    + intros x. destruct (decide (x = p)) as [->|Hx].
      * rewrite lookup_insert_eq, decide_True, Ht by set_solver. simpl. unfold woken. by rewrite Es.
      * rewrite lookup_insert_ne by done. by apply HT'.
    + intros q l Hql. rewrite Hf. specialize (Hb p t Ht). destruct (Z.eqb_spec (Z.of_nat q) (priority t)) as [E|E]; cbn [andb].
      * rewrite (push_insert _ _ _ (l ++ filter (fun y => joins chan T q y) all)) by (rewrite <- E, Nat2Z.id; by apply Hq).
        rewrite <- E, Nat2Z.id, list_lookup_insert_eq; [by rewrite app_assoc|]. apply lookup_lt_Some in Hql. lia.
      * destruct (lookup_lt_is_Some_2 qs1 (Z.to_nat (priority t))) as [k Hk]; [lia|]. rewrite (push_insert _ _ _ k Hk).
        rewrite list_lookup_insert_ne by lia. rewrite app_nil_r. by apply Hq.
    + unfold push. by rewrite length_alter.
  - split_and!; [|intros q l Hql; rewrite Hf; cbn [andb]; rewrite app_nil_r; by apply Hq|done].
    intros x. destruct (decide (x = p)) as [->|Hx]; [|by apply HT'].
    rewrite HT, decide_False, decide_True, Ht by set_solver. simpl. unfold woken. by rewrite Es.
Qed.

(** The process a yield picks is ready, and no ready process has a better
    priority. *)
Lemma yield_priority s qs all n qs1 :
  sched_inv s qs all -> pick qs = (n, qs1) -> (exists x t, table s !! x = Some t /\ state t = PROCESS_READY) ->
  n <> 0 /\ exists tn, table s !! n = Some tn /\ state tn = PROCESS_READY
    /\ (exists l, qs !! Z.to_nat (priority tn) = Some (n :: l))
    /\ forall x t, table s !! x = Some t -> state t = PROCESS_READY -> priority tn <= priority t.
Proof.
  intros Hi Ep (x0 & t0 & Hx0 & Hr0).
  assert (forall x t, table s !! x = Some t -> state t = PROCESS_READY -> exists l, qs !! Z.to_nat (priority t) = Some l /\ x ∈ l) as Hin.
  { intros x t Hx Hr. apply (sv_ready _ _ _ Hi x t (Z.to_nat (priority t)) Hx). split; [done|].
    pose proof (bi_bound _ _ _ _ (sv_base _ _ _ Hi) x t Hx). lia. }
  destruct (pick_cases qs) as [[Hempty Ep']|(k & m & l & Hk & Hfirst & Ep')]; rewrite Ep' in Ep; injection Ep as <- <-.
  { destruct (Hin x0 t0 Hx0 Hr0) as (l & Hl & Hx). rewrite (Hempty _ _ Hl) in Hx. by apply not_elem_of_nil in Hx. }
  destruct (pick_ready s qs all k m l Hi Hk) as (Hm0 & tm & Htm & Hrm & Hkm). split; [done|]. exists tm. split_and!; [done|done| |].
  - exists l. rewrite <- Hkm, Nat2Z.id. done.
  - intros x t Hx Hr. destruct (Hin x t Hx Hr) as (l' & Hl' & Hxl). pose proof (bi_bound _ _ _ _ (sv_base _ _ _ Hi) x t Hx).
    destruct (Z.le_gt_cases (priority tm) (priority t)) as [|Hgt]; [done|].
    rewrite (Hfirst (Z.to_nat (priority t)) l') in Hxl by (done || lia). by apply not_elem_of_nil in Hxl.
Qed.

(** *** Turns *)

(** The current process runs, and so do, in turn, those of its queue: the
    better queues are empty. *)
Record turns (a : astate) (k : nat) (l : list Z) : Prop := {
  tu_queue : a.1.2 !! k = Some l;
  tu_better : forall q l', (q < k)%nat -> a.1.2 !! q = Some l' -> l' = [];
  tu_current : exists t, a.1.1 !! a.2 = Some t /\ state t = PROCESS_RUNNING /\ Z.of_nat k = priority t;
  tu_ready : forall x, x ∈ l -> x <> 0 /\ x <> a.2 /\ exists t, a.1.1 !! x = Some t /\ Z.of_nat k = priority t;
  tu_nodup : NoDup l;
}.

Lemma turns_step a k x l : turns a k (x :: l) -> a.2 <> 0 -> turns (a_yield a) k (l ++ [a.2]) /\ (a_yield a).2 = x.
Proof.
  intros [Hq Hbet (t & Ht & Hs & Hk) Hr [Hxl Hnd]%NoDup_cons] Hc0. destruct a as [[T qs] cur]. simpl in *.
  assert (pick qs = (x, <[k := l]> qs)) as Ep.
  { destruct (pick_cases qs) as [[He _]|(k' & x' & l' & Hk' & Hf & ->)]; [by specialize (He _ _ Hq)|].
    destruct (Nat.lt_trichotomy k k') as [Hlt|[->|Hgt]]; [by specialize (Hf _ _ Hlt Hq)| |by specialize (Hbet _ _ Hgt Hk')].
    assert (x' = x /\ l' = l) as [-> ->] by (split; congruence). done. }
  destruct (Hr x ltac:(set_solver)) as (Hx0 & Hxc & tx & Htx & Hkx). pose proof (lookup_lt_Some _ _ _ Hq) as Hlt.
  rewrite Ep, (proj2 (Z.eqb_neq _ _)) by done. unfold a_requeue. rewrite Ht, Hs. change (state_eqb PROCESS_RUNNING PROCESS_RUNNING) with true. cbv iota.
  split; [|done]. rewrite <- Hk, (push_insert _ _ _ l) by (rewrite Nat2Z.id; by apply list_lookup_insert_eq).
  rewrite Nat2Z.id, list_insert_insert_eq. split; simpl.
  - by apply list_lookup_insert_eq.
  - intros q l' Hqk. rewrite list_lookup_insert_ne by lia. by apply Hbet.
  - rewrite lookup_alter_eq, lookup_insert_ne, Htx by done. simpl. eexists. split; [done|]. by destruct tx.
  - intros y [Hy| ->%list_elem_of_singleton]%elem_of_app.
    + destruct (Hr y ltac:(set_solver)) as (Hy0 & Hyc & ty & Hty & Hky). assert (y <> x) by (by intros ->).
      split_and!; [done|done|]. exists ty. rewrite lookup_alter_ne, lookup_insert_ne by done. done.
    + split_and!; [done|done|]. rewrite lookup_alter_ne, lookup_insert_eq by done. eexists. split; [done|]. by destruct t.
  - apply NoDup_app. split_and!; [done| |apply NoDup_singleton]. intros y Hy ->%list_elem_of_singleton.
    destruct (Hr cur ltac:(set_solver)) as (_ & ? & _). done.
Qed.

Fixpoint yields (n : nat) : M sched unit :=
  match n with O => mret tt | S n' => _ ← scheduler_yield; yields n' end.

Lemma yields_ok n s a all :
  implements s a all -> wp (yields n) (fun _ s' => implements s' (Nat.iter n a_yield a) all) s.
Proof.
  revert s a; induction n as [|n IH]; intros s a Hi; cbn [yields]; [by wp_steps|]. wp_step. destruct a as [[T qs] cur].
  destruct Hi as (Hi & Ht & Hc). simpl in *. eapply wp_mono; [by apply yield_ok|]. intros [] s' [Hi' _]. rewrite Ht, Hc in Hi'.
  rewrite <- Nat.iter_succ, Nat.iter_succ_r. by apply IH.
Qed.

Lemma turns_iter i a k l x :
  turns a k l -> a.2 <> 0 -> l !! i = Some x -> (Nat.iter (S i) a_yield a).2 = x.
Proof.
  rewrite Nat.iter_succ_r. revert a l; induction i as [|i IH]; intros a l Ht Hc Hx; (destruct l as [|y l]; [done|]); simpl in Hx.
  - injection Hx as ->. by apply (turns_step a k x l).
  - destruct (turns_step a k y l Ht Hc) as [Ht' Hc']. rewrite Nat.iter_succ_r.
    apply (IH _ (l ++ [a.2])); [done| |].
    + rewrite Hc'. apply (tu_ready _ _ _ Ht). set_solver.
    + rewrite lookup_app_l; [done|]. by eapply lookup_lt_Some.
Qed.

(** The first switch: nothing runs yet. *)
Lemma start_ok s qs all :
  sched_inv s qs all -> current s = 0 ->
  wp scheduler_start (fun _ s' => implements s' (a_yield (table s, qs, 0)) all /\ others_same s s') s.
Proof.
  intros Hi Hc. pose proof (yield_ok s qs all Hi) as Hy. rewrite Hc in Hy. unfold wp in *.
  replace (scheduler_start s) with (scheduler_yield s); [done|].
  unfold scheduler_yield, scheduler_start, mbind, M_bind, get. rewrite Hc. destruct (pick_next s) as [[n s1]|]; [|done].
  by destruct (n =? 0).
Qed.

(** ** The theorems *)

(** C1: scheduler_yield implements the abstract machine's switch: the front of
    the first queue that is not empty runs, the process that ran goes to the
    back of its own queue with a full quantum if it can still run, and with no
    process ready nothing happens. The invariant is kept: ready processes are
    exactly those queued, each once and in the queue of its priority, and only
    the current process runs. *)
Theorem scheduler_yield_correct s qs all :
  sched_inv s qs all ->
  wp scheduler_yield (fun _ s' => implements s' (a_yield (table s, qs, current s)) all /\ others_same s s') s.
Proof. apply yield_ok. Qed.

(** the scheduler strictly prefers better priorities: when some process is
    ready, scheduler_yield switches to one that was ready, stood first in its
    queue, and had the best priority of all ready processes. *)
Theorem yield_strict_priority s qs all :
  sched_inv s qs all -> (exists x t, table s !! x = Some t /\ state t = PROCESS_READY) ->
  wp scheduler_yield (fun _ s' => exists tn, table s !! current s' = Some tn /\ state tn = PROCESS_READY
    /\ (exists l, qs !! Z.to_nat (priority tn) = Some (current s' :: l))
    /\ forall x t, table s !! x = Some t -> state t = PROCESS_READY -> priority tn <= priority t) s.
Proof.
  intros Hi Hr. eapply wp_mono; [by apply yield_ok|]. intros [] s' [(_ & _ & Hc) _]. revert Hc. unfold a_yield.
  destruct (pick qs) as [n qs1] eqn:Ep. destruct (yield_priority s qs all n qs1 Hi Ep Hr) as (Hn0 & tn & Htn).
  rewrite (proj2 (Z.eqb_neq _ _)) by done. destruct (a_requeue _ _ _). simpl. intros ->. by exists tn.
Qed.

(** processes of equal priority take turns: if the current process and the
    ones queued behind it keep running and nobody better becomes ready, the
    process at position [i] of the queue runs after [i + 1] switches. *)
Theorem round_robin s qs all t l i x :
  sched_inv s qs all -> table s !! current s = Some t -> state t = PROCESS_RUNNING ->
  qs !! Z.to_nat (priority t) = Some l -> (forall q l', (q < Z.to_nat (priority t))%nat -> qs !! q = Some l' -> l' = []) ->
  l !! i = Some x -> wp (yields (S i)) (fun _ s' => current s' = x) s.
Proof.
  intros Hi Ht Hs Hq Hbet Hx. pose proof (bi_bound _ _ _ _ (sv_base _ _ _ Hi) _ _ Ht) as Hb.
  eapply wp_mono; [apply (yields_ok (S i) s (table s, qs, current s) all); by split_and!|]. intros [] s' (_ & _ & ->).
  apply (turns_iter i _ (Z.to_nat (priority t)) l); [|simpl; intros E; rewrite E, (bi_null _ _ _ _ (sv_base _ _ _ Hi)) in Ht; done|done].
  assert (forall y, y ∈ l -> exists ty, table s !! y = Some ty /\ state ty = PROCESS_READY /\ priority t = priority ty) as Hl.
  { intros y Hy. destruct (queued_table s qs _ l y (sv_queues _ _ _ Hi) Hq Hy) as [ty Hty]. exists ty. split; [done|].
    destruct (proj1 (sv_ready _ _ _ Hi y ty (Z.to_nat (priority t)) Hty)) as [? ?]; [by exists l|]. split; [done|lia]. }
  split; simpl; [done|done| | |by eapply nodup_each; [apply Hi|]].
  - exists t. split_and!; [done|done|lia].
  - intros y Hy. destruct (Hl y Hy) as (ty & Hty & Hry & Hpy). split_and!.
    + intros ->. by rewrite (bi_null _ _ _ _ (sv_base _ _ _ Hi)) in Hty.
    + intros ->. congruence.
    + exists ty. split; [done|lia].
Qed.

(** wakeup makes ready exactly the processes that sleep on the channel,
    and puts them at the back of their queues in the order of the list of all
    processes; no other process changes. *)
Theorem wakeup_correct s qs all chan :
  sched_inv s qs all ->
  wp (wakeup chan) (fun _ s' => exists qs', sched_inv s' qs' all /\ current s' = current s
    /\ (forall x, table s' !! x = woken chan <$> table s !! x)
    /\ forall q l, qs !! q = Some l -> qs' !! q = Some (l ++ filter (fun p => joins chan (table s) q p) all)) s.
Proof.
  intros Hi. pose proof (sv_base _ _ _ Hi) as Hb. eapply wp_mono; [by apply wakeup_ok|]. intros [] s' [(Hi' & Ht & Hc) _].
  pose proof (wakeup_char chan (table s) qs all (bi_nodup _ _ _ _ Hb) (bi_bound _ _ _ _ Hb) (qo_count _ _ (sv_queues _ _ _ Hi))) as Hw.
  destruct (a_wakeup chan all (table s) qs) as [T' qs']. simpl in *. destruct Hw as (HT & Hq & _).
  { intros x Hx. by apply (bi_dom _ _ _ _ Hb). }
  exists qs'. split_and!; [done|done| |done]. intros x. rewrite Ht, HT. case_decide as Hx; [done|].
  destruct (table s !! x) eqn:E; [|done]. destruct Hx. apply (bi_dom _ _ _ _ Hb). by rewrite E.
Qed.

(** sleep_on blocks the running process on the channel and switches as
    scheduler_yield does. *)
Theorem sleep_on_correct s qs all chan t :
  sched_inv s qs all -> table s !! current s = Some t -> state t = PROCESS_RUNNING ->
  wp (sleep_on chan) (fun _ s' => implements s' (a_sleep chan (table s, qs, current s)) all /\ others_same s s') s.
Proof. apply sleep_ok. Qed.

(** a timer tick charges the running process one tick, and when its turn
    is used up the next process runs. *)
Theorem scheduler_tick_correct s qs all jiffies :
  sched_inv s qs all -> (forall t, table s !! current s = Some t -> state t <> PROCESS_READY) ->
  wp (scheduler_tick jiffies) (fun _ s' => implements s' (a_tick (table s, qs, current s)) all /\ others_same s s') s.
Proof. apply tick_ok. Qed.

(** process_create_user either fails and changes nothing, or adds a
    process with a new pid, ready at the back of its queue, to the list of all
    processes. *)
Theorem process_create_user_correct s qs all proc stack_ok jiffies as_ entry rsp prio :
  sched_inv s qs all -> procs s !! proc = None -> 0 <= prio < 256 -> 0 <= next_pid s < 2 ^ 32 - 1 ->
  wp (process_create_user proc stack_ok jiffies as_ entry rsp prio) (fun x s' =>
    (x = 0 /\ s' = s) \/
    exists t, x = proc /\ pid t = next_pid s /\ state t = PROCESS_READY /\ is_user t = true /\ p_as t = as_
      /\ user_entry t = entry /\ user_stack_top t = rsp /\ priority t = Z.min prio 15 /\ (0 < ticks_left t)
      /\ implements s' (<[proc := t]> (table s), push (priority t) proc qs, current s) (proc :: all)) s.
Proof. apply create_user_ok. Qed.

(** process_reap takes a terminated process off the list of all processes
    and frees it, charges its time to its parent if there is one, and leaves
    every other process and the queues alone. *)
Theorem process_reap_correct s qs all p t :
  sched_inv s qs all -> table s !! p = Some t -> state t = PROCESS_TERMINATED -> p <> current s ->
  wp (process_reap p) (fun _ s' => exists parent all',
    (has_pid s (ppid t) parent \/ parent = 0 /\ forall y, ~ has_pid s (ppid t) y)
    /\ sched_inv s' qs all' /\ (forall x, x ∈ all' <-> x <> p /\ x ∈ all) /\ current s' = current s
    /\ without p (alter (charge (u64 (cpu_ticks t + child_ticks t))) parent (table s)) (table s')) s.
Proof. apply reap_ok. Qed.

(** ** An example: two user processes, the first one running *)

Definition sched0 : sched := MkSched ∅ (replicate 16 0) (replicate 16 0) 0 0 0 [0; 0; 0].
Definition schedA : sched := match process_create_user 10 true 0 1 4096 8192 8 sched0 with Some (_, s) => s | None => sched0 end.
Definition schedB : sched := match process_create_user 20 true 0 2 4096 8192 8 schedA with Some (_, s) => s | None => sched0 end.
Definition sched1 : sched := match scheduler_start schedB with Some (_, s) => s | None => sched0 end.
Definition queues1 : list (list Z) := replicate 8 [] ++ [[20]] ++ replicate 7 [].

Lemma sched0_inv : sched_inv sched0 (replicate 16 []) [].
Proof.
  assert (forall q (l : list Z), replicate 16 [] !! q = Some l -> l = []) as Hq by (intros q l [? _]%lookup_replicate; done).
  assert (table sched0 = ∅) as E by (unfold table; apply fmap_empty). split; rewrite ?E.
  - split; simpl; [done|done|intros q l ->%Hq; done|constructor|by apply not_elem_of_nil|done].
  - intros x pr q. by rewrite lookup_empty.
  - intros x pr. by rewrite lookup_empty.
  - done.
  - split; [intros x pr; by rewrite lookup_empty|done|done|constructor| |intros x y px py; by rewrite lookup_empty|intros x pr; by rewrite lookup_empty].
    intros x. split; [by intros ?%not_elem_of_nil|]. rewrite lookup_empty. by intros [? ?].
Qed.

Lemma wp_result {S A} (m : M S A) Q s a s' : wp m Q s -> m s = Some (a, s') -> Q a s'.
Proof. unfold wp. intros H E. by rewrite E in H. Qed.

Lemma sched1_inv : sched_inv sched1 queues1 [20; 10].
Proof.
  assert (sched_inv schedA (push 8 10 (replicate 16 [])) [10]) as HA.
  { destruct (wp_result _ _ _ 10 schedA (create_user_ok sched0 _ _ 10 true 0 1 4096 8192 8 sched0_inv eq_refl ltac:(lia) ltac:(simpl; lia)))
      as [[? _]|(t & _ & _ & _ & _ & _ & _ & _ & Hpr & _ & Hi & _)]; [by vm_compute|done|]. rewrite Hpr in Hi. exact Hi. }
  assert (sched_inv schedB (push 8 20 (push 8 10 (replicate 16 []))) [20; 10]) as HB.
  { destruct (wp_result _ _ _ 20 schedB (create_user_ok schedA _ _ 20 true 0 2 4096 8192 8 HA ltac:(by vm_compute) ltac:(lia) ltac:(by vm_compute)))
      as [[? _]|(t & _ & _ & _ & _ & _ & _ & _ & Hpr & _ & Hi & _)]; [by vm_compute|done|]. rewrite Hpr in Hi. exact Hi. }
  destruct (wp_result _ _ _ tt sched1 (start_ok schedB _ _ HB ltac:(by vm_compute))) as [[Hi _] _]; [by vm_compute|].
  assert ((a_yield (table schedB, push 8 20 (push 8 10 (replicate 16 [])), 0)).1.2 = queues1) as E by by vm_compute.
  rewrite E in Hi. exact Hi.
Qed.

Lemma scheduler_yield_correct_witness :
  wp scheduler_yield (fun _ s' => implements s' (a_yield (table sched1, queues1, current sched1)) [20; 10] /\ others_same sched1 s') sched1
  /\ (a_yield (table sched1, queues1, current sched1)).2 = 20.
Proof. split; [apply scheduler_yield_correct, sched1_inv|by vm_compute]. Defined.

Lemma yield_strict_priority_witness :
  wp scheduler_yield (fun _ s' => exists tn, table sched1 !! current s' = Some tn /\ state tn = PROCESS_READY
    /\ (exists l, queues1 !! Z.to_nat (priority tn) = Some (current s' :: l))
    /\ forall x t, table sched1 !! x = Some t -> state t = PROCESS_READY -> priority tn <= priority t) sched1.
Proof. apply (yield_strict_priority sched1 queues1 [20; 10]); [apply sched1_inv|]. eexists 20, _. split; vm_compute; reflexivity. Defined.

Lemma round_robin_witness : wp (yields 1) (fun _ s' => current s' = 20) sched1.
Proof.
  eapply (round_robin sched1 queues1 [20; 10] _ [20] 0 20); [apply sched1_inv|vm_compute; reflexivity|reflexivity|reflexivity| |reflexivity].
  intros q l Hq E. do 8 (destruct q as [|q]; [by injection E|]). simpl in Hq. lia.
Defined.

Lemma wakeup_correct_witness :
  wp (wakeup 77) (fun _ s' => exists qs', sched_inv s' qs' [20; 10] /\ current s' = current sched1
    /\ (forall x, table s' !! x = woken 77 <$> table sched1 !! x)
    /\ forall q l, queues1 !! q = Some l -> qs' !! q = Some (l ++ filter (fun p => joins 77 (table sched1) q p) [20; 10])) sched1.
Proof. apply wakeup_correct, sched1_inv. Defined.

Lemma sleep_on_correct_witness :
  wp (sleep_on 77) (fun _ s' => implements s' (a_sleep 77 (table sched1, queues1, current sched1)) [20; 10] /\ others_same sched1 s') sched1.
Proof. eapply sleep_on_correct; [apply sched1_inv|vm_compute; reflexivity|reflexivity]. Defined.

Lemma scheduler_tick_correct_witness :
  wp (scheduler_tick 1) (fun _ s' => implements s' (a_tick (table sched1, queues1, current sched1)) [20; 10] /\ others_same sched1 s') sched1.
Proof.
  apply scheduler_tick_correct; [apply sched1_inv|]. intros t Ht. assert (Some (state t) = Some PROCESS_RUNNING) as [= ->]; [|done].
  change (Some (state t)) with (state <$> Some t). rewrite <- Ht. by vm_compute.
Defined.

Lemma process_create_user_correct_witness :
  wp (process_create_user 30 true 5 3 4096 8192 8) (fun x s' =>
    (x = 0 /\ s' = sched1) \/
    exists t, x = 30 /\ pid t = next_pid sched1 /\ state t = PROCESS_READY /\ is_user t = true /\ p_as t = 3
      /\ user_entry t = 4096 /\ user_stack_top t = 8192 /\ priority t = Z.min 8 15 /\ (0 < ticks_left t)
      /\ implements s' (<[30 := t]> (table sched1), push (priority t) 30 queues1, current sched1) (30 :: [20; 10])) sched1.
Proof. apply process_create_user_correct; [apply sched1_inv|by vm_compute|lia|by vm_compute]. Defined.

(** The current process ends and another one runs. *)
Definition ending : M sched unit := cur ← gets current; _ ← pset cur (set_state PROCESS_TERMINATED); scheduler_yield.

Lemma ending_ok s qs all t :
  sched_inv s qs all -> table s !! current s = Some t -> state t = PROCESS_RUNNING ->
  wp ending (fun _ s' => implements s' (a_yield (<[current s := set_state PROCESS_TERMINATED t]> (table s), qs, current s)) all) s.
Proof.
  intros Hi Ht Hs. unfold ending. wp_step. wp_step. wp_step.
  eapply pset_ok; [apply Hi|by intros []|exact Ht|]. intros s1 Hok1 Ht1 Hr1.
  assert (sched_inv s1 qs all) as Hi1 by (eapply inv_set_current; [done|done|exact Ht|exact Ht1|done|by rewrite Hs|done|by destruct t]).
  eapply wp_mono; [by apply yield_ok|]. intros [] s2 [Hi2 _]. destruct Hr1 as (Hc & _). by rewrite Ht1, Hc in Hi2.
Qed.

Lemma implements_queues s T qs cur qs' all : implements s (a_yield (T, qs, cur)) all -> (a_yield (T, qs, cur)).1.2 = qs' -> sched_inv s qs' all.
Proof. by intros [Hi _] <-. Qed.

Definition sched2 : sched := match ending sched1 with Some (_, s) => s | None => sched0 end.
Definition first1 : process := default zero_process (table sched1 !! 10).

Lemma sched2_inv : sched_inv sched2 (replicate 16 []) [20; 10].
Proof.
  assert (table sched1 !! 10 = Some first1) as Ht by (vm_compute; reflexivity).
  assert (current sched1 = 10) as Hc by (vm_compute; reflexivity).
  assert (state first1 = PROCESS_RUNNING) as Hs by (vm_compute; reflexivity).
  assert (ending sched1 = Some (tt, sched2)) as He by (vm_compute; reflexivity).
  assert ((a_yield (<[10 := set_state PROCESS_TERMINATED first1]> (table sched1), queues1, 10)).1.2 = replicate 16 []) as Hq by (vm_compute; reflexivity).
  pose proof (ending_ok sched1 queues1 [20; 10] first1 sched1_inv) as Hw. rewrite Hc in Hw.
  apply (implements_queues _ _ _ _ _ _ (wp_result _ _ _ tt sched2 (Hw Ht Hs) He) Hq).
Qed.

Definition zombie2 : process := default zero_process (table sched2 !! 10).

Lemma process_reap_correct_witness :
  table sched2 !! 10 = Some zombie2 /\ state zombie2 = PROCESS_TERMINATED /\
  wp (process_reap 10) (fun _ s' => exists parent all',
    (has_pid sched2 (ppid zombie2) parent \/ parent = 0 /\ forall y, ~ has_pid sched2 (ppid zombie2) y)
    /\ sched_inv s' (replicate 16 []) all' /\ (forall x, x ∈ all' <-> x <> 10 /\ x ∈ [20; 10]) /\ current s' = current sched2
    /\ without 10 (alter (charge (u64 (cpu_ticks zombie2 + child_ticks zombie2))) parent (table sched2)) (table s')) sched2.
Proof.
  assert (table sched2 !! 10 = Some zombie2) as Ht by (vm_compute; reflexivity).
  assert (state zombie2 = PROCESS_TERMINATED) as Hs by (vm_compute; reflexivity).
  assert (10 <> current sched2) as Hc by (vm_compute; discriminate).
  exact (conj Ht (conj Hs (process_reap_correct sched2 _ _ 10 zombie2 sched2_inv Ht Hs Hc))).
Defined.
