(* ===== verification/Signal.v ===== *)
(** * Signals: src/src/kernel/proc/signal.c

    Sending (signal_send, sys_kill and its kin), process groups and sessions
    act on the scheduler's table of processes. Masks and dispositions are
    fields of a process; the calls that copy them from and to user memory go
    through the interface [UserMem]. Delivery is in [SigFrame]. *)
From S2P Require Import Prelude Types UserMem Cred Sched.

(** ** signal.h *)

Notation SIGINT := 2 (only parsing).
Notation SIGQUIT := 3 (only parsing).
Notation SIGKILL := 9 (only parsing).
Notation SIGSEGV := 11 (only parsing).
Notation SIGPIPE := 13 (only parsing).
Notation SIGCHLD := 17 (only parsing).
Notation SIGSTOP := 19 (only parsing).
Notation SIGTSTP := 20 (only parsing).
Notation SIGTTIN := 21 (only parsing).
Notation SIGTTOU := 22 (only parsing).
Notation SIGURG := 23 (only parsing).
Notation SIGWINCH := 28 (only parsing).
Notation SIG_DFL := 0 (only parsing).
Notation SIG_IGN := 1 (only parsing).
Notation SA_NOCLDWAIT := 2 (only parsing).
Notation SA_RESTORER := 67108864 (only parsing). (* 0x04000000 *)
Notation SA_RESTART := 268435456 (only parsing). (* 0x10000000 *)
Notation SA_NODEFER := 1073741824 (only parsing). (* 0x40000000 *)
Notation SA_RESETHAND := 2147483648 (only parsing). (* 0x80000000 *)

Definition SIGBIT (sig : Z) : Z := u64 (Z.shiftl 1 (sig - 1)).

Definition UNBLOCKABLE : Z := Z.lor (SIGBIT SIGKILL) (SIGBIT SIGSTOP).
Notation SIG_BLOCK := 0 (only parsing).
Notation SIG_UNBLOCK := 1 (only parsing).
Notation SIG_SETMASK := 2 (only parsing).

(** [x & ~y] *)
Definition clear (x y : Z) : Z := Z.ldiff x y.

(** ** Sending *)

Definition default_ignored (sig : Z) : bool :=
  existsb (Z.eqb sig) [SIGCHLD; SIGCONT; SIGURG; SIGWINCH; SIGSTOP; SIGTSTP; SIGTTIN; SIGTTOU].

Definition action (p : process) (sig : Z) : option k_sigaction :=
  if sig <? 1 then None else sigact p !! Z.to_nat (sig - 1).

Definition discarded (p : process) (sig : Z) : option bool :=
  k ← action p sig;
  let h := sa_handler k in
  Some (if sig =? SIGKILL then pid p =? 1
        else (h =? SIG_IGN) || (h =? SIG_DFL) && (default_ignored sig || (pid p =? 1))).

Definition signal_pending (p : process) : bool := negb (clear (sig_pending p) (sig_blocked p) =? 0).

Definition post (sig : Z) (p : process) : process := set_sig_pending (Z.lor (sig_pending p) (SIGBIT sig)) p.

Definition signal_send (p sig : Z) : M sched unit :=
  if p =? 0 then mret tt else
  pr ← pget p;
  if negb (is_user pr) || state_eqb (state pr) PROCESS_TERMINATED || (sig <? 1) || (NSIG <? sig) then mret tt else
  d ← lift (discarded pr sig);
  if (d : bool) then mret tt else
  _ ← pset p (post sig);
  pr ← pget p;
  when (state_eqb (state pr) PROCESS_BLOCKED && signal_pending pr) (process_wake p).

Fixpoint send_each (l : list Z) (pgrp sig err : Z) : M sched Z :=
  match l with
  | [] => mret err
  | p :: l' =>
      pr ← pget p;
      if is_user pr && (pgid pr =? pgrp) && negb (state_eqb (state pr) PROCESS_TERMINATED)
      then _ ← signal_send p sig; send_each l' pgrp sig 0
      else send_each l' pgrp sig err
  end.

Definition signal_send_pgrp (pgrp sig : Z) : M sched Z := l ← all_list; send_each l pgrp sig (- ESRCH).

(** pid > 0: that process; 0: the caller's group; -1: everyone but init and
    the caller; else group -pid. *)
Definition kill_match (me pgrp pid_ p : Z) (pr : process) : bool :=
  if 0 <? pid_ then pid pr =? u32 pid_
  else if pid_ =? -1 then (1 <? pid pr) && negb (p =? me)
  else pgid pr =? pgrp.

Fixpoint kill_each (l : list Z) (me pgrp pid_ sig err : Z) : M sched Z :=
  match l with
  | [] => mret err
  | p :: l' =>
      pr ← pget p;
      if negb (kill_match me pgrp pid_ p pr) || negb (is_user pr) || state_eqb (state pr) PROCESS_TERMINATED
      then kill_each l' me pgrp pid_ sig err else
      pm ← pget me;
      if negb (cred_may_signal (Some pm) pr sig)
      then kill_each l' me pgrp pid_ sig (if err =? - ESRCH then - EPERM else err)
      else _ ← signal_send p sig; kill_each l' me pgrp pid_ sig 0
  end.

Definition sys_kill (pid_ sig : Z) : M sched Z :=
  me ← gets current;
  if (sig <? 0) || (NSIG <? sig) then mret (- EINVAL) else
  pm ← pget me;
  l ← all_list;
  kill_each l me (if pid_ =? 0 then pgid pm else u32 (- pid_)) pid_ (s32 sig) (- ESRCH).

Definition sys_tkill (tid sig : Z) : M sched Z := if tid <=? 0 then mret (- EINVAL) else sys_kill tid sig.

Definition sys_tgkill (tgid tid sig : Z) : M sched Z :=
  if negb (tgid =? tid) || (tid <=? 0) then mret (- EINVAL) else sys_kill tid sig.

(** ** Groups and sessions *)

Definition self_or (pid_ : Z) : M sched Z := if pid_ =? 0 then gets current else process_find (u32 pid_).

(** Whether some process satisfies [f], looking along the list. *)
Definition some_proc (f : process -> bool) : M sched bool :=
  l ← all_list;
  s ← get;
  mret (existsb (fun p => match procs s !! p with Some pr => f pr | None => false end) l).

Definition group_exists (pgid_ sid_ : Z) : M sched bool :=
  some_proc (fun pr => is_user pr && (pgid pr =? pgid_) && (sid pr =? sid_)).

Definition sys_setpgid (pid_ pgid_ : Z) : M sched Z :=
  me ← gets current;
  p ← self_or pid_;
  if pgid_ <? 0 then mret (- EINVAL) else
  if p =? 0 then mret (- ESRCH) else
  pm ← pget me;
  pr ← pget p;
  if negb (p =? me) && negb (ppid pr =? pid pm) then mret (- ESRCH)
  else if negb (sid pr =? sid pm) || (sid pr =? pid pr) then mret (- EPERM)
  else
    let g := u32 (if pgid_ =? 0 then pid pr else pgid_) in
    there ← (if g =? pid pr then mret true else group_exists g (sid pm));
    if negb there then mret (- EPERM) else
    _ ← pset p (set_pgid g);
    mret 0.

Definition sys_getpgid (pid_ : Z) : M sched Z :=
  p ← self_or pid_;
  if p =? 0 then mret (- ESRCH) else pr ← pget p; mret (pgid pr).

Definition sys_getpgrp : M sched Z := me ← gets current; pr ← pget me; mret (pgid pr).

Definition sys_setsid : M sched Z :=
  me ← gets current;
  pm ← pget me;
  leader ← some_proc (fun pr => is_user pr && (pgid pr =? pid pm));
  if (leader : bool) then mret (- EPERM) else
  _ ← pset me (fun pr => set_ctty 0 (set_sid (pid pr) (set_pgid (pid pr) pr)));
  mret (pid pm).

Definition sys_getsid (pid_ : Z) : M sched Z :=
  p ← self_or pid_;
  if p =? 0 then mret (- ESRCH) else pr ← pget p; mret (sid pr).

(** ** Masks and dispositions *)

Definition signal_mask_temp (mask : Z) (p : process) : process :=
  set_sig_blocked (clear mask UNBLOCKABLE) (set_sig_restore true (set_sig_saved (sig_blocked p) p)).

Definition signal_mask_restore (p : process) : process :=
  if sig_restore p then set_sig_restore false (set_sig_blocked (sig_saved p) p) else p.

Section Calls.
  Context {U : Type} `{UM : UserMem U}.

Definition action_bytes (k : k_sigaction) : list Z :=
  le_bytes 8 (sa_handler k) ++ le_bytes 8 (sa_flags k) ++ le_bytes 8 (sa_restorer k) ++ le_bytes 8 (sa_mask k).

Definition load_action (a : Z) : M U k_sigaction :=
  h ← load64 a; f ← load64 (a + 8); r ← load64 (a + 16); m ← load64 (a + 24); mret (MkAction h f r m).

Definition put_action (p : process) (sig : Z) (k : k_sigaction) : process :=
  set_sigact (<[Z.to_nat (sig - 1) := k]> (sigact p)) p.

Definition install (p : process) (sig act : Z) : M U (Z * process) :=
  ok ← user_ok (u64 act) 32 false;
  if negb ok then mret (- EFAULT, p) else
  k ← load_action (u64 act);
  let p' := put_action p sig (set_sa_mask (clear (sa_mask k) UNBLOCKABLE) k) in
  d ← lift (discarded p' sig);
  mret (0, if (d : bool) then set_sig_pending (clear (sig_pending p') (SIGBIT sig)) p' else p').

Definition sys_rt_sigaction (p : process) (sig act oact size_ : Z) : M U (Z * process) :=
  if (sig <? 1) || (NSIG <? sig) || negb (size_ =? 8) then mret (- EINVAL, p)
  else if negb (act =? 0) && ((sig =? SIGKILL) || (sig =? SIGSTOP)) then mret (- EINVAL, p)
  else if oact =? 0 then (if act =? 0 then mret (0, p) else install p sig act)
  else
    ok ← user_ok (u64 oact) 32 true;
    if negb ok then mret (- EFAULT, p) else
    k ← lift (action p sig);
    _ ← store_bytes (u64 oact) (action_bytes k);
    if act =? 0 then mret (0, p) else install p sig act.

(** The loop of pause and sigsuspend: done when a signal is pending, else the
    process sleeps on itself and looks again ([None]). *)
Definition await_signal (p : process) : option Z := if signal_pending p then Some (- EINTR) else None.

Definition sys_pause (p : process) : option Z := await_signal p.

(** [inl]: an error at once; [inr]: the process waits under the new mask. *)
Definition sys_rt_sigsuspend (p : process) (set_ size_ : Z) : M U (Z + process) :=
  if negb (size_ =? 8) then mret (inl (- EINVAL)) else
  ok ← user_ok (u64 set_) 8 false;
  if negb ok then mret (inl (- EFAULT)) else
  m ← load64 (u64 set_);
  mret (inr (signal_mask_temp m p)).

Definition new_mask (how m old : Z) : option Z :=
  if how =? SIG_BLOCK then Some (Z.lor old m)
  else if how =? SIG_UNBLOCK then Some (clear old m)
  else if how =? SIG_SETMASK then Some m
  else None.

Definition change_mask (p : process) (how set_ : Z) : M U (Z * process) :=
  ok ← user_ok (u64 set_) 8 false;
  if negb ok then mret (- EFAULT, p) else
  m ← load64 (u64 set_);
  match new_mask how m (sig_blocked p) with
  | Some b => mret (0, set_sig_blocked (clear b UNBLOCKABLE) p)
  | None => mret (- EINVAL, p)
  end.

Definition sys_rt_sigprocmask (p : process) (how set_ oset size_ : Z) : M U (Z * process) :=
  if negb (size_ =? 8) then mret (- EINVAL, p)
  else if oset =? 0 then (if set_ =? 0 then mret (0, p) else change_mask p how set_)
  else
    ok ← user_ok (u64 oset) 8 true;
    if negb ok then mret (- EFAULT, p) else
    _ ← store64 (u64 oset) (sig_blocked p);
    if set_ =? 0 then mret (0, p) else change_mask p how set_.
End Calls.

(** ** Sending, abstractly *)

(** A signal is kept for the process. *)
Definition receives (sig : Z) (t : process) : bool :=
  is_user t && negb (state_eqb (state t) PROCESS_TERMINATED) && (1 <=? sig) && (sig <=? NSIG)
  && match discarded t sig with Some d => negb d | None => false end.

(** What a process that is sent a signal becomes. *)
Definition notified (sig : Z) (t : process) : process :=
  if receives sig t then
    let t' := post sig t in
    if state_eqb (state t) PROCESS_BLOCKED && signal_pending t' then set_state PROCESS_READY (set_wait_chan 0 t') else t'
  else t.

Definition wakes (sig : Z) (t : process) : bool :=
  receives sig t && state_eqb (state t) PROCESS_BLOCKED && signal_pending (post sig t).

Definition sig_table (s : sched) : Prop := forall x t, table s !! x = Some t -> length (sigact t) = 64%nat.

(** A change of a process that scheduling does not look at. *)
Definition quiet (f : process -> process) : Prop :=
  data_update f /\ forall t, state (f t) = state t /\ key (f t) = key t.

Lemma pset_quiet s qs all p t f (Q : unit -> sched -> Prop) :
  sched_inv s qs all -> quiet f -> table s !! p = Some t ->
  (forall s', sched_inv s' qs all -> table s' = <[p := f t]> (table s) -> current s' = current s -> others_same s s' -> Q tt s') ->
  wp (pset p f) Q s.
Proof.
  intros Hi [Hd Hf] Ht HQ. destruct (Hf t) as [Hs Hk]. eapply pset_ok; [apply Hi|done|exact Ht|]. intros s' Hok Ht' (Hc & Ha & Hn & _).
  apply HQ; [|done|done|split; congruence]. split.
  - exact Hok.
  - rewrite Ht'. intros x pr q. destruct (decide (x = p)) as [->|]; [|rewrite lookup_insert_ne by done; apply (sv_ready _ _ _ Hi)].
    rewrite lookup_insert_eq. intros [= <-]. rewrite Hs. unfold key in Hk. injection Hk as _ -> _. by apply (sv_ready _ _ _ Hi).
  - rewrite Ht', Hc. intros x pr. destruct (decide (x = p)) as [->|]; [|rewrite lookup_insert_ne by done; apply (sv_running _ _ _ Hi)].
    rewrite lookup_insert_eq. intros [= <-]. rewrite Hs. by apply (sv_running _ _ _ Hi).
  - rewrite Ht', Hc. intros Hc0. destruct (decide (current s = p)) as [->|]; [by rewrite lookup_insert_eq|].
    rewrite lookup_insert_ne by done. by apply (sv_current _ _ _ Hi).
  - rewrite Ht', Ha, Hn. eapply base_ext; [|apply Hi]. by apply (key_insert _ _ t).
Qed.

Lemma post_quiet sig : quiet (post sig).
Proof. split; [by intros []|]. by intros []. Qed.

Lemma action_some t sig : length (sigact t) = 64%nat -> 1 <= sig <= NSIG -> is_Some (action t sig).
Proof.
  intros Hl Hs. unfold action. rewrite (proj2 (Z.ltb_ge sig 1)) by lia. apply lookup_lt_is_Some. unfold NSIG in Hs. lia.
Qed.

Lemma discarded_some t sig : length (sigact t) = 64%nat -> 1 <= sig <= NSIG -> exists d, discarded t sig = Some d.
Proof. intros Hl Hs. unfold discarded. destruct (action_some t sig Hl Hs) as [k ->]. simpl. eauto. Qed.

(** Sending changes the one process, and wakes it if it slept. *)
Lemma send_ok s qs all p sig t :
  sched_inv s qs all -> table s !! p = Some t -> length (sigact t) = 64%nat ->
  wp (signal_send p sig) (fun _ s' => sched_inv s' (if wakes sig t then push (priority t) p qs else qs) all
    /\ table s' = <[p := notified sig t]> (table s) /\ current s' = current s /\ others_same s s') s.
Proof.
  intros Hi Ht Hl. assert (p <> 0) as Hp0 by (intros ->; rewrite (bi_null _ _ _ _ (sv_base _ _ _ Hi)) in Ht; done).
  unfold signal_send. rewrite (proj2 (Z.eqb_neq p 0)) by done. wp_step. eapply pget_ok; [exact Ht|]. intros pr Hp ->.
  unfold wakes, notified, receives. change (is_user (strip pr)) with (is_user pr). change (state (strip pr)) with (state pr).
  change (priority (strip pr)) with (priority pr). change (discarded (strip pr) sig) with (discarded pr sig).
  destruct (is_user pr) eqn:Eu; cbn [andb negb orb]; [|by wp_steps; rewrite insert_id].
  destruct (state_eqb (state pr) PROCESS_TERMINATED) eqn:Ez; cbn [andb negb orb]; [by wp_steps; rewrite insert_id|].
  rewrite !Z.leb_antisym. destruct (Z.ltb_spec sig 1); cbn [andb negb orb]; [by wp_steps; rewrite insert_id|].
  destruct (Z.ltb_spec NSIG sig); cbn [andb negb orb]; [by wp_steps; rewrite insert_id|].
  destruct (discarded_some pr sig Hl) as [d Hd]; [lia|]. rewrite Hd. wp_step. eapply wp_lift; [done|].
  destruct d; cbn [andb negb]; [by wp_steps; rewrite insert_id|].
  wp_step. eapply pset_quiet; [done|apply post_quiet|exact Ht|]. intros s1 Hi1 Ht1 Hc1 Ho1.
  assert (table s1 !! p = Some (post sig (strip pr))) as Hp1 by (rewrite Ht1; apply lookup_insert_eq).
  wp_step. eapply pget_ok; [exact Hp1|]. intros pr1 Hpr1 E1.
  replace (state pr1) with (state pr) by (change (state pr1) with (state (strip pr1)); by rewrite <- E1).
  replace (signal_pending pr1) with (signal_pending (post sig (strip pr))) by (change (signal_pending pr1) with (signal_pending (strip pr1)); by rewrite <- E1).
  destruct (state_eqb (state pr) PROCESS_BLOCKED) eqn:Eb; cbn [andb]; [|by wp_steps].
  destruct (signal_pending (post sig (strip pr))) eqn:Epd; cbn [when]; [|by wp_steps].
  unfold process_wake. wp_step. eapply wp_pget; [exact Hpr1|].
  replace (state pr1) with (state pr) by (change (state pr1) with (state (strip pr1)); by rewrite <- E1). rewrite Eb. cbn [when].
  eapply wp_mono; [eapply make_ready_ok; [exact Hi1|exact Hp1|by apply state_eqb_eq]|].
  intros [] s2 [(Hi2 & Ht2 & Hc2) Ho2]. unfold a_wake in *. rewrite Hp1 in *. simpl in Hi2, Ht2, Hc2.
  split_and!; [done|by rewrite Ht2, Ht1, insert_insert_eq|congruence|]. destruct Ho1, Ho2. split; congruence.
Qed.

(** ** Sending to many *)

(** The processes of [l] that satisfy [hit] have been sent the signal. *)
Definition told (hit : Z -> process -> bool) (sig : Z) (l : list Z) (T T' : gmap Z process) : Prop :=
  forall x, T' !! x = (fun t => if bool_decide (x ∈ l) && hit x t then notified sig t else t) <$> T !! x.

Lemma told_nil hit sig T : told hit sig [] T T.
Proof. intros x. rewrite bool_decide_eq_false_2 by apply not_elem_of_nil. by destruct (T !! x). Qed.

Lemma among_ne (x p : Z) l : x <> p -> bool_decide (x ∈ p :: l) = bool_decide (x ∈ l).
Proof. intros H. apply bool_decide_ext. rewrite elem_of_cons. tauto. Qed.

Lemma told_skip hit sig p l T T' t : T !! p = Some t -> hit p t = false -> told hit sig l T T' -> told hit sig (p :: l) T T'.
Proof.
  intros Ht Hh H x. rewrite H. destruct (decide (x = p)) as [->|Hne]; [rewrite Ht; simpl; by rewrite Hh, !andb_false_r|].
  by rewrite among_ne.
Qed.

Lemma told_step hit sig p l T T1 T' t :
  T !! p = Some t -> hit p t = true -> p ∉ l -> T1 = <[p := notified sig t]> T -> told hit sig l T1 T' -> told hit sig (p :: l) T T'.
Proof.
  intros Ht Hh Hp -> H x. rewrite H. destruct (decide (x = p)) as [->|Hne].
  - rewrite lookup_insert_eq, Ht. simpl. rewrite Hh, (bool_decide_eq_false_2 (p ∈ l)), bool_decide_eq_true_2 by (done || left). done.
  - rewrite lookup_insert_ne by done. by rewrite among_ne.
Qed.

Lemma notified_same sig t : sigact (notified sig t) = sigact t /\ uid (notified sig t) = uid t /\ euid (notified sig t) = euid t
  /\ sid (notified sig t) = sid t /\ pgid (notified sig t) = pgid t /\ pid (notified sig t) = pid t /\ is_user (notified sig t) = is_user t.
Proof. unfold notified. destruct (receives sig t); [|done]. by destruct (state_eqb _ _ && _). Qed.

Lemma sig_table_insert s s' p t sig : sig_table s -> table s !! p = Some t -> table s' = <[p := notified sig t]> (table s) -> sig_table s'.
Proof.
  intros Hs Ht E x t'. rewrite E. destruct (decide (x = p)) as [->|]; [|rewrite lookup_insert_ne by done; apply Hs].
  rewrite lookup_insert_eq. intros [= <-]. destruct (notified_same sig t) as [-> _]. by eapply Hs.
Qed.

Definition group_hit (pgrp : Z) (x : Z) (t : process) : bool :=
  is_user t && (pgid t =? pgrp) && negb (state_eqb (state t) PROCESS_TERMINATED).

Definition any (f : Z -> process -> bool) (T : gmap Z process) (l : list Z) : bool :=
  existsb (fun x => match T !! x with Some t => f x t | None => false end) l.

Lemma any_cons f T x t l : T !! x = Some t -> any f T (x :: l) = f x t || any f T l.
Proof. intros Hx. unfold any. simpl. by rewrite Hx. Qed.

Lemma any_frame f T p t' l : p ∉ l -> any f (<[p := t']> T) l = any f T l.
Proof.
  unfold any. induction l as [|x l IH]; [done|]. intros [Hx Hl]%not_elem_of_cons. simpl. rewrite lookup_insert_ne by done.
  f_equal. by apply IH.
Qed.

Lemma send_each_ok l s qs all pgrp sig err :
  sched_inv s qs all -> sig_table s -> NoDup l -> (forall x, x ∈ l -> is_Some (table s !! x)) ->
  wp (send_each l pgrp sig err) (fun r s' => exists qs', sched_inv s' qs' all /\ current s' = current s /\ others_same s s'
    /\ told (group_hit pgrp) sig l (table s) (table s') /\ r = if any (group_hit pgrp) (table s) l then 0 else err) s.
Proof.
  revert s qs err; induction l as [|p l IH]; intros s qs err Hi Hs Hnd Hl; cbn [send_each].
  { wp_steps. exists qs. split_and!; [done..|apply told_nil|done]. }
  apply NoDup_cons in Hnd as [Hp Hnd]. destruct (Hl p) as [t Ht]; [left|]. wp_step. eapply pget_ok; [exact Ht|]. intros pr Hpr ->.
  rewrite (any_cons _ _ _ _ _ Ht). change (is_user pr && _ && _) with (group_hit pgrp p (strip pr)). destruct (group_hit pgrp p (strip pr)) eqn:Eh.
  - wp_step. eapply wp_mono; [eapply send_ok; [done|exact Ht|by eapply Hs]|]. intros [] s1 (Hi1 & Ht1 & Hc1 & Ho1).
    eapply wp_mono.
    { eapply (IH s1); [exact Hi1|by eapply sig_table_insert|done|]. intros x Hx. rewrite Ht1, lookup_insert_ne by congruence. apply Hl. by right. }
    intros r s2 (qs' & Hi2 & Hc2 & Ho2 & Htold & Hr). exists qs'.
    split_and!; [done|congruence|destruct Ho1, Ho2; split; congruence|by eapply told_step|]. rewrite Hr. by destruct (any _ _ l).
  - eapply wp_mono; [apply (IH s qs err); [done..|]; intros x Hx; apply Hl; by right|].
    intros r s2 (qs' & Hi2 & Hc2 & Ho2 & Htold & Hr). exists qs'. split_and!; [done..|by eapply told_skip|done].
Qed.

(** What sys_kill looks at in the caller. *)
Definition cred_key (t : process) : Z * Z * Z := (uid t, euid t, sid t).

Lemma may_signal_ext m m' t sig : cred_key m' = cred_key m -> cred_may_signal (Some m') t sig = cred_may_signal (Some m) t sig.
Proof. unfold cred_key, cred_may_signal. by intros [= -> -> ->]. Qed.

Definition kill_live (me pgrp pid_ : Z) (x : Z) (t : process) : bool :=
  kill_match me pgrp pid_ x t && is_user t && negb (state_eqb (state t) PROCESS_TERMINATED).

Definition kill_hit (m : process) (me pgrp pid_ sig : Z) (x : Z) (t : process) : bool :=
  kill_live me pgrp pid_ x t && cred_may_signal (Some m) t sig.

Definition kill_result (m : process) (me pgrp pid_ sig err : Z) (T : gmap Z process) (l : list Z) : Z :=
  if any (kill_hit m me pgrp pid_ sig) T l then 0
  else if any (kill_live me pgrp pid_) T l && (err =? - ESRCH) then - EPERM else err.

Lemma kill_each_ok l s qs all m me pgrp pid_ sig err :
  sched_inv s qs all -> sig_table s -> NoDup l -> (forall x, x ∈ l -> is_Some (table s !! x)) ->
  (exists pm, table s !! me = Some pm /\ cred_key pm = cred_key m) ->
  wp (kill_each l me pgrp pid_ sig err) (fun r s' => exists qs', sched_inv s' qs' all /\ current s' = current s /\ others_same s s'
    /\ told (kill_hit m me pgrp pid_ sig) sig l (table s) (table s') /\ r = kill_result m me pgrp pid_ sig err (table s) l) s.
Proof.
  unfold kill_result. revert s qs err; induction l as [|p l IH]; intros s qs err Hi Hs Hnd Hl (pm & Hpm & Hk); cbn [kill_each].
  { wp_steps. exists qs. split_and!; [done..|apply told_nil|done]. }
  apply NoDup_cons in Hnd as [Hp Hnd]. destruct (Hl p) as [t Ht]; [left|]. wp_step. eapply pget_ok; [exact Ht|]. intros pr Hpr ->.
  rewrite !(any_cons _ _ _ _ _ Ht). unfold kill_hit at 2. assert (kill_live me pgrp pid_ p (strip pr) = kill_match me pgrp pid_ p pr && is_user pr && negb (state_eqb (state pr) PROCESS_TERMINATED)) as El by done.
  destruct (kill_live me pgrp pid_ p (strip pr)) eqn:Ekl; cbn [andb orb].
  - symmetry in El. apply andb_true_iff in El as [[-> ->]%andb_true_iff Ez]. apply negb_true_iff in Ez. rewrite Ez. cbn [negb orb].
    wp_step. eapply pget_ok; [exact Hpm|]. intros prm Hprm ->.
    assert (cred_may_signal (Some prm) pr sig = cred_may_signal (Some m) (strip pr) sig) as -> by (rewrite <- (may_signal_ext m (strip prm)) by done; done).
    destruct (cred_may_signal (Some m) (strip pr) sig) eqn:Em; cbn [negb orb].
    + wp_step. eapply wp_mono; [eapply send_ok; [done|exact Ht|by eapply Hs]|]. intros [] s1 (Hi1 & Ht1 & Hc1 & Ho1).
      eapply wp_mono.
      { eapply (IH s1); [exact Hi1|by eapply sig_table_insert|done| |].
        - intros x Hx. rewrite Ht1, lookup_insert_ne by congruence. apply Hl. by right.
        - rewrite Ht1. destruct (decide (me = p)) as [->|]; [|rewrite lookup_insert_ne by done; by exists (strip prm)].
          rewrite lookup_insert_eq. eexists. split; [done|]. destruct (notified_same sig (strip pr)) as (_ & Eu & Ee & Esd & _).
          rewrite Ht in Hpm. apply (inj Some) in Hpm. unfold cred_key in *. rewrite Eu, Ee, Esd. congruence. }
      intros r s2 (qs' & Hi2 & Hc2 & Ho2 & Htold & Hr). exists qs'.
      split_and!; [done|congruence|destruct Ho1, Ho2; split; congruence| |].
      { eapply told_step; [exact Ht|unfold kill_hit; by rewrite Ekl, Em|done|exact Ht1|done]. }
      rewrite Hr. destruct (any _ _ l); [done|]. by rewrite andb_false_r.
    + eapply wp_mono; [eapply (IH s qs (if err =? - ESRCH then - EPERM else err)); [done..| |by exists (strip prm)]; intros x Hx; apply Hl; by right|].
      intros r s2 (qs' & Hi2 & Hc2 & Ho2 & Htold & Hr). exists qs'. split_and!; [done..| |].
      { eapply told_skip; [exact Ht|unfold kill_hit; by rewrite Ekl, Em|done]. }
      rewrite Hr. destruct (any (kill_hit m me pgrp pid_ sig) (table s) l), (any (kill_live me pgrp pid_) (table s) l), (Z.eqb_spec err (- ESRCH)) as [E|E];
        cbn [andb orb]; try done; by rewrite ?(proj2 (Z.eqb_neq _ _) E).
  - assert ((negb (kill_match me pgrp pid_ p pr) || negb (is_user pr) || state_eqb (state pr) PROCESS_TERMINATED) = true) as ->.
    { destruct (kill_match me pgrp pid_ p pr), (is_user pr), (state_eqb (state pr) PROCESS_TERMINATED); done. }
    eapply wp_mono; [eapply (IH s qs err); [done..| |by exists pm]; intros x Hx; apply Hl; by right|].
    intros r s2 (qs' & Hi2 & Hc2 & Ho2 & Htold & Hr). exists qs'. split_and!; [done..| |done].
    eapply told_skip; [exact Ht|unfold kill_hit; by rewrite Ekl|done].
Qed.

Lemma all_in s qs all x : sched_inv s qs all -> x ∈ all -> is_Some (table s !! x).
Proof. intros Hi. apply (bi_dom _ _ _ _ (sv_base _ _ _ Hi)). Qed.

Lemma told_all hit sig s qs all T' :
  sched_inv s qs all -> told hit sig all (table s) T' -> forall x, T' !! x = (fun t => if hit x t then notified sig t else t) <$> table s !! x.
Proof.
  intros Hi H x. rewrite H. destruct (table s !! x) as [t|] eqn:Ht; [|done]. simpl.
  rewrite bool_decide_eq_true_2; [done|]. apply (bi_dom _ _ _ _ (sv_base _ _ _ Hi)). eauto.
Qed.

Lemma any_all f s qs all : sched_inv s qs all -> any f (table s) all = true <-> exists x t, table s !! x = Some t /\ f x t = true.
Proof.
  intros Hi. unfold any. rewrite existsb_exists. setoid_rewrite <- list_elem_of_In. split.
  - intros (x & Hx & Hf). destruct (table s !! x) as [t|] eqn:Ht; [|done]. eauto.
  - intros (x & t & Ht & Hf). exists x. rewrite Ht. split; [|done]. apply (bi_dom _ _ _ _ (sv_base _ _ _ Hi)). eauto.
Qed.

Definition pgrp_of (m : process) (pid_ : Z) : Z := if pid_ =? 0 then pgid m else u32 (- pid_).

Lemma kill_ok s qs all pid_ sig m :
  sched_inv s qs all -> sig_table s -> table s !! current s = Some m -> 0 <= sig <= NSIG ->
  wp (sys_kill pid_ sig) (fun r s' => exists qs', sched_inv s' qs' all /\ current s' = current s
    /\ (forall x, table s' !! x = (fun t => if kill_hit m (current s) (pgrp_of m pid_) pid_ sig x t then notified sig t else t) <$> table s !! x)
    /\ r = kill_result m (current s) (pgrp_of m pid_) pid_ sig (- ESRCH) (table s) all) s.
Proof.
  intros Hi Hs Hm Hsig. unfold sys_kill. wp_step. wp_step. rewrite (proj2 (Z.ltb_ge sig 0)), (proj2 (Z.ltb_ge NSIG sig)) by lia. cbn [orb].
  wp_step. eapply pget_ok; [exact Hm|]. intros pm Hpm ->. wp_step.
  eapply wp_mono; [eapply all_list_ok; [apply Hi|done]|]. intros l s' [-> ->].
  replace (s32 sig) with sig by (unfold s32, NSIG in *; rewrite Z.mod_small; lia).
  eapply wp_mono; [eapply (kill_each_ok all s qs all (strip pm)); [done|done|apply Hi|intros x; by eapply all_in|by exists (strip pm)]|].
  intros r s2 (qs' & Hi2 & Hc2 & _ & Htold & Hr). exists qs'. split_and!; [done|done| |exact Hr]. by apply (told_all _ _ s qs all).
Qed.

(** signal_send changes at most the process it is sent to: a signal that
    is not discarded becomes pending, and the process, if it sleeps with an
    unblocked signal pending, becomes ready at the back of its queue. *)
Theorem signal_send_correct s qs all p sig t :
  sched_inv s qs all -> table s !! p = Some t -> length (sigact t) = 64%nat ->
  wp (signal_send p sig) (fun _ s' => sched_inv s' (if wakes sig t then push (priority t) p qs else qs) all
    /\ table s' = <[p := notified sig t]> (table s) /\ current s' = current s /\ others_same s s') s.
Proof. apply send_ok. Qed.

(** C25: sys_kill sends the signal to exactly the live user processes that
    match the pid argument and that the caller may signal, and to nobody
    else; it returns 0 if there is one, -EPERM if some match but none may be
    signalled, and -ESRCH if none matches. *)
Theorem sys_kill_correct s qs all pid_ sig m :
  sched_inv s qs all -> sig_table s -> table s !! current s = Some m -> 0 <= sig <= NSIG ->
  wp (sys_kill pid_ sig) (fun r s' => exists qs', sched_inv s' qs' all /\ current s' = current s
    /\ (forall x, table s' !! x = (fun t => if kill_hit m (current s) (pgrp_of m pid_) pid_ sig x t then notified sig t else t) <$> table s !! x)
    /\ (r = 0 <-> exists x t, table s !! x = Some t /\ kill_hit m (current s) (pgrp_of m pid_) pid_ sig x t = true)
    /\ (r = - ESRCH <-> forall x t, table s !! x = Some t -> kill_live (current s) (pgrp_of m pid_) pid_ x t = false)
    /\ (r = 0 \/ r = - EPERM \/ r = - ESRCH)) s.
Proof.
  intros Hi Hs Hm Hsig. eapply wp_mono; [by eapply kill_ok|]. intros r s' (qs' & Hi' & Hc' & Ht' & ->). exists qs'.
  split_and!; [done|done|done|..]; unfold kill_result.
  - rewrite <- (any_all _ s qs all) by done. destruct (any _ _ _); [done|]. destruct (_ && _); split; done.
  - destruct (any (kill_hit _ _ _ _ _) _ _) eqn:Eh.
    + split; [done|]. intros Hn. apply (any_all _ s qs all) in Eh as (x & t & Hx & Hf); [|done]. unfold kill_hit in Hf. by rewrite (Hn x t Hx) in Hf.
    + rewrite Z.eqb_refl, andb_true_r. destruct (any (kill_live _ _ _) _ _) eqn:El.
      * split; [done|]. intros Hn. apply (any_all _ s qs all) in El as (x & t & Hx & Hf); [|done]. by rewrite (Hn x t Hx) in Hf.
      * split; [|done]. intros _ x t Hx. apply not_true_is_false. intros Hf. assert (any (kill_live (current s) (pgrp_of m pid_) pid_) (table s) all = true); [|congruence].
        apply (any_all _ s qs all); eauto.
  - destruct (any _ _ _); [by left|]. destruct (_ && _); auto.
Qed.

(** ** Process groups and sessions *)

(** Among user processes, a group lies inside one session, which is that of
    the process the group is named after. *)
Definition in_sessions (T : gmap Z process) : Prop :=
  forall x y p q, T !! x = Some p -> T !! y = Some q -> is_user p = true -> is_user q = true ->
    (pgid q = pid p -> sid q = sid p) /\ (pgid q = pgid p -> sid q = sid p).

Definition pids_unique (T : gmap Z process) : Prop :=
  forall x y p q, T !! x = Some p -> T !! y = Some q -> pid p = pid q -> x = y.

Definition joins_group (T : gmap Z process) (p : process) (g : Z) : Prop :=
  g = pid p \/ exists y r, T !! y = Some r /\ is_user r = true /\ pgid r = g /\ sid r = sid p.

Lemma in_sessions_setpgid T x p g :
  in_sessions T -> pids_unique T -> T !! x = Some p -> joins_group T p g -> in_sessions (<[x := set_pgid g p]> T).
Proof.
  intros Hs Hu Hx Hg x1 y1 p1 q1.
  destruct (decide (x1 = x)) as [->|Hx1], (decide (y1 = x)) as [->|Hy1];
    rewrite ?lookup_insert_eq, ?lookup_insert_ne by done; intros E1 E2 Hp Hq.
  - injection E1 as <-. injection E2 as <-. done.
  - injection E1 as <-. simpl in *. destruct (Hs x y1 p q1) as [H1 _]; [done..|]. split; [done|]. intros E.
    destruct Hg as [->|(y & r & Hr & Hru & Hrg & Hrs)]; [auto|]. destruct (Hs y y1 r q1) as [_ H2]; [done..|]. rewrite <- Hrs. apply H2. congruence.
  - injection E2 as <-. simpl in *. destruct Hg as [->|(y & r & Hr & Hru & Hrg & Hrs)].
    + destruct (Hs x x1 p p1) as [H1 _]; [done..|].
      split; intros E; [destruct Hx1; symmetry; by apply (Hu x x1 p p1)|]. symmetry. auto.
    + destruct (Hs x1 y p1 r) as [H1 H2]; [done..|]. rewrite <- Hrs. split; intros E; [apply H1|apply H2]; congruence.
  - by apply (Hs x1 y1).
Qed.

Lemma in_sessions_setsid T x p :
  in_sessions T -> pids_unique T -> T !! x = Some p -> (forall y q, T !! y = Some q -> is_user q = true -> pgid q <> pid p) ->
  in_sessions (<[x := set_ctty 0 (set_sid (pid p) (set_pgid (pid p) p))]> T).
Proof.
  intros Hs Hu Hx Hn x1 y1 p1 q1.
  destruct (decide (x1 = x)) as [->|Hx1], (decide (y1 = x)) as [->|Hy1];
    rewrite ?lookup_insert_eq, ?lookup_insert_ne by done; intros E1 E2 Hp Hq.
  - injection E1 as <-. injection E2 as <-. done.
  - injection E1 as <-. simpl in *. split; intros E; by destruct (Hn y1 q1).
  - injection E2 as <-. simpl in *. split; intros E; [destruct Hx1; symmetry; by apply (Hu x x1 p p1)|]. by destruct (Hn x1 p1).
  - by apply (Hs x1 y1).
Qed.

Lemma some_proc_ok s qs all f :
  sched_inv s qs all -> (forall t, f (strip t) = f t) ->
  wp (some_proc f) (fun b s' => s' = s /\ (b = true <-> exists x t, table s !! x = Some t /\ f t = true)) s.
Proof.
  intros Hi Hf. unfold some_proc. wp_step. eapply wp_mono; [eapply all_list_ok; [apply Hi|done]|]. intros l s' [-> ->]. wp_steps.
  split; [done|]. rewrite <- (any_all (fun _ => f) s qs all) by done. unfold any, table.
  rewrite !existsb_exists. split; intros (x & Hx & E); exists x; (split; [done|]); revert E; rewrite lookup_fmap;
    destruct (procs s !! x) as [pr|]; simpl; rewrite ?Hf; done.
Qed.

Lemma self_or_ok s qs all pid_ m :
  sched_inv s qs all -> table s !! current s = Some m ->
  wp (self_or pid_) (fun p s' => s' = s /\ (is_Some (table s !! p) \/ p = 0)) s.
Proof.
  intros Hi Hm. unfold self_or. destruct (pid_ =? 0); [wp_steps; eauto|]. eapply wp_mono; [eapply find_ok; apply Hi|].
  intros p s' [-> [(t & Ht & _)|[-> _]]]; eauto.
Qed.

Inductive session_call := Setpgid (pid_ pgid_ : Z) | Setsid.

Definition run_session (c : session_call) : M sched Z :=
  match c with Setpgid pid_ pgid_ => sys_setpgid pid_ pgid_ | Setsid => sys_setsid end.

Lemma pgid_quiet g : quiet (set_pgid g).
Proof. split; [by intros []|]. by intros []. Qed.

Lemma setsid_quiet : quiet (fun pr => set_ctty 0 (set_sid (pid pr) (set_pgid (pid pr) pr))).
Proof. split; [by intros []|]. by intros []. Qed.

Lemma setpgid_ok s qs all pid_ pgid_ m :
  sched_inv s qs all -> table s !! current s = Some m -> in_sessions (table s) ->
  wp (sys_setpgid pid_ pgid_) (fun r s' => sched_inv s' qs all /\ current s' = current s /\ in_sessions (table s')
    /\ (r <> 0 -> s' = s)) s.
Proof.
  intros Hi Hm Hs. unfold sys_setpgid. wp_step. wp_step. wp_step. eapply wp_mono; [by eapply self_or_ok|]. intros p s' [-> Hp].
  destruct (pgid_ <? 0); [by wp_steps|]. destruct (Z.eqb_spec p 0) as [|Hp0]; [by wp_steps|].
  destruct Hp as [[t Ht]|]; [|done]. wp_step. eapply pget_ok; [exact Hm|]. intros pm Hpm ->. wp_step. eapply pget_ok; [exact Ht|]. intros pr Hpr ->.
  destruct (_ && _); [by wp_steps|]. destruct (Z.eqb_spec (sid pr) (sid pm)) as [Esid|]; cbn [negb orb]; [|by wp_steps].
  destruct (sid pr =? pid pr); [by wp_steps|]. set (g := u32 _). wp_step.
  eapply (wp_mono _ (fun b s' => s' = s /\ (b = true -> joins_group (table s) (strip pr) g))).
  { destruct (Z.eqb_spec g (pid pr)) as [E|]; [wp_steps; split; [done|by left]|]. eapply wp_mono; [by eapply some_proc_ok|].
    intros b s' [-> Hb]. split; [done|]. intros (x & r & Hr & [[Hu E1%Z.eqb_eq]%andb_true_iff E2%Z.eqb_eq]%andb_true_iff)%Hb. right. exists x, r.
    split_and!; [done..|]. simpl. congruence. }
  intros [] s' [-> Hj]; cbn [negb]; [|by wp_steps]. wp_step. eapply pset_quiet; [done|apply pgid_quiet|exact Ht|].
  intros s1 Hi1 Ht1 Hc1 _. wp_steps. split_and!; [done|done| |done]. rewrite Ht1.
  apply in_sessions_setpgid; [done|exact (bi_pids _ _ _ _ (sv_base _ _ _ Hi))|done|by apply Hj].
Qed.

Lemma setsid_ok s qs all m :
  sched_inv s qs all -> table s !! current s = Some m -> in_sessions (table s) ->
  wp sys_setsid (fun r s' => sched_inv s' qs all /\ current s' = current s /\ in_sessions (table s') /\ (r < 0 -> s' = s)) s.
Proof.
  intros Hi Hm Hs. unfold sys_setsid. wp_step. wp_step. wp_step. eapply pget_ok; [exact Hm|]. intros pm Hpm ->. wp_step.
  eapply wp_mono; [by eapply some_proc_ok|]. intros [] s' [-> Hb]; [by wp_steps|]. wp_step.
  eapply pset_quiet; [done|apply setsid_quiet|exact Hm|]. intros s1 Hi1 Ht1 Hc1 _. wp_steps. split_and!; [done|done| |].
  - rewrite Ht1. apply (in_sessions_setsid _ _ (strip pm)); [done|exact (bi_pids _ _ _ _ (sv_base _ _ _ Hi))|done|].
    intros y q Hq Hu E. enough (false = true) by done. apply Hb. exists y, q. split; [done|]. rewrite Hu. by apply Z.eqb_eq.
  - pose proof (bi_pid_bound _ _ _ _ (sv_base _ _ _ Hi) _ _ Hm) as Hpb. simpl in Hpb. lia.
Qed.

(** setpgid and setsid keep every process group of user processes inside
    one session, the scheduler's queues as they are, and an error changes
    nothing. *)
Theorem groups_stay_in_sessions c s qs all m :
  sched_inv s qs all -> table s !! current s = Some m -> in_sessions (table s) ->
  wp (run_session c) (fun r s' => sched_inv s' qs all /\ current s' = current s /\ in_sessions (table s') /\ (r < 0 -> s' = s)) s.
Proof.
  intros Hi Hm Hs. destruct c as [pid_ pgid_|]; [|by eapply setsid_ok]. eapply wp_mono; [by eapply setpgid_ok|].
  intros r s' (? & ? & ? & He). split_and!; [done..|]. intros Hr. apply He. lia.
Qed.

(** ** Masks never hold SIGKILL or SIGSTOP *)

Definition mask_ok (m : Z) : Prop := 0 <= m < 2 ^ 64 /\ Z.testbit m 8 = false /\ Z.testbit m 18 = false.

Lemma bits_above x i : 0 <= x < 2 ^ 64 -> 64 <= i -> Z.testbit x i = false.
Proof. intros Hx Hi. rewrite <- (Z.mod_small x (2 ^ 64)) by done. apply Z.mod_pow2_bits_high. lia. Qed.

Lemma bits_bound x : 0 <= x -> (forall i, 64 <= i -> Z.testbit x i = false) -> 0 <= x < 2 ^ 64.
Proof.
  intros Hx Hb. split; [done|]. assert (x = x mod 2 ^ 64) as ->; [|apply Z.mod_pos_bound; lia]. apply Z.bits_inj'. intros i Hi.
  destruct (Z.lt_ge_cases i 64); [by rewrite Z.mod_pow2_bits_low|]. rewrite Z.mod_pow2_bits_high, Hb by lia. done.
Qed.

Lemma clear_bound x y : 0 <= x < 2 ^ 64 -> 0 <= clear x y < 2 ^ 64.
Proof.
  intros Hx. apply bits_bound; [apply Z.ldiff_nonneg; lia|]. intros i Hi. unfold clear. by rewrite Z.ldiff_spec, bits_above.
Qed.

Lemma lor_bound x y : 0 <= x < 2 ^ 64 -> 0 <= y < 2 ^ 64 -> 0 <= Z.lor x y < 2 ^ 64.
Proof.
  intros Hx Hy. apply bits_bound; [apply Z.lor_nonneg; lia|]. intros i Hi. by rewrite Z.lor_spec, !bits_above.
Qed.

Lemma clear_unblockable m : 0 <= m < 2 ^ 64 -> mask_ok (clear m UNBLOCKABLE).
Proof. intros Hm. split; [by apply clear_bound|]. unfold clear. rewrite !Z.ldiff_spec. by rewrite !andb_false_r. Qed.

Lemma SIGBIT_bound sig : 0 <= SIGBIT sig < 2 ^ 64.
Proof. apply u64_bound. Qed.

Lemma SIGBIT_pow sig : 1 <= sig <= NSIG -> SIGBIT sig = 2 ^ (sig - 1).
Proof.
  unfold NSIG, SIGBIT. intros H. rewrite Z.shiftl_1_l, u64_small; [done|]. split; [lia|]. apply Z.pow_lt_mono_r; lia.
Qed.

Lemma SIGBIT_spec sig i : 1 <= sig <= NSIG -> Z.testbit (SIGBIT sig) i = (sig - 1 =? i).
Proof. intros H. rewrite SIGBIT_pow by done. apply Z.pow2_bits_eqb. lia. Qed.

(** What every process keeps. *)
Record sig_ok (p : process) : Prop := {
  so_len : length (sigact p) = 64%nat;
  so_pending : 0 <= sig_pending p < 2 ^ 64;
  so_blocked : mask_ok (sig_blocked p);
  so_saved : sig_restore p = true -> mask_ok (sig_saved p);
  so_masks : Forall (fun k => mask_ok (sa_mask k)) (sigact p);
  so_fixed : forall k, action p SIGKILL = Some k \/ action p SIGSTOP = Some k -> sa_handler k = SIG_DFL;
}.

Lemma so_action p sig k : sig_ok p -> action p sig = Some k -> mask_ok (sa_mask k).
Proof.
  intros Hp. unfold action. case_match; [done|]. intros Hk. pose proof (so_masks p Hp) as Hm. rewrite Forall_lookup in Hm. by eapply Hm.
Qed.

(** Only the listed fields matter to it. *)
Lemma sig_ok_ext p p' : sig_ok p -> sigact p' = sigact p -> 0 <= sig_pending p' < 2 ^ 64 -> mask_ok (sig_blocked p') ->
  (sig_restore p' = true -> mask_ok (sig_saved p')) -> sig_ok p'.
Proof.
  intros [] E Hp Hb Hr. split; rewrite ?E; try done. intros k. unfold action. rewrite E. apply so_fixed0.
Qed.

Lemma mask_temp_ok p m : sig_ok p -> 0 <= m < 2 ^ 64 -> sig_ok (signal_mask_temp m p).
Proof. intros Hp Hm. apply (sig_ok_ext p); [done|done|apply Hp|by apply clear_unblockable|]. intros _. apply Hp. Qed.

Lemma mask_restore_ok p : sig_ok p -> sig_ok (signal_mask_restore p).
Proof.
  intros Hp. unfold signal_mask_restore. destruct (sig_restore p) eqn:E; [|done].
  apply (sig_ok_ext p); [done|done|apply Hp|by apply (so_saved p)|done].
Qed.

Lemma put_action_ok p sig k :
  sig_ok p -> 1 <= sig <= NSIG -> sig <> SIGKILL -> sig <> SIGSTOP -> mask_ok (sa_mask k) -> sig_ok (put_action p sig k).
Proof.
  intros Hp Hs H9 H19 Hk. destruct Hp. unfold put_action. split; simpl; try done.
  - by rewrite length_insert.
  - by apply Forall_insert.
  - intros k'. unfold action. simpl. rewrite !list_lookup_insert_ne by lia. apply so_fixed0.
Qed.

Section CallsOk.
  Context {U : Type} `{UM : UserMem U}.
  Implicit Types u : U.

Lemma wp_load64 u a (Q : Z -> U -> Prop) :
  um_inv u -> can_read u a 8 ->
  (forall v, 0 <= v < 2 ^ 64 -> (forall i, 0 <= i < 8 -> peek u (a + i) = le_bytes 8 v !! Z.to_nat i) -> Q v u) -> wp (load64 a) Q u.
Proof.
  intros Hi Hr HQ. unfold load64. wp_step. apply wp_load_bytes; [done|done|]. intros bs Hlen Hbs Hp. wp_steps.
  apply HQ; [|intros i Hi'; rewrite Hp by lia; by rewrite <- Hlen, le_bytes_value]. pose proof (le_value_bound bs Hbs) as Hb. by rewrite Hlen in Hb.
Qed.

Lemma can_read_sub u a n b m : can_read u a n -> a <= b -> b + m <= a + n -> can_read u b m.
Proof. intros H ? ? x Hx. apply H. lia. Qed.

Lemma wp_load_action u a (Q : k_sigaction -> U -> Prop) :
  um_inv u -> can_read u a 32 -> (forall k, 0 <= sa_mask k < 2 ^ 64 -> Q k u) -> wp (load_action a) Q u.
Proof.
  intros Hi Hr HQ. unfold load_action.
  repeat (wp_step; apply wp_load64; [done|eapply can_read_sub; [exact Hr|lia|lia]|intros ? ? _]). wp_step. by apply HQ.
Qed.

Lemma action_bytes_ok k : Forall byte (action_bytes k) /\ length (action_bytes k) = 32%nat.
Proof.
  split; [unfold action_bytes; repeat (apply Forall_app; split; [apply le_bytes_byte|]); apply le_bytes_byte|].
  unfold action_bytes. rewrite !length_app, !length_le_bytes. done.
Qed.

Lemma install_ok p u sig act :
  um_inv u -> sig_ok p -> 1 <= sig <= NSIG -> sig <> SIGKILL -> sig <> SIGSTOP ->
  wp (install p sig act) (fun x u' => um_inv u' /\ sig_ok x.2) u.
Proof.
  intros Hi Hp Hs H9 H19. unfold install. wp_step. apply wp_user_ok; [done|apply u64_bound|lia| |]; intros u1 Hi1 Hg1; [|intros Hr _]; cbn [negb].
  { by wp_steps. }
  wp_step. apply wp_load_action; [done|done|]. intros k Hk. cbv zeta. set (p' := put_action _ _ _).
  assert (sig_ok p') as Hp' by (apply put_action_ok; [done..|by apply clear_unblockable]).
  destruct (discarded_some p' sig (so_len _ Hp')) as [d Hd]; [done|]. wp_step. eapply wp_lift; [done|]. wp_steps. split; [done|]. destruct d; [|done].
  apply (sig_ok_ext p'); [done|done|apply clear_bound, Hp'|apply Hp'|apply Hp'].
Qed.

Lemma sigaction_ok p u sig act oact size_ :
  um_inv u -> sig_ok p -> wp (sys_rt_sigaction p sig act oact size_) (fun x u' => um_inv u' /\ sig_ok x.2) u.
Proof.
  intros Hi Hp. unfold sys_rt_sigaction. destruct (Z.ltb_spec sig 1); cbn [orb]; [by wp_steps|].
  destruct (Z.ltb_spec NSIG sig); cbn [orb]; [by wp_steps|]. destruct (size_ =? 8); cbn [negb]; [|by wp_steps].
  destruct (Z.eqb_spec act 0) as [Ea|Ea]; cbn [negb andb].
  - destruct (oact =? 0); [by wp_steps|]. wp_step. apply wp_user_ok; [done|apply u64_bound|lia| |]; intros u1 Hi1 Hg1; [|intros _ Hw]; cbn [negb]; [by wp_steps|].
    destruct (action_some p sig (so_len _ Hp)) as [k Hk]; [lia|]. wp_step. eapply wp_lift; [done|]. wp_step.
    destruct (action_bytes_ok k) as [Hb Hl]. apply wp_store_bytes; [done|done|rewrite Hl; by apply Hw|]. intros u2 Hi2 _. by wp_steps.
  - destruct (Z.eqb_spec sig SIGKILL); cbn [orb]; [by wp_steps|]. destruct (Z.eqb_spec sig SIGSTOP); cbn [orb]; [by wp_steps|].
    destruct (oact =? 0); [by apply install_ok|]. wp_step. apply wp_user_ok; [done|apply u64_bound|lia| |]; intros u1 Hi1 Hg1; [|intros _ Hw]; cbn [negb]; [by wp_steps|].
    destruct (action_some p sig (so_len _ Hp)) as [k Hk]; [lia|]. wp_step. eapply wp_lift; [done|]. wp_step.
    destruct (action_bytes_ok k) as [Hb Hl]. apply wp_store_bytes; [done|done|rewrite Hl; by apply Hw|]. intros u2 Hi2 _. by apply install_ok.
Qed.

Lemma change_mask_ok p u how set_ : um_inv u -> sig_ok p -> wp (change_mask p how set_) (fun x u' => um_inv u' /\ sig_ok x.2) u.
Proof.
  intros Hi Hp. unfold change_mask. wp_step. apply wp_user_ok; [done|apply u64_bound|lia| |]; intros u1 Hi1 Hg1; [|intros Hr _]; cbn [negb]; [by wp_steps|].
  wp_step. apply wp_load64; [done|done|]. intros m Hm _. unfold new_mask.
  assert (0 <= sig_blocked p < 2 ^ 64) as Hb by apply (so_blocked p Hp).
  repeat case_match; simplify_eq; wp_steps; (split; [done|]); try done;
    (apply (sig_ok_ext p); [done|done|apply Hp|apply clear_unblockable|apply Hp]); [by apply lor_bound|by apply clear_bound|done].
Qed.

Lemma sigprocmask_ok p u how set_ oset size_ :
  um_inv u -> sig_ok p -> wp (sys_rt_sigprocmask p how set_ oset size_) (fun x u' => um_inv u' /\ sig_ok x.2) u.
Proof.
  intros Hi Hp. unfold sys_rt_sigprocmask. destruct (size_ =? 8); cbn [negb]; [|by wp_steps].
  destruct (oset =? 0); [destruct (set_ =? 0); [by wp_steps|by apply change_mask_ok]|].
  wp_step. apply wp_user_ok; [done|apply u64_bound|lia| |]; intros u1 Hi1 Hg1; [|intros _ Hw]; cbn [negb]; [by wp_steps|].
  wp_step. apply wp_store_bytes; [done|apply le_bytes_byte|rewrite length_le_bytes; by apply Hw|]. intros u2 Hi2 _.
  destruct (set_ =? 0); [by wp_steps|by apply change_mask_ok].
Qed.

Lemma sigsuspend_ok p u set_ size_ :
  um_inv u -> sig_ok p ->
  wp (sys_rt_sigsuspend p set_ size_) (fun x u' => um_inv u' /\ match x with inl r => r = - EINVAL \/ r = - EFAULT | inr p' => sig_ok p' end) u.
Proof.
  intros Hi Hp. unfold sys_rt_sigsuspend. destruct (size_ =? 8); cbn [negb]; [|wp_steps; auto].
  wp_step. apply wp_user_ok; [done|apply u64_bound|lia| |]; intros u1 Hi1 Hg1; [|intros Hr _]; cbn [negb]; [wp_steps; auto|].
  wp_step. apply wp_load64; [done|done|]. intros m Hm _. wp_steps. split; [done|]. by apply mask_temp_ok.
Qed.
End CallsOk.

(** ** The example of [Sched] again *)

Definition second1 : process := default zero_process (table sched1 !! 20).

Lemma table1 : table sched1 = {[10 := first1; 20 := second1]}.
Proof. vm_compute. reflexivity. Qed.

Lemma signal_send_correct_witness :
  wp (signal_send 20 15) (fun _ s' => sched_inv s' (if wakes 15 second1 then push (priority second1) 20 queues1 else queues1) [20; 10]
    /\ table s' = <[20 := notified 15 second1]> (table sched1) /\ current s' = current sched1 /\ others_same sched1 s') sched1.
Proof. apply signal_send_correct; [apply sched1_inv|vm_compute; reflexivity|vm_compute; reflexivity]. Defined.

Lemma in_table1 x t : table sched1 !! x = Some t -> t = first1 \/ t = second1.
Proof. rewrite table1, lookup_insert_Some, lookup_singleton_Some. intros [[_ <-]|[_ [_ <-]]]; auto. Qed.

Lemma sys_kill_correct_witness :
  wp (sys_kill (-1) 15) (fun r s' => exists qs', sched_inv s' qs' [20; 10] /\ current s' = current sched1
    /\ (forall x, table s' !! x = (fun t => if kill_hit first1 (current sched1) (pgrp_of first1 (-1)) (-1) 15 x t then notified 15 t else t) <$> table sched1 !! x)
    /\ (r = 0 <-> exists x t, table sched1 !! x = Some t /\ kill_hit first1 (current sched1) (pgrp_of first1 (-1)) (-1) 15 x t = true)
    /\ (r = - ESRCH <-> forall x t, table sched1 !! x = Some t -> kill_live (current sched1) (pgrp_of first1 (-1)) (-1) x t = false)
    /\ (r = 0 \/ r = - EPERM \/ r = - ESRCH)) sched1.
Proof.
  apply (sys_kill_correct sched1 queues1); [apply sched1_inv| |vm_compute; reflexivity|done].
  intros x t [->| ->]%in_table1; vm_compute; reflexivity.
Defined.

Lemma groups_stay_in_sessions_witness :
  wp (run_session (Setpgid 0 0)) (fun r s' => sched_inv s' queues1 [20; 10] /\ current s' = current sched1 /\ in_sessions (table s') /\ (r < 0 -> s' = sched1)) sched1.
Proof.
  eapply groups_stay_in_sessions; [apply sched1_inv|vm_compute; reflexivity|].
  intros x y p q Hp Hq _ _. apply in_table1 in Hp as [->| ->]; apply in_table1 in Hq as [->| ->]; split; vm_compute; done.
Defined.
