(* ===== verification/SigFrame.v ===== *)
(** * Signal delivery and return: the rest of src/src/kernel/proc/signal.c

    A thread is a process with its saved user registers, the FPU (as the image
    fxsave stores), the process's own copy of that image ([p->fpu]) and user
    memory. Delivery ends in user mode again, or the process exits with a wait
    status (scheduler_exit does not return). *)
From S2P Require Import Prelude Types UserMem Cred Vmm Sched Signal.

(** ** registers_t (isr.h) *)

Record registers := MkRegs {
  r15 : Z;
  r14 : Z;
  r13 : Z;
  r12 : Z;
  r11 : Z;
  r10 : Z;
  r9 : Z;
  r8 : Z;
  rbp : Z;
  rdi : Z;
  rsi : Z;
  rdx : Z;
  rcx : Z;
  rbx : Z;
  rax : Z;
  int_no : Z;
  err_code : Z;
  rip : Z;
  cs : Z;
  rflags : Z;
  rsp : Z;
  ss : Z;
}.

Definition set_r15 (v : Z) (r : registers) : registers := MkRegs v (r14 r) (r13 r) (r12 r) (r11 r) (r10 r) (r9 r) (r8 r) (rbp r) (rdi r) (rsi r) (rdx r) (rcx r) (rbx r) (rax r) (int_no r) (err_code r) (rip r) (cs r) (rflags r) (rsp r) (ss r).
Definition set_r14 (v : Z) (r : registers) : registers := MkRegs (r15 r) v (r13 r) (r12 r) (r11 r) (r10 r) (r9 r) (r8 r) (rbp r) (rdi r) (rsi r) (rdx r) (rcx r) (rbx r) (rax r) (int_no r) (err_code r) (rip r) (cs r) (rflags r) (rsp r) (ss r).
Definition set_r13 (v : Z) (r : registers) : registers := MkRegs (r15 r) (r14 r) v (r12 r) (r11 r) (r10 r) (r9 r) (r8 r) (rbp r) (rdi r) (rsi r) (rdx r) (rcx r) (rbx r) (rax r) (int_no r) (err_code r) (rip r) (cs r) (rflags r) (rsp r) (ss r).
Definition set_r12 (v : Z) (r : registers) : registers := MkRegs (r15 r) (r14 r) (r13 r) v (r11 r) (r10 r) (r9 r) (r8 r) (rbp r) (rdi r) (rsi r) (rdx r) (rcx r) (rbx r) (rax r) (int_no r) (err_code r) (rip r) (cs r) (rflags r) (rsp r) (ss r).
Definition set_r11 (v : Z) (r : registers) : registers := MkRegs (r15 r) (r14 r) (r13 r) (r12 r) v (r10 r) (r9 r) (r8 r) (rbp r) (rdi r) (rsi r) (rdx r) (rcx r) (rbx r) (rax r) (int_no r) (err_code r) (rip r) (cs r) (rflags r) (rsp r) (ss r).
Definition set_r10 (v : Z) (r : registers) : registers := MkRegs (r15 r) (r14 r) (r13 r) (r12 r) (r11 r) v (r9 r) (r8 r) (rbp r) (rdi r) (rsi r) (rdx r) (rcx r) (rbx r) (rax r) (int_no r) (err_code r) (rip r) (cs r) (rflags r) (rsp r) (ss r).
Definition set_r9 (v : Z) (r : registers) : registers := MkRegs (r15 r) (r14 r) (r13 r) (r12 r) (r11 r) (r10 r) v (r8 r) (rbp r) (rdi r) (rsi r) (rdx r) (rcx r) (rbx r) (rax r) (int_no r) (err_code r) (rip r) (cs r) (rflags r) (rsp r) (ss r).
Definition set_r8 (v : Z) (r : registers) : registers := MkRegs (r15 r) (r14 r) (r13 r) (r12 r) (r11 r) (r10 r) (r9 r) v (rbp r) (rdi r) (rsi r) (rdx r) (rcx r) (rbx r) (rax r) (int_no r) (err_code r) (rip r) (cs r) (rflags r) (rsp r) (ss r).
Definition set_rbp (v : Z) (r : registers) : registers := MkRegs (r15 r) (r14 r) (r13 r) (r12 r) (r11 r) (r10 r) (r9 r) (r8 r) v (rdi r) (rsi r) (rdx r) (rcx r) (rbx r) (rax r) (int_no r) (err_code r) (rip r) (cs r) (rflags r) (rsp r) (ss r).
Definition set_rdi (v : Z) (r : registers) : registers := MkRegs (r15 r) (r14 r) (r13 r) (r12 r) (r11 r) (r10 r) (r9 r) (r8 r) (rbp r) v (rsi r) (rdx r) (rcx r) (rbx r) (rax r) (int_no r) (err_code r) (rip r) (cs r) (rflags r) (rsp r) (ss r).
Definition set_rsi (v : Z) (r : registers) : registers := MkRegs (r15 r) (r14 r) (r13 r) (r12 r) (r11 r) (r10 r) (r9 r) (r8 r) (rbp r) (rdi r) v (rdx r) (rcx r) (rbx r) (rax r) (int_no r) (err_code r) (rip r) (cs r) (rflags r) (rsp r) (ss r).
Definition set_rdx (v : Z) (r : registers) : registers := MkRegs (r15 r) (r14 r) (r13 r) (r12 r) (r11 r) (r10 r) (r9 r) (r8 r) (rbp r) (rdi r) (rsi r) v (rcx r) (rbx r) (rax r) (int_no r) (err_code r) (rip r) (cs r) (rflags r) (rsp r) (ss r).
Definition set_rcx (v : Z) (r : registers) : registers := MkRegs (r15 r) (r14 r) (r13 r) (r12 r) (r11 r) (r10 r) (r9 r) (r8 r) (rbp r) (rdi r) (rsi r) (rdx r) v (rbx r) (rax r) (int_no r) (err_code r) (rip r) (cs r) (rflags r) (rsp r) (ss r).
Definition set_rbx (v : Z) (r : registers) : registers := MkRegs (r15 r) (r14 r) (r13 r) (r12 r) (r11 r) (r10 r) (r9 r) (r8 r) (rbp r) (rdi r) (rsi r) (rdx r) (rcx r) v (rax r) (int_no r) (err_code r) (rip r) (cs r) (rflags r) (rsp r) (ss r).
Definition set_rax (v : Z) (r : registers) : registers := MkRegs (r15 r) (r14 r) (r13 r) (r12 r) (r11 r) (r10 r) (r9 r) (r8 r) (rbp r) (rdi r) (rsi r) (rdx r) (rcx r) (rbx r) v (int_no r) (err_code r) (rip r) (cs r) (rflags r) (rsp r) (ss r).
Definition set_int_no (v : Z) (r : registers) : registers := MkRegs (r15 r) (r14 r) (r13 r) (r12 r) (r11 r) (r10 r) (r9 r) (r8 r) (rbp r) (rdi r) (rsi r) (rdx r) (rcx r) (rbx r) (rax r) v (err_code r) (rip r) (cs r) (rflags r) (rsp r) (ss r).
Definition set_err_code (v : Z) (r : registers) : registers := MkRegs (r15 r) (r14 r) (r13 r) (r12 r) (r11 r) (r10 r) (r9 r) (r8 r) (rbp r) (rdi r) (rsi r) (rdx r) (rcx r) (rbx r) (rax r) (int_no r) v (rip r) (cs r) (rflags r) (rsp r) (ss r).
Definition set_rip (v : Z) (r : registers) : registers := MkRegs (r15 r) (r14 r) (r13 r) (r12 r) (r11 r) (r10 r) (r9 r) (r8 r) (rbp r) (rdi r) (rsi r) (rdx r) (rcx r) (rbx r) (rax r) (int_no r) (err_code r) v (cs r) (rflags r) (rsp r) (ss r).
Definition set_cs (v : Z) (r : registers) : registers := MkRegs (r15 r) (r14 r) (r13 r) (r12 r) (r11 r) (r10 r) (r9 r) (r8 r) (rbp r) (rdi r) (rsi r) (rdx r) (rcx r) (rbx r) (rax r) (int_no r) (err_code r) (rip r) v (rflags r) (rsp r) (ss r).
Definition set_rflags (v : Z) (r : registers) : registers := MkRegs (r15 r) (r14 r) (r13 r) (r12 r) (r11 r) (r10 r) (r9 r) (r8 r) (rbp r) (rdi r) (rsi r) (rdx r) (rcx r) (rbx r) (rax r) (int_no r) (err_code r) (rip r) (cs r) v (rsp r) (ss r).
Definition set_rsp (v : Z) (r : registers) : registers := MkRegs (r15 r) (r14 r) (r13 r) (r12 r) (r11 r) (r10 r) (r9 r) (r8 r) (rbp r) (rdi r) (rsi r) (rdx r) (rcx r) (rbx r) (rax r) (int_no r) (err_code r) (rip r) (cs r) (rflags r) v (ss r).
Definition set_ss (v : Z) (r : registers) : registers := MkRegs (r15 r) (r14 r) (r13 r) (r12 r) (r11 r) (r10 r) (r9 r) (r8 r) (rbp r) (rdi r) (rsi r) (rdx r) (rcx r) (rbx r) (rax r) (int_no r) (err_code r) (rip r) (cs r) (rflags r) (rsp r) v.

Definition USER_DATA_SEL : Z := Z.lor 24 3.
Definition USER_CODE_SEL : Z := Z.lor 32 3.

(** ** Objects made of fields *)

Definition field_bytes (fs : list (nat * Z)) : list Z := concat ((fun f => le_bytes f.1 f.2) <$> fs).
Definition words (ws : list Z) : list (nat * Z) := (fun w => (8%nat, w)) <$> ws.

(** struct sigcontext, ucontext, siginfo and rt_sigframe, field by field. *)
Definition sigcontext_fields (r : registers) (old fp : Z) : list (nat * Z) :=
  words [r8 r; r9 r; r10 r; r11 r; r12 r; r13 r; r14 r; r15 r; rdi r; rsi r; rbp r; rbx r; rdx r; rax r; rcx r; rsp r; rip r; rflags r]
  ++ [(2%nat, cs r); (2%nat, 0); (2%nat, 0); (2%nat, ss r)]
  ++ words ([0; 0; old; 0; fp] ++ replicate 8 0).

Definition ucontext_fields (r : registers) (old fp : Z) : list (nat * Z) :=
  words [0; 0; 0] ++ [(4%nat, 0); (4%nat, 0)] ++ words [0] ++ sigcontext_fields r old fp ++ words [old].

Notation SI_USER := 0 (only parsing).

Definition siginfo_fields (sig : Z) : list (nat * Z) :=
  [(4%nat, sig); (4%nat, 0); (4%nat, SI_USER); (4%nat, 0); (4%nat, 0); (4%nat, 0)] ++ words (replicate 13 0).

Definition frame_fields (r : registers) (old fp restorer sig : Z) : list (nat * Z) :=
  words [restorer] ++ ucontext_fields r old fp ++ siginfo_fields sig.

Definition FRAME : Z := 440. (* sizeof(struct rt_sigframe) *)
Definition UCONTEXT : Z := 304. (* sizeof(struct ucontext) *)
Definition FPU : Z := 512. (* sizeof(p->fpu) *)

(** ** Delivery *)

Record thread (U : Type) := MkThread { t_proc : process; t_regs : registers; t_live : list Z; t_fpu : list Z; t_mem : U }.
Arguments MkThread {U}.
Arguments t_proc {U}.
Arguments t_regs {U}.
Arguments t_live {U}.
Arguments t_fpu {U}.
Arguments t_mem {U}.

Inductive fate := Resumes | Exits (status : Z).

(** __builtin_ctzll *)
Fixpoint ctz (n : nat) (x : Z) : Z :=
  match n with
  | O => 0
  | S n' => if Z.odd x then 0 else 1 + ctz n' (Z.shiftr x 1)
  end.

Section Delivery.
  Context {U : Type} `{UM : UserMem U}.

Definition on_proc (f : process -> process) : M (thread U) unit :=
  modify (fun t => MkThread (f (t_proc t)) (t_regs t) (t_live t) (t_fpu t) (t_mem t)).
Definition on_regs (f : registers -> registers) : M (thread U) unit :=
  modify (fun t => MkThread (t_proc t) (f (t_regs t)) (t_live t) (t_fpu t) (t_mem t)).
Definition on_mem {A} (m : M U A) : M (thread U) A := fun t =>
  match m (t_mem t) with
  | Some (a, u) => Some (a, MkThread (t_proc t) (t_regs t) (t_live t) (t_fpu t) u)
  | None => None
  end.

Definition fxsave : M (thread U) unit :=
  modify (fun t => MkThread (t_proc t) (t_regs t) (t_live t) (t_live t) (t_mem t)).
Definition fxrstor : M (thread U) unit :=
  modify (fun t => MkThread (t_proc t) (t_regs t) (t_fpu t) (t_fpu t) (t_mem t)).
Definition set_fpu (bs : list Z) : M (thread U) unit :=
  modify (fun t => MkThread (t_proc t) (t_regs t) (t_live t) bs (t_mem t)).

(** Where the FPU image and the frame go, below the red zone. *)
Definition fp_of (r : registers) : Z := Z.land (u64 (u64 (rsp r - 128) - FPU)) (u64 (Z.lnot 63)).
Definition sp_of (r : registers) : Z := u64 (Z.land (u64 (fp_of r - FRAME)) (u64 (Z.lnot 15)) - 8).

(** What sigreturn restores. *)
Definition old_mask (p : process) : Z := if sig_restore p then sig_saved p else sig_blocked p.

Definition handler_regs (sp sig handler : Z) (r : registers) : registers :=
  set_rflags (clear (rflags r) 1280) (set_rax 0 (set_rdx (sp + 8) (set_rsi (sp + 312) (set_rdi sig (set_rsp sp (set_rip handler r)))))).

Definition handler_mask (old sig : Z) (k : k_sigaction) : Z :=
  clear (Z.lor (Z.lor old (sa_mask k)) (if Z.land (sa_flags k) SA_NODEFER =? 0 then SIGBIT sig else 0)) UNBLOCKABLE.

Definition enter_handler (sig : Z) (k : k_sigaction) (p : process) : process :=
  let p' := set_sig_restore false (set_sig_blocked (handler_mask (old_mask p) sig k) p) in
  if Z.land (sa_flags k) SA_RESETHAND =? 0 then p' else put_action p' sig (set_sa_handler SIG_DFL k).

Definition setup_frame (sig : Z) (k : k_sigaction) : M (thread U) Z :=
  t ← get;
  let r := t_regs t in
  let fp := fp_of r in
  let sp := sp_of r in
  if Z.land (sa_flags k) SA_RESTORER =? 0 then mret (-1) else
  ok ← on_mem (user_ok sp (u64 (fp + FPU - sp)) true);
  if negb ok then mret (-1) else
  _ ← fxsave;
  t ← get;
  _ ← on_mem (store_bytes fp (t_fpu t));
  _ ← on_mem (store_bytes sp (field_bytes (frame_fields r (old_mask (t_proc t)) fp (sa_restorer k) sig)));
  _ ← on_regs (handler_regs sp sig (sa_handler k));
  _ ← on_proc (enter_handler sig k);
  mret 0.

Definition restart (r : registers) : registers := set_rip (u64 (rip r - 2)) (set_rax (int_no r) r).

Definition ignores (k : k_sigaction) (sig : Z) : bool :=
  (sa_handler k =? SIG_IGN) || (sa_handler k =? SIG_DFL) && default_ignored sig.

Definition interrupt (interrupted : bool) (k : k_sigaction) (r : registers) : registers :=
  if interrupted then (if Z.land (sa_flags k) SA_RESTART =? 0 then set_rax (u64 (- EINTR)) r else restart r) else r.

Fixpoint deliver (fuel : nat) (interrupted : bool) : M (thread U) fate :=
  match fuel with
  | O => fault
  | S fuel =>
      t ← get;
      let p := t_proc t in
      if is_user p && signal_pending p then
        let sig := ctz 64 (clear (sig_pending p) (sig_blocked p)) + 1 in
        k ← lift (action p sig);
        _ ← on_proc (fun p => set_sig_pending (clear (sig_pending p) (SIGBIT sig)) p);
        if ignores k sig then deliver fuel interrupted
        else if sa_handler k =? SIG_DFL then mret (Exits sig)
        else
          _ ← on_regs (interrupt interrupted k);
          e ← setup_frame sig k;
          mret (if e <? 0 then Exits SIGSEGV else Resumes)
      else
        _ ← on_regs (fun r => if interrupted then restart r else r);
        _ ← on_proc signal_mask_restore;
        mret Resumes
  end.

(** One turn per pending signal and one to leave the loop. *)
Definition signal_deliver (from_syscall : bool) : M (thread U) fate :=
  t ← get;
  deliver 65 (from_syscall && (s64 (rax (t_regs t)) =? - ERESTARTSYS)).

(** ** rt_sigreturn *)

Fixpoint load_words (a : Z) (n : nat) : M U (list Z) :=
  match n with
  | O => mret []
  | S n' => w ← load64 a; ws ← load_words (a + 8) n'; mret (w :: ws)
  end.

(** The registers of a struct sigcontext. *)
Definition restore_regs (ws : list Z) (r : registers) : registers :=
  match ws with
  | [v8; v9; v10; v11; v12; v13; v14; v15; vdi; vsi; vbp; vbx; vdx; vax; vcx; vsp; vip; vflags] =>
      MkRegs v15 v14 v13 v12 v11 v10 v9 v8 vbp vdi vsi vdx vcx vbx vax (int_no r) (err_code r)
             vip USER_CODE_SEL (Z.lor (Z.land vflags 265685) 514) vsp USER_DATA_SEL
  | _ => r
  end.

(** The 32-bit MXCSR at byte 24 is masked with 0xFFBF. *)
Definition mask_mxcsr (bs : list Z) : list Z :=
  take 24 bs ++ le_bytes 4 (Z.land (le_value (take 4 (drop 24 bs))) 65471) ++ drop 28 bs.

Definition sys_rt_sigreturn : M (thread U) (Z + Z) :=
  t ← get;
  let uc := rsp (t_regs t) in
  let mc := uc + 40 in
  ok ← on_mem (user_ok uc UCONTEXT false);
  if negb ok then mret (inr SIGSEGV) else
  vip ← on_mem (load64 (mc + 128));
  fpstate ← on_mem (load64 (mc + 184));
  ok ← (if USER_END <=? vip then mret false
        else if fpstate =? 0 then mret true else on_mem (user_ok fpstate FPU false));
  if negb ok then mret (inr SIGSEGV) else
  ws ← on_mem (load_words mc 18);
  _ ← on_regs (restore_regs ws);
  _ ← when (negb (fpstate =? 0))
        (bs ← on_mem (load_bytes fpstate (Z.to_nat FPU)); _ ← set_fpu (mask_mxcsr bs); fxrstor);
  m ← on_mem (load64 (uc + 296));
  _ ← on_proc (set_sig_blocked (clear m UNBLOCKABLE));
  _ ← on_regs (set_int_no (2 ^ 64 - 1));
  t ← get;
  mret (inl (rax (t_regs t))).
End Delivery.

(** ** The lowest pending signal *)

Lemma ctz_spec n x :
  0 < x < 2 ^ Z.of_nat n ->
  0 <= ctz n x < Z.of_nat n /\ Z.testbit x (ctz n x) = true /\ forall i, 0 <= i < ctz n x -> Z.testbit x i = false.
Proof.
  revert x; induction n as [|n IH]; intros x Hx; [simpl in Hx; lia|]. cbn [ctz]. destruct (Z.odd x) eqn:Eo.
  - split_and!; [lia|lia| |lia]. by rewrite Z.bit0_odd.
  - rewrite Nat2Z.inj_succ, Z.pow_succ_r in Hx by lia. assert (x = 2 * Z.shiftr x 1) as Ex.
    { rewrite Z.shiftr_div_pow2 by lia. change (2 ^ 1) with 2. pose proof (Z.div_mod x 2) as Hd. rewrite (Zmod_odd x), Eo in Hd. lia. }
    destruct (IH (Z.shiftr x 1)) as (Hc & Ht & Hl); [lia|]. rewrite Z.shiftr_spec in Ht by lia. split_and!; [lia|lia| |].
    + by rewrite Z.add_comm.
    + intros i Hi. destruct (Z.eq_dec i 0) as [->|]; [by rewrite Z.bit0_odd|]. specialize (Hl (i - 1)). rewrite Z.shiftr_spec in Hl by lia.
      replace (i - 1 + 1) with i in Hl by lia. apply Hl. lia.
Qed.

(** Signals that are pending and not blocked. *)
Definition ready_set (p : process) : Z := clear (sig_pending p) (sig_blocked p).

(** The signals up to [n] among them have been taken. *)
Definition take_pending (n : Z) (p : process) : process :=
  set_sig_pending (clear (sig_pending p) (Z.land (ready_set p) (Z.ones n))) p.

Definition due (p : process) (sig : Z) : bool :=
  Z.testbit (ready_set p) (sig - 1) && match action p sig with Some k => negb (ignores k sig) | None => false end.

Lemma ready_bound p : sig_ok p -> 0 <= ready_set p < 2 ^ 64.
Proof. intros Hp. apply clear_bound, Hp. Qed.

Lemma ready_take p n i : sig_ok p -> 0 <= n -> 0 <= i -> Z.testbit (ready_set (take_pending n p)) i = Z.testbit (ready_set p) i && negb (i <? n).
Proof.
  intros Hp Hn Hi. unfold ready_set at 1, take_pending, clear. simpl. rewrite !Z.ldiff_spec, Z.land_spec, Z.testbit_ones_nonneg by lia.
  unfold ready_set, clear. rewrite Z.ldiff_spec. destruct (Z.testbit (sig_pending p) i), (Z.testbit (sig_blocked p) i), (i <? n); done.
Qed.

Lemma take_ok p n : sig_ok p -> sig_ok (take_pending n p).
Proof. intros Hp. apply (sig_ok_ext p); [done|done|apply clear_bound, Hp|apply Hp|apply Hp]. Qed.

Lemma action_take p n sig : action (take_pending n p) sig = action p sig.
Proof. done. Qed.

(** Taking the lowest ready signal from [take_pending n p]. *)
Lemma take_step p n sig :
  sig_ok p -> 0 <= n < sig -> 1 <= sig <= NSIG -> Z.testbit (ready_set p) (sig - 1) = true ->
  (forall i, n <= i < sig - 1 -> Z.testbit (ready_set p) i = false) ->
  set_sig_pending (clear (sig_pending (take_pending n p)) (SIGBIT sig)) (take_pending n p) = take_pending sig p.
Proof.
  intros Hp Hn Hs Hb Hl. unfold take_pending. cbn [sig_pending set_sig_pending].
  match goal with |- set_sig_pending ?a (set_sig_pending _ p) = set_sig_pending ?b p => assert (a = b) as ->; [|by destruct p] end.
  simpl. apply Z.bits_inj'. intros i Hi. unfold clear. rewrite !Z.ldiff_spec, !Z.land_spec, SIGBIT_spec, !Z.testbit_ones_nonneg by lia.
  destruct (Z.testbit (sig_pending p) i); [|done]. simpl.
  destruct (Z.lt_trichotomy i (sig - 1)) as [Hlt|[->|Hgt]].
  - destruct (Z.ltb_spec i n), (Z.ltb_spec i sig), (Z.eqb_spec (sig - 1) i); try lia; rewrite ?andb_true_r; try done; by rewrite Hl by lia.
  - rewrite Hb, Z.eqb_refl, (proj2 (Z.ltb_lt (sig - 1) sig)) by lia. by rewrite andb_false_r.
  - destruct (Z.ltb_spec i n), (Z.ltb_spec i sig), (Z.eqb_spec (sig - 1) i); try lia; by rewrite andb_false_r.
Qed.

Lemma take_all p n :
  sig_ok p -> 0 <= n <= NSIG -> (forall i, n <= i < NSIG -> Z.testbit (ready_set p) i = false) -> take_pending n p = take_pending NSIG p.
Proof.
  intros Hp Hn Hl. unfold take_pending. f_equal. f_equal. apply Z.bits_inj'. intros i Hi. rewrite !Z.land_spec, !Z.testbit_ones_nonneg by (unfold NSIG in *; lia).
  destruct (Z.ltb_spec i n), (Z.ltb_spec i NSIG); try lia; try done; by rewrite Hl by lia.
Qed.

Lemma take_none p : take_pending 0 p = p.
Proof. unfold take_pending. change (Z.ones 0) with 0. rewrite Z.land_0_r. unfold clear. rewrite Z.ldiff_0_r. by destruct p. Qed.

(** ** The frame *)

Lemma frame_place r : 0 <= rsp r < 2 ^ 64 ->
  exists x, x = u64 (rsp r - 128 - FPU) /\ fp_of r = x - x mod 64 /\ sp_of r = u64 (fp_of r - 456) /\ 0 <= fp_of r < 2 ^ 64 /\ fp_of r mod 64 = 0.
Proof.
  intros Hr. assert (0 <= u64 (u64 (rsp r - 128) - FPU) < 2 ^ 64) as Hx by apply u64_bound.
  exists (u64 (u64 (rsp r - 128) - FPU)). assert (fp_of r = u64 (u64 (rsp r - 128) - FPU) - u64 (u64 (rsp r - 128) - FPU) mod 64) as Efp.
  { unfold fp_of. apply (align_mask 6); [lia|done]. }
  set (x := u64 (u64 (rsp r - 128) - FPU)) in *. assert (0 <= fp_of r < 2 ^ 64 /\ fp_of r mod 64 = 0) as [Hb Hm].
  { rewrite Efp. clearbody x. clear Efp Hr. split; [lia_div|lia_div]. }
  split_and!; [|done| |lia|lia|done].
  - subst x. unfold u64. by rewrite Zminus_mod_idemp_l.
  - unfold sp_of. set (f := fp_of r) in *. assert (0 <= u64 (f - FRAME) < 2 ^ 64) as Hy by apply u64_bound.
    assert (u64 (f - FRAME) mod 16 = 8) as Hy16.
    { unfold u64, FRAME. clearbody f. clear Efp Hr. assert (exists q, f = 64 * q) as [q ->] by (exists (f / 64); lia_div). clear Hm Hy. lia_div. }
    rewrite (align_mask 4) by (lia || done). change (2 ^ 4) with 16. rewrite Hy16. unfold u64, FRAME.
    replace ((f - 440) mod 2 ^ 64 - 8 - 8) with ((f - 440) mod 2 ^ 64 - 16) by lia. rewrite Zminus_mod_idemp_l. f_equal. lia.
Qed.

Lemma frame_size r : 0 <= rsp r < 2 ^ 64 -> u64 (fp_of r + FPU - sp_of r) = 968.
Proof.
  intros Hr. destruct (frame_place r Hr) as (x & _ & _ & Hsp & _). rewrite Hsp. unfold u64, FPU. rewrite Zminus_mod_idemp_r.
  by replace (fp_of r + 512 - (fp_of r - 456)) with 968 by lia.
Qed.

Lemma length_fields fs : length (field_bytes fs) = sum_list_with fst fs.
Proof.
  induction fs as [|[n v] fs IH]; [done|]. unfold field_bytes. rewrite fmap_cons. cbn [concat sum_list_with fst snd].
  by rewrite length_app, length_le_bytes, <- IH.
Qed.

Lemma fields_byte fs : Forall byte (field_bytes fs).
Proof.
  induction fs as [|[n v] fs IH]; [constructor|]. unfold field_bytes. rewrite fmap_cons. cbn [concat]. apply Forall_app. split; [apply le_bytes_byte|done].
Qed.

Lemma frame_length r old fp restorer sig : length (field_bytes (frame_fields r old fp restorer sig)) = 440%nat.
Proof. rewrite length_fields. reflexivity. Qed.

Section DeliveryOk.
  Context {U : Type} `{UM : UserMem U}.
  Implicit Types (u : U) (t : thread U).

Definition holds u (a : Z) (bs : list Z) : Prop := forall i b, bs !! i = Some b -> peek u (a + Z.of_nat i) = Some b.

Lemma stored_holds u u' a bs : stored u u' a bs -> holds u' a bs.
Proof.
  intros [Hp _] i b Hb. apply lookup_lt_Some in Hb as Hl. rewrite Hp, decide_True by lia. by replace (Z.to_nat (a + Z.of_nat i - a)) with i by lia.
Qed.

Lemma stored_keeps u u' a bs b cs :
  stored u u' a bs -> b + Z.of_nat (length cs) <= a \/ a + Z.of_nat (length bs) <= b -> holds u b cs -> holds u' b cs.
Proof. intros [Hp _] Hd H i c Hc. apply lookup_lt_Some in Hc as Hl. rewrite Hp, decide_False by lia. by apply H. Qed.

Lemma wp_on_mem {A} (m : M U A) (Q : A -> thread U -> Prop) t :
  wp m (fun a u => Q a (MkThread (t_proc t) (t_regs t) (t_live t) (t_fpu t) u)) (t_mem t) -> wp (on_mem m) Q t.
Proof. unfold wp, on_mem. by destruct (m (t_mem t)) as [[a u]|]. Qed.

(** The area of the frame and the FPU image, once it may be written. *)
Lemma frame_layout u r :
  um_inv u -> 0 <= rsp r < 2 ^ 64 -> can_write u (sp_of r) (u64 (fp_of r + FPU - sp_of r)) ->
  sp_of r = fp_of r - 456 /\ 0 <= sp_of r /\ fp_of r + FPU <= rsp r - 128 /\ u64 (fp_of r + FPU - sp_of r) = 968
  /\ (sp_of r + 8) mod 16 = 0 /\ fp_of r mod 64 = 0.
Proof.
  intros Hi Hr Hw. destruct (frame_place r Hr) as (x & Hx & Hfp & Hsp & Hfb & Hfm).
  pose proof (frame_size r Hr) as Hn. rewrite Hn in Hw. assert (forall y, sp_of r <= y < sp_of r + 968 -> 0 <= y < 2 ^ 47) as Hb.
  { intros y Hy. destruct (writable_peek u y Hi (Hw y Hy)) as [b Hpb]. by apply (peek_user u y b Hi). }
  assert (0 <= sp_of r < 2 ^ 64) as Hsb by (rewrite Hsp; apply u64_bound).
  pose proof (Hb (sp_of r) ltac:(lia)). pose proof (Hb (sp_of r + 967) ltac:(lia)).
  assert (sp_of r = fp_of r - 456) as Esp.
  { rewrite Hsp in *. unfold u64 in *. destruct (Z.lt_ge_cases (fp_of r) 456); [|rewrite Z.mod_small; lia].
    rewrite <- (Z_mod_plus_full _ 1), Z.mod_small in * by lia. lia. }
  assert (x = rsp r - 128 - FPU) as Ex.
  { subst x. unfold u64, FPU in *. destruct (Z.lt_ge_cases (rsp r) 640); [|rewrite Z.mod_small; lia].
    rewrite <- (Z_mod_plus_full _ 1), Z.mod_small in * by lia. pose proof (Z.mod_pos_bound (rsp r - 128 - 512 + 1 * 2 ^ 64) 64). lia. }
  split_and!; [done|lia| |done| |done].
  - rewrite Hfp, Ex. pose proof (Z.mod_pos_bound (rsp r - 128 - FPU) 64). unfold FPU in *. lia.
  - rewrite Esp. clear - Hfm. assert (exists q, fp_of r = 64 * q) as [q ->] by (exists (fp_of r / 64); lia_div). lia_div.
Qed.

(** The frame lies below the red zone, aligned as the ABI asks, and holds the
    interrupted context. *)
Definition framed u (r : registers) (old : Z) (k : k_sigaction) (sig : Z) (live : list Z) : Prop :=
  sp_of r = fp_of r - 456 /\ 0 <= sp_of r /\ fp_of r + FPU <= rsp r - 128 /\ fp_of r + FPU <= user_top
  /\ (sp_of r + 8) mod 16 = 0 /\ fp_of r mod 64 = 0
  /\ holds u (sp_of r) (field_bytes (frame_fields r old (fp_of r) (sa_restorer k) sig)) /\ holds u (fp_of r) live.

Lemma handler_mask_ok old sig k : mask_ok old -> mask_ok (sa_mask k) -> mask_ok (handler_mask old sig k).
Proof.
  intros Ho Hk. unfold handler_mask. apply clear_unblockable. apply lor_bound; [apply lor_bound; [apply Ho|apply Hk]|].
  case_match; [apply SIGBIT_bound|lia].
Qed.

Lemma old_mask_ok p : sig_ok p -> mask_ok (old_mask p).
Proof. intros Hp. unfold old_mask. destruct (sig_restore p) eqn:E; [by apply (so_saved p)|apply Hp]. Qed.

Lemma enter_handler_ok p sig k :
  sig_ok p -> 1 <= sig <= NSIG -> action p sig = Some k -> sa_handler k <> SIG_DFL -> sig_ok (enter_handler sig k p).
Proof.
  intros Hp Hs Hk Hh. assert (mask_ok (sa_mask k)) as Hm by by eapply so_action.
  assert (sig_ok (set_sig_restore false (set_sig_blocked (handler_mask (old_mask p) sig k) p))) as Hp'.
  { apply (sig_ok_ext p); [done|done|apply Hp| |done]. apply handler_mask_ok; [by apply old_mask_ok|done]. }
  unfold enter_handler. cbv zeta. case_match; [done|].
  apply put_action_ok; [done|done|..]; [| |exact Hm]; intros ->; apply Hh, (so_fixed p Hp k); auto.
Qed.

(** The handler is about to run, its frame on the stack. *)
Definition set_up (sig : Z) (k : k_sigaction) (p : process) (r : registers) (live : list Z) t' : Prop :=
  t_proc t' = enter_handler sig k p /\ t_regs t' = handler_regs (sp_of r) sig (sa_handler k) r
  /\ t_live t' = live /\ framed (t_mem t') r (old_mask p) k sig live.

Definition thread_ok t : Prop :=
  um_inv (t_mem t) /\ sig_ok (t_proc t) /\ 0 <= rsp (t_regs t) < 2 ^ 64 /\ length (t_live t) = 512%nat /\ Forall byte (t_live t).

Lemma thread_ok_intro p r live fpu u : um_inv u -> sig_ok p -> 0 <= rsp r < 2 ^ 64 -> length live = 512%nat /\ Forall byte live -> thread_ok (MkThread p r live fpu u).
Proof. done. Qed.

Lemma setup_ok t sig k :
  thread_ok t -> 1 <= sig <= NSIG -> action (t_proc t) sig = Some k -> sa_handler k <> SIG_DFL ->
  wp (setup_frame sig k) (fun e t' => thread_ok t' /\ (e = -1 \/ e = 0 /\ set_up sig k (t_proc t) (t_regs t) (t_live t) t')) t.
Proof.
  intros Ht Hs Hk Hh. pose proof Ht as (Hi & Hp & Hr & Hl & Hb). unfold setup_frame. wp_step. wp_step. cbv zeta. case_match; [wp_steps; auto|].
  wp_step. apply wp_on_mem. rewrite frame_size by done.
  apply wp_user_ok_top; [done|apply u64_bound|lia| |]; intros u1 Hi1 Hg1; [|intros _ Hw Htop]; cbn [negb]; [wp_steps; split; [by apply thread_ok_intro|by left]|].
  specialize (Hw eq_refl). destruct (frame_layout u1 (t_regs t) Hi1 Hr) as (Esp & H0 & Hrz & _ & Hal & Hal'); [by rewrite frame_size|]. unfold FPU in *.
  wp_step. unfold fxsave. wp_step. wp_step. wp_step. cbn [t_mem t_fpu t_proc t_regs t_live]. wp_step. apply wp_on_mem. cbn [t_mem t_fpu t_proc t_regs t_live].
  apply wp_store_bytes; [done|done|rewrite Hl; intros x Hx; apply Hw; lia|]. intros u2 Hi2 Hs2. cbn [t_mem t_fpu t_proc t_regs t_live]. wp_step. apply wp_on_mem. cbn [t_mem t_fpu t_proc t_regs t_live].
  apply wp_store_bytes; [done|apply fields_byte|rewrite frame_length; intros x Hx; apply (proj2 Hs2), Hw; lia|]. intros u3 Hi3 Hs3. cbn [t_mem t_fpu t_proc t_regs t_live].
  unfold on_regs, on_proc. wp_steps. cbn [t_mem t_fpu t_proc t_regs t_live].
  split; [apply thread_ok_intro; [done|by apply enter_handler_ok|apply u64_bound|done]|]. right. split; [done|].
  unfold set_up. cbn [t_mem t_fpu t_proc t_regs t_live]. split_and!; [done|done|done|]. unfold framed, FPU. split_and!; [lia..|done|done|by eapply stored_holds|].
  eapply stored_keeps; [exact Hs3|right; rewrite frame_length; lia|by eapply stored_holds].
Qed.

(** ** Delivery *)

Definition first_due (p : process) (sig : Z) : Prop :=
  1 <= sig <= NSIG /\ due p sig = true /\ forall s, 1 <= s < sig -> due p s = false.

(** From a process [p], registers [r] and FPU [live]: nothing was due, or the
    first signal that is due was acted on. *)
Definition delivered (interrupted : bool) (p : process) (r : registers) (live : list Z) (res : fate) t' : Prop :=
  ((forall s, 1 <= s <= NSIG -> due p s = false) /\ res = Resumes /\ t_proc t' = signal_mask_restore (take_pending NSIG p)
    /\ t_regs t' = (if interrupted then restart r else r) /\ t_live t' = live)
  \/ exists sig k, first_due p sig /\ action p sig = Some k
    /\ (sa_handler k = SIG_DFL /\ res = Exits sig
        \/ sa_handler k <> SIG_DFL /\ (res = Exits SIGSEGV \/ res = Resumes /\ set_up sig k (take_pending sig p) (interrupt interrupted k r) live t')).

Lemma interrupt_rsp b k r : rsp (interrupt b k r) = rsp r.
Proof. unfold interrupt, restart. by repeat case_match. Qed.

Lemma deliver_ok intr p0 fuel n t :
  thread_ok t -> t_proc t = take_pending n p0 -> sig_ok p0 -> is_user p0 = true -> 0 <= n <= NSIG -> NSIG + 1 - n <= Z.of_nat fuel ->
  (forall s, 1 <= s <= n -> due p0 s = false) ->
  wp (deliver fuel intr) (fun res t' => thread_ok t' /\ delivered intr p0 (t_regs t) (t_live t) res t') t.
Proof.
  revert n t; induction fuel as [|fuel IH]; intros n t Ht Ep Hp0 Hu Hn Hf Hdone; [unfold NSIG in *; lia|].
  destruct t as [p r live fpu u]. cbn [t_proc t_regs t_live] in *. subst p. destruct Ht as (Hi & Hp & Hr & Hl & Hb). cbn [t_proc t_regs t_live t_mem] in *.
  cbn [deliver]. wp_step. wp_step. cbn [t_proc]. change (is_user (take_pending n p0)) with (is_user p0). rewrite Hu. cbn [andb].
  unfold signal_pending. fold (ready_set (take_pending n p0)). pose proof (ready_bound _ Hp) as Hrb.
  assert (forall i, 0 <= i -> Z.testbit (ready_set (take_pending n p0)) i = Z.testbit (ready_set p0) i && negb (i <? n)) as Hbit by (intros i Hi0; apply ready_take; [done|lia|done]).
  destruct (Z.eqb_spec (ready_set (take_pending n p0)) 0) as [E|E]; cbn [negb].
  { assert (forall i, n <= i -> Z.testbit (ready_set p0) i = false) as Hz.
    { intros i Hi0. specialize (Hbit i ltac:(lia)). rewrite E, Z.bits_0, (proj2 (Z.ltb_ge i n)), andb_true_r in Hbit by lia. done. }
    unfold on_regs, on_proc. wp_steps. cbn [t_mem t_proc t_regs t_live].
    split; [apply thread_ok_intro; [done|by apply mask_restore_ok|by destruct intr|done]|]. left. split_and!; [|done| |done|done].
    - intros s Hs. destruct (Z.le_gt_cases s n); [apply Hdone; lia|]. unfold due. by rewrite Hz by lia.
    - cbn [t_proc]. f_equal. apply take_all; [done|done|]. intros i Hi0. apply Hz. lia. }
  destruct (ctz_spec 64 (ready_set (take_pending n p0))) as (Hc & Hcb & Hcl); [lia|]. set (sig := ctz 64 _ + 1) in *.
  assert (Z.testbit (ready_set p0) (sig - 1) = true /\ n < sig) as [Hsb Hns].
  { replace (ctz 64 _) with (sig - 1) in Hcb, Hc by (unfold sig; lia). rewrite Hbit in Hcb by lia. apply andb_true_iff in Hcb as [? Hlt%negb_true_iff].
    apply Z.ltb_ge in Hlt. split; [done|lia]. }
  assert (1 <= sig <= NSIG) as Hsig by (unfold sig, NSIG; lia).
  assert (forall i, n <= i < sig - 1 -> Z.testbit (ready_set p0) i = false) as Hlow.
  { intros i Hi0. specialize (Hcl i ltac:(unfold sig in *; lia)). rewrite Hbit, (proj2 (Z.ltb_ge i n)), andb_true_r in Hcl by lia. done. }
  assert (forall s, 1 <= s < sig -> due p0 s = false) as Hbelow.
  { intros s Hs. destruct (Z.le_gt_cases s n); [apply Hdone; lia|]. unfold due. by rewrite Hlow by lia. }
  destruct (action_some p0 sig (so_len _ Hp0) Hsig) as [k Hk]. wp_step. eapply wp_lift; [rewrite action_take; exact Hk|].
  wp_step. unfold on_proc. wp_step. cbn [t_proc t_regs t_live t_fpu t_mem]. rewrite (take_step p0 n sig) by (done || lia).
  assert (sig_ok (take_pending sig p0)) as Hp1 by by apply take_ok.
  destruct (ignores k sig) eqn:Eig.
  { apply (IH sig); try done; [lia|lia|]. intros s Hs. destruct (Z.eq_dec s sig) as [->|]; [|apply Hbelow; lia].
    unfold due. by rewrite Hk, Eig, andb_false_r. }
  assert (first_due p0 sig) as Hfd by (split_and!; [lia|lia| |done]; unfold due; by rewrite Hsb, Hk, Eig).
  destruct (Z.eqb_spec (sa_handler k) SIG_DFL) as [Ed|Ed].
  { wp_steps. cbn [t_mem t_proc t_regs t_live]. split; [by apply thread_ok_intro|]. right. exists sig, k. split_and!; [apply Hfd..|done|]. by left. }
  wp_step. unfold on_regs. wp_step. cbn [t_proc t_regs t_live t_fpu t_mem]. wp_step.
  eapply wp_mono; [apply (setup_ok (MkThread (take_pending sig p0) (interrupt intr k r) live fpu u) sig k); [|done|done|done]|].
  { split_and!; cbn [t_proc t_regs t_live t_mem]; rewrite ?interrupt_rsp; [done|done|apply Hr..|done|done]. }
  cbn [t_proc t_regs t_live t_mem]. intros e t' [Ht' He]. wp_steps. split; [done|]. right. exists sig, k. split_and!; [apply Hfd..|done|].
  right. split; [done|]. destruct He as [->|[-> Hset]]; [by left|by right].
Qed.

(** ** Return *)

Lemma holds_grows u u' a bs : grows u u' -> holds u a bs -> holds u' a bs.
Proof. intros [Hg _] H i b Hb. by apply Hg, H. Qed.

Lemma holds_read u a bs : holds u a bs -> can_read u a (Z.of_nat (length bs)).
Proof.
  intros H x Hx. destruct (lookup_lt_is_Some_2 bs (Z.to_nat (x - a))) as [b Hb]; [lia|]. exists b.
  replace x with (a + Z.of_nat (Z.to_nat (x - a))) by lia. by apply H.
Qed.

Lemma holds_sub u a l1 l2 l3 : holds u a (l1 ++ l2 ++ l3) -> holds u (a + Z.of_nat (length l1)) l2.
Proof.
  intros H i b Hb. apply lookup_lt_Some in Hb as Hl. replace (a + Z.of_nat (length l1) + Z.of_nat i) with (a + Z.of_nat (length l1 + i)) by lia.
  apply H. rewrite lookup_app_r by lia. rewrite lookup_app_l by lia. by replace (length l1 + i - length l1)%nat with i by lia.
Qed.

Lemma fields_app f1 f2 : field_bytes (f1 ++ f2) = field_bytes f1 ++ field_bytes f2.
Proof. unfold field_bytes. by rewrite fmap_app, concat_app. Qed.

Lemma holds_fields u a f1 f2 f3 b : holds u a (field_bytes (f1 ++ f2 ++ f3)) -> b = a + Z.of_nat (sum_list_with fst f1) -> holds u b (field_bytes f2).
Proof. rewrite !fields_app, <- length_fields. intros H ->. by eapply holds_sub. Qed.

Lemma wp_load_bytes_holds u a bs (Q : list Z -> U -> Prop) : um_inv u -> holds u a bs -> Q bs u -> wp (load_bytes a (length bs)) Q u.
Proof.
  intros Hi H HQ. apply wp_load_bytes; [done|by apply holds_read|]. intros bs' Hlen _ Hp. assert (bs' = bs) as ->; [|done].
  apply list_eq. intros i. destruct (decide (i < length bs)%nat) as [Hlt|]; [|by rewrite !lookup_ge_None_2 by lia].
  destruct (lookup_lt_is_Some_2 bs i Hlt) as [b Hb]. rewrite Hb, <- (H i b Hb), Hp by lia. f_equal. lia.
Qed.

Lemma wp_load64_holds u a v (Q : Z -> U -> Prop) : um_inv u -> 0 <= v < 2 ^ 64 -> holds u a (le_bytes 8 v) -> Q v u -> wp (load64 a) Q u.
Proof.
  intros Hi Hv H HQ. unfold load64. wp_step. change 8%nat with (length (le_bytes 8 v)) at 1. apply wp_load_bytes_holds; [done|done|].
  wp_step. by rewrite le_value_bytes.
Qed.

Lemma wp_load_words_holds u a ws (Q : list Z -> U -> Prop) :
  um_inv u -> Forall (fun w => 0 <= w < 2 ^ 64) ws -> holds u a (field_bytes (words ws)) -> Q ws u -> wp (load_words a (length ws)) Q u.
Proof.
  intros Hi. revert a Q; induction ws as [|w ws IH]; intros a Q Hw H HQ; cbn [length load_words]; [by wp_steps|].
  apply Forall_cons in Hw as [Hw Hws]. wp_step. apply (wp_load64_holds _ _ w); [done|done| |].
  - pose proof (holds_fields u a [] [(8%nat, w)] (words ws) a H) as Hh. unfold field_bytes in Hh. simpl in Hh. apply Hh. simpl. lia.
  - wp_step. apply IH; [done| |by wp_steps]. pose proof (holds_fields u a [(8%nat, w)] (words ws) [] (a + 8)) as Hh. rewrite app_nil_r in Hh. by apply Hh.
Qed.

Definition word (x : Z) : Prop := 0 <= x < 2 ^ 64.

Definition saved_words (r : registers) : list Z :=
  [r8 r; r9 r; r10 r; r11 r; r12 r; r13 r; r14 r; r15 r; rdi r; rsi r; rbp r; rbx r; rdx r; rax r; rcx r; rsp r; rip r; rflags r].

(** What the frame holds, at the offsets sigreturn reads. *)
Lemma frame_holds u a r old fp restorer sig :
  holds u a (field_bytes (frame_fields r old fp restorer sig)) ->
  holds u (a + 8 + 40) (field_bytes (words (saved_words r))) /\ holds u (a + 8 + 40 + 128) (le_bytes 8 (rip r))
  /\ holds u (a + 8 + 40 + 184) (le_bytes 8 fp) /\ holds u (a + 8 + 296) (le_bytes 8 old) /\ can_read u (a + 8) UCONTEXT.
Proof.
  intros H. set (F := frame_fields r old fp restorer sig) in *.
  assert (forall n v b f3, F = take n F ++ [(8%nat, v)] ++ f3 -> b = a + Z.of_nat (sum_list_with fst (take n F)) -> holds u b (le_bytes 8 v)) as Hw.
  { intros n v b f3 E Hb. rewrite E in H. apply (holds_fields _ _ _ _ _ b) in H; [|done]. exact H. }
  split_and!.
  - apply (holds_fields u a (take 7 F) (words (saved_words r)) (drop 25 F)); [exact H|]. change (sum_list_with fst (take 7 F)) with 48%nat. lia.
  - apply (Hw 23%nat (rip r) _ (drop 24 F)); [done|]. change (sum_list_with fst (take 23 F)) with 176%nat. lia.
  - apply (Hw 33%nat fp _ (drop 34 F)); [done|]. change (sum_list_with fst (take 33 F)) with 232%nat. lia.
  - apply (Hw 42%nat old _ (drop 43 F)); [done|]. change (sum_list_with fst (take 42 F)) with 304%nat. lia.
  - eapply can_read_sub; [by eapply holds_read|lia|]. unfold F. rewrite frame_length. unfold UCONTEXT. lia.
Qed.

Lemma holds_eq u a bs bs' : holds u a bs -> holds u a bs' -> length bs = length bs' -> bs = bs'.
Proof.
  intros H H' Hl. apply list_eq. intros i. destruct (decide (i < length bs)%nat) as [Hlt|]; [|by rewrite !lookup_ge_None_2 by lia].
  destruct (lookup_lt_is_Some_2 bs i Hlt) as [b Hb], (lookup_lt_is_Some_2 bs' i ltac:(lia)) as [b' Hb']. rewrite Hb, Hb'.
  apply H in Hb. apply H' in Hb'. congruence.
Qed.

Lemma wp_load64_any u a (Q : Z -> U -> Prop) :
  um_inv u -> can_read u a 8 -> (forall v, word v -> holds u a (le_bytes 8 v) -> Q v u) -> wp (load64 a) Q u.
Proof.
  intros Hi Hr HQ. apply wp_load64; [done|done|]. intros v Hv Hp. apply HQ; [done|]. intros i b Hb. apply lookup_lt_Some in Hb as Hl.
  rewrite length_le_bytes in Hl. rewrite Hp by lia. by rewrite Nat2Z.id.
Qed.

Lemma wp_load_words_any u a n (Q : list Z -> U -> Prop) :
  um_inv u -> can_read u a (8 * Z.of_nat n) ->
  (forall ws, length ws = n -> Forall word ws -> holds u a (field_bytes (words ws)) -> Q ws u) -> wp (load_words a n) Q u.
Proof.
  intros Hi. revert a Q; induction n as [|n IH]; intros a Q Hr HQ; cbn [load_words].
  { wp_steps. apply HQ; [done|constructor|]. by intros i b. }
  wp_step. apply wp_load64_any; [done|eapply can_read_sub; [exact Hr|lia|lia]|]. intros w Hw Hh. wp_step.
  apply IH; [eapply can_read_sub; [exact Hr|lia|lia]|]. intros ws Hl Hws Hh'. wp_step. apply HQ; [simpl; congruence|by constructor|].
  change (words (w :: ws)) with ([(8%nat, w)] ++ words ws). rewrite fields_app. intros i b Hb.
  change (field_bytes [(8%nat, w)]) with (le_bytes 8 w) in Hb. destruct (decide (i < 8)%nat) as [Hlt|].
  - rewrite lookup_app_l in Hb by (by rewrite length_le_bytes). by apply Hh.
  - rewrite lookup_app_r in Hb by (rewrite length_le_bytes; lia). rewrite length_le_bytes in Hb.
    replace (a + Z.of_nat i) with (a + 8 + Z.of_nat (i - 8)) by lia. by apply Hh'.
Qed.

(** Ring 3, interrupts on, no I/O privilege. *)
Definition user_mode (r : registers) : Prop :=
  cs r = USER_CODE_SEL /\ ss r = USER_DATA_SEL /\ 0 <= rip r < USER_END
  /\ Z.testbit (rflags r) 9 = true /\ (forall i, i ∈ [12; 13; 14; 17; 19; 20] -> Z.testbit (rflags r) i = false).

Lemma restored_flags f i : Z.testbit (Z.lor (Z.land f 265685) 514) i = Z.testbit f i && Z.testbit 265685 i || Z.testbit 514 i.
Proof. by rewrite Z.lor_spec, Z.land_spec. Qed.

Lemma restore_user ws r :
  length ws = 18%nat -> Forall word ws -> (exists v, ws !! 16%nat = Some v /\ v < USER_END) ->
  forall n, user_mode (set_int_no n (restore_regs ws r)).
Proof.
  intros Hl Hw (v & Hv & Hlt) n. do 18 (destruct ws as [|? ws]; [done|]). destruct ws; [|done]. simpl in Hv. injection Hv as ->.
  assert (word v) as Hwv by (rewrite Forall_lookup in Hw; by apply (Hw 16%nat)). split_and!; cbn [restore_regs set_int_no cs ss rip rflags]; [done|done|apply Hwv|done| |].
  - rewrite restored_flags. by rewrite orb_true_r.
  - intros i Hi. rewrite restored_flags. repeat (apply elem_of_cons in Hi as [->|Hi]; [by rewrite andb_false_r|]). by apply not_elem_of_nil in Hi.
Qed.

Lemma restore_rsp ws r n : length ws = 18%nat -> Forall word ws -> word (rsp (set_int_no n (restore_regs ws r))).
Proof.
  intros Hl Hw. do 18 (destruct ws as [|? ws]; [done|]). destruct ws; [|done]. cbn [restore_regs set_int_no rsp].
  rewrite Forall_lookup in Hw. by apply (Hw 15%nat).
Qed.

Definition image (bs : list Z) : Prop := length bs = 512%nat /\ Forall byte bs.

Lemma mask_image bs : image bs -> image (mask_mxcsr bs).
Proof.
  intros [Hl Hb]. unfold mask_mxcsr. split.
  - rewrite !length_app, length_le_bytes, length_take, length_drop. lia.
  - repeat apply Forall_app_2; [by apply Forall_take|apply le_bytes_byte|by apply Forall_drop].
Qed.

Lemma sigreturn_safe_ok t :
  thread_ok t ->
  wp sys_rt_sigreturn (fun res t' => thread_ok t' /\ match res with inl _ => user_mode (t_regs t') | inr status => status = SIGSEGV end) t.
Proof.
  intros (Hi & Hp & Hr & Hlive). unfold sys_rt_sigreturn. wp_step. wp_step. set (uc := rsp (t_regs t)) in *. wp_step. apply wp_on_mem.
  apply wp_user_ok; [done|done|done| |]; intros u1 Hi1 Hg1; [|intros Hr1 _]; cbn [negb]; [wp_steps; split; [by apply thread_ok_intro|done]|]. unfold UCONTEXT in Hr1.
  wp_step. apply wp_on_mem. cbn [t_mem t_proc t_regs t_live t_fpu].
  apply wp_load64_any; [done|eapply can_read_sub; [exact Hr1|lia|lia]|]. intros vip Hvip Hhip. wp_step. apply wp_on_mem. cbn [t_mem t_proc t_regs t_live t_fpu].
  apply wp_load64_any; [done|eapply can_read_sub; [exact Hr1|lia|lia]|]. intros fps Hfps _. wp_step.
  eapply (wp_mono _ (fun (ok : bool) t' => um_inv (t_mem t') /\ grows u1 (t_mem t') /\ t_proc t' = t_proc t /\ t_regs t' = t_regs t /\ t_live t' = t_live t
    /\ (ok = true -> vip < USER_END /\ (fps <> 0 -> can_read (t_mem t') fps FPU)))).
  { destruct (Z.leb_spec USER_END vip); [by wp_steps|]. destruct (Z.eqb_spec fps 0); [by wp_steps|]. apply wp_on_mem.
    apply wp_user_ok; [done|done|done| |]; intros u2 Hi2 Hg2; cbn [t_mem t_proc t_regs]; [done|]. intros Hr2 _. by split_and!. }
  intros ok t2 (Hi2 & Hg2 & Ep & Er & El & Hok). destruct ok; cbn [negb]; [|wp_steps; split; [unfold thread_ok; by rewrite Ep, Er, El|done]]. destruct (Hok eq_refl) as [Hlt Hfr].
  assert (can_read (t_mem t2) uc 304) as Hr2 by by eapply grows_can_read.
  wp_step. apply wp_on_mem. apply wp_load_words_any; [done|eapply can_read_sub; [exact Hr2|lia|lia]|]. intros ws Hl Hws Hh. cbn [t_mem t_proc t_regs t_live t_fpu].
  assert (exists v, ws !! 16%nat = Some v /\ v < USER_END) as Hv.
  { destruct (lookup_lt_is_Some_2 ws 16) as [v Hv]; [lia|]. exists v. split; [done|]. assert (vip = v) as <-; [|done].
    assert (holds (t_mem t2) (uc + 40 + 128) (le_bytes 8 v)) as H1.
    { apply (holds_fields (t_mem t2) (uc + 40) (words (take 16 ws)) [(8%nat, v)] (words (drop 17 ws))).
      - rewrite <- (take_drop_middle ws 16 v Hv) in Hh. unfold words in *. by rewrite !fmap_app in Hh.
      - unfold words. do 18 (destruct ws as [|? ws]; [done|]). simpl. lia. }
    pose proof (holds_eq _ _ _ _ (holds_grows _ _ _ _ Hg2 Hhip) H1 eq_refl) as E.
    rewrite <- (le_value_bytes 8 vip), <- (le_value_bytes 8 v) by (done || (rewrite Forall_lookup in Hws; by apply (Hws 16%nat))). by rewrite E. }
  wp_step. unfold on_regs. wp_step. cbn [t_mem t_proc t_regs t_live t_fpu]. wp_step.
  eapply (wp_mono _ (fun (_ : unit) t' => t_mem t' = t_mem t2 /\ t_proc t' = t_proc t2 /\ t_regs t' = restore_regs ws (t_regs t2) /\ image (t_live t'))).
  { destruct (Z.eqb_spec fps 0); cbn [negb when]; [wp_steps; cbn [t_mem t_proc t_regs t_live]; by rewrite El|]. wp_step. apply wp_on_mem. cbn [t_mem t_proc t_regs t_live t_fpu].
    apply wp_load_bytes; [done|by apply Hfr|]. intros bs Hbl Hbb _. unfold set_fpu, fxrstor. wp_steps. cbn [t_mem t_proc t_regs t_live t_fpu].
    split_and!; [done|done|done|]. by apply mask_image. }
  intros [] t3 (Em & Ep3 & Er3 & Hl3). wp_step. apply wp_on_mem. rewrite Em.
  apply wp_load64_any; [done|eapply can_read_sub; [exact Hr2|lia|lia]|]. intros m Hm _. unfold on_proc. wp_steps. cbn [t_mem t_proc t_regs t_live t_fpu].
  split; [|rewrite Er3; by apply restore_user]. apply thread_ok_intro; [done| |rewrite Er3; by apply restore_rsp|apply Hl3].
  rewrite Ep3, Ep. apply (sig_ok_ext (t_proc t)); [done|done|apply Hp|by apply clear_unblockable|apply Hp].
Qed.

(** What sigreturn makes of the registers [r] a frame was made from. *)
Definition returned (r r2 : registers) : registers :=
  MkRegs (r15 r) (r14 r) (r13 r) (r12 r) (r11 r) (r10 r) (r9 r) (r8 r) (rbp r) (rdi r) (rsi r) (rdx r) (rcx r) (rbx r) (rax r)
         (2 ^ 64 - 1) (err_code r2) (rip r) USER_CODE_SEL (Z.lor (Z.land (rflags r) 265685) 514) (rsp r) USER_DATA_SEL.

Lemma sigreturn_frame_ok t r old k sig live :
  um_inv (t_mem t) -> framed (t_mem t) r old k sig live -> rsp (t_regs t) = sp_of r + 8 -> length live = 512%nat ->
  Forall word (saved_words r) -> rip r < USER_END -> word old ->
  wp sys_rt_sigreturn (fun res t' => res = inl (rax r) /\ t_regs t' = returned r (t_regs t)
    /\ t_proc t' = set_sig_blocked (clear old UNBLOCKABLE) (t_proc t) /\ t_live t' = mask_mxcsr live) t.
Proof.
  intros Hi (Esp & H0 & _ & Htop & _ & _ & Hf & Hfpu) Ersp Hl Hws Hip Hold. unfold FPU in *. unfold sys_rt_sigreturn. wp_step. wp_step. rewrite Ersp.
  wp_step. apply wp_on_mem. apply wp_user_ok_read; [done|lia|done|unfold UCONTEXT; lia| |]; [by apply frame_holds in Hf as (_ & _ & _ & _ & ?)|].
  intros u1 Hi1 Hg1. apply (holds_grows _ u1) in Hf; [|done]. apply (holds_grows _ u1) in Hfpu; [|done]. cbn [negb t_mem t_proc t_regs t_live t_fpu].
  destruct (frame_holds u1 _ _ _ _ _ _ Hf) as (Hh1 & Hh2 & Hh3 & Hh4 & _).
  assert (word (rip r)) as Hwip by (rewrite Forall_lookup in Hws; by apply (Hws 16%nat)).
  wp_step. apply wp_on_mem. cbn [t_mem]. apply (wp_load64_holds _ _ (rip r)); [done|done|done|]. cbn [t_mem t_proc t_regs t_live t_fpu].
  wp_step. apply wp_on_mem. cbn [t_mem]. apply (wp_load64_holds _ _ (fp_of r)); [done|unfold user_top in *; lia|done|]. cbn [t_mem t_proc t_regs t_live t_fpu].
  rewrite (proj2 (Z.leb_gt USER_END (rip r))), (proj2 (Z.eqb_neq (fp_of r) 0)) by lia. cbn [negb when]. wp_step. apply wp_on_mem. cbn [t_mem].
  apply wp_user_ok_read; [done|lia|done|unfold FPU; lia| |].
  { unfold FPU. replace 512 with (Z.of_nat (length live)) by lia. by apply holds_read. }
  intros u2 Hi2 Hg2. cbn [negb t_mem t_proc t_regs t_live t_fpu]. wp_step. apply wp_on_mem. cbn [t_mem].
  change 18%nat with (length (saved_words r)). apply wp_load_words_holds; [done|done|by eapply holds_grows|]. cbn [t_mem t_proc t_regs t_live t_fpu].
  wp_step. unfold on_regs. wp_step. wp_step. wp_step. apply wp_on_mem. cbn [t_mem t_proc t_regs t_live t_fpu].
  replace (Z.to_nat FPU) with (length live) by (rewrite Hl; done). apply wp_load_bytes_holds; [done|by eapply holds_grows|].
  unfold set_fpu, fxrstor. wp_step. wp_step. wp_step. cbn [t_mem t_proc t_regs t_live t_fpu]. wp_step. apply wp_on_mem. cbn [t_mem].
  apply (wp_load64_holds _ _ old); [done|done|by eapply holds_grows|]. unfold on_proc. wp_steps. by cbn [t_mem t_proc t_regs t_live t_fpu].
Qed.

(** ** All that happens to a thread *)

Inductive sig_call :=
  | CSigaction (sig act oact size_ : Z) | CSigprocmask (how set_ oset size_ : Z) | CSigsuspend (set_ size_ : Z)
  | CSigreturn | CDeliver (from_syscall : bool).

(** A call on the process's own record, which ends with the new record. *)
Definition as_proc (f : process -> M U (Z * process)) : M (thread U) (option Z) :=
  t ← get; x ← on_mem (f (t_proc t)); _ ← on_proc (fun _ => x.2); mret None.

(** The status if the process exits. *)
Definition run_sig (c : sig_call) : M (thread U) (option Z) :=
  match c with
  | CSigaction sig act oact size_ => as_proc (fun p => sys_rt_sigaction p sig act oact size_)
  | CSigprocmask how set_ oset size_ => as_proc (fun p => sys_rt_sigprocmask p how set_ oset size_)
  | CSigsuspend set_ size_ =>
      as_proc (fun p => x ← sys_rt_sigsuspend p set_ size_; mret (match x with inl e => (e, p) | inr p' => (- EINTR, p') end))
  | CSigreturn => x ← sys_rt_sigreturn; mret (match x with inl _ => None | inr status => Some status end)
  | CDeliver b => f ← signal_deliver b; mret (match f with Resumes => None | Exits status => Some status end)
  end.

(** The program runs, a signal comes, or the kernel works for the thread. *)
Inductive sstep : thread U -> thread U -> Prop :=
  | step_user p r live fpu u r' live' u' :
      um_inv u' -> word (rsp r') -> image live' -> sstep (MkThread p r live fpu u) (MkThread p r' live' fpu u')
  | step_post sig p r live fpu u : sstep (MkThread p r live fpu u) (MkThread (post sig p) r live fpu u)
  | step_kernel c t t' : run_sig c t = Some (None, t') -> sstep t t'.

Lemma as_proc_ok f t :
  thread_ok t -> (forall u, um_inv u -> wp (f (t_proc t)) (fun x u' => um_inv u' /\ sig_ok x.2) u) ->
  wp (as_proc f) (fun _ t' => thread_ok t') t.
Proof.
  intros (Hi & Hp & Hr & Hl) Hf. unfold as_proc. wp_step. wp_step. wp_step. apply wp_on_mem. eapply wp_mono; [by apply Hf|].
  intros x u' [Hi' Hp']. unfold on_proc. wp_steps. by apply thread_ok_intro.
Qed.

Lemma deliver_kernel intr fuel t : thread_ok t -> is_user (t_proc t) = false -> wp (deliver (S fuel) intr) (fun _ t' => thread_ok t') t.
Proof.
  intros (Hi & Hp & Hr & Hl) Hu. cbn [deliver]. wp_step. wp_step. rewrite Hu. cbn [andb]. unfold on_regs, on_proc. wp_steps.
  apply thread_ok_intro; [done|by apply mask_restore_ok|by destruct intr|done].
Qed.

Lemma run_sig_ok c t : thread_ok t -> wp (run_sig c) (fun _ t' => thread_ok t') t.
Proof.
  intros Ht. pose proof Ht as (Hi & Hp & Hr & Hl). destruct c as [sig act oact size_|how set_ oset size_|set_ size_| |b]; cbn [run_sig].
  - apply as_proc_ok; [done|]. intros u Hu'. by apply sigaction_ok.
  - apply as_proc_ok; [done|]. intros u Hu'. by apply sigprocmask_ok.
  - apply as_proc_ok; [done|]. intros u Hu'. wp_step. eapply wp_mono; [by apply sigsuspend_ok|]. intros [e|p'] u' [? ?]; by wp_steps.
  - wp_step. eapply wp_mono; [by apply sigreturn_safe_ok|]. intros res t' [Ht' _]. by wp_steps.
  - wp_step. unfold signal_deliver. wp_step. wp_step. destruct (is_user (t_proc t)) eqn:Hu.
    + eapply wp_mono; [eapply (deliver_ok _ (t_proc t) 65 0); try done; [by rewrite take_none|lia]|]. intros f t' [Ht' _]. by wp_steps.
    + eapply wp_mono; [by apply deliver_kernel|]. intros f t' Ht'. by wp_steps.
Qed.

Lemma sstep_ok t t' : sstep t t' -> thread_ok t -> thread_ok t'.
Proof.
  intros [p r live fpu u r' live' u' Hu Hr Hl|sig p r live fpu u|c t0 t0' Hc] Ht.
  - destruct Ht as (_ & Hp & _). by apply thread_ok_intro.
  - destruct Ht as (Hi & Hp & Hr & Hl). apply thread_ok_intro; [done| |done|done].
    apply (sig_ok_ext p); [done|done|apply lor_bound; [apply Hp|apply SIGBIT_bound]|apply Hp|apply Hp].
  - pose proof (run_sig_ok c t0 Ht) as Hw. unfold wp in Hw. by rewrite Hc in Hw.
Qed.

Lemma kill_due p : sig_ok p -> Z.testbit (sig_pending p) 8 = true -> due p SIGKILL = true.
Proof.
  intros Hp Hb. unfold due, ready_set, clear. destruct (so_blocked _ Hp) as (_ & H8 & _). rewrite Z.ldiff_spec.
  change (SIGKILL - 1) with 8. rewrite Hb, H8. destruct (action_some p SIGKILL (so_len _ Hp)) as [k Hk]; [done|]. rewrite Hk.
  unfold ignores. rewrite (so_fixed _ Hp k) by auto. done.
Qed.

(** C39: whatever the program does with masks, handlers, waiting, signal
    frames and memory, its thread stays well formed, no signal call of it can
    fault the kernel, and a pending SIGKILL is always due for delivery. *)
Theorem sigkill_always_due t t' :
  thread_ok t -> rtc sstep t t' ->
  thread_ok t' /\ (forall c, is_Some (run_sig c t')) /\ (Z.testbit (sig_pending (t_proc t')) 8 = true -> due (t_proc t') SIGKILL = true).
Proof.
  intros Ht Hs. induction Hs as [t|t t1 t' H1 _ IH]; [|by apply IH, (sstep_ok t)]. split_and!; [done| |].
  - intros c. destruct (wp_run _ _ _ (run_sig_ok c t Ht)) as (a & t1 & E & _). eauto.
  - apply kill_due, Ht.
Qed.


(** C33: a handler that returns with its frame intact resumes the interrupted
    program: every general register, the instruction and stack pointers, the
    FPU (but for reserved MXCSR bits) and the signal mask come back, flags
    limited to the user's. *)
Theorem sigframe_roundtrip t sig k :
  thread_ok t -> Forall word (saved_words (t_regs t)) -> rip (t_regs t) < USER_END ->
  1 <= sig <= NSIG -> action (t_proc t) sig = Some k -> sa_handler k <> SIG_DFL ->
  wp (setup_frame sig k) (fun e t1 => e = 0 -> forall t2,
    um_inv (t_mem t2) -> rsp (t_regs t2) = rsp (t_regs t1) + 8 ->
    (forall x b, sp_of (t_regs t) <= x < fp_of (t_regs t) + FPU -> peek (t_mem t1) x = Some b -> peek (t_mem t2) x = Some b) ->
    wp sys_rt_sigreturn (fun res t3 => res = inl (rax (t_regs t)) /\ t_regs t3 = returned (t_regs t) (t_regs t2)
      /\ t_proc t3 = set_sig_blocked (clear (old_mask (t_proc t)) UNBLOCKABLE) (t_proc t2) /\ t_live t3 = mask_mxcsr (t_live t)) t2) t.
Proof.
  intros Ht Hws Hip Hs Hk Hh. eapply wp_mono; [by apply setup_ok|]. intros e t1 [Ht1 He] E0 t2 Hi2 Hrsp Hmem.
  destruct He as [->|[_ (Ep & Er & El & Hfr)]]; [done|]. destruct Ht as (Hi & Hp & Hr & Hl & Hb).
  destruct Hfr as (Hf1 & Hf2 & Hf3 & Hf4 & Hf5 & Hf6 & Hf7 & Hf8). unfold FPU in *.
  apply (sigreturn_frame_ok _ _ _ k sig); [done| |by rewrite Hrsp, Er|done|done|done|apply (old_mask_ok _ Hp)].
  split_and!; [done..| |]; intros i b Hb'; apply lookup_lt_Some in Hb' as Hlt; apply Hmem; rewrite ?frame_length in Hlt; [lia|by apply Hf7|lia|by apply Hf8].
Qed.

(** rt_sigreturn, whatever the memory it reads its frame from, either
    kills the process or resumes it in ring 3, below USER_END, with interrupts
    on and no I/O privilege, and with a mask that leaves SIGKILL and SIGSTOP
    unblocked. *)
Theorem sigreturn_stays_in_user_mode t :
  thread_ok t ->
  wp sys_rt_sigreturn (fun res t' => thread_ok t' /\ match res with inl _ => user_mode (t_regs t') | inr status => status = SIGSEGV end) t.
Proof. apply sigreturn_safe_ok. Qed.
End DeliveryOk.

(** ** An example: a handler for signal 2, one page of stack *)

Definition page_bytes : flat := MkFlat (list_to_map ((fun i => (i, 0)) <$> range 4096 8192)).

Lemma page_bytes_inv : flat_inv page_bytes.
Proof.
  intros x b Hb. apply elem_of_list_to_map_2, list_elem_of_fmap in Hb as (i & [= -> ->] & Hi). apply elem_of_range in Hi. unfold byte. lia.
Qed.

Definition act2 : k_sigaction := MkAction 4096 SA_RESTORER 5000 0.
Definition proc2 : process := set_is_user true (set_sig_pending 2 (set_sigact (<[1%nat := act2]> (sigact zero_process)) zero_process)).
Definition regs2 : registers := set_rsp 8000 (set_rip 6000 (MkRegs 1 2 3 4 5 6 7 8 9 10 11 12 13 14 15 16 17 18 19 20 21 22)).
Definition thread2 : thread flat := MkThread proc2 regs2 (replicate 512 0) (replicate 512 0) page_bytes.

Lemma proc2_ok : sig_ok proc2.
Proof.
  split; [done|done|done|done| |].
  - apply Forall_insert; [by apply Forall_replicate|done].
  - intros k [H|H]; vm_compute in H; injection H as <-; done.
Qed.

Lemma thread2_ok : thread_ok thread2.
Proof. apply thread_ok_intro; [apply page_bytes_inv|apply proc2_ok|done|]. split; [done|]. by apply Forall_replicate. Qed.

Lemma sigkill_always_due_witness :
  let t' := MkThread (post 9 proc2) regs2 (replicate 512 0) (replicate 512 0) page_bytes in
  thread_ok t' /\ (forall c, is_Some (run_sig c t')) /\ (Z.testbit (sig_pending (t_proc t')) 8 = true -> due (t_proc t') SIGKILL = true).
Proof. apply (sigkill_always_due thread2); [apply thread2_ok|]. apply rtc_once, step_post. Defined.


Lemma sigframe_roundtrip_witness :
  wp (setup_frame 2 act2) (fun e t1 => e = 0 -> forall t2,
    um_inv (t_mem t2) -> rsp (t_regs t2) = rsp (t_regs t1) + 8 ->
    (forall x b, sp_of regs2 <= x < fp_of regs2 + FPU -> peek (t_mem t1) x = Some b -> peek (t_mem t2) x = Some b) ->
    wp sys_rt_sigreturn (fun res t3 => res = inl (rax regs2) /\ t_regs t3 = returned regs2 (t_regs t2)
      /\ t_proc t3 = set_sig_blocked (clear (old_mask proc2) UNBLOCKABLE) (t_proc t2) /\ t_live t3 = mask_mxcsr (replicate 512 0)) t2) thread2
  /\ (fst <$> setup_frame 2 act2 thread2) = Some 0.
Proof.
  split; [|by vm_compute]. apply (sigframe_roundtrip thread2 2 act2); [apply thread2_ok| |done|done|done|done].
  unfold saved_words. repeat constructor; done.
Defined.

Lemma sigreturn_stays_in_user_mode_witness :
  wp sys_rt_sigreturn (fun res t' => thread_ok t' /\ match res with inl _ => user_mode (t_regs t') | inr status => status = SIGSEGV end) thread2.
Proof. apply sigreturn_stays_in_user_mode, thread2_ok. Defined.
