(* ===== verification/VfsState.v ===== *)
(** * The state of the file systems

    Inodes, dentries, open file descriptions and pipes are blocks of the
    kernel heap, named by addresses that are never used twice; a pointer to a
    freed block, or NULL, faults when followed. The functions here are the
    ones of src/src/kernel/vfs/vfs.c that both vfs.c and the file systems
    call: inode set-up, reference counts, times, and the dentry lists. *)
From S2P Require Import Prelude Types Cred Pipe.

(** mount_t, with the address it stands at. *)
Record mount := MkMount {
  m_addr : Z; m_mp : Z; m_covered : Z; m_covered_children : Z; m_root : Z; m_source : string; m_type : string; m_flags : Z }.

(** [fs_mounts] is the list from [mounts] on; [fs_seq] the counter of
    vfs_add_child and [fs_ino] that of ramfs_inode; [fs_block] the next free
    address; [fs_oom] says which of the coming allocations fail (none once it
    is used up); [fs_now] is clock_realtime_ns(), which stands still while the
    kernel runs; [fs_cur] is the current process, and [fs_woken] records the
    channels given to wakeup. *)
Record fs := MkFs {
  fs_inodes : gmap Z inode;
  fs_dentries : gmap Z dentry;
  fs_files : gmap Z file;
  fs_pipes : gmap Z pipe_t;
  fs_mounts : list mount;
  fs_root : Z;
  fs_seq : Z;
  fs_ino : Z;
  fs_block : Z;
  fs_oom : list bool;
  fs_now : Z;
  fs_cur : option process;
  fs_woken : list Z;
}.

Definition set_fs_inodes (v : gmap Z inode) (r : fs) : fs := MkFs v (fs_dentries r) (fs_files r) (fs_pipes r) (fs_mounts r) (fs_root r) (fs_seq r) (fs_ino r) (fs_block r) (fs_oom r) (fs_now r) (fs_cur r) (fs_woken r).
Definition set_fs_dentries (v : gmap Z dentry) (r : fs) : fs := MkFs (fs_inodes r) v (fs_files r) (fs_pipes r) (fs_mounts r) (fs_root r) (fs_seq r) (fs_ino r) (fs_block r) (fs_oom r) (fs_now r) (fs_cur r) (fs_woken r).
Definition set_fs_files (v : gmap Z file) (r : fs) : fs := MkFs (fs_inodes r) (fs_dentries r) v (fs_pipes r) (fs_mounts r) (fs_root r) (fs_seq r) (fs_ino r) (fs_block r) (fs_oom r) (fs_now r) (fs_cur r) (fs_woken r).
Definition set_fs_pipes (v : gmap Z pipe_t) (r : fs) : fs := MkFs (fs_inodes r) (fs_dentries r) (fs_files r) v (fs_mounts r) (fs_root r) (fs_seq r) (fs_ino r) (fs_block r) (fs_oom r) (fs_now r) (fs_cur r) (fs_woken r).
Definition set_fs_mounts (v : list mount) (r : fs) : fs := MkFs (fs_inodes r) (fs_dentries r) (fs_files r) (fs_pipes r) v (fs_root r) (fs_seq r) (fs_ino r) (fs_block r) (fs_oom r) (fs_now r) (fs_cur r) (fs_woken r).
Definition set_fs_root (v : Z) (r : fs) : fs := MkFs (fs_inodes r) (fs_dentries r) (fs_files r) (fs_pipes r) (fs_mounts r) v (fs_seq r) (fs_ino r) (fs_block r) (fs_oom r) (fs_now r) (fs_cur r) (fs_woken r).
Definition set_fs_seq (v : Z) (r : fs) : fs := MkFs (fs_inodes r) (fs_dentries r) (fs_files r) (fs_pipes r) (fs_mounts r) (fs_root r) v (fs_ino r) (fs_block r) (fs_oom r) (fs_now r) (fs_cur r) (fs_woken r).
Definition set_fs_ino (v : Z) (r : fs) : fs := MkFs (fs_inodes r) (fs_dentries r) (fs_files r) (fs_pipes r) (fs_mounts r) (fs_root r) (fs_seq r) v (fs_block r) (fs_oom r) (fs_now r) (fs_cur r) (fs_woken r).
Definition set_fs_block (v : Z) (r : fs) : fs := MkFs (fs_inodes r) (fs_dentries r) (fs_files r) (fs_pipes r) (fs_mounts r) (fs_root r) (fs_seq r) (fs_ino r) v (fs_oom r) (fs_now r) (fs_cur r) (fs_woken r).
Definition set_fs_oom (v : list bool) (r : fs) : fs := MkFs (fs_inodes r) (fs_dentries r) (fs_files r) (fs_pipes r) (fs_mounts r) (fs_root r) (fs_seq r) (fs_ino r) (fs_block r) v (fs_now r) (fs_cur r) (fs_woken r).
Definition set_fs_now (v : Z) (r : fs) : fs := MkFs (fs_inodes r) (fs_dentries r) (fs_files r) (fs_pipes r) (fs_mounts r) (fs_root r) (fs_seq r) (fs_ino r) (fs_block r) (fs_oom r) v (fs_cur r) (fs_woken r).
Definition set_fs_cur (v : option process) (r : fs) : fs := MkFs (fs_inodes r) (fs_dentries r) (fs_files r) (fs_pipes r) (fs_mounts r) (fs_root r) (fs_seq r) (fs_ino r) (fs_block r) (fs_oom r) (fs_now r) v (fs_woken r).
Definition set_fs_woken (v : list Z) (r : fs) : fs := MkFs (fs_inodes r) (fs_dentries r) (fs_files r) (fs_pipes r) (fs_mounts r) (fs_root r) (fs_seq r) (fs_ino r) (fs_block r) (fs_oom r) (fs_now r) (fs_cur r) v.

(** ** Blocks *)

Definition k_alloc : M fs Z :=
  s ← get;
  let '(fails, rest) := match fs_oom s with [] => (false, []) | b :: l => (b, l) end in
  _ ← modify (set_fs_oom rest);
  if (fails : bool) then mret 0 else
  _ ← modify (set_fs_block (fs_block s + 1));
  mret (fs_block s).

Definition ino (n : Z) : M fs inode := s ← get; lift (fs_inodes s !! n).
Definition iput_at (n : Z) (x : inode) : M fs unit := modify (fun s => set_fs_inodes (<[n := x]> (fs_inodes s)) s).
Definition iset (n : Z) (f : inode -> inode) : M fs unit := x ← ino n; iput_at n (f x).
Definition ifree (n : Z) : M fs unit := modify (fun s => set_fs_inodes (delete n (fs_inodes s)) s).

Definition dent (d : Z) : M fs dentry := s ← get; lift (fs_dentries s !! d).
Definition dput_at (d : Z) (x : dentry) : M fs unit := modify (fun s => set_fs_dentries (<[d := x]> (fs_dentries s)) s).
Definition dset (d : Z) (f : dentry -> dentry) : M fs unit := x ← dent d; dput_at d (f x).
Definition dfree (d : Z) : M fs unit := modify (fun s => set_fs_dentries (delete d (fs_dentries s)) s).

(** ** Inodes *)

Definition is_dir (n : inode) : bool := itype n =? VFS_DIRECTORY.

Definition init_inode (now type mode : Z) (n : inode) : inode :=
  MkInode (i_name n) type (i_ino n) (i_length n) (Z.land mode 4095) 0 0 1 (i_refs n) (i_dev n) (i_rdev n) now now now
    (i_read n) (i_write n) (i_finddir n) (i_create n) (i_truncate n) (i_ioctl n) (i_release n) (i_destroy n) (i_poll n) (i_open n) (i_readdir n) (i_ptr n).

Definition vfs_init_inode (n type mode : Z) : M fs unit := s ← get; iset n (init_inode (fs_now s) type mode).

Definition vfs_iget (n : Z) : M fs unit := iset n (fun x => set_i_refs (u32 (i_refs x + 1)) x).

Definition touched (now which : Z) (n : inode) : inode :=
  let has b := negb (Z.land which b =? 0) in
  MkInode (i_name n) (i_flags n) (i_ino n) (i_length n) (i_mode n) (i_uid n) (i_gid n) (i_nlink n) (i_refs n) (i_dev n) (i_rdev n)
    (if has VFS_ATIME then now else i_atime n) (if has VFS_MTIME then now else i_mtime n) (if has VFS_CTIME then now else i_ctime n)
    (i_read n) (i_write n) (i_finddir n) (i_create n) (i_truncate n) (i_ioctl n) (i_release n) (i_destroy n) (i_poll n) (i_open n) (i_readdir n) (i_ptr n).

Definition vfs_touch (n which : Z) : M fs unit := s ← get; iset n (touched (fs_now s) which).

(** ** Directories: lists of dentries *)

(** A walk along next_sibling ends within as many steps as there are dentries. *)
Definition dfuel (s : fs) : nat := S (size (fs_dentries s)).

Fixpoint find_child (fuel : nat) (c : Z) (name : string) : M fs Z :=
  match fuel with
  | O => fault
  | S fuel =>
      if c =? 0 then mret 0 else
      dc ← dent c;
      if String.eqb (d_name dc) name then mret c else find_child fuel (d_next_sibling dc) name
  end.

Definition vfs_child (dir : Z) (name : string) : M fs Z :=
  n ← ino dir;
  if negb (is_dir n) then mret 0 else
  match i_ptr n with
  | PNull => mret 0
  | PDentry d => dd ← dent d; s ← get; find_child (dfuel s) (d_first_child dd) name
  | _ => fault
  end.

Definition vfs_finddir_dentry (dir : Z) (name : string) : M fs Z :=
  c ← vfs_child dir name;
  if c =? 0 then mret 0 else dc ← dent c; mret (d_inode dc).

Fixpoint last_child (fuel : nat) (c : Z) : M fs Z :=
  match fuel with
  | O => fault
  | S fuel => dc ← dent c; if d_next_sibling dc =? 0 then mret c else last_child fuel (d_next_sibling dc)
  end.

Definition vfs_add_child (parent child : Z) : M fs unit :=
  s ← get;
  _ ← modify (set_fs_seq (u64 (fs_seq s + 1)));
  _ ← dset child (fun x => set_d_parent parent (set_d_seq (fs_seq s) x));
  pd ← dent parent;
  if d_first_child pd =? 0 then dset parent (set_d_first_child child)
  else
    l ← last_child (dfuel s) (d_first_child pd);
    dset l (set_d_next_sibling child).

(** [*pp] is [c]: the first child, or the sibling after [prev]. *)
Fixpoint unlink_child (fuel : nat) (parent prev c d next : Z) : M fs unit :=
  match fuel with
  | O => fault
  | S fuel =>
      if c =? d then (if prev =? 0 then dset parent (set_d_first_child next) else dset prev (set_d_next_sibling next))
      else dc ← dent c; unlink_child fuel parent c (d_next_sibling dc) d next
  end.

Definition detach (d : Z) : M fs unit :=
  dd ← dent d;
  pd ← dent (d_parent dd);
  s ← get;
  _ ← unlink_child (dfuel s) (d_parent dd) 0 (d_first_child pd) d (d_next_sibling dd);
  dset d (set_d_next_sibling 0).

(** ** Symbolic execution *)

Lemma wp_ino n x s (Q : inode -> fs -> Prop) : fs_inodes s !! n = Some x -> Q x s -> wp (ino n) Q s.
Proof. intros Hn HQ. unfold ino. wp_steps. by eapply wp_lift. Qed.

Lemma wp_iset n f x s (Q : unit -> fs -> Prop) :
  fs_inodes s !! n = Some x -> Q tt (set_fs_inodes (<[n := f x]> (fs_inodes s)) s) -> wp (iset n f) Q s.
Proof. intros Hn HQ. unfold iset. wp_step. eapply wp_ino; [done|]. unfold iput_at. by wp_steps. Qed.

Lemma wp_dent d x s (Q : dentry -> fs -> Prop) : fs_dentries s !! d = Some x -> Q x s -> wp (dent d) Q s.
Proof. intros Hn HQ. unfold dent. wp_steps. by eapply wp_lift. Qed.

Lemma wp_dset d f x s (Q : unit -> fs -> Prop) :
  fs_dentries s !! d = Some x -> Q tt (set_fs_dentries (<[d := f x]> (fs_dentries s)) s) -> wp (dset d f) Q s.
Proof. intros Hn HQ. unfold dset. wp_step. eapply wp_dent; [done|]. unfold dput_at. by wp_steps. Qed.

(** Allocation fails, or gives a new block. *)
Lemma wp_k_alloc s (Q : Z -> fs -> Prop) :
  (forall l, Q 0 (set_fs_oom l s)) -> (forall l, Q (fs_block s) (set_fs_block (fs_block s + 1) (set_fs_oom l s))) -> wp k_alloc Q s.
Proof. intros H0 H1. unfold k_alloc. wp_steps. destruct (fs_oom s) as [|[] l]; wp_steps; [apply H1|apply H0|apply H1]. Qed.

(** All but the inodes and the heap's own state is the same. *)
Definition rest_i (s s' : fs) : Prop :=
  fs_dentries s' = fs_dentries s /\ fs_files s' = fs_files s /\ fs_pipes s' = fs_pipes s /\ fs_mounts s' = fs_mounts s
  /\ fs_root s' = fs_root s /\ fs_seq s' = fs_seq s /\ fs_ino s' = fs_ino s /\ fs_now s' = fs_now s /\ fs_cur s' = fs_cur s
  /\ fs_woken s' = fs_woken s /\ fs_block s <= fs_block s'.

#[global] Instance rest_i_preorder : PreOrder rest_i.
Proof. split; [intros s; by split_and!|]. intros s1 s2 s3 H1 H2. unfold rest_i in *. destruct_and!. split_and!; congruence || lia. Qed.

(** Only inode [n] changed, to [x]. *)
Definition only_i (n : Z) (x : inode) (s s' : fs) : Prop := fs_inodes s' = <[n := x]> (fs_inodes s) /\ rest_i s s'.

Lemma only_i_trans n x y s1 s2 s3 : only_i n x s1 s2 -> only_i n y s2 s3 -> only_i n y s1 s3.
Proof. intros [E1 R1] [E2 R2]. split; [by rewrite E2, E1, insert_insert_eq|by transitivity s2]. Qed.

Lemma only_i_refl n x s : fs_inodes s !! n = Some x -> only_i n x s s.
Proof. intros Hn. split; [by rewrite insert_id|done]. Qed.

Lemma only_i_lookup n x s s' : only_i n x s s' -> fs_inodes s' !! n = Some x.
Proof. intros [-> _]. apply lookup_insert_eq. Qed.

Lemma rest_alloc s l : rest_i s (set_fs_oom l s) /\ rest_i s (set_fs_block (fs_block s + 1) (set_fs_oom l s)).
Proof. unfold rest_i. split; split_and!; simpl; done || lia. Qed.

Lemma only_i_set n x s : only_i n x s (set_fs_inodes (<[n := x]> (fs_inodes s)) s).
Proof. split; [done|]. unfold rest_i. split_and!; simpl; done || lia. Qed.
