(* ===== verification/Forest.v ===== *)
(** * Dentry lists as lists

    A directory's children hang on its dentry in a singly linked list. Here
    the lists are seen as Rocq lists, [K d] for dentry [d]: looking one up,
    adding at the end and taking one out do to [K] what they should, and
    touch no name and no inode. *)
From S2P Require Import Prelude Types Cred Pipe VfsState.

Fixpoint chain (D : gmap Z dentry) (p c : Z) (l : list Z) : Prop :=
  match l with
  | [] => c = 0
  | x :: l' => c = x /\ exists dx, D !! x = Some dx /\ d_parent dx = p /\ chain D p (d_next_sibling dx) l'
  end.

Record forest (D : gmap Z dentry) (K : Z -> list Z) : Prop := {
  fr_chain : forall d dd, D !! d = Some dd -> chain D d (d_first_child dd) (K d);
  fr_none : forall d, D !! d = None -> K d = [];
  fr_nodup : forall d, NoDup (K d);
  fr_null : D !! 0 = None;
  fr_self : forall d, d ∉ K d;
}.

Definition upd (K : Z -> list Z) (p : Z) (l : list Z) : Z -> list Z := fun d => if decide (d = p) then l else K d.

Lemma upd_eq K p l : upd K p l p = l.
Proof. unfold upd. by rewrite decide_True. Qed.

Lemma upd_ne K p l d : d <> p -> upd K p l d = K d.
Proof. intros H. unfold upd. by rewrite decide_False. Qed.

(** What the lists do not touch. *)
Definition dkey (d : dentry) : string * Z := (d_name d, d_inode d).

Lemma chain_elem D p c l x : chain D p c l -> x ∈ l -> exists dx, D !! x = Some dx /\ d_parent dx = p.
Proof.
  revert c; induction l as [|y l IH]; intros c; simpl; [by intros _ ?%not_elem_of_nil|].
  intros (-> & dx & Hx & Hp & Hl) [->|Hin]%elem_of_cons; eauto.
Qed.

Lemma chain_ext D D' p c l :
  chain D p c l ->
  (forall x dx, x ∈ l -> D !! x = Some dx -> exists dx', D' !! x = Some dx' /\ d_parent dx' = d_parent dx /\ d_next_sibling dx' = d_next_sibling dx) ->
  chain D' p c l.
Proof.
  revert c; induction l as [|y l IH]; intros c; simpl; [done|]. intros (-> & dx & Hx & Hp & Hl) H. split; [done|].
  destruct (H y dx) as (dx' & Hx' & Hp' & Hn'); [left|done|]. exists dx'. split_and!; [done|congruence|]. rewrite Hn'.
  apply IH; [done|]. intros x dx0 Hin. apply H. by right.
Qed.


Lemma chain_fuel D p c l : chain D p c l -> NoDup l -> (length l <= size D)%nat.
Proof.
  intros Hc Hnd. rewrite <- (size_list_to_set (C := gset Z) l) by done. rewrite <- size_dom. apply subseteq_size.
  intros x. rewrite elem_of_list_to_set, elem_of_dom. intros Hx. destruct (chain_elem D p c l x Hc Hx) as (dx & -> & _). eauto.
Qed.

Section Forest.
  Context (D : gmap Z dentry) (K : Z -> list Z) (HF : forest D K).

Lemma kid_some p c : c ∈ K p -> exists dp dc, D !! p = Some dp /\ D !! c = Some dc /\ d_parent dc = p.
Proof.
  intros Hc. destruct (D !! p) as [dp|] eqn:Hp; [|rewrite (fr_none _ _ HF p Hp) in Hc; by apply not_elem_of_nil in Hc].
  destruct (chain_elem _ _ _ _ c (fr_chain _ _ HF p dp Hp) Hc) as (dc & ? & ?). eauto.
Qed.

Lemma kid_unique p q c : c ∈ K p -> c ∈ K q -> p = q.
Proof. intros (? & dc & _ & H1 & <-)%kid_some (? & dc' & _ & H2 & <-)%kid_some. congruence. Qed.

Lemma kids_fuel p : (length (K p) <= size D)%nat.
Proof.
  destruct (D !! p) as [dp|] eqn:Hp; [|rewrite (fr_none _ _ HF p Hp); simpl; lia].
  apply (chain_fuel D p (d_first_child dp)); apply HF; done.
Qed.

Lemma kid_nonnull p c : c ∈ K p -> c <> 0 /\ p <> 0.
Proof. intros (dp & dc & Hp & Hc & _)%kid_some. split; intros ->; rewrite (fr_null _ _ HF) in *; done. Qed.
End Forest.

(** ** Looking up *)

Definition named (D : gmap Z dentry) (x : Z) (name : string) : Prop := exists dx, D !! x = Some dx /\ d_name dx = name.

Lemma find_child_ok s p c l fuel name :
  chain (fs_dentries s) p c l -> 0 ∉ l -> (length l < fuel)%nat ->
  wp (find_child fuel c name) (fun r s' => s' = s
    /\ (r ∈ l /\ named (fs_dentries s) r name \/ r = 0 /\ forall x, x ∈ l -> ~ named (fs_dentries s) x name)) s.
Proof.
  revert c fuel; induction l as [|x l IH]; intros c fuel Hc H0 Hf; (destruct fuel as [|fuel]; [simpl in Hf; lia|]); cbn [find_child].
  - simpl in Hc. subst c. rewrite Z.eqb_refl. wp_steps. split; [done|]. right. split; [done|]. by intros x ?%not_elem_of_nil.
  - destruct Hc as (-> & dx & Hx & Hp & Hl). apply not_elem_of_cons in H0 as [Hx0 H0]. rewrite (proj2 (Z.eqb_neq x 0)) by done.
    wp_step. eapply wp_dent; [done|]. destruct (String.eqb_spec (d_name dx) name) as [E|E].
    + wp_steps. split; [done|]. left. split; [left|]. by exists dx.
    + eapply wp_mono; [apply IH; [done|done|simpl in Hf; lia]|]. intros r s' [-> [[Hr Hn]|[-> Hn]]]; (split; [done|]).
      * left. split; [by right|done].
      * right. split; [done|]. intros y [->|Hy]%elem_of_cons; [|by apply Hn]. intros (dx' & Hx' & E'). congruence.
Qed.

(** ** Adding at the end *)

Lemma chain_snoc D D' p a l e c :
  chain D p a (l ++ [e]) ->
  (forall x dx, x ∈ l -> D !! x = Some dx -> exists dx', D' !! x = Some dx' /\ d_parent dx' = d_parent dx /\ d_next_sibling dx' = d_next_sibling dx) ->
  (exists de, D' !! e = Some de /\ d_parent de = p /\ d_next_sibling de = c) ->
  (exists dc, D' !! c = Some dc /\ d_parent dc = p /\ d_next_sibling dc = 0) -> chain D' p a ((l ++ [e]) ++ [c]).
Proof.
  revert a; induction l as [|x l IH]; intros a; simpl.
  - intros (-> & _) _ (de & He & Hpe & Hne) (dc & Hc & Hpc & Hnc). split; [done|]. exists de. split; [done|]. split; [done|]. split; [done|]. by exists dc.
  - intros (-> & dx & Hx & Hp & Hl) H He Hc. split; [done|]. destruct (H x dx) as (dx' & Hx' & Hp' & Hn'); [left|done|]. exists dx'.
    split_and!; [done|congruence|]. rewrite Hn'. apply IH; [done| |done|done]. intros y dy Hy. apply H. by right.
Qed.

Lemma last_child_ok s p c l e fuel (Q : Z -> fs -> Prop) :
  chain (fs_dentries s) p c (l ++ [e]) -> 0 ∉ l ++ [e] -> (length l < fuel)%nat -> Q e s -> wp (last_child fuel c) Q s.
Proof.
  revert c fuel; induction l as [|x l IH]; intros c fuel Hc H0 Hf HQ; (destruct fuel as [|fuel]; [simpl in Hf; lia|]); cbn [last_child].
  - destruct Hc as (-> & dx & Hx & Hp & Hl). simpl in Hl. wp_step. eapply wp_dent; [done|]. rewrite Hl, Z.eqb_refl. by wp_steps.
  - destruct Hc as (-> & dx & Hx & Hp & Hl). simpl in H0. apply not_elem_of_cons in H0 as [Hx0 H0]. wp_step. eapply wp_dent; [done|].
    assert (d_next_sibling dx <> 0) as Hn.
    { intros E. rewrite E in Hl. destruct l as [|y l]; destruct Hl as [<- _]; apply H0; left. }
    rewrite (proj2 (Z.eqb_neq _ _) Hn). apply IH; [done|done|simpl in Hf; lia|done].
Qed.

(** The state after a change of the dentries alone, but for the counter. *)
Definition rest_d (s s' : fs) : Prop :=
  fs_inodes s' = fs_inodes s /\ fs_files s' = fs_files s /\ fs_pipes s' = fs_pipes s /\ fs_mounts s' = fs_mounts s
  /\ fs_root s' = fs_root s /\ fs_ino s' = fs_ino s /\ fs_now s' = fs_now s /\ fs_cur s' = fs_cur s
  /\ fs_woken s' = fs_woken s /\ fs_block s' = fs_block s /\ fs_oom s' = fs_oom s.

#[global] Instance rest_d_preorder : PreOrder rest_d.
Proof. split; [intros s; by split_and!|]. intros s1 s2 s3 H1 H2. unfold rest_d in *. destruct_and!. split_and!; congruence. Qed.

Lemma key_update (D : gmap Z dentry) x dx dx' : D !! x = Some dx -> dkey dx' = dkey dx -> dkey <$> <[x := dx']> D = dkey <$> D.
Proof. intros Hx E. rewrite fmap_insert, E. apply insert_id. by rewrite lookup_fmap, Hx. Qed.

Lemma parent_update (D : gmap Z dentry) x dx dx' : D !! x = Some dx -> d_parent dx' = d_parent dx -> d_parent <$> <[x := dx']> D = d_parent <$> D.
Proof. intros Hx E. rewrite fmap_insert, E. apply insert_id. by rewrite lookup_fmap, Hx. Qed.

(** What adding [c] below [p] does. *)
Definition attached (s s' : fs) (K : Z -> list Z) (p c : Z) : Prop :=
  forest (fs_dentries s') (upd K p (K p ++ [c])) /\ dkey <$> fs_dentries s' = dkey <$> fs_dentries s
  /\ d_parent <$> fs_dentries s' = <[c := p]> (d_parent <$> fs_dentries s) /\ rest_d s s'.

Lemma forest_attach D D' K p c (dp dc : dentry) e :
  forest D K -> D !! p = Some dp -> D !! c = Some dc -> (forall q, c ∉ K q) -> p <> c ->
  (forall x, x <> c -> x <> p -> Some x <> e -> D' !! x = D !! x) ->
  (exists dc', D' !! c = Some dc' /\ d_parent dc' = p /\ d_next_sibling dc' = 0 /\ d_first_child dc' = d_first_child dc) ->
  e = last (K p) ->
  (exists dp', D' !! p = Some dp' /\ d_parent dp' = d_parent dp /\ d_next_sibling dp' = d_next_sibling dp /\ d_first_child dp' = if decide (e = None) then c else d_first_child dp) ->
  (forall x dx, e = Some x -> D !! x = Some dx -> exists dx', D' !! x = Some dx' /\ d_parent dx' = d_parent dx /\ d_next_sibling dx' = c /\ d_first_child dx' = d_first_child dx) ->
  forest D' (upd K p (K p ++ [c])).
Proof.
  intros HF Hp Hc Hn Hpc Hsame Hc' He Hp' He'. assert (D !! 0 = None) as H0 by apply HF.
  assert (forall x dx, x <> c -> Some x <> e -> D !! x = Some dx ->
    exists dx', D' !! x = Some dx' /\ d_parent dx' = d_parent dx /\ d_next_sibling dx' = d_next_sibling dx) as Hkeep.
  { intros x dx Hxc Hxe Hx. destruct (decide (x = p)) as [->|]; [|exists dx; by rewrite Hsame].
    destruct Hp' as (dp' & ? & ? & ? & _). exists dp'. split_and!; congruence. }
  assert (forall x, e = Some x -> x ∈ K p) as Hein by (intros x ->; by apply last_Some_elem_of).
  split.
  - intros d dd' Hd'. destruct (decide (d = p)) as [->|Hdp].
    + rewrite upd_eq. destruct Hp' as (dp' & Hp' & _ & _ & Hf). rewrite Hp' in Hd'. apply (inj Some) in Hd'. subst dd'. rewrite Hf.
      destruct Hc' as (dc' & Hc' & Hpc' & Hnc' & _). destruct (last (K p)) as [x|] eqn:El.
      * rewrite decide_False by (by rewrite He). apply last_Some in El as [l El]. rewrite El.
        pose proof (fr_chain _ _ HF p dp Hp) as Hch. rewrite El in Hch. pose proof (fr_nodup _ _ HF p) as Hnd. rewrite El in Hnd.
        destruct (chain_elem _ _ _ _ x Hch) as (dx & Hx & Hxp); [set_solver|]. destruct (He' x dx He Hx) as (dx' & Hx' & Hxp' & Hxn & _).
        eapply chain_snoc; [exact Hch| |exists dx'; split_and!; congruence|by exists dc'].
        intros y dy Hy Hdy. apply Hkeep; [|rewrite He; intros [= ->]; by apply NoDup_app in Hnd as (_ & Hd & _); apply (Hd x Hy); left|done].
        intros ->. apply (Hn p). rewrite El. by apply elem_of_app; left.
      * rewrite decide_True by done. apply last_None in El. rewrite El. simpl. split; [done|]. exists dc'. split_and!; done.
    + rewrite upd_ne by done. assert (exists dd, D !! d = Some dd /\ d_first_child dd' = d_first_child dd) as (dd & Hd & Hfc).
      { destruct (decide (d = c)) as [->|Hdc]; [destruct Hc' as (dc' & Hc' & _ & _ & Hf); exists dc; split; [done|congruence]|].
        destruct (decide (Some d = e)) as [Ee|Ee]; [|exists dd'; by rewrite <- Hsame].
        destruct (kid_some D K HF p d) as (_ & dx & _ & Hx & _); [by apply Hein|].
        destruct (He' d dx (eq_sym Ee) Hx) as (dx' & Hx' & _ & _ & Hf). exists dx. split; [done|congruence]. }
      rewrite Hfc. eapply chain_ext; [by apply HF|]. intros x dx Hx Hdx. apply Hkeep; [|intros E|done].
      * intros ->. by apply (Hn d).
      * apply Hdp. symmetry. apply (kid_unique D K HF p d x); [by apply Hein|done].
  - intros d Hd. assert (d <> p) as Hdp by (intros ->; destruct Hp' as (? & ? & _); congruence). rewrite upd_ne by done. apply HF.
    destruct (decide (d = c)) as [->|Hdc]; [destruct Hc' as (? & ? & _); congruence|].
    destruct (decide (Some d = e)) as [Ee|Ee]; [|by rewrite <- Hsame].
    destruct (kid_some D K HF p d) as (_ & dx & _ & Hx & _); [by apply Hein|]. destruct (He' d dx (eq_sym Ee) Hx) as (? & ? & _). congruence.
  - intros d. destruct (decide (d = p)) as [->|]; [|rewrite upd_ne by done; apply HF]. rewrite upd_eq. apply NoDup_app. split_and!; [apply HF| |apply NoDup_singleton].
    intros x Hx ->%list_elem_of_singleton. by apply (Hn p).
  - rewrite Hsame; [done|intros E; by rewrite <- E, H0 in Hc|intros E; by rewrite <- E, H0 in Hp|]. intros E. destruct (kid_nonnull D K HF p 0); [by apply Hein|done].
  - intros d. destruct (decide (d = p)) as [->|]; [|rewrite upd_ne by done; apply HF]. rewrite upd_eq. intros [Hk|Hk%list_elem_of_singleton]%elem_of_app; [|done].
    by apply (fr_self _ _ HF p).
Qed.

Lemma add_child_ok s K p c dp dc :
  forest (fs_dentries s) K -> fs_dentries s !! p = Some dp -> fs_dentries s !! c = Some dc -> (forall q, c ∉ K q) -> p <> c ->
  d_next_sibling dc = 0 -> wp (vfs_add_child p c) (fun _ s' => attached s s' K p c) s.
Proof.
  intros HF Hp Hc Hn Hpc Hnext. unfold vfs_add_child. wp_step. wp_step. wp_step. wp_step. wp_step. eapply wp_dset; [exact Hc|].
  set (dc1 := set_d_parent p _). wp_step. eapply wp_dent; [simpl; by rewrite lookup_insert_ne|].
  set (D := fs_dentries s) in *. pose proof (fr_chain _ _ HF p dp Hp) as Hch.
  assert (D !! 0 = None) as H0 by apply HF. assert (0 ∉ K p) as H0k by (intros Hk; by destruct (kid_nonnull D K HF p 0 Hk)).
  assert (dkey <$> <[c := dc1]> D = dkey <$> D) as Ek by (by eapply key_update).
  assert (d_parent <$> <[c := dc1]> D = <[c := p]> (d_parent <$> D)) as Epar by (by rewrite fmap_insert).
  destruct (last (K p)) as [e|] eqn:El.
  - apply last_Some in El as Hl. destruct Hl as [l Hl]. rewrite Hl in Hch, H0k.
    assert (e ∈ K p) as Hek by (rewrite Hl; set_solver). destruct (kid_some D K HF p e Hek) as (_ & de & _ & He & Hep).
    assert (e <> c) as Hec by (intros ->; by apply (Hn p)).
    assert (d_first_child dp <> 0) as Hfc by (intros E; rewrite E in Hch; destruct l; destruct Hch as [<- _]; apply H0k; set_solver).
    rewrite (proj2 (Z.eqb_neq _ _) Hfc). wp_step. eapply (last_child_ok _ p _ l e).
    + simpl. eapply chain_ext; [exact Hch|]. intros x dx Hx Hdx. exists dx. rewrite lookup_insert_ne; [done|]. intros ->. apply (Hn p). by rewrite Hl.
    + done.
    + unfold dfuel. fold D. pose proof (kids_fuel D K HF p) as Hk. rewrite Hl, length_app in Hk. simpl in Hk. lia.
    + eapply wp_dset; [simpl; by rewrite lookup_insert_ne|]. unfold attached. cbn [fs_dentries set_fs_dentries set_fs_seq].
      assert (<[c := dc1]> D !! e = Some de) as He1 by by rewrite lookup_insert_ne.
      split_and!; [|rewrite (key_update _ e de) by done; done|rewrite (parent_update _ e de) by done; done|by split_and!].
      apply (forest_attach D _ K p c dp dc (Some e)); try done.
      * intros x Hxc Hxp Hxe. rewrite !lookup_insert_ne by congruence. done.
      * rewrite lookup_insert_ne, lookup_insert_eq by done. by exists dc1.
      * exists dp. rewrite !lookup_insert_ne; [done|done|]. intros ->. by apply (fr_self _ _ HF p).
      * intros x dx [= <-] Hx. rewrite lookup_insert_eq. eexists. split; [done|]. rewrite He in Hx. by injection Hx as <-.
  - apply last_None in El. rewrite El in Hch. simpl in Hch. rewrite Hch, Z.eqb_refl. eapply wp_dset; [simpl; by rewrite lookup_insert_ne|].
    unfold attached. cbn [fs_dentries set_fs_dentries set_fs_seq]. assert (<[c := dc1]> D !! p = Some dp) as Hp1 by by rewrite lookup_insert_ne.
    split_and!; [|rewrite (key_update _ p dp) by done; done|rewrite (parent_update _ p dp) by done; done|by split_and!].
    apply (forest_attach D _ K p c dp dc None); try done.
    + intros x Hxc Hxp _. by rewrite !lookup_insert_ne by done.
    + rewrite lookup_insert_ne, lookup_insert_eq by done. by exists dc1.
    + rewrite El. done.
    + rewrite lookup_insert_eq. eexists. split; [done|]. by rewrite decide_True.
Qed.

(** ** Taking one out *)

Lemma chain_at D p a l1 c l2 : chain D p a (l1 ++ c :: l2) -> exists dc, D !! c = Some dc /\ d_parent dc = p /\ chain D p (d_next_sibling dc) l2.
Proof. revert a; induction l1 as [|x l1 IH]; intros a; simpl; [intros (_ & dc & H); eauto|]. intros (_ & dx & _ & _ & H). eauto. Qed.

Definition same_links (D D' : gmap Z dentry) (x : Z) : Prop :=
  forall dx, D !! x = Some dx -> exists dx', D' !! x = Some dx' /\ d_parent dx' = d_parent dx /\ d_next_sibling dx' = d_next_sibling dx.

Lemma chain_cut D D' p a l1 c dc l2 :
  chain D p a (l1 ++ c :: l2) -> D !! c = Some dc -> (forall x, x ∈ l2 -> same_links D D' x) ->
  (forall x, x ∈ l1 -> last l1 <> Some x -> same_links D D' x) -> NoDup l1 ->
  (forall e, last l1 = Some e -> exists de, D' !! e = Some de /\ d_parent de = p /\ d_next_sibling de = d_next_sibling dc) ->
  chain D' p (if decide (l1 = []) then d_next_sibling dc else a) (l1 ++ l2).
Proof.
  intros Hch Hc H2. revert a Hch; induction l1 as [|x l1 IH]; intros a Hch H1 Hnd He.
  - destruct Hch as (-> & dc' & Hc' & _ & Hl). rewrite Hc in Hc'. injection Hc' as <-. simpl. eapply chain_ext; [exact Hl|]. intros y dy Hy. by apply H2.
  - apply NoDup_cons in Hnd as [Hx Hnd]. destruct Hch as (-> & dx & Hdx & Hxp & Hl). rewrite decide_False by done. simpl. split; [done|].
    destruct (decide (l1 = [])) as [->|Hl1].
    + destruct (He x) as (de & Hde & Hpe & Hne); [done|]. exists de. split; [done|]. split; [done|]. rewrite Hne.
      specialize (IH (d_next_sibling dx) Hl). apply IH; [by intros y ?%not_elem_of_nil|constructor|done].
    + assert (last (x :: l1) = last l1) as El by (destruct l1; done). rewrite El in H1, He.
      destruct (H1 x) with (dx := dx) as (dx' & Hx' & Hp' & Hn'); [left|intros [= E]|done|].
      { apply Hx. by apply last_Some_elem_of. }
      exists dx'. split; [done|]. split; [congruence|]. rewrite Hn'. specialize (IH (d_next_sibling dx) Hl).
      apply IH; [|done|done]. intros y Hy. apply H1. by right.
Qed.

Lemma forest_detach D D' K p c dp dc l1 l2 :
  forest D K -> K p = l1 ++ c :: l2 -> D !! p = Some dp -> D !! c = Some dc ->
  (forall x, x <> c -> x <> p -> last l1 <> Some x -> D' !! x = D !! x) ->
  (exists dc', D' !! c = Some dc' /\ d_first_child dc' = d_first_child dc) ->
  (exists dp', D' !! p = Some dp' /\ d_parent dp' = d_parent dp /\ d_next_sibling dp' = d_next_sibling dp
    /\ d_first_child dp' = if decide (l1 = []) then d_next_sibling dc else d_first_child dp) ->
  (forall e de, last l1 = Some e -> D !! e = Some de ->
    exists de', D' !! e = Some de' /\ d_parent de' = d_parent de /\ d_next_sibling de' = d_next_sibling dc /\ d_first_child de' = d_first_child de) ->
  forest D' (upd K p (l1 ++ l2)).
Proof.
  intros HF HK Hp Hc Hsame Hc' Hp' He'. pose proof (fr_nodup _ _ HF p) as Hnd. rewrite HK in Hnd. apply NoDup_app in Hnd as (Hnd1 & Hd & Hnd2).
  apply NoDup_cons in Hnd2 as [Hc2 Hnd2].
  assert (c ∈ K p) as Hck by (rewrite HK; set_solver). assert (forall e, last l1 = Some e -> e ∈ K p) as Hein.
  { intros e He. rewrite HK. apply elem_of_app. left. by apply last_Some_elem_of. }
  assert (p <> c) as Hpc by (intros ->; by apply (fr_self _ _ HF c)).
  assert (forall x, x <> c -> last l1 <> Some x -> same_links D D' x) as Hkeep.
  { intros x Hxc Hxe dx Hx. destruct (decide (x = p)) as [->|]; [|exists dx; by rewrite Hsame].
    destruct Hp' as (dp' & ? & ? & ? & _). exists dp'. split_and!; congruence. }
  split.
  - intros d dd' Hd'. destruct (decide (d = p)) as [->|Hdp].
    + rewrite upd_eq. destruct Hp' as (dp' & Hp' & _ & _ & Hf). rewrite Hp' in Hd'. apply (inj Some) in Hd'. subst dd'. rewrite Hf.
      pose proof (fr_chain _ _ HF p dp Hp) as Hch. rewrite HK in Hch. eapply chain_cut; [exact Hch|exact Hc| | |done|].
      * intros x Hx. apply Hkeep; [by intros ->|]. intros Hl%last_Some_elem_of. apply (Hd x Hl). by right.
      * intros x Hx Hl. apply Hkeep; [|done]. intros ->. apply (Hd c Hx). left.
      * intros e He. destruct (kid_some D K HF p e (Hein e He)) as (_ & de & _ & Hde & Hpe).
        destruct (He' e de He Hde) as (de' & ? & ? & ? & _). exists de'. split_and!; congruence.
    + rewrite upd_ne by done. assert (exists dd, D !! d = Some dd /\ d_first_child dd' = d_first_child dd) as (dd & Hdd & Hfc).
      { destruct (decide (d = c)) as [->|Hdc]; [destruct Hc' as (dc' & Hc' & Hf); exists dc; split; [done|congruence]|].
        destruct (decide (last l1 = Some d)) as [Ee|Ee]; [|exists dd'; by rewrite <- Hsame].
        destruct (kid_some D K HF p d (Hein d Ee)) as (_ & dx & _ & Hx & _). destruct (He' d dx Ee Hx) as (dx' & Hx' & _ & _ & Hf). exists dx. split; [done|congruence]. }
      rewrite Hfc. eapply chain_ext; [by apply HF|]. intros x dx Hx. apply Hkeep; [intros ->|intros E];
        apply Hdp; symmetry; eapply (kid_unique D K HF p d); [exact Hck|done|by apply Hein|done].
  - intros d Hdn. assert (d <> p) as Hdp by (intros ->; destruct Hp' as (? & ? & _); congruence). rewrite upd_ne by done. apply HF.
    destruct (decide (d = c)) as [->|Hdc]; [destruct Hc' as (? & ? & _); congruence|].
    destruct (decide (last l1 = Some d)) as [Ee|Ee]; [|by rewrite <- Hsame].
    destruct (kid_some D K HF p d (Hein d Ee)) as (_ & dx & _ & Hx & _). destruct (He' d dx Ee Hx) as (? & ? & _). congruence.
  - intros d. destruct (decide (d = p)) as [->|]; [|rewrite upd_ne by done; apply HF]. rewrite upd_eq. apply NoDup_app. split_and!; [done| |done].
    intros x Hx Hx2. apply (Hd x Hx). by right.
  - pose proof (fr_null _ _ HF) as H0. rewrite Hsame; [done|intros E; by rewrite <- E, H0 in Hc|intros E; by rewrite <- E, H0 in Hp|].
    intros E. by destruct (kid_nonnull D K HF p 0 (Hein 0 E)).
  - intros d. destruct (decide (d = p)) as [->|]; [|rewrite upd_ne by done; apply HF]. rewrite upd_eq. intros Hk. apply (fr_self _ _ HF p). rewrite HK.
    apply elem_of_app in Hk as [?|?]; apply elem_of_app; [by left|right; by right].
Qed.

(** The list of children before and after [c]. *)
Definition detached (s s' : fs) (K : Z -> list Z) (p c : Z) : Prop :=
  exists l1 l2, K p = l1 ++ c :: l2 /\ forest (fs_dentries s') (upd K p (l1 ++ l2)) /\ dkey <$> fs_dentries s' = dkey <$> fs_dentries s
  /\ d_parent <$> fs_dentries s' = d_parent <$> fs_dentries s /\ fs_seq s' = fs_seq s /\ rest_d s s'
  /\ exists dc, fs_dentries s' !! c = Some dc /\ d_next_sibling dc = 0.

Lemma unlink_child_ok s p prev a l1 c l2 nxt dp fuel (Q : unit -> fs -> Prop) :
  chain (fs_dentries s) p a (l1 ++ c :: l2) -> c ∉ l1 -> 0 ∉ l1 -> (length l1 < fuel)%nat -> fs_dentries s !! p = Some dp ->
  (prev <> 0 -> is_Some (fs_dentries s !! prev)) ->
  (default prev (last l1) = 0 -> Q tt (set_fs_dentries (<[p := set_d_first_child nxt dp]> (fs_dentries s)) s)) ->
  (forall e de, default prev (last l1) = e -> e <> 0 -> fs_dentries s !! e = Some de -> Q tt (set_fs_dentries (<[e := set_d_next_sibling nxt de]> (fs_dentries s)) s)) ->
  wp (unlink_child fuel p prev a c nxt) Q s.
Proof.
  intros Hch. revert prev a fuel Hch; induction l1 as [|x l1 IH]; intros prev a fuel Hch Hc H0 Hf Hp Hprev HQ0 HQ1;
    (destruct fuel as [|fuel]; [simpl in Hf; lia|]); cbn [unlink_child].
  - destruct Hch as (-> & _). rewrite Z.eqb_refl. destruct (Z.eqb_spec prev 0) as [->|Hpn].
    + eapply wp_dset; [exact Hp|]. by apply HQ0.
    + destruct (Hprev Hpn) as [de He]. eapply wp_dset; [exact He|]. by apply HQ1.
  - destruct Hch as (-> & dx & Hx & _ & Hl). apply not_elem_of_cons in Hc as [Hcx Hc]. apply not_elem_of_cons in H0 as [Hx0 H0].
    rewrite (proj2 (Z.eqb_neq x c)) by congruence. wp_step. eapply wp_dent; [exact Hx|].
    assert (default x (last l1) = default prev (last (x :: l1))) as El by (destruct l1 as [|y l1]; [done|simpl; by destruct (last (y :: l1)) eqn:E; [|apply last_None in E]]).
    eapply (IH x); [exact Hl|done|done|simpl in Hf; lia|done|eauto|rewrite El; done|rewrite El; done].
Qed.

Lemma detach_ok s K p c :
  forest (fs_dentries s) K -> c ∈ K p -> wp (detach c) (fun _ s' => detached s s' K p c) s.
Proof.
  intros HF Hk. set (D := fs_dentries s). destruct (kid_some D K HF p c Hk) as (dp & dc & Hp & Hc & Hpar).
  destruct (kid_nonnull D K HF p c Hk) as [Hc0 Hp0]. apply list_elem_of_split in Hk as (l1 & l2 & HK).
  pose proof (fr_nodup _ _ HF p) as Hnd. rewrite HK in Hnd. apply NoDup_app in Hnd as (Hnd1 & Hd & _).
  assert (forall x, x ∈ l1 -> x ∈ K p) as Hin by (intros x Hx; rewrite HK; apply elem_of_app; by left).
  assert (p <> c) as Hpc by (intros ->; apply (fr_self _ _ HF c); rewrite HK; set_solver).
  unfold detach. wp_step. eapply wp_dent; [exact Hc|]. wp_step. rewrite Hpar. eapply wp_dent; [exact Hp|]. wp_step. wp_step. wp_step.
  eapply (unlink_child_ok s p 0 _ l1 c l2 _ dp).
  - pose proof (fr_chain _ _ HF p dp Hp) as Hch. by rewrite HK in Hch.
  - intros Hx. apply (Hd c Hx). left.
  - intros Hx. by destruct (kid_nonnull D K HF p 0 (Hin 0 Hx)).
  - unfold dfuel. fold D. pose proof (kids_fuel D K HF p) as Hl. rewrite HK, length_app in Hl. simpl in Hl. lia.
  - exact Hp.
  - done.
  - intros Hl1. destruct (last l1) as [e|] eqn:El; simpl in Hl1.
    { subst e. apply last_Some_elem_of in El. by destruct (kid_nonnull D K HF p 0 (Hin 0 El)). }
    apply last_None in El. subst l1. eapply wp_dset; [simpl; by rewrite lookup_insert_ne|]. exists [], l2. fold D. cbn [fs_dentries set_fs_dentries fs_seq].
    assert (<[p := set_d_first_child (d_next_sibling dc) dp]> D !! c = Some dc) as Hc1 by by rewrite lookup_insert_ne.
    split_and!; [done| | | |done|by split_and!|eexists; split; [apply lookup_insert_eq|done]].
    + apply (forest_detach D _ K p c dp dc [] l2); try done; [intros x Hxc Hxp _; by rewrite !lookup_insert_ne by done|eexists; split; [apply lookup_insert_eq|done]|].
      rewrite lookup_insert_ne, lookup_insert_eq by done. eexists. split_and!; done.
    + rewrite (key_update _ c dc), (key_update _ p dp) by done. done.
    + rewrite (parent_update _ c dc), (parent_update _ p dp) by done. done.
  - intros e de Hl1 He0 He. destruct (last l1) as [e'|] eqn:El; simpl in Hl1; [|done]. subst e'. assert (e ∈ l1) as Hel by by apply last_Some_elem_of.
    assert (e <> c) as Hec by (intros ->; apply (Hd c Hel); left). assert (e <> p) as Hep by (intros ->; by apply (fr_self _ _ HF p), Hin).
    eapply wp_dset; [simpl; by rewrite lookup_insert_ne|]. exists l1, l2. fold D in He |- *. cbn [fs_dentries set_fs_dentries fs_seq].
    assert (<[e := set_d_next_sibling (d_next_sibling dc) de]> D !! c = Some dc) as Hc1 by by rewrite lookup_insert_ne.
    split_and!; [done| | | |done|by split_and!|eexists; split; [apply lookup_insert_eq|done]].
    + apply (forest_detach D _ K p c dp dc l1 l2); try done.
      * intros x Hxc Hxp Hxe. by rewrite !lookup_insert_ne by congruence.
      * eexists; split; [apply lookup_insert_eq|done].
      * exists dp. rewrite !lookup_insert_ne by done. split_and!; try done. rewrite decide_False; [done|]. intros ->. done.
      * intros e1 de1 E1 He1. rewrite El in E1. injection E1 as <-. rewrite He in He1. injection He1 as <-.
        rewrite lookup_insert_ne, lookup_insert_eq by done. eexists. split_and!; done.
    + rewrite (key_update _ c dc), (key_update _ e de) by done. done.
    + rewrite (parent_update _ c dc), (parent_update _ e de) by done. done.
Qed.

(** ** New dentries and freed ones *)

Lemma forest_new D K d dd : forest D K -> D !! d = None -> d <> 0 -> d_first_child dd = 0 -> forest (<[d := dd]> D) K /\ forall q, d ∉ K q.
Proof.
  intros HF Hd Hd0 Hfc. assert (forall q, d ∉ K q) as Hq by (intros q Hk; destruct (kid_some D K HF q d Hk) as (_ & dc & _ & Hc & _); congruence).
  assert (K d = []) as Kd by by apply HF. split; [|done]. split; try apply HF.
  - intros e de. destruct (decide (e = d)) as [->|He]; [rewrite lookup_insert_eq; intros [= <-]; rewrite Kd; done|]. rewrite lookup_insert_ne by done. intros Hde.
    eapply chain_ext; [by apply HF|]. intros x dx Hx Hdx. exists dx. rewrite lookup_insert_ne; [done|]. intros ->. by apply (Hq e).
  - intros e. destruct (decide (e = d)) as [->|He]; [by rewrite lookup_insert_eq|]. rewrite lookup_insert_ne by done. apply HF.
  - rewrite lookup_insert_ne by done. apply HF.
Qed.

Lemma forest_free D K d : forest D K -> K d = [] -> (forall q, d ∉ K q) -> forest (delete d D) K.
Proof.
  intros HF Kd Hq. split; try apply HF.
  - intros e de [He Hde]%lookup_delete_Some. eapply chain_ext; [by apply HF|]. intros x dx Hx Hdx. exists dx. rewrite lookup_delete_ne; [done|]. intros ->. by apply (Hq e).
  - intros e. destruct (decide (e = d)) as [->|He]; [done|]. rewrite lookup_delete_ne by done. apply HF.
  - destruct (decide (0 = d)) as [<-|]; [apply lookup_delete_eq|]. rewrite lookup_delete_ne by done. apply HF.
Qed.

(** A name is nothing to the lists. *)
Lemma forest_rename D K d dd name : forest D K -> D !! d = Some dd -> forest (<[d := set_d_name name dd]> D) K.
Proof.
  intros HF Hd. split; try apply HF.
  - intros e de He. assert (exists de0, D !! e = Some de0 /\ d_first_child de = d_first_child de0) as (de0 & He0 & ->).
    { destruct (decide (e = d)) as [->|Hne]; [rewrite lookup_insert_eq in He; injection He as <-; by exists dd|]. rewrite lookup_insert_ne in He by done. eauto. }
    eapply chain_ext; [by apply HF|]. intros x dx Hx Hdx. destruct (decide (x = d)) as [->|]; [|exists dx; by rewrite lookup_insert_ne].
    rewrite lookup_insert_eq. eexists. split; [done|]. rewrite Hd in Hdx. by injection Hdx as <-.
  - intros e. destruct (decide (e = d)) as [->|He]; [by rewrite lookup_insert_eq|]. rewrite lookup_insert_ne by done. apply HF.
  - rewrite lookup_insert_ne; [apply HF|]. intros ->. by rewrite (fr_null _ _ HF) in Hd.
Qed.
