(* ===== verification/Ramfs.v ===== *)
(** * The RAM file system: src/src/kernel/vfs/ramfs.c

    Files and symlinks keep their bytes in a ramfs_file_data_t, whose buffer
    grows by whole pages; directories are dentry lists. *)
From S2P Require Import Prelude Types UserMem Cred Pmm Pipe VfsState.

Notation RAMFS_DEV := 1 (only parsing).

(** ** Buffers: memcpy and memset within an object *)

Definition slice (data : list Z) (off n : Z) : option (list Z) :=
  if (0 <=? off) && (0 <=? n) && (off + n <=? Z.of_nat (length data)) then Some (take (Z.to_nat n) (drop (Z.to_nat off) data)) else None.

Definition blit (data : list Z) (off : Z) (src : list Z) : option (list Z) :=
  if (0 <=? off) && (off + Z.of_nat (length src) <=? Z.of_nat (length data))
  then Some (take (Z.to_nat off) data ++ src ++ drop (Z.to_nat off + length src) data) else None.

Definition zeros (n : Z) : list Z := replicate (Z.to_nat n) 0.

(** The bytes of a buffer; NULL has none. *)
Definition bytes_of (f : ramfs_data) : list Z := default [] (fd_data f).

(** ** Operations *)

Definition ramfs_read (n off size_ : Z) : M fs (Z * list Z) :=
  x ← ino n;
  if is_dir x then mret (- EISDIR, []) else
  match i_ptr x with
  | PNull => mret (0, [])
  | PData f =>
      if fd_size f <=? off then mret (0, []) else
      let k := if fd_size f - off <? size_ then fd_size f - off else size_ in
      bs ← lift (slice (bytes_of f) off k);
      mret (k, bs)
  | _ => fault
  end.

(** The file's data, made on first use; [None] if that fails. *)
Definition file_data (n : Z) : M fs (option ramfs_data) :=
  x ← ino n;
  match i_ptr x with
  | PNull =>
      b ← k_alloc;
      if b =? 0 then mret None else
      let f := MkData None 0 0 in
      _ ← iset n (set_i_ptr (PData f));
      mret (Some f)
  | PData f => mret (Some f)
  | _ => fault
  end.

Definition reserve (n size_ : Z) : M fs Z :=
  o ← file_data n;
  match o with
  | None => mret (- ENOMEM)
  | Some f =>
      if size_ <=? fd_capacity f then mret 0 else
      let cap := u32 (align_up_page size_) in
      b ← (if cap =? 0 then mret 0 else k_alloc);
      if b =? 0 then mret (- ENOMEM) else
      old ← lift (slice (bytes_of f) 0 (fd_size f));
      data ← lift (blit (zeros cap) 0 old);
      _ ← iset n (set_i_ptr (PData (MkData (Some data) (fd_size f) cap)));
      mret 0
  end.

(** The data once reserve has succeeded. *)
Definition data_at (n : Z) : M fs ramfs_data :=
  x ← ino n; match i_ptr x with PData f => mret f | _ => fault end.

Definition with_bytes (f : ramfs_data) (bs : list Z) (size_ : Z) : ramfs_data :=
  MkData (match fd_data f with Some _ => Some bs | None => None end) size_ (fd_capacity f).

(** New data: the size shows in the inode, and the times change. *)
Definition put_data (n : Z) (f : ramfs_data) : M fs unit :=
  _ ← iset n (fun x => set_i_length (fd_size f) (set_i_ptr (PData f) x));
  vfs_touch n (Z.lor VFS_MTIME VFS_CTIME).

Definition ramfs_write (n off : Z) (src : list Z) : M fs Z :=
  x ← ino n;
  let size_ := Z.of_nat (length src) in
  let end_ := u32 (off + size_) in
  if is_dir x then mret (- EISDIR)
  else if end_ <? off then mret (- EINVAL)
  else
    err ← reserve n end_;
    if err <? 0 then mret err else
    f ← data_at n;
    bs ← lift (if fd_size f <? off then blit (bytes_of f) (fd_size f) (zeros (off - fd_size f)) else Some (bytes_of f));
    bs ← lift (blit bs off src);
    _ ← put_data n (with_bytes f bs (if fd_size f <? end_ then end_ else fd_size f));
    mret size_.

Definition ramfs_truncate (n length_ : Z) : M fs Z :=
  err ← reserve n length_;
  if err <? 0 then mret err else
  f ← data_at n;
  bs ← lift (if length_ <? fd_size f then blit (bytes_of f) length_ (zeros (fd_size f - length_)) else Some (bytes_of f));
  _ ← put_data n (with_bytes f bs length_);
  mret 0.

Definition ramfs_destroy (n : Z) : M fs unit := _ ← ino n; ifree n.

Definition new_inode (now ino_ type mode dev : Z) : inode :=
  let dir := type =? VFS_DIRECTORY in
  MkInode "" type ino_ 0 (Z.land mode 4095) 0 0 1 0 dev 0 now now now
    (Some DRamfs) (if dir then None else Some DRamfs) (if dir then Some DDentry else None) None
    (if dir then None else Some DRamfs) None None (Some DRamfs) None None None PNull.

Definition ramfs_inode (type mode dev : Z) : M fs Z :=
  n ← k_alloc;
  if n =? 0 then mret 0 else
  s ← get;
  _ ← iput_at n (new_inode (fs_now s) (fs_ino s) type mode dev);
  _ ← modify (set_fs_ino (u32 (fs_ino s + 1)));
  mret n.

(** strcpy into a name: longer ones overrun it. *)
Definition name_fits (name : string) : bool := Z.of_nat (String.length name) <=? NAME_MAX.

(** The dentry of a directory (or a fault if it has lost it). *)
Definition dir_dentry (dir : Z) : M fs Z := x ← ino dir; match i_ptr x with PDentry d => mret d | _ => fault end.

Definition ramfs_create (dir : Z) (name : string) (type mode : Z) : M fs Z :=
  dn ← ino dir;
  n ← ramfs_inode type mode (i_dev dn);
  d ← k_alloc;
  if (n =? 0) || (d =? 0) then _ ← when (negb (n =? 0)) (ifree n); mret 0
  else if negb (name_fits name) then fault
  else
    _ ← dput_at d (MkDentry name n 0 0 0 0);
    _ ← iset n (fun x => if type =? VFS_DIRECTORY then set_i_create (Some DRamfs) (set_i_ptr (PDentry d) (set_i_name name x)) else set_i_name name x);
    p ← dir_dentry dir;
    _ ← vfs_add_child p d;
    mret n.

(** A new, empty instance: its root directory's dentry. *)
Definition ramfs_init (dev mode : Z) : M fs Z :=
  root ← ramfs_inode VFS_DIRECTORY mode dev;
  d ← k_alloc;
  if (root =? 0) || (d =? 0) then mret 0 else
  _ ← dput_at d (MkDentry "/" root 0 0 0 0);
  _ ← iset root (fun x => set_i_create (Some DRamfs) (set_i_ptr (PDentry d) (set_i_name "/" x)));
  mret d.

(** ** Contents *)

Record file_ok (f : ramfs_data) : Prop := {
  fo_capacity : fd_capacity f = Z.of_nat (length (bytes_of f));
  fo_bound : fd_capacity f < 2 ^ 32;
  fo_size : 0 <= fd_size f <= fd_capacity f;
  fo_tail : forall i b, fd_size f <= Z.of_nat i -> bytes_of f !! i = Some b -> b = 0;
  fo_bytes : Forall byte (bytes_of f);
}.

(** What a reader sees. *)
Definition content (f : ramfs_data) : list Z := take (Z.to_nat (fd_size f)) (bytes_of f).

Definition content_of (x : inode) : list Z := match i_ptr x with PData f => content f | _ => [] end.

(** A regular file or symlink of the ramfs. *)
Definition data_ok (x : inode) : Prop :=
  is_dir x = false /\ match i_ptr x with
                      | PNull => i_length x = 0
                      | PData f => file_ok f /\ i_length x = fd_size f
                      | _ => False
                      end.

(** Cut or padded with zeros to [n] bytes; overwritten at [off]. *)
Definition resize_to (c : list Z) (n : Z) : list Z := take (Z.to_nat n) c ++ zeros (n - Z.of_nat (length c)).
Definition pwrite (c : list Z) (off : Z) (src : list Z) : list Z :=
  resize_to c off ++ src ++ drop (Z.to_nat off + length src) c.

Lemma length_zeros n : length (zeros n) = Z.to_nat n.
Proof. apply length_replicate. Qed.

Lemma blit_ok data off src :
  0 <= off -> off + Z.of_nat (length src) <= Z.of_nat (length data) ->
  exists data', blit data off src = Some data' /\ length data' = length data
    /\ forall i, data' !! i = if decide (off <= Z.of_nat i < off + Z.of_nat (length src)) then src !! (i - Z.to_nat off)%nat else data !! i.
Proof.
  intros H0 Hl. unfold blit. rewrite (proj2 (Z.leb_le 0 off)), (proj2 (Z.leb_le _ _) Hl) by lia. cbn [andb]. eexists. split; [done|]. split.
  - rewrite !length_app, length_take, length_drop. lia.
  - intros i. case_decide as Hd.
    + rewrite lookup_app_r by (rewrite length_take; lia). rewrite lookup_app_l by (rewrite length_take; lia). f_equal. rewrite length_take. lia.
    + destruct (Z.lt_ge_cases (Z.of_nat i) off).
      * rewrite lookup_app_l by (rewrite length_take; lia). by rewrite lookup_take_lt by lia.
      * rewrite lookup_app_r by (rewrite length_take; lia). rewrite lookup_app_r by (rewrite length_take; lia). rewrite lookup_drop, length_take. f_equal. lia.
Qed.

Lemma blit_bytes data off src data' : blit data off src = Some data' -> Forall byte data -> Forall byte src -> Forall byte data'.
Proof. unfold blit. destruct (_ && _); [|done]. intros [= <-] Hd Hs. rewrite !Forall_app. split_and!; [by apply Forall_take|done|by apply Forall_drop]. Qed.

Lemma zeros_bytes n : Forall byte (zeros n).
Proof. apply Forall_replicate. unfold byte. lia. Qed.

Lemma slice_ok data off n : 0 <= off -> 0 <= n -> off + n <= Z.of_nat (length data) -> slice data off n = Some (take (Z.to_nat n) (drop (Z.to_nat off) data)).
Proof. intros. unfold slice. by rewrite !(proj2 (Z.leb_le _ _)) by lia. Qed.

Lemma length_content f : file_ok f -> length (content f) = Z.to_nat (fd_size f).
Proof. intros Hf. unfold content. rewrite length_take. pose proof (fo_capacity f Hf). pose proof (fo_size f Hf). lia. Qed.

Lemma content_bytes x : data_ok x -> Forall byte (content_of x).
Proof. unfold content_of. intros [_ H]. destruct (i_ptr x) as [| |f|]; try constructor. apply Forall_take, fo_bytes, H. Qed.

Lemma content_lookup f i : file_ok f -> content f !! i = if decide (Z.of_nat i < fd_size f) then bytes_of f !! i else None.
Proof.
  intros Hf. unfold content. pose proof (fo_size f Hf). case_decide; [by rewrite lookup_take_lt by lia|]. apply lookup_take_ge. lia.
Qed.

(** Beyond the size the buffer holds zeros, up to its capacity. *)
Lemma bytes_lookup f i : file_ok f -> bytes_of f !! i = if decide (Z.of_nat i < fd_size f) then content f !! i else if decide (Z.of_nat i < fd_capacity f) then Some 0 else None.
Proof.
  intros Hf. rewrite content_lookup by done. destruct (decide (Z.of_nat i < fd_size f)); [done|]. case_decide.
  - destruct (lookup_lt_is_Some_2 (bytes_of f) i) as [b Hb]; [rewrite (fo_capacity f Hf) in *; lia|]. rewrite Hb. f_equal. apply (fo_tail f Hf i); [lia|done].
  - apply lookup_ge_None_2. rewrite (fo_capacity f Hf) in *. lia.
Qed.

Lemma resize_lookup c n i : 0 <= n -> resize_to c n !! i = if decide (Z.of_nat i < n) then Some (default 0 (c !! i)) else None.
Proof.
  intros Hn. unfold resize_to. destruct (decide (i < length c)%nat) as [Hl|Hl].
  - destruct (lookup_lt_is_Some_2 c i Hl) as [b Hb]. rewrite Hb. simpl. case_decide.
    + rewrite lookup_app_l by (rewrite length_take; lia). by rewrite lookup_take_lt by lia.
    + apply lookup_ge_None_2. rewrite length_app, length_take, length_zeros. lia.
  - rewrite (lookup_ge_None_2 c i) by lia. simpl. case_decide.
    + rewrite lookup_app_r by (rewrite length_take; lia). unfold zeros. rewrite lookup_replicate_2; [done|]. rewrite length_take. lia.
    + apply lookup_ge_None_2. rewrite length_app, length_take, length_zeros. lia.
Qed.

Lemma length_resize c n : 0 <= n -> length (resize_to c n) = Z.to_nat n.
Proof. intros Hn. unfold resize_to. rewrite length_app, length_take, length_zeros. lia. Qed.

Lemma pwrite_lookup c off src i :
  0 <= off -> pwrite c off src !! i =
    if decide (Z.of_nat i < off) then Some (default 0 (c !! i))
    else if decide (Z.of_nat i < off + Z.of_nat (length src)) then src !! (i - Z.to_nat off)%nat else c !! i.
Proof.
  intros Ho. unfold pwrite. repeat case_decide.
  - rewrite lookup_app_l by (rewrite length_resize; lia). rewrite resize_lookup, decide_True by lia. done.
  - rewrite lookup_app_r by (rewrite length_resize; lia). rewrite lookup_app_l by (rewrite length_resize; lia). by rewrite length_resize.
  - rewrite lookup_app_r by (rewrite length_resize; lia). rewrite lookup_app_r by (rewrite length_resize; lia). rewrite lookup_drop, length_resize by lia. f_equal. lia.
Qed.

(** ** The operations on contents *)

Lemma empty_file_ok : file_ok (MkData None 0 0).
Proof. split; simpl; [done|lia|lia|done|constructor]. Qed.

Lemma reserve_ok s n x size_ :
  fs_inodes s !! n = Some x -> data_ok x -> 0 <= size_ < 2 ^ 32 ->
  wp (reserve n size_) (fun r s' => exists p, let x' := set_i_ptr p x in only_i n x' s s' /\ data_ok x' /\ content_of x' = content_of x
    /\ (r = - ENOMEM \/ r = 0 /\ exists f, p = PData f /\ size_ <= fd_capacity f)) s.
Proof.
  intros Hn [Hd Hx] Hsz. unfold reserve. wp_step.
  eapply (wp_mono _ (fun o s1 => exists p, let x1 := set_i_ptr p x in only_i n x1 s s1 /\ data_ok x1 /\ content_of x1 = content_of x
    /\ match o with None => True | Some f => p = PData f end)).
  { unfold file_data. wp_step. eapply wp_ino; [done|]. destruct (i_ptr x) as [|d|f|d] eqn:Ep; try done.
    - wp_step. apply wp_k_alloc; intros l.
      + rewrite Z.eqb_refl. wp_steps. exists PNull. assert (set_i_ptr PNull x = x) as Ex by (rewrite <- Ep; by destruct x). simpl. rewrite Ex.
        split_and!; [split; [by rewrite insert_id|apply rest_alloc]|split; [done|by rewrite Ep]|done|done].
      + destruct (Z.eqb_spec (fs_block s) 0); cbv iota zeta.
        * wp_steps. exists PNull. assert (set_i_ptr PNull x = x) as Ex by (rewrite <- Ep; by destruct x). simpl. rewrite Ex.
          split_and!; [split; [by rewrite insert_id|apply rest_alloc]|split; [done|by rewrite Ep]|done|done].
        * wp_step. eapply wp_iset; [done|]. wp_steps. exists (PData (MkData None 0 0)). simpl. split_and!; [| |unfold content_of; simpl; by rewrite Ep|done].
          -- split; [done|]. etransitivity; [apply (proj2 (rest_alloc s l))|]. exact (proj2 (only_i_set n _ _)).
          -- split; [done|]. simpl. split; [apply empty_file_ok|done].
    - wp_steps. exists (PData f). assert (set_i_ptr (PData f) x = x) as Ex by (rewrite <- Ep; by destruct x). simpl. rewrite Ex.
      split_and!; [by apply only_i_refl|split; [done|by rewrite Ep]|done|done]. }
  intros o s1 (p & Ho1 & Hok1 & Hc1 & Hp). destruct o as [f|]; [|wp_steps; exists p; split_and!; auto]. subst p.
  set (x1 := set_i_ptr (PData f) x) in *. assert (file_ok f) as Hf by apply Hok1.
  destruct (Z.leb_spec size_ (fd_capacity f)) as [Hle|Hgt]; [wp_steps; exists (PData f); split_and!; eauto|].
  pose proof (fo_size f Hf). pose proof (fo_bound f Hf). pose proof (fo_capacity f Hf) as Hcap.
  assert (size_ <= align_up_page size_ <= 2 ^ 32) as Hal by (rewrite align_up_eq by lia; lia_div).
  wp_step. eapply (wp_mono _ (fun b s2 => fs_inodes s2 = fs_inodes s1 /\ rest_i s1 s2 /\ (b <> 0 -> u32 (align_up_page size_) = align_up_page size_))).
  { assert (u32 (align_up_page size_) <> 0 -> u32 (align_up_page size_) = align_up_page size_) as Hcp by (unfold u32; lia_div).
    destruct (Z.eqb_spec (u32 (align_up_page size_)) 0) as [E|E]; [by wp_steps|]. apply wp_k_alloc; intros l; split_and!; try done; try apply rest_alloc; auto. }
  intros b s2 (Ei2 & Hr2 & Hb). assert (only_i n x1 s s2) as Ho2 by (destruct Ho1 as [? ?]; split; [congruence|by transitivity s1]).
  destruct (Z.eqb_spec b 0) as [|Hb0]; [wp_steps; exists (PData f); split_and!; auto|]. rewrite (Hb Hb0). set (cap := align_up_page size_) in *.
  wp_step. eapply wp_lift; [apply slice_ok; lia|]. rewrite drop_0. fold (content f).
  destruct (blit_ok (zeros cap) 0 (content f)) as (data & Hdata & Hlen & Hlk); [done|rewrite length_content, length_zeros by done; lia|].
  rewrite length_zeros in Hlen. wp_step. eapply wp_lift; [exact Hdata|]. wp_step. eapply wp_iset; [by eapply only_i_lookup|]. wp_steps.
  set (f' := MkData (Some data) (fd_size f) cap). assert (content f' = content f) as Ec.
  { apply list_eq. intros i. unfold content at 1. simpl. destruct (decide (Z.of_nat i < fd_size f)).
    - rewrite lookup_take_lt by lia. rewrite Hlk, decide_True by (rewrite length_content by done; lia). by rewrite Nat.sub_0_r.
    - rewrite lookup_take_ge by lia. rewrite content_lookup by done. by rewrite decide_False by lia. }
  assert (file_ok f') as Hf'.
  { split; unfold bytes_of; simpl; [lia| |lia| |by eapply blit_bytes; [exact Hdata|apply zeros_bytes|apply Forall_take, fo_bytes]].
    - assert (cap <> 2 ^ 32); [|lia]. intros E. specialize (Hb Hb0). rewrite E in Hb. done.
    - intros i c Hi. rewrite Hlk, decide_False by (rewrite length_content by done; lia). unfold zeros. by intros [-> _]%lookup_replicate. }
  exists (PData f'). split_and!; [|split; [done|split; [done|apply Hok1]]| |right; split; [done|]; exists f'; split; [done|simpl; lia]].
  - eapply only_i_trans; [exact Ho2|]. replace (set_i_ptr (PData f') x) with (set_i_ptr (PData f') x1) by by destruct x. apply only_i_set.
  - unfold content_of at 1. simpl. rewrite Ec. exact Hc1.
Qed.

Lemma bytes_with f bs size_ : length bs = length (bytes_of f) -> bytes_of (with_bytes f bs size_) = bs.
Proof. unfold bytes_of, with_bytes. simpl. destruct (fd_data f); [done|]. simpl. intros Hl. by destruct bs. Qed.

(** New bytes and a new size, with zeros beyond it. *)
Lemma with_bytes_ok f bs size_ :
  file_ok f -> length bs = length (bytes_of f) -> 0 <= size_ <= fd_capacity f ->
  (forall i b, size_ <= Z.of_nat i -> bs !! i = Some b -> b = 0) -> Forall byte bs -> file_ok (with_bytes f bs size_).
Proof.
  intros Hf Hl Hs Ht Hbs. split.
  - rewrite bytes_with, Hl by done. simpl. apply Hf.
  - apply Hf.
  - done.
  - rewrite bytes_with by done. exact Ht.
  - by rewrite bytes_with.
Qed.

Lemma wp_data_at s n x f (Q : ramfs_data -> fs -> Prop) : fs_inodes s !! n = Some x -> i_ptr x = PData f -> Q f s -> wp (data_at n) Q s.
Proof. intros Hn Hp HQ. unfold data_at. wp_step. eapply wp_ino; [done|]. rewrite Hp. by wp_steps. Qed.

Lemma wp_touch s n x which (Q : unit -> fs -> Prop) :
  fs_inodes s !! n = Some x -> Q tt (set_fs_inodes (<[n := touched (fs_now s) which x]> (fs_inodes s)) s) -> wp (vfs_touch n which) Q s.
Proof. intros Hn HQ. unfold vfs_touch. wp_step. wp_step. by eapply wp_iset. Qed.

(** What writing or truncating makes of an inode. *)
Definition rewritten (now : Z) (f : ramfs_data) (x : inode) : inode :=
  touched now (Z.lor VFS_MTIME VFS_CTIME) (set_i_length (fd_size f) (set_i_ptr (PData f) x)).

(** All of an inode but its bytes and its times. *)
Definition husk (x : inode) : inode := touched 0 (Z.lor VFS_ATIME (Z.lor VFS_MTIME VFS_CTIME)) (set_i_length 0 (set_i_ptr PNull x)).

Lemma husk_same {A} (f : inode -> A) x y : husk y = husk x -> (forall z, f (husk z) = f z) -> f y = f x.
Proof. intros E H. by rewrite <- (H y), E, H. Qed.

Lemma rewritten_ok now f x : is_dir x = false -> file_ok f -> data_ok (rewritten now f x).
Proof. intros Hd Hf. split; [done|]. by split. Qed.

Lemma put_data_ok s s1 n x p f (Q : unit -> fs -> Prop) :
  only_i n (set_i_ptr p x) s s1 -> (forall s', only_i n (rewritten (fs_now s) f x) s s' -> Q tt s') -> wp (put_data n f) Q s1.
Proof.
  intros Ho HQ. unfold put_data. wp_step. eapply wp_iset; [by eapply only_i_lookup|]. eapply wp_touch; [apply lookup_insert_eq|].
  apply HQ. pose proof (proj2 Ho) as (_ & _ & _ & _ & _ & _ & _ & Hnow & _). rewrite <- Hnow.
  eapply only_i_trans; [exact Ho|]. eapply only_i_trans; [apply only_i_set|]. exact (only_i_set n _ _).
Qed.

Lemma write_ok s n x off src :
  fs_inodes s !! n = Some x -> data_ok x -> 0 <= off < 2 ^ 32 -> Z.of_nat (length src) < 2 ^ 32 -> Forall byte src ->
  wp (ramfs_write n off src) (fun r s' => exists x', only_i n x' s s' /\ data_ok x' /\ husk x' = husk x /\
    (((r = - EINVAL /\ 2 ^ 32 <= off + Z.of_nat (length src) \/ r = - ENOMEM) /\ content_of x' = content_of x)
     \/ r = Z.of_nat (length src) /\ off + Z.of_nat (length src) < 2 ^ 32 /\ content_of x' = pwrite (content_of x) off src)) s.
Proof.
  intros Hn Hok Ho Hlen Hsrc. unfold ramfs_write. wp_step. eapply wp_ino; [done|]. cbv zeta. rewrite (proj1 Hok). set (len := Z.of_nat (length src)) in *.
  assert (u32 (off + len) = off + len \/ u32 (off + len) < off) as Hend by (unfold u32; lia_div). pose proof (u32_bound (off + len)) as Hub.
  destruct (Z.ltb_spec (u32 (off + len)) off) as [|Hge]; [wp_steps; exists x; split_and!; [by apply only_i_refl|apply Hok..|done|]; left; split; [left; split; [done|]|done]; destruct Hend; [lia|unfold u32 in *; lia_div]|].
  destruct Hend as [Hend|]; [|lia]. rewrite Hend in *. wp_step. eapply wp_mono; [by eapply reserve_ok|].
  intros r s1 (p & Ho1 & Hok1 & Hc1 & Hr). destruct Hr as [->|[-> (f & -> & Hcap)]]; [wp_steps; exists (set_i_ptr p x); split_and!; auto|].
  change (0 <? 0) with false. cbv iota. assert (file_ok f) as Hf by apply Hok1. pose proof (fo_size f Hf). pose proof (fo_capacity f Hf).
  wp_step. eapply wp_data_at; [by eapply only_i_lookup|done|]. wp_step.
  assert (exists bs, (if fd_size f <? off then blit (bytes_of f) (fd_size f) (zeros (off - fd_size f)) else Some (bytes_of f)) = Some bs /\ bs = bytes_of f) as (bs & Hbs & ->).
  { destruct (Z.ltb_spec (fd_size f) off); [|eauto]. destruct (blit_ok (bytes_of f) (fd_size f) (zeros (off - fd_size f))) as (bs & Hbs & Hl & Hlk); [lia|rewrite length_zeros; lia|].
    exists bs. split; [done|]. apply list_eq. intros i. rewrite Hlk, length_zeros. case_decide; [|done].
    rewrite bytes_lookup, decide_False, decide_True by (done || lia). unfold zeros. apply lookup_replicate_2. lia. }
  eapply wp_lift; [exact Hbs|]. destruct (blit_ok (bytes_of f) off src) as (bs & Hb & Hl & Hlk); [lia|lia|]. fold len in Hlk.
  wp_step. eapply wp_lift; [exact Hb|]. cbv zeta. set (size' := if fd_size f <? off + len then off + len else fd_size f).
  assert (size' = Z.max (off + len) (fd_size f)) as Esz by (unfold size'; destruct (Z.ltb_spec (fd_size f) (off + len)); lia).
  assert (file_ok (with_bytes f bs size')) as Hf'.
  { apply with_bytes_ok; [done|done|lia| |by eapply blit_bytes; [exact Hb|apply fo_bytes|]]. intros i b Hi Hib. rewrite Hlk, decide_False in Hib by lia. apply (fo_tail f Hf i); [lia|done]. }
  wp_step. eapply put_data_ok; [exact Ho1|]. intros s' Ho'. wp_steps. eexists. split_and!; [exact Ho'|by apply rewritten_ok; [apply Hok|]|done|]. right.
  split_and!; [done|lia|]. rewrite <- Hc1. change (content_of (set_i_ptr (PData f) x)) with (content f).
  change (content_of (rewritten (fs_now s) (with_bytes f bs size') x)) with (content (with_bytes f bs size')).
  apply list_eq. intros i. rewrite content_lookup, bytes_with, pwrite_lookup, Hlk by (done || lia). simpl. fold len.
  rewrite (bytes_lookup f i Hf). destruct (decide (Z.of_nat i < fd_size f)) as [Hi|Hi].
  - destruct (lookup_lt_is_Some_2 (content f) i) as [b Hib]; [rewrite length_content by done; lia|]. rewrite Hib. repeat case_decide; done || lia.
  - rewrite (lookup_ge_None_2 (content f) i) by (rewrite length_content by done; lia). repeat case_decide; done || lia.
Qed.

Lemma truncate_ok s n x len :
  fs_inodes s !! n = Some x -> data_ok x -> 0 <= len < 2 ^ 32 ->
  wp (ramfs_truncate n len) (fun r s' => exists x', only_i n x' s s' /\ data_ok x' /\ husk x' = husk x /\
    ((r = - ENOMEM /\ content_of x' = content_of x) \/ r = 0 /\ content_of x' = resize_to (content_of x) len)) s.
Proof.
  intros Hn Hok Hlen. unfold ramfs_truncate. wp_step. eapply wp_mono; [by eapply reserve_ok|].
  intros r s1 (p & Ho1 & Hok1 & Hc1 & Hr). destruct Hr as [->|[-> (f & -> & Hcap)]]; [wp_steps; exists (set_i_ptr p x); split_and!; auto|].
  change (0 <? 0) with false. cbv iota. assert (file_ok f) as Hf by apply Hok1. pose proof (fo_size f Hf). pose proof (fo_capacity f Hf).
  wp_step. eapply wp_data_at; [by eapply only_i_lookup|done|]. wp_step.
  assert (exists bs, (if len <? fd_size f then blit (bytes_of f) len (zeros (fd_size f - len)) else Some (bytes_of f)) = Some bs /\ length bs = length (bytes_of f)
    /\ Forall byte bs /\ forall i, bs !! i = if decide (Z.of_nat i < Z.min len (fd_size f)) then content f !! i else if decide (Z.of_nat i < fd_capacity f) then Some 0 else None) as (bs & Hbs & Hl & Hbb & Hlk).
  { destruct (Z.ltb_spec len (fd_size f)).
    - destruct (blit_ok (bytes_of f) len (zeros (fd_size f - len))) as (bs & Hbs & Hl & Hlk); [lia|rewrite length_zeros; lia|]. exists bs. split_and!; [done|done|eapply blit_bytes; [exact Hbs|by apply fo_bytes|apply zeros_bytes]|].
      intros i. rewrite Hlk, length_zeros, bytes_lookup by done. repeat case_decide; try done; try lia. unfold zeros. apply lookup_replicate_2. lia.
    - eexists. split_and!; [done|done|by apply fo_bytes|]. intros i. rewrite bytes_lookup by done. repeat case_decide; done || lia. }
  eapply wp_lift; [exact Hbs|]. assert (file_ok (with_bytes f bs len)) as Hf'.
  { apply with_bytes_ok; [done|done|lia| |done]. intros i b Hi. rewrite Hlk, decide_False by lia. case_decide; by intros [= <-]. }
  wp_step. eapply put_data_ok; [exact Ho1|]. intros s' Ho'. wp_steps. eexists. split_and!; [exact Ho'|by apply rewritten_ok; [apply Hok|]|done|]. right.
  split; [done|]. rewrite <- Hc1. change (content_of (set_i_ptr (PData f) x)) with (content f).
  change (content_of (rewritten (fs_now s) (with_bytes f bs len) x)) with (content (with_bytes f bs len)).
  apply list_eq. intros i. rewrite content_lookup, bytes_with, resize_lookup, Hlk by (done || lia). simpl.
  destruct (decide (Z.of_nat i < fd_size f)) as [Hi|Hi].
  - destruct (lookup_lt_is_Some_2 (content f) i) as [b Hib]; [rewrite length_content by done; lia|]. rewrite Hib. repeat case_decide; done || lia.
  - rewrite (lookup_ge_None_2 (content f) i) by (rewrite length_content by done; lia). repeat case_decide; done || lia.
Qed.

Lemma read_ok s n x off size_ :
  fs_inodes s !! n = Some x -> data_ok x -> 0 <= off < 2 ^ 32 -> 0 <= size_ < 2 ^ 32 ->
  wp (ramfs_read n off size_) (fun r s' => s' = s /\ r.2 = take (Z.to_nat size_) (drop (Z.to_nat off) (content_of x)) /\ r.1 = Z.of_nat (length r.2)) s.
Proof.
  intros Hn [Hd Hx] Ho Hsz. unfold ramfs_read. wp_step. eapply wp_ino; [done|]. rewrite Hd. unfold content_of.
  destruct (i_ptr x) as [|d|f|d] eqn:Ep; try done; [wp_steps; by rewrite drop_nil, take_nil|]. destruct Hx as [Hf _].
  pose proof (fo_size f Hf). pose proof (fo_capacity f Hf). pose proof (length_content f Hf) as Hlc.
  destruct (Z.leb_spec (fd_size f) off).
  { wp_steps. simpl. rewrite (drop_ge (content f)), take_nil by lia. done. }
  cbv zeta. set (k := if fd_size f - off <? size_ then fd_size f - off else size_).
  assert (k = Z.min size_ (fd_size f - off)) as Ek by (unfold k; destruct (Z.ltb_spec (fd_size f - off) size_); lia).
  wp_step. eapply wp_lift; [apply slice_ok; lia|]. wp_steps. simpl. split_and!; [done| |].
  - unfold content. apply list_eq. intros i.
    destruct (decide (Z.of_nat i < k)).
    + rewrite !lookup_take_lt, !lookup_drop, lookup_take_lt by lia. done.
    + rewrite lookup_take_ge by lia. symmetry. destruct (decide (Z.of_nat i < size_)); [|by rewrite lookup_take_ge by lia].
      rewrite lookup_take_lt, lookup_drop by lia. apply lookup_take_ge. lia.
  - rewrite length_take, length_drop. lia.
Qed.

(** ** A file is a string of bytes *)

Inductive file_op := FRead (off size_ : Z) | FWrite (off : Z) (src : list Z) | FTruncate (len_ : Z).

Definition op_ok (op : file_op) : Prop :=
  match op with
  | FRead off size_ => 0 <= off < 2 ^ 32 /\ 0 <= size_ < 2 ^ 32
  | FWrite off src => 0 <= off < 2 ^ 32 /\ Z.of_nat (length src) < 2 ^ 32 /\ Forall byte src
  | FTruncate len_ => 0 <= len_ < 2 ^ 32
  end.

Definition run_file (n : Z) (op : file_op) : M fs (Z * list Z) :=
  match op with
  | FRead off size_ => ramfs_read n off size_
  | FWrite off src => r ← ramfs_write n off src; mret (r, [])
  | FTruncate len_ => r ← ramfs_truncate n len_; mret (r, [])
  end.

(** What an operation on the bytes [c] may answer, and the bytes after it. *)
Definition file_step (op : file_op) (c : list Z) (r : Z * list Z) (c' : list Z) : Prop :=
  match op with
  | FRead off size_ => c' = c /\ r.2 = take (Z.to_nat size_) (drop (Z.to_nat off) c) /\ r.1 = Z.of_nat (length r.2)
  | FWrite off src =>
      (r.1 = - EINVAL /\ 2 ^ 32 <= off + Z.of_nat (length src) \/ r.1 = - ENOMEM) /\ c' = c
      \/ r.1 = Z.of_nat (length src) /\ off + Z.of_nat (length src) < 2 ^ 32 /\ c' = pwrite c off src
  | FTruncate len_ => r.1 = - ENOMEM /\ c' = c \/ r.1 = 0 /\ c' = resize_to c len_
  end.

(** ** When memory is enough *)

(** No allocation to come is refused. *)
Definition memory (s : fs) : Prop := 0 < fs_block s /\ true ∉ fs_oom s.

Definition thrifty (s s' : fs) : Prop := memory s -> memory s'.

#[export] Instance thrifty_preorder : PreOrder thrifty.
Proof. split; [by intros s ?|]. intros s1 s2 s3 H1 H2 H. by apply H2, H1. Qed.

Lemma k_alloc_memory s b s' : k_alloc s = Some (b, s') -> memory s -> memory s' /\ b <> 0.
Proof.
  intros H [Hb Ho]. unfold k_alloc, mbind, M_bind, get, modify in H. destruct (fs_oom s) as [|c l]; simpl in H.
  - injection H as <- <-. split; [|lia]. by split; [simpl; lia|].
  - destruct c; [set_solver|]. injection H as <- <-. split; [|lia]. split; simpl; [lia|set_solver].
Qed.

Lemma k_alloc_thrifty : upholds thrifty k_alloc.
Proof. intros s b s' H Hm. by eapply k_alloc_memory. Qed.
#[local] Hint Resolve k_alloc_thrifty : upholds.

Lemma iset_thrifty n f : upholds thrifty (iset n f).
Proof. unfold iset, ino, iput_at. upholding. by apply upholds_modify; intros s0 ?. Qed.
#[local] Hint Resolve iset_thrifty : upholds.

Lemma file_data_memory n s o s' : file_data n s = Some (o, s') -> memory s -> memory s' /\ o <> None.
Proof.
  intros H Hm. unfold file_data in H. apply bind_run in H as (x & s1 & Hx & H).
  assert (s1 = s) as -> by (unfold ino, mbind, M_bind, get, lift in Hx; destruct (fs_inodes s !! n); [by injection Hx|done]).
  destruct (i_ptr x); try done; [|by injection H as <- <-]. apply bind_run in H as (b & s2 & Hb & H).
  destruct (k_alloc_memory _ _ _ Hb Hm) as [Hm2 Hb0]. rewrite (proj2 (Z.eqb_neq _ _) Hb0) in H.
  apply bind_run in H as ([] & s3 & Hi & [= <- <-]). split; [|done]. by eapply iset_thrifty.
Qed.

(** With memory, only a size that rounds up past 32 bits is refused. *)
Lemma reserve_memory n size_ s r s' :
  reserve n size_ s = Some (r, s') -> memory s -> memory s' /\ (0 < size_ <= 2 ^ 32 - 4096 -> r = 0).
Proof.
  intros H Hm. unfold reserve in H. apply bind_run in H as (o & s1 & Ho & H). destruct (file_data_memory _ _ _ _ Ho Hm) as [Hm1 Hsome].
  destruct o as [f|]; [|done]. destruct (size_ <=? fd_capacity f); [by injection H as <- <-|].
  apply bind_run in H as (b & s2 & Hb & H). destruct (Z.eqb_spec (u32 (align_up_page size_)) 0) as [E|E].
  { injection Hb as <- <-. rewrite Z.eqb_refl in H. injection H as <- <-. split; [done|]. intros Hs. exfalso.
    rewrite align_up_eq in E by lia. unfold u32 in E. rewrite Z.mod_small in E; lia_div. }
  destruct (k_alloc_memory _ _ _ Hb Hm1) as [Hm2 Hb0]. rewrite (proj2 (Z.eqb_neq _ _) Hb0) in H.
  apply bind_run in H as (old & s3 & H3 & H). apply bind_run in H as (data & s4 & H4 & H). apply bind_run in H as ([] & s5 & H5 & [= <- <-]).
  split; [|done]. eapply iset_thrifty; [exact H5|]. eapply (upholds_lift thrifty); [exact H4|]. by eapply (upholds_lift thrifty); [exact H3|].
Qed.

Lemma write_memory n off src s r s' :
  ramfs_write n off src s = Some (r, s') -> 0 <= off -> 0 < Z.of_nat (length src) -> memory s ->
  memory s' /\ (off + Z.of_nat (length src) <= 2 ^ 32 - 4096 -> r <> - ENOMEM).
Proof.
  intros H Ho Hlen Hm. unfold ramfs_write in H. apply bind_run in H as (x & s1 & Hx & H).
  assert (s1 = s) as -> by (unfold ino, mbind, M_bind, get, lift in Hx; destruct (fs_inodes s !! n); [by injection Hx|done]).
  destruct (is_dir x); [injection H as <- <-; split; [done|lia]|].
  destruct (_ <? off); [injection H as <- <-; split; [done|lia]|]. apply bind_run in H as (e & s1 & He & H).
  destruct (reserve_memory _ _ _ _ _ He Hm) as [Hm1 He0]. destruct (e <? 0) eqn:Eneg.
  { injection H as <- <-. split; [done|]. intros Hend. rewrite u32_small in He0 by lia. rewrite He0 in Eneg by lia. done. }
  assert (memory s').
  { match type of H with ?m s1 = _ => enough (upholds thrifty m) as Hu by (by eapply Hu) end.
    unfold data_at, put_data, vfs_touch, ino. upholding. }
  split; [done|]. intros _. apply bind_run in H as (f & s2 & _ & H). apply bind_run in H as (bs & s3 & _ & H).
  apply bind_run in H as (bs' & s4 & _ & H). apply bind_run in H as ([] & s5 & _ & [= <- _]). lia.
Qed.

(** C32: a ramfs file behaves as a string of bytes: reads give the bytes there
    are, writes replace them (a hole before them reads as zeros), truncation
    cuts or extends with zeros, an error leaves the bytes alone, and nothing
    but the file's inode changes. *)
Theorem ramfs_is_bytes s n x op :
  fs_inodes s !! n = Some x -> data_ok x -> op_ok op ->
  wp (run_file n op) (fun r s' => exists x', only_i n x' s s' /\ data_ok x' /\ file_step op (content_of x) r (content_of x')) s.
Proof.
  intros Hn Hx Hop. destruct op as [off size_|off src|len_]; cbn [run_file op_ok] in *.
  - eapply wp_mono; [eapply read_ok; done || apply Hop|]. intros r s' (-> & E & Er). exists x. split_and!; [by apply only_i_refl|apply Hx..|done].
  - wp_step. eapply wp_mono; [eapply write_ok; done || apply Hop|]. intros r s' (x' & Ho & Hx' & _ & Hr). wp_steps. by exists x'.
  - wp_step. eapply wp_mono; [by eapply truncate_ok|]. intros r s' (x' & Ho & Hx' & _ & Hr). wp_steps. by exists x'.
Qed.

Definition file1 : inode := new_inode 0 1 VFS_FILE 420 RAMFS_DEV.
Definition fs1 : fs := MkFs {[100 := file1]} ∅ ∅ ∅ [] 0 2 2 200 [] 7 None [].

Lemma ramfs_is_bytes_witness :
  wp (run_file 100 (FWrite 3 [1; 2])) (fun r s' => exists x', only_i 100 x' fs1 s' /\ data_ok x' /\ file_step (FWrite 3 [1; 2]) (content_of file1) r (content_of x')) fs1
  /\ (x ← run_file 100 (FWrite 3 [1; 2]); run_file 100 (FRead 1 9)) fs1 = Some ((4, [0; 0; 1; 2]), (default fs1 (snd <$> run_file 100 (FWrite 3 [1; 2]) fs1))).
Proof. split; [apply ramfs_is_bytes; [done|by split|split_and!; [done|done|done|repeat constructor; done]]|by vm_compute]. Defined.
