(* ===== verification/Vfs.v ===== *)
(** * The virtual file system: src/src/kernel/vfs/vfs.c

    Path resolution, the operations on names, and mounts. An inode's function
    pointers lead to the ramfs ([DRamfs]), to the dentry lists ([DDentry]) or
    to another component; what those do is the interface [Drivers]. *)
From S2P Require Import Prelude Types Cred Pipe VfsState Ramfs.

Definition MAX_SYMLINKS : nat := 40.

(** ** The functions behind an inode's pointers *)

(** procfs directories and links, device nodes, sockets. *)
Class Drivers := {
  drv_finddir : driver -> Z -> string -> M fs Z;
  drv_read : driver -> Z -> Z -> Z -> M fs (Z * list Z);
  drv_open : driver -> Z -> Z -> M fs Z;
  drv_release : driver -> Z -> Z -> M fs unit;
  drv_destroy : driver -> Z -> M fs unit;
}.

(** ** Strings *)

Definition slash : Ascii.ascii := Ascii.ascii_of_nat 47.

Fixpoint skip_slashes (p : string) : string :=
  match p with
  | String c p' => if Ascii.eqb c slash then skip_slashes p' else p
  | EmptyString => p
  end.

(** A component and what follows it. *)
Fixpoint split_comp (p : string) : string * string :=
  match p with
  | EmptyString => (EmptyString, EmptyString)
  | String c p' => if Ascii.eqb c slash then (EmptyString, p) else let '(a, b) := split_comp p' in (String c a, b)
  end.

Fixpoint all_slashes (p : string) : bool :=
  match p with EmptyString => true | String c p' => Ascii.eqb c slash && all_slashes p' end.

Definition starts_slash (p : string) : bool := match p with String c _ => Ascii.eqb c slash | EmptyString => false end.

(** The C string in a buffer of bytes. *)
Fixpoint c_string (bs : list Z) : string :=
  match bs with
  | [] => EmptyString
  | b :: bs' => if b =? 0 then EmptyString else String (Ascii.ascii_of_nat (Z.to_nat b)) (c_string bs')
  end.

Definition slen (p : string) : Z := Z.of_nat (String.length p).

Section Vfs.
  Context `{DR : Drivers}.

(** ** Calls through pointers *)

Definition call_finddir (dir : Z) (name : string) : M fs Z :=
  x ← ino dir;
  match i_finddir x with
  | None => mret 0
  | Some DDentry => vfs_finddir_dentry dir name
  | Some d => drv_finddir d dir name
  end.

Definition call_read (n off size_ : Z) : M fs (Z * list Z) :=
  x ← ino n;
  match i_read x with
  | None => fault
  | Some DRamfs => ramfs_read n off size_
  | Some d => drv_read d n off size_
  end.

Definition call_destroy (n : Z) : M fs unit :=
  x ← ino n;
  match i_destroy x with
  | None => fault
  | Some DRamfs => ramfs_destroy n
  | Some d => drv_destroy d n
  end.

Definition has_destroy (x : inode) : bool := match i_destroy x with Some _ => true | None => false end.
Definition has_create (x : inode) : bool := match i_create x with Some _ => true | None => false end.

Definition vfs_iput (n : Z) : M fs unit :=
  _ ← iset n (fun x => set_i_refs (u32 (i_refs x - 1)) x);
  x ← ino n;
  when ((i_refs x =? 0) && (i_nlink x =? 0) && has_destroy x) (call_destroy n).

(** ** Path resolution *)

Definition step (dir : Z) (name : string) : M fs Z :=
  if String.eqb name "." then mret dir
  else if String.eqb name ".." then
    x ← ino dir;
    match i_ptr x with
    | PNull => mret dir
    | PDentry d =>
        dd ← dent d;
        if d_parent dd =? 0 then mret dir else pd ← dent (d_parent dd); mret (d_inode pd)
    | _ => fault
    end
  else call_finddir dir name.

(** A directory's own dentry, as a pointer. *)
Definition own_dentry (x : inode) : M fs Z :=
  match i_ptr x with PNull => mret 0 | PDentry d => mret d | _ => fault end.

(** [comp] is [None] where the C passes NULL. *)
Definition name_of (dir n : Z) (comp : option string) : M fs Z :=
  x ← ino n;
  if is_dir x then own_dentry x
  else match comp with Some c => vfs_child dir c | None => mret 0 end.

(** An error, or an inode and the dentry that names it. *)
Definition resolved : Type := Z + Z * Z.

Definition is_link (x : inode) : bool := itype x =? VFS_SYMLINK.

(** Reading a link's target. *)
Definition read_link (n : Z) (x : inode) : M fs (Z + string) :=
  b ← k_alloc;
  if b =? 0 then mret (inl (- ENOMEM)) else
  r ← call_read n 0 (i_length x);
  if r.1 <? 0 then mret (inl r.1) else mret (inr (c_string (take (Z.to_nat r.1) r.2))).

(** The loop of walk: [link] resolves the target of a symlink, [None] when
    no more may be followed. *)
Fixpoint walk_loop (link : option (Z -> string -> M fs resolved)) (fuel : nat) (follow : bool) (cur d : Z) (path : string) : M fs resolved :=
  match fuel with
  | O => fault
  | S fuel =>
      let path := skip_slashes path in
      if String.eqb path "" then mret (inr (cur, d)) else
      let '(comp, rest) := split_comp path in
      if NAME_MAX <? slen comp then mret (inl (- ENAMETOOLONG)) else
      x ← ino cur;
      if negb (is_dir x) then mret (inl (- ENOTDIR)) else
      s ← get;
      let err := cred_permission (fs_cur s) x MAY_EXEC in
      if err <? 0 then mret (inl err) else
      next ← step cur comp;
      if next =? 0 then mret (inl (- ENOENT)) else
      let last := String.eqb rest "" in
      nd ← name_of cur next (Some comp);
      y ← ino next;
      r ← (if is_link y && (negb last || follow) then
             match link with
             | None => mret (inl (- ELOOP))
             | Some go =>
                 t ← read_link next y;
                 match t with inl e => mret (inl e) | inr target => go cur target end
             end
           else mret (inr (next, nd)));
      match r with
      | inl e => mret (inl e)
      | inr (cur', d') =>
          z ← ino cur';
          if starts_slash rest && negb (is_dir z) && all_slashes rest then mret (inl (- ENOTDIR))
          else walk_loop link fuel follow cur' d' rest
      end
  end.

(** [links] symlinks may still be followed: depth is MAX_SYMLINKS - links. *)
Fixpoint walk (links : nat) (base : Z) (path : string) (follow : bool) : M fs resolved :=
  s ← get;
  cur ← (if starts_slash path then rd ← dent (fs_root s); mret (d_inode rd) else mret base);
  d ← name_of 0 cur None;
  walk_loop (match links with O => None | S l => Some (fun dir target => walk l dir target true) end)
    (S (String.length path)) follow cur d path.

Definition vfs_resolve_dentry (base : Z) (path : string) (follow : bool) : M fs resolved :=
  if String.eqb path "" then mret (inl (- ENOENT)) else walk MAX_SYMLINKS base path follow.

Definition vfs_resolve (base : Z) (path : string) (follow : bool) : M fs (Z + Z) :=
  r ← vfs_resolve_dentry base path follow;
  mret (match r with inl e => inl e | inr (n, _) => inr n end).

Definition vfs_lookup (base : Z) (path : string) : M fs Z :=
  r ← vfs_resolve base path true;
  mret (match r with inl _ => 0 | inr n => n end).

(** The path so far, written right to left with [at_] bytes left in front. *)
Fixpoint path_up (fuel : nat) (d at_ : Z) (acc : string) : M fs (Z + Z * string) :=
  match fuel with
  | O => fault
  | S fuel =>
      if d =? 0 then mret (inr (at_, acc)) else
      dd ← dent d;
      if d_parent dd =? 0 then mret (inr (at_, acc)) else
      let len := slen (d_name dd) in
      if at_ <? len + 1 then mret (inl (- ENAMETOOLONG))
      else path_up fuel (d_parent dd) (at_ - len - 1) (String slash (d_name dd ++ acc))
  end.

Definition vfs_dentry_path (d size_ : Z) : M fs (Z + string) :=
  s ← get;
  r ← path_up (dfuel s) d (size_ - 1) "";
  match r with
  | inl e => mret (inl e)
  | inr (at_, acc) =>
      if String.eqb acc "" then (if at_ =? 0 then fault else mret (inr "/"%string)) else mret (inr acc)
  end.

(** ** The directory of a path's last component *)

(** Trailing slashes dropped, but for a first character. *)
Fixpoint strip_end (p : string) (end_ : nat) : nat :=
  match end_ with
  | S (S _ as e) => if match String.get e p with Some c => Ascii.eqb c slash | None => false end then strip_end p e else end_
  | _ => end_
  end.

Fixpoint comp_start (p : string) (start : nat) : nat :=
  match start with
  | S e => if match String.get e p with Some c => Ascii.eqb c slash | None => false end then start else comp_start p e
  | O => O
  end.

(** The inode of the directory and the name, or an error. *)
Definition vfs_parent (base : Z) (path : string) : M fs (Z + Z * string) :=
  let end_ := strip_end path (String.length path) in
  let start := comp_start path end_ in
  if NAME_MAX <? Z.of_nat (end_ - start) then mret (inl (- ENAMETOOLONG)) else
  let name := String.substring start (end_ - start) path in
  if String.eqb name "" || String.eqb name "." || String.eqb name ".."
  then mret (inl (if String.eqb name "" && negb (Nat.eqb end_ 0) then - EEXIST else - EINVAL))
  else if Nat.eqb start 0 then mret (inr (base, name))
  else
    b ← k_alloc;
    if b =? 0 then mret (inl (- ENOMEM)) else
    r ← vfs_resolve base (String.substring 0 start path) true;
    match r with
    | inl e => mret (inl e)
    | inr n => x ← ino n; if is_dir x then mret (inr (n, name)) else mret (inl (- ENOTDIR))
    end.

(** ** Mounts *)

Definition dev_of (s : fs) (m : mount) : option Z := i_dev <$> fs_inodes s !! m_root m.

(** The loop of vfs_mount_of: a freed root would fault. *)
Fixpoint mount_find (s : fs) (dev : Z) (l : list mount) : option (option mount) :=
  match l with
  | [] => Some None
  | m :: l' =>
      match dev_of s m with
      | None => None
      | Some dv => if dv =? dev then Some (Some m) else mount_find s dev l'
      end
  end.

Definition vfs_mount_of (dev : Z) : M fs (option mount) := s ← get; lift (mount_find s dev (fs_mounts s)).

Definition vfs_mounts : M fs (list mount) := gets fs_mounts.

Definition vfs_readonly (n : Z) : M fs bool :=
  x ← ino n;
  m ← vfs_mount_of (i_dev x);
  mret (match m with Some m => negb (Z.land (m_flags m) MS_RDONLY =? 0) | None => false end).

(** ** Names *)

Definition removed (x : inode) : bool := match i_ptr x with PNull => true | _ => false end.

Definition call_create (dir : Z) (name : string) (type mode : Z) : M fs Z :=
  x ← ino dir;
  match i_create x with Some DRamfs => ramfs_create dir name type mode | _ => fault end.

(** The creator owns it; a setgid directory passes its group on. *)
Definition adopt (c : option process) (dn : inode) (type : Z) (x : inode) : inode :=
  let x := set_i_uid (cred_euid c) x in
  if negb (Z.land (i_mode dn) S_ISGID =? 0) then
    let x := set_i_gid (i_gid dn) x in
    if type =? VFS_DIRECTORY then set_i_mode (Z.lor (i_mode x) S_ISGID) x else x
  else set_i_gid (cred_egid c) x.

(** 0 and the new inode, or an error. *)
Definition vfs_create (dir : Z) (name : string) (type mode : Z) : M fs (Z + Z) :=
  dn ← ino dir;
  if negb (is_dir dn) then mret (inl (- ENOTDIR)) else
  if NAME_MAX <? slen name then mret (inl (- ENAMETOOLONG)) else
  c ← vfs_child dir name;
  if negb (c =? 0) then mret (inl (- EEXIST)) else
  if negb (has_create dn) then mret (inl (- EPERM)) else
  if removed dn then mret (inl (- ENOENT)) else
  ro ← vfs_readonly dir;
  if (ro : bool) then mret (inl (- EROFS)) else
  s ← get;
  let err := cred_permission (fs_cur s) dn (Z.lor MAY_WRITE MAY_EXEC) in
  if err <? 0 then mret (inl err) else
  n ← call_create dir name type mode;
  if n =? 0 then mret (inl (- ENOMEM)) else
  _ ← iset n (adopt (fs_cur s) dn type);
  _ ← vfs_touch dir (Z.lor VFS_MTIME VFS_CTIME);
  mret (inr n).

Definition drop (dir d : Z) : M fs unit :=
  dd ← dent d;
  let n := d_inode dd in
  _ ← detach d;
  _ ← dfree d;
  _ ← iset n (fun x => set_i_nlink (u32 (i_nlink x - 1)) (if is_dir x then set_i_ptr PNull x else x));
  _ ← vfs_touch n VFS_CTIME;
  _ ← vfs_touch dir (Z.lor VFS_MTIME VFS_CTIME);
  x ← ino n;
  when ((i_nlink x =? 0) && (i_refs x =? 0) && has_destroy x) (call_destroy n).

Definition may_delete (dir victim : Z) : M fs Z :=
  ro ← vfs_readonly dir;
  dn ← ino dir;
  s ← get;
  let err := if (ro : bool) then - EROFS else cred_permission (fs_cur s) dn (Z.lor MAY_WRITE MAY_EXEC) in
  if err <? 0 then mret err else
  vn ← ino victim;
  mret (if cred_may_delete (fs_cur s) dn vn then 0 else - EPERM).

Definition vfs_unlink (dir : Z) (name : string) : M fs Z :=
  d ← vfs_child dir name;
  dn ← ino dir;
  if d =? 0 then mret (if is_dir dn then - ENOENT else - ENOTDIR) else
  dd ← dent d;
  x ← ino (d_inode dd);
  if is_dir x then mret (- EISDIR) else
  if negb (has_create dn) then mret (- EPERM) else
  err ← may_delete dir (d_inode dd);
  if err <? 0 then mret err else
  _ ← drop dir d;
  mret 0.

Definition mountpoint (n : Z) : M fs bool :=
  x ← ino n;
  match i_ptr x with
  | PDentry d => dd ← dent d; pd ← dent (d_parent dd); px ← ino (d_inode pd); mret (negb (i_dev x =? i_dev px))
  | _ => fault
  end.

Definition vfs_rmdir (dir : Z) (name : string) : M fs Z :=
  d ← vfs_child dir name;
  dn ← ino dir;
  if d =? 0 then mret (if is_dir dn then - ENOENT else - ENOTDIR) else
  dd ← dent d;
  x ← ino (d_inode dd);
  if negb (is_dir x) then mret (- ENOTDIR) else
  mp ← mountpoint (d_inode dd);
  if (mp : bool) then mret (- EBUSY) else
  if negb (d_first_child dd =? 0) then mret (- ENOTEMPTY) else
  err ← may_delete dir (d_inode dd);
  if err <? 0 then mret err else
  _ ← drop dir d;
  mret 0.

Definition vfs_link (dir : Z) (name : string) (target : Z) : M fs Z :=
  tx ← ino target;
  if is_dir tx then mret (- EPERM) else
  dn ← ino dir;
  if negb (is_dir dn) then mret (- ENOTDIR) else
  if negb (i_dev dn =? i_dev tx) || negb (has_create dn) then mret (- EXDEV) else
  if removed dn then mret (- ENOENT) else
  c ← vfs_child dir name;
  if negb (c =? 0) then mret (- EEXIST) else
  if NAME_MAX <? slen name then mret (- ENAMETOOLONG) else
  ro ← vfs_readonly dir;
  if (ro : bool) then mret (- EROFS) else
  s ← get;
  let err := cred_permission (fs_cur s) dn (Z.lor MAY_WRITE MAY_EXEC) in
  if err <? 0 then mret err else
  d ← k_alloc;
  if d =? 0 then mret (- ENOMEM) else
  _ ← dput_at d (MkDentry name target 0 0 0 0);
  p ← dir_dentry dir;
  _ ← vfs_add_child p d;
  _ ← iset target (fun x => set_i_nlink (u32 (i_nlink x + 1)) x);
  _ ← vfs_touch target VFS_CTIME;
  _ ← vfs_touch dir (Z.lor VFS_MTIME VFS_CTIME);
  mret 0.

(** Whether [src] is [a] or above it. *)
Fixpoint above (fuel : nat) (src a : Z) : M fs bool :=
  match fuel with
  | O => fault
  | S fuel => if a =? 0 then mret false else if a =? src then mret true else da ← dent a; above fuel src (d_parent da)
  end.

(** The permissions rename needs, in the order it checks them. *)
Definition may_rename (odir ndir n : Z) (x : inode) : M fs Z :=
  err ← may_delete odir n;
  if err <? 0 then mret err else
  nx ← ino ndir;
  s ← get;
  let err := cred_permission (fs_cur s) nx (Z.lor MAY_WRITE MAY_EXEC) in
  if err <? 0 then mret err else
  if is_dir x && negb (odir =? ndir) then mret (cred_permission (fs_cur s) x MAY_WRITE) else mret 0.

(** What stands at the new name: [inl] an answer at once, [inr] true if it
    is to be replaced. *)
Definition may_replace (ndir src dst : Z) (noreplace : bool) : M fs (Z + bool) :=
  if dst =? 0 then mret (inr false) else
  dd ← dent dst;
  y ← ino (d_inode dd);
  nx ← ino ndir;
  s ← get;
  if negb (cred_may_delete (fs_cur s) nx y) then mret (inl (- EPERM)) else
  if noreplace then mret (inl (- EEXIST)) else
  sd ← dent src;
  if d_inode dd =? d_inode sd then mret (inl 0) else
  x ← ino (d_inode sd);
  if is_dir x && negb (is_dir y) then mret (inl (- ENOTDIR)) else
  if negb (is_dir x) && is_dir y then mret (inl (- EISDIR)) else
  if negb (is_dir y) then mret (inr true) else
  if negb (d_first_child dd =? 0) then mret (inl (- ENOTEMPTY)) else
  mp ← mountpoint (d_inode dd);
  mret (if (mp : bool) then inl (- ENOTEMPTY) else inr true).

(** The move itself. *)
Definition move (odir ndir src : Z) (nname : string) : M fs unit :=
  _ ← detach src;
  if negb (name_fits nname) then fault else
  _ ← dset src (set_d_name nname);
  p ← dir_dentry ndir;
  _ ← vfs_add_child p src;
  sd ← dent src;
  _ ← vfs_touch (d_inode sd) VFS_CTIME;
  _ ← vfs_touch odir (Z.lor VFS_MTIME VFS_CTIME);
  vfs_touch ndir (Z.lor VFS_MTIME VFS_CTIME).

(** A directory is not moved when it is a mountpoint or holds the target. *)
Definition dir_may_move (n src ndir : Z) (x : inode) : M fs Z :=
  if negb (is_dir x) then mret 0 else
  mp ← mountpoint n;
  if (mp : bool) then mret (- EBUSY) else
  p ← dir_dentry ndir;
  s ← get;
  inside ← above (dfuel s) src p;
  mret (if (inside : bool) then - EINVAL else 0).

Definition vfs_rename (odir : Z) (oname : string) (ndir : Z) (nname : string) (noreplace : bool) : M fs Z :=
  src ← vfs_child odir oname;
  if src =? 0 then mret (- ENOENT) else
  nx ← ino ndir;
  if negb (is_dir nx) then mret (- ENOTDIR) else
  ox ← ino odir;
  if negb (i_dev ox =? i_dev nx) || negb (has_create nx) then mret (- EXDEV) else
  if removed nx then mret (- ENOENT) else
  if NAME_MAX <? slen nname then mret (- ENAMETOOLONG) else
  sd ← dent src;
  x ← ino (d_inode sd);
  err ← dir_may_move (d_inode sd) src ndir x;
  if err <? 0 then mret err else
  err ← may_rename odir ndir (d_inode sd) x;
  if err <? 0 then mret err else
  dst ← vfs_child ndir nname;
  rep ← may_replace ndir src dst noreplace;
  match rep with
  | inl e => mret e
  | inr replace =>
      _ ← when replace (drop ndir dst);
      _ ← move odir ndir src nname;
      mret 0
  end.

(** ** Mounting *)

Fixpoint reparent (fuel : nat) (c mp : Z) : M fs unit :=
  match fuel with
  | O => fault
  | S fuel => if c =? 0 then mret tt else _ ← dset c (set_d_parent mp); dc ← dent c; reparent fuel (d_next_sibling dc) mp
  end.

(** The mountpoint takes over the root's inode and children. *)
Definition graft (mp root : Z) (rd : dentry) : M fs unit :=
  _ ← dset mp (fun x => set_d_first_child (d_first_child rd) (set_d_inode (d_inode rd) x));
  s ← get;
  _ ← reparent (dfuel s) (d_first_child rd) mp;
  _ ← iset (d_inode rd) (set_i_ptr (PDentry mp));
  dfree root.

Definition vfs_mount (mp root : Z) (source type : string) (flags : Z) : M fs Z :=
  m ← k_alloc;
  if m =? 0 then mret (- ENOMEM) else
  let source := String.substring 0 63 source in
  let type := String.substring 0 15 type in
  rd ← dent root;
  new ← (if mp =? 0 then mret (MkMount m root 0 0 (d_inode rd) source type flags)
         else
           md ← dent mp;
           _ ← graft mp root rd;
           mret (MkMount m mp (d_inode md) (d_first_child md) (d_inode rd) source type flags));
  _ ← modify (fun s => set_fs_mounts (new :: fs_mounts s) s);
  mret 0.

(** A detached list of dentries and all below it. *)
Fixpoint free_tree (fuel : nat) (d : Z) : M fs unit :=
  match fuel with
  | O => fault
  | S fuel =>
      if d =? 0 then mret tt else
      dd ← dent d;
      _ ← free_tree fuel (d_first_child dd);
      _ ← iset (d_inode dd) (fun x => set_i_nlink (u32 (i_nlink x - 1)) x);
      x ← ino (d_inode dd);
      _ ← when ((i_nlink x =? 0) && (i_refs x =? 0) && has_destroy x) (call_destroy (d_inode dd));
      _ ← dfree d;
      free_tree fuel (d_next_sibling dd)
  end.

Definition vfs_umount (m : mount) : M fs Z :=
  if m_covered m =? 0 then mret (- EBUSY) else
  s ← get;
  if negb (existsb (fun x => m_addr x =? m_addr m) (fs_mounts s)) then fault else
  _ ← modify (fun s => set_fs_mounts (filter (fun x => m_addr x <> m_addr m) (fs_mounts s)) s);
  md ← dent (m_mp m);
  _ ← dset (m_mp m) (fun x => set_d_first_child (m_covered_children m) (set_d_inode (m_covered m) x));
  rx ← ino (m_root m);
  _ ← when (has_destroy rx)
        (s ← get;
         _ ← free_tree (dfuel s) (d_first_child md);
         _ ← iset (m_root m) (set_i_nlink 0);
         x ← ino (m_root m);
         when (i_refs x =? 0) (call_destroy (m_root m)));
  mret 0.
End Vfs.
