(* ===== verification/VfsTree.v ===== *)
(** * The tree of names

    What holds of inodes and dentries between calls into vfs.c: the dentry
    lists form a forest of distinct names, every name leads to a live inode,
    a directory knows its dentry, link counts count names, and climbing from
    a dentry ends. Then the directories seen as finite maps from names to
    inodes, which is what the operations are specified on. *)
From S2P Require Import Prelude Types Cred Pipe VfsState Forest Ramfs Vfs.

(** ** Counting names *)

Definition naming (N : gmap Z Z) (n : Z) : nat := size (filter (fun kv => kv.2 = n) N).

(** Names of [n], and mounts that cover it. *)
Definition links (s : fs) (n : Z) : Z :=
  Z.of_nat (naming (d_inode <$> fs_dentries s) n) + Z.of_nat (length (filter (fun m => m_covered m = n) (fs_mounts s))).

Lemma naming_insert N d n m : N !! d = None -> naming (<[d := n]> N) m = (naming N m + if decide (n = m) then 1 else 0)%nat.
Proof.
  intros Hd. unfold naming. case_decide as E.
  - rewrite map_filter_insert_True by done. rewrite map_size_insert_None; [lia|]. apply map_lookup_filter_None. by left.
  - rewrite map_filter_insert_False by done. rewrite delete_id by done. lia.
Qed.

Lemma naming_delete N d n m : N !! d = Some n -> naming N m = (naming (delete d N) m + if decide (n = m) then 1 else 0)%nat.
Proof. intros Hd. rewrite <- (insert_delete_id N d n Hd) at 1. apply naming_insert, lookup_delete_eq. Qed.

Lemma naming_size N n : (naming N n <= size N)%nat.
Proof. unfold naming. rewrite <- !size_dom. apply subseteq_size, dom_filter_subseteq. Qed.

Lemma naming_zero N n : naming N n = 0%nat -> forall d, N !! d <> Some n.
Proof.
  unfold naming. intros H d Hd. apply map_size_empty_iff in H. assert (filter (fun kv : Z * Z => kv.2 = n) N !! d = Some n) as E by by apply map_lookup_filter_Some.
  by rewrite H, lookup_empty in E.
Qed.

(** ** Climbing *)

(** From [d] up to a root, along the parents. *)
Inductive anc (P : gmap Z Z) : Z -> list Z -> Prop :=
| anc_root : anc P 0 []
| anc_up d p l : d <> 0 -> P !! d = Some p -> anc P p l -> anc P d (d :: l).

Lemma anc_det P d l1 : anc P d l1 -> forall l2, anc P d l2 -> l1 = l2.
Proof.
  induction 1 as [|d p l Hd Hp Hl IH]; inversion 1; subst; try done. assert (p0 = p) as -> by congruence. by rewrite (IH l0).
Qed.

Lemma anc_suffix P d l x : anc P d l -> x ∈ l -> exists l1 l2, l = l1 ++ l2 /\ anc P x l2.
Proof.
  induction 1 as [|d p l Hd Hp Hl IH]; [by intros ?%not_elem_of_nil|]. intros [->|Hx]%elem_of_cons.
  - exists [], (d :: l). split; [done|]. by eapply anc_up.
  - destruct (IH Hx) as (l1 & l2 & -> & H2). by exists (d :: l1), l2.
Qed.

Lemma anc_nodup P d l : anc P d l -> NoDup l.
Proof.
  induction 1 as [|d p l Hd Hp Hl IH]; constructor; [|done]. intros Hin. destruct (anc_suffix P p l d Hl Hin) as (l1 & l2 & -> & H2).
  assert (d :: l1 ++ l2 = l2) as E by (eapply anc_det; [by eapply anc_up|done]). apply (f_equal length) in E. simpl in E. rewrite length_app in E. lia.
Qed.

Lemma anc_dom P d l x : anc P d l -> x ∈ l -> is_Some (P !! x).
Proof. induction 1 as [|d p l Hd Hp Hl IH]; [by intros ?%not_elem_of_nil|]. intros [->|Hx]%elem_of_cons; eauto. Qed.

Lemma anc_fuel P d l : anc P d l -> (length l <= size P)%nat.
Proof.
  intros H. pose proof (anc_nodup P d l H) as Hnd. rewrite <- (size_list_to_set (C := gset Z) l) by done. rewrite <- size_dom. apply subseteq_size.
  intros x. rewrite elem_of_list_to_set, elem_of_dom. by apply anc_dom with (1 := H).
Qed.

(** The way up of [x] is the same if the dentries on it are. *)
Lemma anc_ext P P' d l : anc P d l -> (forall x, x ∈ l -> P' !! x = P !! x) -> anc P' d l.
Proof.
  induction 1 as [|d p l Hd Hp Hl IH]; intros E; [constructor|]. eapply anc_up; [done|rewrite E; [done|left]|]. apply IH. intros x Hx. apply E. by right.
Qed.

(** ** The invariant *)

Definition mountpoint_at (s : fs) (d : Z) : Prop := exists m, m ∈ fs_mounts s /\ m_mp m = d.

(** What the tree needs of an inode. *)
Record node_ok (d : Z) (x : inode) : Prop := {
  n_own : is_dir x = true -> i_ptr x = PDentry d;
  n_destroy : i_destroy x = None \/ i_destroy x = Some DRamfs;
}.

Record mount_ok (s : fs) (m : mount) : Prop := {
  m_root_dir : exists x, fs_inodes s !! m_root m = Some x /\ is_dir x = true;
  m_root_dev : forall d dd dp x y, fs_dentries s !! d = Some dd -> d_inode dd = m_root m -> fs_dentries s !! d_parent dd = Some dp ->
    fs_inodes s !! m_root m = Some x -> fs_inodes s !! d_inode dp = Some y -> i_dev x <> i_dev y;
  m_top : exists m' dd, m' ∈ fs_mounts s /\ fs_dentries s !! m_mp m = Some dd /\ d_inode dd = m_root m';
  m_covers : m_covered m = 0 \/ is_Some (fs_inodes s !! m_covered m);
  m_held : 0 < links s (m_root m);
}.

Record tree (s : fs) (K : Z -> list Z) : Prop := {
  t_forest : forest (fs_dentries s) K;
  t_node : forall d dd, fs_dentries s !! d = Some dd -> exists x, fs_inodes s !! d_inode dd = Some x /\ node_ok d x;
  t_dir : forall n x, fs_inodes s !! n = Some x -> is_dir x = true ->
    i_ptr x = PNull \/ exists d dd, i_ptr x = PDentry d /\ fs_dentries s !! d = Some dd /\ (d_inode dd = n \/ mountpoint_at s d);
  t_create : forall n x, fs_inodes s !! n = Some x -> i_create x = None \/ i_create x = Some DRamfs;
  t_names : forall p c1 c2 d1 d2, c1 ∈ K p -> c2 ∈ K p -> fs_dentries s !! c1 = Some d1 -> fs_dentries s !! c2 = Some d2 -> d_name d1 = d_name d2 -> c1 = c2;
  t_links : forall n x, fs_inodes s !! n = Some x -> i_destroy x = Some DRamfs \/ naming (d_inode <$> fs_dentries s) n <> 0%nat -> i_nlink x = u32 (links s n);
  t_null : fs_inodes s !! 0 = None /\ 0 < fs_block s;
  t_fresh : forall k, fs_block s <= k -> fs_dentries s !! k = None /\ fs_inodes s !! k = None;
  t_up : forall d, is_Some (fs_dentries s !! d) -> exists l, anc (d_parent <$> fs_dentries s) d l;
  t_kids : forall c dc, fs_dentries s !! c = Some dc -> d_parent dc <> 0 ->
    c ∈ K (d_parent dc) \/ mountpoint_at s (d_parent dc) \/ forall q, d_parent dc ∉ K q;
  t_leaf : forall q c dq x, c ∈ K q -> fs_dentries s !! q = Some dq -> fs_inodes s !! d_inode dq = Some x -> is_dir x = true;
  t_mounts : forall m, m ∈ fs_mounts s -> mount_ok s m;
}.

(** ** Changes the tree does not see *)

(** A directory's dentry; what a file keeps is its own business. *)
Definition dir_ptr (x : inode) : iptr := if is_dir x then i_ptr x else PNull.

Lemma dir_ptr_dir x : is_dir x = true -> dir_ptr x = i_ptr x.
Proof. unfold dir_ptr. by intros ->. Qed.

Lemma dir_ptr_eq x y : is_dir y = is_dir x -> dir_ptr y = dir_ptr x -> is_dir x = true -> i_ptr y = i_ptr x.
Proof. intros E1 E2 Hd. rewrite <- (dir_ptr_dir x Hd), <- E2. symmetry. apply dir_ptr_dir. congruence. Qed.

Lemma node_ok_key d x y : is_dir y = is_dir x -> dir_ptr y = dir_ptr x -> i_destroy y = i_destroy x -> node_ok d x -> node_ok d y.
Proof. intros E1 E2 E3 [Ho Hds]. split; [|by rewrite E3]. intros Hd. rewrite E1 in Hd. rewrite (dir_ptr_eq x y) by done. auto. Qed.

Definition ikey (x : inode) : (bool * iptr) * (option driver * option driver) * (Z * Z) :=
  ((is_dir x, dir_ptr x), (i_destroy x, i_create x), (i_dev x, i_nlink x)).

(** Only fields that names do not depend on differ. *)
Definition calm (s s' : fs) : Prop :=
  ikey <$> fs_inodes s' = ikey <$> fs_inodes s /\ fs_dentries s' = fs_dentries s /\ fs_mounts s' = fs_mounts s /\ fs_block s <= fs_block s'.

#[global] Instance calm_preorder : PreOrder calm.
Proof. split; [intros s; by split_and!|]. intros s1 s2 s3 (? & ? & ? & ?) (? & ? & ? & ?). split_and!; congruence || lia. Qed.

Lemma fmap_back {A B} (f : A -> B) (m m' : gmap Z A) k y : f <$> m' = f <$> m -> m' !! k = Some y -> exists x, m !! k = Some x /\ f x = f y.
Proof.
  intros E Hk. assert ((f <$> m) !! k = Some (f y)) as H by by rewrite <- E, lookup_fmap, Hk.
  rewrite lookup_fmap in H. destruct (m !! k) as [x|]; [|done]. exists x. split; [done|by injection H].
Qed.

Lemma fmap_none {A B} (f : A -> B) (m m' : gmap Z A) k : f <$> m' = f <$> m -> m !! k = None -> m' !! k = None.
Proof. intros E Hk. apply (fmap_None f). rewrite <- lookup_fmap, E, lookup_fmap, Hk. done. Qed.

Lemma tree_calm s s' K : tree s K -> calm s s' -> tree s' K.
Proof.
  intros HT (EI & ED & EM & EB). assert (forall n, links s' n = links s n) as EL by (intros n; unfold links; by rewrite ED, EM).
  assert (forall n y, fs_inodes s' !! n = Some y -> exists x, fs_inodes s !! n = Some x /\ ikey x = ikey y) as Hback by (intros n y; by apply fmap_back).
  assert (forall n x, fs_inodes s !! n = Some x -> exists y, fs_inodes s' !! n = Some y /\ ikey y = ikey x) as Hfwd by (intros n x; by apply fmap_back).
  split; rewrite ?ED; try apply HT.
  - intros d dd Hd. destruct (t_node _ _ HT d dd Hd) as (x & Hx & Hok). destruct (Hfwd _ x Hx) as (y & Hy & [= E1 E2 E3 E4 E5 E6]). exists y. split; [done|by apply (node_ok_key d x)].
  - intros n y Hy Hd. destruct (Hback n y Hy) as (x & Hx & [= E1 E2 E3 E4 E5 E6]). rewrite <- (dir_ptr_dir y Hd), <- E2, dir_ptr_dir by congruence. unfold mountpoint_at. rewrite EM. eapply (t_dir _ _ HT); [done|congruence].
  - intros n y Hy. destruct (Hback n y Hy) as (x & Hx & [= E1 E2 E3 E4 E5 E6]). rewrite <- E4. by eapply (t_create _ _ HT).
  - intros n y Hy H. destruct (Hback n y Hy) as (x & Hx & [= E1 E2 E3 E4 E5 E6]). rewrite <- E6, EL. eapply (t_links _ _ HT); [done|by rewrite E3].
  - destruct (t_null _ _ HT). split; [by eapply fmap_none|lia].
  - intros k Hk. destruct (t_fresh _ _ HT k) as [? ?]; [lia|]. split; [done|by eapply fmap_none].
  - unfold mountpoint_at. rewrite EM. apply HT.
  - intros q c dq y Hc Hq Hy. destruct (Hback _ y Hy) as (x & Hx & [= E1 E2 E3 E4 E5 E6]). rewrite <- E1. by eapply (t_leaf _ _ HT).
  - rewrite EM. intros m Hm. destruct (t_mounts _ _ HT m Hm) as [(x & Hx & Hd) Hdev Htop Hcov Hheld]. destruct (Hfwd _ x Hx) as (y & Hy & [= E1 E2 E3 E4 E5 E6]).
    split; rewrite ?ED, ?EM; [exists y; split; [done|congruence]| |done|destruct Hcov as [?|[z Hz]]; [by left|right]; destruct (Hfwd _ z Hz) as (? & ? & _); eauto|by rewrite EL]. intros d dd dp x' y' Hdd Hr Hdp Hx' Hy'.
    destruct (Hback _ x' Hx') as (x0 & Hx0 & [= _ _ _ _ Ex _]). destruct (Hback _ y' Hy') as (y0 & Hy0 & [= _ _ _ _ Ey _]). rewrite <- Ex, <- Ey. exact (Hdev d dd dp x0 y0 Hdd Hr Hdp Hx0 Hy0).
Qed.

(** ** Directories as maps *)

Definition entries (E : gmap Z (string * Z)) (l : list Z) : gmap string Z := list_to_map (omap (fun c => E !! c) l).

Definition distinct (E : gmap Z (string * Z)) (l : list Z) : Prop :=
  NoDup l /\ forall c1 c2 k1 k2, c1 ∈ l -> c2 ∈ l -> E !! c1 = Some k1 -> E !! c2 = Some k2 -> k1.1 = k2.1 -> c1 = c2.

Lemma distinct_cons E c l : distinct E (c :: l) -> c ∉ l /\ distinct E l.
Proof. intros [[Hc Hl]%NoDup_cons H]. split; [done|]. split; [done|]. intros c1 c2 k1 k2 ? ?. apply H; by right. Qed.

Lemma entries_lookup E l name n : distinct E l -> entries E l !! name = Some n <-> exists c, c ∈ l /\ E !! c = Some (name, n).
Proof.
  induction l as [|c l IH]; intros Hd; [split; [done|by intros (c & ?%not_elem_of_nil & _)]|]. destruct (distinct_cons E c l Hd) as [Hc Hl].
  unfold entries in *. cbn [omap list_omap]. destruct (E !! c) as [[a b]|] eqn:Ec; cbn [list_to_map foldr fst snd].
  - destruct (decide (a = name)) as [->|Ha].
    + rewrite lookup_insert_eq. split; [intros [= ->]; exists c; split; [left|done]|]. intros (c' & Hc' & E').
      assert (c = c') as <- by (eapply (proj2 Hd c c'); [left|done|done|done|done]). congruence.
    + rewrite lookup_insert_ne, IH by done. split; intros (c' & Hc' & E'); exists c'; (split; [|done]); [by right|].
      apply elem_of_cons in Hc' as [->|]; [congruence|done].
  - rewrite IH by done. split; intros (c' & Hc' & E'); exists c'; (split; [|done]); [by right|]. apply elem_of_cons in Hc' as [->|]; [congruence|done].
Qed.

Lemma entries_ext E E' l : (forall c, c ∈ l -> E' !! c = E !! c) -> entries E' l = entries E l.
Proof.
  intros H. unfold entries. f_equal. induction l as [|c l IH]; [done|]. cbn [omap list_omap]. rewrite (H c) by left. rewrite IH; [done|]. intros c' Hc'. apply H. by right.
Qed.

Lemma entries_app E l1 l2 : entries E (l1 ++ l2) = entries E l1 ∪ entries E l2.
Proof. unfold entries. by rewrite omap_app, list_to_map_app. Qed.

Lemma entries_one E c name n : E !! c = Some (name, n) -> entries E [c] = {[name := n]}.
Proof. intros H. unfold entries. cbn [omap list_omap]. rewrite H. done. Qed.

Lemma entries_snoc E l c name n : E !! c = Some (name, n) -> entries E l !! name = None -> entries E (l ++ [c]) = <[name := n]> (entries E l).
Proof. intros Hc Hn. rewrite entries_app, (entries_one E c name n Hc). by rewrite insert_union_singleton_r. Qed.

Lemma distinct_mid E l1 c l2 : distinct E (l1 ++ c :: l2) -> c ∉ l1 ++ l2 /\ distinct E (l1 ++ l2).
Proof.
  intros [Hnd H]. apply (distinct_cons E c (l1 ++ l2)). split; [by rewrite Permutation_middle|].
  intros c1 c2 k1 k2 H1 H2. apply H; by rewrite <- Permutation_middle.
Qed.

Lemma entries_remove E l1 c l2 name n :
  E !! c = Some (name, n) -> distinct E (l1 ++ c :: l2) -> entries E (l1 ++ l2) = delete name (entries E (l1 ++ c :: l2)).
Proof.
  intros Hc Hd. destruct (distinct_mid E l1 c l2 Hd) as [Hn Hd']. apply map_eq. intros k. apply option_eq. intros m.
  rewrite lookup_delete_Some, !entries_lookup by done. split.
  - intros (c' & Hc' & E'). split; [|exists c'; split; [|done]; rewrite <- Permutation_middle; by right].
    intros <-. apply Hn. assert (c = c') as ->; [|done]. eapply (proj2 Hd c c'); [set_solver|set_solver|done|done|done].
  - intros (Hk & c' & Hc' & E'). exists c'. split; [|done]. rewrite <- Permutation_middle in Hc'. apply elem_of_cons in Hc' as [->|]; [congruence|done].
Qed.

(** What a directory's dentry [p] lists. *)
Definition view (s : fs) (K : Z -> list Z) (p : Z) : gmap string Z := entries (dkey <$> fs_dentries s) (K p).

(** What a directory inode lists. *)
Definition listing (s : fs) (K : Z -> list Z) (x : inode) : gmap string Z :=
  if is_dir x then match i_ptr x with PDentry p => view s K p | _ => ∅ end else ∅.

Lemma tree_distinct s K p : tree s K -> distinct (dkey <$> fs_dentries s) (K p).
Proof.
  intros HT. split; [apply (t_forest _ _ HT)|]. intros c1 c2 k1 k2 H1 H2 E1 E2 E. apply lookup_fmap_Some in E1 as (d1 & <- & E1). apply lookup_fmap_Some in E2 as (d2 & <- & E2).
  by eapply (t_names _ _ HT).
Qed.

Lemma view_lookup s K p name n :
  tree s K -> view s K p !! name = Some n <-> exists c dc, c ∈ K p /\ fs_dentries s !! c = Some dc /\ d_name dc = name /\ d_inode dc = n.
Proof.
  intros HT. unfold view. rewrite entries_lookup by by apply tree_distinct. split.
  - intros (c & Hc & (dc & [= <- <-] & Hdc)%lookup_fmap_Some). by exists c, dc.
  - intros (c & dc & Hc & Hdc & <- & <-). exists c. split; [done|]. by rewrite lookup_fmap, Hdc.
Qed.

(** What vfs_child finds. *)
Definition found (s : fs) (K : Z -> list Z) (x : inode) (name : string) (c : Z) : Prop :=
  match listing s K x !! name with
  | None => c = 0
  | Some n => c <> 0 /\ exists p dc, is_dir x = true /\ i_ptr x = PDentry p /\ c ∈ K p /\ fs_dentries s !! c = Some dc /\ d_name dc = name /\ d_inode dc = n
  end.

Lemma wp_vfs_child s K dir x name (Q : Z -> fs -> Prop) :
  tree s K -> fs_inodes s !! dir = Some x -> (forall c, found s K x name c -> Q c s) -> wp (vfs_child dir name) Q s.
Proof.
  intros HT Hx HQ. unfold vfs_child. wp_step. eapply wp_ino; [done|]. unfold found, listing in HQ. destruct (is_dir x) eqn:Hd; cbn [negb].
  2:{ wp_steps. by apply HQ. }
  destruct (t_dir _ _ HT dir x Hx Hd) as [Ep|(p & dp & Ep & Hp & _)]; rewrite Ep in HQ |- *; [wp_steps; by apply HQ|].
  pose proof (t_forest _ _ HT) as HF. wp_step. eapply wp_dent; [exact Hp|]. wp_step. wp_step.
  eapply wp_mono; [apply (find_child_ok s p _ (K p)); [by apply HF|intros H0; by destruct (kid_nonnull _ _ HF p 0 H0)|unfold dfuel; pose proof (kids_fuel _ _ HF p); lia]|].
  intros r s' [-> Hr]. apply HQ. destruct Hr as [[Hr (dc & Hc & Hn)]|[-> Hno]].
  - assert (view s K p !! name = Some (d_inode dc)) as -> by (apply view_lookup; [done|]; by exists r, dc).
    split; [by apply (kid_nonnull _ _ HF p)|]. by exists p, dc.
  - destruct (view s K p !! name) as [n|] eqn:Ev; [|done]. apply view_lookup in Ev as (c & dc & Hc & Hdc & Hn & _); [|done]. destruct (Hno c Hc). by exists dc.
Qed.

(** ** Read-only mounts *)

Definition rofs (s : fs) (x : inode) : bool :=
  match mount_find s (i_dev x) (fs_mounts s) with Some (Some m) => negb (Z.land (m_flags m) MS_RDONLY =? 0) | _ => false end.

Lemma mount_find_some s dev l : (forall m, m ∈ l -> mount_ok s m) -> is_Some (mount_find s dev l).
Proof.
  induction l as [|m l IH]; intros H; simpl; [eauto|]. destruct (m_root_dir _ _ (H m (list_elem_of_here _ _))) as (x & Hx & _). unfold dev_of. rewrite Hx. simpl.
  destruct (i_dev x =? dev); [eauto|]. apply IH. intros m' Hm. apply H. by right.
Qed.

Lemma wp_vfs_readonly s K n x (Q : bool -> fs -> Prop) : tree s K -> fs_inodes s !! n = Some x -> Q (rofs s x) s -> wp (vfs_readonly n) Q s.
Proof.
  intros HT Hx HQ. unfold vfs_readonly. wp_step. eapply wp_ino; [done|]. unfold vfs_mount_of. wp_steps. unfold rofs in HQ.
  destruct (mount_find_some s (i_dev x) (fs_mounts s)) as [o Ho]; [apply HT|]. rewrite Ho in HQ. eapply wp_lift; [done|]. wp_steps. by destruct o.
Qed.

(** ** Names and parents *)

Definition dinfo (d : dentry) : string * Z * Z := (dkey d, d_parent d).

Lemma dinfo_eq (D' : gmap Z dentry) (G : gmap Z (string * Z * Z)) :
  dkey <$> D' = fst <$> G -> d_parent <$> D' = snd <$> G -> dinfo <$> D' = G.
Proof.
  intros E1 E2. apply map_eq. intros d. apply (f_equal (lookup d)) in E1. apply (f_equal (lookup d)) in E2. rewrite !lookup_fmap in E1. rewrite !lookup_fmap in E2. rewrite lookup_fmap.
  destruct (D' !! d) as [dd|], (G !! d) as [[k q]|]; simpl in *; try done. injection E1 as E1. injection E2 as E2. unfold dinfo. by rewrite E1, E2.
Qed.

Lemma dinfo_key (D : gmap Z dentry) : dkey <$> D = fst <$> (dinfo <$> D).
Proof. rewrite <- map_fmap_compose. done. Qed.

Lemma dinfo_parent (D : gmap Z dentry) : d_parent <$> D = snd <$> (dinfo <$> D).
Proof. rewrite <- map_fmap_compose. done. Qed.

Lemma dinfo_inode (D : gmap Z dentry) : d_inode <$> D = (fun g => g.1.2) <$> (dinfo <$> D).
Proof. rewrite <- map_fmap_compose. done. Qed.

(** A dentry of the new state, and one of the old. *)
Lemma dinfo_look (D : gmap Z dentry) G d dd : dinfo <$> D = G -> D !! d = Some dd -> G !! d = Some (d_name dd, d_inode dd, d_parent dd).
Proof. intros <- H. by rewrite lookup_fmap, H. Qed.

Lemma dinfo_some (D : gmap Z dentry) G d a n p : dinfo <$> D = G -> G !! d = Some (a, n, p) -> exists dd, D !! d = Some dd /\ d_name dd = a /\ d_inode dd = n /\ d_parent dd = p.
Proof. intros <- (dd & [= <- <- <-] & H)%lookup_fmap_Some. by exists dd. Qed.

Lemma dinfo_none (D : gmap Z dentry) G d : dinfo <$> D = G -> D !! d = None <-> G !! d = None.
Proof. intros <-. rewrite lookup_fmap. by destruct (D !! d). Qed.

Section Facts.
  Context (s : fs) (K : Z -> list Z) (HT : tree s K).

(** A dentry's parent is a dentry. *)
Lemma parent_live d dd : fs_dentries s !! d = Some dd -> d_parent dd <> 0 -> is_Some (fs_dentries s !! d_parent dd).
Proof.
  intros Hd Hp. destruct (t_up _ _ HT d) as [l Hl]; [eauto|]. inversion Hl as [|d0 p l0 Hd0 Hp0 Hl0]; subst; [by rewrite (fr_null _ _ (t_forest _ _ HT)) in Hd|].
  rewrite lookup_fmap, Hd in Hp0. injection Hp0 as <-. inversion Hl0 as [|d1 p1 l1 _ Hp1 _]; subst; [congruence|]. rewrite lookup_fmap in Hp1. by destruct (fs_dentries s !! d_parent dd).
Qed.

Lemma kid_parent p c : c ∈ K p -> exists dc, fs_dentries s !! c = Some dc /\ d_parent dc = p.
Proof. intros Hc. destruct (kid_some _ _ (t_forest _ _ HT) p c Hc) as (_ & dc & _ & ? & ?). eauto. Qed.

(** Inodes that no dentry names. *)
Lemma unnamed n : fs_inodes s !! n = None -> naming (d_inode <$> fs_dentries s) n = 0%nat.
Proof.
  intros Hn. unfold naming. apply map_size_empty_iff, map_empty. intros d. apply map_lookup_filter_None. right. intros m (dd & <- & Hd)%lookup_fmap_Some E. simpl in E.
  destruct (t_node _ _ HT d dd Hd) as (x & Hx & _). congruence.
Qed.

Lemma fresh_unlinked n : fs_inodes s !! n = None -> n <> 0 -> links s n = 0.
Proof.
  intros Hn Hn0. unfold links. rewrite (unnamed n Hn). destruct (filter _ (fs_mounts s)) as [|m l] eqn:E; [done|].
  assert (m ∈ filter (fun m => m_covered m = n) (fs_mounts s)) as [Em Hm]%list_elem_of_filter by (rewrite E; left).
  destruct (m_covers _ _ (t_mounts _ _ HT m Hm)) as [?|[? ?]]; congruence.
Qed.

(** The dentry a directory points to stands for a directory. *)
Lemma dir_dentry_dir n x p : fs_inodes s !! n = Some x -> is_dir x = true -> i_ptr x = PDentry p ->
  exists dp y, fs_dentries s !! p = Some dp /\ fs_inodes s !! d_inode dp = Some y /\ is_dir y = true.
Proof.
  intros Hx Hd Ep. destruct (t_dir _ _ HT n x Hx Hd) as [E|(d & dd & E & Hdd & Hor)]; rewrite Ep in E; [done|]. injection E as <-. destruct Hor as [En|(m & Hm & <-)].
  - exists dd, x. by rewrite En.
  - destruct (m_top _ _ (t_mounts _ _ HT m Hm)) as (m' & dd' & Hm' & Hdd' & Er). destruct (m_root_dir _ _ (t_mounts _ _ HT m' Hm')) as (y & Hy & Hyd).
    exists dd', y. by rewrite Er.
Qed.

(** A mount's root is no file. *)
Lemma root_not_file m n x : m ∈ fs_mounts s -> fs_inodes s !! n = Some x -> is_dir x = false -> m_root m <> n.
Proof. intros Hm Hx Hd E. destruct (m_root_dir _ _ (t_mounts _ _ HT m Hm)) as (y & Hy & Hyd). congruence. Qed.
End Facts.

(** ** One name more *)

Lemma delete_look {A B} (f : A -> B) (m m' : gmap Z A) n k y :
  delete n (f <$> m') = delete n (f <$> m) -> k <> n -> m' !! k = Some y -> exists x, m !! k = Some x /\ f x = f y.
Proof.
  intros E Hk Hy. assert ((f <$> m) !! k = Some (f y)) as H.
  { rewrite <- (lookup_delete_ne _ n k), <- E, lookup_delete_ne, lookup_fmap, Hy by done. done. }
  apply lookup_fmap_Some in H as (x & E' & Hx). eauto.
Qed.

Lemma delete_look_none {A B} (f : A -> B) (m m' : gmap Z A) n k :
  delete n (f <$> m') = delete n (f <$> m) -> k <> n -> m !! k = None -> m' !! k = None.
Proof. intros E Hk Hn. destruct (m' !! k) as [y|] eqn:Hy; [|done]. destruct (delete_look f m m' n k y E Hk Hy) as (x & Hx & _). congruence. Qed.

Section Add.
  Context (s s' : fs) (K : Z -> list Z) (p c n : Z) (x' : inode) (name : string).
  Context (HT : tree s K) (Hp : is_Some (fs_dentries s !! p)) (Hc : fs_dentries s !! c = None) (Hc0 : c <> 0) (Hn0 : n <> 0).
  Context (Hnew : view s K p !! name = None) (HF : forest (fs_dentries s') (upd K p (K p ++ [c]))).
  Context (HG : dinfo <$> fs_dentries s' = <[c := (name, n, p)]> (dinfo <$> fs_dentries s)).
  Context (HI : delete n (ikey <$> fs_inodes s') = delete n (ikey <$> fs_inodes s)) (Hx' : fs_inodes s' !! n = Some x').
  Context (Hok : node_ok c x') (Hcr : i_create x' = None \/ i_create x' = Some DRamfs) (Hnl : i_nlink x' = u32 (links s n + 1)).
  Context (Hold : forall x, fs_inodes s !! n = Some x -> is_dir x = false /\ is_dir x' = false /\ i_dev x' = i_dev x).
  Context (Hpdir : exists dp y, fs_dentries s !! p = Some dp /\ fs_inodes s !! d_inode dp = Some y /\ is_dir y = true).
  Context (HM : fs_mounts s' = fs_mounts s) (HB : fs_block s <= fs_block s') (HBc : c < fs_block s') (HBn : n < fs_block s').

Lemma add_links m : links s' m = links s m + if decide (n = m) then 1 else 0.
Proof.
  unfold links. rewrite HM, dinfo_inode, HG, fmap_insert, naming_insert by (rewrite !lookup_fmap, Hc; done). rewrite <- dinfo_inode.
  simpl. case_decide; lia.
Qed.

Lemma add_inode k y : fs_inodes s' !! k = Some y -> k = n /\ y = x' \/ k <> n /\ exists x, fs_inodes s !! k = Some x /\ ikey x = ikey y.
Proof. intros Hy. destruct (decide (k = n)) as [->|Hk]; [left; split; [done|congruence]|right; split; [done|]]. by eapply delete_look. Qed.

Lemma add_dentry d dd : fs_dentries s' !! d = Some dd ->
  d = c /\ d_name dd = name /\ d_inode dd = n /\ d_parent dd = p
  \/ d <> c /\ exists dd0, fs_dentries s !! d = Some dd0 /\ d_name dd0 = d_name dd /\ d_inode dd0 = d_inode dd /\ d_parent dd0 = d_parent dd.
Proof.
  intros Hd. pose proof (dinfo_look _ _ _ _ HG Hd) as H. destruct (decide (d = c)) as [->|Hdc].
  - left. rewrite lookup_insert_eq in H. by injection H as -> -> ->.
  - right. split; [done|]. rewrite lookup_insert_ne in H by done. by eapply dinfo_some.
Qed.

Lemma add_keep d dd0 : fs_dentries s !! d = Some dd0 -> exists dd, fs_dentries s' !! d = Some dd /\ d_name dd = d_name dd0 /\ d_inode dd = d_inode dd0 /\ d_parent dd = d_parent dd0.
Proof. intros Hd. eapply dinfo_some; [exact HG|]. rewrite lookup_insert_ne by congruence. by eapply dinfo_look. Qed.

Lemma add_node d dd : fs_dentries s' !! d = Some dd -> exists x, fs_inodes s' !! d_inode dd = Some x /\ node_ok d x.
Proof.
  intros Hd. destruct (add_dentry d dd Hd) as [(-> & _ & En & _)|(Hdc & dd0 & Hd0 & _ & En & _)]; [exists x'; by rewrite En|].
  destruct (t_node _ _ HT d dd0 Hd0) as (x & Hx & Hxok). rewrite En in Hx. destruct (decide (d_inode dd = n)) as [E|E].
  - rewrite E in Hx |- *. exists x'. split; [done|]. destruct (Hold x Hx) as (_ & Hnd & _). split; [congruence|apply Hok].
  - destruct (delete_look ikey (fs_inodes s') (fs_inodes s) n (d_inode dd) x) as (y & Hy & [= E1 E2 E3 E4 E5 E6]); [done|done|done|].
    exists y. split; [done|by apply (node_ok_key d x)].
Qed.

Lemma add_up d : is_Some (fs_dentries s' !! d) -> exists l, anc (d_parent <$> fs_dentries s') d l.
Proof.
  intros [dd Hd]. assert (forall y, is_Some (fs_dentries s !! y) -> exists l, anc (d_parent <$> fs_dentries s') y l) as Hup.
  { intros y Hy. destruct (t_up _ _ HT y Hy) as [l Hl]. exists l. eapply anc_ext; [exact Hl|]. intros z Hz. destruct (anc_dom _ _ _ z Hl Hz) as [q Hq].
    rewrite dinfo_parent, HG, fmap_insert, lookup_insert_ne, <- dinfo_parent; [done|]. intros <-. by rewrite lookup_fmap, Hc in Hq. }
  destruct (add_dentry d dd Hd) as [(-> & _ & _ & Ep)|(_ & dd0 & Hd0 & _)]; [|apply Hup; eauto]. destruct (Hup p Hp) as [l Hl]. exists (c :: l).
  eapply anc_up; [done| |exact Hl]. by rewrite lookup_fmap, Hd, <- Ep.
Qed.

Lemma add_names q c1 c2 d1 d2 : c1 ∈ upd K p (K p ++ [c]) q -> c2 ∈ upd K p (K p ++ [c]) q ->
  fs_dentries s' !! c1 = Some d1 -> fs_dentries s' !! c2 = Some d2 -> d_name d1 = d_name d2 -> c1 = c2.
Proof.
  assert (forall q y, y ∈ upd K p (K p ++ [c]) q -> y <> c -> y ∈ K q) as Hin.
  { intros q' y Hy Hyc. destruct (decide (q' = p)) as [->|]; [|by rewrite upd_ne in Hy]. rewrite upd_eq in Hy. set_solver. }
  assert (forall q y dy, y ∈ upd K p (K p ++ [c]) q -> y <> c -> fs_dentries s' !! y = Some dy -> d_name dy = name -> c ∈ upd K p (K p ++ [c]) q -> False) as Hno.
  { intros q' y dy Hy Hyc Hdy En Hcq. assert (q' = p) as ->.
    { destruct (decide (q' = p)) as [->|Hqp]; [done|]. rewrite upd_ne in Hcq by done. destruct (kid_parent s K HT q' c Hcq) as (dc & ? & _). congruence. }
    destruct (add_dentry y dy Hdy) as [(? & _)|(_ & dd0 & Hd0 & En0 & _)]; [done|].
    assert (view s K p !! name = Some (d_inode dd0)) as Ev by (apply view_lookup; [done|]; exists y, dd0; split_and!; [by apply Hin|done|congruence|done]). congruence. }
  intros H1 H2 Hd1 Hd2 E. destruct (add_dentry c1 d1 Hd1) as [(-> & E1 & _)|(Hc1 & e1 & He1 & E1 & _)], (add_dentry c2 d2 Hd2) as [(-> & E2 & _)|(Hc2 & e2 & He2 & E2 & _)]; [done|..].
  - destruct (Hno q c2 d2); [done|done|done|congruence|done].
  - destruct (Hno q c1 d1); [done|done|done|congruence|done].
  - eapply (t_names _ _ HT q c1 c2 e1 e2); [by apply Hin|by apply Hin|done|done|congruence].
Qed.

Lemma add_mount m : m ∈ fs_mounts s' -> mount_ok s' m.
Proof.
  rewrite HM. intros Hm. destruct (t_mounts _ _ HT m Hm) as [(x & Hx & Hd) Hdev (m' & dd & Hm' & Hdd & Er) Hcov Hheld].
  assert (m_root m <> n) as Hrn by (intros E; rewrite E in Hx; destruct (Hold x Hx); congruence). split.
  - destruct (delete_look ikey (fs_inodes s') (fs_inodes s) n (m_root m) x) as (y & Hy & [= E1 E2 E3 E4 E5 E6]); [done|done|done|]. exists y. split; [done|congruence].
  - intros d dd' dp x1 y1 Hd' Er' Hdp Hx1 Hy1. destruct (add_dentry d dd' Hd') as [(_ & _ & ? & _)|(_ & dd0 & Hd0 & _ & En0 & Ep0)]; [congruence|].
    destruct (add_inode _ _ Hx1) as [[? _]|(_ & x2 & Hx2 & [= _ _ _ _ Ex _])]; [done|].
    assert (d_parent dd' <> 0) as Hpn by (intros E; rewrite E, (fr_null _ _ HF) in Hdp; done).
    destruct (parent_live s K HT d dd0 Hd0) as [dp0 Hdp0]; [congruence|]. destruct (add_keep _ dp0 Hdp0) as (dp' & Hdp' & _ & Ei & _).
    rewrite Ep0, Hdp in Hdp'. injection Hdp' as <-. assert (exists y2, fs_inodes s !! d_inode dp0 = Some y2 /\ i_dev y2 = i_dev y1) as (y2 & Hy2 & Ey).
    { rewrite Ei in Hy1. destruct (t_node _ _ HT _ dp0 Hdp0) as (y2 & Hy2 & _). exists y2. split; [done|].
      destruct (add_inode _ _ Hy1) as [[E ->]|(_ & y3 & Hy3 & [= _ _ _ _ Ey _])]; [|congruence]. rewrite E in Hy2. symmetry. by apply Hold. }
    rewrite <- Ex, <- Ey. apply (Hdev d dd0 dp0); try done. congruence.
  - destruct (add_keep _ dd Hdd) as (dd' & Hdd' & _ & Ei & _). exists m', dd'. rewrite HM. split_and!; [done|done|congruence].
  - destruct Hcov as [?|[z Hz]]; [by left|right]. destruct (decide (m_covered m = n)) as [->|Hne]; [eauto|].
    destruct (delete_look ikey (fs_inodes s') (fs_inodes s) n _ z (eq_sym HI) Hne Hz) as (? & ? & _). eauto.
  - rewrite add_links. case_decide; lia.
Qed.

Lemma add_leaf q c' dq y : c' ∈ upd K p (K p ++ [c]) q -> fs_dentries s' !! q = Some dq -> fs_inodes s' !! d_inode dq = Some y -> is_dir y = true.
Proof.
  intros Hc' Hq Hy. destruct (add_dentry q dq Hq) as [(-> & _)|(Hqc & dq0 & Hq0 & _ & En & _)].
  { rewrite upd_ne, (fr_none _ _ (t_forest _ _ HT) c Hc) in Hc'; [by apply not_elem_of_nil in Hc'|]. intros ->. rewrite Hc in Hp. by destruct Hp. }
  rewrite <- En in Hy. assert (exists x, fs_inodes s !! d_inode dq0 = Some x /\ is_dir y = is_dir x) as (x & Hx & ->).
  { destruct (t_node _ _ HT q dq0 Hq0) as (x & Hx & _). exists x. split; [done|]. destruct (add_inode _ _ Hy) as [[E ->]|(_ & x0 & Hx0 & [= E1 _ _ _ _ _])]; [|congruence].
    rewrite E in Hx. destruct (Hold x Hx) as (? & ? & _). congruence. }
  destruct (decide (q = p)) as [->|Hqp]; [|rewrite upd_ne in Hc' by done; by eapply (t_leaf _ _ HT)]. destruct Hpdir as (dp & y0 & Hdp & Hy0 & Hd0). congruence.
Qed.

Lemma tree_add : tree s' (upd K p (K p ++ [c])).
Proof.
  split; [done|exact add_node| | |exact add_names| | | |exact add_up| |exact add_leaf|exact add_mount].
  - intros k y Hy Hd. destruct (add_inode k y Hy) as [[-> ->]|(_ & x & Hx & [= E1 E2 E3 E4 E5 E6])].
    + right. destruct (dinfo_some _ _ c name n p HG) as (dd & Hdd & _ & En & _); [apply lookup_insert_eq|]. exists c, dd. split; [by apply Hok|]. split; [done|by left].
    + rewrite <- (dir_ptr_dir y Hd), <- E2, dir_ptr_dir by congruence. unfold mountpoint_at. rewrite HM. destruct (t_dir _ _ HT k x Hx) as [?|(d & dd & Ed & Hdd & Hor)]; [congruence|by left|]. right.
      destruct (add_keep d dd Hdd) as (dd' & Hdd' & _ & En & _). exists d, dd'. rewrite En. done.
  - intros k y Hy. destruct (add_inode k y Hy) as [[-> ->]|(_ & x & Hx & [= E1 E2 E3 E4 E5 E6])]; [done|]. rewrite <- E4. by eapply (t_create _ _ HT).
  - intros k y Hy Hor. rewrite add_links. destruct (add_inode k y Hy) as [[-> ->]|(Hk & x & Hx & [= E1 E2 E3 E4 E5 E6])]; [by rewrite decide_True|].
    rewrite decide_False, Z.add_0_r, <- E6 by done. eapply (t_links _ _ HT); [done|]. rewrite E3. destruct Hor as [?|Hor]; [by left|right].
    rewrite dinfo_inode, HG, fmap_insert, naming_insert, decide_False, <- dinfo_inode in Hor by (simpl; done || (rewrite !lookup_fmap, Hc; done)). lia.
  - destruct (t_null _ _ HT). split; [|lia]. by eapply delete_look_none.
  - intros k Hk. destruct (t_fresh _ _ HT k) as [? ?]; [lia|]. split; [|eapply delete_look_none; [done|lia|done]]. apply (dinfo_none _ _ _ HG). rewrite lookup_insert_ne by lia. by apply (dinfo_none _ _ _ eq_refl).
  - unfold mountpoint_at. rewrite HM. intros d dd Hd Hpn. destruct (add_dentry d dd Hd) as [(-> & _ & _ & Ep)|(_ & dd0 & Hd0 & _ & _ & Ep)].
    + left. rewrite Ep, upd_eq. set_solver.
    + rewrite <- Ep in Hpn |- *. destruct (t_kids _ _ HT d dd0 Hd0 Hpn) as [Hk|[Hk|Hk]]; [left| |right; right].
      * destruct (decide (d_parent dd0 = p)) as [E|E]; [rewrite E in Hk |- *; rewrite upd_eq; set_solver|by rewrite upd_ne].
      * by right; left.
      * intros q Hq. destruct (decide (q = p)) as [->|]; [|rewrite upd_ne in Hq by done; by apply (Hk q)]. rewrite upd_eq in Hq.
        apply elem_of_app in Hq as [?|E%list_elem_of_singleton]; [by apply (Hk p)|]. destruct (parent_live s K HT d dd0 Hd0 Hpn) as [? ?]. congruence.
Qed.

(** The directory has one entry more; the others are as they were. *)
Lemma view_add q : view s' (upd K p (K p ++ [c])) q = if decide (q = p) then <[name := n]> (view s K p) else view s K q.
Proof.
  assert (dkey <$> fs_dentries s' = <[c := (name, n)]> (dkey <$> fs_dentries s)) as EK by by rewrite !dinfo_key, HG, fmap_insert.
  assert (forall y q, y ∈ K q -> y <> c) as Hkc by (intros y q' Hy ->; destruct (kid_parent s K HT q' c Hy) as (? & ? & _); congruence).
  assert (forall q, entries (dkey <$> fs_dentries s') (K q) = view s K q) as Eold.
  { intros q'. apply entries_ext. intros y Hy. rewrite EK. apply lookup_insert_ne. intros <-. by eapply Hkc. }
  unfold view at 1. case_decide as E; [subst q; rewrite upd_eq|rewrite upd_ne by done; apply Eold].
  rewrite (entries_snoc _ _ _ name n); [by rewrite Eold|by rewrite EK, lookup_insert_eq|by rewrite Eold].
Qed.
End Add.
