(* ===== verification/VfsEdit.v ===== *)
(** * Taking names away and moving them

    What drop and the move of vfs_rename do to the tree of names, given what
    they do to the dentry lists and to the inode. *)
From S2P Require Import Prelude Types Cred Pipe VfsState Forest Ramfs Vfs VfsTree.

(** ** One name less *)

Section Remove.
  Context (s s' : fs) (K : Z -> list Z) (p d n : Z) (dd : dentry) (l1 l2 : list Z).
  Context (HT : tree s K) (HK : K p = l1 ++ d :: l2) (Hd : fs_dentries s !! d = Some dd) (Hn : d_inode dd = n).
  Context (Hempty : K d = []) (Hnm : ~ mountpoint_at s d) (Hroot : forall m, m ∈ fs_mounts s -> m_root m <> n).
  Context (HF : forest (fs_dentries s') (upd K p (l1 ++ l2))) (HG : dinfo <$> fs_dentries s' = delete d (dinfo <$> fs_dentries s)).
  Context (HI : delete n (ikey <$> fs_inodes s') = delete n (ikey <$> fs_inodes s)).
  Context (Hkept : forall y, fs_inodes s' !! n = Some y -> exists x, fs_inodes s !! n = Some x
    /\ ikey y = ((is_dir x, PNull), (i_destroy x, i_create x), (i_dev x, u32 (i_nlink x - 1)))).
  Context (Hfreed : fs_inodes s' !! n = None -> links s' n = 0).
  Context (HM : fs_mounts s' = fs_mounts s) (HB : fs_block s <= fs_block s').

Lemma rem_in : d ∈ K p.
Proof using HK. clear - HK. rewrite HK. set_solver. Qed.

Lemma rem_sub q c : c ∈ upd K p (l1 ++ l2) q <-> c ∈ K q /\ c <> d.
Proof using HT HK.
  pose proof (fr_nodup _ _ (t_forest _ _ HT) p) as Hnd. rewrite HK, <- Permutation_middle in Hnd. apply NoDup_cons in Hnd as [Hnd _].
  destruct (decide (q = p)) as [->|Hq]; [rewrite upd_eq, HK; clear - Hnd; set_solver|]. rewrite upd_ne by done. split; [|by intros [? _]]. intros Hc. split; [done|].
  intros ->. apply Hq. eapply (kid_unique _ _ (t_forest _ _ HT)); [done|apply rem_in].
Qed.

Lemma rem_links m : links s m = links s' m + if decide (n = m) then 1 else 0.
Proof.
  unfold links. rewrite HM, (dinfo_inode (fs_dentries s')), HG, fmap_delete, <- dinfo_inode.
  rewrite (naming_delete (d_inode <$> fs_dentries s) d n m) by (by rewrite lookup_fmap, Hd, <- Hn). case_decide; lia.
Qed.

Lemma rem_dentry c dc : fs_dentries s' !! c = Some dc -> c <> d /\ exists dc0, fs_dentries s !! c = Some dc0
  /\ d_name dc0 = d_name dc /\ d_inode dc0 = d_inode dc /\ d_parent dc0 = d_parent dc.
Proof.
  intros Hc. pose proof (dinfo_look _ _ _ _ HG Hc) as H. apply lookup_delete_Some in H as [Hcd H]. split; [done|]. by eapply dinfo_some.
Qed.

Lemma rem_keep c dc0 : fs_dentries s !! c = Some dc0 -> c <> d -> exists dc, fs_dentries s' !! c = Some dc
  /\ d_name dc = d_name dc0 /\ d_inode dc = d_inode dc0 /\ d_parent dc = d_parent dc0.
Proof. intros Hc Hcd. eapply dinfo_some; [exact HG|]. rewrite lookup_delete_ne by done. by eapply dinfo_look. Qed.

(** Nothing hangs below the one that goes. *)
Lemma rem_leaf c dc : fs_dentries s !! c = Some dc -> d_parent dc <> d.
Proof.
  intros Hc E. assert (d <> 0) as Hd0 by (intros E0; rewrite E0, (fr_null _ _ (t_forest _ _ HT)) in Hd; done).
  destruct (t_kids _ _ HT c dc Hc) as [H|[H|H]]; rewrite E in *; [done|rewrite Hempty in H; by apply not_elem_of_nil in H|done|apply (H p), rem_in].
Qed.

Lemma rem_up c : is_Some (fs_dentries s' !! c) -> exists l, anc (d_parent <$> fs_dentries s') c l.
Proof.
  intros [dc Hc]. destruct (rem_dentry c dc Hc) as (Hcd & dc0 & Hc0 & _). destruct (t_up _ _ HT c) as [l Hl]; [eauto|]. exists l.
  rewrite dinfo_parent, HG, fmap_delete, <- dinfo_parent. clear Hc Hc0. induction Hl as [|y q l Hy Hq Hl IH]; [constructor|].
  eapply anc_up; [done|by rewrite lookup_delete_ne|]. apply IH. apply lookup_fmap_Some in Hq as (dy & <- & Hdy). by apply rem_leaf with (1 := Hdy).
Qed.

Lemma rem_inode k y : fs_inodes s' !! k = Some y -> exists x, fs_inodes s !! k = Some x /\ is_dir y = is_dir x /\ i_destroy y = i_destroy x /\ i_create y = i_create x
  /\ i_dev y = i_dev x /\ (k = n /\ i_nlink y = u32 (i_nlink x - 1) /\ dir_ptr y = PNull \/ k <> n /\ i_nlink y = i_nlink x /\ dir_ptr y = dir_ptr x).
Proof.
  intros Hy. destruct (decide (k = n)) as [->|Hk].
  - destruct (Hkept y Hy) as (x & Hx & [= E1 E2 E3 E4 E5 E6]). exists x. split_and!; try done. left. done.
  - destruct (delete_look ikey _ _ _ _ _ HI Hk Hy) as (x & Hx & [= E1 E2 E3 E4 E5 E6]). exists x. split_and!; try done. right. done.
Qed.

Lemma rem_node c dc : fs_dentries s' !! c = Some dc -> exists x, fs_inodes s' !! d_inode dc = Some x /\ node_ok c x.
Proof.
  intros Hc. destruct (rem_dentry c dc Hc) as (Hcd & dc0 & Hc0 & _ & En & _). destruct (t_node _ _ HT c dc0 Hc0) as (x & Hx & Hok). rewrite En in Hx.
  destruct (fs_inodes s' !! d_inode dc) as [y|] eqn:Hy.
  - exists y. split; [done|]. destruct (rem_inode _ y Hy) as (x0 & Hx0 & E1 & E3 & _ & _ & Hor). assert (x0 = x) as -> by congruence.
    split; [rewrite E1|rewrite E3; apply Hok]. intros Hdir. destruct Hor as [(Ek & _ & _)|(_ & _ & E2)]; [|rewrite (dir_ptr_eq x y) by done; by apply Hok].
    destruct (t_node _ _ HT d dd Hd) as (x1 & Hx1 & Hok1). rewrite Hn, <- Ek, Hx in Hx1. injection Hx1 as <-.
    pose proof (n_own _ _ Hok Hdir). pose proof (n_own _ _ Hok1 Hdir). congruence.
  - exfalso. destruct (decide (d_inode dc = n)) as [E|E]; [|destruct (delete_look ikey (fs_inodes s') (fs_inodes s) n _ x (eq_sym HI) E Hx) as (? & ? & _); congruence].
    rewrite E in Hy. specialize (Hfreed Hy). unfold links in Hfreed. apply (naming_zero (d_inode <$> fs_dentries s') n) with (d := c); [lia|]. by rewrite lookup_fmap, Hc, <- E.
Qed.

Lemma rem_mount m : m ∈ fs_mounts s' -> mount_ok s' m.
Proof.
  rewrite HM. intros Hm. destruct (t_mounts _ _ HT m Hm) as [(x & Hx & Hdir) Hdev (m' & de & Hm' & Hde & Er) Hcov Hheld]. split.
  - destruct (delete_look ikey (fs_inodes s') (fs_inodes s) n (m_root m) x (eq_sym HI)) as (y & Hy & [= E1 _ _ _ _ _]); [by apply Hroot|done|]. exists y. split; [done|congruence].
  - intros c dc dp x1 y1 Hc Ec Hdp Hx1 Hy1. destruct (rem_dentry c dc Hc) as (Hcd & dc0 & Hc0 & _ & En0 & Ep0). destruct (rem_dentry _ dp Hdp) as (_ & dp0 & Hdp0 & _ & Ei0 & _).
    destruct (rem_inode _ x1 Hx1) as (x2 & Hx2 & _ & _ & _ & -> & _). destruct (rem_inode _ y1 Hy1) as (y2 & Hy2 & _ & _ & _ & -> & _).
    apply (Hdev c dc0 dp0); try done; congruence.
  - destruct (rem_keep _ de Hde) as (de' & Hde' & _ & Ei & _); [intros E; apply Hnm; by exists m|]. exists m', de'. rewrite HM. split_and!; [done|done|congruence].
  - destruct Hcov as [?|[z Hz]]; [by left|right]. destruct (decide (m_covered m = n)) as [En|Hne].
    + destruct (fs_inodes s' !! m_covered m) as [y|] eqn:Hy; [eauto|]. exfalso. rewrite En in Hy. specialize (Hfreed Hy). unfold links in Hfreed. rewrite HM in Hfreed.
      assert (m ∈ filter (fun m => m_covered m = n) (fs_mounts s)) as Hin by (apply list_elem_of_filter; done).
      destruct (filter _ (fs_mounts s)); [by apply not_elem_of_nil in Hin|simpl in Hfreed; lia].
    + destruct (delete_look ikey (fs_inodes s') (fs_inodes s) n _ z (eq_sym HI) Hne Hz) as (? & ? & _). eauto.
  - pose proof (rem_links (m_root m)) as EL. rewrite decide_False in EL by (apply not_eq_sym; by apply Hroot). lia.
Qed.

Lemma tree_remove : tree s' (upd K p (l1 ++ l2)).
Proof.
  split; [done|exact rem_node| | | | | | |exact rem_up| | |exact rem_mount].
  - intros k y Hy Hdir. destruct (rem_inode k y Hy) as (x & Hx & E1 & _ & _ & _ & Hor). rewrite <- (dir_ptr_dir y Hdir). rewrite E1 in Hdir.
    destruct Hor as [(_ & _ & ->)|(Hk & _ & ->)]; [by left|]. rewrite dir_ptr_dir by done. unfold mountpoint_at. rewrite HM.
    destruct (t_dir _ _ HT k x Hx Hdir) as [?|(c & dc & Ec & Hc & Hor)]; [by left|]. right.
    destruct (rem_keep c dc Hc) as (dc' & Hc' & _ & Ei & _); [|exists c, dc'; by rewrite Ei]. intros ->. destruct Hor as [E|E]; [|done]. congruence.
  - intros k y Hy. destruct (rem_inode k y Hy) as (x & Hx & _ & _ & -> & _). by eapply (t_create _ _ HT).
  - intros q c1 c2 e1 e2 [H1 _]%rem_sub [H2 _]%rem_sub Hc1 Hc2 E. destruct (rem_dentry c1 e1 Hc1) as (_ & f1 & Hf1 & E1 & _), (rem_dentry c2 e2 Hc2) as (_ & f2 & Hf2 & E2 & _).
    apply (t_names _ _ HT q c1 c2 f1 f2); try done. congruence.
  - intros k y Hy Hor. pose proof (rem_links k) as EL. destruct (rem_inode k y Hy) as (x & Hx & _ & E3 & _ & _ & [(Ek & Enl & _)|(Hk & Enl & _)]).
    + rewrite Enl. rewrite decide_True in EL by done. rewrite (t_links _ _ HT k x Hx), EL; [unfold u32; rewrite Zminus_mod_idemp_l; f_equal; lia|]. right.
      intros H0. apply (naming_zero _ _ H0 d). by rewrite lookup_fmap, Hd, Ek, <- Hn.
    + rewrite Enl. rewrite decide_False in EL by done. rewrite (t_links _ _ HT k x Hx), EL; [f_equal; lia|]. rewrite <- E3. destruct Hor as [?|Hor]; [by left|right].
      rewrite (dinfo_inode (fs_dentries s')), HG, fmap_delete, <- dinfo_inode in Hor.
      rewrite (naming_delete (d_inode <$> fs_dentries s) d n k) by (by rewrite lookup_fmap, Hd, <- Hn). lia.
  - destruct (t_null _ _ HT) as [Hz Hb]. split; [|lia]. destruct (fs_inodes s' !! 0) as [y|] eqn:Hy; [|done]. destruct (rem_inode 0 y Hy) as (? & ? & _). congruence.
  - intros k Hk. destruct (t_fresh _ _ HT k) as [Hkd Hki]; [lia|]. split.
    + destruct (fs_dentries s' !! k) as [dk|] eqn:Ek; [|done]. destruct (rem_dentry k dk Ek) as (_ & ? & ? & _). congruence.
    + destruct (fs_inodes s' !! k) as [y|] eqn:Hy; [|done]. destruct (rem_inode k y Hy) as (? & ? & _). congruence.
  - unfold mountpoint_at. rewrite HM. intros c dc Hc Hp0. destruct (rem_dentry c dc Hc) as (Hcd & dc0 & Hc0 & _ & _ & Ep). rewrite <- Ep in Hp0 |- *.
    destruct (t_kids _ _ HT c dc0 Hc0 Hp0) as [H|[H|H]]; [left; by apply rem_sub|by right; left|right; right]. intros q [Hq _]%rem_sub. by apply (H q).
  - intros q c dq y [Hc _]%rem_sub Hq Hy. destruct (rem_dentry q dq Hq) as (_ & dq0 & Hq0 & _ & En & _). rewrite <- En in Hy.
    destruct (rem_inode _ y Hy) as (x & Hx & -> & _). by eapply (t_leaf _ _ HT).
Qed.

Lemma view_remove q : view s' (upd K p (l1 ++ l2)) q = if decide (q = p) then delete (d_name dd) (view s K p) else view s K q.
Proof.
  assert (dkey <$> fs_dentries s' = delete d (dkey <$> fs_dentries s)) as EK by by rewrite !dinfo_key, HG, fmap_delete.
  unfold view. rewrite (entries_ext (dkey <$> fs_dentries s)) by (intros c [_ Hc]%rem_sub; by rewrite EK, lookup_delete_ne).
  case_decide as E; [subst q; rewrite upd_eq, HK|by rewrite upd_ne]. apply (entries_remove _ _ _ _ _ n); [by rewrite lookup_fmap, Hd, <- Hn|]. rewrite <- HK. by apply tree_distinct.
Qed.
End Remove.

(** ** A name moved *)

Section Move.
  Context (s s' : fs) (K : Z -> list Z) (p q d n : Z) (dd : dentry) (l1 l2 : list Z) (nname : string).
  Context (HT : tree s K) (HK : K p = l1 ++ d :: l2) (Hd : fs_dentries s !! d = Some dd) (Hn : d_inode dd = n).
  Context (Hqdir : exists dp y, fs_dentries s !! q = Some dp /\ fs_inodes s !! d_inode dp = Some y /\ is_dir y = true).
  Context (Hq : is_Some (fs_dentries s !! q)) (Hfar : forall l, anc (d_parent <$> fs_dentries s) q l -> d ∉ l).
  Context (Hroot : forall m, m ∈ fs_mounts s -> m_root m <> n).
Definition taken : Z -> list Z := upd K p (l1 ++ l2).
Definition moved : Z -> list Z := upd taken q (taken q ++ [d]).
  Context (Hnew : entries (dkey <$> fs_dentries s) (taken q) !! nname = None).
  Context (HF : forest (fs_dentries s') moved) (HG : dinfo <$> fs_dentries s' = <[d := (nname, n, q)]> (dinfo <$> fs_dentries s)).
  Context (HI : ikey <$> fs_inodes s' = ikey <$> fs_inodes s) (HM : fs_mounts s' = fs_mounts s) (HB : fs_block s <= fs_block s').

Lemma mov_in : d ∈ K p.
Proof using HK. clear - HK. rewrite HK. set_solver. Qed.

Lemma mov_taken r c : c ∈ taken r <-> c ∈ K r /\ c <> d.
Proof. exact (rem_sub s K p d l1 l2 HT HK r c). Qed.

Lemma mov_sub r c : c ∈ moved r <-> c <> d /\ c ∈ K r \/ c = d /\ r = q.
Proof.
  unfold moved. destruct (decide (r = q)) as [->|Hr].
  - rewrite upd_eq, elem_of_app, list_elem_of_singleton, mov_taken. naive_solver.
  - rewrite upd_ne, mov_taken by done. naive_solver.
Qed.

Lemma mov_dentry c dc : fs_dentries s' !! c = Some dc ->
  c = d /\ d_name dc = nname /\ d_inode dc = n /\ d_parent dc = q
  \/ c <> d /\ exists dc0, fs_dentries s !! c = Some dc0 /\ d_name dc0 = d_name dc /\ d_inode dc0 = d_inode dc /\ d_parent dc0 = d_parent dc.
Proof.
  intros Hc. pose proof (dinfo_look _ _ _ _ HG Hc) as H. destruct (decide (c = d)) as [->|Hcd].
  - left. rewrite lookup_insert_eq in H. by injection H as -> -> ->.
  - right. split; [done|]. rewrite lookup_insert_ne in H by done. by eapply dinfo_some.
Qed.

(** Inodes stay with their dentries. *)
Lemma mov_inode_of c dc0 : fs_dentries s !! c = Some dc0 -> exists dc, fs_dentries s' !! c = Some dc /\ d_inode dc = d_inode dc0.
Proof.
  intros Hc. destruct (decide (c = d)) as [->|Hcd].
  - destruct (dinfo_some _ _ d nname n q HG) as (dc & ? & _ & ? & _); [apply lookup_insert_eq|]. exists dc. split; [done|congruence].
  - destruct (dinfo_some _ _ c (d_name dc0) (d_inode dc0) (d_parent dc0) HG) as (dc & ? & _ & ? & _); [rewrite lookup_insert_ne by done; by eapply dinfo_look|eauto].
Qed.

Lemma mov_inode_back c dc : fs_dentries s' !! c = Some dc -> exists dc0, fs_dentries s !! c = Some dc0 /\ d_inode dc0 = d_inode dc.
Proof. intros Hc. destruct (mov_dentry c dc Hc) as [(-> & _ & E & _)|(_ & dc0 & ? & _ & ? & _)]; [exists dd; split; [done|congruence]|eauto]. Qed.

Lemma mov_naming : d_inode <$> fs_dentries s' = d_inode <$> fs_dentries s.
Proof. rewrite dinfo_inode, HG, fmap_insert, <- dinfo_inode. apply insert_id. by rewrite lookup_fmap, Hd, <- Hn. Qed.

Lemma mov_up c : is_Some (fs_dentries s' !! c) -> exists l, anc (d_parent <$> fs_dentries s') c l.
Proof.
  intros [dc Hc]. destruct (mov_inode_back c dc Hc) as (dc0 & Hc0 & _). destruct (t_up _ _ HT c) as [l Hl]; [eauto|].
  destruct (t_up _ _ HT q Hq) as [lq Hlq]. assert (d_parent <$> fs_dentries s' = <[d := q]> (d_parent <$> fs_dentries s)) as EP by by rewrite !dinfo_parent, HG, fmap_insert.
  assert (anc (d_parent <$> fs_dentries s') q lq) as Hlq'.
  { eapply anc_ext; [exact Hlq|]. intros x Hx. rewrite EP. apply lookup_insert_ne. intros <-. by apply (Hfar lq). }
  clear Hc Hc0. induction Hl as [|y r l Hy Hr Hl [l' IH]]; [exists []; constructor|]. destruct (decide (y = d)) as [->|Hyd].
  - exists (d :: lq). eapply anc_up; [done|by rewrite EP, lookup_insert_eq|done].
  - exists (y :: l'). eapply anc_up; [done|by rewrite EP, lookup_insert_ne|done].
Qed.

Lemma mov_names r c1 c2 e1 e2 : c1 ∈ moved r -> c2 ∈ moved r -> fs_dentries s' !! c1 = Some e1 -> fs_dentries s' !! c2 = Some e2 -> d_name e1 = d_name e2 -> c1 = c2.
Proof.
  assert (forall c e, c <> d -> c ∈ K q -> fs_dentries s' !! c = Some e -> d_name e = nname -> False) as Hno.
  { intros c e Hcd Hcq Hc En. destruct (mov_dentry c e Hc) as [(? & _)|(_ & e0 & He0 & E0 & _)]; [done|].
    assert (distinct (dkey <$> fs_dentries s) (taken q)) as Hds.
    { unfold taken. destruct (decide (q = p)) as [->|]; [rewrite upd_eq|rewrite upd_ne by done; by apply tree_distinct].
      apply (distinct_mid _ l1 d l2). rewrite <- HK. by apply tree_distinct. }
    assert (entries (dkey <$> fs_dentries s) (taken q) !! nname = Some (d_inode e0)) as Ev; [|congruence].
    apply entries_lookup; [done|]. exists c. split; [by apply mov_taken|]. rewrite lookup_fmap, He0. simpl. unfold dkey. congruence. }
  intros [[H1 H1k]|[-> H1]]%mov_sub [[H2 H2k]|[-> H2]]%mov_sub Hc1 Hc2 E; [|..|done].
  - destruct (mov_dentry c1 e1 Hc1) as [(? & _)|(_ & f1 & Hf1 & E1 & _)]; [done|]. destruct (mov_dentry c2 e2 Hc2) as [(? & _)|(_ & f2 & Hf2 & E2 & _)]; [done|].
    apply (t_names _ _ HT r c1 c2 f1 f2); try done. congruence.
  - subst r. destruct (mov_dentry d e2 Hc2) as [(_ & E2 & _)|(? & _)]; [|done]. destruct (Hno c1 e1); try done. congruence.
  - subst r. destruct (mov_dentry d e1 Hc1) as [(_ & E1 & _)|(? & _)]; [|done]. destruct (Hno c2 e2); try done. congruence.
Qed.

Lemma mov_mount m : m ∈ fs_mounts s' -> mount_ok s' m.
Proof.
  rewrite HM. intros Hm. destruct (t_mounts _ _ HT m Hm) as [(x & Hx & Hdir) Hdev (m' & de & Hm' & Hde & Er) Hcov Hheld]. split.
  - destruct (fmap_back ikey (fs_inodes s') (fs_inodes s) (m_root m) x (eq_sym HI) Hx) as (y & Hy & [= E1 _ _ _ _ _]). exists y. split; [done|congruence].
  - intros c dc dp x1 y1 Hc Ec Hdp Hx1 Hy1. destruct (mov_dentry c dc Hc) as [(_ & _ & E & _)|(Hcd & dc0 & Hc0 & _ & En0 & Ep0)]; [exfalso; apply (Hroot m Hm); congruence|].
    destruct (mov_inode_back _ dp Hdp) as (dp0 & Hdp0 & Ei0).
    destruct (fmap_back ikey _ _ _ x1 HI Hx1) as (x2 & Hx2 & [= _ _ _ _ Ex _]). destruct (fmap_back ikey _ _ _ y1 HI Hy1) as (y2 & Hy2 & [= _ _ _ _ Ey _]).
    rewrite <- Ex, <- Ey. apply (Hdev c dc0 dp0); try done; congruence.
  - destruct (mov_inode_of _ de Hde) as (de' & Hde' & Ei). exists m', de'. rewrite HM. split_and!; [done|done|congruence].
  - destruct Hcov as [?|[z Hz]]; [by left|right]. destruct (fmap_back ikey (fs_inodes s') (fs_inodes s) _ z (eq_sym HI) Hz) as (? & ? & _). eauto.
  - unfold links in *. by rewrite mov_naming, HM.
Qed.

Lemma tree_move : tree s' moved.
Proof.
  assert (forall k, links s' k = links s k) as EL by (intros k; unfold links; by rewrite mov_naming, HM).
  split; [done| | | |exact mov_names| | | |exact mov_up| | |exact mov_mount].
  - intros c dc Hc. destruct (mov_inode_back c dc Hc) as (dc0 & Hc0 & Ei). destruct (t_node _ _ HT c dc0 Hc0) as (x & Hx & Hok). rewrite Ei in Hx.
    destruct (fmap_back ikey (fs_inodes s') (fs_inodes s) _ x (eq_sym HI) Hx) as (y & Hy & [= E1 E2 E3 _ _ _]). exists y. split; [done|by apply (node_ok_key c x)].
  - intros k y Hy Hdir. destruct (fmap_back ikey _ _ _ y HI Hy) as (x & Hx & [= E1 E2 _ _ _ _]). rewrite <- (dir_ptr_dir y Hdir), <- E2, dir_ptr_dir by congruence. unfold mountpoint_at. rewrite HM.
    destruct (t_dir _ _ HT k x Hx) as [?|(c & dc & Ec & Hc & Hor)]; [congruence|by left|]. right. destruct (mov_inode_of c dc Hc) as (dc' & Hc' & Ei). exists c, dc'. by rewrite Ei.
  - intros k y Hy. destruct (fmap_back ikey _ _ _ y HI Hy) as (x & Hx & [= _ _ _ E4 _ _]). rewrite <- E4. by eapply (t_create _ _ HT).
  - intros k y Hy Hor. destruct (fmap_back ikey _ _ _ y HI Hy) as (x & Hx & [= _ _ E3 _ _ E6]). rewrite mov_naming, <- E3 in Hor. rewrite <- E6, EL. by eapply (t_links _ _ HT).
  - destruct (t_null _ _ HT). split; [by eapply fmap_none|lia].
  - intros k Hk. destruct (t_fresh _ _ HT k) as [Hkd ?]; [lia|]. split; [|by eapply fmap_none].
    destruct (fs_dentries s' !! k) as [dk|] eqn:Ek; [|done]. destruct (mov_inode_back k dk Ek) as (? & ? & _). congruence.
  - unfold mountpoint_at. rewrite HM. intros c dc Hc Hp0. destruct (mov_dentry c dc Hc) as [(-> & _ & _ & Ep)|(Hcd & dc0 & Hc0 & _ & _ & Ep)].
    + left. rewrite Ep. apply mov_sub. by right.
    + rewrite <- Ep in Hp0 |- *. destruct (t_kids _ _ HT c dc0 Hc0 Hp0) as [H|[H|H]]; [left; apply mov_sub; by left|by right; left|right; right].
      intros r [[_ Hr]|[E _]]%mov_sub; [by apply (H r)|]. apply (H p). rewrite E. apply mov_in.
  - intros r c dr y Hc Hr Hy. destruct (mov_inode_back r dr Hr) as (dr0 & Hr0 & Ei). rewrite <- Ei in Hy. destruct (fmap_back ikey _ _ _ y HI Hy) as (x & Hx & [= E1 _ _ _ _ _]).
    rewrite <- E1. apply mov_sub in Hc as [[_ Hc]|[_ ->]]; [by eapply (t_leaf _ _ HT)|]. destruct Hqdir as (dp & y0 & Hdp & Hy0 & Hd0). congruence.
Qed.

Lemma view_move r : view s' moved r =
  let v := if decide (r = p) then delete (d_name dd) (view s K p) else view s K r in
  if decide (r = q) then <[nname := n]> v else v.
Proof.
  assert (dkey <$> fs_dentries s' = <[d := (nname, n)]> (dkey <$> fs_dentries s)) as EK by by rewrite !dinfo_key, HG, fmap_insert.
  assert (forall r, entries (dkey <$> fs_dentries s') (taken r) = entries (dkey <$> fs_dentries s) (taken r)) as Eold.
  { intros r'. apply entries_ext. intros c [_ Hc]%mov_taken. by rewrite EK, lookup_insert_ne. }
  assert (forall r, entries (dkey <$> fs_dentries s) (taken r) = if decide (r = p) then delete (d_name dd) (view s K p) else view s K r) as Et.
  { intros r'. unfold taken. case_decide as E; [subst r'; rewrite upd_eq; unfold view; rewrite HK|by rewrite upd_ne].
    apply (entries_remove _ _ _ _ _ n); [by rewrite lookup_fmap, Hd, <- Hn|]. rewrite <- HK. by apply tree_distinct. }
  cbv zeta. rewrite <- Et. unfold view at 1, moved. destruct (decide (r = q)) as [->|Hr]; [rewrite upd_eq|by rewrite upd_ne].
  rewrite (entries_snoc _ _ _ nname n); [by rewrite Eold|by rewrite EK, lookup_insert_eq|by rewrite Eold].
Qed.
End Move.
