(* ===== verification/VfsOps.v ===== *)
(** * Operations on names

    vfs_create, vfs_unlink, vfs_rmdir, vfs_link and vfs_rename keep the tree
    of names and do to the directories, as maps from names to inodes, what
    they promise; when they fail they change nothing, and the error is the
    one the checks give. *)
From S2P Require Import Prelude Types Cred Pipe VfsState Forest Ramfs Vfs VfsTree VfsEdit.

(** Everything but inodes, dentries, counters and the heap. *)
Definition aside (s s' : fs) : Prop :=
  fs_files s' = fs_files s /\ fs_pipes s' = fs_pipes s /\ fs_mounts s' = fs_mounts s /\ fs_root s' = fs_root s
  /\ fs_now s' = fs_now s /\ fs_cur s' = fs_cur s /\ fs_woken s' = fs_woken s /\ fs_block s <= fs_block s'.

#[global] Instance aside_preorder : PreOrder aside.
Proof. split; [intros s; by split_and!|]. intros s1 s2 s3 H1 H2. unfold aside in *. destruct_and!. split_and!; congruence || lia. Qed.

(** Nothing changed but the counters and the heap. *)
Definition idle (s s' : fs) : Prop := fs_inodes s' = fs_inodes s /\ fs_dentries s' = fs_dentries s /\ aside s s'.

#[global] Instance idle_preorder : PreOrder idle.
Proof. split; [intros s; by split_and!|]. intros s1 s2 s3 (H1 & H2 & H3) (H4 & H5 & H6). split_and!; [congruence|congruence|by transitivity s2]. Qed.

Lemma idle_calm s s' : idle s s' -> calm s s'.
Proof. intros (E1 & E2 & _ & _ & E3 & _ & _ & _ & _ & E4). split_and!; [by rewrite E1|done|done|done]. Qed.

Lemma aside_inodes I s : aside s (set_fs_inodes I s).
Proof. by split_and!. Qed.

Lemma aside_dentries D s : aside s (set_fs_dentries D s).
Proof. by split_and!. Qed.

Lemma rest_d_aside s s' : rest_d s s' -> aside s s'.
Proof. unfold rest_d. intros H. destruct_and!. split_and!; congruence || lia. Qed.

(** ** Allocation *)

Lemma wp_alloc s (Q : Z -> fs -> Prop) :
  0 < fs_block s -> (forall s', idle s s' -> Q 0 s') -> (forall s', idle s s' -> fs_block s' = fs_block s + 1 -> Q (fs_block s) s') -> wp k_alloc Q s.
Proof. intros H0 HQ0 HQ1. apply wp_k_alloc; intros l; [apply HQ0|apply HQ1]; try done; unfold idle, aside; split_and!; simpl; try done; lia. Qed.

Lemma wp_ramfs_inode s type mode dev (Q : Z -> fs -> Prop) :
  0 < fs_block s -> (forall s', idle s s' -> Q 0 s') ->
  (forall s' ino_, fs_inodes s' = <[fs_block s := new_inode (fs_now s) ino_ type mode dev]> (fs_inodes s) -> fs_dentries s' = fs_dentries s -> aside s s' ->
    fs_block s' = fs_block s + 1 -> Q (fs_block s) s') -> wp (ramfs_inode type mode dev) Q s.
Proof.
  intros H0 HQ0 HQ1. unfold ramfs_inode. wp_step. apply wp_alloc; [done| |]; intros s1 Hi.
  - rewrite Z.eqb_refl. wp_steps. by apply HQ0.
  - intros Hb. rewrite (proj2 (Z.eqb_neq _ _)) by lia. unfold iput_at. wp_steps. destruct Hi as (Ei & Ed & Ha). pose proof Ha as (_ & _ & _ & _ & En & _).
    apply (HQ1 _ (fs_ino s1)); simpl; [by rewrite Ei, En|done| |done]. etransitivity; [exact Ha|]. by split_and!.
Qed.

(** ** A new dentry in a directory *)

Lemma attach_new_ok s s1 K p d name n (Q : unit -> fs -> Prop) :
  tree s K -> is_Some (fs_dentries s !! p) -> fs_dentries s !! d = None -> d <> 0 -> fs_dentries s1 = <[d := MkDentry name n 0 0 0 0]> (fs_dentries s) ->
  (forall s2, forest (fs_dentries s2) (upd K p (K p ++ [d])) -> dinfo <$> fs_dentries s2 = <[d := (name, n, p)]> (dinfo <$> fs_dentries s) -> rest_d s1 s2 -> Q tt s2) ->
  wp (vfs_add_child p d) Q s1.
Proof.
  intros HT [dp Hp] Hd Hd0 E1 HQ. destruct (forest_new _ K d (MkDentry name n 0 0 0 0) (t_forest _ _ HT) Hd Hd0) as [HF Hq]; [done|].
  assert (p <> d) as Hpd by congruence. eapply wp_mono.
  { apply (add_child_ok s1 K p d dp (MkDentry name n 0 0 0 0)); rewrite ?E1; [done|by rewrite lookup_insert_ne|apply lookup_insert_eq|done|done|done]. }
  intros [] s2 (HF2 & EK & EP & HR). apply HQ; [done| |done]. apply dinfo_eq.
  - by rewrite EK, E1, !fmap_insert, <- dinfo_key.
  - by rewrite EP, E1, !fmap_insert, insert_insert_eq, <- dinfo_parent.
Qed.

(** ** vfs_create *)

(** A new, empty file or directory. *)
Definition fresh_inode (now type mode dev : Z) (x : inode) : Prop :=
  i_flags x = type /\ i_mode x = Z.land mode 4095 /\ i_nlink x = 1 /\ i_refs x = 0 /\ i_length x = 0 /\ i_dev x = dev
  /\ i_atime x = now /\ i_mtime x = now /\ i_ctime x = now /\ i_read x = Some DRamfs /\ i_release x = None /\ i_destroy x = Some DRamfs
  /\ (is_dir x = false -> data_ok x /\ content_of x = [] /\ i_write x = Some DRamfs).

(** [name] now leads from [p] to [n], which alone has a name more. *)
Definition entered (s s' : fs) (K K' : Z -> list Z) (p : Z) (name : string) (n : Z) : Prop :=
  (forall q, view s' K' q = if decide (q = p) then <[name := n]> (view s K p) else view s K q) /\ forall m, links s' m = links s m + if decide (n = m) then 1 else 0.

(** Once the dentry is made: the tree with the new inode [x] in it. *)
Lemma enter_new s s' K p d n x name :
  tree s K -> (exists dp y, fs_dentries s !! p = Some dp /\ fs_inodes s !! d_inode dp = Some y /\ is_dir y = true) ->
  fs_block s <= d < fs_block s' -> fs_block s <= n < fs_block s' -> view s K p !! name = None ->
  forest (fs_dentries s') (upd K p (K p ++ [d])) -> dinfo <$> fs_dentries s' = <[d := (name, n, p)]> (dinfo <$> fs_dentries s) ->
  fs_inodes s' = <[n := x]> (fs_inodes s) -> node_ok d x -> i_create x = None \/ i_create x = Some DRamfs -> i_nlink x = 1 -> fs_mounts s' = fs_mounts s ->
  tree s' (upd K p (K p ++ [d])) /\ entered s s' K (upd K p (K p ++ [d])) p name n.
Proof.
  intros HT Hpd Hd Hn Hv HF HG HI Hok Hcr Hnl HM. assert (is_Some (fs_dentries s !! p)) as Hp by (destruct Hpd as (? & ? & ? & _); eauto). destruct (t_null _ _ HT) as [_ Hb].
  destruct (t_fresh _ _ HT d) as [Hfd _]; [lia|]. destruct (t_fresh _ _ HT n) as [_ Hfn]; [lia|]. split.
  - apply (tree_add s s' K p d n x name); try done; try lia.
    + by rewrite HI, fmap_insert, delete_insert_eq.
    + by rewrite HI, lookup_insert_eq.
    + rewrite (fresh_unlinked s K HT) by (done || lia). done.
    + intros x0 Hx0. congruence.
  - split; [intros q; apply view_add; done || lia|]. intros m. by eapply add_links.
Qed.

Definition type_ok (type : Z) : Prop := Z.land type VFS_TYPE = type.

Definition made_inode (now ino_ : Z) (name : string) (type mode dev d : Z) : inode :=
  let x := set_i_name name (new_inode now ino_ type mode dev) in
  if type =? VFS_DIRECTORY then set_i_create (Some DRamfs) (set_i_ptr (PDentry d) x) else x.

Lemma made_inode_ok now ino_ name type mode dev d : type_ok type ->
  let x := made_inode now ino_ name type mode dev d in
  fresh_inode now type mode dev x /\ node_ok d x /\ (i_create x = None \/ i_create x = Some DRamfs).
Proof.
  intros Ht. cbv zeta. unfold made_inode, fresh_inode. assert (is_dir (new_inode now ino_ type mode dev) = (type =? VFS_DIRECTORY)) as Hd by (unfold is_dir, itype; simpl; by rewrite Ht).
  destruct (Z.eqb_spec type VFS_DIRECTORY) as [E|E].
  - split_and!; simpl; try done; [|split; [done|by right]|by right]. intros Hnd. change (is_dir (new_inode now ino_ type mode dev) = false) in Hnd. congruence.
  - change (is_dir (set_i_name name (new_inode now ino_ type mode dev)) = false) in Hd.
    split_and!; simpl; try done; [intros _; split_and!; [done|done|by rewrite (proj2 (Z.eqb_neq _ _) E)]|split; [congruence|by right]|by left].
Qed.

Lemma ramfs_create_ok s K dir dn p name type mode (Q : Z -> fs -> Prop) :
  tree s K -> fs_inodes s !! dir = Some dn -> is_dir dn = true -> i_ptr dn = PDentry p -> is_Some (fs_dentries s !! p) -> name_fits name = true ->
  view s K p !! name = None -> type_ok type -> (forall s', idle s s' -> Q 0 s') ->
  (forall n s' x K', n <> 0 -> fs_inodes s !! n = None -> fs_inodes s' = <[n := x]> (fs_inodes s) -> fresh_inode (fs_now s) type mode (i_dev dn) x ->
    tree s' K' -> entered s s' K K' p name n -> aside s s' -> Q n s') ->
  wp (ramfs_create dir name type mode) Q s.
Proof.
  intros HT Hdir Hisd Hptr Hp Hfit Hv Ht HQ0 HQ1. destruct (t_null _ _ HT) as [_ Hb]. unfold ramfs_create. wp_step. eapply wp_ino; [done|]. wp_step.
  apply wp_ramfs_inode; [done| |]; intros s1.
  { intros Hi. wp_step. apply wp_alloc; [destruct Hi as (_ & _ & Ha); pose proof Ha as (_ & _ & _ & _ & _ & _ & _ & ?); lia| |]; intros s2 Hi2; [|intros _];
      rewrite Z.eqb_refl; cbn [orb negb]; wp_steps; try done; apply HQ0; by transitivity s1. }
  intros ino_ EI ED Ha Hb1. set (n := fs_block s) in *. destruct (t_fresh _ _ HT n) as [_ Hfn]; [lia|]. assert ((n =? 0) = false) as En0 by (apply Z.eqb_neq; lia).
  wp_step. apply wp_alloc; [lia| |]; intros s2 (EI2 & ED2 & Ha2).
  { rewrite Z.eqb_refl, orb_true_r. rewrite En0. cbn [negb]. wp_step. apply wp_when; [intros _|done]. unfold ifree. wp_steps. apply HQ0. unfold idle. cbn [fs_inodes fs_dentries set_fs_inodes].
    split_and!; [by rewrite EI2, EI, delete_insert_id|congruence|]. etransitivity; [exact Ha|]. etransitivity; [exact Ha2|apply aside_inodes]. }
  intros Hb2. set (d := fs_block s1) in *. assert ((d =? 0) = false) as Ed0 by (apply Z.eqb_neq; lia). rewrite En0, Ed0, Hfit. cbn [orb negb]. unfold dput_at. wp_step. wp_step. wp_step.
  eapply wp_iset; [simpl; rewrite EI2, EI; apply lookup_insert_eq|]. set (x := made_inode (fs_now s) ino_ name type mode (i_dev dn) d). cbn [fs_inodes set_fs_dentries].
  rewrite EI2, EI, insert_insert_eq, ED2, ED. replace (if type =? VFS_DIRECTORY then _ else _) with x by (unfold x, made_inode; by destruct (type =? VFS_DIRECTORY)).
  assert (dir <> n) as Hdn by congruence. unfold dir_dentry. wp_step. wp_step. eapply wp_ino; [simpl; rewrite lookup_insert_ne by done; exact Hdir|]. rewrite Hptr. wp_step. wp_step.
  destruct (t_fresh _ _ HT d) as [Hfd _]; [lia|].
  eapply (attach_new_ok s _ K p d name n); [done|done|done|lia|done|]. intros s3 HF HG HR. wp_step.
  pose proof HR as (EI3 & _ & _ & EM3 & _ & _ & _ & _ & _ & EB3 & _). simpl in EI3, EM3, EB3. destruct (made_inode_ok (fs_now s) ino_ name type mode (i_dev dn) d Ht) as (Hf & Hok & Hcr).
  assert (aside s s3) as Ha3.
  { etransitivity; [exact Ha|]. etransitivity; [exact Ha2|]. etransitivity; [|apply (rest_d_aside _ _ HR)]. by split_and!. }
  destruct (enter_new s s3 K p d n x name) as [HT' HE]; try done; [by eapply dir_dentry_dir|lia|lia|apply Hf|by destruct Ha3 as (_ & _ & ? & _)|].
  apply (HQ1 n s3 x (upd K p (K p ++ [d]))); try done. lia.
Qed.

Lemma calm_set s n x y : fs_inodes s !! n = Some x -> ikey y = ikey x -> calm s (set_fs_inodes (<[n := y]> (fs_inodes s)) s).
Proof. intros Hx E. split_and!; simpl; try done. rewrite fmap_insert, E. apply insert_id. by rewrite lookup_fmap, Hx. Qed.

Lemma ikey_adopt c dn type x : ikey (adopt c dn type x) = ikey x.
Proof. unfold adopt. destruct (negb _); [|done]. by destruct (type =? VFS_DIRECTORY). Qed.

(** A name can be entered in [dn] when this is [None]. *)
Definition create_error (s : fs) (K : Z -> list Z) (dn : inode) (name : string) : option Z :=
  if negb (is_dir dn) then Some (- ENOTDIR)
  else if NAME_MAX <? slen name then Some (- ENAMETOOLONG)
  else if bool_decide (is_Some (listing s K dn !! name)) then Some (- EEXIST)
  else if negb (has_create dn) then Some (- EPERM)
  else if removed dn then Some (- ENOENT)
  else if rofs s dn then Some (- EROFS)
  else let err := cred_permission (fs_cur s) dn (Z.lor MAY_WRITE MAY_EXEC) in if err <? 0 then Some err else None.

(** A file [x] made in [dir]: owned by its creator, and the directory touched. *)
Definition created (s s' : fs) (dir : Z) (dn : inode) (type mode n : Z) : Prop :=
  exists x, fresh_inode (fs_now s) type mode (i_dev dn) x
    /\ fs_inodes s' = <[dir := touched (fs_now s) (Z.lor VFS_MTIME VFS_CTIME) dn]> (<[n := adopt (fs_cur s) dn type x]> (fs_inodes s)).

Lemma found_nonnull s K x name c : found s K x name c -> negb (c =? 0) = bool_decide (is_Some (listing s K x !! name)).
Proof.
  unfold found. destruct (listing s K x !! name) as [n|]; [intros [Hc _]|intros ->].
  - rewrite bool_decide_true by eauto. by rewrite (proj2 (Z.eqb_neq _ _) Hc).
  - rewrite bool_decide_false; [done|]. by intros [? ?].
Qed.

Lemma vfs_create_ok s K dir dn name type mode :
  tree s K -> fs_inodes s !! dir = Some dn -> type_ok type ->
  wp (vfs_create dir name type mode) (fun r s' => match create_error s K dn name with
    | Some e => r = inl e /\ s' = s
    | None => r = inl (- ENOMEM) /\ idle s s' \/ exists n p K', r = inr n /\ i_ptr dn = PDentry p /\ n <> 0 /\ fs_inodes s !! n = None
        /\ tree s' K' /\ entered s s' K K' p name n /\ created s s' dir dn type mode n /\ aside s s' end) s.
Proof.
  intros HT Hdir Ht. unfold vfs_create, create_error. wp_step. eapply wp_ino; [done|]. destruct (is_dir dn) eqn:Hd; cbn [negb]; [|by wp_steps].
  destruct (Z.ltb_spec NAME_MAX (slen name)) as [|Hlen]; [by wp_steps|]. wp_step. eapply wp_vfs_child; [done|done|]. intros c Hc. rewrite (found_nonnull _ _ _ _ _ Hc).
  case_bool_decide as Hex; [by wp_steps|]. destruct (has_create dn) eqn:Hhc; cbn [negb]; [|by wp_steps]. destruct (removed dn) eqn:Hrm; [by wp_steps|].
  wp_step. eapply wp_vfs_readonly; [done|done|]. destruct (rofs s dn); [by wp_steps|]. wp_step. wp_step. cbv zeta.
  destruct (Z.ltb_spec (cred_permission (fs_cur s) dn (Z.lor MAY_WRITE MAY_EXEC)) 0); [by wp_steps|].
  destruct (t_dir _ _ HT dir dn Hdir Hd) as [Ep|(p & dp & Ep & Hp & _)]; [unfold removed in Hrm; by rewrite Ep in Hrm|].
  wp_step. unfold call_create. wp_step. eapply wp_ino; [done|]. unfold has_create in Hhc. destruct (t_create _ _ HT dir dn Hdir) as [E|E]; rewrite E in Hhc |- *; [done|].
  assert (view s K p !! name = None) as Hv. { unfold listing in Hex. rewrite Hd, Ep in Hex. by apply eq_None_not_Some. }
  eapply (ramfs_create_ok s K dir dn p); try done; [by apply Z.leb_le| |].
  - intros s' Hi. rewrite Z.eqb_refl. wp_steps. by left.
  - intros n s1 x K' Hn0 Hnn EI Hf HT1 HE Ha. rewrite (proj2 (Z.eqb_neq _ _) Hn0). wp_step.
    assert (fs_inodes s1 !! n = Some x) as Hx by (rewrite EI; apply lookup_insert_eq). assert (n <> dir) as Hnd by congruence.
    eapply wp_iset; [exact Hx|]. set (s2 := set_fs_inodes _ s1). assert (calm s1 s2) as Hc2 by (apply (calm_set s1 n x); [done|apply ikey_adopt]).
    assert (fs_inodes s2 !! dir = Some dn) as Hdir2 by (simpl; rewrite lookup_insert_ne, EI, lookup_insert_ne by done; done).
    wp_step. eapply wp_touch; [exact Hdir2|]. wp_step. set (s3 := set_fs_inodes _ s2). assert (calm s2 s3) as Hc3 by (by eapply calm_set).
    assert (fs_now s2 = fs_now s) as Enow by apply Ha. right. exists n, p, K'.
    split_and!; try done; [eapply tree_calm; [exact HT1|by transitivity s2]|].
    exists x. split; [done|]. unfold s3. cbn [fs_inodes set_fs_inodes]. rewrite Enow. unfold s2. cbn [fs_inodes set_fs_inodes]. by rewrite EI, insert_insert_eq.
Qed.

(** ** Removing a name *)

(** No inode has more names than a link count can hold. *)
Definition few (s : fs) : Prop := forall n, links s n < 2 ^ 32.

Lemma links_nonneg s n : 0 <= links s n.
Proof. unfold links. lia. Qed.

Lemma links_bound s n : few s -> 0 <= links s n < 2 ^ 32.
Proof. intros H. split; [apply links_nonneg|apply H]. Qed.

Lemma few_size s : Z.of_nat (size (fs_dentries s)) + Z.of_nat (length (fs_mounts s)) < 2 ^ 32 -> few s.
Proof.
  intros H n. unfold links. pose proof (naming_size (d_inode <$> fs_dentries s) n) as H1. rewrite map_size_fmap in H1.
  pose proof (length_filter (fun m => m_covered m = n) (fs_mounts s)). lia.
Qed.

(** [name] no longer leads anywhere from [p], and nothing has more names. *)
Definition erased (s s' : fs) (K K' : Z -> list Z) (p : Z) (name : string) : Prop :=
  (forall q, view s' K' q = if decide (q = p) then delete name (view s K p) else view s K q) /\ forall m, links s' m <= links s m.

(** The inode with one name less; a directory forgets its dentry. *)
Definition unnamed_inode (now : Z) (x : inode) : inode :=
  touched now VFS_CTIME (set_i_nlink (u32 (i_nlink x - 1)) (if is_dir x then set_i_ptr PNull x else x)).

(** It is freed exactly when it was the last name and nobody has it open. *)
Definition drop_inodes (s : fs) (dir : Z) (dn : inode) (n : Z) (x : inode) : gmap Z inode :=
  let I := <[dir := touched (fs_now s) (Z.lor VFS_MTIME VFS_CTIME) dn]> (fs_inodes s) in
  if decide (links s n = 1 /\ i_refs x = 0 /\ has_destroy x = true) then delete n I else <[n := unnamed_inode (fs_now s) x]> I.

Definition dropped (s s' : fs) (dir : Z) (dn : inode) (n : Z) (x : inode) : Prop := fs_inodes s' = drop_inodes s dir dn n x.

Section Drop.
  Context `{DR : Drivers}.

Lemma named_links s d dd : fs_dentries s !! d = Some dd -> 1 <= links s (d_inode dd).
Proof.
  intros Hd. unfold links. destruct (decide (naming (d_inode <$> fs_dentries s) (d_inode dd) = 0%nat)) as [E|]; [|lia].
  destruct (naming_zero _ _ E d). by rewrite lookup_fmap, Hd.
Qed.

(** Detaching and freeing the dentry, on the lists. *)
Lemma detach_free_ok s K p d dd (Q : unit -> fs -> Prop) :
  tree s K -> d ∈ K p -> K d = [] -> fs_dentries s !! d = Some dd ->
  (forall s' l1 l2, K p = l1 ++ d :: l2 -> forest (fs_dentries s') (upd K p (l1 ++ l2)) -> dinfo <$> fs_dentries s' = delete d (dinfo <$> fs_dentries s) ->
    fs_inodes s' = fs_inodes s -> aside s s' -> Q tt s') -> wp (detach d) (fun _ => wp (dfree d) Q) s.
Proof.
  intros HT Hk Kd Hd HQ. eapply wp_mono; [by apply (detach_ok s K p d (t_forest _ _ HT))|]. intros [] s1 (l1 & l2 & HK & HF & EK & EP & ES & HR & _).
  unfold dfree. wp_steps. assert (d <> p) as Hdp by (intros ->; by apply (fr_self _ _ (t_forest _ _ HT) p)).
  apply (HQ _ l1 l2); cbn [fs_dentries fs_inodes set_fs_dentries]; [done| | |apply HR|etransitivity; [by apply rest_d_aside|apply aside_dentries]].
  - apply forest_free; [done|by rewrite upd_ne|]. intros q Hq. by apply (rem_sub s K p d l1 l2 HT HK q d) in Hq as [_ ?].
  - apply dinfo_eq; rewrite !fmap_delete; [by rewrite EK, <- dinfo_key|by rewrite EP, <- dinfo_parent].
Qed.

Lemma unnamed_fields now x : let y := unnamed_inode now x in i_nlink y = u32 (i_nlink x - 1) /\ i_refs y = i_refs x /\ i_destroy y = i_destroy x
  /\ ikey y = ((is_dir x, PNull), (i_destroy x, i_create x), (i_dev x, u32 (i_nlink x - 1))).
Proof.
  cbv zeta. unfold unnamed_inode. destruct (is_dir x) eqn:E; split_and!; try done; unfold ikey, dir_ptr; cbn -[is_dir u32];
    change (is_dir (touched now VFS_CTIME (set_i_nlink (u32 (i_nlink x - 1)) ?z))) with (is_dir x); by rewrite E.
Qed.

Lemma removal_ok s s' K p d dd l1 l2 dir dn x :
  tree s K -> K p = l1 ++ d :: l2 -> K d = [] -> ~ mountpoint_at s d -> fs_dentries s !! d = Some dd -> (forall m, m ∈ fs_mounts s -> m_root m <> d_inode dd) ->
  fs_inodes s !! d_inode dd = Some x -> fs_inodes s !! dir = Some dn -> d_inode dd <> dir ->
  forest (fs_dentries s') (upd K p (l1 ++ l2)) -> dinfo <$> fs_dentries s' = delete d (dinfo <$> fs_dentries s) ->
  dropped s s' dir dn (d_inode dd) x -> aside s s' -> tree s' (upd K p (l1 ++ l2)) /\ erased s s' K (upd K p (l1 ++ l2)) p (d_name dd).
Proof.
  intros HT HK Kd Hmp Hd Hroot Hx Hdir Hne HF HG Hdr Ha. set (n := d_inode dd) in *. pose proof Ha as (_ & _ & EM & _ & _ & _ & _ & EB).
  unfold dropped, drop_inodes in Hdr. set (dn' := touched _ _ dn) in Hdr. assert (ikey <$> <[dir := dn']> (fs_inodes s) = ikey <$> fs_inodes s) as EI.
  { rewrite fmap_insert. apply insert_id. by rewrite lookup_fmap, Hdir. }
  split; [|split; [intros q; by apply (view_remove s s' K p d n)|intros m; pose proof (rem_links s s' d n dd Hd eq_refl HG EM m); destruct (decide (n = m)); lia]]. apply (tree_remove s s' K p d n dd l1 l2); try done.
  - case_decide; rewrite Hdr; [by rewrite fmap_delete, delete_delete_eq, EI|by rewrite fmap_insert, delete_insert_eq, EI].
  - intros y. case_decide; rewrite Hdr; [by rewrite lookup_delete_eq|]. rewrite lookup_insert_eq. intros [= <-]. exists x. split; [done|]. apply unnamed_fields.
  - intros Hnone. pose proof (rem_links s s' d n dd Hd eq_refl HG EM n) as EL. rewrite decide_True in EL by done. case_decide as Hc; [lia|]. by rewrite Hdr, lookup_insert_eq in Hnone.
Qed.

Lemma drop_ok s K p d dd dir dn x (Q : unit -> fs -> Prop) :
  tree s K -> few s -> d ∈ K p -> K d = [] -> ~ mountpoint_at s d -> fs_dentries s !! d = Some dd -> (forall m, m ∈ fs_mounts s -> m_root m <> d_inode dd) ->
  fs_inodes s !! d_inode dd = Some x -> fs_inodes s !! dir = Some dn -> d_inode dd <> dir ->
  (forall s' K', tree s' K' -> (forall c q, c ∈ K' q <-> c ∈ K q /\ c <> d) -> dinfo <$> fs_dentries s' = delete d (dinfo <$> fs_dentries s) ->
    erased s s' K K' p (d_name dd) -> dropped s s' dir dn (d_inode dd) x -> aside s s' -> Q tt s') ->
  wp (drop dir d) Q s.
Proof.
  intros HT Hfew Hk Kd Hmp Hd Hroot Hx Hdir Hne HQ. set (n := d_inode dd) in *. unfold drop. wp_step. eapply wp_dent; [exact Hd|]. fold n.
  cbv zeta. wp_step. eapply (wp_mono _ (fun _ => wp (dfree d) _)); [|intros [] s1 H; apply wp_bind; exact H].
  apply (detach_free_ok s K p d dd); [done..|]. intros s1 l1 l2 HK HF HG EI Ha. pose proof Ha as (_ & _ & EM & _ & Enow & _ & _ & EB).
  wp_step. eapply wp_iset; [rewrite EI; exact Hx|]. wp_step. eapply wp_touch; [apply lookup_insert_eq|]. cbn [fs_inodes fs_now set_fs_inodes]. rewrite insert_insert_eq.
  wp_step. eapply wp_touch; [cbn [fs_inodes set_fs_inodes]; rewrite lookup_insert_ne, EI by done; exact Hdir|]. cbn [fs_inodes fs_now set_fs_inodes]. rewrite EI, Enow.
  fold (unnamed_inode (fs_now s) x). set (y := unnamed_inode (fs_now s) x). set (dn' := touched _ _ dn). set (s2 := set_fs_inodes _ _).
  wp_step. eapply wp_ino; [cbn [s2 fs_inodes set_fs_inodes]; rewrite lookup_insert_ne, lookup_insert_eq by done; done|].
  pose proof (named_links s d dd Hd) as Hl1. fold n in Hl1. pose proof (links_bound s n Hfew) as Hlb.
  destruct (t_node _ _ HT d dd Hd) as (x0 & Hx0 & Hok). fold n in Hx0. rewrite Hx in Hx0. injection Hx0 as <-.
  destruct (unnamed_fields (fs_now s) x) as (Ey1 & Ey2 & Ey3 & _). fold y in Ey1, Ey2, Ey3. unfold has_destroy. rewrite Ey2, Ey3. fold (has_destroy x).
  assert (i_nlink x = u32 (links s n)) as Hnl by (apply (t_links _ _ HT n x Hx); right; intros E0; apply (naming_zero _ _ E0 d); by rewrite lookup_fmap, Hd).
  assert ((i_nlink y =? 0) = bool_decide (links s n = 1)) as Enl.
  { rewrite Ey1, Hnl. apply Bool.eq_iff_eq_true. rewrite Z.eqb_eq, bool_decide_eq_true. unfold u32. lia_div. }
  rewrite Enl. assert (forall s', fs_dentries s' = fs_dentries s1 -> aside s1 s' -> dropped s s' dir dn n x -> Q tt s') as Hfin.
  { intros s' ED Ha' Hdr. assert (aside s s') as Has by by transitivity s1. destruct (removal_ok s s' K p d dd l1 l2 dir dn x) as [HT' HE]; rewrite ?ED; try done.
    apply (HQ s' (upd K p (l1 ++ l2))); try done; [|by rewrite ED]. intros c q. by apply (rem_sub s K p d l1 l2 HT HK). }
  apply wp_when; intros Hb.
  - apply andb_true_iff in Hb as [[Hb1%bool_decide_eq_true Hb2%Z.eqb_eq]%andb_true_iff Hb3]. unfold call_destroy. wp_step.
    eapply wp_ino; [cbn [s2 fs_inodes set_fs_inodes]; rewrite lookup_insert_ne, lookup_insert_eq by done; done|]. rewrite Ey3. unfold has_destroy in Hb3.
    destruct (n_destroy _ _ Hok) as [E|E]; rewrite E in Hb3 |- *; [done|]. unfold ramfs_destroy. wp_step.
    eapply wp_ino; [cbn [s2 fs_inodes set_fs_inodes]; rewrite lookup_insert_ne, lookup_insert_eq by done; done|]. unfold ifree. wp_step.
    apply Hfin; [done|by split_and!|]. unfold dropped, drop_inodes. cbn [s2 fs_inodes set_fs_inodes]. rewrite decide_True by (unfold has_destroy; by rewrite E).
    by rewrite insert_insert_ne, delete_insert_eq by done.
  - apply Hfin; [done|by split_and!|]. unfold dropped, drop_inodes. cbn [s2 fs_inodes set_fs_inodes]. rewrite decide_False; [by apply insert_insert_ne|].
    intros (H1 & H2 & H3). rewrite bool_decide_true, H2, H3 in Hb by done. done.
Qed.

(** ** vfs_unlink and vfs_rmdir *)

Definition delete_error (s : fs) (dn vn : inode) : option Z :=
  let err := if rofs s dn then - EROFS else cred_permission (fs_cur s) dn (Z.lor MAY_WRITE MAY_EXEC) in
  if err <? 0 then Some err else if cred_may_delete (fs_cur s) dn vn then None else Some (- EPERM).

Lemma wp_may_delete s K dir dn victim vn (Q : Z -> fs -> Prop) :
  tree s K -> fs_inodes s !! dir = Some dn -> fs_inodes s !! victim = Some vn ->
  (forall r, match delete_error s dn vn with Some e => r = e /\ e < 0 | None => r = 0 end -> Q r s) -> wp (may_delete dir victim) Q s.
Proof.
  intros HT Hd Hv HQ. unfold may_delete. wp_step. eapply wp_vfs_readonly; [done|done|]. wp_step. eapply wp_ino; [done|]. wp_step. wp_step. cbv zeta. unfold delete_error in HQ.
  cbv zeta in HQ. destruct (Z.ltb_spec (if rofs s dn then - EROFS else cred_permission (fs_cur s) dn (Z.lor MAY_WRITE MAY_EXEC)) 0) as [Hl|Hl]; [wp_steps; by apply HQ|].
  wp_step. eapply wp_ino; [done|]. wp_steps. apply HQ. by destruct (cred_may_delete (fs_cur s) dn vn).
Qed.

Definition unlink_error (s : fs) (K : Z -> list Z) (dn : inode) (name : string) : option Z :=
  match listing s K dn !! name with
  | None => Some (if is_dir dn then - ENOENT else - ENOTDIR)
  | Some n => x ← fs_inodes s !! n; if is_dir x then Some (- EISDIR) else if negb (has_create dn) then Some (- EPERM) else delete_error s dn x
  end.

(** Whether directory [x] is on another device than the directory it is in. *)
Definition on_mount (s : fs) (x : inode) : bool :=
  match i_ptr x with
  | PDentry d => default false (dd ← fs_dentries s !! d; pd ← fs_dentries s !! d_parent dd; px ← fs_inodes s !! d_inode pd; Some (negb (i_dev x =? i_dev px)))
  | _ => false
  end.

Definition rmdir_error (s : fs) (K : Z -> list Z) (dn : inode) (name : string) : option Z :=
  match listing s K dn !! name with
  | None => Some (if is_dir dn then - ENOENT else - ENOTDIR)
  | Some n => x ← fs_inodes s !! n;
      if negb (is_dir x) then Some (- ENOTDIR) else if on_mount s x then Some (- EBUSY)
      else if bool_decide (listing s K x = ∅) then delete_error s dn x else Some (- ENOTEMPTY)
  end.

(** The name [name] of inode [n] is gone from directory [dir]. *)
Definition name_removed (s s' : fs) (K : Z -> list Z) (dir : Z) (dn : inode) (name : string) : Prop :=
  exists p n x K', i_ptr dn = PDentry p /\ listing s K dn !! name = Some n /\ fs_inodes s !! n = Some x
    /\ tree s' K' /\ erased s s' K K' p name /\ dropped s s' dir dn n x /\ aside s s'.

Lemma found_some s K dn name c : found s K dn name c -> c <> 0 ->
  exists p dc n, is_dir dn = true /\ i_ptr dn = PDentry p /\ c ∈ K p /\ fs_dentries s !! c = Some dc /\ d_name dc = name /\ d_inode dc = n /\ listing s K dn !! name = Some n.
Proof.
  unfold found. destruct (listing s K dn !! name) as [n|] eqn:E; [|done]. intros (_ & p & dc & Hd & Hp & Hc & Hdc & Hn & Hi) _. exists p, dc, n. done.
Qed.

Lemma found_none s K dn name : found s K dn name 0 -> listing s K dn !! name = None.
Proof. unfold found. destruct (listing s K dn !! name); [by intros [? _]|done]. Qed.

(** A mount covers no plain file. *)
Lemma file_no_mount s K d dd x : tree s K -> fs_dentries s !! d = Some dd -> fs_inodes s !! d_inode dd = Some x -> is_dir x = false -> ~ mountpoint_at s d.
Proof.
  intros HT Hd Hx Hf (m & Hm & <-). destruct (m_top _ _ (t_mounts _ _ HT m Hm)) as (m' & dd' & Hm' & Hd' & Er).
  destruct (m_root_dir _ _ (t_mounts _ _ HT m' Hm')) as (y & Hy & Hyd). congruence.
Qed.

Lemma vfs_unlink_ok s K dir dn name :
  tree s K -> few s -> fs_inodes s !! dir = Some dn ->
  wp (vfs_unlink dir name) (fun r s' => match unlink_error s K dn name with
    | Some e => r = e /\ s' = s
    | None => r = 0 /\ name_removed s s' K dir dn name end) s.
Proof.
  intros HT Hfew Hdir. unfold vfs_unlink, unlink_error. wp_step. eapply wp_vfs_child; [done|done|]. intros d Hf. wp_step. eapply wp_ino; [done|].
  destruct (Z.eqb_spec d 0) as [->|Hd0]; [rewrite (found_none _ _ _ _ Hf); by wp_steps|].
  destruct (found_some _ _ _ _ _ Hf Hd0) as (p & dd & n & Hisd & Hptr & Hk & Hd & Hname & <- & ->). destruct (t_node _ _ HT d dd Hd) as (x & Hx & Hok).
  wp_step. eapply wp_dent; [done|]. wp_step. eapply wp_ino; [done|]. rewrite Hx. cbn [mbind option_bind]. destruct (is_dir x) eqn:Hxd; [by wp_steps|].
  destruct (has_create dn); cbn [negb]; [|by wp_steps]. wp_step. eapply wp_may_delete; [done|done|done|]. intros r Hr. destruct (delete_error s dn x) as [e|].
  - destruct Hr as [-> He]. rewrite (proj2 (Z.ltb_lt _ _) He). by wp_steps.
  - subst r. change (0 <? 0) with false. cbv iota. wp_step. apply (drop_ok s K p d dd dir dn x); try done.
    + destruct (K d) as [|c l] eqn:E; [done|]. assert (is_dir x = true); [|congruence]. apply (t_leaf _ _ HT d c dd); [rewrite E; left|done|done].
    + by eapply file_no_mount.
    + intros m Hm. by apply (root_not_file s K HT m _ x).
    + congruence.
    + intros s' K' HT' _ _ HE Hdr Ha. wp_steps. split; [done|]. exists p, (d_inode dd), x, K'. rewrite <- Hname. split_and!; try done.
      unfold listing. rewrite Hisd, Hptr. apply view_lookup; [done|]. by exists d, dd.
Qed.

(** A directory listed in [p]. *)
Lemma wp_mountpoint s K p c dc x (Q : bool -> fs -> Prop) :
  tree s K -> c ∈ K p -> fs_dentries s !! c = Some dc -> fs_inodes s !! d_inode dc = Some x -> is_dir x = true -> Q (on_mount s x) s -> wp (mountpoint (d_inode dc)) Q s.
Proof.
  intros HT Hk Hc Hx Hd HQ. destruct (t_node _ _ HT c dc Hc) as (x0 & Hx0 & Hok). rewrite Hx in Hx0. injection Hx0 as <-. pose proof (n_own _ _ Hok Hd) as Ep.
  destruct (kid_some _ _ (t_forest _ _ HT) p c Hk) as (dp & dc0 & Hp & Hc0 & Hpar). rewrite Hc in Hc0. injection Hc0 as <-. destruct (t_node _ _ HT p dp Hp) as (px & Hpx & _).
  unfold mountpoint. unfold on_mount in HQ. rewrite Ep, Hc in HQ. cbn [mbind option_bind] in HQ. rewrite Hpar, Hp in HQ. cbn [mbind option_bind] in HQ. rewrite Hpx in HQ.
  wp_step. eapply wp_ino; [done|]. rewrite Ep. wp_step. eapply wp_dent; [done|]. wp_step. rewrite Hpar. eapply wp_dent; [done|]. wp_step. eapply wp_ino; [done|]. by wp_steps.
Qed.

Lemma kid_no_mount s K p c dc x :
  tree s K -> c ∈ K p -> fs_dentries s !! c = Some dc -> fs_inodes s !! d_inode dc = Some x -> is_dir x = true -> on_mount s x = false ->
  ~ mountpoint_at s c /\ forall m, m ∈ fs_mounts s -> m_root m <> d_inode dc.
Proof.
  intros HT Hk Hc Hx Hd Hon. destruct (t_node _ _ HT c dc Hc) as (x0 & Hx0 & Hok). rewrite Hx in Hx0. injection Hx0 as <-. pose proof (n_own _ _ Hok Hd) as Ep.
  destruct (kid_some _ _ (t_forest _ _ HT) p c Hk) as (dp & dc0 & Hp & Hc0 & Hpar). rewrite Hc in Hc0. injection Hc0 as <-. destruct (t_node _ _ HT p dp Hp) as (px & Hpx & _).
  assert (i_dev x = i_dev px) as Edev.
  { unfold on_mount in Hon. rewrite Ep, Hc in Hon. cbn [mbind option_bind] in Hon. rewrite Hpar, Hp in Hon. cbn [mbind option_bind] in Hon. rewrite Hpx in Hon. simpl in Hon.
    apply negb_false_iff in Hon. lia. }
  assert (forall m, m ∈ fs_mounts s -> m_root m <> d_inode dc) as Hroot.
  { intros m Hm E. apply (m_root_dev _ _ (t_mounts _ _ HT m Hm) c dc dp x px); try done; [by rewrite Hpar|by rewrite E]. }
  split; [|done]. intros (m & Hm & <-). destruct (m_top _ _ (t_mounts _ _ HT m Hm)) as (m' & dc' & Hm' & Hc' & Er). apply (Hroot m' Hm'). congruence.
Qed.

Lemma empty_dir s K d dd x : tree s K -> fs_dentries s !! d = Some dd -> fs_inodes s !! d_inode dd = Some x -> is_dir x = true ->
  (d_first_child dd =? 0) = bool_decide (listing s K x = ∅) /\ (listing s K x = ∅ -> K d = []).
Proof.
  intros HT Hd Hx Hdir. destruct (t_node _ _ HT d dd Hd) as (x0 & Hx0 & Hok). rewrite Hx in Hx0. injection Hx0 as <-. unfold listing. rewrite Hdir, (n_own _ _ Hok Hdir).
  pose proof (fr_chain _ _ (t_forest _ _ HT) d dd Hd) as Hch. destruct (K d) as [|c l] eqn:EK.
  - simpl in Hch. rewrite Hch. unfold view. rewrite EK. by rewrite bool_decide_true.
  - assert (c ∈ K d) as Hc by (rewrite EK; left). destruct (kid_nonnull _ _ (t_forest _ _ HT) d c Hc) as [Hc0 _]. destruct Hch as (E & dc & Hdc & _).
    assert (view s K d !! d_name dc = Some (d_inode dc)) as Hv by (apply view_lookup; [done|]; by exists c, dc).
    assert (view s K d <> ∅) as Hne by (intros E0; by rewrite E0, lookup_empty in Hv). rewrite bool_decide_false by done. split; [rewrite E; by apply Z.eqb_neq|done].
Qed.

Lemma vfs_rmdir_ok s K dir dn name :
  tree s K -> few s -> fs_inodes s !! dir = Some dn ->
  wp (vfs_rmdir dir name) (fun r s' => match rmdir_error s K dn name with
    | Some e => r = e /\ s' = s
    | None => r = 0 /\ name_removed s s' K dir dn name end) s.
Proof.
  intros HT Hfew Hdir. unfold vfs_rmdir, rmdir_error. wp_step. eapply wp_vfs_child; [done|done|]. intros d Hf. wp_step. eapply wp_ino; [done|].
  destruct (Z.eqb_spec d 0) as [->|Hd0]; [rewrite (found_none _ _ _ _ Hf); by wp_steps|].
  destruct (found_some _ _ _ _ _ Hf Hd0) as (p & dd & n & Hisd & Hptr & Hk & Hd & Hname & <- & ->). destruct (t_node _ _ HT d dd Hd) as (x & Hx & Hok).
  wp_step. eapply wp_dent; [done|]. wp_step. eapply wp_ino; [done|]. rewrite Hx. cbn [mbind option_bind]. destruct (is_dir x) eqn:Hxd; cbn [negb]; [|by wp_steps].
  wp_step. eapply wp_mountpoint; [done..|]. destruct (on_mount s x) eqn:Hon; [by wp_steps|]. destruct (empty_dir s K d dd x HT Hd Hx Hxd) as [-> Hempty].
  case_bool_decide as Hemp; cbn [negb]; [|by wp_steps]. wp_step. eapply wp_may_delete; [done|done|done|]. intros r Hr. destruct (delete_error s dn x) as [e|].
  - destruct Hr as [-> He]. rewrite (proj2 (Z.ltb_lt _ _) He). by wp_steps.
  - subst r. change (0 <? 0) with false. cbv iota. wp_step. destruct (kid_no_mount s K p d dd x) as [Hnm Hroot]; [done..|]. apply (drop_ok s K p d dd dir dn x); try done; [by apply Hempty| |].
    + intros E. rewrite E, Hdir in Hx. injection Hx as ->. pose proof (n_own _ _ Hok Hxd) as Ep. rewrite Hptr in Ep. injection Ep as ->. by apply (fr_self _ _ (t_forest _ _ HT) d).
    + intros s' K' HT' _ _ HE Hdr Ha. wp_steps. split; [done|]. exists p, (d_inode dd), x, K'. rewrite <- Hname. split_and!; try done.
      unfold listing. rewrite Hisd, Hptr. apply view_lookup; [done|]. by exists d, dd.
Qed.
End Drop.

(** ** vfs_link *)

Definition link_error (s : fs) (K : Z -> list Z) (dn tx : inode) (name : string) : option Z :=
  if is_dir tx then Some (- EPERM)
  else if negb (is_dir dn) then Some (- ENOTDIR)
  else if negb (i_dev dn =? i_dev tx) || negb (has_create dn) then Some (- EXDEV)
  else if removed dn then Some (- ENOENT)
  else if bool_decide (is_Some (listing s K dn !! name)) then Some (- EEXIST)
  else if NAME_MAX <? slen name then Some (- ENAMETOOLONG)
  else if rofs s dn then Some (- EROFS)
  else let err := cred_permission (fs_cur s) dn (Z.lor MAY_WRITE MAY_EXEC) in if err <? 0 then Some err else None.

Definition linked_inode (now : Z) (x : inode) : inode := touched now VFS_CTIME (set_i_nlink (u32 (i_nlink x + 1)) x).

Definition linked (s s' : fs) (dir : Z) (dn : inode) (target : Z) (tx : inode) : Prop :=
  fs_inodes s' = <[dir := touched (fs_now s) (Z.lor VFS_MTIME VFS_CTIME) dn]> (<[target := linked_inode (fs_now s) tx]> (fs_inodes s)).

Lemma enter_old s s' K p d dir dn target tx name :
  tree s K -> (exists dp y, fs_dentries s !! p = Some dp /\ fs_inodes s !! d_inode dp = Some y /\ is_dir y = true) ->
  fs_block s <= d < fs_block s' -> view s K p !! name = None -> fs_inodes s !! dir = Some dn -> fs_inodes s !! target = Some tx -> is_dir tx = false -> target <> dir ->
  i_destroy tx = Some DRamfs -> forest (fs_dentries s') (upd K p (K p ++ [d])) -> dinfo <$> fs_dentries s' = <[d := (name, target, p)]> (dinfo <$> fs_dentries s) ->
  linked s s' dir dn target tx -> aside s s' -> tree s' (upd K p (K p ++ [d])) /\ entered s s' K (upd K p (K p ++ [d])) p name target.
Proof.
  intros HT Hpd Hd Hv Hdir Htx Hnd Hne Hram HF HG HL Ha. assert (is_Some (fs_dentries s !! p)) as Hp by (destruct Hpd as (? & ? & ? & _); eauto).
  destruct (t_null _ _ HT) as [Hz Hb]. destruct (t_fresh _ _ HT d) as [Hfd _]; [lia|]. pose proof Ha as (_ & _ & EM & _ & _ & _ & _ & EB).
  assert (target <> 0) as Ht0 by (intros E; rewrite E, Hz in Htx; done). split; [|split; [intros q; apply view_add; done || lia|intros m; by eapply add_links]].
  apply (tree_add s s' K p d target (linked_inode (fs_now s) tx) name); try done; try lia.
  - unfold linked in HL. rewrite HL, insert_insert_ne, fmap_insert, delete_insert_eq, fmap_insert by done. f_equal. apply insert_id. by rewrite lookup_fmap, Hdir.
  - unfold linked in HL. by rewrite HL, lookup_insert_ne, lookup_insert_eq by done.
  - split; [|by right]. intros E. change (is_dir tx = true) in E. congruence.
  - exact (t_create _ _ HT target tx Htx).
  - simpl. rewrite (t_links _ _ HT target tx Htx) by by left. unfold u32. by rewrite Zplus_mod_idemp_l.
  - intros x Hx. rewrite Htx in Hx. injection Hx as <-. done.
  - destruct (Z.lt_ge_cases target (fs_block s)); [lia|]. destruct (t_fresh _ _ HT target) as [_ ?]; [lia|]. congruence.
Qed.

Lemma vfs_link_ok s K dir dn name target tx :
  tree s K -> fs_inodes s !! dir = Some dn -> fs_inodes s !! target = Some tx -> (has_create dn = true -> i_dev dn = i_dev tx -> i_destroy tx = Some DRamfs) ->
  wp (vfs_link dir name target) (fun r s' => match link_error s K dn tx name with
    | Some e => r = e /\ s' = s
    | None => r = - ENOMEM /\ idle s s' \/ r = 0 /\ exists p K', i_ptr dn = PDentry p /\ tree s' K' /\ entered s s' K K' p name target
        /\ linked s s' dir dn target tx /\ aside s s' end) s.
Proof.
  intros HT Hdir Htx Hram. unfold vfs_link, link_error. wp_step. eapply wp_ino; [done|]. destruct (is_dir tx) eqn:Htd; [by wp_steps|].
  wp_step. eapply wp_ino; [done|]. destruct (is_dir dn) eqn:Hd; cbn [negb]; [|by wp_steps].
  destruct (Z.eqb_spec (i_dev dn) (i_dev tx)) as [Hdev|]; [|by wp_steps]. destruct (has_create dn); [|by wp_steps]. cbn [negb orb]. specialize (Hram eq_refl Hdev).
  destruct (removed dn) eqn:Hrm; [by wp_steps|]. wp_step. eapply wp_vfs_child; [done|done|]. intros c Hc. rewrite (found_nonnull _ _ _ _ _ Hc).
  case_bool_decide as Hex; [by wp_steps|]. destruct (Z.ltb_spec NAME_MAX (slen name)) as [|Hlen]; [by wp_steps|].
  wp_step. eapply wp_vfs_readonly; [done|done|]. destruct (rofs s dn); [by wp_steps|]. wp_step. wp_step. cbv zeta.
  destruct (Z.ltb_spec (cred_permission (fs_cur s) dn (Z.lor MAY_WRITE MAY_EXEC)) 0); [by wp_steps|].
  destruct (t_dir _ _ HT dir dn Hdir Hd) as [Ep|(p & dp & Ep & Hp & _)]; [unfold removed in Hrm; by rewrite Ep in Hrm|].
  assert (view s K p !! name = None) as Hv. { unfold listing in Hex. rewrite Hd, Ep in Hex. by apply eq_None_not_Some. }
  destruct (t_null _ _ HT) as [Hz Hb]. wp_step. apply wp_alloc; [done| |]; intros s1 Hi; [rewrite Z.eqb_refl; wp_steps; by left|]. intros Hb1.
  set (d := fs_block s) in *. destruct (t_fresh _ _ HT d) as [Hfd _]; [lia|]. rewrite (proj2 (Z.eqb_neq d 0)) by lia. destruct Hi as (EI & ED & Ha).
  unfold dput_at. wp_step. wp_step. unfold dir_dentry. wp_step. wp_step. eapply wp_ino; [simpl; rewrite EI; exact Hdir|]. rewrite Ep. wp_step. wp_step.
  eapply (attach_new_ok s _ K p d name target); [done|eauto|done|lia|simpl; by rewrite ED|]. intros s2 HF HG HR. pose proof HR as (EI2 & _ & _ & _ & _ & _ & En2 & _ & _ & EB2 & _). simpl in EI2, EB2, En2.
  rewrite EI in EI2. assert (target <> dir) as Htd' by congruence. assert (fs_now s2 = fs_now s) as Enow by (rewrite En2; apply Ha).
  wp_step. eapply wp_iset; [rewrite EI2; exact Htx|]. wp_step. eapply wp_touch; [apply lookup_insert_eq|]. cbn [fs_inodes fs_now set_fs_inodes]. rewrite insert_insert_eq, EI2, Enow.
  wp_step. eapply wp_touch; [cbn [fs_inodes set_fs_inodes]; rewrite lookup_insert_ne by done; exact Hdir|]. cbn [fs_inodes fs_now set_fs_inodes]. rewrite Enow.
  fold (linked_inode (fs_now s) tx). set (s3 := set_fs_inodes _ _). wp_step. right. split; [done|]. exists p, (upd K p (K p ++ [d])).
  assert (aside s s3) as Ha3. { etransitivity; [exact Ha|]. etransitivity; [|etransitivity; [apply (rest_d_aside _ _ HR)|by split_and!]]. by split_and!. }
  assert (linked s s3 dir dn target tx) as HL by done. destruct (enter_old s s3 K p d dir dn target tx name) as [HT' HE]; try done; [exact (dir_dentry_dir s K HT dir dn p Hdir Hd Ep)|simpl; lia].
Qed.
