(* ===== verification/VfsRename.v ===== *)
(** * vfs_rename

    The loop check, the replacement of what stands at the new name, and the
    move. *)
From S2P Require Import Prelude Types Cred Pipe VfsState Forest Ramfs Vfs VfsTree VfsEdit VfsOps.

(** ** Above a directory *)

(** The dentries from [d] up, as many as [fuel]. *)
Fixpoint climb (fuel : nat) (P : gmap Z Z) (d : Z) : list Z :=
  match fuel with
  | O => []
  | S fuel => if d =? 0 then [] else match P !! d with Some p => d :: climb fuel P p | None => [] end
  end.

Lemma climb_anc P d l : anc P d l -> forall fuel, (length l <= fuel)%nat -> climb fuel P d = l.
Proof.
  induction 1 as [|d p l Hd Hp Hl IH]; intros fuel Hf; [by destruct fuel|]. destruct fuel as [|fuel]; [simpl in Hf; lia|]. simpl in Hf |- *.
  rewrite (proj2 (Z.eqb_neq d 0) Hd), Hp. f_equal. apply IH. lia.
Qed.

(** [d] and the dentries above it. *)
Definition ancestors (s : fs) (d : Z) : list Z := climb (size (fs_dentries s)) (d_parent <$> fs_dentries s) d.

Lemma ancestors_anc s K d : tree s K -> is_Some (fs_dentries s !! d) -> anc (d_parent <$> fs_dentries s) d (ancestors s d).
Proof.
  intros HT Hd. destruct (t_up _ _ HT d Hd) as [l Hl]. pose proof (anc_fuel _ _ _ Hl) as Hf. rewrite map_size_fmap in Hf. unfold ancestors. by rewrite (climb_anc _ _ l Hl).
Qed.

Lemma above_ok s a l src fuel (Q : bool -> fs -> Prop) :
  anc (d_parent <$> fs_dentries s) a l -> src <> 0 -> (length l < fuel)%nat -> Q (bool_decide (src ∈ l)) s -> wp (above fuel src a) Q s.
Proof.
  intros Hl Hs. revert fuel Q. induction Hl as [|d p l Hd Hp Hl IH]; intros fuel Q Hf HQ; (destruct fuel as [|fuel]; [simpl in Hf; lia|]); cbn [above].
  - rewrite Z.eqb_refl. wp_steps. rewrite bool_decide_false in HQ; [done|]. apply not_elem_of_nil.
  - rewrite (proj2 (Z.eqb_neq d 0) Hd). destruct (Z.eqb_spec d src) as [->|Hds]; [wp_steps; rewrite bool_decide_true in HQ by left; done|].
    apply lookup_fmap_Some in Hp as (dd & <- & Hdd). wp_step. eapply wp_dent; [done|]. apply IH; [simpl in Hf; lia|].
    replace (bool_decide (src ∈ l)) with (bool_decide (src ∈ d :: l)); [done|]. apply bool_decide_ext. rewrite elem_of_cons. naive_solver.
Qed.

(** ** The move *)

(** An inode but for its times. *)
Definition timeless (x : inode) : inode := touched 0 (Z.lor VFS_ATIME (Z.lor VFS_MTIME VFS_CTIME)) x.

(** Only times have changed. *)
Definition stamped (s s' : fs) : Prop := timeless <$> fs_inodes s' = timeless <$> fs_inodes s /\ fs_dentries s' = fs_dentries s /\ aside s s'.

#[global] Instance stamped_preorder : PreOrder stamped.
Proof. split; [intros s; by split_and!|]. intros s1 s2 s3 (H1 & H2 & H3) (H4 & H5 & H6). split_and!; [congruence|congruence|by transitivity s2]. Qed.

Lemma timeless_ikey I I' : timeless <$> I' = timeless <$> I -> ikey <$> I' = (ikey <$> I : gmap Z _).
Proof.
  intros E. assert (forall J : gmap Z inode, ikey <$> J = ikey <$> (timeless <$> J)) as H by (intros J; rewrite <- map_fmap_compose; by apply map_fmap_ext). by rewrite H, E, <- H.
Qed.

Lemma stamped_calm s s' : stamped s s' -> calm s s'.
Proof. intros (E & ED & Ha). split_and!; [by apply timeless_ikey|done|apply Ha|apply Ha]. Qed.

Lemma wp_touch_calm s n which (Q : unit -> fs -> Prop) :
  is_Some (fs_inodes s !! n) -> (forall s', stamped s s' -> Q tt s') -> wp (vfs_touch n which) Q s.
Proof.
  intros [x Hx] HQ. eapply wp_touch; [exact Hx|]. apply HQ. split_and!; [|done|apply aside_inodes]. cbn [fs_inodes set_fs_inodes]. rewrite fmap_insert. apply insert_id. by rewrite lookup_fmap, Hx.
Qed.

Lemma calm_some s s' n : calm s s' -> is_Some (fs_inodes s !! n) -> is_Some (fs_inodes s' !! n).
Proof. intros (E & _) [x Hx]. destruct (fmap_back ikey (fs_inodes s') (fs_inodes s) n x (eq_sym E) Hx) as (y & ? & _). eauto. Qed.

(** The lists, the name and the parent after the move. *)
Lemma relist_ok s K p q d dd nname dq ndir nx (k : M fs unit) (Q : unit -> fs -> Prop) :
  tree s K -> d ∈ K p -> fs_dentries s !! d = Some dd -> fs_dentries s !! q = Some dq -> q <> d -> name_fits nname = true ->
  fs_inodes s !! ndir = Some nx -> i_ptr nx = PDentry q ->
  (forall s' l1 l2, K p = l1 ++ d :: l2 -> forest (fs_dentries s') (moved K p q d l1 l2) -> dinfo <$> fs_dentries s' = <[d := (nname, d_inode dd, q)]> (dinfo <$> fs_dentries s) ->
    rest_d s s' -> wp k Q s') ->
  wp (detach d) (fun _ => wp (if negb (name_fits nname) then fault else _ ← dset d (set_d_name nname); p ← dir_dentry ndir; _ ← vfs_add_child p d; k) Q) s.
Proof.
  intros HT Hk Hd Hq Hqd Hfit Hnx Hptr HQ. pose proof (t_forest _ _ HT) as HF. eapply wp_mono; [by apply (detach_ok s K p d)|].
  intros [] s1 (l1 & l2 & HK & HF1 & EK & EP & _ & HR & dc & Hdc & Hnext). rewrite Hfit. cbn [negb]. wp_step. eapply wp_dset; [exact Hdc|].
  set (s2 := set_fs_dentries _ s1). assert (fs_inodes s1 = fs_inodes s) as EI by apply HR.
  wp_step. unfold dir_dentry. wp_step. eapply wp_ino; [simpl; rewrite EI; exact Hnx|]. rewrite Hptr. wp_step. wp_step.
  assert (exists dq1, fs_dentries s1 !! q = Some dq1) as (dq1 & Hq1) by (destruct (fmap_back dkey _ _ q dq (eq_sym EK) Hq) as (? & ? & _); eauto).
  assert (dkey dc = dkey dd /\ d_parent dc = d_parent dd) as [Ekd Epd].
  { destruct (fmap_back dkey _ _ d dc EK Hdc) as (e & He & E). destruct (fmap_back d_parent _ _ d dc EP Hdc) as (e' & He' & E'). split; congruence. }
  eapply wp_mono.
  { apply (add_child_ok s2 (upd K p (l1 ++ l2)) q d dq1 (set_d_name nname dc)); simpl; [by apply forest_rename|by rewrite lookup_insert_ne|apply lookup_insert_eq| |done|done].
    intros r [_ ?]%(rem_sub s K p d l1 l2 HT HK). done. }
  intros [] s3 (HF3 & EK3 & EP3 & HR3). apply (HQ s3 l1 l2); [done|done| |].
  - apply dinfo_eq; rewrite fmap_insert.
    + rewrite EK3. simpl. rewrite fmap_insert, EK, <- dinfo_key. f_equal. unfold dkey. simpl. injection Ekd as _ <-. done.
    + rewrite EP3. simpl. rewrite fmap_insert, EP, insert_insert_eq, <- dinfo_parent. done.
  - etransitivity; [exact HR|]. etransitivity; [|exact HR3]. by split_and!.
Qed.

(** Where the names are after a move. *)
Definition relocated (s s' : fs) (K K' : Z -> list Z) (p : Z) (oname : string) (q : Z) (nname : string) (n : Z) : Prop :=
  (forall r, view s' K' r = let v := if decide (r = p) then delete oname (view s K p) else view s K r in if decide (r = q) then <[nname := n]> v else v)
  /\ forall m, links s' m <= links s m.

Lemma move_ok s K p q d dd odir ndir nx nname (Q : unit -> fs -> Prop) :
  tree s K -> d ∈ K p -> fs_dentries s !! d = Some dd -> is_Some (fs_inodes s !! odir) -> fs_inodes s !! ndir = Some nx -> is_dir nx = true -> i_ptr nx = PDentry q ->
  d ∉ ancestors s q -> (forall m, m ∈ fs_mounts s -> m_root m <> d_inode dd) -> name_fits nname = true ->
  (forall c dc, c ∈ K q -> c <> d -> fs_dentries s !! c = Some dc -> d_name dc <> nname) ->
  (forall s' K', tree s' K' -> relocated s s' K K' p (d_name dd) q nname (d_inode dd) -> timeless <$> fs_inodes s' = timeless <$> fs_inodes s -> aside s s' -> Q tt s') ->
  wp (move odir ndir d nname) Q s.
Proof.
  intros HT Hk Hd Hodir Hnx Hnd Hptr Hfar Hroot Hfit Hnew HQ. destruct (dir_dentry_dir s K HT ndir nx q Hnx Hnd Hptr) as (dq & y & Hq & Hy & Hyd).
  pose proof (ancestors_anc s K q HT (ex_intro _ _ Hq)) as Hanc.
  assert (q <> d) as Hqd. { intros ->. apply Hfar. inversion Hanc; subst; [by rewrite (fr_null _ _ (t_forest _ _ HT)) in Hd|left]. }
  unfold move. wp_step. eapply relist_ok; [exact HT|exact Hk|exact Hd|exact Hq|exact Hqd|exact Hfit|exact Hnx|exact Hptr|].
  intros s1 l1 l2 HK HF HG HR. assert (fs_inodes s1 = fs_inodes s) as EI by apply HR. destruct (t_node _ _ HT d dd Hd) as (x & Hx & _).
  destruct (dinfo_some _ _ d nname (d_inode dd) q HG) as (dd1 & Hd1 & _ & En & _); [apply lookup_insert_eq|]. wp_step. eapply wp_dent; [exact Hd1|]. rewrite En.
  wp_step. apply wp_touch_calm; [rewrite EI; eauto|]. intros s2 C2. wp_step. apply wp_touch_calm; [eapply calm_some; [by apply stamped_calm|by rewrite EI]|]. intros s3 C3.
  apply wp_touch_calm; [eapply calm_some; [by apply stamped_calm|]; eapply calm_some; [by apply stamped_calm|]; rewrite EI; eauto|]. intros s4 C4.
  assert (stamped s1 s4) as C by (etransitivity; [exact C2|by transitivity s3]). assert (aside s s4) as A by (etransitivity; [by apply rest_d_aside|]; apply C).
  pose proof C as (ET4 & ED4 & _). rewrite EI in ET4. pose proof (timeless_ikey _ _ ET4) as EK4. rewrite <- ED4 in HF, HG. pose proof A as (_ & _ & EM & _ & _ & _ & _ & EB).
  assert (entries (dkey <$> fs_dentries s) (taken K p l1 l2 q) !! nname = None) as Hno.
  { apply eq_None_not_Some. intros [m Hm]. apply entries_lookup in Hm.
    - destruct Hm as (c & [Hc Hcd]%(mov_taken s K p d l1 l2 HT HK) & (dc & [= En' _] & Hdc)%lookup_fmap_Some). by apply (Hnew c dc).
    - unfold taken. destruct (decide (q = p)) as [->|]; [rewrite upd_eq|rewrite upd_ne by done; by apply tree_distinct].
      apply (distinct_mid _ l1 d l2). rewrite <- HK. by apply tree_distinct. }
  apply (HQ s4 (moved K p q d l1 l2)); [|split; [intros r; by eapply view_move|]|done|done].
  2:{ intros m. unfold links. rewrite EM, (mov_naming s s4 q d (d_inode dd) dd nname Hd eq_refl HG). done. }
  apply (tree_move s s4 K p q d (d_inode dd) dd l1 l2 nname); try done; [by exists dq, y|]. intros l Hl. by rewrite (anc_det _ _ _ Hl _ Hanc).
Qed.

(** ** The checks *)

Definition orelse (a b : option Z) : option Z := match a with Some e => Some e | None => b end.

Definition refused (err : Z) : option Z := if err <? 0 then Some err else None.

(** What stops a directory [x] from moving below [nx]. *)
Definition move_error (s : fs) (x nx : inode) : option Z :=
  if negb (is_dir x) then None else if on_mount s x then Some (- EBUSY) else
  match i_ptr x, i_ptr nx with PDentry d, PDentry q => if bool_decide (d ∈ ancestors s q) then Some (- EINVAL) else None | _, _ => None end.

Definition permission_error (s : fs) (odir ndir : Z) (ox nx x : inode) : option Z :=
  orelse (delete_error s ox x)
    (orelse (refused (cred_permission (fs_cur s) nx (Z.lor MAY_WRITE MAY_EXEC)))
      (if is_dir x && negb (odir =? ndir) then refused (cred_permission (fs_cur s) x MAY_WRITE) else None)).

(** What stands at the new name may end it: 0 if it is the same file. *)
Definition replace_answer (s : fs) (K : Z -> list Z) (nx : inode) (nname : string) (n : Z) (x : inode) (noreplace : bool) : option Z :=
  match listing s K nx !! nname with
  | None => None
  | Some m =>
      y ← fs_inodes s !! m;
      if negb (cred_may_delete (fs_cur s) nx y) then Some (- EPERM) else
      if noreplace then Some (- EEXIST) else
      if m =? n then Some 0 else
      if is_dir x && negb (is_dir y) then Some (- ENOTDIR) else
      if negb (is_dir x) && is_dir y then Some (- EISDIR) else
      if negb (is_dir y) then None else
      if negb (bool_decide (listing s K y = ∅)) || on_mount s y then Some (- ENOTEMPTY) else None
  end.

Definition rename_answer (s : fs) (K : Z -> list Z) (odir : Z) (ox : inode) (oname : string) (ndir : Z) (nx : inode) (nname : string) (noreplace : bool) : option Z :=
  match listing s K ox !! oname with
  | None => Some (- ENOENT)
  | Some n =>
      if negb (is_dir nx) then Some (- ENOTDIR) else
      if negb (i_dev ox =? i_dev nx) || negb (has_create nx) then Some (- EXDEV) else
      if removed nx then Some (- ENOENT) else
      if NAME_MAX <? slen nname then Some (- ENAMETOOLONG) else
      x ← fs_inodes s !! n;
      orelse (move_error s x nx) (orelse (permission_error s odir ndir ox nx x) (replace_answer s K nx nname n x noreplace))
  end.

(** The inodes once what stood at the new name has lost it. *)
Definition replaced_inodes (s : fs) (K : Z -> list Z) (ndir : Z) (nx : inode) (nname : string) : gmap Z inode :=
  match listing s K nx !! nname with
  | None => fs_inodes s
  | Some m => match fs_inodes s !! m with Some y => drop_inodes s ndir nx m y | None => fs_inodes s end
  end.

Section Checks.
  Context (s : fs) (K : Z -> list Z) (HT : tree s K).

Lemma wp_dir_may_move p q d dd x ndir nx (Q : Z -> fs -> Prop) :
  d ∈ K p -> fs_dentries s !! d = Some dd -> fs_inodes s !! d_inode dd = Some x -> fs_inodes s !! ndir = Some nx -> is_dir nx = true -> i_ptr nx = PDentry q ->
  (forall r, match move_error s x nx with Some e => r = e /\ e < 0 | None => r = 0 end -> Q r s) -> wp (dir_may_move (d_inode dd) d ndir x) Q s.
Proof.
  intros Hk Hd Hx Hnx Hnd Hptr HQ. unfold dir_may_move. unfold move_error in HQ. destruct (is_dir x) eqn:Hxd; cbn [negb] in *; [|wp_steps; by apply HQ].
  wp_step. eapply wp_mountpoint; [done..|]. destruct (on_mount s x); [wp_steps; by apply HQ|]. unfold dir_dentry. wp_step. wp_step. eapply wp_ino; [done|]. rewrite Hptr in HQ |- *.
  destruct (t_node _ _ HT d dd Hd) as (x0 & Hx0 & Hok). rewrite Hx in Hx0. injection Hx0 as <-. rewrite (n_own _ _ Hok Hxd) in HQ.
  destruct (dir_dentry_dir s K HT ndir nx q Hnx Hnd Hptr) as (dq & y & Hq & _). pose proof (ancestors_anc s K q HT (ex_intro _ _ Hq)) as Hanc.
  wp_step. wp_step. wp_step. wp_step. eapply above_ok; [exact Hanc|by destruct (kid_nonnull _ _ (t_forest _ _ HT) p d Hk)| |].
  - pose proof (anc_fuel _ _ _ Hanc) as Hf. rewrite map_size_fmap in Hf. unfold dfuel. lia.
  - wp_step. apply HQ. by case_bool_decide.
Qed.

Lemma wp_may_rename odir ox ndir nx n x (Q : Z -> fs -> Prop) :
  fs_inodes s !! odir = Some ox -> fs_inodes s !! ndir = Some nx -> fs_inodes s !! n = Some x ->
  (forall r, match permission_error s odir ndir ox nx x with Some e => r = e /\ e < 0 | None => 0 <= r end -> Q r s) -> wp (may_rename odir ndir n x) Q s.
Proof.
  intros Ho Hnx Hx HQ. unfold may_rename. wp_step. eapply wp_may_delete; [done|done|done|]. intros r Hr. unfold permission_error, orelse, refused in HQ.
  destruct (delete_error s ox x) as [e|]; [destruct Hr as [-> He]; rewrite (proj2 (Z.ltb_lt _ _) He); wp_steps; by apply HQ|]. subst r. change (0 <? 0) with false. cbv iota.
  wp_step. eapply wp_ino; [done|]. wp_step. wp_step. cbv zeta. destruct (Z.ltb_spec (cred_permission (fs_cur s) nx (Z.lor MAY_WRITE MAY_EXEC)) 0); [wp_steps; by apply HQ|].
  destruct (is_dir x && negb (odir =? ndir)); wp_step; apply HQ; [|done]. destruct (Z.ltb_spec (cred_permission (fs_cur s) x MAY_WRITE) 0); done.
Qed.

Lemma wp_may_replace p q d dd x ndir nx nname dst noreplace (Q : Z + bool -> fs -> Prop) :
  d ∈ K p -> fs_dentries s !! d = Some dd -> fs_inodes s !! d_inode dd = Some x -> fs_inodes s !! ndir = Some nx -> i_ptr nx = PDentry q -> found s K nx nname dst ->
  (forall r, match replace_answer s K nx nname (d_inode dd) x noreplace with Some e => r = inl e | None => r = inr (negb (dst =? 0)) end -> Q r s) ->
  wp (may_replace ndir d dst noreplace) Q s.
Proof.
  intros Hk Hd Hx Hnx Hptr Hf HQ. unfold may_replace. unfold replace_answer in HQ. destruct (Z.eqb_spec dst 0) as [->|Hd0]; [rewrite (found_none _ _ _ _ Hf) in HQ; wp_steps; by apply HQ|].
  destruct (found_some _ _ _ _ _ Hf Hd0) as (q' & dc & m & Hisd & Hptr' & Hkq & Hdc & Hname & <- & El). rewrite El in HQ. destruct (t_node _ _ HT dst dc Hdc) as (y & Hy & Hok).
  wp_step. eapply wp_dent; [done|]. wp_step. eapply wp_ino; [done|]. rewrite Hy in HQ. cbn [mbind option_bind negb] in HQ. wp_step. eapply wp_ino; [done|]. wp_step. wp_step.
  destruct (cred_may_delete (fs_cur s) nx y); cbn [negb] in HQ |- *; [|wp_steps; by apply HQ]. destruct noreplace; [wp_steps; by apply HQ|]. wp_step. eapply wp_dent; [done|].
  destruct (d_inode dc =? d_inode dd); [wp_steps; by apply HQ|]. wp_step. eapply wp_ino; [done|]. destruct (is_dir x) eqn:Hxd, (is_dir y) eqn:Hyd; cbn [andb negb] in HQ |- *; [|wp_steps; by apply HQ..].
  destruct (empty_dir s K dst dc y HT Hdc Hy Hyd) as [-> _]. destruct (bool_decide (listing s K y = ∅)); cbn [negb orb] in HQ |- *; [|wp_steps; by apply HQ].
  wp_step. eapply wp_mountpoint; [done..|]. destruct (on_mount s y); wp_steps; by apply HQ.
Qed.
End Checks.

(** ** Replacing and moving *)

(** A plain file is above nothing. *)
Lemma file_not_above s K p d dd x a : tree s K -> d ∈ K p -> fs_dentries s !! d = Some dd -> fs_inodes s !! d_inode dd = Some x -> is_dir x = false ->
  (exists da y, fs_dentries s !! a = Some da /\ fs_inodes s !! d_inode da = Some y /\ is_dir y = true) -> d ∉ ancestors s a.
Proof.
  intros HT Hk Hd Hx Hf (da & y & Ha & Hy & Hyd). pose proof (ancestors_anc s K a HT (ex_intro _ _ Ha)) as Hanc.
  assert (a <> d) as Had by congruence. clear da y Ha Hy Hyd. revert Had. generalize (ancestors s a) Hanc. clear Hanc. intros l Hanc. induction Hanc as [|b q l Hb Hq Hl IH]; intros Hne; [apply not_elem_of_nil|].
  apply not_elem_of_cons. split; [congruence|]. apply IH. intros ->. apply lookup_fmap_Some in Hq as (db & Edb & Hdb).
  assert (d <> 0) as Hd0 by by destruct (kid_nonnull _ _ (t_forest _ _ HT) p d Hk). destruct (t_kids _ _ HT b db Hdb) as [H|[H|H]]; rewrite Edb in *; [done|..].
  - pose proof (t_leaf _ _ HT d b dd x H Hd Hx). congruence.
  - by apply (file_no_mount s K d dd x HT Hd Hx Hf) in H.
  - by apply (H p).
Qed.

Lemma replaced_keeps s K ndir nx nname k x : fs_inodes s !! k = Some x -> fs_inodes s !! ndir = Some nx -> listing s K nx !! nname <> Some k ->
  exists x', replaced_inodes s K ndir nx nname !! k = Some x' /\ is_dir x' = is_dir x /\ i_ptr x' = i_ptr x.
Proof.
  intros Hk Hn Hne. unfold replaced_inodes. destruct (listing s K nx !! nname) as [m|]; [|eauto]. destruct (fs_inodes s !! m) as [y|]; [|eauto].
  assert (m <> k) as Hmk by congruence. unfold drop_inodes. assert (exists x', <[ndir := touched (fs_now s) (Z.lor VFS_MTIME VFS_CTIME) nx]> (fs_inodes s) !! k = Some x' /\ is_dir x' = is_dir x /\ i_ptr x' = i_ptr x) as H.
  { destruct (decide (ndir = k)) as [->|E]; [rewrite lookup_insert_eq; eexists; split; [done|]; assert (nx = x) as -> by congruence; done|]. rewrite lookup_insert_ne by done. eauto. }
  case_decide; [by rewrite lookup_delete_ne|by rewrite lookup_insert_ne].
Qed.

Lemma relocated_erased s s1 s' K K1 K' p q oname nname n :
  erased s s1 K K1 q nname -> relocated s1 s' K1 K' p oname q nname n -> relocated s s' K K' p oname q nname n.
Proof.
  intros [HE Hl] [HR Hl']. split; [|intros m; etransitivity; [apply Hl'|apply Hl]]. intros r. rewrite HR. cbv zeta. rewrite !HE. destruct (decide (r = q)) as [->|Hr].
  - destruct (decide (q = p)) as [<-|Hqp]; [rewrite decide_True by done; by rewrite delete_delete, insert_delete_eq|]. by rewrite insert_delete_eq.
  - destruct (decide (r = p)) as [<-|]; [by rewrite decide_False|done].
Qed.

Section Rename.
  Context `{DR : Drivers}.

(** After the checks: what stood at the new name goes, unless nothing did. *)
Lemma replace_ok s K p q d dd x odir ox ndir nx nname dst (Q : unit -> fs -> Prop) :
  tree s K -> few s -> d ∈ K p -> fs_dentries s !! d = Some dd -> fs_inodes s !! d_inode dd = Some x -> fs_inodes s !! odir = Some ox -> is_dir ox = true ->
  i_ptr ox = PDentry p -> fs_inodes s !! ndir = Some nx -> is_dir nx = true -> i_ptr nx = PDentry q -> found s K nx nname dst ->
  replace_answer s K nx nname (d_inode dd) x false = None ->
  (forall s1 K1 dd1, tree s1 K1 -> (forall c r, c ∈ K1 r -> c ∈ K r) -> d ∈ K1 p -> fs_dentries s1 !! d = Some dd1 -> dkey dd1 = dkey dd ->
    (forall r dr, fs_dentries s1 !! r = Some dr -> exists dr0, fs_dentries s !! r = Some dr0 /\ d_name dr0 = d_name dr) ->
    (forall l, anc (d_parent <$> fs_dentries s1) q l -> anc (d_parent <$> fs_dentries s) q l) -> dst ∉ K1 q ->
    (s1 = s /\ K1 = K \/ erased s s1 K K1 q nname) -> fs_inodes s1 = replaced_inodes s K ndir nx nname -> aside s s1 -> Q tt s1) ->
  wp (when (negb (dst =? 0)) (drop ndir dst)) Q s.
Proof.
  intros HT Hfew Hk Hd Hx Ho Hod Hop Hnx Hnd Hptr Hf Hans HQ. pose proof (t_forest _ _ HT) as HF. apply wp_when; intros Hb.
  2:{ apply negb_false_iff, Z.eqb_eq in Hb. subst dst. pose proof (found_none _ _ _ _ Hf) as El. apply (HQ s K dd); try done; [eauto|intros H0; by destruct (kid_nonnull _ _ HF q 0 H0)|by left|].
      unfold replaced_inodes. by rewrite El. }
  apply negb_true_iff, Z.eqb_neq in Hb. destruct (found_some _ _ _ _ _ Hf Hb) as (q' & dc & m & _ & Hptr' & Hkq & Hdc & Hname & Em & El).
  rewrite Hptr in Hptr'. injection Hptr' as <-. unfold replace_answer in Hans. rewrite El in Hans. destruct (t_node _ _ HT dst dc Hdc) as (y & Hy & Hok).
  rewrite Em in Hy. rewrite Hy in Hans. cbn [mbind option_bind] in Hans. destruct (cred_may_delete (fs_cur s) nx y); [|done]. cbn [negb] in Hans.
  destruct (Z.eqb_spec m (d_inode dd)) as [|Hmn]; [done|]. assert (d <> dst) as Hdd by (intros ->; congruence).
  assert (K dst = [] /\ ~ mountpoint_at s dst /\ (forall k, k ∈ fs_mounts s -> m_root k <> m) /\ m <> ndir) as (Kd & Hnm & Hroot & Hmnd).
  { destruct (is_dir y) eqn:Hyd.
    - destruct (is_dir x); [|done]. cbn [andb negb] in Hans. destruct (on_mount s y) eqn:Hon; [by rewrite orb_true_r in Hans|]. case_bool_decide as He; [|done].
      rewrite <- Em in Hy |- *. destruct (kid_no_mount s K q dst dc y) as [? ?]; [done..|]. split_and!; [by apply (empty_dir s K dst dc y)|done|done|].
      intros E. rewrite E, Hnx in Hy. injection Hy as <-. pose proof (n_own _ _ Hok Hyd) as E'. rewrite Hptr in E'. injection E' as ->. by apply (fr_self _ _ HF dst).
    - rewrite <- Em in Hy |- *. split_and!; [|by eapply file_no_mount|intros k Hm; by apply (root_not_file s K HT k _ y)|congruence].
      destruct (K dst) as [|c l] eqn:E; [done|]. assert (is_dir y = true); [|congruence]. apply (t_leaf _ _ HT dst c dc); [rewrite E; left|done|done]. }
  apply (drop_ok s K q dst dc ndir nx y); rewrite ?Em; try done. intros s1 K1 HT1 HK1 HG HE Hdr Ha. rewrite Hname in HE.
  assert (forall r dr, fs_dentries s1 !! r = Some dr -> r <> dst /\ exists dr0, fs_dentries s !! r = Some dr0 /\ d_name dr0 = d_name dr /\ d_inode dr0 = d_inode dr /\ d_parent dr0 = d_parent dr) as Hback
    by (intros r dr; by apply rem_dentry).
  destruct (rem_keep s s1 dst HG d dd Hd Hdd) as (dd1 & Hd1 & E1 & E2 & _).
  apply (HQ s1 K1 dd1); try done.
  - intros c r [? _]%HK1. done.
  - by apply HK1.
  - unfold dkey. congruence.
  - intros r dr Hr. destruct (Hback r dr Hr) as (_ & dr0 & ? & ? & _). eauto.
  - intros l Hl. eapply anc_ext; [exact Hl|]. intros z Hz. destruct (anc_dom _ _ _ z Hl Hz) as [w Hw]. rewrite Hw. apply lookup_fmap_Some in Hw as (dz & <- & Hdz).
    destruct (Hback z dz Hdz) as (_ & dz0 & Hdz0 & _ & _ & Ez). by rewrite lookup_fmap, Hdz0, <- Ez.
  - intros [_ ?]%HK1. done.
  - by right.
  - unfold replaced_inodes. by rewrite El, Hy.
Qed.

(** The file at [oname] is now at [nname]; what stood there has lost it. *)
Definition renamed (s s' : fs) (K : Z -> list Z) (ox : inode) (oname : string) (ndir : Z) (nx : inode) (nname : string) : Prop :=
  exists p q n K', i_ptr ox = PDentry p /\ i_ptr nx = PDentry q /\ listing s K ox !! oname = Some n /\ tree s' K' /\ relocated s s' K K' p oname q nname n
    /\ timeless <$> fs_inodes s' = timeless <$> replaced_inodes s K ndir nx nname /\ aside s s'.

Lemma replace_false s K nx nname n x b : replace_answer s K nx nname n x b = None -> replace_answer s K nx nname n x false = None.
Proof.
  unfold replace_answer. destruct (listing s K nx !! nname) as [m|]; [|done]. destruct (fs_inodes s !! m); [|done]. cbn [mbind option_bind].
  destruct (negb _); [done|]. by destruct b.
Qed.

(** The way of a directory that may move, and of any file, is clear. *)
Lemma clear_way s K p q d dd x ndir nx : tree s K -> d ∈ K p -> fs_dentries s !! d = Some dd -> fs_inodes s !! d_inode dd = Some x ->
  fs_inodes s !! ndir = Some nx -> is_dir nx = true -> i_ptr nx = PDentry q -> move_error s x nx = None ->
  d ∉ ancestors s q /\ forall m, m ∈ fs_mounts s -> m_root m <> d_inode dd.
Proof.
  intros HT Hk Hd Hx Hnx Hnd Hptr Hm. unfold move_error in Hm. destruct (is_dir x) eqn:Hxd; cbn [negb] in Hm.
  - destruct (on_mount s x) eqn:Hon; [done|]. destruct (t_node _ _ HT d dd Hd) as (x0 & Hx0 & Hok). rewrite Hx in Hx0. injection Hx0 as <-.
    rewrite (n_own _ _ Hok Hxd), Hptr in Hm. case_bool_decide as Ha; [done|]. split; [done|]. by eapply kid_no_mount.
  - split; [|intros m Hm'; by apply (root_not_file s K HT m _ x)]. eapply file_not_above; try done. exact (dir_dentry_dir s K HT ndir nx q Hnx Hnd Hptr).
Qed.

(** What is replaced is neither of the directories. *)
Lemma replace_spares s K p q d dd x odir ox ndir nx nname :
  tree s K -> d ∈ K p -> fs_dentries s !! d = Some dd -> fs_inodes s !! odir = Some ox -> is_dir ox = true -> i_ptr ox = PDentry p ->
  fs_inodes s !! ndir = Some nx -> is_dir nx = true -> i_ptr nx = PDentry q -> replace_answer s K nx nname (d_inode dd) x false = None ->
  listing s K nx !! nname <> Some odir /\ listing s K nx !! nname <> Some ndir.
Proof.
  intros HT Hk Hd Ho Hod Hop Hnx Hnd Hptr Hans. unfold replace_answer in Hans. destruct (listing s K nx !! nname) as [m|] eqn:El; [|done].
  unfold listing in El. rewrite Hnd, Hptr in El. apply view_lookup in El as (c & dc & Hc & Hdc & Hname & Em); [|done]. destruct (t_node _ _ HT c dc Hdc) as (y & Hy & Hok).
  rewrite Em in Hy. rewrite Hy in Hans. cbn [mbind option_bind] in Hans. destruct (negb (cred_may_delete (fs_cur s) nx y)); [done|]. destruct (m =? d_inode dd); [done|].
  split; intros [= ->].
  - assert (y = ox) as -> by congruence. rewrite Hod in Hans. rewrite andb_false_r, andb_true_r in Hans. cbn [negb] in Hans. destruct (negb (is_dir x)); [done|]. case_bool_decide as He; [|done].
    rewrite <- Em in Hy. pose proof (n_own _ _ Hok Hod) as E. rewrite Hop in E. injection E as ->. pose proof (proj2 (empty_dir s K c dc ox HT Hdc Hy Hod) He) as Kc.
    rewrite Kc in Hk. by apply not_elem_of_nil in Hk.
  - assert (y = nx) as -> by congruence. pose proof (n_own _ _ Hok Hnd) as E. rewrite Hptr in E. injection E as ->. by apply (fr_self _ _ (t_forest _ _ HT) c).
Qed.

Lemma found_unique s K nx nname c1 c2 : tree s K -> found s K nx nname c1 -> found s K nx nname c2 -> c1 = c2.
Proof.
  unfold found. destruct (listing s K nx !! nname) as [n|]; [|congruence]. intros HT (_ & p & d1 & _ & E1 & H1 & Hd1 & N1 & _) (_ & p' & d2 & _ & E2 & H2 & Hd2 & N2 & _).
  rewrite E1 in E2. injection E2 as <-. apply (t_names _ _ HT p c1 c2 d1 d2); try done. congruence.
Qed.

Lemma vfs_rename_ok s K odir ox oname ndir nx nname noreplace :
  tree s K -> few s -> fs_inodes s !! odir = Some ox -> fs_inodes s !! ndir = Some nx ->
  wp (vfs_rename odir oname ndir nname noreplace) (fun r s' => match rename_answer s K odir ox oname ndir nx nname noreplace with
    | Some e => r = e /\ s' = s
    | None => r = 0 /\ renamed s s' K ox oname ndir nx nname end) s.
Proof.
  intros HT Hfew Ho Hnx. unfold vfs_rename, rename_answer. wp_step. eapply wp_vfs_child; [done|done|]. intros d Hf.
  destruct (Z.eqb_spec d 0) as [->|Hd0]; [rewrite (found_none _ _ _ _ Hf); by wp_steps|].
  destruct (found_some _ _ _ _ _ Hf Hd0) as (p & dd & n & Hod & Hop & Hk & Hd & Hname & <- & El). rewrite El. destruct (t_node _ _ HT d dd Hd) as (x & Hx & Hok).
  wp_step. eapply wp_ino; [done|]. destruct (is_dir nx) eqn:Hnd; cbn [negb]; [|by wp_steps]. wp_step. eapply wp_ino; [done|].
  destruct (negb (i_dev ox =? i_dev nx) || negb (has_create nx)); [by wp_steps|]. destruct (removed nx) eqn:Hrm; [by wp_steps|].
  destruct (Z.ltb_spec NAME_MAX (slen nname)) as [|Hlen]; [by wp_steps|]. destruct (t_dir _ _ HT ndir nx Hnx Hnd) as [Ep|(q & dq & Hptr & Hq & _)]; [unfold removed in Hrm; by rewrite Ep in Hrm|].
  wp_step. eapply wp_dent; [done|]. wp_step. eapply wp_ino; [done|]. rewrite Hx. cbn [mbind option_bind].
  wp_step. eapply (wp_dir_may_move s K HT p q d dd x ndir nx); try done. intros r Hr. destruct (move_error s x nx) as [e|] eqn:Hmv; cbn [orelse].
  { destruct Hr as [-> He]. rewrite (proj2 (Z.ltb_lt _ _) He). by wp_steps. }
  subst r. change (0 <? 0) with false. cbv iota. wp_step. eapply (wp_may_rename s K HT odir ox ndir nx); try done. intros r Hr.
  destruct (permission_error s odir ndir ox nx x) as [e|]; cbn [orelse]; [destruct Hr as [-> He]; rewrite (proj2 (Z.ltb_lt _ _) He); by wp_steps|].
  rewrite (proj2 (Z.ltb_ge _ _) Hr). wp_step. eapply wp_vfs_child; [done|done|]. intros dst Hf'. wp_step. eapply (wp_may_replace s K HT p q d dd x); try done. intros rep Hrep.
  destruct (replace_answer s K nx nname (d_inode dd) x noreplace) as [e|] eqn:Hans; subst rep; [by wp_steps|]. apply replace_false in Hans.
  destruct (clear_way s K p q d dd x ndir nx) as [Hfar Hroot]; [done..|].
  assert (listing s K nx !! nname <> Some odir /\ listing s K nx !! nname <> Some ndir) as [Hlo Hln] by (by eapply (replace_spares s K p q d dd x)).
  wp_step. eapply (replace_ok s K p q d dd x odir ox ndir nx nname dst); try done. intros s1 K1 dd1 HT1 Hsub Hk1 Hd1 [= En1 Ei1] Hold Hanc Hdst HE HI Ha.
  destruct (replaced_keeps s K ndir nx nname ndir nx Hnx Hnx Hln) as (nx1 & Hnx1 & Ed1 & Ep1). destruct (replaced_keeps s K ndir nx nname odir ox Ho Hnx Hlo) as (ox1 & Hox1 & _).
  rewrite <- HI in Hnx1, Hox1. destruct (dir_dentry_dir s1 K1 HT1 ndir nx1 q Hnx1) as (dq1 & _ & Hq1 & _); [congruence|congruence|].
  wp_step. eapply (move_ok s1 K1 p q d dd1 odir ndir nx1 nname); try done; [congruence|congruence| | |by apply Z.leb_le| |].
  - pose proof (ancestors_anc s1 K1 q HT1 (ex_intro _ _ Hq1)) as Ha1.
    by rewrite (anc_det _ _ _ (Hanc _ Ha1) _ (ancestors_anc s K q HT (ex_intro _ _ Hq))).
  - destruct Ha as (_ & _ & -> & _). rewrite Ei1. done.
  - intros c dc Hc Hcd Hdc En. destruct (Hold c dc Hdc) as (dc0 & Hdc0 & En0). assert (found s K nx nname c) as Hfc; [|].
    { unfold found, listing. rewrite Hnd, Hptr. assert (view s K q !! nname = Some (d_inode dc0)) as -> by (apply view_lookup; [done|]; exists c, dc0; split_and!; [by apply Hsub|done|congruence|done]).
      split; [by destruct (kid_nonnull _ _ (t_forest _ _ HT) q c (Hsub c q Hc))|]. exists q, dc0. split_and!; [done|done|by apply Hsub|done|congruence|done]. }
    apply Hdst. by rewrite (found_unique s K nx nname dst c HT Hf' Hfc).
  - intros s' K' HT' HR HIk Ha'. wp_steps. split; [done|]. exists p, q, (d_inode dd), K'. split_and!; try done; [|by rewrite HIk, HI|by transitivity s1].
    rewrite En1, Hname, Ei1 in HR. destruct HE as [[-> ->]|HE]; [done|by eapply relocated_erased].
Qed.
End Rename.
