(* ===== verification/VfsNames.v ===== *)
(** * What the operations on names guarantee

    References to inodes, then all operations together as steps on a state
    whose tree of names stays sound, and the guarantees one by one, with a
    small file system as example. *)
From S2P Require Import Prelude Types Cred Pipe VfsState Forest Ramfs Vfs VfsTree VfsEdit VfsOps VfsRename.

(** ** References *)

Lemma tree_free s s' K n : tree s K -> links s n = 0 -> fs_inodes s' = delete n (fs_inodes s) -> fs_dentries s' = fs_dentries s ->
  fs_mounts s' = fs_mounts s -> fs_block s <= fs_block s' -> tree s' K.
Proof.
  intros HT Hl EI ED EM EB. assert (forall k, links s' k = links s k) as EL by (intros k; unfold links; by rewrite ED, EM).
  assert (naming (d_inode <$> fs_dentries s) n = 0%nat) as H0 by (unfold links in Hl; lia).
  assert (forall d dd, fs_dentries s !! d = Some dd -> d_inode dd <> n) as Hno by (intros d dd Hd E; apply (naming_zero _ _ H0 d); by rewrite lookup_fmap, Hd, <- E).
  assert (forall k y, fs_inodes s' !! k = Some y -> k <> n /\ fs_inodes s !! k = Some y) as Hin by (intros k y; rewrite EI; intros [? ?]%lookup_delete_Some; done).
  split; rewrite ?ED; try apply HT.
  - intros d dd Hd. destruct (t_node _ _ HT d dd Hd) as (x & Hx & Hok). exists x. split; [|done]. rewrite EI, lookup_delete_ne; [done|]. apply not_eq_sym. by eapply Hno.
  - intros k y [Hk Hy]%Hin Hd. unfold mountpoint_at. rewrite EM. by eapply (t_dir _ _ HT).
  - intros k y [Hk Hy]%Hin. by eapply (t_create _ _ HT).
  - intros k y [Hk Hy]%Hin. rewrite EL. by eapply (t_links _ _ HT).
  - destruct (t_null _ _ HT). split; [rewrite EI; by apply lookup_delete_None; right|lia].
  - intros k Hk. destruct (t_fresh _ _ HT k) as [? ?]; [lia|]. split; [done|]. rewrite EI. apply lookup_delete_None. by right.
  - unfold mountpoint_at. rewrite EM. apply HT.
  - intros q c dq y Hc Hq [_ Hy]%Hin. by eapply (t_leaf _ _ HT).
  - rewrite EM. intros m Hm. destruct (t_mounts _ _ HT m Hm) as [(x & Hx & Hd) Hdev Htop Hcov Hheld]. assert (m_root m <> n) as Hrn by (intros E; rewrite E in Hheld; lia).
    split; rewrite ?ED, ?EM, ?EL; [exists x; by rewrite EI, lookup_delete_ne by done| |done| |done].
    + intros d dd dp x1 y1 Hdd Er Hdp [_ Hx1]%Hin [_ Hy1]%Hin. by apply (Hdev d dd dp).
    + destruct Hcov as [?|Hcov]; [by left|right]. rewrite EI, lookup_delete_ne; [done|]. intros ->. unfold links in Hl.
      assert (m ∈ filter (fun m' => m_covered m' = m_covered m) (fs_mounts s)) as Hin' by (apply list_elem_of_filter; done).
      destruct (filter _ (fs_mounts s)); [by apply not_elem_of_nil in Hin'|simpl in Hl; lia].
Qed.

Section Names.
  Context `{DR : Drivers}.

(** The inodes after a reference to [n] is given up. *)
Definition put_inodes (s : fs) (n : Z) (x : inode) : gmap Z inode :=
  if decide (i_refs x = 1 /\ links s n = 0 /\ has_destroy x = true) then delete n (fs_inodes s) else <[n := set_i_refs (i_refs x - 1) x]> (fs_inodes s).

Lemma vfs_iput_ok s K n x :
  tree s K -> few s -> fs_inodes s !! n = Some x -> 0 < i_refs x < 2 ^ 32 -> i_destroy x = None \/ i_destroy x = Some DRamfs ->
  wp (vfs_iput n) (fun _ s' => tree s' K /\ fs_inodes s' = put_inodes s n x /\ fs_dentries s' = fs_dentries s /\ aside s s') s.
Proof.
  intros HT Hfew Hx Hr Hdst. unfold vfs_iput. wp_step. eapply wp_iset; [done|]. rewrite (u32_small (i_refs x - 1)) by lia. set (y := set_i_refs (i_refs x - 1) x). set (s1 := set_fs_inodes _ s).
  assert (fs_inodes s1 !! n = Some y) as Hy by apply lookup_insert_eq. assert (calm s s1) as Hc by by apply (calm_set s n x). assert (aside s s1) as Ha by apply aside_inodes.
  wp_step. eapply wp_ino; [exact Hy|]. pose proof (tree_calm s s1 K HT Hc) as HT1.
  assert (i_destroy x = Some DRamfs -> (i_nlink x =? 0) = bool_decide (links s n = 0)) as Hnl.
  { intros E. rewrite (t_links _ _ HT n x Hx) by by left. pose proof (links_bound s n Hfew). unfold u32. rewrite Z.mod_small by lia. apply Bool.eq_iff_eq_true. by rewrite Z.eqb_eq, bool_decide_eq_true. }
  unfold put_inodes. apply wp_when; intros Hb.
  - apply andb_true_iff in Hb as [[Hb1%Z.eqb_eq Hb2]%andb_true_iff Hb3]. unfold has_destroy in Hb3. cbn [y i_refs i_nlink i_destroy set_i_refs] in Hb1, Hb2, Hb3.
    destruct Hdst as [E|E]; [by rewrite E in Hb3|]. rewrite (Hnl E) in Hb2. apply bool_decide_eq_true in Hb2. rewrite decide_True by (split_and!; [lia|done|unfold has_destroy; by rewrite E]).
    unfold call_destroy. wp_step. eapply wp_ino; [exact Hy|]. cbn [y i_destroy set_i_refs]. rewrite E. unfold ramfs_destroy. wp_step. eapply wp_ino; [exact Hy|]. unfold ifree. wp_step.
    cbn [fs_inodes fs_dentries set_fs_inodes s1]. split_and!; [|by rewrite delete_insert_eq|done|etransitivity; [exact Ha|apply aside_inodes]].
    eapply (tree_free s1 _ K n); [done|by unfold links in *|done..].
  - rewrite decide_False; [done|]. intros (H1 & H2 & H3). destruct Hdst as [E|E]; [unfold has_destroy in H3; by rewrite E in H3|].
    change (has_destroy y) with (has_destroy x) in Hb. change (i_nlink y) with (i_nlink x) in Hb. rewrite (Hnl E), bool_decide_true, H3 in Hb by done. simpl in Hb. by rewrite H1 in Hb.
Qed.

Lemma vfs_iget_ok s K n x :
  tree s K -> fs_inodes s !! n = Some x -> wp (vfs_iget n) (fun _ s' => tree s' K /\ fs_inodes s' = <[n := set_i_refs (u32 (i_refs x + 1)) x]> (fs_inodes s) /\ fs_dentries s' = fs_dentries s /\ aside s s') s.
Proof.
  intros HT Hx. unfold vfs_iget. eapply wp_iset; [done|]. split_and!; try done. eapply tree_calm; [exact HT|]. by eapply calm_set.
Qed.

(** ** All operations *)

Inductive name_op :=
| OCreate (dir : Z) (name : string) (type mode : Z)
| OUnlink (dir : Z) (name : string)
| ORmdir (dir : Z) (name : string)
| OLink (dir : Z) (name : string) (target : Z)
| ORename (odir : Z) (oname : string) (ndir : Z) (nname : string) (noreplace : bool)
| OGet (n : Z)
| OPut (n : Z).

Definition run_op (op : name_op) : M fs Z :=
  match op with
  | OCreate dir name type mode => r ← vfs_create dir name type mode; mret (match r with inl e => e | inr _ => 0 end)
  | OUnlink dir name => vfs_unlink dir name
  | ORmdir dir name => vfs_rmdir dir name
  | OLink dir name target => vfs_link dir name target
  | ORename odir oname ndir nname noreplace => vfs_rename odir oname ndir nname noreplace
  | OGet n => _ ← vfs_iget n; mret 0
  | OPut n => _ ← vfs_iput n; mret 0
  end.

(** The inodes given to it are live; a reference given up is one there was. *)
Definition op_ok (s : fs) (op : name_op) : Prop :=
  match op with
  | OCreate dir _ type _ => is_Some (fs_inodes s !! dir) /\ type_ok type
  | OUnlink dir _ | ORmdir dir _ => is_Some (fs_inodes s !! dir)
  | OLink dir _ target => is_Some (fs_inodes s !! dir) /\ exists x, fs_inodes s !! target = Some x /\ i_destroy x = Some DRamfs
  | ORename odir _ ndir _ _ => is_Some (fs_inodes s !! odir) /\ is_Some (fs_inodes s !! ndir)
  | OGet n => is_Some (fs_inodes s !! n)
  | OPut n => exists x, fs_inodes s !! n = Some x /\ 0 < i_refs x < 2 ^ 32 /\ (i_destroy x = None \/ i_destroy x = Some DRamfs)
  end.

Definition sound (s : fs) : Prop := exists K, tree s K.

Lemma sound_removed s s' K dir dn name : name_removed s s' K dir dn name -> sound s'.
Proof. intros (p & n & x & K' & _ & _ & _ & HT & _). by exists K'. Qed.

Lemma run_op_sound s op : sound s -> few s -> op_ok s op -> wp (run_op op) (fun _ => sound) s.
Proof.
  intros [K HT] Hfew Hop. assert (forall s', idle s s' -> sound s') as Hidle by (intros s' Hi; exists K; eapply tree_calm; [exact HT|by apply idle_calm]).
  destruct op as [dir name type mode|dir name|dir name|dir name target|odir oname ndir nname nr|n|n]; cbn [run_op op_ok] in *.
  - destruct Hop as [[dn Hd] Ht]. wp_step. eapply wp_mono; [by apply (vfs_create_ok s K dir dn)|]. intros r s' H. wp_step.
    destruct (create_error s K dn name); [destruct H as [_ ->]; by exists K|]. destruct H as [[_ H]|(n & p & K' & _ & _ & _ & _ & HT' & _)]; [by apply Hidle|by exists K'].
  - destruct Hop as [dn Hd]. eapply wp_mono; [by apply (vfs_unlink_ok s K dir dn)|]. intros r s' H. destruct (unlink_error s K dn name); [destruct H as [_ ->]; by exists K|]. by eapply sound_removed, H.
  - destruct Hop as [dn Hd]. eapply wp_mono; [by apply (vfs_rmdir_ok s K dir dn)|]. intros r s' H. destruct (rmdir_error s K dn name); [destruct H as [_ ->]; by exists K|]. by eapply sound_removed, H.
  - destruct Hop as [[dn Hd] (x & Hx & Hram)]. eapply wp_mono; [by apply (vfs_link_ok s K dir dn name target x)|]. intros r s' H.
    destruct (link_error s K dn x name); [destruct H as [_ ->]; by exists K|]. destruct H as [[_ H]|(_ & p & K' & _ & HT' & _)]; [by apply Hidle|by exists K'].
  - destruct Hop as [[ox Ho] [nx Hn]]. eapply wp_mono; [by apply (vfs_rename_ok s K odir ox oname ndir nx nname nr)|]. intros r s' H.
    destruct (rename_answer s K odir ox oname ndir nx nname nr); [destruct H as [_ ->]; by exists K|]. destruct H as (_ & p & q & n & K' & _ & _ & _ & HT' & _). by exists K'.
  - destruct Hop as [x Hx]. wp_step. eapply wp_mono; [by apply (vfs_iget_ok s K n x)|]. intros r s' [HT' _]. wp_step. by exists K.
  - destruct Hop as (x & Hx & Hr & Hdst). wp_step. eapply wp_mono; [by apply (vfs_iput_ok s K n x)|]. intros r s' [HT' _]. wp_step. by exists K.
Qed.

(** Calls one after the other. *)
Inductive name_step (s s' : fs) : Prop :=
| NStep op r : op_ok s op -> few s -> run_op op s = Some (r, s') -> name_step s s'.

Lemma steps_sound s s' : rtc name_step s s' -> sound s -> sound s'.
Proof.
  induction 1 as [|s1 s2 s3 [op r Hok Hfew Hrun] _ IH]; [done|]. intros Hs. apply IH. pose proof (run_op_sound s1 op Hs Hfew Hok) as H. unfold wp in H. by rewrite Hrun in H.
Qed.

(** C2: from a sound tree of names, any sequence of creations, removals,
    links, renames and references taken or given up leads to a sound tree,
    where each further such call returns: no dangling or NULL pointer is
    followed, and the walks over siblings and parents end. *)
Theorem names_stay_sound s s' op :
  sound s -> rtc name_step s s' -> op_ok s' op -> few s' -> sound s' /\ exists r s'', run_op op s' = Some (r, s'') /\ sound s''.
Proof.
  intros Hs Hst Hok Hfew. pose proof (steps_sound s s' Hst Hs) as Hs'. split; [done|].
  destruct (wp_run _ _ _ (run_op_sound s' op Hs' Hfew Hok)) as (r & s'' & Hr & H). eauto.
Qed.


(** C19: vfs_unlink and vfs_rmdir answer the first check that fails and change
    nothing, or take exactly that name out of the directory; the inode is
    freed when that was its last name and nobody has it open, and only then. *)
Theorem vfs_remove_correct s K dir dn name :
  tree s K -> few s -> fs_inodes s !! dir = Some dn ->
  wp (vfs_unlink dir name) (fun r s' => match unlink_error s K dn name with
    | Some e => r = e /\ s' = s | None => r = 0 /\ name_removed s s' K dir dn name end) s
  /\ wp (vfs_rmdir dir name) (fun r s' => match rmdir_error s K dn name with
    | Some e => r = e /\ s' = s | None => r = 0 /\ name_removed s s' K dir dn name end) s.
Proof. intros HT Hfew Hd. split; [by apply vfs_unlink_ok|by apply vfs_rmdir_ok]. Qed.

(** vfs_link gives an existing file a second name and counts it. *)
Theorem vfs_link_correct s K dir dn name target tx :
  tree s K -> fs_inodes s !! dir = Some dn -> fs_inodes s !! target = Some tx -> i_destroy tx = Some DRamfs ->
  wp (vfs_link dir name target) (fun r s' => match link_error s K dn tx name with
    | Some e => r = e /\ s' = s
    | None => r = - ENOMEM /\ idle s s' \/ r = 0 /\ exists p K', i_ptr dn = PDentry p /\ tree s' K' /\ entered s s' K K' p name target
        /\ linked s s' dir dn target tx /\ aside s s' end) s.
Proof. intros ? ? ? ?. by apply vfs_link_ok. Qed.

(** C4: vfs_rename answers without a change (an error, or 0 when both names
    are the same file), or moves the entry from the one directory to the
    other; what stood at the new name loses it, and the tree stays a tree:
    a directory never ends up below itself. *)
Theorem vfs_rename_correct s K odir ox oname ndir nx nname noreplace :
  tree s K -> few s -> fs_inodes s !! odir = Some ox -> fs_inodes s !! ndir = Some nx ->
  wp (vfs_rename odir oname ndir nname noreplace) (fun r s' => match rename_answer s K odir ox oname ndir nx nname noreplace with
    | Some e => r = e /\ s' = s
    | None => r = 0 /\ renamed s s' K ox oname ndir nx nname end) s.
Proof. apply vfs_rename_ok. Qed.

(** giving up a reference frees the inode when it was the last one and no
    name leads there, and otherwise only counts it. *)
Theorem vfs_iput_correct s K n x :
  tree s K -> few s -> fs_inodes s !! n = Some x -> 0 < i_refs x < 2 ^ 32 -> i_destroy x = None \/ i_destroy x = Some DRamfs ->
  wp (vfs_iput n) (fun _ s' => tree s' K /\ fs_inodes s' = put_inodes s n x /\ fs_dentries s' = fs_dentries s /\ aside s s') s.
Proof. apply vfs_iput_ok. Qed.
End Names.

(** ** A small file system *)

(** A system without devices, procfs and sockets. *)
Definition no_drivers : Drivers := {|
  drv_finddir _ _ _ := mret 0; drv_read _ _ _ _ := mret (- EINVAL, []); drv_open _ _ _ := mret 0; drv_release _ _ _ := mret tt; drv_destroy _ _ := mret tt |}.

(** /a, a file that is open, and the empty directory /b. *)
Definition root1 : inode := set_i_create (Some DRamfs) (set_i_ptr (PDentry 2) (new_inode 0 1 VFS_DIRECTORY 493 RAMFS_DEV)).
Definition a1 : inode := set_i_refs 1 (new_inode 0 2 VFS_FILE 420 RAMFS_DEV).
Definition b1 : inode := set_i_create (Some DRamfs) (set_i_ptr (PDentry 6) (new_inode 0 3 VFS_DIRECTORY 493 RAMFS_DEV)).
Definition names1 : fs := MkFs {[1 := root1; 3 := a1; 5 := b1]}
  {[2 := MkDentry "/" 1 0 4 0 1; 4 := MkDentry "a" 3 2 0 6 2; 6 := MkDentry "b" 5 2 0 0 3]} ∅ ∅ [MkMount 7 2 0 0 1 "ramfs" "ramfs" 0] 2 4 4 10 [] 7 None [].
Definition kids1 : Z -> list Z := fun d => if d =? 2 then [4; 6] else [].

Ltac each H := repeat (apply lookup_insert_Some in H as [[<- <-]|[? H]] || apply lookup_singleton_Some in H as [<- <-]).

Lemma kids1_in c p : c ∈ kids1 p -> p = 2 /\ (c = 4 \/ c = 6).
Proof. unfold kids1. destruct (Z.eqb_spec p 2) as [->|]; [set_solver|by intros ?%not_elem_of_nil]. Qed.

Lemma names1_tree : tree names1 kids1.
Proof.
  split.
  - split.
    + intros d dd Hd. simpl in Hd. each Hd; vm_compute; eauto 20.
    + intros d Hd. unfold kids1. destruct (Z.eqb_spec d 2) as [->|]; [by vm_compute in Hd|done].
    + intros d. unfold kids1. destruct (d =? 2); [|constructor]. by apply (bool_decide_eq_true_1 (NoDup [4; 6])).
    + done.
    + intros d [-> [?|?]]%kids1_in; done.
  - intros d dd Hd. simpl in Hd. each Hd; eexists; (split; [vm_compute; reflexivity|]); split; try done; by right.
  - intros n x Hn Hd. simpl in Hn. each Hn; try done; right; eexists _, _; (split; [vm_compute; reflexivity|]); (split; [vm_compute; reflexivity|]); by left.
  - intros n x Hn. simpl in Hn. each Hn; [by right|by left|by right].
  - intros p c1 c2 d1 d2 [-> [-> | ->]]%kids1_in [_ [-> | ->]]%kids1_in H1 H2; vm_compute in H1, H2; injection H1 as <-; injection H2 as <-; done.
  - intros n x Hn _. simpl in Hn. each Hn; by vm_compute.
  - by split.
  - intros k Hk. simpl in Hk. split; (destruct (_ !! k) as [y|] eqn:E; [|done]); simpl in E; each E; lia.
  - intros d [dd Hd]. simpl in Hd.
    assert (anc (d_parent <$> fs_dentries names1) 2 [2]) as H2 by (eapply anc_up; [done|vm_compute; reflexivity|constructor]).
    each Hd; [by exists [2]|exists [4; 2]|exists [6; 2]]; (eapply anc_up; [done|vm_compute; reflexivity|exact H2]).
  - intros c dc Hc. simpl in Hc. each Hc; [done|..]; intros _; left; vm_compute; set_solver.
  - intros q c dq x [-> _]%kids1_in Hq Hx. vm_compute in Hq. injection Hq as <-. vm_compute in Hx. by injection Hx as <-.
  - intros m ->%list_elem_of_singleton. split; simpl.
    + by exists root1.
    + intros d dd dp x y Hd E Hp. each Hd; done.
    + eexists _, _. split; [left|]. split; [vm_compute; reflexivity|done].
    + by left.
    + by vm_compute.
Qed.

Lemma names1_few : few names1.
Proof. by apply few_size; vm_compute. Qed.

Definition after (op : name_op) (s : fs) : fs := match run_op (DR := no_drivers) op s with Some (_, s') => s' | None => s end.

(** /b/c is made and /a moved over it. *)
Definition names2 : fs := after (OCreate 5 "c" VFS_FILE 420) names1.

Lemma names_stay_sound_witness :
  sound names2 /\ exists r s'', run_op (DR := no_drivers) (ORename 1 "a" 5 "c" false) names2 = Some (r, s'') /\ sound s''.
Proof.
  apply (names_stay_sound (DR := no_drivers) names1 names2 (ORename 1 "a" 5 "c" false)).
  - exists kids1. apply names1_tree.
  - eapply rtc_l; [|apply rtc_refl]. apply (NStep (DR := no_drivers) _ _ (OCreate 5 "c" VFS_FILE 420) 0); [split; [by exists b1|done]|apply names1_few|vm_compute; reflexivity].
  - split; vm_compute; eauto.
  - by apply few_size; vm_compute.
Defined.


Lemma vfs_remove_correct_witness :
  unlink_error names1 kids1 root1 "a" = None /\ rmdir_error names1 kids1 root1 "a" = Some (- ENOTDIR)
  /\ (wp (vfs_unlink (DR := no_drivers) 1 "a") (fun r s' => match unlink_error names1 kids1 root1 "a" with
    | Some e => r = e /\ s' = names1 | None => r = 0 /\ name_removed names1 s' kids1 1 root1 "a" end) names1
  /\ wp (vfs_rmdir (DR := no_drivers) 1 "a") (fun r s' => match rmdir_error names1 kids1 root1 "a" with
    | Some e => r = e /\ s' = names1 | None => r = 0 /\ name_removed names1 s' kids1 1 root1 "a" end) names1).
Proof. split; [by vm_compute|]. split; [by vm_compute|]. apply (vfs_remove_correct (DR := no_drivers) names1 kids1 1 root1 "a"); [apply names1_tree|apply names1_few|done]. Defined.

Lemma vfs_link_correct_witness :
  link_error names1 kids1 b1 a1 "c" = None
  /\ wp (vfs_link 5 "c" 3) (fun r s' => match link_error names1 kids1 b1 a1 "c" with
    | Some e => r = e /\ s' = names1
    | None => r = - ENOMEM /\ idle names1 s' \/ r = 0 /\ exists p K', i_ptr b1 = PDentry p /\ tree s' K' /\ entered names1 s' kids1 K' p "c" 3
        /\ linked names1 s' 5 b1 3 a1 /\ aside names1 s' end) names1.
Proof. split; [by vm_compute|]. apply (vfs_link_correct names1 kids1 5 b1 "c" 3 a1); [apply names1_tree|done|done|done]. Defined.

(** /b cannot move below itself; /a can move into it. *)
Lemma vfs_rename_correct_witness :
  rename_answer names1 kids1 1 root1 "b" 5 b1 "c" false = Some (- EINVAL) /\ rename_answer names1 kids1 1 root1 "a" 5 b1 "c" true = None
  /\ wp (vfs_rename (DR := no_drivers) 1 "a" 5 "c" true) (fun r s' => match rename_answer names1 kids1 1 root1 "a" 5 b1 "c" true with
    | Some e => r = e /\ s' = names1
    | None => r = 0 /\ renamed names1 s' kids1 root1 "a" 5 b1 "c" end) names1.
Proof.
  split; [by vm_compute|]. split; [by vm_compute|].
  apply (vfs_rename_correct (DR := no_drivers) names1 kids1 1 root1 "a" 5 b1 "c" true); [apply names1_tree|apply names1_few|done|done].
Defined.

(** /a stays when it is closed, as its name is still there. *)
Lemma vfs_iput_correct_witness :
  fs_inodes (after (OPut 3) names1) !! 3 = Some (set_i_refs 0 a1) /\ fs_inodes (after (OPut 3) (after (OUnlink 1 "a") names1)) !! 3 = None
  /\ wp (vfs_iput (DR := no_drivers) 3) (fun _ s' => tree s' kids1 /\ fs_inodes s' = put_inodes names1 3 a1 /\ fs_dentries s' = fs_dentries names1 /\ aside names1 s') names1.
Proof.
  split; [by vm_compute|]. split; [by vm_compute|].
  apply (vfs_iput_correct (DR := no_drivers) names1 kids1 3 a1); [apply names1_tree|apply names1_few|done|done|by right].
Defined.
