(* ===== verification/VfsPath.v ===== *)
(** * Paths

    The path vfs_dentry_path writes leads back: resolving it gives the same
    inode and dentry. And resolution always returns, with an error or a live
    inode, whatever the path. *)
From S2P Require Import Prelude Types UserMem Cred Pipe VfsState Forest Ramfs Vfs VfsTree VfsOps VfsRename VfsNames.

(** ** Strings *)

Lemma append_nil_r p : (p ++ "")%string = p.
Proof. induction p as [|c p IH]; [done|]. change (String c (p ++ "") = String c p). by rewrite IH. Qed.

Lemma append_assoc a b c : ((a ++ b) ++ c)%string = (a ++ (b ++ c))%string.
Proof. induction a as [|x a IH]; [done|]. change (String x ((a ++ b) ++ c) = String x (a ++ (b ++ c))). by rewrite IH. Qed.

Lemma slen_app a b : slen (a ++ b) = slen a + slen b.
Proof. unfold slen. induction a as [|x a IH]; [done|]. change (Z.of_nat (S (String.length (a ++ b))) = Z.of_nat (S (String.length a)) + Z.of_nat (String.length b)). lia. Qed.

Lemma slen_cons c p : slen (String c p) = slen p + 1.
Proof. unfold slen. change (String.length (String c p)) with (S (String.length p)). lia. Qed.

(** A name a directory entry can have. *)
Fixpoint slashless (p : string) : bool := match p with EmptyString => true | String c p' => negb (Ascii.eqb c slash) && slashless p' end.

Definition good_name (name : string) : Prop :=
  name <> ""%string /\ name <> "."%string /\ name <> ".."%string /\ slashless name = true /\ slen name <= NAME_MAX.

(** What follows a component: nothing, or a slash. *)
Definition boundary (p : string) : Prop := p = ""%string \/ starts_slash p = true.

Lemma split_comp_app name rest : slashless name = true -> boundary rest -> split_comp (name ++ rest) = (name, rest).
Proof.
  intros Hs Hb. induction name as [|c name IH]; simpl in *.
  - destruct Hb as [->|Hb]; [done|]. destruct rest as [|c rest]; [done|]. simpl in *. by rewrite Hb.
  - apply andb_true_iff in Hs as [Hc%negb_true_iff Hs]. rewrite Hc. by rewrite (IH Hs).
Qed.

Lemma skip_slash_name name rest : name <> ""%string -> slashless name = true -> skip_slashes (String slash (name ++ rest)) = (name ++ rest)%string.
Proof.
  intros Hn Hs. destruct name as [|c name]; [done|]. simpl in *. apply andb_true_iff in Hs as [Hc%negb_true_iff _]. by rewrite Hc.
Qed.

(** ** From the root down *)

(** [d] is reached from the root along [path], through directories of
    dentries the current process may search. *)
Inductive reach (s : fs) (K : Z -> list Z) : Z -> string -> nat -> Prop :=
| reach_root rd rx : fs_dentries s !! fs_root s = Some rd -> d_parent rd = 0 -> fs_inodes s !! d_inode rd = Some rx -> is_dir rx = true -> reach s K (fs_root s) "" 0
| reach_kid p dp px path k d dd x :
    reach s K p path k -> fs_dentries s !! p = Some dp -> fs_inodes s !! d_inode dp = Some px -> is_dir px = true -> i_finddir px = Some DDentry ->
    0 <= cred_permission (fs_cur s) px MAY_EXEC -> d ∈ K p -> fs_dentries s !! d = Some dd -> good_name (d_name dd) ->
    fs_inodes s !! d_inode dd = Some x -> is_link x = false -> reach s K d (path ++ String slash (d_name dd)) (S k).

Section Path.
  Context `{DR : Drivers}.

Definition follow_with (links : nat) : option (Z -> string -> M fs resolved) :=
  match links with O => None | S l => Some (fun dir target => walk l dir target true) end.

Lemma walk_eq links base path follow : walk links base path follow =
  (s ← get; cur ← (if starts_slash path then rd ← dent (fs_root s); mret (d_inode rd) else mret base); d ← name_of 0 cur None;
   walk_loop (follow_with links) (S (String.length path)) follow cur d path).
Proof. by destruct links. Qed.

  Context (s : fs) (K : Z -> list Z) (HT : tree s K).

Lemma reach_live d path k : reach s K d path k -> exists dd, fs_dentries s !! d = Some dd.
Proof. destruct 1; eauto. Qed.

Lemma reach_nonnull d path k : reach s K d path k -> d <> 0.
Proof. intros (dd & Hd)%reach_live ->. by rewrite (fr_null _ _ (t_forest _ _ HT)) in Hd. Qed.

Lemma reach_anc d path k : reach s K d path k -> exists l, anc (d_parent <$> fs_dentries s) d l /\ length l = S k.
Proof.
  intros Hr. assert (d <> 0) as Hd0 by by eapply reach_nonnull. induction Hr as [rd rx Hrd Hp _ _|p dp px path k d dd x Hr IH Hp _ _ _ _ Hk Hd _ _ _].
  - exists [fs_root s]. split; [|done]. eapply anc_up; [done|by rewrite lookup_fmap, Hrd|]. rewrite Hp. constructor.
  - destruct IH as (l & Hl & Hlen); [by eapply reach_nonnull|]. exists (d :: l). split; [|simpl; lia]. eapply anc_up; [done| |exact Hl].
    destruct (kid_parent s K HT p d Hk) as (dd' & Hd' & Ep). by rewrite lookup_fmap, Hd', <- Ep.
Qed.

(** *** The path of a dentry *)

Lemma path_up_ok d path k fuel at_ acc (Q : Z + Z * string -> fs -> Prop) :
  reach s K d path k -> (k < fuel)%nat -> slen path <= at_ -> Q (inr (at_ - slen path, (path ++ acc)%string)) s -> wp (path_up fuel d at_ acc) Q s.
Proof.
  intros Hr. revert fuel at_ acc. induction Hr as [rd rx Hrd Hp _ _|p dp px path k d dd x Hr IH Hp _ _ _ _ Hk Hd Hg _ _]; intros fuel at_ acc Hf Hat HQ; (destruct fuel as [|fuel]; [lia|]); cbn [path_up].
  - assert (fs_root s <> 0) as H0 by (intros E; by rewrite E, (fr_null _ _ (t_forest _ _ HT)) in Hrd). rewrite (proj2 (Z.eqb_neq _ _) H0). wp_step. eapply wp_dent; [done|].
    rewrite Hp, Z.eqb_refl. wp_steps. change (slen "") with 0 in HQ. by rewrite Z.sub_0_r in HQ.
  - destruct (kid_nonnull _ _ (t_forest _ _ HT) p d Hk) as [Hd0 Hp0]. destruct (kid_parent s K HT p d Hk) as (dd' & Hd' & Ep). rewrite Hd in Hd'. injection Hd' as <-.
    rewrite (proj2 (Z.eqb_neq _ _) Hd0). wp_step. eapply wp_dent; [done|]. rewrite Ep, (proj2 (Z.eqb_neq _ _) Hp0). cbv zeta.
    rewrite slen_app, slen_cons in Hat. rewrite slen_app, slen_cons in HQ. destruct (Z.ltb_spec at_ (slen (d_name dd) + 1)) as [Hl|Hl]; [unfold slen in *; lia|]. apply IH; [lia|lia|].
    replace (at_ - slen (d_name dd) - 1 - slen path) with (at_ - (slen path + (slen (d_name dd) + 1))) by lia.
    rewrite append_assoc in HQ. exact HQ.
Qed.

Definition shown (path : string) : string := if String.eqb path "" then "/" else path.

Lemma dentry_path_ok d path k size_ (Q : Z + string -> fs -> Prop) :
  reach s K d path k -> slen path < size_ - 1 -> Q (inr (shown path)) s -> wp (vfs_dentry_path d size_) Q s.
Proof.
  intros Hr Hsz HQ. unfold vfs_dentry_path. wp_step. wp_step. wp_step. destruct (reach_anc d path k Hr) as (l & Hl & Hlen). pose proof (anc_fuel _ _ _ Hl) as Hf. rewrite map_size_fmap in Hf.
  eapply path_up_ok; [exact Hr|unfold dfuel; lia|lia|]. rewrite append_nil_r. unfold shown in HQ. destruct (String.eqb_spec path "") as [->|]; [|by wp_steps].
  rewrite (proj2 (Z.eqb_neq _ _)) by lia. by wp_steps.
Qed.

(** *** Resolving it *)

Lemma name_of_ok dir px d dd x name (Q : Z -> fs -> Prop) :
  fs_inodes s !! dir = Some px -> fs_dentries s !! d = Some dd -> fs_inodes s !! d_inode dd = Some x -> found s K px name d -> Q d s -> wp (name_of dir (d_inode dd) (Some name)) Q s.
Proof.
  intros Hpx Hd Hx Hf HQ. unfold name_of. wp_step. eapply wp_ino; [done|]. destruct (is_dir x) eqn:Hxd.
  - destruct (t_node _ _ HT d dd Hd) as (x' & Hx' & Hok). rewrite Hx in Hx'. injection Hx' as <-. unfold own_dentry. rewrite (n_own _ _ Hok Hxd). by wp_steps.
  - eapply wp_vfs_child; [done|done|]. intros c Hc. by rewrite (found_unique s K px name c d HT Hc Hf).
Qed.

Lemma walk_step_ok p dp px path k d dd x link fuel follow rest (Q : resolved -> fs -> Prop) :
  reach s K p path k -> fs_dentries s !! p = Some dp -> fs_inodes s !! d_inode dp = Some px -> is_dir px = true -> i_finddir px = Some DDentry ->
  0 <= cred_permission (fs_cur s) px MAY_EXEC -> d ∈ K p -> fs_dentries s !! d = Some dd -> good_name (d_name dd) -> fs_inodes s !! d_inode dd = Some x -> is_link x = false ->
  boundary rest -> (rest <> ""%string -> is_dir x = true) ->
  wp (walk_loop link fuel follow (d_inode dd) d rest) Q s -> wp (walk_loop link (S fuel) follow (d_inode dp) p (String slash (d_name dd ++ rest))) Q s.
Proof.
  intros Hr Hp Hpx Hpd Hfind Hperm Hk Hd (Hn1 & Hn2 & Hn3 & Hn4 & Hn5) Hx Hnl Hb Hdir HQ. cbn [walk_loop]. cbv zeta. rewrite skip_slash_name by done.
  destruct (String.eqb_spec (d_name dd ++ rest) "") as [E|_]; [by destruct (d_name dd)|]. rewrite split_comp_app by done. rewrite (proj2 (Z.ltb_ge _ _) Hn5).
  wp_step. eapply wp_ino; [done|]. rewrite Hpd. cbn [negb]. wp_step. wp_step. rewrite (proj2 (Z.ltb_ge _ _) Hperm).
  destruct (t_node _ _ HT p dp Hp) as (px' & Hpx' & Hpok). rewrite Hpx in Hpx'. injection Hpx' as <-. pose proof (n_own _ _ Hpok Hpd) as Hptr.
  assert (found s K px (d_name dd) d) as Hf.
  { unfold found, listing. rewrite Hpd, Hptr. assert (view s K p !! d_name dd = Some (d_inode dd)) as -> by (apply view_lookup; [done|]; by exists d, dd).
    split; [by destruct (kid_nonnull _ _ (t_forest _ _ HT) p d Hk)|]. by exists p, dd. }
  assert (d_inode dd <> 0) as Hn0 by (intros E; rewrite E in Hx; by rewrite (proj1 (t_null _ _ HT)) in Hx). assert (d <> 0) as Hd0 by by destruct (kid_nonnull _ _ (t_forest _ _ HT) p d Hk).
  wp_step. unfold step. rewrite (proj2 (String.eqb_neq _ _) Hn2), (proj2 (String.eqb_neq _ _) Hn3). unfold call_finddir. wp_step. eapply wp_ino; [done|]. rewrite Hfind.
  unfold vfs_finddir_dentry. wp_step. eapply wp_vfs_child; [done|done|]. intros c Hc. rewrite (found_unique s K px _ c d HT Hc Hf). rewrite (proj2 (Z.eqb_neq _ _) Hd0).
  wp_step. eapply wp_dent; [done|]. wp_step. rewrite (proj2 (Z.eqb_neq _ _) Hn0). wp_step. eapply (name_of_ok (d_inode dp) px d dd x); [done..|].
  wp_step. eapply wp_ino; [done|]. rewrite Hnl. cbn [andb]. wp_step. wp_step. wp_step. eapply wp_ino; [done|].
  replace (starts_slash rest && negb (is_dir x) && all_slashes rest) with false; [done|]. destruct Hb as [->|Hb]; [done|]. rewrite Hb, Hdir; [done|]. by intros ->.
Qed.

Lemma reach_depth d path k : reach s K d path k -> (k <= String.length path)%nat.
Proof.
  induction 1 as [|p dp px path k d dd x Hr IH]; [done|]. pose proof (slen_app path (String slash (d_name dd))) as E. rewrite slen_cons in E. unfold slen in E. lia.
Qed.

Lemma reach_slash d path k : reach s K d path k -> path = ""%string \/ starts_slash path = true.
Proof. induction 1 as [|p dp px path k d dd x Hr IH]; [by left|right]. destruct IH as [->|IH]; [done|]. by destruct path. Qed.

Lemma walk_reach d path k dd rd link fuel follow rest (Q : resolved -> fs -> Prop) :
  reach s K d path k -> fs_dentries s !! d = Some dd -> fs_dentries s !! fs_root s = Some rd -> boundary rest ->
  (rest <> ""%string -> exists x, fs_inodes s !! d_inode dd = Some x /\ is_dir x = true) ->
  wp (walk_loop link fuel follow (d_inode dd) d rest) Q s -> wp (walk_loop link (k + fuel) follow (d_inode rd) (fs_root s) (path ++ rest)) Q s.
Proof.
  intros Hr. revert dd fuel rest. induction Hr as [rd' rx Hrd _ _ _|p dp px path k d dd' x Hr IH Hp Hpx Hpd Hf Hperm Hk Hd Hg Hx Hnl]; intros dd fuel rest Hdd Hroot Hb Hdir HQ.
  - rewrite Hroot in Hdd. by injection Hdd as <-.
  - rewrite Hd in Hdd. injection Hdd as <-. rewrite append_assoc. replace (S k + fuel)%nat with (k + S fuel)%nat by lia. apply (IH dp); [done|done|by right|by exists px|].
    eapply walk_step_ok; try done. intros Hne. destruct (Hdir Hne) as (x' & Hx' & ?). congruence.
Qed.

Lemma resolve_path_ok d path k dd base follow (Q : resolved -> fs -> Prop) :
  reach s K d path k -> fs_dentries s !! d = Some dd -> Q (inr (d_inode dd, d)) s -> wp (vfs_resolve_dentry base (shown path) follow) Q s.
Proof.
  intros Hr Hd HQ. assert (exists rd rx, fs_dentries s !! fs_root s = Some rd /\ fs_inodes s !! d_inode rd = Some rx /\ is_dir rx = true) as (rd & rx & Hrd & Hrx & Hrxd).
  { clear - Hr. induction Hr as [rd rx ? ? ? ?|]; eauto. }
  destruct (t_node _ _ HT _ rd Hrd) as (rx' & Hrx' & Hok). rewrite Hrx in Hrx'. injection Hrx' as <-.
  assert (starts_slash (shown path) = true) as Hs by (unfold shown; destruct (String.eqb_spec path ""); [done|]; by destruct (reach_slash d path k Hr)).
  unfold vfs_resolve_dentry. destruct (String.eqb_spec (shown path) "") as [E|_]; [by rewrite E in Hs|]. generalize MAX_SYMLINKS as links. intros links. rewrite walk_eq. wp_step. wp_step. rewrite Hs. wp_step. wp_step.
  eapply wp_dent; [done|]. wp_step. wp_step. unfold name_of. wp_step. eapply wp_ino; [done|]. rewrite Hrxd. unfold own_dentry. rewrite (n_own _ _ Hok Hrxd). wp_step.
  unfold shown in *. destruct (String.eqb_spec path "") as [->|Hne].
  - inversion Hr as [rd' rx' Hrd' ? ? ? Er Ep|p dp px path' k' d' dd' x' ? ? ? ? ? ? ? ? ? ? ? E]; [|by destruct path']. subst. rewrite Hrd' in Hd. injection Hd as ->. rewrite Hrd' in Hrd. injection Hrd as ->.
    cbn [walk_loop]. cbv zeta. change (skip_slashes "/") with ""%string. by wp_steps.
  - pose proof (reach_depth d path k Hr) as Hlen. replace (S (String.length path)) with (k + S (String.length path - k))%nat by lia. rewrite <- (append_nil_r path) at 2.
    eapply walk_reach; [exact Hr|exact Hd|exact Hrd|by left|done|]. cbn [walk_loop]. cbv zeta. change (skip_slashes "") with ""%string. by wp_steps.
Qed.
End Path.

(** C21: the path of a directory or file, as getcwd shows it, leads back there:
    for whatever is reached from the root through searchable directories,
    vfs_dentry_path gives a path, and resolving that path, from anywhere,
    gives the same inode and dentry. *)
Theorem path_roundtrip `{DR : Drivers} s K d dd path k size_ base follow :
  tree s K -> reach s K d path k -> fs_dentries s !! d = Some dd -> slen path < size_ - 1 ->
  wp (p ← vfs_dentry_path d size_; match p with inl e => mret (inl e) | inr p => vfs_resolve_dentry base p follow end)
    (fun r s' => r = inr (d_inode dd, d) /\ s' = s) s.
Proof. intros HT Hr Hd Hsz. wp_step. eapply dentry_path_ok; [done|done|done|]. by eapply resolve_path_ok. Qed.

(** /a of the small file system, from directory /b. *)
Lemma path_roundtrip_witness :
  wp (p ← vfs_dentry_path 4 64; match p with inl e => mret (inl e) | inr p => vfs_resolve_dentry (DR := no_drivers) 5 p true end)
    (fun r s' => r = inr (3, 4) /\ s' = names1) names1.
Proof.
  apply (path_roundtrip (DR := no_drivers) names1 kids1 4 (MkDentry "a" 3 2 0 6 2) "/a" 1 64 5 true); [apply names1_tree| |done|done].
  apply (reach_kid names1 kids1 2 (MkDentry "/" 1 0 4 0 1) root1 "" 0 4 (MkDentry "a" 3 2 0 6 2) a1); try done; [by eapply (reach_root names1 kids1 (MkDentry "/" 1 0 4 0 1) root1)|vm_compute; set_solver].
Defined.

(** ** Every path *)

(** Links can be read. *)
Definition link_ok (x : inode) : Prop :=
  0 <= i_length x < 2 ^ 32 /\ match i_read x with Some DRamfs => data_ok x | Some _ => True | None => False end.

(** The root directory is no directory's entry. *)
Definition rooted (s : fs) (K : Z -> list Z) : Prop :=
  exists r x, fs_inodes s !! r = Some x /\ is_dir x = true /\ i_ptr x = PDentry (fs_root s) /\ forall q name, view s K q !! name <> Some r.

Definition homed (s : fs) : Prop := exists K, tree s K /\ rooted s K.

(** A file system where files can be made is a RAM file system throughout,
    and only pipes and sockets, which are not in one, have a release. *)
Record pure (I : gmap Z inode) : Prop := {
  pure_devs : forall n x m y, I !! n = Some x -> has_create x = true -> I !! m = Some y -> i_dev y = i_dev x -> i_destroy y = Some DRamfs;
  pure_release : forall n x, I !! n = Some x -> i_release x <> None -> i_destroy x <> Some DRamfs /\ is_dir x = false;
}.

Definition walkable (s : fs) : Prop := homed s /\ (forall n x, fs_inodes s !! n = Some x -> is_link x = true -> link_ok x) /\ pure (fs_inodes s).

Lemma rooted_live s K : tree s K -> rooted s K -> is_Some (fs_dentries s !! fs_root s).
Proof. intros HT (r & x & Hr & Hd & Hp & _). destruct (t_dir _ _ HT r x Hr Hd) as [E|(d & dd & E & Hdd & _)]; rewrite Hp in E; [done|]. injection E as ->. eauto. Qed.

Lemma walkable_tree s : walkable s -> exists K, tree s K /\ is_Some (fs_dentries s !! fs_root s).
Proof. intros [(K & HT & HR) _]. exists K. split; [done|by eapply rooted_live]. Qed.

Lemma walkable_sound s : walkable s -> sound s.
Proof. intros [(K & HT & _) _]. by exists K. Qed.

(** What the holders of an inode rely on. *)
Record same_hold (x y : inode) : Prop := {
  sh_refs : i_refs y = i_refs x;
  sh_release : i_release y = i_release x;
  sh_destroy : i_destroy y = i_destroy x;
  sh_flags : i_flags y = i_flags x;
  sh_ptr : i_release x <> None -> i_ptr y = i_ptr x;
}.

#[global] Instance same_hold_preorder : PreOrder same_hold.
Proof. split; [done|]. intros x y z [E1 E2 E3 E4 E5] [F1 F2 F3 F4 F5]. rewrite E2 in F5. split; try congruence. intros H. rewrite F5, E5 by done. done. Qed.

(** A new inode: nobody has it yet. *)
Definition fresh_hold (y : inode) : Prop := i_refs y = 0 /\ i_release y = None /\ (i_destroy y = None \/ i_destroy y = Some DRamfs).

(** Inodes come and go, but none goes that is held, and nobody's hold on
    one changes. *)
Record kept (s s' : fs) : Prop := {
  kp_old : forall n x, fs_inodes s !! n = Some x -> (exists y, fs_inodes s' !! n = Some y /\ same_hold x y) \/ fs_inodes s' !! n = None /\ i_refs x = 0;
  kp_new : forall n y, fs_inodes s !! n = None -> fs_inodes s' !! n = Some y -> fresh_hold y;
  kp_links : forall n x, fs_inodes s !! n = Some x -> i_release x <> None -> links s n = 0 -> links s' n = 0;
  kp_aside : aside s s';
}.

(** What a walk holds on to stays as well, and gets no further names. *)
Definition lives (s s' : fs) : Prop :=
  (forall n, is_Some (fs_inodes s !! n) -> is_Some (fs_inodes s' !! n)) /\ kept s s' /\ forall n, links s' n <= Z.max 1 (links s n).

Lemma lives_few s s' : lives s s' -> few s -> few s'.
Proof. intros (_ & _ & H) Hf n. specialize (H n). specialize (Hf n). lia. Qed.

Lemma lives_cur s s' : lives s s' -> fs_cur s' = fs_cur s.
Proof. intros (_ & [_ _ _ H] & _). apply H. Qed.

Lemma kept_calm s s' : (forall n, option_relation same_hold (fun _ => False) (fun _ => False) (fs_inodes s !! n) (fs_inodes s' !! n)) -> fs_dentries s' = fs_dentries s -> aside s s' -> lives s s'.
Proof.
  intros HI HD Ha. split.
  - intros n [x Hx]. specialize (HI n). rewrite Hx in HI. destruct (fs_inodes s' !! n); [eauto|done].
  - assert (forall n, links s' n = links s n) as EL by (intros n; unfold links; rewrite HD; by destruct Ha as (_ & _ & -> & _)). split; [|intros n; rewrite EL; lia]. split; [..|done].
    + intros n x Hx. left. specialize (HI n). rewrite Hx in HI. destruct (fs_inodes s' !! n); [eauto|done].
    + intros n y Hn Hy. specialize (HI n). by rewrite Hn, Hy in HI.
    + intros n x _ _. by rewrite EL.
Qed.

#[global] Instance lives_preorder : PreOrder lives.
Proof.
  split; [intros s; apply kept_calm; [|done|done]; intros n; by destruct (fs_inodes s !! n)|].
  intros s1 s2 s3 (H1 & [O1 N1 L1 A1] & M1) (H2 & [O2 N2 L2 A2] & M2). split; [auto|]. split; [|intros n; specialize (M1 n); specialize (M2 n); lia]. split; [..|by transitivity s2].
  - intros n x Hx. left. destruct (H1 n) as [y Hy]; [eauto|]. destruct (H2 n) as [z Hz]; [eauto|].
    destruct (O1 n x Hx) as [(y' & Hy' & S1)|[E _]]; [|congruence]. destruct (O2 n y Hy) as [(z' & Hz' & S2)|[E _]]; [|congruence]. simplify_eq. exists z. split; [done|by transitivity y].
  - intros n z Hn Hz. destruct (fs_inodes s2 !! n) as [y|] eqn:Hy; [|eauto]. destruct (N1 n y Hn Hy) as (F1 & F2 & F3). destruct (O2 n y Hy) as [(z' & Hz' & [G1 G2 G3 _ _])|[E _]]; [|congruence].
    simplify_eq. split_and!; [congruence|congruence|by rewrite G3].
  - intros n x Hx Hr Hl. destruct (H1 n) as [y Hy]; [eauto|]. destruct (O1 n x Hx) as [(y' & Hy' & [_ E _ _ _])|[E _]]; [|congruence]. simplify_eq. apply (L2 n y Hy); [congruence|eauto].
Qed.

(** What procfs and the devices promise a walk. *)
Class DriversOk `{DR : Drivers} : Prop := {
  drv_finddir_ok d dir x name s : walkable s -> fs_inodes s !! dir = Some x -> i_finddir x = Some d ->
    wp (drv_finddir d dir name) (fun r s' => walkable s' /\ lives s s' /\ (r = 0 \/ is_Some (fs_inodes s' !! r))) s;
  drv_read_ok d n x off size_ s : walkable s -> fs_inodes s !! n = Some x -> i_read x = Some d -> 0 <= size_ < 2 ^ 32 -> wp (drv_read d n off size_) (fun r s' => walkable s' /\ lives s s' /\ Forall byte r.2 /\ Z.of_nat (length r.2) <= size_) s;
}.

Section Resolve.
  Context `{DO : DriversOk}.

(** An error, or a live inode. *)
Definition answers (s : fs) (r : resolved) (s' : fs) : Prop :=
  walkable s' /\ lives s s' /\ match r with inl e => e < 0 | inr (n, _) => is_Some (fs_inodes s' !! n) end.

Lemma answers_trans s s1 r s' : lives s s1 -> answers s1 r s' -> answers s r s'.
Proof. intros H (? & ? & ?). split_and!; try done. by transitivity s1. Qed.

Lemma walkable_idle s s' : walkable s -> idle s s' -> walkable s' /\ lives s s'.
Proof.
  intros ([K [HT HR]] & Hl & Hv) Hi. pose proof Hi as (EI & ED & Ha). pose proof Ha as (_ & _ & _ & ER & _). split.
  - split; [|by rewrite EI]. exists K. split; [eapply tree_calm; [done|by apply idle_calm]|]. destruct HR as (r & x & Hr). exists r, x. unfold view. by rewrite EI, ED, ER.
  - apply kept_calm; [|done|done]. intros n. rewrite EI. by destruct (fs_inodes s !! n).
Qed.

Lemma child_any s dir x name (Q : Z -> fs -> Prop) : walkable s -> fs_inodes s !! dir = Some x -> (forall c, Q c s) -> wp (vfs_child dir name) Q s.
Proof. intros ([K [HT _]] & _) Hx HQ. eapply wp_vfs_child; [done|done|]. intros c _. apply HQ. Qed.

Lemma finddir_dentry_any s dir x name : walkable s -> fs_inodes s !! dir = Some x ->
  wp (vfs_finddir_dentry dir name) (fun r s' => walkable s' /\ lives s s' /\ (r = 0 \/ is_Some (fs_inodes s' !! r))) s.
Proof.
  intros Hw Hx. pose proof Hw as ([K [HT _]] & _). unfold vfs_finddir_dentry. wp_step. eapply wp_vfs_child; [done|done|]. intros c Hf. destruct (Z.eqb_spec c 0) as [->|Hc].
  - wp_steps. split_and!; [done..|by left].
  - destruct (found_some _ _ _ _ _ Hf Hc) as (p & dc & n & _ & _ & _ & Hdc & _). wp_step. eapply wp_dent; [done|]. wp_step. split_and!; [done..|right].
    destruct (t_node _ _ HT c dc Hdc) as (y & Hy & _). eauto.
Qed.

Lemma step_ok s dir x name : walkable s -> fs_inodes s !! dir = Some x -> is_dir x = true ->
  wp (step dir name) (fun r s' => walkable s' /\ lives s s' /\ (r = 0 \/ is_Some (fs_inodes s' !! r))) s.
Proof.
  intros Hw Hx Hd. pose proof Hw as ([K [HT _]] & _). unfold step. destruct (String.eqb name "."); [wp_steps; split_and!; [done..|right; eauto]|]. destruct (String.eqb name "..").
  - wp_step. eapply wp_ino; [done|]. destruct (t_dir _ _ HT dir x Hx Hd) as [E|(d & dd & E & Hdd & _)]; rewrite E; [wp_steps; split_and!; [done..|right; eauto]|].
    wp_step. eapply wp_dent; [done|]. destruct (Z.eqb_spec (d_parent dd) 0) as [|Hp]; [wp_steps; split_and!; [done..|right; eauto]|].
    destruct (parent_live s K HT d dd Hdd Hp) as [pd Hpd]. wp_step. eapply wp_dent; [done|]. wp_step. split_and!; [done..|right]. destruct (t_node _ _ HT _ pd Hpd) as (y & Hy & _). eauto.
  - unfold call_finddir. wp_step. eapply wp_ino; [done|]. destruct (i_finddir x) as [[]|] eqn:E; try (by eapply drv_finddir_ok); [by eapply finddir_dentry_any|]. wp_steps. split_and!; [done..|by left].
Qed.

Lemma name_of_any s dir n x comp (Q : Z -> fs -> Prop) : walkable s -> fs_inodes s !! n = Some x -> (comp <> None -> is_Some (fs_inodes s !! dir)) -> (forall d, Q d s) -> wp (name_of dir n comp) Q s.
Proof.
  intros Hw Hx Hdir HQ. pose proof Hw as ([K [HT _]] & _). unfold name_of. wp_step. eapply wp_ino; [done|]. destruct (is_dir x) eqn:Hd.
  - unfold own_dentry. destruct (t_dir _ _ HT n x Hx Hd) as [E|(d & dd & E & _)]; rewrite E; wp_steps; apply HQ.
  - destruct comp as [c|]; [|wp_steps; apply HQ]. destruct Hdir as [y Hy]; [done|]. by eapply child_any.
Qed.

(** Reading what can be read. *)
Lemma read_any s n x off size_ : walkable s -> fs_inodes s !! n = Some x -> link_ok x -> 0 <= off < 2 ^ 32 -> 0 <= size_ < 2 ^ 32 ->
  wp (call_read n off size_) (fun r s' => walkable s' /\ lives s s' /\ Forall byte r.2 /\ Z.of_nat (length r.2) <= size_) s.
Proof.
  intros Hw Hx [Hlen Hlk] Ho Hsz. unfold call_read. wp_step. eapply wp_ino; [done|]. destruct (i_read x) as [[]|] eqn:E; try done; try (by eapply drv_read_ok).
  eapply wp_mono; [by apply (read_ok s n x)|]. intros r s2 (-> & -> & _). split_and!; [done|done|by apply Forall_take, Forall_drop, content_bytes|rewrite length_take; lia].
Qed.

Lemma read_link_ok s n x : walkable s -> fs_inodes s !! n = Some x -> is_link x = true ->
  wp (read_link n x) (fun t s' => walkable s' /\ lives s s' /\ match t with inl e => e < 0 | inr _ => True end) s.
Proof.
  intros Hw Hx Hl. pose proof Hw as ([K [HT _]] & Hlinks & _). pose proof (Hlinks n x Hx Hl) as Hlk. pose proof Hlk as [Hlen _]. unfold read_link. wp_step. apply wp_alloc; [apply (t_null _ _ HT)| |]; intros s1 Hi.
  { rewrite Z.eqb_refl. wp_steps. destruct (walkable_idle s s1 Hw Hi). done. }
  intros _. destruct (walkable_idle s s1 Hw Hi) as [Hw1 Hl1]. rewrite (proj2 (Z.eqb_neq _ _)) by (destruct (t_null _ _ HT); lia). pose proof Hi as (EI & _).
  assert (fs_inodes s1 !! n = Some x) as Hx1 by by rewrite EI. wp_step.
  eapply (wp_mono _ (fun _ s' => walkable s' /\ lives s s')).
  - eapply wp_mono; [by apply (read_any s1 n x)|]. intros r s2 (? & ? & _). split; [done|by transitivity s1].
  - intros r s2 [Hw2 Hl2]. destruct (Z.ltb_spec r.1 0); wp_steps; done.
Qed.

Lemma skip_length p : (String.length (skip_slashes p) <= String.length p)%nat.
Proof. induction p as [|c p IH]; simpl; [done|]. destruct (Ascii.eqb c slash); simpl; lia. Qed.

Lemma skip_start p : starts_slash (skip_slashes p) = false.
Proof. induction p as [|c p IH]; simpl; [done|]. destruct (Ascii.eqb c slash) eqn:E; [done|]. simpl. done. Qed.

Lemma split_length p a b : split_comp p = (a, b) -> (String.length b <= String.length p)%nat.
Proof.
  revert a b. induction p as [|c p IH]; simpl; intros a b; [by intros [= <- <-]|]. destruct (Ascii.eqb c slash); [by intros [= <- <-]|].
  destruct (split_comp p) as [a' b']. intros [= <- <-]. specialize (IH a' b' eq_refl). lia.
Qed.

(** Each turn of the loop uses up at least one character. *)
Lemma split_shorter p a b : starts_slash p = false -> p <> ""%string -> split_comp p = (a, b) -> (String.length b < String.length p)%nat.
Proof.
  intros Hs Hp. destruct p as [|c p]; [done|]. simpl in *. rewrite Hs. destruct (split_comp p) as [a' b'] eqn:E. intros [= <- <-]. pose proof (split_length p a' b' E). lia.
Qed.

(** Following links, where it is still allowed. *)
Definition link_answers (link : option (Z -> string -> M fs resolved)) : Prop :=
  match link with None => True | Some go => forall s dir target, walkable s -> is_Some (fs_inodes s !! dir) -> wp (go dir target) (answers s) s end.

Lemma walk_loop_ok link fuel follow s cur d path :
  link_answers link -> walkable s -> is_Some (fs_inodes s !! cur) -> (String.length path < fuel)%nat -> wp (walk_loop link fuel follow cur d path) (answers s) s.
Proof.
  intros Hlink. revert s cur d path. induction fuel as [|fuel IH]; intros s cur d path Hw [x Hx] Hf; [lia|]. cbn [walk_loop]. cbv zeta.
  pose proof (skip_length path) as Hsk. pose proof (skip_start path) as Hst. destruct (String.eqb_spec (skip_slashes path) "") as [|Hne]; [wp_steps; split_and!; [done..|eauto]|].
  destruct (split_comp (skip_slashes path)) as [comp rest] eqn:Esp. pose proof (split_shorter _ _ _ Hst Hne Esp) as Hlen.
  destruct (NAME_MAX <? slen comp); [wp_steps; by split_and!|]. wp_step. eapply wp_ino; [done|]. destruct (is_dir x) eqn:Hd; cbn [negb]; [|wp_steps; by split_and!].
  wp_step. wp_step. destruct (Z.ltb_spec (cred_permission (fs_cur s) x MAY_EXEC) 0); [wp_steps; by split_and!|].
  wp_step. eapply wp_mono; [by apply (step_ok s cur x)|]. intros next s1 (Hw1 & Hl1 & Hnext). destruct (Z.eqb_spec next 0) as [|Hn0]; [wp_steps; by split_and!|].
  destruct Hnext as [?|[y Hy]]; [done|]. assert (is_Some (fs_inodes s1 !! cur)) as Hcur1 by (apply (proj1 Hl1); eauto).
  wp_step. eapply (name_of_any s1); [done|exact Hy|done|]. intros nd. wp_step. eapply wp_ino; [done|]. wp_step.
  eapply (wp_mono _ (fun r s2 => answers s1 r s2)).
  - destruct (is_link y && _) eqn:Elk; [|wp_steps; split_and!; [done..|eauto]]. apply andb_true_iff in Elk as [Elk _]. destruct link as [go|]; [|wp_steps; by split_and!].
    wp_step. eapply wp_mono; [by apply (read_link_ok s1 next y)|]. intros t s2 (Hw2 & Hl2 & Ht). destruct t as [e|target]; [wp_steps; by split_and!|].
    eapply wp_mono; [by apply Hlink; [done|apply (proj1 Hl2)]|]. intros r s3. by apply answers_trans.
  - intros r s2 (Hw2 & Hl2 & Hr). assert (lives s s2) as Hl02 by by transitivity s1. destruct r as [e|[cur' d']]; [wp_steps; by split_and!|]. destruct Hr as [z Hz].
    wp_step. eapply wp_ino; [done|]. destruct (starts_slash rest && negb (is_dir z) && all_slashes rest); [wp_steps; by split_and!|].
    eapply wp_mono; [apply IH; [done|eauto|lia]|]. intros r s3. by apply answers_trans.
Qed.

Lemma walk_ok links s base path follow : walkable s -> is_Some (fs_inodes s !! base) -> wp (walk links base path follow) (answers s) s.
Proof.
  revert s base path follow. induction links as [|links IH]; intros s base path follow Hw Hb; rewrite walk_eq; (wp_step; wp_step; destruct (walkable_tree s Hw) as (K & HT & [rd Hrd]); wp_step;
    eapply (wp_mono _ (fun cur s' => s' = s /\ is_Some (fs_inodes s !! cur)));
    [destruct (starts_slash path); [wp_step; eapply wp_dent; [done|]; wp_step; destruct (t_node _ _ HT _ rd Hrd) as (y & Hy & _); eauto|by wp_steps]|];
    intros cur s' [-> [x Hx]]; wp_step; eapply (name_of_any s); [done|done|done|]; intros d; apply walk_loop_ok; [|done|eauto|lia]); [done|].
  intros s1 dir target Hw1 Hd1. by apply IH.
Qed.

Lemma resolve_dentry_ok s base path follow : walkable s -> is_Some (fs_inodes s !! base) -> wp (vfs_resolve_dentry base path follow) (answers s) s.
Proof. intros Hw Hb. unfold vfs_resolve_dentry. destruct (String.eqb path ""); [wp_steps; by split_and!|]. by apply walk_ok. Qed.

Lemma parent_ok s base path : walkable s -> is_Some (fs_inodes s !! base) ->
  wp (vfs_parent base path) (fun r s' => walkable s' /\ lives s s' /\ match r with inl e => e < 0 | inr (dir, _) => is_Some (fs_inodes s' !! dir) end) s.
Proof.
  intros Hw Hb. unfold vfs_parent. cbv zeta. destruct (NAME_MAX <? _); [wp_steps; by split_and!|]. destruct (_ || _ || _); [wp_steps; split_and!; try done; by destruct (_ && _)|].
  destruct (Nat.eqb _ 0); [wp_steps; by split_and!|]. pose proof Hw as ([K [HT _]] & _). wp_step. apply wp_alloc; [apply (t_null _ _ HT)| |]; intros s1 Hi; destruct (walkable_idle s s1 Hw Hi) as [Hw1 Hl1].
  { rewrite Z.eqb_refl. wp_steps. by split_and!. }
  intros _. rewrite (proj2 (Z.eqb_neq _ _)) by (destruct (t_null _ _ HT); lia). unfold vfs_resolve. wp_step. wp_step. eapply wp_mono; [apply resolve_dentry_ok; [done|by apply (proj1 Hl1)]|].
  intros r s2 (Hw2 & Hl2 & Hr). wp_step. assert (lives s s2) as Hl by by transitivity s1. destruct r as [e|[n d]]; [wp_steps; by split_and!|]. destruct Hr as [x Hx].
  wp_step. eapply wp_ino; [done|]. destruct (is_dir x); wp_steps; split_and!; done || eauto.
Qed.
End Resolve.

(** C38: whatever the path, resolving it returns, with an error or with a live
    inode: no pointer it follows dangles, each component uses up a part of
    the path, and at most MAX_SYMLINKS links are followed one in another. *)
Theorem resolve_returns `{DO : DriversOk} s base path follow :
  walkable s -> is_Some (fs_inodes s !! base) -> wp (vfs_resolve_dentry base path follow) (answers s) s.
Proof. apply resolve_dentry_ok. Qed.

Lemma no_drivers_ok : DriversOk (DR := no_drivers).
Proof. split; intros; apply wp_ret; split_and!; try done; [by left|simpl; lia]. Qed.

Lemma names1_walkable : walkable names1.
Proof.
  split; [exists kids1; split; [apply names1_tree|]|split; [intros n x Hn; simpl in Hn; each Hn; done|split; [intros n x m y Hn _ Hm _; simpl in Hm; each Hm; done|intros n x Hn; simpl in Hn; each Hn; done]]]. exists 1, root1. split_and!; try done. intros q name. unfold view, kids1. destruct (q =? 2); [|done].
  change (entries _ [4; 6]) with (<["a"%string := 3]> (<["b"%string := 5]> (∅ : gmap string Z))). intros [[_ E]|[_ [[_ E]|[_ E]]%lookup_insert_Some]]%lookup_insert_Some; done.
Qed.

Lemma resolve_returns_witness : wp (vfs_resolve_dentry (DR := no_drivers) 5 "../a//b/" true) (answers names1) names1
  /\ fst <$> vfs_resolve_dentry (DR := no_drivers) 5 "../a//b/" true names1 = Some (inl (- ENOTDIR)).
Proof. split; [|by vm_compute]. apply (resolve_returns (DO := no_drivers_ok) names1 5 "../a//b/" true); [apply names1_walkable|by eexists]. Defined.
