(* ===== verification/VfsKeep.v ===== *)
(** * What the operations on names leave alone

    vfs_create, vfs_unlink, vfs_rmdir, vfs_link and vfs_rename keep paths
    walkable and everybody's hold on an inode: what is open or somebody's
    working directory is not freed under them. *)
From S2P Require Import Prelude Types Cred Pipe VfsState Forest Ramfs Vfs VfsTree VfsOps VfsRename VfsNames VfsPath.

(** ** One inode at a time *)

(** From [x] to [y] neither links nor files systems suffer. *)
Record mild (x y : inode) : Prop := {
  md_hold : same_hold x y;
  md_link : is_link x = true -> i_read y = i_read x /\ i_ptr y = i_ptr x /\ i_length y = i_length x;
  md_dev : i_dev y = i_dev x /\ i_create y = i_create x;
}.

#[global] Instance mild_preorder : PreOrder mild.
Proof.
  split; [by intros x; split|]. intros x y z [H1 L1 [D1 C1]] [H2 L2 [D2 C2]]. split; [by transitivity y| |split; congruence].
  intros Hl. destruct (L1 Hl) as (E1 & E2 & E3). assert (is_link y = true) as Hy by (unfold is_link, itype; by rewrite (sh_flags _ _ H1)). destruct (L2 Hy) as (F1 & F2 & F3). split_and!; congruence.
Qed.

Lemma mild_touched now w x : mild x (touched now w x).
Proof. by split. Qed.

Lemma mild_unnamed now x : (i_release x <> None -> is_dir x = false) -> mild x (unnamed_inode now x).
Proof.
  intros Hr. unfold unnamed_inode. destruct (is_dir x) eqn:Hd.
  - split; [split; try done; intros E; by specialize (Hr E)|intros Hl|done]. unfold is_dir, is_link in *. apply Z.eqb_eq in Hd, Hl. by rewrite Hd in Hl.
  - by split.
Qed.

Lemma mild_linked now x : mild x (linked_inode now x).
Proof. by split. Qed.

Lemma mild_timeless x y : timeless y = timeless x -> mild x y.
Proof.
  intros E. assert (forall A (f : inode -> A), (forall z, f (timeless z) = f z) -> f y = f x) as H by (intros A f Hf; by rewrite <- (Hf y), E).
  split; [split; [by apply (H _ i_refs)|by apply (H _ i_release)|by apply (H _ i_destroy)|by apply (H _ i_flags)|intros _; by apply (H _ i_ptr)]|intros _|].
  - split_and!; [by apply (H _ i_read)|by apply (H _ i_ptr)|by apply (H _ i_length)].
  - split; [by apply (H _ i_dev)|by apply (H _ i_create)].
Qed.

Lemma mild_link_ok x y : mild x y -> is_link x = true -> link_ok x -> link_ok y.
Proof. intros [H L _] Hl. destruct (L Hl) as (E1 & E2 & E3). unfold link_ok, data_ok, is_dir, itype. by rewrite E1, E2, E3, (sh_flags _ _ H). Qed.

Lemma mild_is_link x y : mild x y -> is_link y = is_link x.
Proof. intros [H _ _]. unfold is_link, itype. by rewrite (sh_flags _ _ H). Qed.

(** A file just made in [dn]'s file system. *)
Record born (dn y : inode) : Prop := {
  bn_fresh : fresh_hold y;
  bn_destroy : i_destroy y = Some DRamfs;
  bn_dev : i_dev y = i_dev dn;
  bn_link : is_link y = true -> link_ok y;
}.

(** ** All of them *)

(** Each inode changes mildly, unheld ones may go, new ones are born in a
    directory that takes them. *)
Record tame (I I' : gmap Z inode) : Prop := {
  tm_old : forall n x, I !! n = Some x -> (exists y, I' !! n = Some y /\ mild x y) \/ I' !! n = None /\ i_refs x = 0;
  tm_new : forall n y, I !! n = None -> I' !! n = Some y -> exists d dn, I !! d = Some dn /\ has_create dn = true /\ born dn y;
}.

Lemma tame_back I I' n y : tame I I' -> I' !! n = Some y -> (exists x, I !! n = Some x /\ mild x y) \/ exists d dn, I !! d = Some dn /\ has_create dn = true /\ born dn y.
Proof.
  intros [O N] Hy. destruct (I !! n) as [x|] eqn:Hx; [left|right; eauto]. destruct (O n x Hx) as [(y' & Hy' & Hm)|[E _]]; [|congruence]. simplify_eq. eauto.
Qed.

(** The device of an inode that is left was there before. *)
Lemma tame_pure I I' : tame I I' -> pure I -> pure I'.
Proof.
  intros Ht [Hd Hr]. split.
  - intros n y m z Hn Hc Hm E.
    assert (exists n0 x0, I !! n0 = Some x0 /\ has_create x0 = true /\ i_dev x0 = i_dev y) as (n0 & x0 & Hx0 & Hc0 & E0).
    { destruct (tame_back I I' n y Ht Hn) as [(x & Hx & [_ _ [Ed Ec]])|(d & dn & Hdn & Hcd & Hb)]; [exists n, x; unfold has_create in *; rewrite Ec in Hc; done|exists d, dn; by rewrite (bn_dev _ _ Hb)]. }
    destruct (tame_back I I' m z Ht Hm) as [(x & Hx & [Hh _ [Ed _]])|(d & dn & _ & _ & Hb)]; [|apply Hb]. rewrite (sh_destroy _ _ Hh). apply (Hd n0 x0 m x); congruence.
  - intros n y Hn Hy. destruct (tame_back I I' n y Ht Hn) as [(x & Hx & [Hh _ _])|(d & dn & _ & _ & [(_ & E & _) _ _ _])]; [|congruence].
    rewrite (sh_destroy _ _ Hh). unfold is_dir, itype. rewrite (sh_flags _ _ Hh). apply (Hr n x Hx). by rewrite <- (sh_release _ _ Hh).
Qed.

Lemma tame_links I I' : tame I I' -> (forall n x, I !! n = Some x -> is_link x = true -> link_ok x) -> forall n x, I' !! n = Some x -> is_link x = true -> link_ok x.
Proof.
  intros Ht Hl n y Hn Hy. destruct (tame_back I I' n y Ht Hn) as [(x & Hx & Hm)|(d & dn & _ & _ & Hb)]; [|by apply Hb].
  rewrite (mild_is_link _ _ Hm) in Hy. eapply mild_link_ok; eauto.
Qed.

Lemma tame_kept s s' : tame (fs_inodes s) (fs_inodes s') -> aside s s' -> (forall n x, fs_inodes s !! n = Some x -> i_release x <> None -> links s n = 0 -> links s' n = 0) -> kept s s'.
Proof.
  intros [O N] Ha Hl. split; [|..|done|done].
  - intros n x Hx. destruct (O n x Hx) as [(y & Hy & [Hm _ _])|?]; eauto.
  - intros n y Hx Hy. destruct (N n y Hx Hy) as (d & dn & _ & _ & [? _ _ _]). done.
Qed.

(** The root stays where paths start. *)
Definition root_stays (s s' : fs) (K K' : Z -> list Z) : Prop :=
  forall r x, fs_inodes s !! r = Some x -> is_dir x = true -> (forall q name, view s K q !! name <> Some r) ->
    (exists y, fs_inodes s' !! r = Some y /\ is_dir y = true /\ i_ptr y = i_ptr x) /\ forall q name, view s' K' q !! name <> Some r.

Lemma walk_keep s s' K K' : tree s K -> rooted s K -> (forall n x, fs_inodes s !! n = Some x -> is_link x = true -> link_ok x) -> pure (fs_inodes s) -> tree s' K' ->
  tame (fs_inodes s) (fs_inodes s') -> aside s s' -> root_stays s s' K K' ->
  (forall n x, fs_inodes s !! n = Some x -> i_release x <> None -> links s n = 0 -> links s' n = 0) -> walkable s' /\ kept s s'.
Proof.
  intros HT (r & x & Hr & Hd & Hp & Hv) Hl Hpure HT' Htm Ha Hroot Hlk. split; [|by apply tame_kept]. split; [|split; [by eapply tame_links|by eapply tame_pure]].
  exists K'. split; [done|]. destruct (Hroot r x Hr Hd Hv) as [(y & Hy & Hyd & Hyp) Hv']. exists r, y. split_and!; try done. rewrite Hyp, Hp. f_equal. by destruct Ha as (_ & _ & _ & -> & _).
Qed.

(** ** The operations *)

Section Keep.
  Context `{DR : Drivers}.

Lemma listed s K dn name n : listing s K dn !! name = Some n -> is_dir dn = true /\ exists p, i_ptr dn = PDentry p /\ view s K p !! name = Some n.
Proof. unfold listing. destruct (is_dir dn); [|done]. destruct (i_ptr dn) as [|p| |]; try done. intros H. split; [done|by exists p]. Qed.

Lemma drop_tame s dir dn n x : pure (fs_inodes s) -> fs_inodes s !! dir = Some dn -> fs_inodes s !! n = Some x -> tame (fs_inodes s) (drop_inodes s dir dn n x).
Proof.
  intros Hp Hdir Hn. assert (mild x (unnamed_inode (fs_now s) x)) as Hu by (apply mild_unnamed; intros E; by apply (pure_release _ Hp n x)).
  assert (forall m y, fs_inodes s !! m = Some y -> exists z, <[dir := touched (fs_now s) (Z.lor VFS_MTIME VFS_CTIME) dn]> (fs_inodes s) !! m = Some z /\ mild y z) as Ht.
  { intros m y Hm. destruct (decide (m = dir)) as [->|]; [rewrite lookup_insert_eq; simplify_eq; eexists; split; [done|apply mild_touched]|rewrite lookup_insert_ne by done; by exists y]. }
  unfold drop_inodes. split.
  - intros m y Hm. destruct (decide (links s n = 1 /\ i_refs x = 0 /\ has_destroy x = true)) as [(_ & Hr & _)|].
    + destruct (decide (m = n)) as [->|]; [right; rewrite lookup_delete_eq; by simplify_eq|rewrite lookup_delete_ne by done; left; by apply Ht].
    + destruct (decide (m = n)) as [->|]; [rewrite lookup_insert_eq; simplify_eq; left; by eexists|rewrite lookup_insert_ne by done; left; by apply Ht].
  - intros m y Hm Hy. assert (m <> n /\ m <> dir) as [? ?] by (split; intros ->; congruence). case_decide; [rewrite lookup_delete_ne, lookup_insert_ne in Hy by done|rewrite !lookup_insert_ne in Hy by done]; congruence.
Qed.

(** Another directory keeps its dentry. *)
Lemma drop_ptr s dir dn n x r y : fs_inodes s !! dir = Some dn -> r <> n -> fs_inodes s !! r = Some y -> exists z, drop_inodes s dir dn n x !! r = Some z /\ is_dir z = is_dir y /\ i_ptr z = i_ptr y.
Proof.
  intros Hdir Hrn Hr. unfold drop_inodes. case_decide; [rewrite lookup_delete_ne by done|rewrite lookup_insert_ne by done]; (destruct (decide (r = dir)) as [->|]; [rewrite lookup_insert_eq; simplify_eq; by eexists|rewrite lookup_insert_ne by done; by exists y]).
Qed.

Lemma removed_keeps s s' K dir dn name : tree s K -> rooted s K -> (forall n x, fs_inodes s !! n = Some x -> is_link x = true -> link_ok x) -> pure (fs_inodes s) ->
  fs_inodes s !! dir = Some dn -> name_removed s s' K dir dn name -> walkable s' /\ kept s s'.
Proof.
  intros HT HR Hl Hp Hdir (p & n & x & K' & Hptr & Hlist & Hn & HT' & [HE Hlk] & Hdr & Ha). unfold dropped in Hdr. eapply (walk_keep s s' K K'); try done.
  - rewrite Hdr. by apply drop_tame.
  - intros r y Hr Hd Hv. destruct (listed _ _ _ _ _ Hlist) as (_ & p' & _ & Hp'). split.
    + rewrite Hdr. destruct (drop_ptr s dir dn n x r y) as (z & Hz & Ez & Epz); [done|by intros ->; eapply Hv|done|]. exists z. by rewrite Ez.
    + intros q nm. rewrite HE. destruct (decide (q = p)); [|apply Hv]. intros [_ ?]%lookup_delete_Some. by eapply Hv.
  - intros m y _ _ H0. pose proof (Hlk m). pose proof (links_nonneg s' m). lia.
Qed.
Lemma idle_keeps s s' : walkable s -> idle s s' -> walkable s' /\ kept s s'.
Proof. intros Hw Hi. destruct (walkable_idle s s' Hw Hi) as (? & _ & ? & _). done. Qed.

Lemma kept_refl s : kept s s.
Proof. apply (PreOrder_Reflexive s : lives s s). Qed.

Lemma adopt_born c dn type now mode x : fresh_inode now type mode (i_dev dn) x -> born dn (adopt c dn type x).
Proof.
  intros (Ef & _ & _ & Er & El & Edev & _ & _ & _ & Erd & Erl & Eds & Hd).
  assert (forall A (f : inode -> A), (forall v z, f (set_i_uid v z) = f z) -> (forall v z, f (set_i_gid v z) = f z) -> (forall v z, f (set_i_mode v z) = f z) -> f (adopt c dn type x) = f x) as H.
  { intros A f H1 H2 H3. unfold adopt. destruct (negb _); [destruct (type =? VFS_DIRECTORY)|]; by rewrite ?H3, ?H2, ?H1. }
  split.
  - split_and!; [by rewrite (H _ i_refs)|by rewrite (H _ i_release)|right; by rewrite (H _ i_destroy)].
  - by rewrite (H _ i_destroy).
  - by rewrite (H _ i_dev).
  - rewrite (H _ is_link) by done. intros Hl. assert (is_dir x = false) as Hnd by (unfold is_dir, is_link in *; apply Z.eqb_eq in Hl; by rewrite Hl). destruct (Hd Hnd) as [[_ Hdata] _].
    unfold link_ok, data_ok. rewrite (H _ i_read), (H _ is_dir), (H _ i_ptr), (H _ i_length), Erd, El by done. rewrite El in Hdata. done.
Qed.

Lemma create_keeps s dir name type mode : walkable s -> is_Some (fs_inodes s !! dir) -> type_ok type ->
  wp (vfs_create dir name type mode) (fun r s' => walkable s' /\ lives s s' /\ match r with
    | inl e => e < 0
    | inr n => exists dn x, fs_inodes s !! dir = Some dn /\ fs_inodes s' !! n = Some x /\ fs_inodes s !! n = None /\ n <> dir /\ exists now x0, fresh_inode now type mode (i_dev dn) x0 /\ x = adopt (fs_cur s) dn type x0 end) s.
Proof.
  intros Hw [dn Hdir] Ht. pose proof Hw as ((K & HT & HR) & Hl & Hp). eapply wp_mono; [by apply (vfs_create_ok s K dir dn)|]. intros r s' H.
  destruct (create_error s K dn name) as [e|] eqn:He.
  { destruct H as [-> ->]. split_and!; [done|done|]. unfold create_error in He. repeat case_match; simplify_eq; try done. by apply Z.ltb_lt. }
  destruct H as [[-> Hi]|(n & p & K' & -> & Hptr & Hn0 & Hnn & HT' & [HE Hlk] & (x & Hf & EI) & Ha)]; [destruct (walkable_idle s s' Hw Hi); by split_and!|].
  assert (has_create dn = true) as Hc by (unfold create_error in He; by destruct (has_create dn); repeat case_match). assert (n <> dir) as Hnd by congruence.
  destruct (walk_keep s s' K K') as [Hw' Hk]; try done.
  - rewrite EI. split.
    + intros m y Hm. left. destruct (decide (m = dir)) as [->|]; [rewrite lookup_insert_eq; simplify_eq; eexists; split; [done|apply mild_touched]|].
      rewrite lookup_insert_ne by done. rewrite lookup_insert_ne by congruence. by exists y.
    + intros m y Hm Hy. rewrite lookup_insert_ne in Hy by congruence. apply lookup_insert_Some in Hy as [[<- <-]|[_ ?]]; [|congruence]. exists dir, dn. split_and!; [done|done|by eapply adopt_born].
  - intros r y Hr Hd Hv. assert (r <> n) by congruence. split.
    + rewrite EI. destruct (decide (r = dir)) as [->|]; [rewrite lookup_insert_eq; simplify_eq; by eexists|rewrite !lookup_insert_ne by done; by exists y].
    + intros q nm. rewrite HE. destruct (decide (q = p)); [|apply Hv]. intros [[_ E]|[_ E]]%lookup_insert_Some; [congruence|by eapply Hv].
  - intros m y Hm _ H0. rewrite Hlk, decide_False by congruence. lia.
  - split; [done|]. split.
    + split; [|split; [done|intros m; rewrite Hlk; destruct (decide (n = m)) as [<-|]; [rewrite (fresh_unlinked s K HT n) by done; lia|lia]]]. intros m [y Hm]. rewrite EI. destruct (decide (m = dir)) as [->|]; [rewrite lookup_insert_eq; eauto|]. rewrite lookup_insert_ne by done. rewrite lookup_insert_ne by congruence. eauto.
    + exists dn, (adopt (fs_cur s) dn type x). split_and!; [done|by rewrite EI, lookup_insert_ne, lookup_insert_eq|done|done|by exists (fs_now s), x].
Qed.

Lemma remove_keeps s dir name (rmdir : bool) : walkable s -> few s -> is_Some (fs_inodes s !! dir) ->
  wp (if rmdir then vfs_rmdir dir name else vfs_unlink dir name) (fun _ s' => walkable s' /\ kept s s') s.
Proof.
  intros Hw Hfew [dn Hdir]. pose proof Hw as ((K & HT & HR) & Hl & Hp). destruct rmdir.
  - eapply wp_mono; [by apply (vfs_rmdir_ok s K dir dn)|]. intros r s' H. destruct (rmdir_error s K dn name); [destruct H as [_ ->]; split; [done|apply kept_refl]|by eapply removed_keeps, H].
  - eapply wp_mono; [by apply (vfs_unlink_ok s K dir dn)|]. intros r s' H. destruct (unlink_error s K dn name); [destruct H as [_ ->]; split; [done|apply kept_refl]|by eapply removed_keeps, H].
Qed.

Lemma link_keeps s dir name target : walkable s -> is_Some (fs_inodes s !! dir) -> is_Some (fs_inodes s !! target) ->
  wp (vfs_link dir name target) (fun _ s' => walkable s' /\ kept s s') s.
Proof.
  intros Hw [dn Hdir] [tx Htx]. pose proof Hw as ((K & HT & HR) & Hl & Hp).
  eapply wp_mono; [apply (vfs_link_ok s K dir dn name target tx); try done; intros ? ?; by eapply (pure_devs _ Hp dir dn target tx)|]. intros r s' H.
  destruct (link_error s K dn tx name) eqn:He; [destruct H as [_ ->]; split; [done|apply kept_refl]|].
  destruct H as [[_ Hi]|(_ & p & K' & Hptr & HT' & [HE Hlk] & HL & Ha)]; [by apply idle_keeps|]. unfold linked in HL.
  assert (is_dir tx = false /\ is_dir dn = true /\ i_dev dn = i_dev tx /\ has_create dn = true) as (Htd & Hdd & Hdev & Hc).
  { unfold link_error in He. destruct (is_dir tx), (is_dir dn), (Z.eqb_spec (i_dev dn) (i_dev tx)), (has_create dn); done. }
  assert (target <> dir) as Hne by congruence. eapply (walk_keep s s' K K'); try done.
  - rewrite HL. split.
    + intros m y Hm. left. destruct (decide (m = dir)) as [->|]; [rewrite lookup_insert_eq; simplify_eq; eexists; split; [done|apply mild_touched]|]. rewrite lookup_insert_ne by done.
      destruct (decide (m = target)) as [->|]; [rewrite lookup_insert_eq; simplify_eq; eexists; split; [done|apply mild_linked]|rewrite lookup_insert_ne by done; by exists y].
    + intros m y Hm Hy. rewrite !lookup_insert_ne in Hy by congruence. congruence.
  - intros r0 y Hr Hd Hv. assert (r0 <> target) by congruence. split.
    + rewrite HL. destruct (decide (r0 = dir)) as [->|]; [rewrite lookup_insert_eq; simplify_eq; by eexists|rewrite !lookup_insert_ne by done; by exists y].
    + intros q nm. rewrite HE. destruct (decide (q = p)); [|apply Hv]. intros [[_ E]|[_ E]]%lookup_insert_Some; [congruence|by eapply Hv].
  - intros m y Hm Hrel H0. rewrite Hlk, decide_False; [lia|]. intros <-. destruct (pure_release _ Hp target y Hm Hrel) as [E _]. simplify_eq. by destruct E; eapply (pure_devs _ Hp dir dn target tx).
Qed.

Lemma replaced_tame s K ndir nx nname : pure (fs_inodes s) -> fs_inodes s !! ndir = Some nx -> tame (fs_inodes s) (replaced_inodes s K ndir nx nname).
Proof.
  intros Hp Hnx. assert (tame (fs_inodes s) (fs_inodes s)) as Hsame by (split; [intros n x Hn; left; by exists x|congruence]).
  unfold replaced_inodes. destruct (listing s K nx !! nname) as [m|]; [|done]. destruct (fs_inodes s !! m) eqn:Hm; [by apply drop_tame|done].
Qed.

Lemma replaced_ptr s K ndir nx nname r y : fs_inodes s !! ndir = Some nx -> fs_inodes s !! r = Some y -> (forall q name, view s K q !! name <> Some r) ->
  exists z, replaced_inodes s K ndir nx nname !! r = Some z /\ is_dir z = is_dir y /\ i_ptr z = i_ptr y.
Proof.
  intros Hnx Hr Hv. unfold replaced_inodes. destruct (listing s K nx !! nname) as [m|] eqn:E; [|by exists y]. destruct (fs_inodes s !! m) eqn:Hm; [|by exists y].
  apply drop_ptr; [done| |done]. intros ->. destruct (listed _ _ _ _ _ E) as (_ & p' & _ & Hp'). by eapply Hv.
Qed.

Lemma stamp_tame I I1 I2 : tame I I1 -> timeless <$> I2 = timeless <$> I1 -> tame I I2.
Proof.
  intros [O N] E. split.
  - intros n x Hx. destruct (O n x Hx) as [(y & Hy & Hm)|[Hn Hr]].
    + left. destruct (fmap_back timeless I2 I1 n y (eq_sym E) Hy) as (z & Hz & Ez). exists z. split; [done|]. etransitivity; [exact Hm|by apply mild_timeless].
    + right. split; [|done]. destruct (I2 !! n) as [z|] eqn:Hz; [|done]. destruct (fmap_back timeless I1 I2 n z E Hz) as (y & Hy & _). congruence.
  - intros n z Hn Hz. destruct (fmap_back timeless I1 I2 n z E Hz) as (y & Hy & Ey). destruct (N n y Hn Hy) as (d & dn & Hd & Hc & [F1 F2 F3 F4]). exists d, dn. split_and!; [done|done|].
    pose proof (mild_timeless y z (eq_sym Ey)) as Hm. pose proof Hm as [[G1 G2 G3 G4 G5] _ [G6 _]]. destruct F1 as (? & ? & ?). split; [split_and!; [congruence|congruence|by rewrite G3]|congruence|congruence|].
    rewrite (mild_is_link _ _ Hm). intros Hl. eapply mild_link_ok; eauto.
Qed.

Lemma rename_keeps s odir oname ndir nname noreplace : walkable s -> few s -> is_Some (fs_inodes s !! odir) -> is_Some (fs_inodes s !! ndir) ->
  wp (vfs_rename odir oname ndir nname noreplace) (fun _ s' => walkable s' /\ kept s s') s.
Proof.
  intros Hw Hfew [ox Ho] [nx Hnx]. pose proof Hw as ((K & HT & HR) & Hl & Hp). eapply wp_mono; [by apply (vfs_rename_ok s K odir ox oname ndir nx)|]. intros r s' H.
  destruct (rename_answer _ _ _ _ _ _ _ _ _); [destruct H as [_ ->]; split; [done|apply kept_refl]|].
  destruct H as (_ & p & q & n & K' & Hpo & Hpn & Hlist & HT' & [HE Hlk] & EI & Ha). eapply (walk_keep s s' K K'); try done.
  - eapply stamp_tame; [by apply replaced_tame|exact EI].
  - intros r0 y Hr Hd Hv. destruct (listed _ _ _ _ _ Hlist) as (_ & p' & _ & Hp'). split.
    + destruct (replaced_ptr s K ndir nx nname r0 y) as (z & Hz & Ezd & Ezp); [done..|]. destruct (fmap_back timeless (fs_inodes s') _ r0 z (eq_sym EI) Hz) as (w & Hw' & Ew).
      exists w. split; [done|]. rewrite <- Ezp, <- Hd, <- Ezd. split; [by apply (f_equal is_dir) in Ew|by apply (f_equal i_ptr) in Ew].
    + intros r1 nm. rewrite HE. cbv zeta. assert ((if decide (r1 = p) then delete oname (view s K p) else view s K r1) !! nm <> Some r0) as Hv1.
      { destruct (decide (r1 = p)); [|apply Hv]. intros [_ ?]%lookup_delete_Some. by eapply Hv. }
      destruct (decide (r1 = q)); [|done]. intros [[_ E]|[_ E]]%lookup_insert_Some; [|done]. subst. by eapply Hv.
  - intros m y _ _ H0. pose proof (Hlk m). pose proof (links_nonneg s' m). lia.
Qed.
End Keep.
