(* ===== verification/File.v ===== *)
(** * Open file descriptions: src/src/kernel/vfs/file.c, pipe_create

    A description holds a reference to its inode; the last close gives it up,
    which may free the inode. Pipes are anonymous inodes whose release hook
    frees them. *)
From S2P Require Import Prelude Types Cred Pipe VfsState Forest Ramfs Vfs VfsTree VfsOps VfsNames VfsPath.

Definition fil (f : Z) : M fs file := s ← get; lift (fs_files s !! f).
Definition fput_at (f : Z) (x : file) : M fs unit := modify (fun s => set_fs_files (<[f := x]> (fs_files s)) s).
Definition fset (f : Z) (g : file -> file) : M fs unit := x ← fil f; fput_at f (g x).
Definition ffree (f : Z) : M fs unit := modify (fun s => set_fs_files (delete f (fs_files s)) s).

Definition pip (k : Z) : M fs pipe_t := s ← get; lift (fs_pipes s !! k).
Definition pput_at (k : Z) (p : pipe_t) : M fs unit := modify (fun s => set_fs_pipes (<[k := p]> (fs_pipes s)) s).
Definition pfree (k : Z) : M fs unit := modify (fun s => set_fs_pipes (delete k (fs_pipes s)) s).
Definition wake (ch : Z) : M fs unit := modify (fun s => set_fs_woken (ch :: fs_woken s) s).

(** ** Descriptions *)

Definition file_alloc (n flags : Z) : M fs Z :=
  f ← k_alloc;
  if f =? 0 then mret 0 else
  _ ← fput_at f (MkFile n None 0 flags 1);
  _ ← iset n (fun x => set_i_refs (u32 (i_refs x + 1)) x);
  mret f.

Definition file_get (f : Z) : M fs Z := _ ← fset f (fun x => set_f_refs (u32 (f_refs x + 1)) x); mret f.

(** pipe_release on the pipe behind an inode: what is left of it. *)
Definition release_pipe (n k flags : Z) : M fs unit :=
  p ← pip k;
  _ ← wake k;
  match pipe_release flags p with
  | Some p' => pput_at k p'
  | None => _ ← pfree k; ifree n
  end.

Section File.
  Context `{DR : Drivers}.

Definition call_release (n flags : Z) : M fs unit :=
  x ← ino n;
  match i_release x with
  | None => mret tt
  | Some DPipe => match i_ptr x with PDriver k => release_pipe n k flags | _ => fault end
  | Some d => drv_release d n flags
  end.

Definition file_put (f : Z) : M fs unit :=
  if f =? 0 then mret tt else
  _ ← fset f (fun x => set_f_refs (u32 (f_refs x - 1)) x);
  ff ← fil f;
  if negb (f_refs ff =? 0) then mret tt else
  let n := f_inode ff in
  _ ← iset n (fun x => set_i_refs (u32 (i_refs x - 1)) x);
  x ← ino n;
  let gone := (i_refs x =? 0) && (i_nlink x =? 0) && has_destroy x in
  _ ← call_release n (f_flags ff);
  _ ← when gone (call_destroy n);
  ffree f.

(** ** Opening *)

Definition has (flags b : Z) : bool := negb (Z.land flags b =? 0).

(** An error, or the inode, its dentry, and whether it was made just now. *)
Definition resolve (base : Z) (path : string) (flags mode : Z) : M fs (Z + Z * Z * bool) :=
  r ← vfs_resolve_dentry base path (negb (has flags O_NOFOLLOW));
  match r with
  | inr (node, d) =>
      if has flags O_CREAT && has flags O_EXCL then mret (inl (- EEXIST)) else
      x ← ino node;
      if is_link x then mret (inl (- ELOOP)) else mret (inr (node, d, false))
  | inl err =>
      if negb (has flags O_CREAT) || negb (err =? - ENOENT) then mret (inl err) else
      p ← vfs_parent base path;
      match p with
      | inl err => mret (inl err)
      | inr (dir, name) =>
          c ← vfs_create dir name VFS_FILE mode;
          match c with
          | inl err => mret (inl err)
          | inr node => d ← vfs_child dir name; mret (inr (node, d, true))
          end
      end
  end.

Definition call_open (n flags : Z) : M fs Z :=
  x ← ino n; match i_open x with None => mret 0 | Some d => drv_open d n flags end.

Definition call_truncate (n len_ : Z) : M fs Z :=
  x ← ino n; match i_truncate x with Some DRamfs => ramfs_truncate n len_ | _ => fault end.

Definition has_truncate (x : inode) : bool := match i_truncate x with Some _ => true | None => false end.

(** What an open with these flags does to the file. *)
Definition open_mask (flags : Z) : Z :=
  let acc := Z.land flags O_ACCMODE in
  Z.lor (if negb (acc =? O_WRONLY) then MAY_READ else 0) (if negb (acc =? O_RDONLY) || has flags O_TRUNC then MAY_WRITE else 0).

(** The checks, in order: 0 or an error. *)
Definition open_check (node flags : Z) (created : bool) : M fs Z :=
  x ← ino node;
  let acc := Z.land flags O_ACCMODE in
  if itype x =? VFS_SOCKET then mret (- ENXIO)
  else if has flags O_DIRECTORY && negb (is_dir x) then mret (- ENOTDIR)
  else if is_dir x && negb (acc =? O_RDONLY) then mret (- EISDIR)
  else
    ro ← (if negb (acc =? O_RDONLY) || has flags O_TRUNC then vfs_readonly node else mret false);
    if (ro : bool) && negb (itype x =? VFS_CHARDEVICE) && negb (itype x =? VFS_PIPE) then mret (- EROFS)
    else
      s ← get;
      if created then mret 0
      else let err := cred_permission (fs_cur s) x (open_mask flags) in mret (if err <? 0 then err else 0).

(** The path it was opened by, if it fits and there is memory. *)
Definition note_path (f d : Z) : M fs unit :=
  if d =? 0 then mret tt else
  p ← vfs_dentry_path d 256;
  match p with
  | inl _ => mret tt
  | inr path => b ← k_alloc; if b =? 0 then mret tt else fset f (set_f_path (Some path))
  end.

Definition file_open (base : Z) (path : string) (flags mode : Z) : M fs (Z + Z) :=
  r ← resolve base path flags mode;
  match r with
  | inl err => mret (inl err)
  | inr (node, d, created) =>
      err ← open_check node flags created;
      if err <? 0 then mret (inl err) else
      err ← call_open node flags;
      if err <? 0 then mret (inl err) else
      x ← ino node;
      _ ← when (has flags O_TRUNC && negb (Z.land flags O_ACCMODE =? O_RDONLY) && has_truncate x) (_ ← call_truncate node 0; mret tt);
      f ← file_alloc node flags;
      if f =? 0 then mret (inl (- ENOMEM)) else
      _ ← note_path f d;
      mret (inr f)
  end.
End File.

(** ** Pipes *)

Definition pipe_inode (now k : Z) : inode :=
  let x := init_inode now VFS_PIPE 384 (set_i_name "pipe" zero_inode) in
  set_i_ptr (PDriver k) (set_i_poll (Some DPipe) (set_i_release (Some DPipe) (set_i_write (Some DPipe) (set_i_read (Some DPipe) (set_i_nlink 0 x))))).

Definition empty_pipe : pipe_t := MkPipe (replicate (Z.to_nat PIPE_SIZE) 0) 0 0 0 0.

(** The ends, or an error. *)
Definition pipe_create : M fs (Z + Z * Z) :=
  p ← k_alloc;
  n ← k_alloc;
  if (p =? 0) || (n =? 0) then mret (inl (- ENOMEM)) else
  s ← get;
  _ ← pput_at p empty_pipe;
  _ ← iput_at n (pipe_inode (fs_now s) p);
  rd ← file_alloc n O_RDONLY;
  wr ← file_alloc n O_WRONLY;
  if (rd =? 0) || (wr =? 0) then
    _ ← when (negb (rd =? 0)) (ffree rd);
    _ ← when (negb (wr =? 0)) (ffree wr);
    _ ← pfree p;
    _ ← ifree n;
    mret (inl (- ENOMEM))
  else
    _ ← pput_at p (set_readers 1 (set_writers 1 empty_pipe));
    mret (inr (rd, wr)).
