(* ===== verification/FileRefs.v ===== *)
(** * Who holds an inode

    Reference counts are true: an inode's count is the number of open
    descriptions of it and of other holders, a pipe's ends are counted by its
    descriptions, and so the last close, and only that, frees what nothing
    names. *)
From S2P Require Import Prelude Types Cred Pipe VfsState Forest Ramfs Vfs VfsTree VfsEdit VfsOps VfsNames VfsPath VfsKeep File.

Definition reads (f : file) : bool := Z.land (f_flags f) O_ACCMODE =? O_RDONLY.

(** The descriptions that are read ends, or write ends, by inode. *)
Definition ends (b : bool) (F : gmap Z file) : gmap Z Z := omap (fun f => if Bool.eqb (reads f) b then Some (f_inode f) else None) F.

Definition opens (s : fs) (n : Z) : Z := Z.of_nat (naming (f_inode <$> fs_files s) n).
Definition open_ends (s : fs) (b : bool) (n : Z) : Z := Z.of_nat (naming (ends b (fs_files s)) n).

Lemma opens_insert F f ff n : F !! f = None -> naming (f_inode <$> <[f := ff]> F) n = (naming (f_inode <$> F) n + if decide (f_inode ff = n) then 1 else 0)%nat.
Proof. intros Hf. rewrite fmap_insert. apply naming_insert. by rewrite lookup_fmap, Hf. Qed.

Lemma ends_insert b F f ff n : F !! f = None ->
  naming (ends b (<[f := ff]> F)) n = (naming (ends b F) n + if decide (reads ff = b /\ f_inode ff = n) then 1 else 0)%nat.
Proof.
  intros Hf. unfold ends. destruct (Bool.eqb (reads ff) b) eqn:E.
  - apply Bool.eqb_prop in E. rewrite (omap_insert_Some _ _ _ _ (f_inode ff)) by (rewrite E, Bool.eqb_reflx; done).
    rewrite naming_insert by (rewrite lookup_omap, Hf; done). repeat case_decide; naive_solver lia.
  - apply Bool.eqb_false_iff in E. rewrite omap_insert_None by (destruct (Bool.eqb (reads ff) b) eqn:E'; [by apply Bool.eqb_prop in E'|done]).
    rewrite delete_id by (rewrite lookup_omap, Hf; done). rewrite decide_False by naive_solver. lia.
Qed.

Lemma opens_delete F f ff n : F !! f = Some ff -> naming (f_inode <$> F) n = (naming (f_inode <$> delete f F) n + if decide (f_inode ff = n) then 1 else 0)%nat.
Proof. intros Hf. rewrite <- (insert_delete_id F f ff Hf) at 1. apply opens_insert, lookup_delete_eq. Qed.

Lemma ends_delete b F f ff n : F !! f = Some ff -> naming (ends b F) n = (naming (ends b (delete f F)) n + if decide (reads ff = b /\ f_inode ff = n) then 1 else 0)%nat.
Proof. intros Hf. rewrite <- (insert_delete_id F f ff Hf) at 1. apply ends_insert, lookup_delete_eq. Qed.

(** A description is one end or the other. *)
Lemma ends_sum F n : (naming (ends true F) n + naming (ends false F) n)%nat = naming (f_inode <$> F) n.
Proof.
  induction F as [|f ff F Hf IH] using map_ind; [done|]. rewrite !ends_insert, opens_insert by done. rewrite <- IH. destruct (reads ff); repeat case_decide; naive_solver lia.
Qed.

(** Counting references to a description changes no end. *)
Lemma ends_update b F f ff ff' n : F !! f = Some ff -> f_inode ff' = f_inode ff -> reads ff' = reads ff ->
  naming (ends b (<[f := ff']> F)) n = naming (ends b F) n /\ naming (f_inode <$> <[f := ff']> F) n = naming (f_inode <$> F) n.
Proof.
  intros Hf E1 E2. rewrite <- (insert_delete_eq F f ff'). rewrite ends_insert, opens_insert by apply lookup_delete_eq.
  rewrite (ends_delete b F f ff n Hf), (opens_delete F f ff n Hf). by rewrite E1, E2.
Qed.

(** ** The invariant *)

(** The pipe behind an inode counts its ends. *)
Record pipe_held (s : fs) (ext : Z -> Z) (n : Z) (x : inode) (k : Z) (p : pipe_t) : Prop := {
  ph_ptr : i_ptr x = PDriver k;
  ph_pipe : fs_pipes s !! k = Some p;
  ph_readers : readers p = open_ends s true n;
  ph_writers : writers p = open_ends s false n;
  ph_bare : i_destroy x = None /\ links s n = 0 /\ ext n = 0;
  ph_own : forall n' x', fs_inodes s !! n' = Some x' -> i_release x' = Some DPipe -> i_ptr x' = PDriver k -> n' = n;
}.

(** [ext n]: holders of [n] that are not descriptions, such as a cwd. *)
Record held (s : fs) (ext : Z -> Z) : Prop := {
  h_file : forall f ff, fs_files s !! f = Some ff -> f <> 0 /\ 0 < f_refs ff < 2 ^ 32 /\ is_Some (fs_inodes s !! f_inode ff);
  h_refs : forall n x, fs_inodes s !! n = Some x -> i_refs x = opens s n + ext n;
  h_ext : forall n, 0 <= ext n /\ (ext n <> 0 -> is_Some (fs_inodes s !! n));
  h_pipe : forall n x, fs_inodes s !! n = Some x -> i_release x = Some DPipe -> exists k p, pipe_held s ext n x k p;
  h_fresh : forall k, fs_block s <= k -> fs_files s !! k = None /\ fs_pipes s !! k = None;
}.

(** Fewer holders than a count can hold. *)
Definition room (s : fs) (ext : Z -> Z) : Prop := forall n, opens s n + ext n < 2 ^ 32 - 1.

(** ** Closing *)

Definition is_pipe (x : inode) : bool := match i_release x with Some DPipe => true | _ => false end.

Lemma is_pipe_spec x : is_pipe x = true <-> i_release x = Some DPipe.
Proof. unfold is_pipe. destruct (i_release x) as [[]|]; done. Qed.

Section Close.
  Context (s s' : fs) (ext : Z -> Z) (f : Z) (ff : file) (x : inode).
Let n := f_inode ff.
  Context (HH : held s ext) (Hf : fs_files s !! f = Some ff) (Hx : fs_inodes s !! n = Some x).
  Context (HF : fs_files s' = delete f (fs_files s)) (HB : fs_block s <= fs_block s') (HL : forall m, links s' m = links s m).
  Context (HIo : forall m, m <> n -> fs_inodes s' !! m = fs_inodes s !! m).
  Context (HIn : fs_inodes s' !! n = None /\ opens s' n + ext n = 0 \/ fs_inodes s' !! n = Some (set_i_refs (i_refs x - 1) x)).
  Context (HPo : forall k, i_ptr x <> PDriver k \/ is_pipe x = false -> fs_pipes s' !! k = fs_pipes s !! k).
  Context (HPn : forall k p, pipe_held s ext n x k p -> is_pipe x = true -> is_Some (fs_inodes s' !! n) ->
    exists p', fs_pipes s' !! k = Some p' /\ readers p' = readers p - (if reads ff then 1 else 0) /\ writers p' = writers p - (if reads ff then 0 else 1)).
  Context (HPfresh : forall k, fs_pipes s !! k = None -> fs_pipes s' !! k = None).

Lemma close_opens m : opens s m = opens s' m + if decide (n = m) then 1 else 0.
Proof. unfold opens. rewrite (opens_delete _ f ff m Hf), HF. fold n. case_decide; lia. Qed.

Lemma close_ends b m : open_ends s b m = open_ends s' b m + if decide (reads ff = b /\ n = m) then 1 else 0.
Proof. unfold open_ends. rewrite (ends_delete b _ f ff m Hf), HF. fold n. case_decide; lia. Qed.

Lemma close_inode m y : fs_inodes s' !! m = Some y -> m <> n /\ fs_inodes s !! m = Some y \/ m = n /\ y = set_i_refs (i_refs x - 1) x.
Proof.
  intros Hy. destruct (decide (m = n)) as [E|Hm]; [right|left; split; [done|by rewrite <- HIo]]. split; [done|]. rewrite E in Hy. destruct HIn as [[? _]|?]; congruence.
Qed.

Lemma held_close : held s' ext.
Proof.
  split.
  - intros g gg. rewrite HF. intros [Hg Hgg]%lookup_delete_Some. destruct (h_file _ _ HH g gg Hgg) as (Hg0 & Hgr & Hl). split; [done|]. split; [done|].
    destruct (decide (f_inode gg = n)) as [E|Hm]; [|by rewrite HIo]. rewrite E. destruct HIn as [[_ H0]|H1]; [|eauto]. exfalso.
    pose proof (proj1 (h_ext _ _ HH n)). assert (naming (f_inode <$> fs_files s') n = 0%nat) as Hz by (unfold opens in H0; lia).
    apply (naming_zero _ _ Hz g). by rewrite lookup_fmap, HF, lookup_delete_ne, Hgg, <- E by done.
  - intros m y Hy. pose proof (close_opens m) as Ho. destruct (close_inode m y Hy) as [[Hm Hy0]|[-> ->]].
    + rewrite (h_refs _ _ HH m y Hy0). rewrite decide_False in Ho by congruence. lia.
    + simpl. rewrite (h_refs _ _ HH n x Hx). rewrite decide_True in Ho by done. lia.
  - intros m. split; [apply HH|]. intros He. pose proof (proj2 (h_ext _ _ HH m) He) as Hl. destruct (decide (m = n)) as [E|Hm]; [|by rewrite HIo].
    rewrite E. destruct HIn as [[_ H0]|H1]; [|eauto]. exfalso. rewrite E in He. pose proof (proj1 (h_ext _ _ HH n)). unfold opens in H0. lia.
  - intros m y Hy Hr. pose proof Hy as Hy1. destruct (close_inode m y Hy) as [[Hm Hy0]|[-> ->]].
    + destruct (h_pipe _ _ HH m y Hy0 Hr) as (k & p & [Hptr Hp Hrd Hwr Hbare Hown]). exists k, p.
      split; [done| |rewrite Hrd|rewrite Hwr| |].
      * rewrite HPo; [done|]. destruct (is_pipe x) eqn:Ex; [|by right]. left. intros E. apply Hm. symmetry. apply (Hown n x); [done|by apply is_pipe_spec|done].
      * rewrite (close_ends true m), decide_False by (intros [_ ?]; congruence). lia.
      * rewrite (close_ends false m), decide_False by (intros [_ ?]; congruence). lia.
      * rewrite HL. done.
      * intros n' x' Hn' Hr' Hp'. destruct (close_inode n' x' Hn') as [[_ Hn0]|[-> ->]]; [by apply (Hown n' x')|]. apply (Hown n x); [done|exact Hr'|exact Hp'].
    + assert (i_release x = Some DPipe) as Hrx by exact Hr. destruct (h_pipe _ _ HH n x Hx Hrx) as (k & p & Hph). pose proof Hph as [Hptr Hp Hrd Hwr Hbare Hown].
      destruct (HPn k p Hph) as (p' & Hp' & Er & Ew); [by apply is_pipe_spec|eauto|]. exists k, p'. split; [done|done|rewrite Er, Hrd|rewrite Ew, Hwr|by rewrite HL|].
      * rewrite (close_ends true n). destruct (reads ff); [rewrite decide_True by done|rewrite decide_False by naive_solver]; lia.
      * rewrite (close_ends false n). destruct (reads ff); [rewrite decide_False by naive_solver|rewrite decide_True by done]; lia.
      * intros n' x' Hn' Hr' Hq. destruct (close_inode n' x' Hn') as [[_ Hn0]|[-> ->]]; [by apply (Hown n' x')|done].
  - intros k Hk. destruct (h_fresh _ _ HH k) as [Hk1 Hk2]; [lia|]. split; [rewrite HF; apply lookup_delete_None; by right|by apply HPfresh].
Qed.
End Close.

Lemma wp_fil f x s (Q : file -> fs -> Prop) : fs_files s !! f = Some x -> Q x s -> wp (fil f) Q s.
Proof. intros Hf HQ. unfold fil. wp_steps. by eapply wp_lift. Qed.

Lemma wp_fset f g x s (Q : unit -> fs -> Prop) : fs_files s !! f = Some x -> Q tt (set_fs_files (<[f := g x]> (fs_files s)) s) -> wp (fset f g) Q s.
Proof. intros Hf HQ. unfold fset. wp_step. eapply wp_fil; [done|]. unfold fput_at. by wp_steps. Qed.

(** What else a description holds is nothing to the rest. *)
Lemma held_file s ext f ff ff' :
  held s ext -> fs_files s !! f = Some ff -> f_inode ff' = f_inode ff -> reads ff' = reads ff -> 0 < f_refs ff' < 2 ^ 32 -> held (set_fs_files (<[f := ff']> (fs_files s)) s) ext.
Proof.
  intros HH Hf Ei Er Hv. set (s' := set_fs_files _ s). assert (forall n, opens s' n = opens s n) as Eo by (intros n; unfold opens; simpl; f_equal; by eapply (ends_update true)).
  assert (forall b n, open_ends s' b n = open_ends s b n) as Ee by (intros b n; unfold open_ends; simpl; f_equal; by eapply ends_update).
  split; simpl; try apply HH.
  - intros g gg. destruct (decide (g = f)) as [->|Hg]; [rewrite lookup_insert_eq; intros [= <-]|rewrite lookup_insert_ne by done; by apply HH].
    destruct (h_file _ _ HH f ff Hf) as (? & _ & ?). by rewrite Ei.
  - intros n x Hx. rewrite Eo. by apply HH.
  - intros n x Hx Hr. destruct (h_pipe _ _ HH n x Hx Hr) as (k & p & []). exists k, p. split; simpl; rewrite ?Ee; done.
  - intros k Hk. destruct (h_fresh _ _ HH k Hk) as [Hk1 Hk2]. split; [|done]. rewrite lookup_insert_ne; [done|]. intros ->. congruence.
Qed.

Lemma held_refs s s' ext f ff v :
  held s ext -> fs_files s !! f = Some ff -> 0 < v < 2 ^ 32 -> s' = set_fs_files (<[f := set_f_refs v ff]> (fs_files s)) s -> held s' ext.
Proof. intros HH Hf Hv ->. by eapply held_file. Qed.

Lemma opens_pos s f ff : fs_files s !! f = Some ff -> 0 < opens s (f_inode ff).
Proof.
  intros Hf. unfold opens. destruct (decide (naming (f_inode <$> fs_files s) (f_inode ff) = 0%nat)) as [E|]; [|lia]. destruct (naming_zero _ _ E f). by rewrite lookup_fmap, Hf.
Qed.

Lemma open_ends_pos s f ff : fs_files s !! f = Some ff -> 0 < open_ends s (reads ff) (f_inode ff).
Proof. intros Hf. unfold open_ends. rewrite (ends_delete (reads ff) _ f ff _ Hf), decide_True by done. lia. Qed.

Lemma open_ends_sum s n : open_ends s true n + open_ends s false n = opens s n.
Proof. unfold open_ends, opens. pose proof (ends_sum (fs_files s) n). lia. Qed.

(** Whether closing the last description of [x] frees it. *)
Definition freed_by_close (s : fs) (ext : Z -> Z) (n : Z) (x : inode) : bool :=
  bool_decide (opens s n + ext n = 1) && (is_pipe x || bool_decide (links s n = 0) && has_destroy x).

Definition closed_inodes (s : fs) (ext : Z -> Z) (n : Z) (x : inode) : gmap Z inode :=
  if freed_by_close s ext n x then delete n (fs_inodes s) else <[n := set_i_refs (i_refs x - 1) x]> (fs_inodes s).

(** What a pipe is after one end is gone. *)
Lemma pipe_release_ok s ext n x k f ff p :
  held s ext -> room s ext -> pipe_held s ext n x k p -> fs_files s !! f = Some ff -> f_inode ff = n ->
  match pipe_release (f_flags ff) p with
  | None => opens s n = 1
  | Some p' => opens s n <> 1 /\ readers p' = readers p - (if reads ff then 1 else 0) /\ writers p' = writers p - (if reads ff then 0 else 1)
  end.
Proof.
  intros HH Hroom [Hptr Hp Hrd Hwr Hbare Hown] Hf <-. pose proof (open_ends_pos s f ff Hf) as Hpos. pose proof (open_ends_sum s (f_inode ff)) as Hsum.
  pose proof (Hroom (f_inode ff)) as Hrm. pose proof (proj1 (h_ext _ _ HH (f_inode ff))) as He. assert (0 <= open_ends s true (f_inode ff) /\ 0 <= open_ends s false (f_inode ff)) as [H1 H2] by (unfold open_ends; lia).
  unfold pipe_release. fold (reads ff). destruct (reads ff).
  - cbn [readers writers set_readers]. rewrite u32_small by lia. destruct (Z.eqb_spec (readers p - 1) 0), (Z.eqb_spec (writers p) 0); cbn [andb]; simpl; lia.
  - cbn [readers writers set_writers]. rewrite u32_small by lia. destruct (Z.eqb_spec (readers p) 0), (Z.eqb_spec (writers p - 1) 0); cbn [andb]; simpl; lia.
Qed.

(** Names, mounts, the clock and the current process are as they were. *)
Definition around (s s' : fs) : Prop :=
  fs_dentries s' = fs_dentries s /\ fs_mounts s' = fs_mounts s /\ fs_root s' = fs_root s /\ fs_now s' = fs_now s /\ fs_cur s' = fs_cur s /\ fs_block s <= fs_block s'.

#[global] Instance around_preorder : PreOrder around.
Proof. split; [intros s; by split_and!|]. intros s1 s2 s3 H1 H2. unfold around in *. destruct_and!. split_and!; congruence || lia. Qed.

Section Put.
  Context `{DR : Drivers}.

(** The state once everything is closed. *)
Lemma close_ok s s' K ext f ff x :
  tree s K -> few s -> held s ext -> room s ext -> fs_files s !! f = Some ff -> fs_inodes s !! f_inode ff = Some x ->
  i_release x = None \/ i_release x = Some DPipe -> fs_files s' = delete f (fs_files s) -> fs_inodes s' = closed_inodes s ext (f_inode ff) x ->
  fs_dentries s' = fs_dentries s -> fs_mounts s' = fs_mounts s -> fs_block s' = fs_block s ->
  (is_pipe x = false -> fs_pipes s' = fs_pipes s) ->
  (forall k p, pipe_held s ext (f_inode ff) x k p -> is_pipe x = true -> fs_pipes s' = match pipe_release (f_flags ff) p with Some p' => <[k := p']> (fs_pipes s) | None => delete k (fs_pipes s) end) ->
  tree s' K /\ held s' ext.
Proof.
  intros HT Hfew HH Hroom Hf Hx Hrel EF EI ED EM EB HP0 HP1. set (n := f_inode ff) in *. assert (forall m, links s' m = links s m) as EL by (intros m; unfold links; by rewrite ED, EM).
  pose proof (opens_pos s f ff Hf) as Hpos. fold n in Hpos. pose proof (proj1 (h_ext _ _ HH n)) as He. unfold closed_inodes in EI.
  assert (is_pipe x = true -> exists k p, pipe_held s ext n x k p) as Hpipe by (intros E%is_pipe_spec; by apply (h_pipe _ _ HH)). split.
  - destruct (freed_by_close s ext n x) eqn:Ef.
    + apply (tree_free s s' K n); try done; [|lia]. unfold freed_by_close in Ef. apply andb_true_iff in Ef as [_ Ef]. destruct (is_pipe x) eqn:Ep.
      * destruct (Hpipe eq_refl) as (k & p & Hph). by destruct (ph_bare _ _ _ _ _ _ Hph) as (_ & ? & _).
      * cbn [orb] in Ef. apply andb_true_iff in Ef as [Ef _]. by apply bool_decide_eq_true in Ef.
    + apply (tree_calm s s' K HT). split_and!; [|done|done|lia]. rewrite EI, fmap_insert. apply insert_id. by rewrite lookup_fmap, Hx.
  - apply (held_close s s' ext f ff x); try done; try lia; fold n.
    + intros m Hm. rewrite EI. destruct (freed_by_close s ext n x); [by rewrite lookup_delete_ne|by rewrite lookup_insert_ne].
    + rewrite EI. destruct (freed_by_close s ext n x) eqn:Ef; [left|right; apply lookup_insert_eq]. rewrite lookup_delete_eq. split; [done|].
      pose proof (close_opens s s' f ff Hf EF n) as Ho. fold n in Ho. rewrite decide_True in Ho by done. unfold freed_by_close in Ef. apply andb_true_iff in Ef as [Ef%bool_decide_eq_true _]. lia.
    + intros k Hk. destruct (is_pipe x) eqn:Ep; [|by rewrite HP0]. destruct Hk as [Hk|?]; [|done]. destruct (Hpipe eq_refl) as (k' & p & Hph). rewrite (HP1 k' p Hph eq_refl).
      assert (k' <> k) as Hkk by (intros ->; apply Hk, Hph). destruct (pipe_release (f_flags ff) p); [by rewrite lookup_insert_ne|by rewrite lookup_delete_ne].
    + intros k p Hph Ep [y Hy]. pose proof (pipe_release_ok s ext n x k f ff p HH Hroom Hph Hf eq_refl) as Hr. rewrite (HP1 k p Hph Ep).
      destruct (pipe_release (f_flags ff) p) as [p'|]; [exists p'; split; [apply lookup_insert_eq|apply Hr]|]. exfalso. rewrite EI in Hy. unfold freed_by_close in Hy.
      destruct (ph_bare _ _ _ _ _ _ Hph) as (_ & _ & He0). rewrite bool_decide_true, Ep in Hy by lia. cbn [andb orb] in Hy. by rewrite lookup_delete_eq in Hy.
    + intros k Hk. destruct (is_pipe x) eqn:Ep; [|by rewrite HP0]. destruct (Hpipe eq_refl) as (k' & p & Hph). rewrite (HP1 k' p Hph eq_refl).
      destruct (pipe_release (f_flags ff) p); [rewrite lookup_insert_ne; [done|]; intros ->; by rewrite (ph_pipe _ _ _ _ _ _ Hph) in Hk|apply lookup_delete_None; by right].
Qed.

Lemma file_put_ok s K ext f ff x :
  tree s K -> few s -> held s ext -> room s ext -> fs_files s !! f = Some ff -> fs_inodes s !! f_inode ff = Some x ->
  i_release x = None \/ i_release x = Some DPipe -> i_destroy x = None \/ i_destroy x = Some DRamfs ->
  wp (file_put f) (fun _ s' => tree s' K /\ held s' ext /\ around s s' /\
    if decide (f_refs ff = 1) then fs_files s' = delete f (fs_files s) /\ fs_inodes s' = closed_inodes s ext (f_inode ff) x
    else fs_files s' = <[f := set_f_refs (f_refs ff - 1) ff]> (fs_files s) /\ fs_inodes s' = fs_inodes s) s.
Proof.
  intros HT Hfew HH Hroom Hf Hx Hrel Hdst. destruct (h_file _ _ HH f ff Hf) as (Hf0 & Hr & _). unfold file_put. rewrite (proj2 (Z.eqb_neq f 0) Hf0).
  wp_step. eapply wp_fset; [done|]. rewrite u32_small by lia. set (s1 := set_fs_files _ s). wp_step. eapply wp_fil; [apply lookup_insert_eq|]. cbn [f_refs set_f_refs].
  case_decide as H1.
  2:{ rewrite (proj2 (Z.eqb_neq _ _)) by lia. cbn [negb]. wp_step. split_and!; [|eapply (held_refs s s1 ext f ff (f_refs ff - 1)); [done|done|lia|done]|done|done|done].
      apply (tree_calm s s1 K HT). by split_and!. }
  rewrite H1. change (1 - 1 =? 0) with true. cbn [negb]. cbv zeta. change (f_inode (set_f_refs _ ff)) with (f_inode ff). change (f_flags (set_f_refs _ ff)) with (f_flags ff).
  set (n := f_inode ff) in *. pose proof (h_refs _ _ HH n x Hx) as Hrefs. pose proof (opens_pos s f ff Hf) as Hpos. fold n in Hpos. pose proof (Hroom n) as Hrm. pose proof (proj1 (h_ext _ _ HH n)) as He.
  wp_step. eapply wp_iset; [exact Hx|]. rewrite u32_small by lia. set (y := set_i_refs (i_refs x - 1) x). set (s2 := set_fs_inodes _ s1).
  assert (fs_inodes s2 !! n = Some y) as Hy by apply lookup_insert_eq. wp_step. eapply wp_ino; [exact Hy|].
  assert (aside_close : forall s', fs_files s' = delete f (fs_files s1) -> fs_inodes s' = closed_inodes s ext n x -> around s s' ->
    fs_block s' = fs_block s -> (is_pipe x = false -> fs_pipes s' = fs_pipes s) ->
    (forall k p, pipe_held s ext n x k p -> is_pipe x = true -> fs_pipes s' = match pipe_release (f_flags ff) p with Some p' => <[k := p']> (fs_pipes s) | None => delete k (fs_pipes s) end) ->
    tree s' K /\ held s' ext /\ around s s' /\ fs_files s' = delete f (fs_files s) /\ fs_inodes s' = closed_inodes s ext n x).
  { intros s' EF EI HA EB HP0 HP1. pose proof HA as (ED & EM & _). assert (fs_files s' = delete f (fs_files s)) as EF' by (rewrite EF; apply delete_insert_eq).
    destruct (close_ok s s' K ext f ff x) as [? ?]; try done. }
  wp_step. unfold call_release. wp_step. eapply wp_ino; [exact Hy|]. change (i_release y) with (i_release x). change (has_destroy y) with (has_destroy x). change (i_nlink y) with (i_nlink x).
  change (i_refs y) with (i_refs x - 1). destruct Hrel as [Hrel|Hrel].
  - assert (is_pipe x = false) as Hnp by (unfold is_pipe; by rewrite Hrel). rewrite Hrel. wp_step. wp_step.
    assert ((i_refs x - 1 =? 0) && (i_nlink x =? 0) && has_destroy x = freed_by_close s ext n x) as ->.
    { unfold freed_by_close. rewrite Hnp. cbn [orb]. unfold has_destroy. destruct Hdst as [E|E]; rewrite E; [by rewrite !andb_false_r|]. rewrite !andb_true_r. f_equal.
      - apply Bool.eq_iff_eq_true. rewrite Z.eqb_eq, bool_decide_eq_true. lia.
      - rewrite (t_links _ _ HT n x Hx) by by left. rewrite (u32_small (links s n)) by by apply links_bound. apply Bool.eq_iff_eq_true. by rewrite Z.eqb_eq, bool_decide_eq_true. }
    apply wp_when; intros Hg.
    + assert (i_destroy x = Some DRamfs) as Hd. { unfold freed_by_close, has_destroy in Hg. rewrite Hnp in Hg. destruct Hdst as [E|E]; [|done]. rewrite E in Hg. by rewrite !andb_false_r in Hg. }
      unfold call_destroy. wp_step. eapply wp_ino; [exact Hy|]. change (i_destroy y) with (i_destroy x). rewrite Hd. unfold ramfs_destroy. wp_step. eapply wp_ino; [exact Hy|].
      unfold ifree. wp_step. unfold ffree. wp_step. apply aside_close; try done; [|congruence]. simpl. unfold closed_inodes. rewrite Hg. apply delete_insert_eq.
    + unfold ffree. wp_step. apply aside_close; try done; [|congruence]. simpl. unfold closed_inodes. by rewrite Hg.
  - assert (is_pipe x = true) as Hip by by apply is_pipe_spec. destruct (h_pipe _ _ HH n x Hx Hrel) as (k & p & Hph). pose proof Hph as [Hptr Hp Hrd Hwr (Hbd & Hbl & Hbe) Hown].
    rewrite Hrel. change (i_ptr y) with (i_ptr x). rewrite Hptr. unfold release_pipe, pip. wp_step. wp_step. wp_step. eapply wp_lift; [exact Hp|]. unfold wake. wp_step. wp_step.
    assert ((i_refs x - 1 =? 0) && (i_nlink x =? 0) && has_destroy x = false) as -> by (unfold has_destroy; rewrite Hbd; apply andb_false_r).
    assert (freed_by_close s ext n x = bool_decide (opens s n = 1)) as Efr.
    { unfold freed_by_close. rewrite Hip. cbn [orb]. rewrite andb_true_r, Hbe. apply bool_decide_ext. lia. }
    assert (forall k' p', pipe_held s ext n x k' p' -> k' = k /\ p' = p) as Huniq by (intros k' p' [E1 E2 _ _ _ _]; split; congruence).
    pose proof (pipe_release_ok s ext n x k f ff p HH Hroom Hph Hf eq_refl) as Hr'. destruct (pipe_release (f_flags ff) p) as [p'|] eqn:Epr.
    + unfold pput_at. wp_step. wp_step. apply wp_when; [done|intros _]. unfold ffree. wp_step. apply aside_close; try done; [|by rewrite Hip|].
      * simpl. unfold closed_inodes. rewrite Efr, bool_decide_false by apply Hr'. done.
      * intros k' p1 [-> ->]%Huniq _. by rewrite Epr.
    + unfold pfree, ifree. wp_step. wp_step. wp_step. wp_step. apply wp_when; [done|intros _]. unfold ffree. wp_step. apply aside_close; try done; [|by rewrite Hip|].
      * simpl. unfold closed_inodes. rewrite Efr, bool_decide_true by done. apply delete_insert_eq.
      * intros k' p1 [-> ->]%Huniq _. by rewrite Epr.
Qed.
End Put.

(** ** Opening *)

Lemma opens_new s s' f ff n : fs_files s !! f = None -> fs_files s' = <[f := ff]> (fs_files s) -> opens s' n = opens s n + if decide (f_inode ff = n) then 1 else 0.
Proof. intros Hf E. unfold opens. rewrite E, opens_insert by done. case_decide; lia. Qed.

Lemma open_ends_new s s' f ff b n :
  fs_files s !! f = None -> fs_files s' = <[f := ff]> (fs_files s) -> open_ends s' b n = open_ends s b n + if decide (reads ff = b /\ f_inode ff = n) then 1 else 0.
Proof. intros Hf E. unfold open_ends. rewrite E, ends_insert by done. case_decide; lia. Qed.

Lemma held_open s s' ext f ff x :
  held s ext -> fs_block s <= f < fs_block s' -> f <> 0 -> 0 < f_refs ff < 2 ^ 32 -> fs_inodes s !! f_inode ff = Some x -> is_pipe x = false ->
  fs_files s' = <[f := ff]> (fs_files s) -> fs_inodes s' = <[f_inode ff := set_i_refs (i_refs x + 1) x]> (fs_inodes s) -> fs_pipes s' = fs_pipes s ->
  (forall m, links s' m = links s m) -> held s' ext.
Proof.
  intros HH Hb Hf0 Hr Hx Hnp EF EI EP EL. set (n := f_inode ff) in *. destruct (h_fresh _ _ HH f) as [Hf _]; [lia|]. pose proof (opens_new s s' f ff) as Ho. pose proof (open_ends_new s s' f ff) as Hoe.
  assert (forall m, is_Some (fs_inodes s !! m) -> is_Some (fs_inodes s' !! m)) as Hlive by (intros m Hm; rewrite EI; destruct (decide (m = n)) as [->|]; [rewrite lookup_insert_eq; eauto|by rewrite lookup_insert_ne]).
  assert (forall m y, fs_inodes s' !! m = Some y -> m = n /\ y = set_i_refs (i_refs x + 1) x \/ m <> n /\ fs_inodes s !! m = Some y) as Hback.
  { intros m y. rewrite EI. intros [[<- <-]|[? ?]]%lookup_insert_Some; [by left|right; split; congruence]. }
  split.
  - intros g gg. rewrite EF. intros [[<- <-]|[Hg Hgg]]%lookup_insert_Some; [split_and!; try done; try lia; apply Hlive; eauto|]. destruct (h_file _ _ HH g gg Hgg) as (? & ? & ?). split_and!; try done; try lia. by apply Hlive.
  - intros m y Hy. rewrite Ho by done. fold n. destruct (Hback m y Hy) as [[-> ->]|[Hm Hy0]].
    + rewrite decide_True by done. simpl. rewrite (h_refs _ _ HH n x Hx). lia.
    + rewrite decide_False by congruence. rewrite (h_refs _ _ HH m y Hy0). lia.
  - intros m. split; [apply HH|]. intros He. apply Hlive. by apply (h_ext _ _ HH m).
  - intros m y Hy Hrel. destruct (Hback m y Hy) as [[-> ->]|[Hm Hy0]]; [apply is_pipe_spec in Hrel; change (is_pipe x = true) in Hrel; congruence|].
    destruct (h_pipe _ _ HH m y Hy0 Hrel) as (k & p & [Hptr Hp Hrd Hwr Hbare Hown]). exists k, p. split; [done|by rewrite EP|..].
    + rewrite Hoe, decide_False by (done || naive_solver). lia.
    + rewrite Hoe, decide_False by (done || naive_solver). lia.
    + by rewrite EL.
    + intros n' x' Hn' Hr' Hp'. destruct (Hback n' x' Hn') as [[-> ->]|[_ Hn0]]; [apply is_pipe_spec in Hr'; change (is_pipe x = true) in Hr'; congruence|by apply (Hown n' x')].
  - intros k Hk. destruct (h_fresh _ _ HH k) as [? ?]; [lia|]. rewrite EF, EP, lookup_insert_ne by lia. done.
Qed.

Lemma held_idle s s' ext : held s ext -> idle s s' -> held s' ext.
Proof.
  intros HH (EI & ED & EF & EP & EM & _ & _ & _ & _ & EB). assert (forall n, opens s' n = opens s n) as Eo by (intros n; unfold opens; by rewrite EF).
  assert (forall b n, open_ends s' b n = open_ends s b n) as Ee by (intros b n; unfold open_ends; by rewrite EF). assert (forall n, links s' n = links s n) as EL by (intros n; unfold links; by rewrite ED, EM).
  split; rewrite ?EI, ?EF, ?EP; try apply HH.
  - intros n x Hx. rewrite Eo. by apply HH.
  - intros n x Hx Hr. destruct (h_pipe _ _ HH n x Hx Hr) as (k & p & []). exists k, p. split; rewrite ?EP, ?Ee, ?EL, ?EI; done.
  - intros k Hk. apply HH. lia.
Qed.

Lemma file_alloc_ok s K ext n x flags :
  tree s K -> held s ext -> room s ext -> fs_inodes s !! n = Some x -> is_pipe x = false ->
  wp (file_alloc n flags) (fun f s' => tree s' K /\ held s' ext /\ (f = 0 /\ idle s s' \/ f <> 0 /\ fs_files s !! f = None
    /\ fs_files s' = <[f := MkFile n None 0 flags 1]> (fs_files s) /\ fs_inodes s' = <[n := set_i_refs (i_refs x + 1) x]> (fs_inodes s) /\ around s s')) s.
Proof.
  intros HT HH Hroom Hx Hnp. destruct (t_null _ _ HT) as [_ Hb]. unfold file_alloc. wp_step. apply wp_alloc; [done| |]; intros s1 Hi.
  { rewrite Z.eqb_refl. wp_steps. split_and!; [eapply tree_calm; [done|by apply idle_calm]|by eapply held_idle|by left]. }
  intros Hb1. pose proof Hi as (EI & ED & EF & EP & EM & ER & EN & EC & _ & EB). set (f := fs_block s) in *. rewrite (proj2 (Z.eqb_neq f 0)) by lia.
  unfold fput_at. wp_step. wp_step. wp_step. eapply wp_iset; [simpl; rewrite EI; exact Hx|]. pose proof (h_refs _ _ HH n x Hx) as Hrefs. pose proof (Hroom n) as Hrm.
  assert (0 <= opens s n) by (unfold opens; lia). pose proof (proj1 (h_ext _ _ HH n)). rewrite u32_small by lia. wp_step. set (s2 := set_fs_inodes _ _).
  assert (fs_files s2 = <[f := MkFile n None 0 flags 1]> (fs_files s)) as EF2 by (simpl; by rewrite EF). assert (fs_inodes s2 = <[n := set_i_refs (i_refs x + 1) x]> (fs_inodes s)) as EI2 by (simpl; by rewrite EI).
  destruct (h_fresh _ _ HH f) as [Hff _]; [lia|].
  split_and!; [apply (tree_calm s s2 K HT); split_and!; [rewrite EI2, fmap_insert; apply insert_id; by rewrite lookup_fmap, Hx|done|done|simpl; lia]| |].
  - apply (held_open s s2 ext f (MkFile n None 0 flags 1) x); try done; try (simpl; lia). intros m. unfold links. simpl. by rewrite ED, EM.
  - right. split_and!; try done; lia.
Qed.

(** ** Pipes *)

(** A new inode that is no directory and has no name. *)
Lemma tree_new_inode s s' K n x :
  tree s K -> fs_inodes s !! n = None -> n <> 0 -> n < fs_block s' -> fs_inodes s' = <[n := x]> (fs_inodes s) -> is_dir x = false -> i_create x = None -> i_destroy x = None ->
  around s s' -> tree s' K.
Proof.
  intros HT Hn Hn0 Hnb EI Hd Hc Hds (ED & EM & _ & EB). assert (forall k, links s' k = links s k) as EL by (intros k; unfold links; by rewrite ED, EM).
  assert (forall k y, fs_inodes s !! k = Some y -> fs_inodes s' !! k = Some y) as Hkeep by (intros k y Hy; rewrite EI, lookup_insert_ne; [done|]; intros ->; congruence).
  assert (forall k y, fs_inodes s' !! k = Some y -> k = n /\ y = x \/ fs_inodes s !! k = Some y) as Hback by (intros k y; rewrite EI; intros [[<- <-]|[? ?]]%lookup_insert_Some; auto).
  split; rewrite ?ED; try apply HT.
  - intros d dd Hdd. destruct (t_node _ _ HT d dd Hdd) as (y & Hy & Hok). eauto.
  - intros k y [[-> ->]|Hy]%Hback Hyd; [congruence|]. unfold mountpoint_at. rewrite EM. by eapply (t_dir _ _ HT).
  - intros k y [[-> ->]|Hy]%Hback; [by left|]. by eapply (t_create _ _ HT).
  - intros k y [[-> ->]|Hy]%Hback Hor; [|rewrite EL; by eapply (t_links _ _ HT)]. rewrite Hds, (unnamed s K HT n Hn) in Hor. by destruct Hor.
  - destruct (t_null _ _ HT). split; [rewrite EI; by rewrite lookup_insert_ne|lia].
  - intros k Hk. destruct (t_fresh _ _ HT k) as [? ?]; [lia|]. split; [done|]. rewrite EI, lookup_insert_ne by lia. done.
  - unfold mountpoint_at. rewrite EM. apply HT.
  - intros q c dq y Hc' Hq [[E ->]|Hy]%Hback; [|by eapply (t_leaf _ _ HT)]. destruct (t_node _ _ HT q dq Hq) as (z & Hz & _). congruence.
  - rewrite EM. intros m Hm. destruct (t_mounts _ _ HT m Hm) as [(z & Hz & Hzd) Hdev Htop Hcov Hheld]. split; rewrite ?ED, ?EM, ?EL; [eauto| |done| |done].
    + intros d dd dp x1 y1 Hdd Er Hdp [[E _]|Hx1]%Hback [[E' _]|Hy1]%Hback; try congruence; [destruct (t_node _ _ HT _ dp Hdp) as (? & ? & _); congruence|]. by apply (Hdev d dd dp).
    + destruct Hcov as [?|[y Hy]]; [by left|right; eauto].
Qed.

Lemma held_pipe s s' K ext n k rd wr x p :
  tree s K -> held s ext -> (forall a, a = n \/ a = k \/ a = rd \/ a = wr -> fs_block s <= a < fs_block s' /\ a <> 0) -> rd <> wr ->
  fs_inodes s' = <[n := x]> (fs_inodes s) -> i_refs x = 2 -> i_release x = Some DPipe -> i_ptr x = PDriver k -> i_destroy x = None ->
  fs_pipes s' = <[k := p]> (fs_pipes s) -> readers p = 1 -> writers p = 1 ->
  fs_files s' = <[wr := MkFile n None 0 O_WRONLY 1]> (<[rd := MkFile n None 0 O_RDONLY 1]> (fs_files s)) -> around s s' -> held s' ext.
Proof.
  intros HT HH Hnew Hne EI Hxr Hxrel Hxp Hxd EP Hrd Hwr EF (ED & EM & _ & EB). assert (forall a, links s' a = links s a) as EL by (intros a; unfold links; by rewrite ED, EM).
  destruct (Hnew n) as [Hnb Hn0]; [auto|]. destruct (Hnew k) as [Hkb _]; [auto|]. destruct (Hnew rd) as [Hrb Hr0]; [auto|]. destruct (Hnew wr) as [Hwb Hw0]; [auto|].
  destruct (t_fresh _ _ HT n) as [_ Hn]; [lia|]. destruct (h_fresh _ _ HH rd) as [Hfr _]; [lia|]. destruct (h_fresh _ _ HH wr) as [Hfw _]; [lia|]. destruct (h_fresh _ _ HH k) as [_ Hpk]; [lia|].
  assert (ext n = 0) as Hext by (destruct (decide (ext n = 0)) as [|He]; [done|]; destruct (proj2 (h_ext _ _ HH n) He); congruence).
  assert (opens s n = 0) as Hop0.
  { unfold opens. destruct (naming (f_inode <$> fs_files s) n) eqn:E; [done|]. exfalso. assert (filter (fun kv : Z * Z => kv.2 = n) (f_inode <$> fs_files s) <> ∅) as He by (unfold naming in E; intros E0; rewrite E0, map_size_empty in E; done).
    apply map_choose in He as (f & m & [Hf Hm]%map_lookup_filter_Some). simpl in Hm. subst m. apply lookup_fmap_Some in Hf as (ff & Em & Hff). destruct (h_file _ _ HH f ff Hff) as (_ & _ & [y Hy]). congruence. }
  assert (forall m, opens s' m = opens s m + if decide (n = m) then 2 else 0) as Ho.
  { intros m. unfold opens. rewrite EF, !opens_insert by (rewrite ?lookup_insert_ne; done). simpl. case_decide; lia. }
  assert (forall b m, open_ends s' b m = open_ends s b m + if decide (n = m) then 1 else 0) as He.
  { intros b m. unfold open_ends. rewrite EF, !ends_insert by (rewrite ?lookup_insert_ne; done). unfold reads. simpl. destruct b; repeat case_decide; naive_solver lia. }
  assert (forall b, open_ends s b n = 0) as Hoe0 by (intros b; pose proof (open_ends_sum s n); unfold open_ends in *; destruct b; lia).
  assert (forall m y, fs_inodes s' !! m = Some y -> m = n /\ y = x \/ m <> n /\ fs_inodes s !! m = Some y) as Hback by (intros m y; rewrite EI; intros [[<- <-]|[? ?]]%lookup_insert_Some; auto).
  assert (forall m, is_Some (fs_inodes s !! m) -> is_Some (fs_inodes s' !! m)) as Hlive by (intros m [y Hy]; rewrite EI, lookup_insert_ne; [eauto|]; intros ->; congruence).
  split.
  - intros g gg. rewrite EF, EI. intros [[<- <-]|[_ [[<- <-]|[_ Hgg]]%lookup_insert_Some]]%lookup_insert_Some; [split_and!; try done; rewrite lookup_insert_eq; eauto..|].
    destruct (h_file _ _ HH g gg Hgg) as (? & ? & ?). rewrite <- EI. split_and!; try done; try lia. by apply Hlive.
  - intros m y Hy. rewrite Ho. destruct (Hback m y Hy) as [[-> ->]|[Hm Hy0]]; [rewrite decide_True by done; lia|]. rewrite decide_False by congruence. rewrite (h_refs _ _ HH m y Hy0). lia.
  - intros m. split; [apply HH|]. intros Hem. by apply Hlive, (h_ext _ _ HH m).
  - intros m y Hy Hr. destruct (Hback m y Hy) as [[-> ->]|[Hm Hy0]].
    + exists k, p. split; [done|by rewrite EP, lookup_insert_eq|rewrite He, Hoe0, decide_True by done; lia|rewrite He, Hoe0, decide_True by done; lia| |].
      * rewrite EL. split_and!; try done. by apply (fresh_unlinked s K HT).
      * intros n' x' [[-> _]|[_ Hn']]%Hback Hr' Hp'; [done|]. destruct (h_pipe _ _ HH n' x' Hn' Hr') as (k' & p' & [E1 E2 _ _ _ _]). congruence.
    + destruct (h_pipe _ _ HH m y Hy0 Hr) as (k' & p' & [Hptr Hp Hrd' Hwr' Hbare Hown]). exists k', p'. assert (k' <> k) as Hkk by congruence.
      split; [done|by rewrite EP, lookup_insert_ne|rewrite He, decide_False by congruence; lia|rewrite He, decide_False by congruence; lia|by rewrite EL|].
      intros n' x' [[-> ->]|[_ Hn']]%Hback Hr' Hp'; [congruence|by apply (Hown n' x')].
  - intros j Hj. destruct (h_fresh _ _ HH j) as [? ?]; [lia|]. rewrite EF, EP, !lookup_insert_ne by lia. done.
Qed.

Definition elsewhere (s s' : fs) : Prop :=
  fs_dentries s' = fs_dentries s /\ fs_mounts s' = fs_mounts s /\ fs_root s' = fs_root s /\ fs_now s' = fs_now s /\ fs_cur s' = fs_cur s /\ fs_woken s' = fs_woken s /\ fs_block s <= fs_block s'.

#[global] Instance elsewhere_preorder : PreOrder elsewhere.
Proof. split; [intros s; by split_and!|]. intros s1 s2 s3 H1 H2. unfold elsewhere in *. destruct_and!. split_and!; congruence || lia. Qed.

Lemma idle_elsewhere s s' : idle s s' <-> fs_inodes s' = fs_inodes s /\ fs_files s' = fs_files s /\ fs_pipes s' = fs_pipes s /\ elsewhere s s'.
Proof. unfold idle, aside, elsewhere. naive_solver. Qed.

Lemma file_alloc_raw s n x flags (Q : Z -> fs -> Prop) :
  0 < fs_block s -> fs_inodes s !! n = Some x -> (forall s', idle s s' -> Q 0 s') ->
  (forall s', fs_files s' = <[fs_block s := MkFile n None 0 flags 1]> (fs_files s) -> fs_inodes s' = <[n := set_i_refs (u32 (i_refs x + 1)) x]> (fs_inodes s) ->
    fs_pipes s' = fs_pipes s -> elsewhere s s' -> fs_block s' = fs_block s + 1 -> Q (fs_block s) s') -> wp (file_alloc n flags) Q s.
Proof.
  intros Hb Hx HQ0 HQ1. unfold file_alloc. wp_step. apply wp_alloc; [done| |]; intros s1 Hi; [rewrite Z.eqb_refl; wp_steps; by apply HQ0|]. intros Hb1.
  rewrite (proj2 (Z.eqb_neq _ _)) by lia. apply idle_elsewhere in Hi as (EI & EF & EP & HE). unfold fput_at. wp_step. wp_step. wp_step. eapply wp_iset; [simpl; rewrite EI; exact Hx|]. wp_step.
  apply HQ1; simpl; [by rewrite EF|by rewrite EI|done|exact HE|done].
Qed.

Lemma new_pipe_ok : let p := set_readers 1 (set_writers 1 empty_pipe) in contents p = [] /\ pipe_inv p.
Proof.
  split; [done|]. split; [exact (length_replicate (Z.to_nat PIPE_SIZE) 0)|..]; unfold PIPE_SIZE; cbn [head len readers writers set_readers set_writers empty_pipe]; lia.
Qed.

#[local] Opaque empty_pipe.

(** Giving everything back. *)
Lemma pipe_undo s s1 n k y q (Q : Z + Z * Z -> fs -> Prop) :
  fs_inodes s !! n = None -> fs_pipes s !! k = None -> fs_inodes s1 = <[n := y]> (fs_inodes s) -> fs_pipes s1 = <[k := q]> (fs_pipes s) -> fs_files s1 = fs_files s -> elsewhere s s1 ->
  (forall s', idle s s' -> Q (inl (- ENOMEM)) s') -> wp (_ ← pfree k; _ ← ifree n; mret (inl (- ENOMEM))) Q s1.
Proof.
  intros Hn Hk EI EP EF HE HQ. unfold pfree, ifree. wp_steps. apply HQ, idle_elsewhere. simpl. rewrite EI, EP, !delete_insert_id by done. done.
Qed.

Lemma pipe_create_ok s K ext :
  tree s K -> held s ext ->
  wp pipe_create (fun r s' => tree s' K /\ held s' ext /\ match r with
    | inl e => e = - ENOMEM /\ idle s s'
    | inr (rd, wr) => exists n k x p, fs_inodes s !! n = None /\ fs_files s !! rd = None /\ fs_files s !! wr = None /\ rd <> wr
        /\ fs_files s' = <[wr := MkFile n None 0 O_WRONLY 1]> (<[rd := MkFile n None 0 O_RDONLY 1]> (fs_files s))
        /\ fs_inodes s' = <[n := x]> (fs_inodes s) /\ pipe_held s' ext n x k p /\ contents p = [] /\ pipe_inv p /\ around s s' end) s.
Proof.
  intros HT HH. destruct (t_null _ _ HT) as [_ Hb].
  assert (forall s', idle s s' -> tree s' K /\ held s' ext /\ - ENOMEM = - ENOMEM /\ idle s s') as Hfail by (intros s' Hi; split_and!; [eapply tree_calm; [done|by apply idle_calm]|by eapply held_idle|done|done..]).
  unfold pipe_create. wp_step. apply wp_alloc; [done| |]; intros s1 Hi1.
  { wp_step. assert (0 < fs_block s1) by (destruct Hi1 as (_ & _ & _ & _ & _ & _ & _ & _ & _ & ?); lia). apply wp_alloc; [done| |]; intros s2 Hi2; [|intros _]; rewrite Z.eqb_refl; cbn [orb]; wp_steps; apply Hfail; by transitivity s1. }
  intros Hb1. set (k := fs_block s) in *. wp_step. apply wp_alloc; [lia| |]; intros s2 Hi2; [rewrite Z.eqb_refl, orb_true_r; wp_steps; apply Hfail; by transitivity s1|]. intros Hb2. set (n := fs_block s1) in *.
  rewrite (proj2 (Z.eqb_neq k 0)), (proj2 (Z.eqb_neq n 0)) by lia. cbn [orb]. assert (idle s s2) as Hi by by transitivity s1. apply idle_elsewhere in Hi as (EI & EF & EP & HE).
  destruct (t_fresh _ _ HT n) as [_ Hn]; [lia|]. destruct (h_fresh _ _ HH k) as [_ Hk]; [lia|].
  wp_step. wp_step. unfold pput_at, iput_at. wp_step. wp_step. wp_step. wp_step. set (x := pipe_inode (fs_now s2) k). set (s3 := set_fs_inodes _ _).
  assert (fs_inodes s3 = <[n := x]> (fs_inodes s)) as EI3 by (simpl; by rewrite EI). assert (fs_pipes s3 = <[k := empty_pipe]> (fs_pipes s)) as EP3 by (simpl; by rewrite EP).
  wp_step. apply (file_alloc_raw s3 n x); [simpl; lia|rewrite EI3; apply lookup_insert_eq| |].
  - intros s4 (EI4 & EF4 & EP4 & HE4)%idle_elsewhere. rewrite EI3 in EI4. rewrite EP3 in EP4. assert (elsewhere s s4) as HE04 by (etransitivity; [exact HE|exact HE4]). change (fs_files s3) with (fs_files s2) in EF4. rewrite EF in EF4.
    wp_step. apply (file_alloc_raw s4 n x); [destruct HE4 as (_ & _ & _ & _ & _ & _ & Hb4); simpl in Hb4; lia|rewrite EI4; apply lookup_insert_eq| |].
    + intros s5 (EI5 & EF5 & EP5 & HE5)%idle_elsewhere. rewrite Z.eqb_refl. cbn [orb negb when]. wp_step. wp_step. wp_step. wp_step.
      rewrite EI4 in EI5. rewrite EP4 in EP5. rewrite EF4 in EF5. eapply (pipe_undo s s5 n k); [done|done|exact EI5|exact EP5|exact EF5|transitivity s4; [exact HE04|exact HE5]|exact Hfail].
    + intros s5 EF5 EI5 EP5 HE5 Hb5. rewrite EI4, insert_insert_eq in EI5. rewrite EP4 in EP5. rewrite Z.eqb_refl. cbn [orb negb when]. wp_step. wp_step. wp_step. apply wp_when; intros Hw.
      * unfold ffree. wp_step. eapply (pipe_undo s _ n k); [done|done|exact EI5|exact EP5| |transitivity s4; [exact HE04|exact HE5]|exact Hfail].
        simpl. rewrite EF5, EF4. apply delete_insert_id. apply (h_fresh _ _ HH). destruct HE4 as (_ & _ & _ & _ & _ & _ & Hb4). simpl in Hb4. lia.
      * apply negb_false_iff, Z.eqb_eq in Hw. destruct HE4 as (_ & _ & _ & _ & _ & _ & Hb4). simpl in Hb4. lia.
  - intros s4 EF4 EI4 EP4 HE4 Hb4. simpl in Hb4. set (rd := fs_block s3) in *. change (fs_block s3) with (fs_block s2) in rd. rewrite EI3, insert_insert_eq in EI4. rewrite EP3 in EP4. change (fs_files s3) with (fs_files s2) in EF4. rewrite EF in EF4.
    assert (elsewhere s s4) as HE04 by (etransitivity; [exact HE|exact HE4]). set (x1 := set_i_refs _ x) in EI4. assert (i_refs x1 = 1) as Hx1 by done. assert (rd <> 0) as Hrd0 by (unfold rd; lia).
    wp_step. apply (file_alloc_raw s4 n x1); [lia|rewrite EI4; apply lookup_insert_eq| |].
    + intros s5 (EI5 & EF5 & EP5 & HE5)%idle_elsewhere. rewrite Z.eqb_refl, orb_true_r, (proj2 (Z.eqb_neq rd 0)) by done. cbn [negb when]. unfold ffree. wp_step. wp_step. wp_step. wp_step.
      rewrite EI4 in EI5. rewrite EP4 in EP5. eapply (pipe_undo s _ n k); [done|done|exact EI5|exact EP5| |transitivity s4; [exact HE04|exact HE5]|exact Hfail].
      simpl. rewrite EF5, EF4. apply delete_insert_id. apply (h_fresh _ _ HH). unfold rd. lia.
    + intros s5 EF5 EI5 EP5 HE5 Hb5. set (wr := fs_block s4) in *. rewrite EI4, insert_insert_eq in EI5. set (x2 := set_i_refs _ x1) in EI5. rewrite EF4 in EF5. rewrite EP4 in EP5.
      assert (rd <> wr /\ wr <> 0) as [Hrw Hw0] by (unfold rd, wr; lia). rewrite (proj2 (Z.eqb_neq rd 0)), (proj2 (Z.eqb_neq wr 0)) by done. cbn [orb]. wp_step. wp_step. wp_step.
      set (p := set_readers 1 (set_writers 1 empty_pipe)). set (s6 := set_fs_pipes _ s5). assert (fs_pipes s6 = <[k := p]> (fs_pipes s)) as EP6 by (simpl; by rewrite EP5, insert_insert_eq).
      assert (elsewhere s s6) as HE6 by (transitivity s4; [exact HE04|exact HE5]). assert (around s s6) as HA by (destruct HE6 as (? & ? & ? & ? & ? & _ & ?); by split_and!).
      assert (held s6 ext) as HH6.
      { apply (held_pipe s s6 K ext n k rd wr x2 p); try done. intros a Ha. unfold rd, wr in *. destruct Ha as [-> | [-> | [-> | ->]]]; (split; [simpl; lia|lia]). }
      split_and!; [apply (tree_new_inode s s6 K n x2); try done; [lia|simpl; unfold wr in *; lia]|done|].
      destruct (h_pipe _ _ HH6 n x2) as (k' & p' & Hph); [simpl; rewrite EI5; apply lookup_insert_eq|done|]. assert (k' = k) as -> by (pose proof (ph_ptr _ _ _ _ _ _ Hph) as E; by injection E).
      assert (p' = p) as -> by (pose proof (ph_pipe _ _ _ _ _ _ Hph) as E; rewrite EP6, lookup_insert_eq in E; by injection E).
      exists n, k, x2, p. split_and!; try done; [apply (h_fresh _ _ HH); unfold rd; lia|apply (h_fresh _ _ HH); unfold wr; lia|apply new_pipe_ok..].
Qed.

(** ** Other holders *)

Definition bump (ext : Z -> Z) (n d : Z) : Z -> Z := fun m => if decide (m = n) then ext m + d else ext m.

Lemma held_other s s' ext n x d :
  held s ext -> fs_inodes s !! n = Some x -> is_pipe x = false -> 0 <= ext n + d -> fs_files s' = fs_files s -> fs_pipes s' = fs_pipes s ->
  (forall m, links s' m = links s m) -> fs_block s <= fs_block s' -> (forall m, m <> n -> fs_inodes s' !! m = fs_inodes s !! m) ->
  fs_inodes s' !! n = None /\ opens s n + ext n + d = 0 \/ fs_inodes s' !! n = Some (set_i_refs (i_refs x + d) x) -> held s' (bump ext n d).
Proof.
  intros HH Hx Hnp Hd EF EP EL EB HIo HIn. assert (forall m, opens s' m = opens s m) as Eo by (intros m; unfold opens; by rewrite EF).
  assert (forall b m, open_ends s' b m = open_ends s b m) as Ee by (intros b m; unfold open_ends; by rewrite EF).
  assert (forall m y, fs_inodes s' !! m = Some y -> m <> n /\ fs_inodes s !! m = Some y \/ m = n /\ y = set_i_refs (i_refs x + d) x) as Hback.
  { intros m y Hy. destruct (decide (m = n)) as [->|Hm]; [right; split; [done|]; destruct HIn as [[? _]|?]; congruence|left; split; [done|by rewrite <- HIo]]. }
  assert (forall m, m <> n -> bump ext n d m = ext m) as Hb by (intros m Hm; unfold bump; by rewrite decide_False). assert (bump ext n d n = ext n + d) as Hbn by (unfold bump; by rewrite decide_True).
  assert (0 <= opens s n) as Hopn by (unfold opens; lia). split; rewrite ?EF.
  - intros f ff Hf. destruct (h_file _ _ HH f ff Hf) as (Hf0 & Hr & Hl). split_and!; try done; try lia. destruct (decide (f_inode ff = n)) as [E|Hm]; [|by rewrite HIo].
    rewrite E. destruct HIn as [[_ H0]|H1]; [|eauto]. pose proof (opens_pos s f ff Hf) as Hp. rewrite E in Hp. lia.
  - intros m y Hy. rewrite Eo. destruct (Hback m y Hy) as [[Hm Hy0]|[-> ->]]; [rewrite Hb by done; by apply HH|]. rewrite Hbn. simpl. rewrite (h_refs _ _ HH n x Hx). lia.
  - intros m. destruct (decide (m = n)) as [->|Hm]; [rewrite Hbn|rewrite Hb, HIo by done; apply HH]. split; [lia|]. intros He. destruct HIn as [[_ H0]|H1]; [lia|eauto].
  - intros m y Hy Hr. destruct (Hback m y Hy) as [[Hm Hy0]|[-> ->]]; [|apply is_pipe_spec in Hr; change (is_pipe x = true) in Hr; congruence].
    destruct (h_pipe _ _ HH m y Hy0 Hr) as (k & p & [Hptr Hp Hrd Hwr Hbare Hown]). exists k, p. split; rewrite ?EP, ?Ee, ?EL, ?Hb by done; try done.
    intros n' x' Hn' Hr' Hp'. destruct (Hback n' x' Hn') as [[_ Hn0]|[-> ->]]; [by apply (Hown n' x')|]. apply is_pipe_spec in Hr'. change (is_pipe x = true) in Hr'. congruence.
  - intros k Hk. rewrite EP. apply HH. lia.
Qed.

(** ** All together *)

Section Holders.
  Context `{DR : Drivers}.

(** Descriptions opened, shared and closed, pipes made, and directories held
    as a cwd. *)
Inductive hold_op := HOpen (n flags : Z) | HDup (f : Z) | HClose (f : Z) | HPipe | HGet (n : Z) | HPut (n : Z).

Definition run_hold (op : hold_op) : M fs unit :=
  match op with
  | HOpen n flags => _ ← file_alloc n flags; mret tt
  | HDup f => _ ← file_get f; mret tt
  | HClose f => file_put f
  | HPipe => _ ← pipe_create; mret tt
  | HGet n => vfs_iget n
  | HPut n => vfs_iput n
  end.

(** An inode of a file system or a pipe: sockets are not covered. *)
Definition plain (x : inode) : Prop := (i_release x = None \/ i_release x = Some DPipe) /\ (i_destroy x = None \/ i_destroy x = Some DRamfs).

Definition hold_ok (s : fs) (ext : Z -> Z) (op : hold_op) : Prop :=
  match op with
  | HOpen n _ | HGet n => exists x, fs_inodes s !! n = Some x /\ is_pipe x = false
  | HDup f => exists ff, fs_files s !! f = Some ff /\ f_refs ff < 2 ^ 32 - 1
  | HClose f => f = 0 \/ exists ff x, fs_files s !! f = Some ff /\ fs_inodes s !! f_inode ff = Some x /\ plain x
  | HPipe => True
  | HPut n => 0 < ext n /\ exists x, fs_inodes s !! n = Some x /\ is_pipe x = false /\ plain x
  end.

Definition holders (ext : Z -> Z) (op : hold_op) : Z -> Z := match op with HGet n => bump ext n 1 | HPut n => bump ext n (-1) | _ => ext end.

Lemma run_hold_ok s ext op : sound s -> few s -> held s ext -> room s ext -> hold_ok s ext op -> wp (run_hold op) (fun _ s' => sound s' /\ held s' (holders ext op)) s.
Proof.
  intros [K HT] Hfew HH Hroom Hop. destruct op as [n flags|f|f| |n|n]; cbn [run_hold hold_ok holders] in *.
  - destruct Hop as (x & Hx & Hnp). wp_step. eapply wp_mono; [by apply (file_alloc_ok s K ext n x)|]. intros f s' (HT' & HH' & _). wp_step. split; [by exists K|done].
  - destruct Hop as (ff & Hf & Hr). destruct (h_file _ _ HH f ff Hf) as (_ & Hr0 & _). wp_step. unfold file_get. wp_step. eapply wp_fset; [done|]. rewrite u32_small by lia. wp_steps.
    split; [exists K; apply (tree_calm s _ K HT); by split_and!|]. eapply held_refs; [exact HH|exact Hf| |done]. lia.
  - destruct Hop as [->|(ff & x & Hf & Hx & Hrel & Hds)]; [unfold file_put; wp_steps; split; [by exists K|done]|].
    eapply wp_mono; [by apply (file_put_ok s K ext f ff x)|]. intros [] s' (HT' & HH' & _). split; [by exists K|done].
  - wp_step. eapply wp_mono; [by apply (pipe_create_ok s K ext)|]. intros r s' (HT' & HH' & _). wp_step. split; [by exists K|done].
  - destruct Hop as (x & Hx & Hnp). eapply wp_mono; [by apply (vfs_iget_ok s K n x)|]. intros [] s' (HT' & EI & ED & (EF & EP & EM & _ & _ & _ & _ & EB)). split; [by exists K|].
    pose proof (h_refs _ _ HH n x Hx) as Hrefs. pose proof (Hroom n) as Hrm. pose proof (proj1 (h_ext _ _ HH n)) as He. assert (0 <= opens s n) by (unfold opens; lia). rewrite u32_small in EI by lia.
    apply (held_other s s' ext n x 1); try done; [lia|intros m; unfold links; by rewrite ED, EM|intros m Hm; by rewrite EI, lookup_insert_ne|right; rewrite EI; apply lookup_insert_eq].
  - destruct Hop as (He0 & x & Hx & Hnp & Hrel & Hds). pose proof (h_refs _ _ HH n x Hx) as Hrefs. pose proof (Hroom n) as Hrm. assert (0 <= opens s n) by (unfold opens; lia).
    eapply wp_mono; [apply (vfs_iput_ok s K n x); try done; lia|]. intros [] s' (HT' & EI & ED & (EF & EP & EM & _ & _ & _ & _ & EB)). split; [by exists K|].
    apply (held_other s s' ext n x (-1)); try done; [lia|intros m; unfold links; by rewrite ED, EM|..].
    + intros m Hm. rewrite EI. unfold put_inodes. case_decide; [by rewrite lookup_delete_ne|by rewrite lookup_insert_ne].
    + rewrite EI. unfold put_inodes. case_decide as Hc; [left; rewrite lookup_delete_eq; split; [done|lia]|right; apply lookup_insert_eq].
Qed.

Inductive hold_step : fs * (Z -> Z) -> fs * (Z -> Z) -> Prop :=
| HStep s ext op s' : hold_ok s ext op -> few s -> room s ext -> run_hold op s = Some (tt, s') -> hold_step (s, ext) (s', holders ext op).

Definition counted (st : fs * (Z -> Z)) : Prop := sound st.1 /\ held st.1 st.2.

Lemma hold_steps st st' : rtc hold_step st st' -> counted st -> counted st'.
Proof.
  induction 1 as [|st1 st2 st3 [s ext op s' Hok Hfew Hroom Hrun] _ IH]; [done|]. intros [Hs HH]. apply IH. pose proof (run_hold_ok s ext op Hs Hfew HH Hroom Hok) as H.
  unfold wp in H. rewrite Hrun in H. exact H.
Qed.

(** C7: however descriptions are opened, shared and closed, pipes made and
    directories held, reference counts stay true, so no description ever
    refers to a freed inode, and every such call returns. *)
Theorem references_stay_true st st' op :
  counted st -> rtc hold_step st st' -> few st'.1 -> room st'.1 st'.2 -> hold_ok st'.1 st'.2 op ->
  counted st' /\ (forall f ff, fs_files st'.1 !! f = Some ff -> is_Some (fs_inodes st'.1 !! f_inode ff))
  /\ exists s'', run_hold op st'.1 = Some (tt, s'') /\ counted (s'', holders st'.2 op).
Proof.
  intros Hc Hst Hfew Hroom Hok. pose proof (hold_steps st st' Hst Hc) as [Hs HH]. split; [by split|]. split; [intros f ff Hf; by apply (h_file _ _ HH f ff Hf)|].
  destruct (wp_run _ _ _ (run_hold_ok st'.1 st'.2 op Hs Hfew HH Hroom Hok)) as ([] & s'' & Hr & H). by exists s''.
Qed.

(** the last close of a description frees the inode when nothing else holds
    it and no name leads to it (a pipe has none), and only then; another
    close only counts. *)
Theorem file_put_correct s K ext f ff x :
  tree s K -> few s -> held s ext -> room s ext -> fs_files s !! f = Some ff -> fs_inodes s !! f_inode ff = Some x -> plain x ->
  wp (file_put f) (fun _ s' => tree s' K /\ held s' ext /\ around s s' /\
    if decide (f_refs ff = 1) then fs_files s' = delete f (fs_files s) /\ fs_inodes s' = closed_inodes s ext (f_inode ff) x
    else fs_files s' = <[f := set_f_refs (f_refs ff - 1) ff]> (fs_files s) /\ fs_inodes s' = fs_inodes s) s.
Proof. intros HT Hfew HH Hroom Hf Hx [Hrel Hds]. by apply file_put_ok. Qed.
End Holders.

(** ** The small file system, with /a open *)

Definition names3 : fs := set_fs_files {[8 := MkFile 3 None 0 O_RDONLY 1]} names1.
Definition nobody : Z -> Z := fun _ => 0.

Lemma names3_tree : tree names3 kids1.
Proof. apply (tree_calm names1 names3 kids1 names1_tree). by split_and!. Qed.

Lemma names3_held : held names3 nobody.
Proof.
  split.
  - intros f ff Hf. simpl in Hf. each Hf. split_and!; [done..|by exists a1].
  - intros n x Hn. simpl in Hn. each Hn; by vm_compute.
  - intros n. split; [done|]. by unfold nobody.
  - intros n x Hn. simpl in Hn. each Hn; done.
  - intros k Hk. simpl in Hk. split; [|done]. simpl. apply lookup_singleton_None. lia.
Qed.

Lemma names3_room : room names3 nobody.
Proof. intros n. unfold opens, nobody. pose proof (naming_size (f_inode <$> fs_files names3) n) as H. simpl in H |- *. rewrite map_size_fmap, map_size_singleton in H. lia. Qed.

Lemma references_stay_true_witness :
  counted (names3, nobody) /\ (forall f ff, fs_files names3 !! f = Some ff -> is_Some (fs_inodes names3 !! f_inode ff))
  /\ exists s'', run_hold (DR := no_drivers) HPipe names3 = Some (tt, s'') /\ counted (s'', nobody).
Proof.
  apply (references_stay_true (DR := no_drivers) (names3, nobody) (names3, nobody) HPipe); [split; [exists kids1; apply names3_tree|apply names3_held]|apply rtc_refl|by apply few_size; vm_compute|apply names3_room|done].
Defined.

(** Closing keeps /a; closing it once it has been unlinked frees it. *)
Lemma file_put_correct_witness :
  freed_by_close names3 nobody 3 a1 = false /\ freed_by_close (after (OUnlink 1 "a") names3) nobody 3 a1 = true
  /\ wp (file_put (DR := no_drivers) 8) (fun _ s' => tree s' kids1 /\ held s' nobody /\ around names3 s' /\
    if decide (1 = 1) then fs_files s' = delete 8 (fs_files names3) /\ fs_inodes s' = closed_inodes names3 nobody 3 a1
    else fs_files s' = <[8 := MkFile 3 None 0 O_RDONLY 0]> (fs_files names3) /\ fs_inodes s' = fs_inodes names3) names3.
Proof.
  split; [by vm_compute|]. split; [by vm_compute|].
  apply (file_put_correct (DR := no_drivers) names3 kids1 nobody 8 (MkFile 3 None 0 O_RDONLY 1) a1);
    [apply names3_tree|by apply few_size; vm_compute|apply names3_held|apply names3_room|done|done|split; [by left|by right]].
Defined.

(** ** What an open was allowed *)

(** The running process is granted [mask] on [x]; the kernel itself always is. *)
Definition allowed (s : fs) (x : inode) (mask : Z) : Prop :=
  match fs_cur s with Some p => granted p x mask (euid p) (egid p) | None => True end.

(** Opening [x] with [flags] is in order for the process that runs in [s]. *)
Record may_open (s : fs) (x : inode) (flags : Z) (created : bool) : Prop := {
  mo_socket : itype x <> VFS_SOCKET;
  mo_directory : has flags O_DIRECTORY = true -> is_dir x = true;
  mo_read_only : is_dir x = true -> Z.land flags O_ACCMODE = O_RDONLY;
  mo_rofs : Z.land flags O_ACCMODE <> O_RDONLY \/ has flags O_TRUNC = true -> rofs s x = false \/ itype x = VFS_CHARDEVICE \/ itype x = VFS_PIPE;
  mo_reading : created = false -> Z.land flags O_ACCMODE <> O_WRONLY -> allowed s x MAY_READ;
  mo_writing : created = false -> Z.land flags O_ACCMODE <> O_RDONLY \/ has flags O_TRUNC = true -> allowed s x MAY_WRITE;
}.

(** The permission asked for covers reading and writing as the flags want it. *)
Lemma permission_allows s x flags :
  0 <= cred_permission (fs_cur s) x (open_mask flags) ->
  (Z.land flags O_ACCMODE <> O_WRONLY -> allowed s x MAY_READ)
  /\ (Z.land flags O_ACCMODE <> O_RDONLY \/ has flags O_TRUNC = true -> allowed s x MAY_WRITE).
Proof.
  unfold allowed, cred_permission. destruct (fs_cur s) as [p|]; [|done]. intros H0.
  assert (check (Some p) x (open_mask flags) false = 0) as Hc by (revert H0; unfold check; repeat case_match; done).
  apply check_spec in Hc; [|unfold open_mask; repeat case_match; by vm_compute]. unfold granted in *. destruct (euid p =? 0); [done|].
  unfold open_mask in Hc. split; intros Hf i Hi Hb.
  - assert (i = 2) as -> by (assert (i = 0 \/ i = 1 \/ i = 2) as [-> |[-> | ->]] by lia; done).
    apply Hc; [done|]. rewrite (proj2 (Z.eqb_neq _ _) Hf). by destruct (negb (Z.land flags O_ACCMODE =? O_RDONLY) || has flags O_TRUNC).
  - assert (i = 1) as -> by (assert (i = 0 \/ i = 1 \/ i = 2) as [-> |[-> | ->]] by lia; done).
    apply Hc; [done|]. replace (negb _ || _) with true; [by destruct (Z.land flags O_ACCMODE =? O_WRONLY)|].
    destruct (Z.eqb_spec (Z.land flags O_ACCMODE) O_RDONLY); [|done]. by destruct Hf as [?| ->].
Qed.

Lemma open_check_ok s K node x flags created :
  tree s K -> fs_inodes s !! node = Some x -> wp (open_check node flags created) (fun e s' => s' = s /\ (e < 0 \/ e = 0 /\ may_open s x flags created)) s.
Proof.
  intros HT Hx. unfold open_check. wp_step. eapply wp_ino; [done|]. cbv zeta. destruct (Z.eqb_spec (itype x) VFS_SOCKET) as [|Hsock]; [wp_steps; split; [done|by left]|].
  destruct (has flags O_DIRECTORY && negb (is_dir x)) eqn:Hdir; [wp_steps; split; [done|by left]|].
  destruct (is_dir x && negb (Z.land flags O_ACCMODE =? O_RDONLY)) eqn:Hrd; [wp_steps; split; [done|by left]|]. wp_step.
  eapply (wp_mono _ (fun ro s' => s' = s /\ (Z.land flags O_ACCMODE <> O_RDONLY \/ has flags O_TRUNC = true -> ro = rofs s x))).
  { destruct (negb (Z.land flags O_ACCMODE =? O_RDONLY) || has flags O_TRUNC) eqn:Hw; [eapply wp_vfs_readonly; done|]. wp_step. split; [done|]. apply orb_false_iff in Hw as [Hw1%negb_false_iff%Z.eqb_eq Hw2]. intros [?|?]; congruence. }
  intros ro s' [-> Hro]. destruct (ro && negb (itype x =? VFS_CHARDEVICE) && negb (itype x =? VFS_PIPE)) eqn:Her; [wp_steps; split; [done|by left]|]. wp_step. wp_step.
  assert (0 <= (if created then 0 else cred_permission (fs_cur s) x (open_mask flags)) -> may_open s x flags created) as Hok.
  { intros Hp. split; [done| | | |intros ->; by apply permission_allows|intros ->; by apply permission_allows].
    - intros E. rewrite E in Hdir. by destruct (is_dir x).
    - intros E. rewrite E in Hrd. by apply negb_false_iff, Z.eqb_eq in Hrd.
    - intros E. rewrite <- (Hro E). destruct ro; [right|by left]. cbn [andb] in Her. destruct (Z.eqb_spec (itype x) VFS_CHARDEVICE); [by left|]. destruct (Z.eqb_spec (itype x) VFS_PIPE); [by right|done]. }
  destruct created; [wp_steps; split; [done|right; split; [done|by apply Hok]]|]. cbv zeta. wp_step. split; [done|].
  destruct (Z.ltb_spec (cred_permission (fs_cur s) x (open_mask flags)) 0); [by left|right; split; [done|by apply Hok]].
Qed.

(** What a path is resolved to, or created as, is live. *)
Lemma resolve_ok `{DO : DriversOk} s base path flags mode : walkable s -> is_Some (fs_inodes s !! base) ->
  wp (resolve base path flags mode) (fun r s' => walkable s' /\ lives s s' /\ match r with inl e => e < 0 | inr (node, _, _) => is_Some (fs_inodes s' !! node) end) s.
Proof.
  intros Hw Hb. unfold resolve. wp_step. eapply wp_mono; [by apply resolve_dentry_ok|]. intros r s1 (Hw1 & Hl1 & Hr). destruct r as [e|[node d]].
  - destruct (negb (has flags O_CREAT) || negb (e =? - ENOENT)); [by wp_steps|]. wp_step. eapply wp_mono; [apply parent_ok; [done|by apply (proj1 Hl1)]|].
    intros p s2 (Hw2 & Hl2 & Hp). assert (lives s s2) as Hl by by transitivity s1. destruct p as [e'|[dir name]]; [by wp_steps|].
    wp_step. eapply wp_mono; [by apply create_keeps|]. intros c s3 (Hw3 & Hl3 & Hc). assert (lives s s3) as Hl' by by transitivity s2. destruct c as [e'|n]; [by wp_steps|].
    destruct Hc as (dn & x & Hdn & Hx & _). destruct (proj1 Hl3 dir Hp) as [dn' Hdn']. wp_step. eapply child_any; [done|exact Hdn'|]. intros d. wp_step. split_and!; [done|done|eauto].
  - destruct (has flags O_CREAT && has flags O_EXCL); [by wp_steps|]. destruct Hr as [x Hx]. wp_step. eapply wp_ino; [done|]. destruct (is_link x); wp_steps; split_and!; done || eauto.
Qed.

(** Description [f] stays one of the same file, with the same flags. *)
Definition describes (f : Z) (s s' : fs) : Prop :=
  forall ff, fs_files s !! f = Some ff -> exists path, fs_files s' !! f = Some (set_f_path path ff).

#[export] Instance describes_preorder f : PreOrder (describes f).
Proof.
  split; [intros s [] H; by eexists|]. intros s1 s2 s3 H1 H2 ff Hf. destruct (H1 ff Hf) as [p1 E1].
  destruct (H2 _ E1) as [p2 E2]. by exists p2.
Qed.

Lemma files_describe f s s' : fs_files s' = fs_files s -> describes f s s'.
Proof. intros E [] H. rewrite E. by eexists. Qed.

Lemma path_up_describes f fuel d at_ acc : upholds (describes f) (path_up fuel d at_ acc).
Proof. revert d at_ acc. induction fuel; intros d at_ acc; cbn [path_up]; unfold dent; upholding. Qed.
#[local] Hint Resolve path_up_describes : upholds.

Lemma set_path_describes f p : upholds (describes f) (fset f (set_f_path (Some p))).
Proof.
  intros s [] s' H. unfold fset, fil in H. apply bind_run in H as (x & s2 & Hx & [= <-]).
  apply bind_run in Hx as (? & ? & [= <- <-] & Hx). unfold lift in Hx. destruct (fs_files s !! f) as [y|] eqn:Hy; [|done]. injection Hx as <- <-.
  intros ff Hf. simplify_eq. exists (Some p). apply lookup_insert_eq.
Qed.
#[local] Hint Resolve set_path_describes : upholds.

Lemma note_path_describes f d : upholds (describes f) (note_path f d).
Proof. unfold note_path, vfs_dentry_path, k_alloc. upholding; apply upholds_modify; intros; by apply files_describe. Qed.

Lemma file_alloc_describes n flags s f s' :
  file_alloc n flags s = Some (f, s') -> f <> 0 -> fs_files s' !! f = Some (MkFile n None 0 flags 1).
Proof.
  intros H Hf. unfold file_alloc in H. apply bind_run in H as (g & s1 & _ & H). destruct (g =? 0); [by injection H as <-|].
  apply bind_run in H as ([] & s2 & [= <-] & H). apply bind_run in H as ([] & s3 & H & [= -> <-]).
  unfold iset, ino in H. apply bind_run in H as (x & s4 & Hx & [= <-]). apply bind_run in Hx as (? & ? & [= <- <-] & Hx).
  unfold lift in Hx. simpl in Hx. destruct (fs_inodes s1 !! n); [|done]. injection Hx as _ <-. apply lookup_insert_eq.
Qed.

(** C22: file_open gives out a new description, at offset 0 and with the flags
    asked for, and the file it describes is the one that resolving the path
    (or creating it) led to; and it does so only when that file's type and
    mount allow it and, unless it was just created, its rwx bits grant the
    caller reading (but for O_WRONLY) and writing (for O_WRONLY, O_RDWR and
    O_TRUNC). *)
Theorem file_open_allowed `{DO : DriversOk} s base path flags mode f s' :
  walkable s -> is_Some (fs_inodes s !! base) -> file_open base path flags mode s = Some (inr f, s') ->
  exists node d created s1 x note, resolve base path flags mode s = Some (inr (node, d, created), s1)
    /\ fs_inodes s1 !! node = Some x /\ fs_cur s1 = fs_cur s /\ may_open s1 x flags created
    /\ fs_files s' !! f = Some (MkFile node note 0 flags 1).
Proof.
  intros Hw Hb H. unfold file_open in H. apply bind_run in H as (r & s1 & Hres & H). destruct r as [e|[[node d] created]]; [done|].
  pose proof (resolve_ok s base path flags mode Hw Hb) as Hr. unfold wp in Hr. rewrite Hres in Hr. destruct Hr as (([K [HT _]] & _) & EC%lives_cur & x & Hx).
  apply bind_run in H as (e & s2 & Hchk & H).
  pose proof (open_check_ok s1 K node x flags created HT Hx) as Hok. unfold wp in Hok. rewrite Hchk in Hok. destruct Hok as [-> [He|[-> Hok]]].
  { rewrite (proj2 (Z.ltb_lt _ _) He) in H. done. }
  change (0 <? 0) with false in H. apply bind_run in H as (e & s2 & _ & H). destruct (e <? 0); [done|].
  apply bind_run in H as (y & s3 & _ & H). apply bind_run in H as ([] & s4 & _ & H). apply bind_run in H as (g & s5 & Ha & H).
  destruct (Z.eqb_spec g 0) as [|Hg]; [done|]. apply bind_run in H as ([] & s6 & Hn & [= -> ->]).
  destruct (note_path_describes f d _ _ _ Hn _ (file_alloc_describes _ _ _ _ _ Ha Hg)) as [note Hf].
  by exists node, d, created, s1, x, note.
Qed.

Lemma file_open_allowed_witness :
  let s' := match file_open (DR := no_drivers) 5 "/a" O_RDWR 0 names1 with Some (_, s') => s' | None => names1 end in
  exists node d created s1 x note, resolve (DR := no_drivers) 5 "/a" O_RDWR 0 names1 = Some (inr (node, d, created), s1)
    /\ fs_inodes s1 !! node = Some x /\ fs_cur s1 = fs_cur names1 /\ may_open s1 x O_RDWR created
    /\ fs_files s' !! 10 = Some (MkFile node note 0 O_RDWR 1).
Proof.
  apply (file_open_allowed (DO := no_drivers_ok) names1 5 "/a" O_RDWR 0 10 (match file_open (DR := no_drivers) 5 "/a" O_RDWR 0 names1 with Some (_, s') => s' | None => names1 end));
    [apply names1_walkable|by eexists|vm_compute; reflexivity].
Defined.
