(* ===== verification/Clock.v ===== *)
(** * Clocks: hal/clock.c, the divisor of hal/pit.c, syscall/time.c

    The clock is a count of timer ticks and the wall-clock time at tick 0.
    The readings of the real-time clock chip are arguments. The system calls
    act on the clock, the processor time of the caller and its memory; a call
    that sleeps is cut at the sleep, as in [Pipe]. *)
From S2P Require Import Prelude Types UserMem Pipe.

(** ** The tick *)

Definition NS_PER_TICK : Z := 9999849.
Definition NS_PER_SEC : Z := 1000000000.
Notation PIT_BASE_FREQUENCY := 1193182 (only parsing).

(** The reload value pit_init writes. *)
Definition pit_divisor (frequency_hz : Z) : Z :=
  let f := if frequency_hz =? 0 then 100 else frequency_hz in
  let divisor := PIT_BASE_FREQUENCY / f in
  if divisor =? 0 then 1 else if 65535 <? divisor then 65535 else divisor.

(** ** Dates *)

Definition from_bcd (v : Z) : Z := u8 (Z.land v 15 + Z.shiftr v 4 * 10).

(** Days since 1970-01-01; [y] is an int64_t, [m] and [d] unsigned. *)
Definition days_from_civil (y m d : Z) : Z :=
  let y := y - (if m <=? 2 then 1 else 0) in
  let era := Z.quot (if 0 <=? y then y else y - 399) 400 in
  let yoe := u32 (y - era * 400) in
  let doy := u32 (u32 (153 * (if 2 <? m then m - 3 else m + 9) + 2) / 5 + d - 1) in
  let doe := u32 (yoe * 365 + yoe / 4 - yoe / 100 + doy) in
  era * 146097 + doe - 719468.

(** The six registers of the chip: second, minute, hour, day, month, year. *)
Record rtc := MkRtc { r_sec : Z; r_min : Z; r_hour : Z; r_day : Z; r_mon : Z; r_year : Z }.

(** The loop of clock_init: pairs of readings until two agree. *)
Fixpoint read_stable (samples : list (rtc * rtc)) : option rtc :=
  match samples with
  | [] => None
  | (a, b) :: rest =>
      if (r_sec a =? r_sec b) && (r_min a =? r_min b) && (r_hour a =? r_hour b) && (r_day a =? r_day b) && (r_mon a =? r_mon b) && (r_year a =? r_year b)
      then Some a else read_stable rest
  end.

(** Register B says whether values are binary and hours run to 23;
    [century] is the reading of the register ACPI names, if any. *)
Definition decode (fmt : Z) (a : rtc) (century : option Z) : Z * Z * Z * Z * Z * Z :=
  let h24 := negb (Z.land fmt 2 =? 0) in
  let binary := negb (Z.land fmt 4 =? 0) in
  let pm := negb h24 && negb (Z.land (r_hour a) 128 =? 0) in
  let value v := if binary then v else from_bcd v in
  let hour := value (Z.land (r_hour a) 127) in
  let hour := if h24 then hour else u8 (hour mod 12 + (if pm then 12 else 0)) in
  let yy := value (r_year a) in
  let year := match century with
              | None => yy + (if yy <? 70 then 2000 else 1900)
              | Some c => yy + 100 * (if binary then c else from_bcd c)
              end in
  (year, value (r_mon a), value (r_day a), hour, value (r_min a), value (r_sec a)).

Record clock := MkClock { jiffies : Z; boot_ns : Z }.

Definition clock_init (fmt : Z) (a : rtc) (century : option Z) (c : clock) : clock :=
  let '(year, mon, day, hour, min, sec) := decode fmt a century in
  let days := days_from_civil year mon day in
  MkClock (jiffies c) (u64 (u64 (days * 86400 + hour * 3600 + min * 60 + sec) * NS_PER_SEC)).

(** The wakeup of the sleepers on [jiffies] is the caller's. *)
Definition clock_tick (c : clock) : clock := MkClock (u64 (jiffies c + 1)) (boot_ns c).

Definition clock_monotonic_ns (c : clock) : Z := u64 (jiffies c * NS_PER_TICK).
Definition clock_realtime_ns (c : clock) : Z := u64 (boot_ns c + clock_monotonic_ns c).
Definition clock_set_realtime_ns (ns : Z) (c : clock) : clock := MkClock (jiffies c) (u64 (ns - clock_monotonic_ns c)).

(** ** System calls *)

Notation CLOCK_REALTIME := 0 (only parsing).
Notation CLOCK_MONOTONIC := 1 (only parsing).
Notation CLOCK_PROCESS_CPUTIME_ID := 2 (only parsing).
Notation CLOCK_THREAD_CPUTIME_ID := 3 (only parsing).
Notation CLOCK_MONOTONIC_RAW := 4 (only parsing).
Notation CLOCK_REALTIME_COARSE := 5 (only parsing).
Notation CLOCK_MONOTONIC_COARSE := 6 (only parsing).
Notation CLOCK_BOOTTIME := 7 (only parsing).
Notation TIMER_ABSTIME := 1 (only parsing).

(** The clock's time, or [None] for -EINVAL; [cpu] is the caller's cpu_ticks. *)
Definition clock_ns (clk cpu : Z) (c : clock) : option Z :=
  if (clk =? CLOCK_REALTIME) || (clk =? CLOCK_REALTIME_COARSE) then Some (clock_realtime_ns c)
  else if (clk =? CLOCK_MONOTONIC) || (clk =? CLOCK_MONOTONIC_RAW) || (clk =? CLOCK_MONOTONIC_COARSE) || (clk =? CLOCK_BOOTTIME) then Some (clock_monotonic_ns c)
  else if (clk =? CLOCK_PROCESS_CPUTIME_ID) || (clk =? CLOCK_THREAD_CPUTIME_ID) then Some (u64 (cpu * NS_PER_TICK))
  else None.

Section Time.
  Context {U : Type} `{UM : UserMem U}.

(** A struct of two int64_t. *)
Definition store_pair (a x y : Z) : M U unit := store_bytes a (le_bytes 8 (u64 x) ++ le_bytes 8 (u64 y)).
Definition load_pair (a : Z) : M U (Z * Z) := bs ← load_bytes a 16; mret (s64 (le_value (take 8 bs)), s64 (le_value (drop 8 bs))).

Definition put_ts (uts ns : Z) : M U Z :=
  ok ← user_ok (u64 uts) 16 true;
  if negb ok then mret (- EFAULT) else
  _ ← store_pair (u64 uts) (ns / NS_PER_SEC) (ns mod NS_PER_SEC);
  mret 0.

(** An error or the time. *)
Definition get_ts (uts : Z) : M U (Z + Z) :=
  ok ← user_ok (u64 uts) 16 false;
  if negb ok then mret (inl (- EFAULT)) else
  ts ← load_pair (u64 uts);
  if (ts.1 <? 0) || (ts.2 <? 0) || (NS_PER_SEC <=? ts.2) then mret (inl (- EINVAL))
  else mret (inr (u64 (u64 (ts.1 * NS_PER_SEC) + ts.2))).

Definition sys_clock_gettime (cpu : Z) (c : clock) (clk uts : Z) : M U Z :=
  match clock_ns clk cpu c with None => mret (- EINVAL) | Some ns => put_ts uts ns end.

Definition sys_clock_getres (cpu : Z) (c : clock) (clk uts : Z) : M U Z :=
  match clock_ns clk cpu c with None => mret (- EINVAL) | Some _ => if uts =? 0 then mret 0 else put_ts uts NS_PER_TICK end.

Definition sys_clock_settime (c : clock) (clk uts : Z) : M U (Z * clock) :=
  if negb (clk =? CLOCK_REALTIME) then mret (- EINVAL, c) else
  t ← get_ts uts;
  mret (match t with inl e => (e, c) | inr ns => (0, clock_set_realtime_ns ns c) end).

Definition sys_gettimeofday (c : clock) (utv utz : Z) : M U Z :=
  let ns := clock_realtime_ns c in
  e ← (if utv =? 0 then mret 0 else
       ok ← user_ok (u64 utv) 16 true;
       if negb ok then mret (- EFAULT) else _ ← store_pair (u64 utv) (ns / NS_PER_SEC) (ns mod NS_PER_SEC / 1000); mret 0);
  if e <? 0 then mret e else
  if utz =? 0 then mret 0 else
  ok ← user_ok (u64 utz) 8 true;
  if negb ok then mret (- EFAULT) else _ ← store64 (u64 utz) 0; mret 0.

Definition sys_settimeofday (c : clock) (utv : Z) : M U (Z * clock) :=
  if utv =? 0 then mret (0, c) else
  ok ← user_ok (u64 utv) 16 false;
  if negb ok then mret (- EFAULT, c) else
  tv ← load_pair (u64 utv);
  if (tv.1 <? 0) || (tv.2 <? 0) || (1000000 <=? tv.2) then mret (- EINVAL, c)
  else mret (0, clock_set_realtime_ns (u64 (u64 (tv.1 * NS_PER_SEC) + tv.2 * 1000)) c).

Definition sys_time (c : clock) (ut : Z) : M U Z :=
  let t := clock_realtime_ns c / NS_PER_SEC in
  if ut =? 0 then mret t else
  ok ← user_ok (u64 ut) 8 true;
  if negb ok then mret (- EFAULT) else _ ← store64 (u64 ut) t; mret t.

(** One turn of the loop of sleep_until: a result, or the process sleeps
    until the next tick. *)
Definition sleep_until (cpu : Z) (c : clock) (sig : bool) (clk until_ urem : Z) : M U (option Z) :=
  match clock_ns clk cpu c with
  | None => fault
  | Some now =>
      if until_ <=? now then mret (Some 0)
      else if sig then _ ← (if urem =? 0 then mret 0 else put_ts urem (until_ - now)); mret (Some (- EINTR))
      else mret None
  end.

(** What the call waits for, or its error: the time of its clock, and where
    what is left goes when a signal comes. *)
Definition sys_clock_nanosleep (cpu : Z) (c : clock) (clk flags ureq urem : Z) : M U (Z + Z * Z * Z) :=
  if (clk =? CLOCK_PROCESS_CPUTIME_ID) || (clk =? CLOCK_THREAD_CPUTIME_ID) then mret (inl (- EINVAL)) else
  match clock_ns clk cpu c with
  | None => mret (inl (- EINVAL))
  | Some now =>
      req ← get_ts ureq;
      mret (match req with
            | inl e => inl e
            | inr req => if negb (Z.land flags TIMER_ABSTIME =? 0) then inr (clk, req, 0) else inr (clk, u64 (now + req), urem)
            end)
  end.

Definition sys_nanosleep (cpu : Z) (c : clock) (ureq urem : Z) : M U (Z + Z * Z * Z) := sys_clock_nanosleep cpu c CLOCK_MONOTONIC 0 ureq urem.
End Time.

(** ** The calendar *)

Definition leap (y : Z) : bool := (y mod 4 =? 0) && (negb (y mod 100 =? 0) || (y mod 400 =? 0)).

Definition month_days (y m : Z) : Z :=
  if m =? 2 then (if leap y then 29 else 28) else if (m =? 4) || (m =? 6) || (m =? 9) || (m =? 11) then 30 else 31.

Record date := MkDate { year : Z; month : Z; day : Z }.

Definition next_day (t : date) : date :=
  let '(MkDate y m d) := t in
  if d <? month_days y m then MkDate y m (d + 1) else if m <? 12 then MkDate y (m + 1) 1 else MkDate (y + 1) 1 1.

Definition valid (t : date) : Prop := 1 <= month t <= 12 /\ 1 <= day t <= month_days (year t) (month t).

Definition epoch : date := MkDate 1970 1 1.

(** Days before March of year [y], counted from March of year 0. *)
Definition march (y : Z) : Z := 365 * y + y / 4 - y / 100 + y / 400.

Lemma era_floor y : Z.quot (if 0 <=? y then y else y - 399) 400 = y / 400.
Proof. destruct (Z.leb_spec 0 y); [by rewrite Z.quot_div_nonneg by lia|]. lia_div. Qed.

(** Comparisons of numerals. *)
Ltac compare :=
  repeat match goal with
         | |- context [?a <=? ?b] => let v := eval vm_compute in (a <=? b) in change (a <=? b) with v
         | |- context [?a <? ?b] => let v := eval vm_compute in (a <? b) in change (a <? b) with v
         | |- context [?a =? ?b] => let v := eval vm_compute in (a =? b) in change (a =? b) with v
         end; cbn [orb andb].

(** The function without its machine arithmetic. *)
Lemma days_from_civil_eq y m d : 1 <= m <= 12 -> 1 <= d <= 31 ->
  days_from_civil y m d = march (y - (if m <=? 2 then 1 else 0)) + (153 * (if 2 <? m then m - 3 else m + 9) + 2) / 5 + d - 1 - 719468.
Proof.
  intros Hm Hd. unfold days_from_civil. cbv zeta. rewrite era_floor. set (v := y - (if m <=? 2 then 1 else 0)). set (k := if 2 <? m then m - 3 else m + 9).
  assert (0 <= k <= 11) as Hk by (unfold k; destruct (Z.ltb_spec 2 m); lia). replace (v - v / 400 * 400) with (v mod 400) by (rewrite Z.mod_eq by lia; lia).
  assert (0 <= v mod 400 < 400) as Hv by (apply Z.mod_pos_bound; lia). rewrite (u32_small (v mod 400)), (u32_small (153 * k + 2)) by lia.
  rewrite (u32_small ((153 * k + 2) / 5 + d - 1)) by lia_div. rewrite u32_small by lia_div. unfold march. lia_div.
Qed.

Lemma march_step y : march y - march (y - 1) = if leap y then 366 else 365.
Proof.
  unfold march, leap. destruct (Z.eqb_spec (y mod 4) 0), (Z.eqb_spec (y mod 100) 0), (Z.eqb_spec (y mod 400) 0); cbn [andb orb negb]; lia_div.
Qed.

Lemma month_days_bound y m : 28 <= month_days y m <= 31.
Proof. unfold month_days. destruct (m =? 2), (leap y), ((m =? 4) || (m =? 6) || (m =? 9) || (m =? 11)); lia. Qed.

Lemma next_valid t : valid t -> valid (next_day t).
Proof.
  destruct t as [y m d]. unfold valid, next_day. cbn [year month day]. intros [Hm Hd]. destruct (Z.ltb_spec d (month_days y m)); cbn [year month day]; [lia|].
  pose proof (month_days_bound y (m + 1)). pose proof (month_days_bound (y + 1) 1). destruct (Z.ltb_spec m 12); cbn [year month day]; lia.
Qed.

Lemma next_day_days t : valid t -> let u := next_day t in days_from_civil (year u) (month u) (day u) = days_from_civil (year t) (month t) (day t) + 1.
Proof.
  destruct t as [y m d]. intros Hv. pose proof (next_valid _ Hv) as Hu. destruct Hv as [Hm Hd]. cbn [year month day] in Hm, Hd. pose proof (month_days_bound y m) as Hb. cbv zeta.
  rewrite (days_from_civil_eq (year (MkDate y m d))) by (simpl; lia). rewrite days_from_civil_eq by (destruct Hu as [? ?]; pose proof (month_days_bound (year (next_day (MkDate y m d))) (month (next_day (MkDate y m d)))); lia).
  unfold next_day. destruct (Z.ltb_spec d (month_days y m)) as [Hlt|Hge]; cbn [year month day]; [lia|]. assert (d = month_days y m) as -> by lia. pose proof (march_step y) as Hst.
  assert (m = 1 \/ m = 2 \/ m = 3 \/ m = 4 \/ m = 5 \/ m = 6 \/ m = 7 \/ m = 8 \/ m = 9 \/ m = 10 \/ m = 11 \/ m = 12) as Hc by lia.
  unfold month_days. destruct Hc as [-> | [-> | [-> | [-> | [-> | [-> | [-> | [-> | [-> | [-> | [-> | ->]]]]]]]]]]]; compare; cbn [year month day]; rewrite ?Z.sub_0_r, ?Z.add_simpl_r; destruct (leap y); lia_div.
Qed.

Lemma days_of_nth n : let t := Nat.iter n next_day epoch in valid t /\ days_from_civil (year t) (month t) (day t) = Z.of_nat n.
Proof.
  cbv zeta. induction n as [|n [Hv IH]]; [by split; [|vm_compute]|]. cbn [Nat.iter nat_rect]. split; [by apply next_valid|]. pose proof (next_day_days _ Hv) as E. cbv zeta in E. unfold Nat.iter in *. cbn [nat_rect]. rewrite E, IH. lia.
Qed.

(** days_from_civil counts days: the date [n] days after 1970-01-01 by the
    Gregorian calendar has number [n]. *)
Theorem days_from_civil_correct n : let t := Nat.iter n next_day epoch in days_from_civil (year t) (month t) (day t) = Z.of_nat n.
Proof. apply days_of_nth. Qed.

(** ** The clock and user memory *)

Lemma ticks_jiffies k c : 0 <= jiffies c < 2 ^ 64 -> jiffies (Nat.iter k clock_tick c) = u64 (jiffies c + Z.of_nat k).
Proof.
  intros Hc. induction k as [|k IH]; [cbn; rewrite u64_small by lia; lia|]. unfold Nat.iter in *. cbn [nat_rect clock_tick jiffies]. rewrite IH. unfold u64. rewrite Zplus_mod_idemp_l. f_equal. lia.
Qed.

Lemma ticks_boot k c : boot_ns (Nat.iter k clock_tick c) = boot_ns c.
Proof. induction k as [|k IH]; [done|]. exact IH. Qed.

(** The wall clock after it is set, [k] ticks later. *)
Lemma realtime_after k ns c : 0 <= jiffies c < 2 ^ 64 -> clock_realtime_ns (Nat.iter k clock_tick (clock_set_realtime_ns ns c)) = u64 (ns + Z.of_nat k * NS_PER_TICK).
Proof.
  intros Hc. unfold clock_realtime_ns, clock_monotonic_ns. rewrite ticks_boot, ticks_jiffies by done. cbn [clock_set_realtime_ns jiffies boot_ns]. unfold clock_monotonic_ns, u64.
  rewrite Zmult_mod_idemp_l, Zminus_mod_idemp_r, <- Zplus_mod. f_equal. lia.
Qed.

Section TimeOk.
  Context {U : Type} `{UM : UserMem U}.

(** The struct timespec at [a]. *)
Definition ts_at (u : U) (a sec nsec : Z) : Prop :=
  forall i, 0 <= i < 16 -> peek u (a + i) = (le_bytes 8 sec ++ le_bytes 8 nsec) !! Z.to_nat i.

Lemma ts_at_grows u u' a sec nsec : grows u u' -> ts_at u a sec nsec -> ts_at u' a sec nsec.
Proof.
  intros [Hg _] Ht i Hi. specialize (Ht i Hi). destruct (_ !! Z.to_nat i) as [b|] eqn:E; [by apply Hg|].
  apply lookup_ge_None in E. rewrite length_app, !length_le_bytes in E. lia.
Qed.

Lemma ts_at_read u a sec nsec : ts_at u a sec nsec -> can_read u a 16.
Proof.
  intros Ht x Hx. replace x with (a + (x - a)) by lia. rewrite Ht by lia. apply lookup_lt_is_Some. rewrite length_app, !length_le_bytes. lia.
Qed.

Lemma get_ts_ok u a sec nsec :
  um_inv u -> 0 <= a -> a + 16 <= user_top -> ts_at u a sec nsec -> 0 <= sec -> 0 <= nsec < NS_PER_SEC -> sec * NS_PER_SEC + nsec < 2 ^ 64 ->
  wp (get_ts a) (fun r u' => r = inr (sec * NS_PER_SEC + nsec) /\ um_inv u' /\ grows u u') u.
Proof.
  intros Hi Ha Htop Ht Hs Hn Hb. unfold get_ts, load_pair. rewrite u64_small by (unfold user_top in *; lia). wp_step.
  apply wp_user_ok_read; [done|lia|lia|done|by eapply ts_at_read|]. intros u' Hi' Hg. cbn [negb]. pose proof (ts_at_grows _ _ _ _ _ Hg Ht) as Ht'.
  wp_steps. apply wp_load_bytes; [done|by eapply ts_at_read|]. intros bs Hl _ Hp. assert (bs = le_bytes 8 sec ++ le_bytes 8 nsec) as ->.
  { apply list_eq. intros i. destruct (decide (i < 16)%nat). { rewrite <- (Nat2Z.id i), <- Hp, <- Ht' by lia. done. } rewrite !lookup_ge_None_2; [done|rewrite length_app, !length_le_bytes; lia|lia]. }
  unfold NS_PER_SEC in *. rewrite take_app_length', drop_app_length', !le_value_bytes by (rewrite ?length_le_bytes; done || lia). wp_steps. cbn [fst snd].
  rewrite !s64_small by lia. rewrite (proj2 (Z.ltb_ge sec 0)), (proj2 (Z.ltb_ge nsec 0)), (proj2 (Z.leb_gt _ nsec)) by lia. cbn [orb]. wp_steps.
  by rewrite (u64_small (sec * _)), u64_small by lia.
Qed.

Lemma put_ts_ok u a ns :
  um_inv u -> 0 <= a -> a + 16 <= user_top -> can_write u a 16 -> 0 <= ns < 2 ^ 64 ->
  wp (put_ts a ns) (fun r u' => r = 0 /\ um_inv u' /\ ts_at u' a (ns / NS_PER_SEC) (ns mod NS_PER_SEC)) u.
Proof.
  intros Hi Ha Htop Hw Hb. unfold put_ts, store_pair. rewrite u64_small by (unfold user_top in *; lia). wp_step. eapply wp_mono; [apply user_ok_spec; [done|unfold user_top in *; lia..]|].
  intros ok u1 (Hi1 & _ & Hw1 & _ & Hok). rewrite Hok; [|done|intros x Hx; split; [eapply writable_peek; [done|]|intros _]; by apply Hw]. cbn [negb].
  assert (0 <= ns / NS_PER_SEC < 2 ^ 64 /\ 0 <= ns mod NS_PER_SEC < 2 ^ 64) as [? ?] by (unfold NS_PER_SEC; lia_div). rewrite !(u64_small (_ / _)), !(u64_small (_ mod _)) by done.
  wp_steps. apply wp_store_bytes; [done|apply Forall_app; split; apply le_bytes_byte|rewrite length_app, !length_le_bytes; intros x Hx; by apply Hw1, Hw|].
  intros u2 Hi2 [Hp _]. wp_steps. split_and!; [done|done|]. intros i Hi'. rewrite Hp, length_app, !length_le_bytes, decide_True by lia. f_equal. lia.
Qed.

(** The loop of sleep_until: a turn finds a signal pending or not, and sleeps
    for some ticks before the next one; a signal may wake it before a tick. *)
Fixpoint sleeping (turns : list (nat * bool)) (cpu : Z) (c : clock) (clk until_ urem : Z) : M U (option Z * clock) :=
  match turns with
  | [] => mret (None, c)
  | (k, sig) :: rest =>
      r ← sleep_until cpu c sig clk until_ urem;
      match r with Some v => mret (Some v, c) | None => sleeping rest cpu (Nat.iter k clock_tick c) clk until_ urem end
  end.

Definition nanosleep (turns : list (nat * bool)) (cpu : Z) (c : clock) (ureq urem : Z) : M U (option Z * clock) :=
  w ← sys_nanosleep cpu c ureq urem;
  match w with inl e => mret (Some e, c) | inr (clk, until_, urem) => sleeping turns cpu c clk until_ urem end.

(** The ticks the turns take. *)
Definition spent (turns : list (nat * bool)) : Z := Z.of_nat (sum_list (fst <$> turns)).

Lemma spent_cons k sig turns : spent ((k, sig) :: turns) = Z.of_nat k + spent turns.
Proof. unfold spent. rewrite fmap_cons. cbn [fst]. simpl. lia. Qed.

(** What is left of a request of [ns] when a signal ends it. *)
Definition left_at (u : U) (urem ns : Z) : Prop := urem <> 0 -> ts_at u urem (ns / NS_PER_SEC) (ns mod NS_PER_SEC).

Lemma monotonic_after k c : 0 <= jiffies c -> (jiffies c + Z.of_nat k) * NS_PER_TICK < 2 ^ 64 ->
  jiffies (Nat.iter k clock_tick c) = jiffies c + Z.of_nat k /\ clock_monotonic_ns (Nat.iter k clock_tick c) = clock_monotonic_ns c + Z.of_nat k * NS_PER_TICK.
Proof.
  intros H0 Hb. unfold NS_PER_TICK in *. unfold clock_monotonic_ns, NS_PER_TICK. rewrite ticks_jiffies, u64_small by lia. split; [done|]. rewrite !u64_small; lia.
Qed.

(** A process that waits for [until_] is still asleep only if its last turn
    came too early. *)
Definition sleep_result (turns : list (nat * bool)) (c : clock) (until_ urem : Z) (r : option Z) (c' : clock) (u' : U) : Prop :=
  match r with
  | None => forall pre t, turns = pre ++ [t] -> clock_monotonic_ns c + spent pre * NS_PER_TICK < until_
  | Some v => v = 0 /\ until_ <= clock_monotonic_ns c'
              \/ v = - EINTR /\ clock_monotonic_ns c' < until_ /\ left_at u' urem (until_ - clock_monotonic_ns c') /\ Exists (fun t => t.2 = true) turns
  end.

Lemma sleeping_ok turns cpu c u until_ urem :
  um_inv u -> 0 <= urem -> urem + 16 <= user_top -> (urem <> 0 -> can_write u urem 16) -> 0 <= jiffies c -> until_ < 2 ^ 64 -> (jiffies c + spent turns) * NS_PER_TICK < 2 ^ 64 ->
  wp (sleeping turns cpu c CLOCK_MONOTONIC until_ urem) (fun r u' => sleep_result turns c until_ urem r.1 r.2 u') u.
Proof.
  intros Hi Hr Htop Hw. revert c. induction turns as [|[k sig] turns IH]; intros c Hj Hu Hb; cbn [sleeping]. { wp_steps. cbn. intros pre t E. by destruct pre. }
  rewrite spent_cons in Hb.
  assert (0 <= spent turns) by (unfold spent; lia). unfold NS_PER_TICK in Hb. pose proof (u64_bound (jiffies c * NS_PER_TICK)) as Hm. fold (clock_monotonic_ns c) in Hm.
  unfold sleep_until. change (clock_ns CLOCK_MONOTONIC cpu c) with (Some (clock_monotonic_ns c)). cbv iota. destruct (Z.leb_spec until_ (clock_monotonic_ns c)); [wp_steps; cbn; by left|]. destruct sig.
  { wp_step. wp_step. eapply wp_mono with (P := fun _ u' => left_at u' urem (until_ - clock_monotonic_ns c)).
    - destruct (Z.eqb_spec urem 0); [wp_steps; by intros ?|]. eapply wp_mono; [apply put_ts_ok; [done|done|done|auto|lia]|]. intros ? ? (_ & _ & Ht) _. exact Ht.
    - intros ? u' Hl. wp_steps. cbn. right. split_and!; [done|done|done|by left]. }
  wp_steps. destruct (monotonic_after k c) as [Ej Em]; [done|unfold NS_PER_TICK; lia|]. eapply wp_mono; [apply IH; [lia|done|rewrite Ej; unfold NS_PER_TICK; lia]|].
  intros [[v|] c'] u' HQ; cbn [fst snd sleep_result] in *.
  - destruct HQ as [HQ | (? & ? & ? & ?)]; [by left|right]. split_and!; try done. by right.
  - intros pre t E. destruct pre as [|p pre]; [injection E as <- Et|injection E as <- Et]. { unfold spent. simpl. lia. } specialize (HQ _ _ Et). rewrite Em in HQ. rewrite spent_cons. unfold NS_PER_TICK in *. lia.
Qed.

Lemma nanosleep_ok turns cpu c u ureq urem sec nsec :
  um_inv u -> 0 <= jiffies c -> (jiffies c + spent turns) * NS_PER_TICK < 2 ^ 64 ->
  0 <= ureq -> ureq + 16 <= user_top -> ts_at u ureq sec nsec -> 0 <= sec -> 0 <= nsec < NS_PER_SEC -> clock_monotonic_ns c + sec * NS_PER_SEC + nsec < 2 ^ 64 ->
  0 <= urem -> urem + 16 <= user_top -> (urem <> 0 -> can_write u urem 16) ->
  wp (nanosleep turns cpu c ureq urem) (fun r u' => sleep_result turns c (clock_monotonic_ns c + (sec * NS_PER_SEC + nsec)) urem r.1 r.2 u') u.
Proof.
  intros Hi Hj Hb Ha Htop Ht Hs Hn Hu Hr Hrt Hrw. pose proof (u64_bound (jiffies c * NS_PER_TICK)) as Hm. fold (clock_monotonic_ns c) in Hm.
  unfold nanosleep, sys_nanosleep, sys_clock_nanosleep. cbn [clock_ns Z.eqb orb Pos.eqb].
  wp_step. wp_step. eapply wp_mono; [apply get_ts_ok; [done|done|done|exact Ht|done|done|lia]|]. intros r u1 (-> & Hi1 & Hg). cbn [Z.land Z.eqb negb]. wp_steps.
  rewrite u64_small by (unfold NS_PER_SEC in *; lia). apply sleeping_ok; [done|done|done|intros H; eapply grows_can_write; eauto|done|lia|done].
Qed.

(** The clock is set from [a], [k] ticks pass, and it is read to [b]. *)
Definition set_wait_get (k : nat) (cpu : Z) (c : clock) (a b : Z) : M U (Z * Z) :=
  e ← sys_clock_settime c CLOCK_REALTIME a;
  r ← sys_clock_gettime cpu (Nat.iter k clock_tick e.2) CLOCK_REALTIME b;
  mret (e.1, r).

Lemma set_wait_get_ok k cpu c u a b sec nsec :
  let ns := sec * NS_PER_SEC + nsec + Z.of_nat k * NS_PER_TICK in
  um_inv u -> 0 <= jiffies c < 2 ^ 64 -> 0 <= a -> a + 16 <= user_top -> ts_at u a sec nsec -> 0 <= sec -> 0 <= nsec < NS_PER_SEC ->
  ns < 2 ^ 64 -> 0 <= b -> b + 16 <= user_top -> can_write u b 16 ->
  wp (set_wait_get k cpu c a b) (fun r u' => r = (0, 0) /\ ts_at u' b (ns / NS_PER_SEC) (ns mod NS_PER_SEC)) u.
Proof.
  intros ns Hi Hj Ha Hat Ht Hs Hn Hb Hb0 Hbt Hw. assert (0 <= Z.of_nat k * NS_PER_TICK) by (unfold NS_PER_TICK; lia). assert (0 <= sec * NS_PER_SEC) by (unfold NS_PER_SEC; lia).
  unfold set_wait_get, sys_clock_settime, sys_clock_gettime. change (CLOCK_REALTIME =? CLOCK_REALTIME) with true. cbn [negb].
  wp_step. wp_step. eapply wp_mono; [apply get_ts_ok; [done|done|done|exact Ht|done|done|lia]|]. intros r u1 (-> & Hi1 & Hg). wp_steps. cbn [fst snd].
  change (clock_ns CLOCK_REALTIME cpu) with (fun c => Some (clock_realtime_ns c)). cbv beta iota. rewrite realtime_after by done. fold ns. rewrite u64_small by lia.
  eapply wp_mono; [apply put_ts_ok; [done|done|done|by eapply grows_can_write|lia]|]. intros r u2 (-> & _ & Ht2). by wp_steps.
Qed.

(** clock_settime and clock_gettime are inverse: the time read [k] ticks
    after the wall clock is set is the time it was set to plus [k] ticks,
    whatever the tick count was, for every time below 2^64 nanoseconds. *)
Theorem settime_gettime k cpu c u a b sec nsec :
  let ns := sec * NS_PER_SEC + nsec + Z.of_nat k * NS_PER_TICK in
  um_inv u -> 0 <= jiffies c < 2 ^ 64 -> 0 <= a -> a + 16 <= user_top -> ts_at u a sec nsec -> 0 <= sec -> 0 <= nsec < NS_PER_SEC ->
  ns < 2 ^ 64 -> 0 <= b -> b + 16 <= user_top -> can_write u b 16 ->
  wp (set_wait_get k cpu c a b) (fun r u' => r = (0, 0) /\ ts_at u' b (ns / NS_PER_SEC) (ns mod NS_PER_SEC)) u.
Proof. apply set_wait_get_ok. Qed.

(** C36: nanosleep returns 0 only when the time asked for has passed, -EINTR
    only when a signal comes before that, with the time that is left at
    [urem], and sleeps on only while its last turn of the loop was too early:
    it does return once the clock has run long enough. *)
Theorem nanosleep_correct turns cpu c u ureq urem sec nsec :
  um_inv u -> 0 <= jiffies c -> (jiffies c + spent turns) * NS_PER_TICK < 2 ^ 64 ->
  0 <= ureq -> ureq + 16 <= user_top -> ts_at u ureq sec nsec -> 0 <= sec -> 0 <= nsec < NS_PER_SEC -> clock_monotonic_ns c + sec * NS_PER_SEC + nsec < 2 ^ 64 ->
  0 <= urem -> urem + 16 <= user_top -> (urem <> 0 -> can_write u urem 16) ->
  wp (nanosleep turns cpu c ureq urem) (fun r u' => sleep_result turns c (clock_monotonic_ns c + (sec * NS_PER_SEC + nsec)) urem r.1 r.2 u') u.
Proof. apply nanosleep_ok. Qed.
End TimeOk.

(** The elements of a concrete list, one by one. *)
Ltac each_of H := apply list_elem_of_In in H; vm_compute in H; repeat (destruct H as [H | H]); try done.

(** Two seconds are asked for at 4096. *)
Definition flat_ts : flat := MkFlat (list_to_map (zip (range 4096 4112) (le_bytes 8 2 ++ le_bytes 8 0)) ∪ flat_bytes flat64).

Lemma flat_ts_inv : flat_inv flat_ts.
Proof.
  intros x b [Hb | [_ Hb]]%lookup_union_Some_raw; [|by apply flat64_inv]. apply elem_of_list_to_map_2 in Hb. each_of Hb; injection Hb as <- <-; unfold byte; lia.
Qed.

Lemma flat_ts_at : ts_at flat_ts 4096 2 0.
Proof. intros i Hi. assert (i ∈ range 0 16) as Hr by (apply elem_of_range; lia). each_of Hr; subst; by vm_compute. Qed.

Lemma flat_ts_write : can_write flat_ts 4128 16.
Proof. intros x Hx. assert (x ∈ range 4128 4144) as Hr by (apply elem_of_range; lia). each_of Hr; subst; vm_compute; by eexists. Qed.

Lemma settime_gettime_witness :
  let ns := 2 * NS_PER_SEC + 0 + 3 * NS_PER_TICK in
  wp (set_wait_get 3 0 (MkClock 500 7) 4096 4128) (fun r u' => r = (0, 0) /\ ts_at u' 4128 (ns / NS_PER_SEC) (ns mod NS_PER_SEC)) flat_ts.
Proof. intros ns. apply (settime_gettime 3 0 (MkClock 500 7) flat_ts 4096 4128 2 0); [apply flat_ts_inv|done|done|done|apply flat_ts_at|done|done|done|done|done|apply flat_ts_write]. Defined.

Lemma nanosleep_correct_witness :
  let turns := [(150%nat, false); (10%nat, true); (5%nat, false)] in
  wp (nanosleep turns 0 (MkClock 500 7) 4096 4128) (fun r u' => sleep_result turns (MkClock 500 7) (clock_monotonic_ns (MkClock 500 7) + (2 * NS_PER_SEC + 0)) 4128 r.1 r.2 u') flat_ts.
Proof. intros turns. apply (nanosleep_correct turns 0 (MkClock 500 7) flat_ts 4096 4128 2 0); [apply flat_ts_inv|done|done|done|done|apply flat_ts_at|done|done|done|done|done|intros _; apply flat_ts_write]. Defined.

(** The length of a tick at the reload value for 100 Hz, against the constant. *)
Lemma tick_length : pit_divisor 100 = 11931 /\ 11931 * NS_PER_SEC / PIT_BASE_FREQUENCY = 9999312 /\ NS_PER_TICK = 9999312 + 537.
Proof. by vm_compute. Qed.
