(* ===== verification/Ring.v ===== *)
(** * Ring buffers

    An array of [cap] cells of which [len], from [head] on and around the
    end, hold a queue: the form of the input queue of a terminal. *)
From S2P Require Import Prelude.

Section Ring.
  Context (cap : Z).
  Implicit Types (b : list Z) (h n : Z).

Definition slot (h i : Z) : nat := Z.to_nat ((h + i) mod cap).

Definition ring b h n : list Z := (fun i => nth (slot h i) b 0) <$> range 0 n.

Record ring_ok b h n : Prop := {
  ring_cells : length b = Z.to_nat cap;
  ring_head : 0 <= h < cap;
  ring_len : 0 <= n <= cap;
}.

Lemma length_ring b h n : ring_ok b h n -> Z.of_nat (length (ring b h n)) = n.
Proof. intros [_ _ Hn]. unfold ring. rewrite length_fmap, length_range. lia. Qed.

Lemma slot_lt b h n i : ring_ok b h n -> (slot h i < length b)%nat.
Proof. intros [Hb Hh _]. unfold slot. rewrite Hb. pose proof (Z.mod_pos_bound (h + i) cap). lia. Qed.

Lemma slot_inj h i j : 0 <= i < cap -> 0 <= j < cap -> slot h i = slot h j -> i = j.
Proof.
  unfold slot. intros Hi Hj E. pose proof (Z.mod_pos_bound (h + i) cap). pose proof (Z.mod_pos_bound (h + j) cap). apply Z2Nat.inj in E; [|lia..].
  pose proof (Z.div_mod (h + i) cap). pose proof (Z.div_mod (h + j) cap). assert (cap * ((h + i) / cap - (h + j) / cap) = i - j) by lia.
  set (q := (h + i) / cap - (h + j) / cap) in *.
  assert (q = 0) by (destruct (Z.lt_trichotomy q 0) as [? | [? | ?]]; [|done|]; nia). subst q. nia.
Qed.

Lemma ring_push b h n c : ring_ok b h n -> n < cap ->
  ring_ok (<[slot h n := c]> b) h (n + 1) /\ ring (<[slot h n := c]> b) h (n + 1) = ring b h n ++ [c].
Proof.
  intros Hok Hn. pose proof (slot_lt _ _ _ n Hok) as Hlt. pose proof Hok as [Hb Hh Hl]. split; [split; [by rewrite length_insert|done|lia]|].
  unfold ring. rewrite range_snoc, fmap_app by lia. cbn [fmap list_fmap]. f_equal.
  - apply list_fmap_ext. intros _ i Hi%list_elem_of_lookup_2. apply elem_of_range in Hi. rewrite !nth_lookup, list_lookup_insert_ne; [done|].
    intros E. apply slot_inj in E; lia.
  - by rewrite nth_lookup, list_lookup_insert_eq.
Qed.

Lemma ring_pop b h n : ring_ok b h n -> 0 < n ->
  ring_ok b ((h + 1) mod cap) (n - 1) /\ exists c, b !! Z.to_nat h = Some c /\ ring b h n = c :: ring b ((h + 1) mod cap) (n - 1).
Proof.
  intros Hok Hn. pose proof (slot_lt _ _ _ 0 Hok) as Hlt. pose proof Hok as [Hb Hh Hl]. split; [split; [done|apply Z.mod_pos_bound; lia|lia]|].
  assert (slot h 0 = Z.to_nat h) as E0 by (unfold slot; rewrite Z.add_0_r, Z.mod_small; lia). rewrite E0 in Hlt. apply lookup_lt_is_Some in Hlt as [c Hc]. exists c. split; [done|].
  unfold ring. rewrite range_cons by lia. cbn [fmap list_fmap]. rewrite E0, nth_lookup, Hc. cbn [default]. f_equal.
  unfold range. replace (0 + 1) with (1 + 0) by lia. replace (n - (1 + 0)) with (n - 1 - 0) by lia. rewrite <- fmap_add_seqZ, <- list_fmap_compose.
  apply list_fmap_ext. intros _ i _. unfold compose, slot. do 2 f_equal. rewrite Zplus_mod_idemp_l. f_equal. lia.
Qed.

Lemma ring_empty b : length b = Z.to_nat cap -> 0 < cap -> ring_ok b 0 0 /\ ring b 0 0 = [].
Proof. intros. split; [split; lia|done]. Qed.
End Ring.
