(* ===== verification/Tty.v ===== *)
(** * Terminals: src/src/kernel/drivers/tty.c

    A terminal is a line discipline: the line being edited, the ring of bytes
    ready to be read, and the settings. What it does to the rest of the kernel
    (bytes put on the device, wakeups of its readers, signals to its
    foreground group) is a sequence of events. The job-control requests of
    tty_ioctl act on the scheduler's list of processes, the others on user
    memory. Bytes are 0..255; comparisons with control characters are between
    a signed char and a uint8_t, as in the source. *)
From S2P Require Import Prelude Types UserMem Pipe Sched Signal.

Notation ICRNL := 256 (only parsing).
Notation OPOST := 1 (only parsing).
Notation ONLCR := 4 (only parsing).
Notation ISIG := 1 (only parsing).
Notation ICANON := 2 (only parsing).
Notation ECHO := 8 (only parsing).
Notation ECHOE := 16 (only parsing).
Notation ECHOK := 32 (only parsing).
Notation IEXTEN := 32768 (only parsing).
Notation VINTR := 0%nat (only parsing).
Notation VQUIT := 1%nat (only parsing).
Notation VERASE := 2%nat (only parsing).
Notation VKILL := 3%nat (only parsing).
Notation VEOF := 4%nat (only parsing).
Notation VMIN := 6%nat (only parsing).
Notation VSUSP := 10%nat (only parsing).

Notation TTY_BUF := 1024 (only parsing).

Record termios := MkTermios { iflag : Z; oflag : Z; cflag : Z; lflag : Z; ldisc : Z; cc : list Z }.

(** A cooked terminal; the control characters not named are 0. *)
Definition sane : termios :=
  MkTermios ICRNL (Z.lor OPOST ONLCR) (Z.lor (Z.lor 15 48) 128)
    (Z.lor (Z.lor (Z.lor (Z.lor (Z.lor ISIG ICANON) ECHO) ECHOE) ECHOK) IEXTEN) 0
    [3; 28; 127; 21; 4; 0; 1; 0; 0; 0; 26; 0; 0; 0; 0; 0; 0; 0; 0].

Inductive event := Out (c : Z) | Wake | Sig (pgrp sig : Z).

(** [sent] is what the terminal did so far, oldest first. *)
Record tty := MkTty {
  tio : termios;
  line : list Z;
  line_len : Z;
  inq : list Z;
  in_head : Z;
  in_len : Z;
  eof : Z;
  tty_sid : Z;
  tty_pgrp : Z;
  rows : Z;
  cols : Z;
  sent : list event;
}.

Definition set_tio (v : termios) (t : tty) : tty := MkTty v (line t) (line_len t) (inq t) (in_head t) (in_len t) (eof t) (tty_sid t) (tty_pgrp t) (rows t) (cols t) (sent t).
Definition set_line (v : list Z) (k : Z) (t : tty) : tty := MkTty (tio t) v k (inq t) (in_head t) (in_len t) (eof t) (tty_sid t) (tty_pgrp t) (rows t) (cols t) (sent t).
Definition set_in (v : list Z) (h n : Z) (t : tty) : tty := MkTty (tio t) (line t) (line_len t) v h n (eof t) (tty_sid t) (tty_pgrp t) (rows t) (cols t) (sent t).
Definition set_eof (v : Z) (t : tty) : tty := MkTty (tio t) (line t) (line_len t) (inq t) (in_head t) (in_len t) v (tty_sid t) (tty_pgrp t) (rows t) (cols t) (sent t).
Definition set_owner (s g : Z) (t : tty) : tty := MkTty (tio t) (line t) (line_len t) (inq t) (in_head t) (in_len t) (eof t) s g (rows t) (cols t) (sent t).
Definition set_size (r c : Z) (t : tty) : tty := MkTty (tio t) (line t) (line_len t) (inq t) (in_head t) (in_len t) (eof t) (tty_sid t) (tty_pgrp t) r c (sent t).
Definition set_sent (v : list event) (t : tty) : tty := MkTty (tio t) (line t) (line_len t) (inq t) (in_head t) (in_len t) (eof t) (tty_sid t) (tty_pgrp t) (rows t) (cols t) v.

Definition emit (e : event) : M tty unit := modify (fun t => set_sent (sent t ++ [e]) t).

(** [flags & b] and [(flags & b) == b] *)
Definition flag (flags b : Z) : bool := negb (Z.land flags b =? 0).
Definition flags_all (flags b : Z) : bool := Z.land flags b =? b.

(** The byte [c] as a char, against a control character. *)
Definition schar (c : Z) : Z := (c + 128) mod 256 - 128.
Definition is_cc (c : Z) (k : nat) (t : tty) : bool := schar c =? nth k (cc (tio t)) 0.

Definition output (c : Z) : M tty unit :=
  t ← get;
  _ ← when (flags_all (oflag (tio t)) (Z.lor OPOST ONLCR) && (c =? 10)) (emit (Out 13));
  emit (Out c).

Definition echo (c : Z) : M tty unit :=
  t ← get;
  if negb (flag (lflag (tio t)) ECHO) then mret tt else
  if (c <? 32) && negb (c =? 10) && negb (c =? 9) then
    _ ← output 94;
    output (u8 (c + 64))
  else output c.

(** Bytes until the ring is full. *)
Fixpoint queue_bytes (s : list Z) : M tty unit :=
  match s with
  | [] => mret tt
  | c :: s' =>
      t ← get;
      if in_len t <? TTY_BUF then
        let i := (in_head t + in_len t) mod TTY_BUF in
        _ ← lift (inq t !! Z.to_nat i);
        _ ← modify (set_in (<[Z.to_nat i := c]> (inq t)) (in_head t) (in_len t + 1));
        queue_bytes s'
      else mret tt
  end.

Definition queue (s : list Z) : M tty unit := _ ← queue_bytes s; emit Wake.

(** The line so far. *)
Definition edited (t : tty) : list Z := take (Z.to_nat (line_len t)) (line t).

Definition flush_input : M tty unit := modify (fun t => set_eof 0 (set_line (line t) 0 (set_in (inq t) 0 0 t))).

Definition wipe : M tty unit := _ ← output 8; _ ← output 32; output 8.

(** The loop of VKILL: once for every byte of the line. *)
Fixpoint kill_loop (n : nat) : M tty unit :=
  t ← get;
  if (0 <? line_len t) && flag (lflag (tio t)) ECHO then
    match n with
    | O => fault
    | S n' => _ ← modify (set_line (line t) (line_len t - 1)); _ ← wipe; kill_loop n'
    end
  else mret tt.

Definition canonical_input (c : Z) : M tty unit :=
  t ← get;
  if is_cc c VERASE t || (c =? 8) then
    when (0 <? line_len t)
      (_ ← modify (set_line (line t) (line_len t - 1));
       when (flags_all (lflag (tio t)) (Z.lor ECHO ECHOE)) wipe)
  else if is_cc c VKILL t then
    _ ← kill_loop (Z.to_nat (line_len t));
    modify (fun t => set_line (line t) 0 t)
  else if is_cc c VEOF t then
    if line_len t =? 0 then _ ← modify (set_eof (u32 (eof t + 1))); emit Wake
    else _ ← queue (edited t); modify (fun t => set_line (line t) 0 t)
  else
    _ ← when ((line_len t <? TTY_BUF - 1) || (c =? 10))
          (_ ← lift (line t !! Z.to_nat (line_len t));
           _ ← modify (set_line (<[Z.to_nat (line_len t) := c]> (line t)) (line_len t + 1));
           echo c);
    when (c =? 10) (t' ← get; _ ← queue (edited t'); modify (fun t => set_line (line t) 0 t)).

Definition tty_input (c : Z) : M tty unit :=
  t ← get;
  let c := if flag (iflag (tio t)) ICRNL && (c =? 13) then 10 else c in
  let sig := if negb (flag (lflag (tio t)) ISIG) then 0
             else if is_cc c VINTR t then SIGINT else if is_cc c VQUIT t then SIGQUIT
             else if is_cc c VSUSP t then SIGTSTP else 0 in
  if negb (sig =? 0) then
    _ ← flush_input;
    _ ← echo c;
    when (negb (tty_pgrp t =? 0)) (emit (Sig (tty_pgrp t) sig))
  else if negb (flag (lflag (tio t)) ICANON) then
    _ ← echo c;
    queue [c]
  else canonical_input c.

(** ** Reading *)

Fixpoint take_in (canon : bool) (n : nat) : M tty (list Z) :=
  match n with
  | O => mret []
  | S n' =>
      t ← get;
      if in_len t =? 0 then mret [] else
      c ← lift (inq t !! Z.to_nat (in_head t));
      _ ← modify (set_in (inq t) ((in_head t + 1) mod TTY_BUF) (in_len t - 1));
      if canon && (c =? 10) then mret [c] else
      rest ← take_in canon n';
      mret (c :: rest)
  end.

(** One turn of the loop; [canon] is read once, before it. [sig] tells
    whether a signal is pending for the caller. *)
Definition read_turn (sig canon : bool) (n : Z) : M tty (outcome unit) :=
  t ← get;
  if 0 <? in_len t then bs ← take_in canon (Z.to_nat n); mret (Returned (Z.of_nat (length bs)) bs)
  else if canon && (0 <? eof t) then _ ← modify (set_eof (eof t - 1)); mret (Returned 0 [])
  else if negb canon && (nth VMIN (cc (tio t)) 0 =? 0) then mret (Returned 0 [])
  else if sig then mret (Returned (- ERESTARTSYS) [])
  else mret (Sleeps tt).

Definition canonical (t : tty) : bool := flag (lflag (tio t)) ICANON.

Definition tty_read (sig : bool) (n : Z) : M tty (outcome unit) := t ← get; read_turn sig (canonical t) n.

Definition tty_readable (t : tty) : bool :=
  (0 <? in_len t) || (if canonical t then 0 <? eof t else nth VMIN (cc (tio t)) 0 =? 0).

Definition tty_write (bs : list Z) : M tty Z := _ ← for_each bs output; mret (Z.of_nat (length bs)).

Definition tty_hangup : M tty unit :=
  _ ← modify (set_tio sane);
  _ ← flush_input;
  t ← get;
  _ ← when (negb (tty_pgrp t =? 0)) (emit (Sig (tty_pgrp t) 1));
  emit Wake.

(** ** Requests *)

Notation TCGETS := 21505 (only parsing).
Notation TCSETS := 21506 (only parsing).
Notation TCSETSW := 21507 (only parsing).
Notation TCSETSF := 21508 (only parsing).
Notation TCSBRK := 21513 (only parsing).
Notation TCFLSH := 21515 (only parsing).
Notation TIOCSCTTY := 21518 (only parsing).
Notation TIOCGPGRP := 21519 (only parsing).
Notation TIOCSPGRP := 21520 (only parsing).
Notation TIOCGWINSZ := 21523 (only parsing).
Notation TIOCSWINSZ := 21524 (only parsing).
Notation FIONREAD := 21531 (only parsing).
Notation TIOCNOTTY := 21538 (only parsing).
Notation TCSBRKP := 21541 (only parsing).
Notation TIOCGSID := 21545 (only parsing).

Definition one_of (r : Z) (l : list Z) : bool := existsb (Z.eqb r) l.

(** struct termios in memory: 36 bytes. *)
Definition termios_bytes (t : termios) : list Z :=
  le_bytes 4 (iflag t) ++ le_bytes 4 (oflag t) ++ le_bytes 4 (cflag t) ++ le_bytes 4 (lflag t) ++ ldisc t :: cc t.

Definition bytes_termios (bs : list Z) : termios :=
  let word k := le_value (take 4 (drop (4 * k) bs)) in
  MkTermios (word 0%nat) (word 1%nat) (word 2%nat) (word 3%nat) (nth 16 bs 0) (drop 17 bs).

Section Ioctl.
  Context {U : Type} `{UM : UserMem U}.

(** The terminal, the processes and the caller's memory. *)
Record desk := MkDesk { d_tty : tty; d_sched : sched; d_mem : U }.

Definition set_d_tty (t : tty) (s : desk) : desk := MkDesk t (d_sched s) (d_mem s).
Definition set_d_sched (c : sched) (s : desk) : desk := MkDesk (d_tty s) c (d_mem s).
Definition set_d_mem (u : U) (s : desk) : desk := MkDesk (d_tty s) (d_sched s) u.

Definition on_tty {A} (m : M tty A) : M desk A := zoom d_tty set_d_tty m.
Definition on_sched {A} (m : M sched A) : M desk A := zoom d_sched set_d_sched m.
Definition on_mem {A} (m : M U A) : M desk A := zoom d_mem set_d_mem m.

(** [me] is the terminal's address. *)
Definition disown (me : Z) : M desk unit :=
  _ ← on_sched (l ← all_list; for_each l (fun q => pr ← pget q; when (ctty pr =? me) (pset q (set_ctty 0))));
  on_tty (modify (set_owner 0 0)).

Definition request_size (req : Z) : Z :=
  if one_of req [TCGETS; TCSETS; TCSETSW; TCSETSF] then 36 else if one_of req [TIOCGWINSZ; TIOCSWINSZ] then 8 else 4.
Definition request_out (req : Z) : bool := one_of req [TCGETS; TIOCGWINSZ; TIOCGPGRP; FIONREAD; TIOCGSID].

(** TCSETS, after the flush of TCSETSF. *)
Definition set_termios (arg : Z) : M desk Z :=
  t ← gets d_tty;
  bs ← on_mem (load_bytes arg 36);
  _ ← on_tty (modify (set_tio (bytes_termios bs)));
  t' ← gets d_tty;
  _ ← when (canonical t && negb (canonical t') && (0 <? line_len t'))
        (on_tty (_ ← queue (edited t'); modify (fun t => set_line (line t) 0 t)));
  mret 0.

Definition set_winsize (arg : Z) : M desk Z :=
  t ← gets d_tty;
  bs ← on_mem (load_bytes arg 8);
  let row := le_value (take 2 bs) in
  let col := le_value (take 2 (drop 2 bs)) in
  _ ← when (negb (row =? rows t) || negb (col =? cols t))
        (on_tty (_ ← modify (set_size row col); when (negb (tty_pgrp t =? 0)) (emit (Sig (tty_pgrp t) SIGWINCH))));
  mret 0.

(** TIOCSCTTY and TIOCNOTTY: the controlling terminal of the caller [p]. *)
Definition take_tty (me arg : Z) : M desk Z :=
  p ← gets (fun s => current (d_sched s));
  pr ← on_sched (pget p);
  t ← gets d_tty;
  if (ctty pr =? me) && (tty_sid t =? sid pr) then mret 0 else
  if negb (sid pr =? pid pr) || negb (ctty pr =? 0) then mret (- EPERM) else
  if negb (tty_sid t =? 0) && (negb (arg =? 1) || negb (euid pr =? 0)) then mret (- EPERM) else
  _ ← when (negb (tty_sid t =? 0)) (disown me);
  _ ← on_tty (modify (set_owner (sid pr) (pgid pr)));
  _ ← on_sched (pset p (set_ctty me));
  mret 0.

Definition leave_tty (me : Z) : M desk Z :=
  p ← gets (fun s => current (d_sched s));
  pr ← on_sched (pget p);
  if negb (ctty pr =? me) then mret (- ENOTTY) else
  _ ← (if sid pr =? pid pr then disown me else on_sched (pset p (set_ctty 0)));
  mret 0.

Definition set_pgrp (me arg : Z) : M desk Z :=
  p ← gets (fun s => current (d_sched s));
  pr ← on_sched (pget p);
  t ← gets d_tty;
  if negb (ctty pr =? me) || negb (sid pr =? tty_sid t) then mret (- ENOTTY) else
  g ← on_mem (load32 arg);
  _ ← on_tty (modify (set_owner (tty_sid t) g));
  mret 0.

Definition put_int (arg v : Z) : M desk Z := _ ← on_mem (store32 arg v); mret 0.

Definition tty_ioctl (me req arg : Z) : M desk Z :=
  if (req =? TCSBRK) || (req =? TCSBRKP) then mret 0 else
  ok ← (if one_of req [TIOCSCTTY; TIOCNOTTY; TCFLSH] then mret true else on_mem (user_ok arg (request_size req) (request_out req)));
  if negb ok then mret (- EFAULT) else
  t ← gets d_tty;
  if req =? TCGETS then _ ← on_mem (store_bytes arg (termios_bytes (tio t))); mret 0
  else if req =? TCSETSF then _ ← on_tty flush_input; set_termios arg
  else if (req =? TCSETS) || (req =? TCSETSW) then set_termios arg
  else if req =? TCFLSH then _ ← when ((arg =? 0) || (arg =? 2)) (on_tty flush_input); mret 0
  else if req =? TIOCGWINSZ then
    _ ← on_mem (store_bytes arg (le_bytes 2 (rows t) ++ le_bytes 2 (cols t) ++ le_bytes 2 0 ++ le_bytes 2 0)); mret 0
  else if req =? TIOCSWINSZ then set_winsize arg
  else if req =? FIONREAD then put_int arg (in_len t)
  else if req =? TIOCSCTTY then take_tty me arg
  else if req =? TIOCNOTTY then leave_tty me
  else if req =? TIOCGPGRP then put_int arg (tty_pgrp t)
  else if req =? TIOCSPGRP then set_pgrp me arg
  else if req =? TIOCGSID then if tty_sid t =? 0 then mret (- ENOTTY) else put_int arg (tty_sid t)
  else mret (- EINVAL).
End Ioctl.
Arguments desk : clear implicits.
