(* ===== verification/TtyLine.v ===== *)
(** * The line discipline

    A terminal seen from outside is the line being edited, the bytes ready to
    be read and the count of pending ends of file. [tty_input] implements a
    step of this view for every byte and all settings, and never leaves its
    buffers; lines typed and edited come out of [tty_read] one by one. *)
From S2P Require Import Prelude Types UserMem Ring Pipe Sched Signal Tty.

Record tty_inv (t : tty) : Prop := {
  ti_line : length (line t) = Z.to_nat TTY_BUF;
  ti_len : 0 <= line_len t < TTY_BUF;
  ti_ring : ring_ok TTY_BUF (inq t) (in_head t) (in_len t);
  ti_eof : 0 <= eof t < 2 ^ 32;
}.

Definition ready (t : tty) : list Z := ring TTY_BUF (inq t) (in_head t) (in_len t).

(** ** The view *)

Record view := MkView { v_edit : list Z; v_ready : list Z; v_eof : Z }.

Definition see (t : tty) : view := MkView (edited t) (ready t) (eof t).

Inductive kind := KSignal | KRaw | KErase | KKill | KEof | KNewline | KOther.

#[global] Instance kind_eq_dec : EqDecision kind.
Proof. solve_decision. Defined.

(** What a byte means under the settings. *)
Definition meaning (io : termios) (c : Z) : kind * Z :=
  let c := if flag (iflag io) ICRNL && (c =? 13) then 10 else c in
  let cc_is k := schar c =? nth k (cc io) 0 in
  (if flag (lflag io) ISIG && (cc_is VINTR || cc_is VQUIT || cc_is VSUSP) then KSignal
   else if negb (flag (lflag io) ICANON) then KRaw
   else if cc_is VERASE || (c =? 8) then KErase
   else if cc_is VKILL then KKill
   else if cc_is VEOF then KEof
   else if c =? 10 then KNewline else KOther, c).

(** Bytes enter the queue as far as there is room. *)
Definition enter (bs : list Z) (v : view) : view := MkView (v_edit v) (take (Z.to_nat TTY_BUF) (v_ready v ++ bs)) (v_eof v).
Definition with_edit (l : list Z) (v : view) : view := MkView l (v_ready v) (v_eof v).

Definition edit_step (k : kind) (c : Z) (l : list Z) : list Z :=
  match k with
  | KErase => take (length l - 1) l
  | KKill => []
  | KOther => if Z.of_nat (length l) <? TTY_BUF - 1 then l ++ [c] else l
  | _ => l
  end.

Definition view_step (k : kind) (c : Z) (v : view) : view :=
  match k with
  | KSignal => MkView [] [] 0
  | KRaw => enter [c] v
  | KEof => if bool_decide (v_edit v = []) then MkView [] (v_ready v) (u32 (v_eof v + 1)) else with_edit [] (enter (v_edit v) v)
  | KNewline => with_edit [] (enter (v_edit v ++ [10]) v)
  | KErase | KKill | KOther => with_edit (edit_step k c (v_edit v)) v
  end.

(** ** Output changes nothing else *)

Definition says (t t' : tty) : Prop := exists es, t' = set_sent (sent t ++ es) t.

#[global] Instance says_preorder : PreOrder says.
Proof.
  split; [intros t; exists []; rewrite app_nil_r; by destruct t|].
  intros t1 t2 t3 [es ->] [es' ->]. exists (es ++ es'). cbn. by rewrite app_assoc.
Qed.

Lemma wp_emit e (Q : unit -> tty -> Prop) t : Q tt (set_sent (sent t ++ [e]) t) -> wp (emit e) Q t.
Proof. done. Qed.

Lemma output_ok c t : wp (output c) (fun _ t' => says t t') t.
Proof.
  unfold output. wp_steps; apply wp_emit; [apply wp_emit|]; [exists ([Out 13] ++ [Out c])|by eexists]. cbn. by rewrite <- app_assoc.
Qed.

Lemma echo_ok c t : wp (echo c) (fun _ t' => says t t') t.
Proof.
  unfold echo. wp_steps. destruct (negb _); [by wp_steps|]. destruct ((c <? 32) && _ && _); [|apply output_ok]. wp_step. eapply wp_mono; [apply output_ok|].
  intros [] t1 H1. eapply wp_mono; [apply output_ok|]. intros [] t2 H2. by transitivity t1.
Qed.

Lemma wipe_ok t : wp wipe (fun _ t' => says t t') t.
Proof.
  unfold wipe. wp_step. eapply wp_mono; [apply output_ok|]. intros [] t1 H1. wp_step. eapply wp_mono; [apply output_ok|]. intros [] t2 H2.
  eapply wp_mono; [apply output_ok|]. intros [] t3 H3. etransitivity; [done|]. by etransitivity.
Qed.

Lemma says_see t t' : says t t' -> tty_inv t -> tty_inv t' /\ see t' = see t.
Proof. intros [es ->] []. by split; [split|]. Qed.

(** ** One byte of input *)

(** The settings and the owner stay; a reader that has to be woken is. *)
Record acted (t t' : tty) : Prop := {
  ac_tio : tio t' = tio t;
  ac_owner : (tty_sid t', tty_pgrp t', rows t', cols t') = (tty_sid t, tty_pgrp t, rows t, cols t);
  ac_sent : exists es, sent t' = sent t ++ es /\ (tty_readable t = false -> tty_readable t' = true -> Wake ∈ es);
}.

Lemma says_acted t t' : says t t' -> acted t t'.
Proof. intros [es ->]. split; [done..|]. exists es. split; [done|]. intros H1 H2. change (tty_readable t = true) in H2. congruence. Qed.

(** Steps before and after which the same is readable. *)
Lemma acted_quiet t t1 t' : tty_readable t1 = tty_readable t -> acted t t1 -> acted t1 t' -> acted t t'.
Proof.
  intros E [A1 A2 (es & A3 & _)] [B1 B2 (es' & B3 & B4)]. split; [congruence..|]. exists (es ++ es'). rewrite B3, A3, app_assoc. split; [done|]. rewrite E in B4. intros; apply elem_of_app; auto.
Qed.

Lemma queue_bytes_ok bs t : ring_ok TTY_BUF (inq t) (in_head t) (in_len t) ->
  wp (queue_bytes bs) (fun _ t' => exists b n, t' = set_in b (in_head t) n t /\ ring_ok TTY_BUF b (in_head t) n
    /\ ring TTY_BUF b (in_head t) n = take (Z.to_nat TTY_BUF) (ready t ++ bs)) t.
Proof.
  revert t. induction bs as [|c bs IH]; intros t Hok; cbn [queue_bytes].
  - wp_steps. exists (inq t), (in_len t). split; [by destruct t|]. split; [done|]. rewrite app_nil_r, take_ge; [done|]. unfold ready. pose proof (length_ring _ _ _ _ Hok). pose proof (ring_len _ _ _ _ Hok). lia.
  - wp_steps. pose proof (length_ring _ _ _ _ Hok) as El. destruct (Z.ltb_spec (in_len t) TTY_BUF) as [Hlt|Hge].
    + fold (slot TTY_BUF (in_head t) (in_len t)). destruct (lookup_lt_is_Some_2 (inq t) (slot TTY_BUF (in_head t) (in_len t))) as [x Hx]; [by eapply slot_lt|].
      wp_step. eapply wp_lift; [done|]. wp_steps. destruct (ring_push _ _ _ _ c Hok Hlt) as [Hok' Hr]. eapply wp_mono; [by apply IH|].
      intros [] t' (b & n & -> & Hok2 & Hr2). exists b, n. split_and!; [done|done|]. cbn in Hr2. rewrite Hr2. unfold ready. cbn [inq in_head in_len set_in]. by rewrite Hr, <- app_assoc.
    + wp_steps. exists (inq t), (in_len t). split; [by destruct t|]. split; [done|]. rewrite take_app_le by (unfold ready; lia). rewrite take_ge; [done|]. unfold ready. pose proof (ring_len _ _ _ _ Hok). lia.
Qed.

Definition canon_of (io : termios) : bool := flag (lflag io) ICANON.

Lemma acted_woken t t1 t' es : acted t t1 -> sent t1 = sent t ++ es -> Wake ∈ es -> acted t1 t' -> acted t t'.
Proof.
  intros [A1 A2 _] E Hw [B1 B2 (es' & B3 & _)]. split; [congruence..|]. exists (es ++ es'). rewrite B3, E, app_assoc. split; [done|]. intros; apply elem_of_app; auto.
Qed.

(** Only the line changes. *)
Lemma acted_line l k t : acted t (set_line l k t).
Proof. split; [done..|]. exists []. rewrite app_nil_r. split; [done|]. intros H1 H2. change (tty_readable t = true) in H2. congruence. Qed.

Lemma kill_loop_ok n t : 0 <= line_len t -> (Z.to_nat (line_len t) <= n)%nat ->
  wp (kill_loop n) (fun _ t' => exists k es, 0 <= k /\ t' = set_sent (sent t ++ es) (set_line (line t) k t)) t.
Proof.
  revert t. induction n as [|n IH]; intros t Hl Hn; cbn [kill_loop]; wp_steps.
  all: destruct (Z.ltb_spec 0 (line_len t)); cbn [andb]; [|wp_steps; exists (line_len t), []; split; [lia|]; rewrite app_nil_r; by destruct t]; try lia.
  destruct (flag _ _); [|wp_steps; exists (line_len t), []; split; [lia|]; rewrite app_nil_r; by destruct t]. wp_steps. eapply wp_mono; [apply wipe_ok|]. intros [] t1 [es1 ->].
  eapply wp_mono; [apply IH; cbn; lia|]. intros [] t' (k & es & Hk & ->). exists k, (es1 ++ es). split; [done|]. cbn. by rewrite app_assoc.
Qed.

(** The view with another line. *)
Lemma see_set_line l k t : tty_inv t -> length l = Z.to_nat TTY_BUF -> 0 <= k < TTY_BUF -> tty_inv (set_line l k t) /\ see (set_line l k t) = with_edit (take (Z.to_nat k) l) (see t).
Proof. intros [] Hl Hk. by split; [split|]. Qed.

Lemma length_edited t : tty_inv t -> Z.of_nat (length (edited t)) = line_len t.
Proof. intros []. unfold edited. rewrite length_take. lia. Qed.

(** What a step of input comes to. *)
Definition stepped (t : tty) (v : view) (t' : tty) : Prop := tty_inv t' /\ see t' = v /\ acted t t'.

Lemma stepped_says t t1 v t' : says t t1 -> stepped t1 v t' -> stepped t v t'.
Proof.
  intros Hs (Hi & Hv & Ha). split_and!; [done|done|]. eapply acted_quiet; [|by apply says_acted|done]. by destruct Hs as [es ->].
Qed.

Lemma says_stepped t t1 v t' : stepped t v t1 -> says t1 t' -> stepped t v t'.
Proof.
  intros (Hi & Hv & [A1 A2 (es & A3 & A4)]) Hs. destruct (says_see _ _ Hs Hi) as [Hi' Hv']. destruct Hs as [es' ->]. split_and!; [done|congruence|]. split; [done..|]. exists (es ++ es'). cbn. rewrite A3, app_assoc. split; [done|].
  intros H1 H2. apply elem_of_app. left. by apply A4.
Qed.

Lemma flush_ok t : tty_inv t -> wp flush_input (fun _ t' => stepped t (MkView [] [] 0) t' /\ tty_pgrp t' = tty_pgrp t) t.
Proof.
  intros [Hl Hk Hr He]. unfold flush_input. wp_steps. assert (0 < TTY_BUF) by done. destruct (ring_empty TTY_BUF (inq t) (ring_cells _ _ _ _ Hr)) as [Hr' E]; [done|]. split; [|done].
  split_and!; [split; cbn; done|by unfold see, ready, edited; cbn|]. split; [done..|]. exists []. rewrite app_nil_r. split; [done|]. unfold tty_readable, canonical. cbn. intros H1 H2.
  destruct (flag _ _); [done|]. destruct (0 <? in_len t); [done|]. cbn in *. congruence.
Qed.

(** The line leaves for the queue, with [bs] as it stands; it may fill its array. *)
Lemma leave_ok t bs : tty_inv (set_line (line t) 0 t) ->
  wp (_ ← queue bs; modify (fun t => set_line (line t) 0 t)) (fun _ => stepped t (with_edit [] (enter bs (see t)))) t.
Proof.
  intros [Hl _ Hr He]. unfold queue. wp_steps. eapply wp_mono; [by apply queue_bytes_ok|]. intros [] t' (b & n & -> & Hok & E). apply wp_emit. wp_steps. cbn.
  split_and!; [by split|unfold see, with_edit, enter; cbn; f_equal; exact E|]. split; [done..|]. exists [Wake]. split; [done|]. set_solver.
Qed.

Lemma inv_no_line t : tty_inv t -> tty_inv (set_line (line t) 0 t).
Proof. by intros []. Qed.

Lemma stepped_quiet t t1 v t' : tty_readable t1 = tty_readable t -> acted t t1 -> stepped t1 v t' -> stepped t v t'.
Proof. intros E Ha (? & ? & ?). split_and!; [done|done|by eapply acted_quiet]. Qed.

Lemma line_step l k t v : tty_inv t -> length l = Z.to_nat TTY_BUF -> 0 <= k < TTY_BUF -> v = with_edit (take (Z.to_nat k) l) (see t) -> stepped t v (set_line l k t).
Proof. intros Hi Hl Hk ->. destruct (see_set_line l k t Hi Hl Hk). split_and!; [done|done|apply acted_line]. Qed.

Lemma erase_ok t : tty_inv t ->
  wp (when (0 <? line_len t) (_ ← modify (set_line (line t) (line_len t - 1)); when (flags_all (lflag (tio t)) (Z.lor ECHO ECHOE)) wipe))
    (fun _ => stepped t (with_edit (edit_step KErase 0 (edited t)) (see t))) t.
Proof.
  intros Hi. pose proof Hi as [Hl Hk _ _]. pose proof (length_edited t Hi) as El. cbn [edit_step].
  assert (take (length (edited t) - 1) (edited t) = take (Z.to_nat (line_len t - 1)) (line t)) as E by (unfold edited at 2; rewrite take_take; f_equal; lia). rewrite E.
  wp_step.
  - apply Z.ltb_lt in H. wp_step. wp_step. assert (stepped t (with_edit (take (Z.to_nat (line_len t - 1)) (line t)) (see t)) (set_line (line t) (line_len t - 1) t)) as Hs by (apply line_step; done || lia).
    wp_step; [|done]. eapply wp_mono; [apply wipe_ok|]. intros [] t' Ht. by eapply says_stepped.
  - apply Z.ltb_ge in H. replace (Z.to_nat (line_len t - 1)) with (Z.to_nat (line_len t)) by lia. split_and!; [done|done|]. apply says_acted. reflexivity.
Qed.

Lemma kill_line_ok t : tty_inv t ->
  wp (_ ← kill_loop (Z.to_nat (line_len t)); modify (fun t => set_line (line t) 0 t)) (fun _ => stepped t (with_edit [] (see t))) t.
Proof.
  intros Hi. wp_step. eapply wp_mono; [apply kill_loop_ok; [apply Hi|done]|]. intros [] t' (k & es & Hk & ->). wp_steps. cbn.
  apply (says_stepped _ (set_line (line t) 0 t)); [apply line_step; [done|apply Hi|done|done]|]. by exists es.
Qed.

Lemma other_ok c t : tty_inv t ->
  wp (_ ← when ((line_len t <? TTY_BUF - 1) || (c =? 10))
          (_ ← lift (line t !! Z.to_nat (line_len t));
           _ ← modify (set_line (<[Z.to_nat (line_len t) := c]> (line t)) (line_len t + 1));
           echo c);
      when (c =? 10) (t' ← get; _ ← queue (edited t'); modify (fun t => set_line (line t) 0 t)))
    (fun _ => stepped t (view_step (if c =? 10 then KNewline else KOther) c (see t))) t.
Proof.
  intros Hi. pose proof Hi as [Hl Hk _ _]. pose proof (length_edited t Hi) as El. destruct (lookup_lt_is_Some_2 (line t) (Z.to_nat (line_len t))) as [x Hx]; [lia|].
  assert (take (Z.to_nat (line_len t + 1)) (<[Z.to_nat (line_len t) := c]> (line t)) = edited t ++ [c]) as Et.
  { replace (Z.to_nat (line_len t + 1)) with (S (Z.to_nat (line_len t))) by lia. erewrite take_S_r; [|apply list_lookup_insert_eq; lia]. by rewrite take_insert_ge by lia. }
  assert (length (<[Z.to_nat (line_len t) := c]> (line t)) = Z.to_nat TTY_BUF) as El' by by rewrite length_insert.
  destruct (Z.eqb_spec c 10) as [Hc|Hc].
  - rewrite orb_true_r. wp_step. wp_step; [|done]. wp_step. eapply wp_lift; [done|]. wp_steps. eapply wp_mono; [apply echo_ok|]. intros [] t1 Hs. wp_step; [|done]. do 2 wp_step.
    eapply wp_mono; [apply leave_ok; destruct Hs as [es ->]; destruct Hi; by split|]. intros [] t2 Ht2. apply (stepped_quiet t t1); [by destruct Hs as [es ->]|eapply acted_quiet; [| |by apply says_acted]; [done|apply acted_line]|].
    destruct Hs as [es ->]. cbn in Ht2. unfold edited at 1 in Ht2. cbn in Ht2. rewrite Et in Ht2. subst c. exact Ht2.
  - rewrite orb_false_r. wp_step. eapply wp_mono with (P := fun _ => stepped t (with_edit (edit_step KOther c (edited t)) (see t))); [|intros [] t' Ht; wp_step; [done|exact Ht]]. cbn [edit_step]. rewrite El. wp_step.
    + apply Z.ltb_lt in H as Hlt. rewrite H. wp_step. eapply wp_lift; [done|]. wp_steps. eapply wp_mono; [apply echo_ok|]. intros [] t' Hs. eapply says_stepped; [|done]. apply line_step; [done|done|lia|by rewrite Et].
    + rewrite H. split_and!; [done|by destruct t|]. apply says_acted. reflexivity.
Qed.

Lemma tty_input_ok c t : tty_inv t ->
  wp (tty_input c) (fun _ => stepped t (let '(k, c') := meaning (tio t) c in view_step k c' (see t))) t.
Proof.
  intros Hi. unfold tty_input, meaning. wp_step. wp_step. set (d := if flag (iflag (tio t)) ICRNL && (c =? 13) then 10 else c). fold (is_cc d VINTR t) (is_cc d VQUIT t) (is_cc d VSUSP t) (is_cc d VERASE t) (is_cc d VKILL t) (is_cc d VEOF t).
  set (sig := if negb _ then 0 else _). assert ((sig =? 0) = negb (flag (lflag (tio t)) ISIG && (is_cc d VINTR t || is_cc d VQUIT t || is_cc d VSUSP t))) as Es.
  { subst sig. destruct (flag _ ISIG), (is_cc d VINTR t), (is_cc d VQUIT t), (is_cc d VSUSP t); done. }
  rewrite Es, negb_involutive. clearbody sig. destruct (flag (lflag (tio t)) ISIG && _).
  { wp_step. eapply wp_mono; [by apply flush_ok|]. intros [] t1 [Ht1 Ep]. wp_step. eapply wp_mono; [apply echo_ok|]. intros [] t2 Hs.
    wp_step; [apply wp_emit|]; (eapply says_stepped; [done|]); [etransitivity; [done|]; by eexists|done]. }
  destruct (negb (flag (lflag (tio t)) ICANON)).
  { wp_step. eapply wp_mono; [apply echo_ok|]. intros [] t1 Hs. destruct (says_see _ _ Hs Hi) as [Hi1 Hv]. unfold queue. wp_step. eapply wp_mono; [apply queue_bytes_ok, Hi1|].
    intros [] t2 (b & n & -> & Hok & E). apply wp_emit. eapply stepped_says; [done|]. rewrite <- Hv. destruct Hi1. cbn [view_step]. split_and!; [by split|unfold see, enter; cbn; f_equal; exact E|].
    split; [done..|]. exists [Wake]. split; [done|set_solver]. }
  unfold canonical_input. wp_step. wp_step. destruct (is_cc d VERASE t || (d =? 8)); [eapply wp_mono; [by apply erase_ok|done]|]. destruct (is_cc d VKILL t); [by apply kill_line_ok|].
  destruct (is_cc d VEOF t); [|by apply other_ok].
  pose proof (length_edited t Hi) as El. cbn [view_step see v_edit]. case_bool_decide as He; destruct (Z.eqb_spec (line_len t) 0) as [Hz|Hz]; try (rewrite He in El; cbn in El; lia).
  - wp_steps. apply wp_emit. cbn. destruct Hi. split_and!; [split; try done; apply u32_bound|unfold see; cbn; f_equal; unfold edited; cbn; by rewrite Hz|]. split; [done..|]. exists [Wake]. split; [done|set_solver].
  - destruct He. apply length_zero_iff_nil. lia.
  - by apply leave_ok, inv_no_line.
Qed.

(** ** Reading *)

(** At most [n] bytes, and in canonical mode not past the end of a line. *)
Fixpoint cut (canon : bool) (n : nat) (l : list Z) : list Z :=
  match n, l with
  | S n', c :: l' => c :: (if canon && (c =? 10) then [] else cut canon n' l')
  | _, _ => []
  end.

Lemma take_in_ok canon n t : ring_ok TTY_BUF (inq t) (in_head t) (in_len t) ->
  wp (take_in canon n) (fun bs t' => bs = cut canon n (ready t) /\ exists h k, t' = set_in (inq t) h k t /\ ring_ok TTY_BUF (inq t) h k
    /\ ring TTY_BUF (inq t) h k = drop (length bs) (ready t)) t.
Proof.
  revert t. induction n as [|n IH]; intros t Hok; cbn [take_in]. { wp_steps. split; [done|]. exists (in_head t), (in_len t). split; [by destruct t|]. by rewrite drop_0. }
  wp_steps. pose proof (ring_len _ _ _ _ Hok) as Hn. destruct (Z.eqb_spec (in_len t) 0) as [E|E].
  { wp_steps. assert (ready t = []) as Er by (unfold ready; by rewrite E). rewrite Er. split; [done|]. exists (in_head t), (in_len t). split; [by destruct t|]. split; [done|exact Er]. }
  destruct (ring_pop _ _ _ _ Hok) as [Hok' (c & Hc & Er)]; [lia|]. wp_step. eapply wp_lift; [done|]. wp_steps. fold (ready t) in Er. rewrite Er. cbn [cut].
  destruct (canon && (c =? 10)); wp_steps. { split; [done|]. eexists _, _. split; [done|]. split; [done|]. cbn [length]. by rewrite skipn_cons, drop_0. }
  eapply wp_mono; [by apply IH|]. intros bs t' (-> & h & k & -> & Hok2 & Er2). wp_steps. split; [done|]. exists h, k. split; [done|]. by split.
Qed.

(** What a read finds, in the order the code looks. *)
Definition read_view (sig : bool) (n : Z) (io : termios) (v : view) : outcome unit * view :=
  let bs := cut (canon_of io) (Z.to_nat n) (v_ready v) in
  if negb (bool_decide (v_ready v = [])) then (Returned (Z.of_nat (length bs)) bs, MkView (v_edit v) (drop (length bs) (v_ready v)) (v_eof v))
  else if canon_of io && (0 <? v_eof v) then (Returned 0 [], MkView (v_edit v) [] (v_eof v - 1))
  else if negb (canon_of io) && (nth VMIN (cc io) 0 =? 0) then (Returned 0 [], v)
  else (if sig then Returned (- ERESTARTSYS) [] else Sleeps tt, v).

Lemma ready_empty t : tty_inv t -> ready t = [] <-> in_len t = 0.
Proof. intros []. pose proof (length_ring _ _ _ _ ti_ring0) as E. fold (ready t) in E. split; [intros Hz; rewrite Hz in E; cbn in E; lia|intros Hz; apply length_zero_iff_nil; lia]. Qed.

Lemma tty_read_ok sig n t : tty_inv t ->
  wp (tty_read sig n) (fun o t' => tty_inv t' /\ (o, see t') = read_view sig n (tio t) (see t) /\ tio t' = tio t) t.
Proof.
  intros Hi. pose proof (ready_empty t Hi) as Hz. pose proof Hi as [Hl Hk Hr He]. unfold tty_read, read_turn, read_view. wp_steps. fold (canon_of (tio t)) (canonical t). change (canon_of (tio t)) with (canonical t). cbn [see v_ready v_eof v_edit].
  pose proof (ring_len _ _ _ _ Hr). destruct (Z.ltb_spec 0 (in_len t)).
  - rewrite bool_decide_eq_false_2 by (intros E; apply Hz in E; lia). cbn [negb]. wp_step. eapply wp_mono; [by apply take_in_ok|]. intros bs t' (-> & h & k & -> & Hok & Er). wp_steps. split_and!; [by split|unfold see; cbn; do 2 f_equal; exact Er|done].
  - rewrite bool_decide_eq_true_2 by (apply Hz; lia). cbn [negb]. destruct (canonical t) eqn:Ec; cbn [andb negb].
    + destruct (Z.ltb_spec 0 (eof t)); wp_steps. { split_and!; [split; try done; cbn; lia| |done]. unfold see. cbn. do 2 f_equal. apply Hz. lia. } destruct sig; wp_steps; done.
    + destruct (_ =? 0); wp_steps; [done|]. destruct sig; wp_steps; done.
Qed.

(** ** Whole lines *)

Definition typed (io : termios) (bs : list Z) (v : view) : view :=
  foldl (fun v c => let '(k, c') := meaning io c in view_step k c' v) v bs.

Lemma type_ok bs t : tty_inv t ->
  wp (for_each bs tty_input) (fun _ t' => tty_inv t' /\ tio t' = tio t /\ see t' = typed (tio t) bs (see t)) t.
Proof.
  revert t. induction bs as [|c bs IH]; intros t Hi; cbn [for_each]; wp_step; [done|]. eapply wp_mono; [by apply tty_input_ok|].
  intros [] t1 (Hi1 & Hv & [Et _ _]). eapply wp_mono; [by apply IH|]. intros [] t2 (Hi2 & Et2 & Hv2). split_and!; [done|congruence|]. rewrite Hv2, Et, Hv. done.
Qed.

(** Bytes that only edit the line. *)
Definition edits (io : termios) (c : Z) : bool := match (meaning io c).1 with KErase | KKill | KOther => true | _ => false end.

Definition edit_line (io : termios) (bs : list Z) : list Z := foldl (fun l c => let '(k, c') := meaning io c in edit_step k c' l) [] bs.

Lemma typed_app io bs bs' v : typed io (bs ++ bs') v = typed io bs' (typed io bs v).
Proof. apply foldl_app. Qed.

Lemma typed_edits io bs v : Forall (fun c => edits io c = true) bs ->
  typed io bs v = with_edit (foldl (fun l c => let '(k, c') := meaning io c in edit_step k c' l) (v_edit v) bs) v.
Proof.
  intros H. revert v. induction H as [|c bs Hc _ IH]; intros v; [by destruct v|]. unfold typed in *. cbn [foldl]. unfold edits in Hc. destruct (meaning io c) as [k c']. cbn [fst] in Hc.
  rewrite IH. by destruct k.
Qed.

(** A line and its newline [nl]. *)
Lemma typed_line io bs nl v : Forall (fun c => edits io c = true) bs -> meaning io nl = (KNewline, 10) -> v_edit v = [] ->
  typed io (bs ++ [nl]) v = enter (edit_line io bs ++ [10]) v.
Proof. intros Hb Hn He. rewrite typed_app, (typed_edits _ _ _ Hb), He. unfold typed. cbn [foldl]. rewrite Hn. unfold enter, with_edit. cbn. by rewrite He. Qed.

(** The bytes of the lines as a program reads them. *)
Definition lines_of (io : termios) (ls : list (list Z)) : list (list Z) := (fun l => edit_line io l ++ [10]) <$> ls.

Definition keys (nl : Z) (ls : list (list Z)) : list Z := concat ((fun l => l ++ [nl]) <$> ls).

Lemma typed_lines io ls nl v :
  Forall (Forall (fun c => edits io c = true)) ls -> meaning io nl = (KNewline, 10) -> v_edit v = [] ->
  (length (v_ready v) + length (concat (lines_of io ls)) <= Z.to_nat TTY_BUF)%nat ->
  typed io (keys nl ls) v = MkView [] (v_ready v ++ concat (lines_of io ls)) (v_eof v).
Proof.
  intros Hls Hn. revert v. induction Hls as [|l ls Hl _ IH]; intros v He Hlen. { destruct v. cbn in *. by rewrite He, app_nil_r. }
  unfold keys, lines_of in *. cbn [fmap list_fmap concat] in *. rewrite length_app in Hlen. rewrite typed_app, (typed_line io l nl v Hl Hn He). rewrite IH; [|done|].
  - unfold enter. cbn [v_ready v_eof]. rewrite take_ge by (rewrite length_app; lia). by rewrite <- app_assoc.
  - unfold enter. cbn [v_ready]. rewrite take_ge by (rewrite length_app; lia). rewrite length_app. lia.
Qed.

Lemma edit_step_no_newline io c l : edits io c = true -> Forall (fun x => x <> 10) l -> Forall (fun x => x <> 10) (let '(k, c') := meaning io c in edit_step k c' l).
Proof.
  unfold edits. destruct (meaning io c) as [k c'] eqn:E. cbn [fst]. intros Hk Hl. destruct k; try done; cbn [edit_step]; [by apply Forall_take|].
  destruct (_ <? _); [|done]. apply Forall_app. split; [done|]. constructor; [|done]. unfold meaning in E. intros ->. injection E as E1 E2. rewrite E2 in E1. repeat destruct (if _ then _ else _) in E1; repeat case_match; done.
Qed.

Lemma edit_line_no_newline io bs : Forall (fun c => edits io c = true) bs -> Forall (fun x => x <> 10) (edit_line io bs).
Proof.
  unfold edit_line. assert (Forall (fun x : Z => x <> 10) []) as H0 by constructor. revert H0. generalize (@nil Z). intros l0 H0 H. revert l0 H0. induction H as [|c bs Hc _ IH]; intros l0 H0; [done|]. cbn [foldl].
  apply IH. by apply edit_step_no_newline.
Qed.

Lemma cut_line n l rest : Forall (fun x => x <> 10) l -> (length l < n)%nat -> cut true n ((l ++ [10]) ++ rest) = l ++ [10].
Proof.
  intros Hl. revert n. induction Hl as [|c l Hc _ IH]; intros n Hn; destruct n as [|n]; cbn in *; try lia; [done|]. destruct (Z.eqb_spec c 10); [done|]. f_equal. apply IH. lia.
Qed.

Fixpoint read_all (k : nat) (n : Z) : M tty (list (outcome unit)) :=
  match k with O => mret [] | S k' => o ← tty_read false n; os ← read_all k' n; mret (o :: os) end.

Lemma read_all_ok ls n t :
  tty_inv t -> canonical t = true -> Forall (Forall (fun x => x <> 10)) ls -> ready t = concat ((fun l => l ++ [10]) <$> ls) -> TTY_BUF <= n ->
  wp (read_all (length ls) n) (fun os t' => os = (fun l => Returned (Z.of_nat (length l) + 1) (l ++ [10])) <$> ls /\ tty_inv t' /\ canonical t' = true /\ ready t' = [] /\ eof t' = eof t) t.
Proof.
  intros Hi Hc Hls. revert t Hi Hc. induction Hls as [|l ls Hl _ IH]; intros t Hi Hc Hr Hn; cbn [length read_all]; [by wp_steps|].
  cbn [fmap list_fmap concat] in Hr. assert (length l < Z.to_nat n)%nat as Hlen. { destruct Hi as [_ _ Hok _]. pose proof (length_ring _ _ _ _ Hok) as E. fold (ready t) in E. rewrite Hr, !length_app in E. cbn in E. pose proof (ring_len _ _ _ _ Hok). lia. }
  wp_step. eapply wp_mono; [by apply tty_read_ok|]. intros o t1 (Hi1 & Ho & Et). unfold read_view in Ho. cbn [see v_ready v_edit v_eof] in Ho. change (canon_of (tio t)) with (canonical t) in Ho.
  rewrite Hc, Hr, cut_line, bool_decide_eq_false_2 in Ho by (done || by destruct l). cbn [negb] in Ho. injection Ho as -> _ Hr1 He1. rewrite drop_app_length in Hr1. 
  wp_step. eapply wp_mono; [apply IH; [done|unfold canonical; by rewrite Et|exact Hr1|done]|]. intros os t2 (-> & Hi2 & Hc2 & Hr2 & He2). wp_steps. split_and!; [|done|done|done|congruence].
  cbn. f_equal. rewrite length_app. cbn. f_equal. lia.
Qed.

(** C8: a byte of input does to the terminal what its meaning under the
    settings does to the view: it edits the line, hands it to the readers as
    far as the queue has room, counts an end of file, or clears everything
    for a signal; the buffers are never left, and a reader who could not read
    before and can now is woken. *)
Theorem tty_input_refines c t : tty_inv t ->
  wp (tty_input c) (fun _ t' => tty_inv t' /\ (see t' = let '(k, c') := meaning (tio t) c in view_step k c' (see t)) /\ tio t' = tio t
    /\ exists es, sent t' = sent t ++ es /\ (tty_readable t = false -> tty_readable t' = true -> Wake ∈ es)) t.
Proof. intros Hi. eapply wp_mono; [by apply tty_input_ok|]. intros [] t' (? & ? & []). done. Qed.

(** C34: lines typed at a terminal with an empty queue, each with whatever
    corrections, come out of the reads one by one, as edited, each with its
    newline; then a read sleeps. *)
Theorem lines_come_out ls nl n t :
  tty_inv t -> see t = MkView [] [] 0 -> canonical t = true -> meaning (tio t) nl = (KNewline, 10) ->
  Forall (Forall (fun c => edits (tio t) c = true)) ls -> (length (concat (lines_of (tio t) ls)) <= Z.to_nat TTY_BUF)%nat -> TTY_BUF <= n ->
  wp (_ ← for_each (keys nl ls) tty_input; os ← read_all (length ls) n; o ← tty_read false n; mret (os, o))
    (fun r _ => r = ((fun l => Returned (Z.of_nat (length l)) l) <$> lines_of (tio t) ls, Sleeps tt)) t.
Proof.
  intros Hi Hv Hc Hn Hls Hlen Hbuf. wp_step. eapply wp_mono; [by apply type_ok|]. intros [] t1 (Hi1 & Et & Hv1). rewrite Hv in Hv1. rewrite typed_lines in Hv1 by done. injection Hv1 as _ Hr1 He1. cbn [v_ready v_eof app] in *.
  rewrite <- (length_fmap (edit_line (tio t)) ls). wp_step. eapply wp_mono; [apply (read_all_ok (edit_line (tio t) <$> ls)); [done|unfold canonical; by rewrite Et| |rewrite Hr1; unfold lines_of; by rewrite <- list_fmap_compose|done]|].
  { apply Forall_fmap. eapply Forall_impl; [exact Hls|]. intros l Hl. by apply edit_line_no_newline. }
  intros os t2 (-> & Hi2 & Hc2 & Hr2 & He2). wp_step. eapply wp_mono; [by apply tty_read_ok|]. intros o t3 (_ & Ho & _). wp_steps. f_equal.
  - unfold lines_of. rewrite <- !list_fmap_compose. apply list_fmap_ext. intros _ l _. unfold compose. rewrite length_app. cbn. f_equal. lia.
  - unfold read_view in Ho. cbn [see v_ready v_eof] in Ho. change (canon_of (tio t2)) with (canonical t2) in Ho. rewrite Hc2, Hr2, bool_decide_eq_true_2, He2, He1 in Ho by done. by injection Ho.
Qed.

(** A terminal as tty_init leaves it. *)
Definition tty0 : tty := MkTty sane (replicate 1024 0) 0 (replicate 1024 0) 0 0 0 0 0 25 80 [].

Lemma tty0_inv : tty_inv tty0.
Proof. by split. Qed.

Lemma tty_input_refines_witness :
  wp (tty_input 13) (fun _ t' => tty_inv t' /\ (see t' = let '(k, c') := meaning sane 13 in view_step k c' (see tty0)) /\ tio t' = sane
    /\ exists es, sent t' = [] ++ es /\ (tty_readable tty0 = false -> tty_readable t' = true -> Wake ∈ es)) tty0.
Proof. apply (tty_input_refines 13 tty0), tty0_inv. Defined.

(** [lx DEL s CR] and [ok CR]. *)
Lemma lines_come_out_witness :
  wp (_ ← for_each (keys 13 [[108; 120; 127; 115]; [111; 107]]) tty_input; os ← read_all 2 4096; o ← tty_read false 4096; mret (os, o))
    (fun r _ => r = ((fun l => Returned (Z.of_nat (length l)) l) <$> lines_of sane [[108; 120; 127; 115]; [111; 107]], Sleeps tt)) tty0
  /\ lines_of sane [[108; 120; 127; 115]; [111; 107]] = [[108; 115; 10]; [111; 107; 10]].
Proof.
  split; [|done]. apply (lines_come_out [[108; 120; 127; 115]; [111; 107]] 13 4096 tty0); [apply tty0_inv|done|done|done|repeat constructor|vm_compute; lia|done].
Defined.

(** The end of file typed before a line is read after it: the counter of ends
    of file does not remember where they stood. *)
Lemma eof_overtaken :
  wp (_ ← for_each [4; 104; 105; 13] tty_input; read_all 2 4096) (fun os _ => os = [Returned 3 [104; 105; 10]; Returned 0 []]) tty0.
Proof. by vm_compute. Qed.
