(* ===== verification/TtyJobs.v ===== *)
(** * Controlling terminals

    Every request of [tty_ioctl] returns for every argument, touches only
    user memory it has checked, and keeps the processes that have the terminal
    as their controlling terminal inside the session that owns it. *)
From S2P Require Import Prelude Types UserMem Ring Pipe Sched Signal Tty TtyLine.

Definition termios_ok (io : termios) : Prop := length (cc io) = 19%nat /\ Forall byte (ldisc io :: cc io).

(** Who has terminal [me] belongs to the session that owns it. *)
Definition owned (me : Z) (t : tty) (T : gmap Z process) : Prop :=
  forall x pr, T !! x = Some pr -> ctty pr = me -> sid pr = tty_sid t /\ tty_sid t <> 0.

Section Jobs.
  Context {U : Type} `{UM : UserMem U}.
  Context (me : Z) (qs : list (list Z)) (all : list Z).

(** The caller is a process with a pid. *)
Record desk_ok (s : desk U) : Prop := {
  dk_sched : sched_inv (d_sched s) qs all;
  dk_tty : tty_inv (d_tty s);
  dk_tio : termios_ok (tio (d_tty s));
  dk_mem : um_inv (d_mem s);
  dk_owned : owned me (d_tty s) (table (d_sched s));
  dk_me : me <> 0;
  dk_caller : exists pr, table (d_sched s) !! current (d_sched s) = Some pr /\ pid pr <> 0;
}.

Lemma set_ctty_quiet v : quiet (set_ctty v).
Proof. split; by intros []. Qed.

(** What losing the terminal does to a process. *)
Definition loses (pr : process) : process := if ctty pr =? me then set_ctty 0 pr else pr.

Lemma disown_walk c : sched_inv c qs all ->
  wp (l ← all_list; for_each l (fun q => pr ← pget q; when (ctty pr =? me) (pset q (set_ctty 0))))
    (fun _ c' => sched_inv c' qs all /\ current c' = current c /\ table c' = loses <$> table c) c.
Proof.
  intros Hi. wp_step. eapply wp_mono; [eapply all_list_ok; [apply Hi|done]|]. intros l c0 [-> ->]. pose proof (bi_dom _ _ _ _ (sv_base _ _ _ Hi)) as Hdom.
  apply (wp_for_each (fun seen c' => sched_inv c' qs all /\ current c' = current c /\ forall x, table c' !! x = if decide (x ∈ seen) then loses <$> table c !! x else table c !! x)).
  - split_and!; [done|done|]. intros x. rewrite decide_False by set_solver. done.
  - intros seen q todo c' E (Hi' & Hc & Ht). assert (q ∉ seen) as Hq. { pose proof (bi_nodup _ _ _ _ (sv_base _ _ _ Hi)) as Hnd. rewrite E in Hnd. apply NoDup_app in Hnd as (_ & Hd & _). intros Hs. apply (Hd q Hs). set_solver. }
    destruct (proj1 (Hdom q)) as [t Ht0]; [rewrite E; set_solver|]. pose proof (Ht q) as Etq. rewrite decide_False, Ht0 in Etq by done.
    assert (forall T', T' = <[q := loses t]> (table c') -> forall x, T' !! x = if decide (x ∈ seen ++ [q]) then loses <$> table c !! x else table c !! x) as Hstep.
    { intros T' -> x. destruct (decide (x = q)) as [->|]; [rewrite lookup_insert_eq, decide_True, Ht0 by set_solver; done|]. rewrite lookup_insert_ne, Ht by done. do 2 case_decide; set_solver. }
    wp_step. eapply pget_ok; [exact Etq|]. intros pr Hpr ->. wp_step.
    + eapply pset_quiet; [done|apply set_ctty_quiet|exact Etq|]. intros c1 Hi1 Ht1 Hc1 _. split_and!; [done|congruence|]. apply Hstep. rewrite Ht1. f_equal. unfold loses. change (ctty (strip pr)) with (ctty pr). by rewrite H.
    + split_and!; [done|done|]. apply Hstep. rewrite insert_id; [done|]. rewrite Etq. f_equal. unfold loses. change (ctty (strip pr)) with (ctty pr). by rewrite H.
  - intros c' (Hi' & Hc & Ht). split_and!; [done|done|]. apply map_eq. intros x. rewrite Ht, lookup_fmap. case_decide as Hx; [done|]. destruct (table c !! x) eqn:E; [|done]. destruct Hx. apply Hdom. eauto.
Qed.

Lemma owned_loses t T : me <> 0 -> owned me t (loses <$> T).
Proof.
  intros Hm x pr. rewrite lookup_fmap. destruct (T !! x) as [p|]; [|done]. cbn. intros [= <-]. unfold loses. destruct (Z.eqb_spec (ctty p) me); [|done]. by intros Hz.
Qed.

Lemma disown_ok s : desk_ok s ->
  wp (disown me) (fun _ s' => desk_ok s' /\ d_mem s' = d_mem s /\ d_tty s' = set_owner 0 0 (d_tty s) /\ current (d_sched s') = current (d_sched s)
    /\ table (d_sched s') = loses <$> table (d_sched s)) s.
Proof.
  intros [Hs [] Hio Hmem Ho Hme (pr & Hpr & Hpid)]. unfold disown, on_sched, on_tty. wp_step. wp_step. eapply wp_mono; [by apply disown_walk|]. intros [] c' (Hi & Hc & Ht). wp_steps. cbn.
  split_and!; [|done|done|done|done]. split; cbn; try done. { rewrite Ht. by apply owned_loses. }
  exists (loses pr). rewrite Ht, Hc, lookup_fmap, Hpr. split; [done|]. unfold loses. by destruct (_ =? _).
Qed.

(** ** Each request *)

Lemma desk_mem u s : desk_ok s -> um_inv u -> desk_ok (set_d_mem u s).
Proof. by intros [] Hu. Qed.

Lemma desk_tty t s : desk_ok s -> tty_inv t -> termios_ok (tio t) -> tty_sid t = tty_sid (d_tty s) -> desk_ok (set_d_tty t s).
Proof. intros [] Hi Hio E. split; cbn; try done. intros x pr Hx Hc. rewrite E. by apply (dk_owned0 x pr). Qed.

Lemma store_ok bs arg (r : Z) s : desk_ok s -> can_write (d_mem s) arg (Z.of_nat (length bs)) -> Forall byte bs ->
  wp (_ ← on_mem (store_bytes arg bs); mret r) (fun _ s' => desk_ok s') s.
Proof.
  intros Hd Hw Hb. wp_step. unfold on_mem. wp_step. apply wp_store_bytes; [apply Hd|done|done|]. intros u Hu _. wp_steps. by apply desk_mem.
Qed.

Lemma put_int_ok arg v s : desk_ok s -> can_write (d_mem s) arg 4 -> wp (put_int arg v) (fun _ s' => desk_ok s') s.
Proof. intros Hd Hw. apply store_ok; [done|by rewrite length_le_bytes|apply le_bytes_byte]. Qed.

Lemma stepped_desk t v t' s : d_tty s = t -> desk_ok s -> stepped t v t' -> desk_ok (set_d_tty t' s).
Proof. intros <- Hd (Hi & _ & [Et Eo _]). apply desk_tty; [done|done|rewrite Et; apply Hd|congruence]. Qed.

Lemma flush_desk s : desk_ok s -> wp (on_tty flush_input) (fun _ s' => desk_ok s' /\ d_mem s' = d_mem s) s.
Proof. intros Hd. unfold on_tty. wp_step. eapply wp_mono; [apply flush_ok, Hd|]. intros [] t' [Ht _]. split; [by eapply stepped_desk|done]. Qed.

Lemma bytes_termios_ok bs : length bs = 36%nat -> Forall byte bs -> termios_ok (bytes_termios bs).
Proof.
  intros Hl Hb. unfold bytes_termios. split; cbn [cc ldisc]; [by rewrite length_drop, Hl|]. constructor; [|by apply Forall_drop]. rewrite nth_lookup.
  destruct (bs !! 16%nat) as [b|] eqn:E; [by apply (Forall_lookup_1 _ _ _ _ Hb E)|unfold byte; cbn; lia].
Qed.

Lemma set_termios_ok arg s : desk_ok s -> can_read (d_mem s) arg 36 -> wp (set_termios arg) (fun _ s' => desk_ok s') s.
Proof.
  intros Hd Hr. unfold set_termios, on_mem, on_tty. do 4 wp_step. apply wp_load_bytes; [apply Hd|done|]. intros bs Hl Hb _. do 6 wp_step. set (s1 := set_d_tty _ _).
  assert (desk_ok s1) as Hd1. { apply desk_tty; [by destruct s|destruct Hd as [_ [] _ _ _ _ _]; by split|by apply bytes_termios_ok|done]. }
  wp_step; [|by wp_steps]. wp_step. eapply wp_mono; [apply leave_ok, inv_no_line, Hd1|]. intros [] t' Ht. wp_steps. by eapply stepped_desk.
Qed.

Lemma set_winsize_ok arg s : desk_ok s -> can_read (d_mem s) arg 8 -> wp (set_winsize arg) (fun _ s' => desk_ok s') s.
Proof.
  intros Hd Hr. unfold set_winsize, on_mem, on_tty. do 4 wp_step. apply wp_load_bytes; [apply Hd|done|]. intros bs Hl Hb _.
  assert (desk_ok (set_d_mem (d_mem s) s)) as Hd' by by destruct s. wp_step. wp_step; [|by wp_steps].
  wp_steps; (apply desk_tty; [done|destruct Hd as [_ [] _ _ _ _ _]; by split|apply Hd|done]).
Qed.

Lemma take_tty_ok arg s : desk_ok s -> wp (take_tty me arg) (fun _ s' => desk_ok s') s.
Proof.
  intros Hd. pose proof Hd as [Hs Ht Hio Hmem Ho Hme (pr & Hpr & Hpid)]. unfold take_tty, on_sched. do 4 wp_step. eapply pget_ok; [exact Hpr|]. intros p Hp ->. wp_step. wp_step.
  destruct (_ && _); [by wp_steps; destruct s|]. destruct (Z.eqb_spec (sid p) (pid p)) as [Esid|]; cbn [negb orb]; [|by wp_steps; destruct s]. destruct (Z.eqb_spec (ctty p) 0) as [Ec|]; cbn [negb orb]; [|by wp_steps; destruct s].
  destruct (_ && _) eqn:Eb; [by wp_steps; destruct s|]. wp_step.
  assert (forall s1, desk_ok s1 -> current (d_sched s1) = current (d_sched s) -> (exists q, table (d_sched s1) !! current (d_sched s1) = Some q /\ sid q = sid p /\ pid q = pid p) ->
    (forall x q, table (d_sched s1) !! x = Some q -> ctty q <> me) ->
    wp (_ ← on_tty (modify (set_owner (sid p) (pgid p))); _ ← zoom d_sched set_d_sched (pset (current (d_sched s)) (set_ctty me)); mret 0) (fun _ s' => desk_ok s') s1) as Hend.
  { intros s1 [Hs1 [] Hio1 Hmem1 _ _ _] Hc (q & Hq & Eq & Epq) Hno. unfold on_tty. do 3 wp_step. wp_step. wp_step. cbn. eapply pset_quiet; [done|apply set_ctty_quiet|rewrite <- Hc; exact Hq|].
    intros c1 Hi1 Ht1 Hc1 _. wp_steps. split; cbn; try done.
    - rewrite Ht1. intros x w. destruct (decide (x = current (d_sched s))) as [->|]; [rewrite lookup_insert_eq; intros [= <-] _; cbn; split; [done|cbn in Hpid; congruence]|].
      rewrite lookup_insert_ne by done. intros Hw Hcw. by destruct (Hno x w Hw).
    - exists (set_ctty me q). rewrite Ht1, Hc1, Hc, lookup_insert_eq. split; [done|]. cbn in *. congruence. }
  wp_step.
  - eapply wp_mono; [by apply disown_ok; destruct s|]. intros [] s1 (Hd1 & Em & Et & Ecur & Etab). apply Hend; [done|done| |].
    + exists (loses (strip p)). rewrite Etab, Ecur, lookup_fmap. cbn. rewrite Hpr. split; [done|]. unfold loses. by destruct (ctty (strip p) =? me).
    + intros x q Hq. rewrite Etab, lookup_fmap in Hq. cbn in Hq. destruct (table (d_sched s) !! x) as [w|]; [|done]. injection Hq as <-. unfold loses. destruct (Z.eqb_spec (ctty w) me); [by intros <-|done].
  - apply Hend; [by destruct s|done|by exists (strip p); destruct s|]. apply negb_false_iff, Z.eqb_eq in H. intros x q Hq E. destruct (Ho x q) as [_ Hz]; [by destruct s|done|]. by destruct s.
Qed.

Lemma leave_tty_ok s : desk_ok s -> wp (leave_tty me) (fun _ s' => desk_ok s') s.
Proof.
  intros Hd. pose proof Hd as [Hs Ht Hio Hmem Ho Hme (pr & Hpr & Hpid)]. unfold leave_tty, on_sched. do 4 wp_step. eapply pget_ok; [exact Hpr|]. intros p Hp ->.
  destruct (negb _); [by wp_steps; destruct s|]. wp_step. destruct (sid p =? pid p).
  - eapply wp_mono; [by apply disown_ok; destruct s|]. intros [] s1 (Hd1 & _). by wp_steps.
  - wp_step. eapply pset_quiet; [done|apply set_ctty_quiet|exact Hpr|]. intros c1 Hi1 Ht1 Hc1 _. wp_steps. split; cbn; try done.
    + rewrite Ht1. intros x w. destruct (decide (x = current (d_sched s))) as [->|]; [by rewrite lookup_insert_eq; intros [= <-] E; destruct Hme|]. rewrite lookup_insert_ne by done. apply Ho.
    + exists (set_ctty 0 (strip p)). by rewrite Ht1, Hc1, lookup_insert_eq.
Qed.

Lemma set_pgrp_ok arg s : desk_ok s -> can_read (d_mem s) arg 4 -> wp (set_pgrp me arg) (fun _ s' => desk_ok s') s.
Proof.
  intros Hd Hr. pose proof Hd as [Hs Ht Hio Hmem Ho Hme (pr & Hpr & Hpid)]. unfold set_pgrp, on_sched, on_mem, on_tty, load32. do 4 wp_step. eapply pget_ok; [exact Hpr|]. intros p Hp ->. wp_step. wp_step.
  destruct (_ || _); [by wp_steps; destruct s|]. do 3 wp_step. apply wp_load_bytes; [done|done|]. intros bs Hl Hb _. wp_steps. destruct Ht. split; cbn; try done. exists (strip p). done.
Qed.

(** C23: every terminal request returns for every request number and argument,
    reads and writes only user memory it has checked, keeps the terminal's
    buffers and the scheduler sound, and keeps every process whose controlling
    terminal this is inside the session that owns it. *)
Theorem tty_ioctl_safe req arg s : desk_ok s -> 0 <= arg < 2 ^ 64 -> wp (tty_ioctl me req arg) (fun _ s' => desk_ok s') s.
Proof.
  intros Hd Ha. unfold tty_ioctl. destruct (_ || _); [by wp_steps|]. wp_step.
  eapply wp_mono with (P := fun ok s' => desk_ok s' /\ (ok = true -> one_of req [TIOCSCTTY; TIOCNOTTY; TCFLSH] = false ->
    can_read (d_mem s') arg (request_size req) /\ (request_out req = true -> can_write (d_mem s') arg (request_size req)))).
  { destruct (one_of req [_; _; _]); [by wp_steps|]. unfold on_mem. wp_step. apply wp_user_ok; [apply Hd|done|unfold request_size; repeat case_match; lia|..]; intros u Hu Hg; [|intros Hr Hw]; (split; [by apply desk_mem|done]). }
  intros [] s1 [Hd1 Hrw]; cbn [negb]; [|by wp_steps]. specialize (Hrw eq_refl). wp_step. wp_step. destruct (Z.eqb_spec req TCGETS) as [->|].
  { destruct (Hrw eq_refl) as [_ Hw]. destruct (dk_tio _ Hd1) as [Hl Hb]. apply store_ok; [done|unfold termios_bytes; rewrite !length_app, !length_le_bytes; cbn [length]; rewrite Hl; by apply Hw|].
    unfold termios_bytes. repeat (apply Forall_app; split; [apply le_bytes_byte|]). done. }
  destruct (Z.eqb_spec req TCSETSF) as [->|]. { wp_step. eapply wp_mono; [by apply flush_desk|]. intros [] s2 [Hd2 Em]. apply set_termios_ok; [done|]. rewrite Em. by apply Hrw. }
  destruct (Z.eqb_spec req TCSETS) as [->|]; cbn [orb]; [apply set_termios_ok; [done|by apply Hrw]|].
  destruct (Z.eqb_spec req TCSETSW) as [->|]; [apply set_termios_ok; [done|by apply Hrw]|].
  destruct (Z.eqb_spec req TCFLSH) as [->|]. { wp_step. wp_step; [|by wp_steps]. eapply wp_mono; [by apply flush_desk|]. intros [] s2 [Hd2 _]. by wp_steps. }
  destruct (Z.eqb_spec req TIOCGWINSZ) as [->|].
  { destruct (Hrw eq_refl) as [_ Hw]. apply store_ok; [done|rewrite !length_app, !length_le_bytes; by apply Hw|]. repeat (apply Forall_app; split); apply le_bytes_byte. }
  destruct (Z.eqb_spec req TIOCSWINSZ) as [->|]; [apply set_winsize_ok; [done|by apply Hrw]|].
  destruct (Z.eqb_spec req FIONREAD) as [->|]; [apply put_int_ok; [done|by apply Hrw]|].
  destruct (Z.eqb_spec req TIOCSCTTY) as [->|]; [by apply take_tty_ok|].
  destruct (Z.eqb_spec req TIOCNOTTY) as [->|]; [by apply leave_tty_ok|].
  destruct (Z.eqb_spec req TIOCGPGRP) as [->|]; [apply put_int_ok; [done|by apply Hrw]|].
  destruct (Z.eqb_spec req TIOCSPGRP) as [->|]; [apply set_pgrp_ok; [done|by apply Hrw]|].
  destruct (Z.eqb_spec req TIOCGSID) as [->|]; [|by wp_steps]. destruct (_ =? 0); [by wp_steps|apply put_int_ok; [done|by apply Hrw]].
Qed.
End Jobs.

Definition desk1 : desk flat := MkDesk tty0 sched2 flat64.

Lemma desk1_ok : desk_ok 500 (replicate 16 []) [20; 10] desk1.
Proof.
  assert (forall x pr, table sched2 !! x = Some pr -> ctty pr = 0) as Hc.
  { assert (map_Forall (fun _ pr => ctty pr = 0) (table sched2)) as H; [|exact H]. apply map_Forall_to_list. vm_compute. by repeat constructor. }
  split; cbn; [apply sched2_inv|apply tty0_inv|split; [done|repeat constructor; done]|apply flat64_inv| |done|].
  - intros x pr Hx. by rewrite (Hc x pr Hx).
  - destruct (table sched2 !! current sched2) as [pr|] eqn:E; [|by vm_compute in E]. exists pr. split; [done|]. vm_compute in E. by injection E as <-.
Qed.

Lemma tty_ioctl_safe_witness : wp (tty_ioctl 500 21508 4096) (fun _ s' => desk_ok 500 (replicate 16 []) [20; 10] s') desk1.
Proof. apply (tty_ioctl_safe 500 (replicate 16 []) [20; 10] 21508 4096 desk1); [apply desk1_ok|done]. Defined.
