(* ===== verification/Keyboard.v ===== *)
(** * The keyboard: src/src/kernel/drivers/keyboard.c

    The interrupt handler as a function of the scancode and the state of the
    modifier keys; its result is the bytes it passes to tty_input.
    What is on the caps of the keys is a table of its own, [keycaps], for the
    theorem that the line typed is the line read. *)
From stdpp Require Import strings.
From S2P Require Import Prelude Types UserMem Ring Pipe Sched Signal Tty TtyLine.

(** Scancode set 1, 0x00-0x39. *)
Definition bytes_of (s : string) : list Z := (fun a => Z.of_N (Ascii.N_of_ascii a)) <$> String.list_ascii_of_string s.

Definition normal : list Z :=
  [0; 27] ++ bytes_of "1234567890-=" ++ [127; 9] ++ bytes_of "qwertyuiop[]" ++ [13; 0]
  ++ bytes_of "asdfghjkl;'`" ++ [0; 92] ++ bytes_of "zxcvbnm,./" ++ [0; 42; 0; 32].
Definition shifted : list Z :=
  [0; 27] ++ bytes_of "!@#$%^&*()_+" ++ [127; 9] ++ bytes_of "QWERTYUIOP{}" ++ [13; 0]
  ++ bytes_of "ASDFGHJKL:" ++ [34; 126; 0; 124] ++ bytes_of "ZXCVBNM<>?" ++ [0; 42; 0; 32].
Definition keypad : list Z := bytes_of "789-456+1230.".

Record keys_down := MkKeys { shift : bool; ctrl : bool; alt : bool; caps : bool; extended : bool }.

#[global] Instance keys_down_eq_dec : EqDecision keys_down.
Proof. solve_decision. Defined.

(** What a key press asks for: input, or power_ctrl_alt_del. *)
Inductive typed_key := Bytes (bs : list Z) | CtrlAltDel.

Definition esc (s : string) : typed_key := Bytes (27 :: bytes_of s).

Definition extended_key (k : keys_down) (code : Z) : typed_key :=
  if code =? 72 then esc "[A" else if code =? 80 then esc "[B" else if code =? 77 then esc "[C" else if code =? 75 then esc "[D"
  else if code =? 71 then esc "[H" else if code =? 79 then esc "[F" else if code =? 73 then esc "[5~" else if code =? 81 then esc "[6~"
  else if code =? 82 then esc "[2~" else if code =? 83 then (if ctrl k && alt k then CtrlAltDel else esc "[3~")
  else if code =? 28 then Bytes [13] else if code =? 53 then Bytes [47] else Bytes [].

Definition between (a c b : Z) : bool := (a <=? c) && (c <=? b).

(** The character of a plain key; every table entry is below 128. *)
Definition plain_key (k : keys_down) (code : Z) : list Z :=
  let c := if code <? Z.of_nat (length normal) then nth (Z.to_nat code) (if shift k then shifted else normal) 0
           else if between 71 code 83 then nth (Z.to_nat (code - 71)) keypad 0 else 0 in
  let c := if caps k && between 97 c 122 && negb (shift k) then c - 32
           else if caps k && between 65 c 90 && shift k then c + 32 else c in
  let c := if ctrl k && between 64 c 126 then Z.land c 31 else c in
  if c =? 0 then [] else (if alt k then [27] else []) ++ [c].

Definition set_extended (b : bool) (k : keys_down) : keys_down := MkKeys (shift k) (ctrl k) (alt k) (caps k) b.

Definition keyboard_isr (sc : Z) (k : keys_down) : typed_key * keys_down :=
  let release := negb (Z.land sc 128 =? 0) in
  let code := Z.land sc 127 in
  if sc =? 224 then (Bytes [], set_extended true k) else
  let '(out, k') :=
    if (code =? 42) || (code =? 54) then (Bytes [], MkKeys (negb release) (ctrl k) (alt k) (caps k) (extended k))
    else if code =? 29 then (Bytes [], MkKeys (shift k) (negb release) (alt k) (caps k) (extended k))
    else if code =? 56 then (Bytes [], MkKeys (shift k) (ctrl k) (negb release) (caps k) (extended k))
    else if (code =? 58) && negb release then (Bytes [], MkKeys (shift k) (ctrl k) (alt k) (negb (caps k)) (extended k))
    else if negb release && extended k then (extended_key k code, k)
    else if negb release then (Bytes (plain_key k code), k)
    else (Bytes [], k) in
  (out, set_extended false k').

Definition keyboard_init : keys_down := MkKeys false false false false false.

(** A run of interrupts. *)
Fixpoint press (scs : list Z) (k : keys_down) : list Z * keys_down :=
  match scs with
  | [] => ([], k)
  | sc :: scs' =>
      let '(out, k1) := keyboard_isr sc k in
      let '(bs, k2) := press scs' k1 in
      ((match out with Bytes b => b | CtrlAltDel => [] end) ++ bs, k2)
  end.

(** ** Every printable character has its key strokes *)

(** The key caps of a US keyboard, plain and shifted, and the scancodes (set 1)
    that the keys send; the key of the two quotes is number 40. *)
Definition keycaps : list (string * Z) :=
  [("`~", 41); ("1!", 2); ("2@", 3); ("3#", 4); ("4$", 5); ("5%", 6); ("6^", 7); ("7&", 8);
   ("8*", 9); ("9(", 10); ("0)", 11); ("-_", 12); ("=+", 13); ("qQ", 16); ("wW", 17);
   ("eE", 18); ("rR", 19); ("tT", 20); ("yY", 21); ("uU", 22); ("iI", 23); ("oO", 24);
   ("pP", 25); ("[{", 26); ("]}", 27); ("aA", 30); ("sS", 31); ("dD", 32); ("fF", 33);
   ("gG", 34); ("hH", 35); ("jJ", 36); ("kK", 37); ("lL", 38); (";:", 39); ("\|", 43);
   ("zZ", 44); ("xX", 45); ("cC", 46); ("vV", 47); ("bB", 48); ("nN", 49); ("mM", 50);
   (",<", 51); (".>", 52); ("/?", 53); (" ", 57)].

Definition keys : list (list Z * Z) := ([39; 34], 40) :: ((fun k => (bytes_of k.1, k.2)) <$> keycaps).

(** Press and release of the key with [c] on its cap, with the left shift key
    held where it is needed. *)
Fixpoint strokes_on (l : list (list Z * Z)) (c : Z) : list Z :=
  match l with
  | [] => []
  | (caps_, sc) :: l' =>
      match caps_ with
      | p :: rest => if p =? c then [sc; sc + 128] else if existsb (Z.eqb c) rest then [42; sc; sc + 128; 170] else strokes_on l' c
      | [] => strokes_on l' c
      end
  end.

Definition strokes (c : Z) : list Z := strokes_on keys c.

Lemma press_app a b k : press (a ++ b) k = let '(bs, k1) := press a k in let '(bs', k2) := press b k1 in (bs ++ bs', k2).
Proof.
  revert k. induction a as [|sc a IH]; intros k; cbn [app press]; [by destruct (press b k)|]. destruct (keyboard_isr sc k) as [out k1]. rewrite IH. destruct (press a k1) as [bs k2], (press b k2) as [bs' k3]. by rewrite app_assoc.
Qed.

Lemma strokes_type c : 32 <= c <= 126 -> press (strokes c) keyboard_init = ([c], keyboard_init).
Proof.
  intros Hc. assert (c ∈ range 32 127) as Hr by (apply elem_of_range; lia).
  assert (Forall (fun c => press (strokes c) keyboard_init = ([c], keyboard_init)) (range 32 127)) as H by (refine (bool_decide_unpack _ _); vm_compute; exact I).
  by apply (proj1 (Forall_forall _ _) H).
Qed.

Lemma text_types text : Forall (fun c => 32 <= c <= 126) text -> press (concat (strokes <$> text)) keyboard_init = (text, keyboard_init).
Proof.
  induction 1 as [|c text Hc _ IH]; [done|]. cbn [fmap list_fmap concat]. by rewrite press_app, strokes_type, IH.
Qed.

(** On a cooked terminal printable characters are just themselves. *)
Lemma printable_meaning c : 32 <= c <= 126 -> meaning sane c = (KOther, c).
Proof.
  intros Hc. assert (c ∈ range 32 127) as Hr by (apply elem_of_range; lia).
  assert (Forall (fun c => meaning sane c = (KOther, c)) (range 32 127)) as H by (refine (bool_decide_unpack _ _); vm_compute; exact I).
  by apply (proj1 (Forall_forall _ _) H).
Qed.

Lemma edit_printable text : Forall (fun c => 32 <= c <= 126) text -> Z.of_nat (length text) < TTY_BUF -> edit_line sane text = text.
Proof.
  unfold edit_line. intros H Hl. change text with ([] ++ text) at 2. change (length text) with (length (@nil Z) + length text)%nat in Hl. revert Hl. generalize (@nil Z).
  induction H as [|c text Hc _ IH]; intros l Hl; cbn [foldl]; [by rewrite app_nil_r|]. rewrite printable_meaning by done. cbn [edit_step length] in *. rewrite (proj2 (Z.ltb_lt _ _)) by lia.
  rewrite IH by (rewrite length_app; cbn; lia). by rewrite <- app_assoc.
Qed.

(** C35: typing a line of printable characters on a US keyboard, pressing and
    releasing for each the key that has it on its cap, and Enter, makes a
    cooked terminal hand exactly that line to the next read. *)
Theorem keyboard_to_read text t n :
  tty_inv t -> see t = MkView [] [] 0 -> tio t = sane -> Forall (fun c => 32 <= c <= 126) text -> Z.of_nat (length text) < TTY_BUF -> TTY_BUF <= n ->
  let '(bs, k) := press (concat (strokes <$> text) ++ [28; 156]) keyboard_init in
  k = keyboard_init /\ wp (_ ← for_each bs tty_input; tty_read false n) (fun o _ => o = Returned (Z.of_nat (length text) + 1) (text ++ [10])) t.
Proof.
  intros Hi Hv Ht Hp Hlen Hn. rewrite press_app, text_types by done. assert (press [28; 156] keyboard_init = ([13], keyboard_init)) as -> by (vm_compute; reflexivity). split; [done|].
  wp_step. eapply wp_mono; [by apply type_ok|]. intros [] t1 (Hi1 & Et & Hv1). rewrite Ht in Et, Hv1. rewrite Hv, typed_line in Hv1; [|eapply Forall_impl; [exact Hp|]; intros c Hc; unfold edits; by rewrite printable_meaning|done|done].
  rewrite edit_printable in Hv1 by done. unfold enter in Hv1. cbn [v_edit v_ready v_eof app] in Hv1. rewrite take_ge in Hv1 by (rewrite length_app; cbn; lia).
  eapply wp_mono; [by apply tty_read_ok|]. intros o t2 (_ & Ho & _). rewrite Et, Hv1 in Ho. unfold read_view in Ho. cbn [v_edit v_ready v_eof] in Ho. change (canon_of sane) with true in Ho.
  rewrite bool_decide_eq_false_2 in Ho by by destruct text. rewrite <- (app_nil_r (text ++ [10])) in Ho at 1 2. rewrite cut_line in Ho; [|eapply Forall_impl; [exact Hp|]; cbn; lia|lia]. injection Ho as -> _. f_equal. rewrite length_app. cbn. lia.
Qed.

Lemma keyboard_to_read_witness :
  let '(bs, k) := press (concat (strokes <$> [76; 115]) ++ [28; 156]) keyboard_init in
  k = keyboard_init /\ wp (_ ← for_each bs tty_input; tty_read false 4096) (fun o _ => o = Returned 3 [76; 115; 10]) tty0.
Proof. apply (keyboard_to_read [76; 115] tty0 4096); [apply tty0_inv|done|done|repeat constructor; lia|done|done]. Defined.
