(* ===== verification/Fds.v ===== *)
(** * Descriptors: the table of the current process, from src/src/kernel/syscall/fs.c

    fds[] and cloexec[] of the current process, the calls that only move
    descriptions between slots, and the file offset. *)
From S2P Require Import Prelude Types Cred Pipe VfsState Forest Ramfs Vfs VfsTree VfsOps VfsNames VfsPath File.

(** scheduler_current() *)
Definition me : M fs process := s ← get; lift (fs_cur s).
Definition set_me (f : process -> process) : M fs unit := p ← me; modify (set_fs_cur (Some (f p))).

Definition fd_file (fd : Z) : M fs Z :=
  if (fd <? 0) || (MAX_FDS <=? fd) then mret 0 else p ← me; lift (fds p !! Z.to_nat fd).

(** p->fds[i] = f, p->cloexec[i] = c *)
Definition put_fd (i f : Z) : M fs unit :=
  p ← me; _ ← lift (fds p !! Z.to_nat i); set_me (fun p => set_fds (<[Z.to_nat i := f]> (fds p)) p).
Definition put_cloexec (i : Z) (c : bool) : M fs unit :=
  p ← me; _ ← lift (cloexec p !! Z.to_nat i); set_me (fun p => set_cloexec (<[Z.to_nat i := c]> (cloexec p)) p).

(** The first free slot among [is]. *)
Fixpoint free_slot (is_ : list Z) : M fs (option Z) :=
  match is_ with
  | [] => mret None
  | i :: is_ => p ← me; f ← lift (fds p !! Z.to_nat i); if f =? 0 then mret (Some i) else free_slot is_
  end.

Section Fds.
  Context `{DR : Drivers}.

Definition fd_install (f min : Z) (c : bool) : M fs Z :=
  p ← me;
  r ← lift (rlim p !! 7%nat);
  let limit := if fst r <? MAX_FDS then fst r else MAX_FDS in
  i ← free_slot (range (if min <? 0 then 0 else min) limit);
  match i with
  | Some i => _ ← put_fd i f; _ ← put_cloexec i c; mret i
  | None => _ ← file_put f; mret (- EMFILE)
  end.

Definition sys_close (fd : Z) : M fs Z :=
  f ← fd_file fd;
  if f =? 0 then mret (- EBADF) else
  _ ← put_fd fd 0;
  _ ← put_cloexec fd false;
  _ ← file_put f;
  mret 0.

Definition sys_dup (fd : Z) : M fs Z :=
  f ← fd_file fd; if f =? 0 then mret (- EBADF) else g ← file_get f; fd_install g 0 false.

Definition sys_dup3 (oldfd newfd flags : Z) : M fs Z :=
  f ← fd_file oldfd;
  if (f =? 0) || (newfd <? 0) || (MAX_FDS <=? newfd) then mret (- EBADF) else
  if oldfd =? newfd then mret (- EINVAL) else
  p ← me;
  old ← lift (fds p !! Z.to_nat newfd);
  _ ← file_put old;
  g ← file_get f;
  _ ← put_fd newfd g;
  _ ← put_cloexec newfd (has flags O_CLOEXEC);
  mret newfd.

Definition sys_dup2 (oldfd newfd : Z) : M fs Z :=
  if oldfd =? newfd then f ← fd_file oldfd; mret (if f =? 0 then - EBADF else newfd) else sys_dup3 oldfd newfd 0.

Definition sys_fcntl (fd cmd arg : Z) : M fs Z :=
  f ← fd_file fd;
  if f =? 0 then mret (- EBADF) else
  if (cmd =? F_DUPFD) || (cmd =? F_DUPFD_CLOEXEC) then
    if (arg <? 0) || (MAX_FDS <=? arg) then mret (- EINVAL) else g ← file_get f; fd_install g arg (cmd =? F_DUPFD_CLOEXEC)
  else if cmd =? F_GETFD then p ← me; c ← lift (cloexec p !! Z.to_nat fd); mret (if (c : bool) then FD_CLOEXEC else 0)
  else if cmd =? F_SETFD then _ ← put_cloexec fd (has arg FD_CLOEXEC); mret 0
  else if cmd =? F_GETFL then x ← fil f; mret (Z.land (f_flags x) (Z.lor O_ACCMODE (Z.lor O_APPEND O_NONBLOCK)))
  else if cmd =? F_SETFL then
    let b := Z.lor O_APPEND O_NONBLOCK in
    _ ← fset f (fun x => set_f_flags (Z.lor (Z.ldiff (f_flags x) b) (Z.land arg b)) x); mret 0
  else mret (- EINVAL).
End Fds.

Definition node_type (n : Z) : M fs Z := x ← ino n; mret (itype x).

Definition unseekable (x : inode) : bool := (itype x =? VFS_PIPE) || (itype x =? VFS_CHARDEVICE) || (itype x =? VFS_SOCKET).

Definition sys_lseek (fd off whence : Z) : M fs Z :=
  f ← fd_file fd;
  if f =? 0 then mret (- EBADF) else
  ff ← fil f;
  x ← ino (f_inode ff);
  if unseekable x then mret (- ESPIPE) else
  if negb ((whence =? SEEK_SET) || (whence =? SEEK_CUR) || (whence =? SEEK_END)) then mret (- EINVAL) else
  (* the sum of two longs: where it overflows, which C leaves undefined, the machine wraps *)
  let pos := s64 (off + (if whence =? SEEK_SET then 0 else if whence =? SEEK_CUR then s64 (f_offset ff) else i_length x)) in
  if (pos <? 0) || (2 ^ 32 - 1 <? pos) then mret (- EINVAL) else
  _ ← fset f (set_f_offset pos);
  mret pos.

Definition sys_umask (mask : Z) : M fs Z :=
  p ← me; _ ← set_me (set_umask (Z.land (u32 mask) 511)); mret (umask p).

Definition cwd_inode : M fs Z :=
  p ← me; if negb (cwd p =? 0) then mret (cwd p) else s ← get; rd ← dent (fs_root s); mret (d_inode rd).
