(* ===== verification/FdRefs.v ===== *)
(** * Descriptors and reference counts

    A description's count is the number of descriptors of the process that
    refer to it plus those held elsewhere (other processes, a call under way);
    every descriptor refers to a live description. The calls on descriptors
    keep this, so that no descriptor is ever left dangling. *)
From S2P Require Import Prelude Types Cred Pipe VfsState Forest Ramfs Vfs VfsTree VfsOps VfsNames VfsPath File FileRefs Fds.

(** ** Occurrences in a table *)

Definition occ (f : Z) (l : list Z) : Z := Z.of_nat (length (filter (fun g => g = f) l)).
Definition one (a b : Z) : Z := if decide (a = b) then 1 else 0.

Lemma occ_app f l l' : occ f (l ++ l') = occ f l + occ f l'.
Proof. unfold occ. rewrite filter_app, length_app. lia. Qed.

Lemma occ_one f g : occ f [g] = one f g.
Proof. unfold occ, one. rewrite filter_cons. do 2 case_decide; simplify_eq; done. Qed.

Lemma occ_insert f l i g h : l !! i = Some g -> occ f (<[i := h]> l) = occ f l - one f g + one f h.
Proof.
  intros Hi. assert (i < length l)%nat by by eapply lookup_lt_Some. rewrite <- (take_drop_middle l i g Hi) at 2. rewrite insert_take_drop by done.
  change (g :: skipn (S i) l) with ([g] ++ skipn (S i) l). change (h :: skipn (S i) l) with ([h] ++ skipn (S i) l). rewrite !occ_app, !occ_one. lia.
Qed.

Lemma occ_pos f l i : l !! i = Some f -> 0 < occ f l.
Proof.
  intros Hi. rewrite <- (take_drop_middle l i f Hi). change (f :: skipn (S i) l) with ([f] ++ skipn (S i) l). rewrite !occ_app, occ_one. unfold one, occ. rewrite decide_True by done. lia.
Qed.

(** ** The invariant *)

(** Of the table [l]; [other f]: references to [f] from elsewhere. *)
Record refs_ok (s : fs) (l : list Z) (other : Z -> Z) : Prop := {
  to_live : forall i f, l !! i = Some f -> f = 0 \/ is_Some (fs_files s !! f);
  to_refs : forall f ff, fs_files s !! f = Some ff -> f_refs ff = occ f l + other f;
  to_other : forall f, 0 <= other f;
}.

Record table_ok (s : fs) (p : process) (other : Z -> Z) : Prop := {
  to_cur : fs_cur s = Some p;
  to_fds : length (fds p) = Z.to_nat MAX_FDS;
  to_cloexec : length (cloexec p) = Z.to_nat MAX_FDS;
  to_rlim : exists r, rlim p !! 7%nat = Some r /\ 0 <= fst r;
  to_table : refs_ok s (fds p) other;
}.

(** The whole: names, inode counts and descriptors. *)
Record booked (s : fs) (ext : Z -> Z) : Prop := {
  ds_sound : sound s;
  ds_held : held s ext;
  ds_plain : forall f ff, fs_files s !! f = Some ff -> exists x, fs_inodes s !! f_inode ff = Some x /\ plain x;
}.

Definition desc (s : fs) (ext : Z -> Z) (p : process) (other : Z -> Z) : Prop := booked s ext /\ table_ok s p other.

(** Counts far from their limits. *)
Definition light (s : fs) (ext : Z -> Z) : Prop := few s /\ room s ext.
Definition ample (s : fs) (ext : Z -> Z) : Prop := light s ext /\ forall f ff, fs_files s !! f = Some ff -> f_refs ff < 2 ^ 32 - 1.

(** NULL is nobody's. *)
Definition plus (other : Z -> Z) (f d : Z) : Z -> Z := fun g => if decide (g = f /\ f <> 0) then other g + d else other g.

Lemma plus_at other g d f : f <> 0 -> plus other g d f = other f + d * one f g.
Proof. intros Hf. unfold plus, one. destruct (decide (f = g)) as [->|]; [rewrite decide_True by done|rewrite decide_False by tauto]; lia. Qed.

Lemma plus_null other d f : plus other 0 d f = other f.
Proof. unfold plus. by rewrite decide_False by tauto. Qed.

Lemma wp_me s p (Q : process -> fs -> Prop) : fs_cur s = Some p -> Q p s -> wp me Q s.
Proof. intros Hc HQ. unfold me. wp_steps. by eapply wp_lift. Qed.

Lemma table_ext s p other other' : table_ok s p other -> (forall f, f <> 0 -> other' f = other f) -> (forall f, 0 <= other' f) -> fs_files s !! 0 = None -> table_ok s p other'.
Proof. intros [? ? ? ? [Hl Hr _]] He H0 Hz. split; try done. split; try done. intros f ff Hf. rewrite He by (intros ->; congruence). eauto. Qed.

Lemma desc_ext s ext p other other' : desc s ext p other -> (forall f, f <> 0 -> other' f = other f) -> (forall f, 0 <= other' f) -> desc s ext p other'.
Proof.
  intros [[Hs HH Hp] Ht] He H0. split; [done|]. eapply table_ext; [done..|]. destruct (fs_files s !! 0) as [ff|] eqn:E; [|done]. by destruct (h_file _ _ HH 0 ff E).
Qed.

(** Only the current process changes. *)
Lemma held_cur s ext c : held s ext -> held (set_fs_cur c s) ext.
Proof.
  intros HH. split; cbn; try apply HH. intros n x Hx Hr. destruct (h_pipe _ _ HH n x Hx Hr) as (k & p & []). exists k, p. by split.
Qed.

Lemma sound_cur s c : sound s -> sound (set_fs_cur c s).
Proof. intros [K HT]. exists K. apply (tree_calm s _ K HT). by split_and!. Qed.

Lemma desc_cur s ext p p' other other' : desc s ext p other -> table_ok (set_fs_cur (Some p') s) p' other' -> desc (set_fs_cur (Some p') s) ext p' other'.
Proof. intros [[Hs HH Hp] Ht] Ht'. split; [split; [by apply sound_cur|by apply held_cur|done]|done]. Qed.

(** ** Slots *)

Lemma fd_file_ok s ext p other fd : desc s ext p other ->
  wp (fd_file fd) (fun f s' => s' = s /\ (f = 0 \/ 0 <= fd < MAX_FDS /\ fds p !! Z.to_nat fd = Some f /\ f <> 0 /\ exists ff, fs_files s !! f = Some ff)) s.
Proof.
  intros [[_ HH _] [Hc Hl _ _ [Hlive _ _]]]. unfold fd_file. destruct (Z.ltb_spec fd 0), (Z.leb_spec MAX_FDS fd); cbn [orb]; try (wp_steps; by eauto).
  wp_step. eapply wp_me; [done|]. destruct (lookup_lt_is_Some_2 (fds p) (Z.to_nat fd)) as [f Hf]; [lia|]. eapply wp_lift; [done|]. split; [done|].
  destruct (Hlive _ _ Hf) as [->|[ff Hff]]; [by left|]. right. destruct (h_file _ _ HH f ff Hff) as (? & _). eauto 8.
Qed.

(** [h] comes from elsewhere into the slot of [g], and [g] goes there. *)
Lemma refs_swap s ext l other i g h :
  held s ext -> refs_ok s l other -> l !! i = Some g -> h = 0 \/ is_Some (fs_files s !! h) /\ 0 < other h -> refs_ok s (<[i := h]> l) (plus (plus other h (-1)) g 1).
Proof.
  intros HH [Hlive Hrefs H0] Hi Hh. split.
  - intros j f Hj. destruct (decide (j = i)) as [->|]; [|rewrite list_lookup_insert_ne in Hj by done; eauto]. rewrite list_lookup_insert_eq in Hj by by eapply lookup_lt_Some. injection Hj as <-. destruct Hh as [?|[? _]]; auto.
  - intros f ff Hf. rewrite (occ_insert f _ _ g h Hi), (Hrefs f ff Hf). destruct (h_file _ _ HH f ff Hf) as (Hnz & _). rewrite !plus_at by done. lia.
  - intros f. specialize (H0 f). unfold plus. destruct Hh as [->|[_ Hh]]; repeat case_decide; destruct_and?; simplify_eq; lia.
Qed.

Lemma wp_put_fd s p i g h (Q : unit -> fs -> Prop) :
  fs_cur s = Some p -> fds p !! Z.to_nat i = Some g -> Q tt (set_fs_cur (Some (set_fds (<[Z.to_nat i := h]> (fds p)) p)) s) -> wp (put_fd i h) Q s.
Proof. intros Hc Hi HQ. unfold put_fd, set_me. wp_step. eapply wp_me; [done|]. wp_step. eapply wp_lift; [done|]. wp_step. eapply wp_me; [done|]. by wp_step. Qed.

Lemma put_fd_ok s ext p other i g h :
  desc s ext p other -> fds p !! Z.to_nat i = Some g -> h = 0 \/ is_Some (fs_files s !! h) /\ 0 < other h ->
  let p' := set_fds (<[Z.to_nat i := h]> (fds p)) p in
  wp (put_fd i h) (fun _ s' => s' = set_fs_cur (Some p') s /\ desc s' ext p' (plus (plus other h (-1)) g 1)) s.
Proof.
  intros Hd Hi Hh p'. pose proof Hd as [[_ HH _] [Hc Hl Hcl Hr Hro]]. eapply wp_put_fd; [done|done|]. fold p'. split; [done|]. eapply desc_cur; [done|]. split; cbn; try done; [by rewrite length_insert|].
  destruct (refs_swap s ext (fds p) other (Z.to_nat i) g h HH Hro Hi Hh). by split.
Qed.

Lemma put_cloexec_ok s ext p other i c :
  desc s ext p other -> 0 <= i < MAX_FDS -> let p' := set_cloexec (<[Z.to_nat i := c]> (cloexec p)) p in
  wp (put_cloexec i c) (fun _ s' => s' = set_fs_cur (Some p') s /\ desc s' ext p' other) s.
Proof.
  intros Hd Hi p'. pose proof Hd as [[_ HH _] [Hc Hl Hcl Hr [Hlive Hrefs H0]]]. unfold put_cloexec, set_me. wp_step. eapply wp_me; [done|]. destruct (lookup_lt_is_Some_2 (cloexec p) (Z.to_nat i)) as [b Hb]; [lia|].
  wp_step. eapply wp_lift; [done|]. wp_step. eapply wp_me; [done|]. wp_step. fold p'. split; [done|]. eapply desc_cur; [done|]. split; cbn; try done; by rewrite length_insert.
Qed.

(** ** Descriptions come and go *)

Section Refs.
  Context `{DR : Drivers}.

(** A reference held elsewhere is given up. *)
Lemma file_put_refs s ext l other f :
  booked s ext -> refs_ok s l other -> light s ext -> f = 0 \/ is_Some (fs_files s !! f) /\ 0 < other f ->
  wp (file_put f) (fun _ s' => booked s' ext /\ refs_ok s' l (plus other f (-1)) /\ around s s'
    /\ forall g, g <> f -> fs_files s' !! g = fs_files s !! g) s.
Proof.
  intros Hb Hro [Hfew Hroom] Hf. pose proof Hb as [[K HT] HH Hp]. pose proof Hro as [Hlive Hrefs H0]. destruct Hf as [->|[[ff Hff] Ho]].
  { unfold file_put. wp_steps. split_and!; [done| |reflexivity|done]. split; [done|intros f ff Hf|intros f]; rewrite plus_null; [eauto|done]. }
  destruct (Hp f ff Hff) as (x & Hx & [Hrel Hdst]). eapply wp_mono; [by apply (file_put_ok s K ext f ff x)|]. intros [] s' (HT' & HH' & HA & Hcase).
  assert (f <> 0) as Hf0 by by apply (h_file _ _ HH f ff). assert (forall g, g <> f -> fs_files s' !! g = fs_files s !! g) as Hother.
  { intros g Hg. case_decide; destruct Hcase as [-> _]; [by rewrite lookup_delete_ne|by rewrite lookup_insert_ne]. }
  assert (occ f l + other f = f_refs ff) as Eff by (symmetry; eauto). split_and!; [split; [by exists K|done|]| |done|done].
  - intros g gg Hg. destruct (h_file _ _ HH' g gg Hg) as (_ & _ & [y Hy]). exists y. split; [done|].
    assert (exists gg0, fs_files s !! g = Some gg0 /\ f_inode gg0 = f_inode gg) as (gg0 & Hg0 & Ei).
    { destruct (decide (g = f)) as [->|Hne]; [|exists gg; by rewrite <- Hother]. exists ff. split; [done|]. case_decide; destruct Hcase as [E _]; rewrite E in Hg; [by rewrite lookup_delete_eq in Hg|rewrite lookup_insert_eq in Hg; by injection Hg as <-]. }
    destruct (Hp g gg0 Hg0) as (z & Hz & Hplain). rewrite Ei in Hz. case_decide; destruct Hcase as [_ EI]; [|rewrite EI in Hy; congruence]. rewrite EI in Hy. unfold closed_inodes in Hy.
    destruct (decide (f_inode gg = f_inode ff)) as [E2|E2]; [|destruct (freed_by_close _ _ _ _); [rewrite lookup_delete_ne in Hy by done|rewrite lookup_insert_ne in Hy by done]; congruence].
    rewrite E2 in Hy, Hz. destruct (freed_by_close _ _ _ _); [by rewrite lookup_delete_eq in Hy|]. rewrite lookup_insert_eq in Hy. injection Hy as <-. assert (z = x) as -> by congruence. exact Hplain.
  - split.
    + intros i g Hg. destruct (decide (g = f)) as [->|Hne]; [|rewrite Hother by done; eauto]. right. pose proof (occ_pos f _ _ Hg). case_decide; [lia|]. destruct Hcase as [-> _]. by rewrite lookup_insert_eq.
    + intros g gg Hg. destruct (decide (g = f)) as [->|Hne]; [|rewrite Hother in Hg by done; rewrite (Hrefs g gg Hg); unfold plus; rewrite decide_False by tauto; done].
      case_decide; destruct Hcase as [E _]; rewrite E in Hg; [by rewrite lookup_delete_eq in Hg|]. rewrite lookup_insert_eq in Hg. injection Hg as <-. cbn. unfold plus. rewrite decide_True by done. lia.
    + intros g. specialize (H0 g). unfold plus. destruct (decide (g = f /\ f <> 0)) as [[-> _]|]; lia.
Qed.

Lemma file_put_desc s ext p other f :
  desc s ext p other -> light s ext -> f = 0 \/ is_Some (fs_files s !! f) /\ 0 < other f ->
  wp (file_put f) (fun _ s' => desc s' ext p (plus other f (-1)) /\ around s s') s.
Proof.
  intros [Hb [Hc ? ? ? Hro]] Hl Hf. eapply wp_mono; [by apply (file_put_refs s ext (fds p) other f)|]. intros [] s' (Hb' & Hro' & HA & _). split; [|done]. split; [done|]. split; try done.
  destruct HA as (_ & _ & _ & _ & EC & _). congruence.
Qed.

Lemma file_get_refs s ext l other f ff :
  booked s ext -> refs_ok s l other -> fs_files s !! f = Some ff -> f_refs ff < 2 ^ 32 - 1 ->
  wp (file_get f) (fun r s' => r = f /\ booked s' ext /\ refs_ok s' l (plus other f 1) /\ around s s' /\ fs_files s' = <[f := set_f_refs (f_refs ff + 1) ff]> (fs_files s) /\ fs_inodes s' = fs_inodes s) s.
Proof.
  intros [[K HT] HH Hp] [Hlive Hrefs H0] Hf Hmax. unfold file_get. wp_step. eapply wp_fset; [done|]. destruct (h_file _ _ HH f ff Hf) as (Hf0 & Hr0 & _).
  rewrite u32_small by lia. wp_steps. split_and!; try done; split.
  - exists K. apply (tree_calm s _ K HT). by split_and!.
  - eapply held_refs; [done|done| |done]. lia.
  - cbn. intros g gg [[<- <-]|[Hne Hg]]%lookup_insert_Some; cbn; [by apply (Hp f)|by apply (Hp g)].
  - intros i g Hg. cbn. destruct (Hlive i g Hg) as [?|?]; [by left|]. right. destruct (decide (g = f)) as [->|]; [by rewrite lookup_insert_eq|by rewrite lookup_insert_ne].
  - cbn. intros g gg [[<- <-]|[Hne Hg]]%lookup_insert_Some; cbn; unfold plus.
    + rewrite decide_True by done. rewrite (Hrefs f ff Hf). lia.
    + rewrite (Hrefs g gg Hg). case_decide; [by destruct_and?|done].
  - intros g. specialize (H0 g). unfold plus. case_decide; lia.
Qed.

Lemma file_get_desc s ext p other f ff :
  desc s ext p other -> ample s ext -> fs_files s !! f = Some ff ->
  wp (file_get f) (fun r s' => r = f /\ desc s' ext p (plus other f 1) /\ around s s' /\ fs_files s' = <[f := set_f_refs (f_refs ff + 1) ff]> (fs_files s) /\ fs_inodes s' = fs_inodes s) s.
Proof.
  intros [Hb [Hc ? ? ? Hro]] [_ Hmax] Hf. eapply wp_mono; [by apply (file_get_refs s ext (fds p) other f ff); eauto|]. intros r s' (-> & Hb' & Hro' & HA & EF & EI). split_and!; try done. split; [done|]. split; try done.
  destruct HA as (_ & _ & _ & _ & EC & _). congruence.
Qed.

Lemma light_get s s' ext f ff v : light s ext -> around s s' -> fs_files s !! f = Some ff -> fs_files s' = <[f := set_f_refs v ff]> (fs_files s) -> light s' ext.
Proof.
  intros [Hfew Hroom] (ED & EM & _) Hf EF. split; [intros n; unfold links; rewrite ED, EM; apply Hfew|]. intros n. unfold opens. rewrite EF, fmap_insert, insert_id; [apply Hroom|]. by rewrite lookup_fmap, Hf.
Qed.

Lemma light_cur s ext c : light s ext -> light (set_fs_cur c s) ext.
Proof. done. Qed.

(** ** Installing: the lowest free slot *)

Lemma free_slot_ok s p lo hi :
  fs_cur s = Some p -> length (fds p) = Z.to_nat MAX_FDS -> 0 <= lo -> hi <= MAX_FDS ->
  wp (free_slot (range lo hi)) (fun r s' => s' = s /\ match r with
    | Some i => lo <= i < hi /\ fds p !! Z.to_nat i = Some 0 /\ forall j, lo <= j < i -> exists g, fds p !! Z.to_nat j = Some g /\ g <> 0
    | None => forall j, lo <= j < hi -> exists g, fds p !! Z.to_nat j = Some g /\ g <> 0 end) s.
Proof.
  intros Hc Hl Hlo Hhi. remember (Z.to_nat (hi - lo)) as n eqn:En. revert lo Hlo En. induction n as [|n IH]; intros lo Hlo En.
  - rewrite range_nil by lia. cbn [free_slot]. wp_steps. split; [done|]. intros; lia.
  - rewrite range_cons by lia. cbn [free_slot]. wp_step. eapply wp_me; [done|]. destruct (lookup_lt_is_Some_2 (fds p) (Z.to_nat lo)) as [g Hg]; [lia|]. wp_step. eapply wp_lift; [done|].
    destruct (Z.eqb_spec g 0) as [->|Hg0]. { wp_steps. split_and!; [done|lia|lia|done|]. intros; lia. }
    assert (forall j, lo <= j -> j = lo \/ lo + 1 <= j) as Hj by (intros; lia). eapply wp_mono; [apply IH; lia|]. intros [i|] s' [-> Hr]; (split; [done|]).
    + destruct Hr as (Hi & Hfree & Hbusy). split_and!; [lia|lia|done|]. intros j Hj1. destruct (Hj j) as [->|?]; [lia|eauto|apply Hbusy; lia].
    + intros j Hj1. destruct (Hj j) as [->|?]; [lia|eauto|apply Hr; lia].
Qed.

Definition fd_limit (p : process) : Z := match rlim p !! 7%nat with Some r => if fst r <? MAX_FDS then fst r else MAX_FDS | None => 0 end.

(** The least free slot from [min] on below the limit. *)
Definition lowest (p : process) (min i : Z) : Prop :=
  Z.max 0 min <= i < fd_limit p /\ fds p !! Z.to_nat i = Some 0 /\ forall j, Z.max 0 min <= j < i -> exists g, fds p !! Z.to_nat j = Some g /\ g <> 0.

Definition no_slot (p : process) (min : Z) : Prop := forall j, Z.max 0 min <= j < fd_limit p -> exists g, fds p !! Z.to_nat j = Some g /\ g <> 0.

Definition with_fd (i f : Z) (c : bool) (p : process) : process :=
  set_cloexec (<[Z.to_nat i := c]> (cloexec p)) (set_fds (<[Z.to_nat i := f]> (fds p)) p).

Lemma fd_install_ok s ext p other f min c :
  desc s ext p other -> light s ext -> is_Some (fs_files s !! f) -> 0 < other f ->
  wp (fd_install f min c) (fun r s' => lowest p min r /\ s' = set_fs_cur (Some (with_fd r f c p)) s /\ desc s' ext (with_fd r f c p) (plus other f (-1))
    \/ r = - EMFILE /\ no_slot p min /\ around s s' /\ desc s' ext p (plus other f (-1))) s.
Proof.
  intros Hd Hl Hf Ho. pose proof Hd as [[_ HH _] [Hc Hln Hcl (r & Hr & Hr0) [_ _ H0]]]. destruct Hf as [ff Hff]. destruct (h_file _ _ HH f ff Hff) as (Hf0 & _). unfold fd_install. wp_step. eapply wp_me; [done|]. wp_step. eapply wp_lift; [done|].
  assert (fd_limit p = if fst r <? MAX_FDS then fst r else MAX_FDS) as El by (unfold fd_limit; by rewrite Hr). rewrite <- El. assert (fd_limit p <= MAX_FDS) as Hlim by (rewrite El; destruct (Z.ltb_spec (fst r) MAX_FDS); lia).
  replace (if min <? 0 then 0 else min) with (Z.max 0 min) by (destruct (Z.ltb_spec min 0); lia). wp_step. eapply wp_mono; [apply free_slot_ok; [done|done|lia|done]|]. intros [i|] s' [-> Hi].
  - destruct Hi as (Hi & Hfree & Hbusy). wp_step. eapply wp_mono; [apply (put_fd_ok s ext p other i 0 f Hd Hfree); right; eauto|]. intros [] s1 [-> Hd1]. wp_step. eapply wp_mono; [apply (put_cloexec_ok _ ext _ _ i c Hd1); lia|].
    intros [] s2 [-> Hd2]. wp_steps. left. split; [exact (conj Hi (conj Hfree Hbusy))|]. split; [done|]. eapply desc_ext; [exact Hd2|intros g _; by rewrite plus_null|].
    intros g. specialize (H0 g). unfold plus. destruct (decide (g = f /\ f <> 0)) as [[-> _]|]; lia.
  - wp_step. eapply wp_mono; [apply (file_put_desc s ext p other f); eauto|]. intros [] s1 [Hd1 HA]. wp_steps. by right.
Qed.

(** ** The calls *)

Lemma plus_minus other f : forall g, plus (plus other f 1) f (-1) g = other g.
Proof. intros g. unfold plus. case_decide; lia. Qed.

(** Another reference to [f] in a slot of its own. *)
Lemma dup_ok s ext p other f ff min c :
  desc s ext p other -> ample s ext -> fs_files s !! f = Some ff ->
  wp (g ← file_get f; fd_install g min c) (fun r s' => exists p', desc s' ext p' other
    /\ (lowest p min r /\ p' = with_fd r f c p /\ fs_files s' !! f = Some (set_f_refs (f_refs ff + 1) ff) \/ r = - EMFILE /\ no_slot p min /\ p' = p)) s.
Proof.
  intros Hd Ha Hf. wp_step. eapply wp_mono; [by apply (file_get_desc s ext p other f ff)|]. intros g s1 (-> & Hd1 & HA & EF & EI). pose proof Hd as [[_ HH _] [_ _ _ _ [_ _ H0]]]. destruct (h_file _ _ HH f ff Hf) as (Hf0 & _).
  assert (forall s' p', desc s' ext p' (plus (plus other f 1) f (-1)) -> desc s' ext p' other) as Hback by (intros s' p' H; eapply desc_ext; [exact H|intros h _; by rewrite plus_minus|done]).
  eapply wp_mono; [apply (fd_install_ok s1 ext p); [done|eapply light_get; [apply Ha|done..]|rewrite EF, lookup_insert_eq; eauto|unfold plus; rewrite decide_True by done; specialize (H0 f); lia]|].
  intros r s' [(Hlow & -> & Hd')|(-> & Hno & _ & Hd')]; [exists (with_fd r f c p); split; [auto|]; left; split_and!; [done|done|cbn; by rewrite EF, lookup_insert_eq]|exists p; split; [auto|right; done]].
Qed.

Lemma close_desc s ext p other fd : desc s ext p other -> light s ext ->
  wp (sys_close fd) (fun r s' => r = - EBADF /\ s' = s \/ r = 0 /\ exists f, fds p !! Z.to_nat fd = Some f /\ f <> 0 /\ desc s' ext (with_fd fd 0 false p) other) s.
Proof.
  intros Hd Hl. pose proof Hd as [[_ HH _] [_ _ _ _ [_ Hrefs H0]]]. unfold sys_close. wp_step. eapply wp_mono; [by eapply fd_file_ok|]. intros f s' [-> [->|(Hfd & Hf & Hf0 & ff & Hff)]]; [wp_steps; by left|].
  rewrite (proj2 (Z.eqb_neq f 0)) by done. wp_step. eapply wp_mono; [apply (put_fd_ok s ext p other fd f 0 Hd Hf); by left|]. intros [] s1 [-> Hd1]. wp_step. eapply wp_mono; [apply (put_cloexec_ok _ ext _ _ fd false Hd1 Hfd)|].
  intros [] s2 [-> Hd2]. wp_step. eapply wp_mono; [apply (file_put_desc _ ext _ _ f Hd2); [done|right; split; [by eexists|]]|].
  { unfold plus at 1. rewrite decide_True, plus_null by done. specialize (H0 f). lia. }
  intros [] s3 [Hd3 _]. wp_steps. right. split; [done|]. exists f. split_and!; [done|done|]. eapply desc_ext; [exact Hd3|intros g _|done]. rewrite <- (plus_minus other f g). unfold plus. repeat case_decide; try lia; tauto.
Qed.


Lemma plus_cancel other f d e g : d + e = 0 -> plus (plus other f d) f e g = other g.
Proof. intros H. unfold plus. case_decide; lia. Qed.

Lemma refs_ext s l other other' : refs_ok s l other -> (forall f, other' f = other f) -> refs_ok s l other'.
Proof. intros [] E. split; [done|intros; rewrite E; eauto|intros; by rewrite E]. Qed.

Lemma dup3_desc s ext p other oldfd newfd flags : desc s ext p other -> ample s ext ->
  wp (sys_dup3 oldfd newfd flags) (fun r s' => r < 0 /\ s' = s
    \/ r = newfd /\ oldfd <> newfd /\ exists f, fds p !! Z.to_nat oldfd = Some f /\ f <> 0 /\ desc s' ext (with_fd newfd f (has flags O_CLOEXEC) p) other) s.
Proof.
  intros Hd [Hl Hmax]. pose proof Hd as [Hb [Hc Hln Hcl Hrl Hro]]. pose proof Hb as [_ HH _]. unfold sys_dup3. wp_step. eapply wp_mono; [by eapply fd_file_ok|]. intros f s' [-> [->|(Hfd & Hf & Hf0 & ff & Hff)]]; [wp_steps; by left|].
  rewrite (proj2 (Z.eqb_neq f 0)) by done. destruct (Z.ltb_spec newfd 0), (Z.leb_spec MAX_FDS newfd); cbn [orb]; try (wp_steps; by left). destruct (Z.eqb_spec oldfd newfd) as [|Hne]; [wp_steps; by left|].
  wp_step. eapply wp_me; [done|]. destruct (lookup_lt_is_Some_2 (fds p) (Z.to_nat newfd)) as [g Hg]; [lia|]. wp_step. eapply wp_lift; [done|].
  set (l := <[Z.to_nat newfd := 0]> (fds p)). assert (refs_ok s l (plus other g 1)) as Hro1 by (eapply refs_ext; [eapply (refs_swap s ext _ other (Z.to_nat newfd) g 0); [done|done|done|by left]|intros h; unfold plus at 2; by rewrite plus_null]).
  assert (l !! Z.to_nat oldfd = Some f) as Hlf by (unfold l; rewrite list_lookup_insert_ne by lia; done). assert (l !! Z.to_nat newfd = Some 0) as Hl0 by (unfold l; apply list_lookup_insert_eq; lia).
  wp_step. eapply wp_mono; [apply (file_put_refs s ext l _ g Hb Hro1 Hl)|].
  { destruct (to_live _ _ _ Hro _ _ Hg) as [?|Hlg]; [by left|right]. split; [done|]. destruct Hlg as [gg Hgg]. destruct (h_file _ _ HH g gg Hgg) as (? & _). pose proof (to_other _ _ _ Hro g). unfold plus. rewrite decide_True by done. lia. }
  intros [] s1 (Hb1 & Hro2 & HA1 & Hoth). apply (refs_ext _ _ _ other) in Hro2; [|intros h; symmetry; by apply plus_cancel].
  destruct (to_live _ _ _ Hro2 _ _ Hlf) as [?|[ff1 Hff1]]; [done|]. assert (f_refs ff1 < 2 ^ 32 - 1) as Hmax1.
  { rewrite (to_refs _ _ _ Hro2 f ff1 Hff1). pose proof (Hmax f ff Hff) as Hm. rewrite (to_refs _ _ _ Hro f ff Hff) in Hm. unfold l. rewrite (occ_insert f _ _ g 0 Hg). unfold one. repeat case_decide; lia. }
  wp_step. eapply wp_mono; [apply (file_get_refs s1 ext l other f ff1 Hb1 Hro2 Hff1 Hmax1)|]. intros r s2 (-> & Hb2 & Hro3 & HA2 & EF2 & _). assert (fs_cur s2 = Some p) as Hc2 by (destruct HA1 as (_ & _ & _ & _ & E1 & _), HA2 as (_ & _ & _ & _ & E2 & _); congruence).
  wp_step. eapply wp_put_fd; [done|done|]. set (p1 := set_fds _ p). assert (desc (set_fs_cur (Some p1) s2) ext p1 other) as Hd3.
  { destruct Hb2 as [Hs2 HH2 Hp2]. split; [split; [by apply sound_cur|by apply held_cur|done]|]. split; cbn; try done; [by rewrite length_insert|].
    pose proof (refs_swap s2 ext l (plus other f 1) (Z.to_nat newfd) 0 f HH2 Hro3 Hl0) as Hsw. unfold l in Hsw. rewrite list_insert_insert_eq in Hsw. destruct Hsw as [Ha Hbb Hcc].
    { right. split; [rewrite EF2, lookup_insert_eq; eauto|]. pose proof (to_other _ _ _ Hro f). unfold plus. rewrite decide_True by done. lia. }
    apply (refs_ext _ _ (plus (plus (plus other f 1) f (-1)) 0 1)); [by split|]. intros h. rewrite plus_null. symmetry. by apply plus_cancel. }
  wp_step. eapply wp_mono; [apply (put_cloexec_ok _ ext p1 other newfd _ Hd3); lia|]. intros [] s4 [-> Hd4]. wp_steps. right. split_and!; [done|done|]. exists f. split_and!; done.
Qed.

Lemma dup2_desc s ext p other oldfd newfd : desc s ext p other -> ample s ext ->
  wp (sys_dup2 oldfd newfd) (fun r s' => r < 0 /\ s' = s
    \/ r = newfd /\ exists f, fds p !! Z.to_nat oldfd = Some f /\ f <> 0 /\ (oldfd = newfd /\ s' = s \/ oldfd <> newfd /\ desc s' ext (with_fd newfd f false p) other)) s.
Proof.
  intros Hd Ha. unfold sys_dup2. destruct (Z.eqb_spec oldfd newfd) as [->|].
  - wp_step. eapply wp_mono; [by eapply fd_file_ok|]. intros f s' [-> [->|(Hfd & Hf & Hf0 & _)]]; wp_steps; [by left|]. rewrite (proj2 (Z.eqb_neq f 0)) by done. right. split; [done|]. exists f. split_and!; try done. by left.
  - eapply wp_mono; [by apply dup3_desc|]. intros r s' [?|(-> & ? & f & ? & ? & ?)]; [by left|]. right. split; [done|]. exists f. split_and!; try done. by right.
Qed.

Lemma fset_desc s ext p other f ff g :
  desc s ext p other -> fs_files s !! f = Some ff -> f_inode (g ff) = f_inode ff -> reads (g ff) = reads ff -> f_refs (g ff) = f_refs ff ->
  wp (fset f g) (fun _ s' => desc s' ext p other /\ s' = set_fs_files (<[f := g ff]> (fs_files s)) s) s.
Proof.
  intros [[[K HT] HH Hp] [Hc Hl Hcl Hr [Hlive Hrefs H0]]] Hf Ei Er En. eapply wp_fset; [done|]. split; [|done]. split; [split|split; cbn; try done; split; cbn].
  - exists K. apply (tree_calm s _ K HT). by split_and!.
  - eapply held_file; try done. rewrite En. by apply (h_file _ _ HH f ff).
  - cbn. intros h hh [[<- <-]|[Hne Hh]]%lookup_insert_Some; [rewrite Ei; by apply (Hp f)|by apply (Hp h)].
  - intros i h Hi. destruct (Hlive i h Hi) as [?|?]; [by left|right]. destruct (decide (h = f)) as [->|]; [by rewrite lookup_insert_eq|by rewrite lookup_insert_ne].
  - intros h hh [[<- <-]|[Hne Hh]]%lookup_insert_Some; [rewrite En; eauto|eauto].
  - done.
Qed.

(** F_SETFL leaves the access mode alone. *)
Lemma setfl_reads flags arg : Z.land (Z.lor (Z.ldiff flags (Z.lor O_APPEND O_NONBLOCK)) (Z.land arg (Z.lor O_APPEND O_NONBLOCK))) O_ACCMODE = Z.land flags O_ACCMODE.
Proof.
  apply Z.bits_inj'. intros i Hi. rewrite !Z.land_spec, Z.lor_spec, Z.ldiff_spec, Z.land_spec. change O_ACCMODE with (Z.ones 2). change (Z.lor O_APPEND O_NONBLOCK) with 3072.
  destruct (Z.lt_ge_cases i 2); [|rewrite Z.ones_spec_high, !andb_false_r by lia; done]. assert (Z.testbit 3072 i = false) as -> by (assert (i = 0 \/ i = 1) as [-> | ->] by lia; done). by rewrite andb_false_r, orb_false_r, andb_true_r.
Qed.

Lemma fcntl_desc s ext p other fd cmd arg : desc s ext p other -> ample s ext -> wp (sys_fcntl fd cmd arg) (fun _ s' => exists p', desc s' ext p' other) s.
Proof.
  intros Hd Ha. unfold sys_fcntl. wp_step. eapply wp_mono; [by eapply fd_file_ok|]. intros f s' [-> [->|(Hfd & Hf & Hf0 & ff & Hff)]]; [wp_steps; by exists p|]. rewrite (proj2 (Z.eqb_neq f 0)) by done. pose proof Hd as [_ [Hc Hl Hcl _ _]].
  destruct (_ || _). { destruct (_ || _); [wp_steps; by eexists|]. eapply wp_mono; [by apply (dup_ok s ext p other f ff)|]. intros r s' (p' & Hd' & _). eauto. }
  destruct (cmd =? F_GETFD). { wp_step. eapply wp_me; [done|]. destruct (lookup_lt_is_Some_2 (cloexec p) (Z.to_nat fd)) as [b Hb]; [lia|]. wp_step. eapply wp_lift; [done|]. wp_steps. by eexists. }
  destruct (cmd =? F_SETFD). { wp_step. eapply wp_mono; [by apply put_cloexec_ok|]. intros [] s' [-> Hd']. wp_steps. by eexists. }
  destruct (cmd =? F_GETFL). { wp_step. eapply wp_fil; [done|]. wp_steps. by eexists. }
  destruct (cmd =? F_SETFL); [|wp_steps; by eexists]. wp_step. eapply wp_mono; [apply (fset_desc s ext p other f ff); try done|intros [] s' [Hd' _]; wp_steps; by eexists]. unfold reads. cbn [f_flags set_f_flags]. by rewrite setfl_reads.
Qed.

Lemma lseek_desc s ext p other fd off whence : desc s ext p other ->
  wp (sys_lseek fd off whence) (fun r s' => desc s' ext p other /\ (r < 0 /\ s' = s \/ 0 <= r < 2 ^ 32 /\ exists f ff, fds p !! Z.to_nat fd = Some f /\ fs_files s !! f = Some ff /\ fs_files s' = <[f := set_f_offset r ff]> (fs_files s))) s.
Proof.
  intros Hd. unfold sys_lseek. wp_step. eapply wp_mono; [by eapply fd_file_ok|]. intros f s' [-> [->|(Hfd & Hf & Hf0 & ff & Hff)]]; [wp_steps; split; [done|by left]|]. rewrite (proj2 (Z.eqb_neq f 0)) by done.
  pose proof Hd as [[_ HH _] _]. destruct (h_file _ _ HH f ff Hff) as (_ & _ & [x Hx]). wp_step. eapply wp_fil; [done|]. wp_step. eapply wp_ino; [done|]. destruct (unseekable x); [wp_steps; split; [done|by left]|].
  destruct (negb _); [wp_steps; split; [done|by left]|]. cbv zeta. set (pos := s64 _). destruct (Z.ltb_spec pos 0), (Z.ltb_spec (2 ^ 32 - 1) pos); cbn [orb]; try (wp_steps; split; [done|by left]).
  wp_step. eapply wp_mono; [by apply (fset_desc s ext p other f ff)|]. intros [] s' [Hd' ->]. wp_steps. split; [done|]. right. split; [lia|]. exists f, ff. done.
Qed.

Lemma umask_desc s ext p other m : desc s ext p other -> wp (sys_umask m) (fun r s' => r = umask p /\ desc s' ext (set_umask (Z.land (u32 m) 511) p) other) s.
Proof.
  intros Hd. pose proof Hd as [_ [Hc ? ? ? []]]. unfold sys_umask, set_me. wp_step. eapply wp_me; [done|]. wp_step. wp_step. eapply wp_me; [done|]. wp_steps. split; [done|]. eapply desc_cur; [done|]. by split.
Qed.

(** ** Any sequence of calls *)

Inductive fd_call := Close (fd : Z) | Dup (fd : Z) | Dup2 (oldfd newfd : Z) | Dup3 (oldfd newfd flags : Z) | Fcntl (fd cmd arg : Z) | Lseek (fd off whence : Z) | Umask (mask : Z).

Definition run_fd (c : fd_call) : M fs Z :=
  match c with
  | Close fd => sys_close fd
  | Dup fd => sys_dup fd
  | Dup2 a b => sys_dup2 a b
  | Dup3 a b flags => sys_dup3 a b flags
  | Fcntl fd cmd arg => sys_fcntl fd cmd arg
  | Lseek fd off whence => sys_lseek fd off whence
  | Umask m => sys_umask m
  end.

Lemma run_fd_ok s ext p other c : desc s ext p other -> ample s ext -> wp (run_fd c) (fun _ s' => exists p', desc s' ext p' other) s.
Proof.
  intros Hd Ha. pose proof Ha as [Hl _]. destruct c; cbn [run_fd].
  - eapply wp_mono; [by eapply close_desc|]. intros r s' [[_ ->]|(_ & f & _ & _ & Hd')]; by eexists.
  - unfold sys_dup. wp_step. eapply wp_mono; [by eapply fd_file_ok|]. intros f s' [-> [->|(Hfd & Hf & Hf0 & ff & Hff)]]; [wp_steps; by exists p|]. rewrite (proj2 (Z.eqb_neq f 0)) by done.
    eapply wp_mono; [by apply (dup_ok s ext p other f ff)|]. intros r s' (p' & Hd' & _). by exists p'.
  - eapply wp_mono; [by eapply dup2_desc|]. intros r s' [[_ ->]|(_ & f & _ & _ & [[_ ->]|[_ Hd']])]; by eexists.
  - eapply wp_mono; [by eapply dup3_desc|]. intros r s' [[_ ->]|(_ & _ & f & _ & _ & Hd')]; by eexists.
  - by apply (fcntl_desc s ext p).
  - eapply wp_mono; [by eapply lseek_desc|]. intros r s' [Hd' _]. by eexists.
  - eapply wp_mono; [by eapply umask_desc|]. intros r s' [_ Hd']. by eexists.
Qed.

Inductive fd_step (ext : Z -> Z) : fs -> fs -> Prop :=
| FdStep s c r s' : ample s ext -> run_fd c s = Some (r, s') -> fd_step ext s s'.

Lemma fd_steps s s' ext other p : rtc (fd_step ext) s s' -> desc s ext p other -> exists p', desc s' ext p' other.
Proof.
  intros Hst. revert p. induction Hst as [|s1 s2 s3 [s c r s' Ha Hrun] _ IH]; intros p Hd; [eauto|]. pose proof (run_fd_ok s ext p other c Hd Ha) as H. unfold wp in H. rewrite Hrun in H. destruct H as [p' Hd']. eauto.
Qed.

(** C6: however a process duplicates, redirects and closes descriptors, every
    descriptor refers to a live description of a live inode, every
    description's count is the number of references to it, and each of these
    calls returns, for all arguments. *)
Theorem descriptors_stay_true s s' ext other p c :
  desc s ext p other -> rtc (fd_step ext) s s' -> ample s' ext ->
  exists p', desc s' ext p' other
  /\ (forall i f, fds p' !! i = Some f -> f = 0 \/ exists ff, fs_files s' !! f = Some ff /\ f_refs ff = occ f (fds p') + other f /\ is_Some (fs_inodes s' !! f_inode ff))
  /\ exists r s'' p'', run_fd c s' = Some (r, s'') /\ desc s'' ext p'' other.
Proof.
  intros Hd Hst Ha. destruct (fd_steps s s' ext other p Hst Hd) as [p' Hd']. exists p'. split; [done|]. split.
  - pose proof Hd' as [[_ HH _] [_ _ _ _ [Hlive Hrefs _]]]. intros i f Hi. destruct (Hlive i f Hi) as [?|[ff Hf]]; [by left|right]. exists ff. split_and!; [done|eauto|by apply (h_file _ _ HH f ff)].
  - destruct (wp_run _ _ _ (run_fd_ok s' ext p' other c Hd' Ha)) as (r & s'' & Hr & p'' & Hd''). eauto.
Qed.

(** dup2 makes the new descriptor refer to the description of the old one,
    after closing what it referred to, and changes no other descriptor; a bad
    argument changes nothing. *)
Theorem dup2_correct s ext p other oldfd newfd : desc s ext p other -> ample s ext ->
  wp (sys_dup2 oldfd newfd) (fun r s' => r < 0 /\ s' = s
    \/ r = newfd /\ exists f, fds p !! Z.to_nat oldfd = Some f /\ f <> 0 /\ (oldfd = newfd /\ s' = s \/ oldfd <> newfd /\ desc s' ext (with_fd newfd f false p) other)) s.
Proof. apply dup2_desc. Qed.
End Refs.

(** ** /a open on descriptor 0 *)

Definition proc5 : process :=
  set_rlim (replicate 16 (64, 64)) (set_cloexec (replicate 64 false) (set_fds (8 :: replicate 63 0) zero_process)).

Definition names5 : fs := set_fs_cur (Some proc5) names3.

Lemma names5_desc : desc names5 nobody proc5 (fun _ => 0).
Proof.
  split; [split; [apply sound_cur; exists kids1; apply names3_tree|apply held_cur, names3_held|]|].
  - intros f ff Hf. change (({[8 := MkFile 3 None 0 O_RDONLY 1]} : gmap Z file) !! f = Some ff) in Hf. apply lookup_singleton_Some in Hf as [<- <-]. exists a1. split; [done|]. split; [by left|by right].
  - split; [done|done|done|by exists (64, 64)|]. split; [|intros f ff Hf; change (({[8 := MkFile 3 None 0 O_RDONLY 1]} : gmap Z file) !! f = Some ff) in Hf; apply lookup_singleton_Some in Hf as [<- <-]; by vm_compute|done].
    intros i f Hi. destruct i as [|i]; cbn in Hi; [injection Hi as <-; right; vm_compute; by eexists|]. left. change (replicate 63 0 !! i = Some f) in Hi. by apply lookup_replicate in Hi as [-> _].
Qed.

Lemma names5_ample : ample names5 nobody.
Proof. split; [split; [by apply few_size; vm_compute|apply names3_room]|]. intros f ff Hf. change (({[8 := MkFile 3 None 0 O_RDONLY 1]} : gmap Z file) !! f = Some ff) in Hf. apply lookup_singleton_Some in Hf as [<- <-]. by vm_compute. Qed.

Lemma descriptors_stay_true_witness :
  exists p', desc names5 nobody p' (fun _ => 0)
  /\ (forall i f, fds p' !! i = Some f -> f = 0 \/ exists ff, fs_files names5 !! f = Some ff /\ f_refs ff = occ f (fds p') + 0 /\ is_Some (fs_inodes names5 !! f_inode ff))
  /\ exists r s'' p'', run_fd (DR := no_drivers) (Dup2 0 5) names5 = Some (r, s'') /\ desc s'' nobody p'' (fun _ => 0).
Proof. apply (descriptors_stay_true (DR := no_drivers) names5 names5 nobody (fun _ => 0) proc5 (Dup2 0 5)); [apply names5_desc|apply rtc_refl|apply names5_ample]. Defined.

Lemma dup2_correct_witness :
  wp (sys_dup2 (DR := no_drivers) 0 5) (fun r s' => r < 0 /\ s' = names5
    \/ r = 5 /\ exists f, fds proc5 !! 0%nat = Some f /\ f <> 0 /\ (0 = 5 /\ s' = names5 \/ 0 <> 5 /\ desc s' nobody (with_fd 5 f false proc5) (fun _ => 0))) names5.
Proof. apply (dup2_correct (DR := no_drivers) names5 nobody proc5 (fun _ => 0) 0 5); [apply names5_desc|apply names5_ample]. Defined.
