(* ===== verification/FsCalls.v ===== *)
(** * File system calls by path: src/src/kernel/syscall/fs.c

    The arguments in user memory, the directory a path starts from, and the
    calls that open, make, remove, rename and change files. The calls on a
    description's contents are in [FsIo]. *)
From S2P Require Import Prelude Types UserMem Cred Pipe VfsState Forest Ramfs Vfs VfsTree VfsOps VfsNames VfsPath File Fds.

Notation PATH_MAX_ := 1024 (only parsing).

(** The bytes of a string, without the NUL. *)
Definition string_bytes (p : string) : list Z := (fun c => Z.of_nat (Ascii.nat_of_ascii c)) <$> String.list_ascii_of_string p.

Section Calls.
  Context {U : Type} `{UM : UserMem U} `{DR : Drivers}.

(** The file systems, the caller's memory, and the signals the caller was
    sent. *)
Record kern := MkKern { k_fs : fs; k_mem : U; k_sent : list Z }.

Definition set_k_fs (s : fs) (k : kern) : kern := MkKern s (k_mem k) (k_sent k).
Definition set_k_mem (u : U) (k : kern) : kern := MkKern (k_fs k) u (k_sent k).
Definition send_me (sig : Z) : M kern unit := modify (fun k => MkKern (k_fs k) (k_mem k) (k_sent k ++ [sig])).

Definition on_fs {A} (m : M fs A) : M kern A := zoom k_fs set_k_fs m.
Definition on_user {A} (m : M U A) : M kern A := zoom k_mem set_k_mem m.

(** ** Arguments *)

(** The bytes before the NUL, or an error. *)
Fixpoint copy_str (n : nat) (src i : Z) : M U (Z + list Z) :=
  match n with
  | O => mret (inl (- ENAMETOOLONG))
  | S n' =>
      let a := u64 (src + i) in
      ok ← (if (i =? 0) || (Z.land a 4095 =? 0) then user_ok a 1 false else mret true);
      if negb ok then mret (inl (- EFAULT)) else
      b ← user_load a;
      if b =? 0 then mret (inr []) else
      r ← copy_str n' src (i + 1);
      mret (match r with inl e => inl e | inr bs => inr (b :: bs) end)
  end.

Definition copy_user_str (src max : Z) : M U (Z + string) :=
  r ← copy_str (Z.to_nat max) src 0;
  mret (match r with inl e => inl e | inr bs => inr (c_string bs) end).

Definition root_inode : M fs Z := s ← get; rd ← dent (fs_root s); mret (d_inode rd).

Definition base_dir (dirfd : Z) (path : string) : M fs (Z + Z) :=
  if starts_slash path then n ← root_inode; mret (inr n)
  else if dirfd =? AT_FDCWD then n ← cwd_inode; mret (inr n)
  else
    f ← fd_file dirfd;
    if f =? 0 then mret (inl (- EBADF)) else
    ff ← fil f;
    t ← node_type (f_inode ff);
    if negb (t =? VFS_DIRECTORY) then mret (inl (- ENOTDIR)) else mret (inr (f_inode ff)).

Definition at_inode (dirfd upath : Z) (follow : bool) : M kern (Z + Z) :=
  p ← on_user (copy_user_str upath PATH_MAX_);
  match p with
  | inl e => mret (inl e)
  | inr path =>
      b ← on_fs (base_dir dirfd path);
      match b with inl e => mret (inl e) | inr base => on_fs (vfs_resolve base path follow) end
  end.

Definition at_parent (dirfd upath : Z) : M kern (Z + Z * string) :=
  p ← on_user (copy_user_str upath PATH_MAX_);
  match p with
  | inl e => mret (inl e)
  | inr path =>
      if String.eqb path "" then mret (inl (- ENOENT)) else
      b ← on_fs (base_dir dirfd path);
      match b with inl e => mret (inl e) | inr base => on_fs (vfs_parent base path) end
  end.

(** The inode a call is about, and then what it does. *)
Definition with_inode (dirfd upath : Z) (follow : bool) (f : Z -> M fs Z) : M kern Z :=
  r ← at_inode dirfd upath follow; match r with inl e => mret e | inr n => on_fs (f n) end.

Definition with_parent (dirfd upath : Z) (f : Z -> string -> M fs Z) : M kern Z :=
  r ← at_parent dirfd upath; match r with inl e => mret e | inr (dir, name) => on_fs (f dir name) end.

(** The inode behind a descriptor. *)
Definition with_fd_inode (fd : Z) (f : Z -> M fs Z) : M fs Z :=
  g ← fd_file fd; if g =? 0 then mret (- EBADF) else ff ← fil g; f (f_inode ff).

(** ** Opening *)

Definition sys_openat (dirfd upath flags mode : Z) : M kern Z :=
  p ← on_user (copy_user_str upath PATH_MAX_);
  match p with
  | inl e => mret e
  | inr path =>
      if String.eqb path "" then mret (- ENOENT) else
      on_fs (
        b ← base_dir dirfd path;
        match b with
        | inl e => mret e
        | inr base =>
            me ← me;
            f ← file_open base path (u32 flags) (Z.land (u32 mode) (u32 (Z.lnot (umask me))));
            match f with inl e => mret e | inr f => fd_install f 0 (has flags O_CLOEXEC) end
        end)
  end.

Definition sys_open (upath flags mode : Z) : M kern Z := sys_openat AT_FDCWD upath flags mode.

Definition sys_pipe2 (ufds flags : Z) : M kern Z :=
  ok ← on_user (user_ok (u64 ufds) 8 true);
  if negb ok then mret (- EFAULT) else
  e ← on_fs pipe_create;
  match e with
  | inl e => mret e
  | inr (rd, wr) =>
      r ← on_fs (fd_install rd 0 (has flags O_CLOEXEC));
      if r <? 0 then _ ← on_fs (file_put wr); mret r else
      w ← on_fs (fd_install wr 0 (has flags O_CLOEXEC));
      if w <? 0 then _ ← on_fs (sys_close r); mret w else
      _ ← on_user (store32 (u64 ufds) (u32 r));
      _ ← on_user (store32 (u64 ufds + 4) (u32 w));
      mret 0
  end.

Definition sys_pipe (ufds : Z) : M kern Z := sys_pipe2 ufds 0.

(** ** Attributes *)

Definition sys_faccessat (dirfd upath mode : Z) : M kern Z :=
  if negb (Z.land mode (Z.lnot 7) =? 0) then mret (- EINVAL) else
  with_inode dirfd upath true (fun n =>
    if mode =? 0 then mret 0 else x ← ino n; s ← get; mret (cred_access (fs_cur s) x mode)).

Definition sys_access (upath mode : Z) : M kern Z := sys_faccessat AT_FDCWD upath mode.

Definition set_mode (mode n : Z) : M fs Z :=
  ro ← vfs_readonly n;
  if (ro : bool) then mret (- EROFS) else
  x ← ino n;
  s ← get;
  if negb (cred_owns (fs_cur s) x) then mret (- EPERM) else
  let mode := if negb (cred_euid (fs_cur s) =? 0) && negb (cred_in_group (fs_cur s) (i_gid x)) then Z.ldiff mode S_ISGID else mode in
  _ ← iset n (set_i_mode (Z.land mode 4095));
  _ ← vfs_touch n VFS_CTIME;
  mret 0.

Definition sys_fchmodat (dirfd upath mode : Z) : M kern Z := with_inode dirfd upath true (set_mode mode).
Definition sys_chmod (upath mode : Z) : M kern Z := sys_fchmodat AT_FDCWD upath mode.
Definition sys_fchmod (fd mode : Z) : M fs Z := with_fd_inode fd (set_mode mode).

(** (int)v == -1 *)
Definition keep (v : Z) : bool := u32 v =? 2 ^ 32 - 1.

Definition chowned (uid_ gid_ : Z) (x : inode) : inode :=
  let x := if keep uid_ then x else set_i_uid (u32 uid_) x in
  let x := if keep gid_ then x else set_i_gid (u32 gid_) x in
  if itype x =? VFS_DIRECTORY then x else set_i_mode (Z.ldiff (i_mode x) 3072) x.

Definition set_owner (uid_ gid_ n : Z) : M fs Z :=
  ro ← vfs_readonly n;
  if (ro : bool) then mret (- EROFS) else
  x ← ino n;
  s ← get;
  if negb (cred_euid (fs_cur s) =? 0)
     && (negb (cred_owns (fs_cur s) x) || (negb (keep uid_) && negb (u32 uid_ =? i_uid x)) || (negb (keep gid_) && negb (cred_in_group (fs_cur s) (u32 gid_))))
  then mret (- EPERM) else
  _ ← iset n (chowned uid_ gid_);
  _ ← vfs_touch n VFS_CTIME;
  mret 0.

(** [AT_EMPTY_PATH] with an empty path names the descriptor itself. *)
Definition empty_path (flags upath : Z) : M kern bool :=
  if negb (has flags AT_EMPTY_PATH) then mret false else
  ok ← on_user (user_ok (u64 upath) 1 false);
  if negb ok then mret false else b ← on_user (user_load (u64 upath)); mret (b =? 0).

Definition sys_fchown (fd uid_ gid_ : Z) : M fs Z := with_fd_inode fd (set_owner uid_ gid_).

Definition sys_fchownat (dirfd upath uid_ gid_ flags : Z) : M kern Z :=
  e ← empty_path flags upath;
  if (e : bool) then on_fs (sys_fchown dirfd uid_ gid_)
  else with_inode dirfd upath (negb (has flags AT_SYMLINK_NOFOLLOW)) (set_owner uid_ gid_).

Definition sys_chown (upath uid_ gid_ : Z) : M kern Z := sys_fchownat AT_FDCWD upath uid_ gid_ 0.
Definition sys_lchown (upath uid_ gid_ : Z) : M kern Z := sys_fchownat AT_FDCWD upath uid_ gid_ AT_SYMLINK_NOFOLLOW.

Notation UTIME_NOW := (2 ^ 30 - 1) (only parsing).
Notation UTIME_OMIT := (2 ^ 30 - 2) (only parsing).

(** One of the two times: the field keeps its value, or gets a new one, or the
    call fails. *)
Definition new_time (now old sec nsec : Z) : option Z :=
  if nsec =? UTIME_OMIT then Some old
  else if nsec =? UTIME_NOW then Some now
  else if (sec <? 0) || (nsec <? 0) || (1000000000 <=? nsec) then None
  else Some (u64 (u64 (sec * 1000000000) + nsec)).

Definition set_times (t : list Z) (n : Z) : M fs Z :=
  let at_ i := nth i t 0 in
  let soft v := (v =? UTIME_NOW) || (v =? UTIME_OMIT) in
  ro ← vfs_readonly n;
  if (ro : bool) then mret (- EROFS) else
  x ← ino n;
  s ← get;
  let owns := cred_owns (fs_cur s) x in
  if negb owns && negb (soft (at_ 1%nat) && soft (at_ 3%nat)) then mret (- EPERM) else
  if negb owns && (cred_permission (fs_cur s) x MAY_WRITE <? 0) then mret (- EACCES) else
  match new_time (fs_now s) (i_atime x) (at_ 0%nat) (at_ 1%nat) with
  | None => mret (- EINVAL)
  | Some a =>
      _ ← iset n (set_i_atime a);
      match new_time (fs_now s) (i_mtime x) (at_ 2%nat) (at_ 3%nat) with
      | None => mret (- EINVAL)
      | Some m => _ ← iset n (set_i_mtime m); _ ← vfs_touch n VFS_CTIME; mret 0
      end
  end.

Definition load_times (utimes : Z) : M U (option (list Z)) :=
  if utimes =? 0 then mret (Some [0; UTIME_NOW; 0; UTIME_NOW]) else
  ok ← user_ok (u64 utimes) 32 false;
  if negb ok then mret None else
  a ← load64 (u64 utimes); b ← load64 (u64 utimes + 8); c ← load64 (u64 utimes + 16); d ← load64 (u64 utimes + 24);
  mret (Some [s64 a; s64 b; s64 c; s64 d]).

Definition sys_utimensat (dirfd upath utimes flags : Z) : M kern Z :=
  t ← on_user (load_times utimes);
  match t with
  | None => mret (- EFAULT)
  | Some t =>
      if upath =? 0 then on_fs (with_fd_inode dirfd (set_times t))
      else with_inode dirfd upath (negb (has flags AT_SYMLINK_NOFOLLOW)) (set_times t)
  end.

(** ** Names *)

Definition sys_mkdirat (dirfd upath mode : Z) : M kern Z :=
  with_parent dirfd upath (fun dir name =>
    p ← me;
    r ← vfs_create dir name VFS_DIRECTORY (Z.land (Z.land (u32 mode) (u32 (Z.lnot (umask p)))) 4095);
    mret (match r with inl e => e | inr _ => 0 end)).
Definition sys_mkdir (upath mode : Z) : M kern Z := sys_mkdirat AT_FDCWD upath mode.

(** "/" exists: for these calls it is busy. *)
Definition busy_root (e : Z) : Z := if e =? - EEXIST then - EBUSY else e.

Notation AT_REMOVEDIR := 512 (only parsing).

Definition sys_unlinkat (dirfd upath flags : Z) : M kern Z :=
  r ← at_parent dirfd upath;
  match r with
  | inl e => mret (busy_root e)
  | inr (dir, name) => on_fs (if has flags AT_REMOVEDIR then vfs_rmdir dir name else vfs_unlink dir name)
  end.
Definition sys_unlink (upath : Z) : M kern Z := sys_unlinkat AT_FDCWD upath 0.
Definition sys_rmdir (upath : Z) : M kern Z := sys_unlinkat AT_FDCWD upath AT_REMOVEDIR.

Notation RENAME_NOREPLACE := 1 (only parsing).

Definition sys_renameat2 (odirfd uold ndirfd unew flags : Z) : M kern Z :=
  if negb (Z.ldiff flags RENAME_NOREPLACE =? 0) then mret (- EINVAL) else
  o ← at_parent odirfd uold;
  match o with
  | inl e => mret (busy_root e)
  | inr (odir, oname) =>
      n ← at_parent ndirfd unew;
      match n with
      | inl e => mret (busy_root e)
      | inr (ndir, nname) => on_fs (vfs_rename odir oname ndir nname (has flags RENAME_NOREPLACE))
      end
  end.
Definition sys_renameat (odirfd uold ndirfd unew : Z) : M kern Z := sys_renameat2 odirfd uold ndirfd unew 0.
Definition sys_rename (uold unew : Z) : M kern Z := sys_renameat2 AT_FDCWD uold AT_FDCWD unew 0.

Notation AT_SYMLINK_FOLLOW := 1024 (only parsing).

Definition sys_linkat (odirfd uold ndirfd unew flags : Z) : M kern Z :=
  t ← at_inode odirfd uold (has flags AT_SYMLINK_FOLLOW);
  match t with
  | inl e => mret e
  | inr target => with_parent ndirfd unew (fun dir name => vfs_link dir name target)
  end.
Definition sys_link (uold unew : Z) : M kern Z := sys_linkat AT_FDCWD uold AT_FDCWD unew 0.

(** n->write(n, ...) of a node of the RAM file system. *)
Definition write_link (n : Z) (target : string) : M fs Z :=
  x ← ino n;
  match i_write x with
  | Some DRamfs => ramfs_write n 0 (string_bytes target)
  | _ => fault
  end.

Definition sys_symlinkat (utarget dirfd upath : Z) : M kern Z :=
  t ← on_user (copy_user_str utarget PATH_MAX_);
  match t with
  | inl e => mret e
  | inr target =>
      if String.eqb target "" then mret (- ENOENT) else
      with_parent dirfd upath (fun dir name =>
        c ← vfs_create dir name VFS_SYMLINK 511;
        match c with inl e => mret e | inr n => e ← write_link n target; mret (if e <? 0 then e else 0) end)
  end.
Definition sys_symlink (utarget upath : Z) : M kern Z := sys_symlinkat utarget AT_FDCWD upath.

Definition sys_readlinkat (dirfd upath ubuf size_ : Z) : M kern Z :=
  r ← at_inode dirfd upath false;
  match r with
  | inl e => mret e
  | inr n =>
      x ← on_fs (ino n);
      if negb (itype x =? VFS_SYMLINK) then mret (- EINVAL) else
      if size_ <=? 0 then mret (- EINVAL) else
      let size_ := if i_length x <? size_ then i_length x else size_ in
      ok ← on_user (user_ok (u64 ubuf) (u64 size_) true);
      if negb ok then mret (- EFAULT) else
      rb ← on_fs (call_read n 0 (u32 size_));
      _ ← on_user (store_bytes (u64 ubuf) (snd rb));
      mret (fst rb)
  end.
Definition sys_readlink (upath ubuf size_ : Z) : M kern Z := sys_readlinkat AT_FDCWD upath ubuf size_.

(** ** Length *)

Definition set_length (length_ n : Z) : M fs Z :=
  ro ← vfs_readonly n;
  if (ro : bool) then mret (- EROFS) else
  if (length_ <? 0) || (2 ^ 32 - 1 <? length_) then mret (- EINVAL) else
  x ← ino n;
  if itype x =? VFS_DIRECTORY then mret (- EISDIR) else
  if negb (itype x =? VFS_FILE) || negb (has_truncate x) then mret (- EINVAL) else
  e ← call_truncate n length_;
  mret (if e <? 0 then - ENOMEM else 0).

Definition sys_truncate (upath length_ : Z) : M kern Z :=
  with_inode AT_FDCWD upath true (fun n =>
    x ← ino n;
    s ← get;
    let err := cred_permission (fs_cur s) x MAY_WRITE in
    if err <? 0 then mret err else set_length length_ n).

Definition sys_ftruncate (fd length_ : Z) : M fs Z :=
  f ← fd_file fd;
  if f =? 0 then mret (- EBADF) else
  ff ← fil f;
  if Z.land (f_flags ff) O_ACCMODE =? O_RDONLY then mret (- EINVAL) else set_length length_ (f_inode ff).
End Calls.
Arguments kern : clear implicits.
