(* ===== verification/FsSafe.v ===== *)
(** * The path calls are safe

    Strings read from user memory are what is there; the calls on names and
    attributes return for all arguments, keep the file systems sound and
    everybody's hold on files, and change owners and modes only for those who
    may. *)
From S2P Require Import Prelude Types UserMem Cred Pipe VfsState Forest Ramfs Vfs VfsTree VfsOps VfsRename VfsNames VfsPath VfsKeep File FileRefs Fds FdRefs FsCalls.

(** ** Strings in user memory *)

Lemma string_bytes_c bs : Forall (fun b => 0 < b < 256) bs -> string_bytes (c_string bs) = bs.
Proof.
  induction 1 as [|b bs Hb _ IH]; [done|]. simpl. rewrite (proj2 (Z.eqb_neq b 0)) by lia. change (string_bytes (String ?a ?p)) with (Z.of_nat (Ascii.nat_of_ascii a) :: string_bytes p). rewrite IH. f_equal.
  rewrite Ascii.nat_ascii_embedding by lia. lia.
Qed.

Section Strings.
  Context {U : Type} `{UM : UserMem U} {UP : UserPages U}.

(** The bytes from [a] on, none of them NUL. *)
Definition text_at (u : U) (a : Z) (bs : list Z) : Prop :=
  Forall (fun b => 0 < b < 256) bs /\ forall i : nat, (i < length bs)%nat -> peek u (u64 (a + Z.of_nat i)) = bs !! i.

(** A byte a program may read. *)
Definition legible (u : U) (a : Z) : Prop := a < user_top /\ is_Some (peek u a).

Lemma text_cons u a b bs : peek u (u64 a) = Some b -> 0 < b < 256 -> text_at u (a + 1) bs -> text_at u a (b :: bs).
Proof.
  intros Hb Hr [Hf Ht]. split; [by constructor|]. intros [|i] Hi; simpl in *; [by rewrite Z.add_0_r|].
  rewrite <- Ht by lia. do 2 f_equal. lia.
Qed.

(** The byte after a legible one is in the same page or starts one. *)
Lemma next_byte u a : um_inv u -> is_Some (peek u (u64 (a - 1))) -> Z.land (u64 a) 4095 <> 0 -> is_Some (peek u (u64 a)).
Proof.
  intros Hi [b Hb] Hn. pose proof (peek_user u _ _ Hi Hb) as Hr. assert (u64 a = u64 (a - 1) + 1) as E.
  { unfold u64 in *. pose proof (Z.div_mod (a - 1) (2 ^ 64)). rewrite <- (Z.mod_unique a (2 ^ 64) ((a - 1) / 2 ^ 64) ((a - 1) mod 2 ^ 64 + 1)); lia. }
  apply (page_peek u (u64 (a - 1))); [done|by eexists|]. change 4095 with (Z.ones 12) in Hn. rewrite Z.land_ones in Hn by lia. change (2 ^ 12) with 4096 in Hn. rewrite E in *. lia_div.
Qed.

Lemma copy_str_ok n u src i :
  um_inv u -> 0 <= i -> i = 0 \/ is_Some (peek u (u64 (src + i - 1))) ->
  wp (copy_str n src i) (fun r u' => um_inv u' /\ grows u u' /\ match r with
    | inr bs => text_at u' (src + i) bs /\ (length bs < n)%nat /\ peek u' (u64 (src + i + Z.of_nat (length bs))) = Some 0
    | inl e => exists bs, text_at u' (src + i) bs /\ (e = - ENAMETOOLONG /\ length bs = n
        \/ e = - EFAULT /\ (length bs < n)%nat /\ ~ legible u (u64 (src + i + Z.of_nat (length bs)))) end) u.
Proof.
  revert u i. induction n as [|n IH]; intros u i Hi Hi0 Hprev; cbn [copy_str].
  { wp_step. split_and!; [done|done|]. exists []. split; [split; [constructor|simpl; lia]|by left]. }
  cbv zeta. set (a := u64 (src + i)). assert (0 <= a < 2 ^ 64) by apply u64_bound.
  wp_step. apply (wp_mono _ (fun (ok : bool) u1 => um_inv u1 /\ grows u u1 /\ if ok then is_Some (peek u1 a) else ~ legible u a)).
  { destruct ((i =? 0) || (Z.land a 4095 =? 0)) eqn:E.
    - eapply wp_mono; [apply user_ok_spec; [done|done|lia]|]. intros ok u1 (I1 & P1 & W1 & T1 & F1). split_and!; [done|done|].
      destruct ok; [by apply (T1 eq_refl); lia|]. intros [Ht Hp]. assert (false = true); [|done]. apply F1; [lia|]. intros x Hx. assert (x = a) as -> by lia. done.
    - apply orb_false_iff in E as [E1%Z.eqb_neq E2%Z.eqb_neq]. wp_step. split_and!; [done|done|]. destruct Hprev as [?|Hp]; [done|]. by apply next_byte. }
  intros ok u1 (I1 & G1 & H1). destruct ok; simpl.
  2:{ wp_step. split_and!; [done|done|]. exists []. split; [split; [constructor|simpl; lia]|]. right. simpl. rewrite Z.add_0_r. split_and!; [done|lia|done]. }
  destruct H1 as [b Hb]. wp_step. unfold user_load. do 2 wp_step. eapply wp_lift; [done|]. pose proof (peek_byte u1 a b I1 Hb) as Hbb. destruct (Z.eqb_spec b 0) as [->|Hb0].
  { wp_step. split_and!; [done|done|split; [constructor|simpl; lia]|simpl; lia|]. simpl. by rewrite Z.add_0_r. }
  wp_step. eapply wp_mono; [apply IH; [done|lia|right]|].
  { replace (src + (i + 1) - 1) with (src + i) by lia. by exists b. }
  intros r u2 (I2 & G2 & Hr). wp_step. split_and!; [done|by etrans|]. rewrite Z.add_assoc in Hr. assert (peek u2 a = Some b) as Hb2 by (by apply G2).
  destruct r as [e|bs].
  - destruct Hr as (bs & Ht & Hr). exists (b :: bs). split; [apply text_cons; [done|lia|done]|]. simpl. destruct Hr as [[-> <-]|(-> & Hlen & Hno)]; [by left|right].
    split_and!; [done|lia|]. replace (src + i + Z.of_nat (S (length bs))) with (src + i + 1 + Z.of_nat (length bs)) by lia. intros [Ht' [c Hc]]. apply Hno. split; [done|]. exists c. by apply G1.
  - destruct Hr as (Ht & Hlen & Hz). simpl. split_and!; [apply text_cons; [done|lia|done]|lia|].
    by replace (src + i + Z.of_nat (S (length bs))) with (src + i + 1 + Z.of_nat (length bs)) by lia.
Qed.

Lemma copy_user_str_ok u src max :
  um_inv u ->
  wp (copy_user_str src max) (fun r u' => um_inv u' /\ grows u u' /\ match r with
    | inr p => text_at u' src (string_bytes p) /\ Z.of_nat (length (string_bytes p)) < max /\ peek u' (u64 (src + Z.of_nat (length (string_bytes p)))) = Some 0
    | inl e => exists bs, text_at u' src bs /\ (e = - ENAMETOOLONG /\ Z.of_nat (length bs) = Z.max 0 max
        \/ e = - EFAULT /\ Z.of_nat (length bs) < max /\ ~ legible u (u64 (src + Z.of_nat (length bs)))) end) u.
Proof.
  intros Hi. unfold copy_user_str. wp_step. eapply wp_mono; [apply (copy_str_ok (Z.to_nat max) u src 0); [done|done|by left]|].
  intros r u' (I' & G' & Hr). wp_step. split_and!; [done|done|]. rewrite Z.add_0_r in Hr. destruct r as [e|bs].
  - destruct Hr as (bs & Ht & Hr). exists bs. split; [done|]. destruct Hr as [[-> ?]|(-> & ? & ?)]; [left|right]; split_and!; done || lia.
  - destruct Hr as (Ht & Hl & Hz). rewrite string_bytes_c by apply Ht. split_and!; [done|lia|done].
Qed.

(** C20: copying a path from user memory gives exactly the string there, NUL
    excluded, and it fits; too long is said only of max bytes without a NUL,
    and a fault only when the first byte missing is one the program may not
    read itself. Checking once per page is enough: no byte is read that was
    not known to be mapped. *)
Theorem copy_user_str_correct u src max :
  um_inv u ->
  wp (copy_user_str src max) (fun r u' => um_inv u' /\ grows u u' /\ match r with
    | inr p => text_at u' src (string_bytes p) /\ Z.of_nat (length (string_bytes p)) < max /\ peek u' (u64 (src + Z.of_nat (length (string_bytes p)))) = Some 0
    | inl e => exists bs, text_at u' src bs /\ (e = - ENAMETOOLONG /\ Z.of_nat (length bs) = Z.max 0 max
        \/ e = - EFAULT /\ Z.of_nat (length bs) < max /\ ~ legible u (u64 (src + Z.of_nat (length bs)))) end) u.
Proof. apply copy_user_str_ok. Qed.
End Strings.

(** A string that starts in an unmapped page. *)
Lemma copy_user_str_correct_witness :
  wp (copy_user_str (U := paged) 8192 1024) (fun r u' => um_inv u' /\ grows (page_of [47]) u' /\ match r with
    | inr p => text_at u' 8192 (string_bytes p) /\ Z.of_nat (length (string_bytes p)) < 1024 /\ peek u' (u64 (8192 + Z.of_nat (length (string_bytes p)))) = Some 0
    | inl e => exists bs, text_at u' 8192 bs /\ (e = - ENAMETOOLONG /\ Z.of_nat (length bs) = Z.max 0 1024
        \/ e = - EFAULT /\ Z.of_nat (length bs) < 1024 /\ ~ legible (page_of [47]) (u64 (8192 + Z.of_nat (length bs)))) end) (page_of [47]).
Proof. apply (copy_user_str_correct (U := paged) (page_of [47]) 8192 1024). change (paged_inv (page_of [47])). apply page_of_inv. repeat constructor; unfold byte; lia. Defined.

(** ** Holds outlast changes to names *)

Lemma naming_some N n : naming N n <> 0%nat -> exists d, N !! d = Some n.
Proof.
  unfold naming. intros H. destruct (map_choose (filter (fun kv : Z * Z => kv.2 = n) N)) as (d & m & Hd); [intros E; by rewrite E, map_size_empty in H|].
  apply map_lookup_filter_Some in Hd as [Hd E]. simpl in E. subst. eauto.
Qed.

Lemma kept_held s s' ext : held s ext -> kept s s' -> held s' ext.
Proof.
  intros HH [Ho Hn Hl (EF & EP & EM & ER & _ & _ & _ & EB)].
  assert (forall n, opens s' n = opens s n) as Eo by (intros n; unfold opens; by rewrite EF).
  assert (forall b n, open_ends s' b n = open_ends s b n) as Ee by (intros b n; unfold open_ends; by rewrite EF).
  assert (forall n x, fs_inodes s !! n = Some x -> 0 < opens s n + ext n -> exists y, fs_inodes s' !! n = Some y /\ same_hold x y) as Hstay.
  { intros n x Hx Hpos. destruct (Ho n x Hx) as [?|[_ E]]; [done|]. rewrite (h_refs _ _ HH n x Hx) in E. lia. }
  assert (forall n y, fs_inodes s' !! n = Some y -> i_release y <> None -> exists x, fs_inodes s !! n = Some x /\ same_hold x y) as Hback.
  { intros n y Hy Hr. destruct (fs_inodes s !! n) as [x|] eqn:Hx; [|by destruct (Hn n y Hx Hy) as (_ & ? & _)]. destruct (Ho n x Hx) as [(y' & Hy' & ?)|[? _]]; [|congruence]. simplify_eq. eauto. }
  split.
  - intros f ff Hf. rewrite EF in Hf. destruct (h_file _ _ HH f ff Hf) as (? & ? & [x Hx]). split; [done|]. split; [done|]. pose proof (opens_pos s f ff Hf). pose proof (proj1 (h_ext _ _ HH (f_inode ff))).
    destruct (Hstay _ x Hx) as (y & Hy & _); [lia|eauto].
  - intros n y Hy. rewrite Eo. destruct (fs_inodes s !! n) as [x|] eqn:Hx.
    + destruct (Ho n x Hx) as [(y' & Hy' & Hs)|[? _]]; [|congruence]. simplify_eq. rewrite (sh_refs _ _ Hs). by apply HH.
    + destruct (Hn n y Hx Hy) as [-> _]. pose proof (h_ext _ _ HH n) as [_ He]. destruct (decide (ext n = 0)) as [->|Hne]; [|destruct (He Hne); congruence].
      destruct (decide (opens s n = 0)) as [->|Hp]; [done|]. exfalso. unfold opens in Hp. destruct (naming_some (f_inode <$> fs_files s) n) as (f & Hf); [lia|].
      rewrite lookup_fmap in Hf. destruct (fs_files s !! f) as [ff|] eqn:Hff; [|done]. injection Hf as <-. destruct (h_file _ _ HH f ff Hff) as (_ & _ & [z Hz]). congruence.
  - intros n. split; [by apply HH|]. intros Hne. destruct (h_ext _ _ HH n) as [H0 He]. destruct (He Hne) as [x Hx]. destruct (Hstay n x Hx) as (y & Hy & _); [|eauto]. unfold opens. lia.
  - intros n y Hy Hr. destruct (Hback n y Hy) as (x & Hx & Hs); [by rewrite Hr|]. destruct (h_pipe _ _ HH n x Hx) as (k & p & [P1 P2 P3 P4 (P5 & P6 & P7) P8]); [by rewrite <- (sh_release _ _ Hs)|].
    assert (i_release x <> None) as Hxr by (by rewrite <- (sh_release _ _ Hs), Hr). exists k, p. split; rewrite ?Ee, ?EP; try done.
    + by rewrite (sh_ptr _ _ Hs).
    + split_and!; [by rewrite (sh_destroy _ _ Hs)|by eapply Hl|done].
    + intros n' y' Hy' Hr' Hp'. destruct (Hback n' y' Hy') as (x' & Hx' & Hs'); [by rewrite Hr'|]. apply (P8 n' x'); [done|by rewrite <- (sh_release _ _ Hs')|].
      rewrite <- (sh_ptr _ _ Hs'); [done|]. by rewrite <- (sh_release _ _ Hs'), Hr'.
  - intros k Hk. rewrite EF, EP. apply HH. lia.
Qed.

Lemma kept_desc s s' ext p other : desc s ext p other -> walkable s' -> kept s s' -> desc s' ext p other.
Proof.
  intros [[Hs HH Hp] [Hc H1 H2 H3 [L R O]]] Hw Hk. pose proof (kept_held s s' ext HH Hk) as HH'. pose proof Hk as [Ho Hn Hl (EF & _ & _ & _ & _ & EC & _)].
  split; [split; [by apply walkable_sound|done|]|split; [congruence|done..|split; [by rewrite EF|by rewrite EF|done]]].
  intros f ff Hf. destruct (h_file _ _ HH' f ff Hf) as (_ & _ & [y Hy]). rewrite EF in Hf. destruct (Hp f ff Hf) as (x & Hx & P1 & P2).
  destruct (Ho _ x Hx) as [(y' & Hy' & Hsh)|[? _]]; [|congruence]. simplify_eq. exists y. split; [done|]. split; [by rewrite (sh_release _ _ Hsh)|by rewrite (sh_destroy _ _ Hsh)].
Qed.

(** The caller's view: sound file systems, true counts, and a working
    directory that is held. *)
Record home (s : fs) (ext : Z -> Z) (p : process) (other : Z -> Z) : Prop := {
  hm_walk : walkable s;
  hm_desc : desc s ext p other;
  hm_cwd : cwd p <> 0 -> 0 < ext (cwd p);
}.

Lemma home_kept s s' ext p other : home s ext p other -> walkable s' -> kept s s' -> home s' ext p other.
Proof. intros [Hw Hd Hc] Hw' Hk. split; [done|by eapply kept_desc|done]. Qed.

(** One inode changed in fields nobody's hold depends on. *)
Lemma inode_keeps s n x y :
  walkable s -> fs_inodes s !! n = Some x -> ikey y = ikey x -> same_hold x y -> (is_link y = true -> link_ok y) ->
  let s' := set_fs_inodes (<[n := y]> (fs_inodes s)) s in walkable s' /\ lives s s'.
Proof.
  intros ((K & HT & r & z & Hr & Hd & Hp & Hv) & Hl & [Hpd Hpr]) Hx Ek Hs Hlk s'. injection Ek as E1 E2 E3 E4 E5 E6.
  assert (forall m w, fs_inodes s' !! m = Some w -> m = n /\ w = y \/ m <> n /\ fs_inodes s !! m = Some w) as Hback.
  { intros m w. simpl. intros [[<- <-]|[? ?]]%lookup_insert_Some; auto. }
  split; [split; [exists K; split|split; [|split]]|].
  - eapply tree_calm; [done|]. apply (calm_set s n x y Hx). unfold ikey. congruence.
  - exists r. simpl. destruct (decide (r = n)) as [->|Hne]; [exists y; rewrite lookup_insert_eq|exists z; rewrite lookup_insert_ne by done; by split_and!].
    rewrite Hr in Hx. injection Hx as <-. split_and!; [done|congruence| |done]. rewrite <- Hp. by apply dir_ptr_eq.
  - intros m w Hm Hw. destruct (Hback m w Hm) as [[-> ->]|[_ ?]]; [by apply Hlk|by eapply Hl].
  - intros m1 w1 m2 w2 Hm1 Hc Hm2 Edev.
    assert (exists a v, fs_inodes s !! a = Some v /\ has_create v = true /\ i_dev v = i_dev w1) as (a & v & Ha & Hvc & Hvd).
    { destruct (Hback m1 w1 Hm1) as [[-> ->]|[_ ?]]; [exists n, x; split_and!; [done|unfold has_create in *; by rewrite <- E4|done]|by exists m1, w1]. }
    destruct (Hback m2 w2 Hm2) as [[-> ->]|[_ ?]]; [rewrite E3; apply (Hpd a v n x); congruence|apply (Hpd a v m2 w2); congruence].
  - intros m w Hm Hw. destruct (Hback m w Hm) as [[-> ->]|[_ ?]]; [|by eapply Hpr]. rewrite E1, E3. apply (Hpr n x Hx). by rewrite <- (sh_release _ _ Hs).
  - apply kept_calm; [|done|by split_and!]. intros m. simpl. destruct (decide (m = n)) as [->|Hne]; [by rewrite lookup_insert_eq, Hx|rewrite lookup_insert_ne by done].
    by destruct (fs_inodes s !! m).
Qed.

Lemma mild_keeps s n x y :
  walkable s -> fs_inodes s !! n = Some x -> mild x y -> ikey y = ikey x ->
  let s' := set_fs_inodes (<[n := y]> (fs_inodes s)) s in walkable s' /\ lives s s'.
Proof.
  intros Hw Hx Hm Ek. apply (inode_keeps s n x y); [done|done|done|apply Hm|]. rewrite (mild_is_link _ _ Hm). intros Hl.
  eapply mild_link_ok; [done|done|]. by apply (proj1 (proj2 Hw) n).
Qed.

(** A call on an inode that keeps everything. *)
Definition keeps {A} (m : M fs A) (s : fs) : Prop := wp m (fun _ s' => walkable s' /\ kept s s') s.

(** Some fields of an inode are set, and its ctime. *)
Lemma set_and_touch s n x f (Q : Z -> fs -> Prop) :
  walkable s -> fs_inodes s !! n = Some x -> mild x (f x) -> ikey (f x) = ikey x ->
  (forall s', fs_inodes s' = <[n := touched (fs_now s) VFS_CTIME (f x)]> (fs_inodes s) -> walkable s' -> lives s s' -> Q 0 s') ->
  wp (_ ← iset n f; _ ← vfs_touch n VFS_CTIME; mret 0) Q s.
Proof.
  intros Hw Hx Hm Ek HQ. wp_step. eapply wp_iset; [done|]. destruct (mild_keeps s n x (f x) Hw Hx Hm Ek) as [W1 L1]. set (s1 := set_fs_inodes _ s) in *.
  assert (fs_inodes s1 !! n = Some (f x)) as Hx1 by apply lookup_insert_eq. wp_step. eapply wp_touch; [exact Hx1|]. wp_step.
  destruct (mild_keeps s1 n (f x) (touched (fs_now s) VFS_CTIME (f x)) W1 Hx1) as [W2 L2]; [apply mild_touched|done|].
  apply HQ; [simpl; by rewrite insert_insert_eq|done|by etrans].
Qed.

Lemma wp_readonly_any s n x (Q : bool -> fs -> Prop) : walkable s -> fs_inodes s !! n = Some x -> Q (rofs s x) s -> wp (vfs_readonly n) Q s.
Proof. intros ((K & HT & _) & _) Hx HQ. by eapply wp_vfs_readonly. Qed.

(** ** Modes and owners *)

(** The mode chmod sets: without the set-group-id bit when the caller is
    neither root nor in the file's group. *)
Definition mode_set (c : option process) (mode : Z) (x : inode) : Z :=
  Z.land (if negb (cred_euid c =? 0) && negb (cred_in_group c (i_gid x)) then Z.ldiff mode S_ISGID else mode) 4095.

Lemma set_mode_ok s mode n x :
  walkable s -> fs_inodes s !! n = Some x ->
  wp (set_mode mode n) (fun r s' => walkable s' /\ lives s s' /\
    if rofs s x then r = - EROFS /\ s' = s else if negb (cred_owns (fs_cur s) x) then r = - EPERM /\ s' = s
    else r = 0 /\ fs_inodes s' = <[n := touched (fs_now s) VFS_CTIME (set_i_mode (mode_set (fs_cur s) mode x) x)]> (fs_inodes s)) s.
Proof.
  intros Hw Hx. unfold set_mode. wp_step. apply (wp_readonly_any s n x); [done|done|]. destruct (rofs s x); [by wp_step|].
  wp_step. eapply wp_ino; [done|]. do 2 wp_step. destruct (negb (cred_owns _ x)); [by wp_step|].
  eapply set_and_touch; [done|done|by split|done|]. intros s' EI W' L'. by split_and!.
Qed.

(** Whether a chown is refused. *)
Definition chown_refused (c : option process) (x : inode) (uid_ gid_ : Z) : bool :=
  negb (cred_euid c =? 0)
  && (negb (cred_owns c x) || (negb (keep uid_) && negb (u32 uid_ =? i_uid x)) || (negb (keep gid_) && negb (cred_in_group c (u32 gid_)))).

Lemma chowned_fields uid_ gid_ x :
  i_uid (chowned uid_ gid_ x) = (if keep uid_ then i_uid x else u32 uid_) /\ i_gid (chowned uid_ gid_ x) = (if keep gid_ then i_gid x else u32 gid_)
  /\ mild x (chowned uid_ gid_ x) /\ ikey (chowned uid_ gid_ x) = ikey x
  /\ i_mode (chowned uid_ gid_ x) = if is_dir x then i_mode x else Z.ldiff (i_mode x) 3072.
Proof.
  unfold chowned, is_dir, itype. destruct (keep uid_), (keep gid_); cbn [i_flags set_i_uid set_i_gid];
    (destruct (Z.land (i_flags x) VFS_TYPE =? VFS_DIRECTORY); split_and!; try done; split; try done; by split).
Qed.

Lemma set_owner_ok s uid_ gid_ n x :
  walkable s -> fs_inodes s !! n = Some x ->
  wp (set_owner uid_ gid_ n) (fun r s' => walkable s' /\ lives s s' /\
    if rofs s x then r = - EROFS /\ s' = s else if chown_refused (fs_cur s) x uid_ gid_ then r = - EPERM /\ s' = s
    else r = 0 /\ fs_inodes s' = <[n := touched (fs_now s) VFS_CTIME (chowned uid_ gid_ x)]> (fs_inodes s)) s.
Proof.
  intros Hw Hx. unfold set_owner. wp_step. apply (wp_readonly_any s n x); [done|done|]. destruct (rofs s x); [by wp_step|].
  wp_step. eapply wp_ino; [done|]. do 2 wp_step. fold (chown_refused (fs_cur s) x uid_ gid_). destruct (chown_refused _ _ _ _); [by wp_step|].
  destruct (chowned_fields uid_ gid_ x) as (_ & _ & Hm & Hk & _). eapply set_and_touch; [done|done|done|done|]. intros s' EI W' L'. by split_and!.
Qed.

Lemma set_times_ok s t n : walkable s -> is_Some (fs_inodes s !! n) -> wp (set_times t n) (fun _ s' => walkable s' /\ lives s s') s.
Proof.
  intros Hw [x Hx]. unfold set_times. wp_step. apply (wp_readonly_any s n x); [done|done|]. destruct (rofs s x); [by wp_step|].
  wp_step. eapply wp_ino; [done|]. do 2 wp_step. destruct (_ && negb (_ && _)); [by wp_step|]. destruct (_ && _); [by wp_step|].
  destruct (new_time _ _ _ _) as [a|]; [|by wp_step]. wp_step. eapply wp_iset; [done|].
  destruct (mild_keeps s n x (set_i_atime a x) Hw Hx) as [W1 L1]; [by split|done|]. set (s1 := set_fs_inodes _ s) in *.
  assert (fs_inodes s1 !! n = Some (set_i_atime a x)) as Hx1 by apply lookup_insert_eq.
  destruct (new_time _ (i_mtime x) _ _) as [m|]; [|by wp_step].
  eapply set_and_touch; [done|exact Hx1|by split|done|]. intros s' _ W' L'. split; [done|by etrans].
Qed.

(** ** From arguments to inodes *)

Section Paths.
  Context {U : Type} `{UM : UserMem U} {UP : UserPages U} `{DO : DriversOk}.
  Context (ext : Z -> Z) (p : process) (other : Z -> Z).
  Notation H := (fun s => home s ext p other).

(** Before a call, and after one that began with [s0]: the open files, the
    pipes, the mounts and the caller are what they were. *)
Definition ready (k : kern U) : Prop := um_inv (k_mem k) /\ H (k_fs k) /\ few (k_fs k).
Definition settled (s0 : fs) (k : kern U) : Prop := um_inv (k_mem k) /\ H (k_fs k) /\ aside s0 (k_fs k).

Lemma lives_aside s s' s0 : lives s s' -> aside s0 s -> aside s0 s'.
Proof. intros (_ & [_ _ _ Ha] & _) H0. by transitivity s. Qed.

Lemma home_cur s : H s -> fs_cur s = Some p.
Proof. intros [_ [_ []] _]. done. Qed.

Lemma wp_on_user {A} (m : M U A) k (Q : A -> kern U -> Prop) : wp m (fun a u => Q a (set_k_mem u k)) (k_mem k) -> wp (on_user m) Q k.
Proof. apply wp_zoom. Qed.

Lemma wp_on_fs {A} (m : M fs A) k (Q : A -> kern U -> Prop) : wp m (fun a s => Q a (set_k_fs s k)) (k_fs k) -> wp (on_fs m) Q k.
Proof. apply wp_zoom. Qed.

Lemma str_ok k a max (Q : Z + string -> kern U -> Prop) :
  um_inv (k_mem k) -> (forall r u, um_inv u -> match r with inl e => e < 0 | inr t => Z.of_nat (length (string_bytes t)) < max end -> Q r (set_k_mem u k)) ->
  wp (on_user (copy_user_str a max)) Q k.
Proof.
  intros Hi HQ. apply wp_on_user. eapply wp_mono; [by apply copy_user_str_ok|]. intros r u (Iu & _ & Hr). apply HQ; [done|].
  destruct r as [e|]; [|apply Hr]. destruct Hr as (bs & _ & [[-> _]|[-> _]]); lia.
Qed.

Lemma root_live s : walkable s -> exists rd, fs_dentries s !! fs_root s = Some rd /\ is_Some (fs_inodes s !! d_inode rd).
Proof.
  intros Hw. destruct (walkable_tree s Hw) as (K & HT & [rd Hrd]). exists rd. split; [done|]. destruct (t_node _ _ HT _ rd Hrd) as (x & Hx & _). eauto.
Qed.

Lemma base_dir_ok s dirfd path : H s -> wp (base_dir dirfd path) (fun r s' => s' = s /\ match r with inl e => e < 0 | inr n => is_Some (fs_inodes s !! n) end) s.
Proof.
  intros Hh. pose proof Hh as [Hw Hd Hc]. destruct (root_live s Hw) as (rd & Hrd & Hrx). unfold base_dir. destruct (starts_slash path).
  { unfold root_inode. do 3 wp_step. wp_step. eapply wp_dent; [done|]. by do 2 wp_step. }
  destruct (dirfd =? AT_FDCWD).
  { unfold cwd_inode. do 2 wp_step. eapply wp_me; [by apply home_cur|]. destruct (Z.eqb_spec (cwd p) 0) as [E|Hne]; cbn [negb].
    - do 2 wp_step. wp_step. eapply wp_dent; [done|]. by do 2 wp_step.
    - do 2 wp_step. split; [done|]. specialize (Hc Hne). destruct Hd as [[_ HH _] _]. apply (h_ext _ _ HH). lia. }
  wp_step. eapply wp_mono; [by eapply fd_file_ok|]. intros f s' [-> [->|(_ & _ & Hf0 & ff & Hff)]]; [rewrite Z.eqb_refl; by wp_step|]. rewrite (proj2 (Z.eqb_neq f 0)) by done.
  destruct Hd as [[_ HH _] _]. destruct (h_file _ _ HH f ff Hff) as (_ & _ & [x Hx]). wp_step. eapply wp_fil; [done|]. unfold node_type. do 2 wp_step. eapply wp_ino; [done|]. wp_step.
  destruct (negb _); wp_step; [done|eauto].
Qed.

Lemma ready_lives k s' : ready k -> walkable s' -> lives (k_fs k) s' -> ready (set_k_fs s' k).
Proof. intros (Hi & Hh & Hf) Hw Hl. split_and!; [done|by eapply home_kept; [|done|apply Hl]|by eapply lives_few]. Qed.

Lemma at_inode_ok k dirfd upath follow (Q : Z + Z -> kern U -> Prop) :
  ready k -> (forall r k', ready k' -> lives (k_fs k) (k_fs k') -> match r with inl e => e < 0 | inr n => is_Some (fs_inodes (k_fs k') !! n) end -> Q r k') ->
  wp (at_inode dirfd upath follow) Q k.
Proof.
  intros (Hi & Hh & Hf) HQ. unfold at_inode. wp_step. apply str_ok; [done|]. intros r u Hu Hr. destruct r as [e|path]; [wp_step; by apply HQ|].
  wp_step. apply wp_on_fs. eapply wp_mono; [by apply base_dir_ok|]. intros b s' [-> Hb]. destruct b as [e|base]; [wp_step; by apply HQ|].
  apply wp_on_fs. unfold vfs_resolve. wp_step. eapply wp_mono; [apply resolve_dentry_ok; [apply Hh|done]|]. intros a s' (W' & L' & Ha). wp_step. cbn [k_fs set_k_mem set_k_fs] in *.
  apply HQ; [by apply (ready_lives (set_k_mem u k))|done|]. by destruct a as [e|[n d]].
Qed.

Lemma at_parent_ok k dirfd upath (Q : Z + Z * string -> kern U -> Prop) :
  ready k -> (forall r k', ready k' -> lives (k_fs k) (k_fs k') -> match r with inl e => e < 0 | inr (n, _) => is_Some (fs_inodes (k_fs k') !! n) end -> Q r k') ->
  wp (at_parent dirfd upath) Q k.
Proof.
  intros (Hi & Hh & Hf) HQ. unfold at_parent. wp_step. apply str_ok; [done|]. intros r u Hu Hr. destruct r as [e|path]; [wp_step; by apply HQ|].
  destruct (String.eqb path ""); [wp_step; by apply HQ|].
  wp_step. apply wp_on_fs. eapply wp_mono; [by apply base_dir_ok|]. intros b s' [-> Hb]. destruct b as [e|base]; [wp_step; by apply HQ|].
  apply wp_on_fs. eapply wp_mono; [apply parent_ok; [apply Hh|done]|]. intros a s' (W' & L' & Ha). cbn [k_fs set_k_mem set_k_fs] in *.
  apply HQ; [by apply (ready_lives (set_k_mem u k))|done|]. by destruct a as [e|[n d]].
Qed.

(** A call on the inode found keeps everything, if it does so on every one. *)
Lemma finish_keeps {A} s0 k (m : M fs A) : aside s0 (k_fs k) -> ready k -> keeps m (k_fs k) -> wp (on_fs m) (fun _ => settled s0) k.
Proof.
  intros Ha (Hi & Hh & _) Hm. apply wp_on_fs. eapply wp_mono; [exact Hm|]. intros a s' [W' K'].
  split; [done|]. split; [by eapply home_kept|]. transitivity (k_fs k); [done|apply K'].
Qed.

Lemma with_inode_ok s0 k dirfd upath follow f :
  aside s0 (k_fs k) -> ready k -> (forall s n, H s -> few s -> is_Some (fs_inodes s !! n) -> keeps (f n) s) -> wp (with_inode dirfd upath follow f) (fun _ => settled s0) k.
Proof.
  intros Ha Hk Hf. unfold with_inode. wp_step. apply at_inode_ok; [done|]. intros r k' Hk' L Hr. pose proof Hk' as (Hi & Hh & Hfw).
  apply (lives_aside _ _ s0) in L; [|done]. destruct r as [e|n]; [by wp_step|]. apply finish_keeps; [done|done|by apply Hf].
Qed.

Lemma with_parent_ok s0 k dirfd upath f :
  aside s0 (k_fs k) -> ready k -> (forall s dir name, H s -> few s -> is_Some (fs_inodes s !! dir) -> keeps (f dir name) s) -> wp (with_parent dirfd upath f) (fun _ => settled s0) k.
Proof.
  intros Ha Hk Hf. unfold with_parent. wp_step. apply at_parent_ok; [done|]. intros r k' Hk' L Hr. pose proof Hk' as (Hi & Hh & Hfw).
  apply (lives_aside _ _ s0) in L; [|done]. destruct r as [e|[n name]]; [by wp_step|]. apply finish_keeps; [done|done|by apply Hf].
Qed.

Lemma with_fd_inode_ok s fd f : H s -> (forall n, is_Some (fs_inodes s !! n) -> keeps (f n) s) -> keeps (with_fd_inode fd f) s.
Proof.
  intros [Hw Hd Hc] Hf. unfold keeps, with_fd_inode. wp_step. eapply wp_mono; [by eapply fd_file_ok|]. intros g s' [-> [->|(_ & _ & Hg0 & ff & Hff)]].
  - rewrite Z.eqb_refl. wp_step. split; [done|apply kept_refl].
  - rewrite (proj2 (Z.eqb_neq g 0)) by done. wp_step. eapply wp_fil; [done|]. destruct Hd as [[_ HH _] _]. destruct (h_file _ _ HH g ff Hff) as (_ & _ & Hx). by apply Hf.
Qed.

(** ** The calls *)

Lemma lives_kept s s' : lives s s' -> kept s s'.
Proof. intros (_ & ? & _). done. Qed.

Lemma chmod_keeps s mode n : H s -> is_Some (fs_inodes s !! n) -> keeps (set_mode mode n) s.
Proof. intros [Hw _ _] [x Hx]. eapply wp_mono; [by apply (set_mode_ok s mode n x)|]. intros r s' (W' & L' & _). split; [done|by apply lives_kept]. Qed.

Lemma chown_keeps s u g n : H s -> is_Some (fs_inodes s !! n) -> keeps (set_owner u g n) s.
Proof. intros [Hw _ _] [x Hx]. eapply wp_mono; [by apply (set_owner_ok s u g n x)|]. intros r s' (W' & L' & _). split; [done|by apply lives_kept]. Qed.

Lemma times_keeps s t n : H s -> is_Some (fs_inodes s !! n) -> keeps (set_times t n) s.
Proof. intros [Hw _ _] Hx. eapply wp_mono; [by apply (set_times_ok s t n)|]. intros r s' (W' & L'). split; [done|by apply lives_kept]. Qed.

Lemma string_bytes_byte t : Forall byte (string_bytes t).
Proof.
  unfold string_bytes. apply Forall_fmap, Forall_true. intros c. unfold byte. simpl. pose proof (Ascii.nat_ascii_bounded c). lia.
Qed.

(** A new link and its target. *)
Lemma symlink_keeps s dir name target :
  H s -> is_Some (fs_inodes s !! dir) -> Z.of_nat (length (string_bytes target)) < 2 ^ 32 ->
  keeps (c ← vfs_create dir name VFS_SYMLINK 511; match c with inl e => mret e | inr n => e ← write_link n target; mret (if e <? 0 then e else 0) end) s.
Proof.
  intros [Hw _ _] Hd Hlen. unfold keeps. wp_step. eapply wp_mono; [apply create_keeps; [done|done|done]|]. intros c s1 (W1 & L1 & Hc).
  destruct c as [e|n]; [wp_step; split; [done|by apply lives_kept]|]. destruct Hc as (dn & x & _ & Hx & Hn & _ & now & x0 & (Ef & _ & _ & _ & _ & _ & _ & _ & _ & Erd & Erl & _ & Hdata) & ->).
  set (y := adopt (fs_cur s) dn VFS_SYMLINK x0) in *.
  assert (forall A (f : inode -> A), (forall v z, f (set_i_uid v z) = f z) -> (forall v z, f (set_i_gid v z) = f z) -> f y = f x0) as Hy.
  { intros A f H1 H2. unfold y, adopt. destruct (negb _); [|by rewrite H2, H1]. change (VFS_SYMLINK =? VFS_DIRECTORY) with false. cbv iota. by rewrite ?H2, ?H1. }
  assert (is_dir x0 = false) as Hnd by (unfold is_dir, itype; rewrite Ef; done). destruct (Hdata Hnd) as (Hok & _ & Hwr).
  assert (data_ok y) as Hoky by (unfold data_ok; by rewrite (Hy _ is_dir), (Hy _ i_ptr), (Hy _ i_length)).
  unfold write_link. wp_step. wp_step. eapply wp_ino; [done|]. rewrite (Hy _ i_write), Hwr by done.
  eapply wp_mono; [apply (write_ok s1 n y 0); [done|done|lia|done|apply string_bytes_byte]|]. intros e s2 (z & Ho & Hokz & Ez & _). wp_step.
  assert (forall A (f : inode -> A), (forall w, f (husk w) = f w) -> f z = f y) as Hz by (intros A f Hf; by apply husk_same).
  destruct Ho as (EI & Ha). destruct (inode_keeps s1 n y z W1 Hx) as [W2 L2].
  - unfold ikey. rewrite (Hz _ is_dir), (Hz _ i_destroy), (Hz _ i_create), (Hz _ i_dev), (Hz _ i_nlink) by done. do 2 f_equal.
    unfold dir_ptr. by rewrite (proj1 Hokz), (proj1 Hoky).
  - split; [by apply (Hz _ i_refs)|by apply (Hz _ i_release)|by apply (Hz _ i_destroy)|by apply (Hz _ i_flags)|]. rewrite (Hy _ i_release) by done. done.
  - intros _. split; [|by rewrite (Hz _ i_read), (Hy _ i_read), Erd by done]. destruct Hokz as [_ Hd']. destruct (i_ptr z) as [| | |f]; try done; [rewrite Hd'; lia|].
    destruct Hd' as [[] ->]. lia.
  - destruct (walkable_idle _ s2 W2) as [W3 L3]; [unfold rest_i in Ha; destruct_and!; by split_and!|]. split; [done|]. apply lives_kept. etrans; [exact L1|by etrans].
Qed.

Lemma empty_path_ok k flags upath (Q : bool -> kern U -> Prop) :
  ready k -> (forall b k', ready k' -> k_fs k' = k_fs k -> Q b k') -> wp (empty_path flags upath) Q k.
Proof.
  intros Hk HQ. pose proof Hk as (Hi & Hh & Hf). unfold empty_path. destruct (negb _); [wp_step; by apply HQ|]. wp_step. apply wp_on_user.
  apply wp_user_ok; [done|apply u64_bound|lia| |]; intros u Hu Hg; cbn [negb]; [wp_step; by apply HQ|]. intros Hr _. wp_step. apply wp_on_user.
  destruct (Hr (u64 upath)) as [b Hb]; [lia|]. unfold user_load. do 2 wp_step. eapply wp_lift; [done|]. wp_step. by apply HQ.
Qed.

Lemma load64_any (u : U) a (Q : Z -> U -> Prop) : um_inv u -> can_read u a 8 -> (forall v, Q v u) -> wp (load64 a) Q u.
Proof. intros Hi Hr HQ. unfold load64. wp_step. apply wp_load_bytes; [done|done|]. intros bs _ _ _. wp_step. apply HQ. Qed.

Lemma load_times_ok (u : U) a (Q : option (list Z) -> U -> Prop) : um_inv u -> (forall t u', um_inv u' -> Q t u') -> wp (load_times a) Q u.
Proof.
  intros Hi HQ. unfold load_times. destruct (a =? 0); [wp_step; by apply HQ|]. wp_step. apply wp_user_ok; [done|apply u64_bound|lia| |]; intros u' Hu Hg; cbn [negb]; [wp_step; by apply HQ|].
  intros Hr _. assert (forall d, 0 <= d <= 24 -> can_read u' (u64 a + d) 8) as Hd by (intros d Hd x Hx; apply Hr; lia).
  wp_step. apply load64_any; [done|by intros x Hx; apply Hr; lia|]. intros v1. do 3 (wp_step; apply load64_any; [done|by apply Hd|]; intros ?). wp_step. by apply HQ.
Qed.

Lemma mkdir_keeps s dir name mode : H s -> is_Some (fs_inodes s !! dir) ->
  keeps (q ← me; r ← vfs_create dir name VFS_DIRECTORY (Z.land (Z.land (u32 mode) (u32 (Z.lnot (umask q)))) 4095); mret (match r with inl e => e | inr _ => 0 end)) s.
Proof.
  intros Hh Hd. unfold keeps. wp_step. eapply wp_me; [by apply home_cur|]. wp_step. eapply wp_mono; [apply create_keeps; [apply Hh|done|done]|]. intros r s' (W' & L' & _). wp_step.
  split; [done|by apply lives_kept].
Qed.

(** Reading a link into user memory. *)
Lemma readlink_ok k dirfd upath ubuf size_ : ready k -> wp (sys_readlinkat dirfd upath ubuf size_) (fun _ => settled (k_fs k)) k.
Proof.
  intros Hk. unfold sys_readlinkat. wp_step. apply at_inode_ok; [done|]. intros r k' (Hi & Hh & Hf) L Hr.
  apply (lives_aside _ _ (k_fs k)) in L; [|done]. destruct r as [e|n]; [by wp_step|]. destruct Hr as [x Hx].
  wp_step. apply wp_on_fs. eapply wp_ino; [done|]. destruct (Z.eqb_spec (itype x) VFS_SYMLINK) as [El|]; cbn [negb]; [|by wp_step]. destruct (Z.leb_spec size_ 0); [by wp_step|].
  pose proof (hm_walk _ _ _ _ Hh) as Hw. assert (link_ok x) as Hlk by (apply (proj1 (proj2 Hw) n); [done|]; unfold is_link; by apply Z.eqb_eq). pose proof Hlk as [Hlen _].
  set (sz := if i_length x <? size_ then i_length x else size_). assert (0 <= sz < 2 ^ 32) as Hsz by (unfold sz; destruct (Z.ltb_spec (i_length x) size_); lia).
  wp_step. apply wp_on_user. apply wp_user_ok; [done|apply u64_bound|apply u64_bound| |]; intros u Hu Hg; cbn [negb]; [by wp_step|]. intros _ Hcw. specialize (Hcw eq_refl).
  wp_step. apply wp_on_fs. eapply wp_mono; [apply (read_any (k_fs k') n x 0 (u32 sz)); [done|done|done|lia|apply u32_bound]|]. intros rb s2 (W2 & L2 & Hb & Hn). rewrite u32_small in Hn by lia. rewrite (u64_small sz) in Hcw by lia.
  wp_step. apply wp_on_user. cbn [k_mem set_k_mem set_k_fs]. apply wp_store_bytes; [done|done|by intros y Hy; apply Hcw; lia|]. intros u2 Hu2 _. wp_step.
  split; [done|]. split; [eapply home_kept; [done|done|by apply lives_kept]|by apply (lives_aside (k_fs k'))].
Qed.

Inductive name_call :=
| Faccessat (dirfd upath mode : Z) | Fchmodat (dirfd upath mode : Z) | Fchmod (fd mode : Z) | Fchownat (dirfd upath uid_ gid_ flags : Z) | Fchown (fd uid_ gid_ : Z)
| Utimensat (dirfd upath utimes flags : Z) | Mkdirat (dirfd upath mode : Z) | Unlinkat (dirfd upath flags : Z) | Renameat2 (odirfd uold ndirfd unew flags : Z)
| Linkat (odirfd uold ndirfd unew flags : Z) | Symlinkat (utarget dirfd upath : Z) | Readlinkat (dirfd upath ubuf size_ : Z).

Definition run_name (c : name_call) : M (kern U) Z :=
  match c with
  | Faccessat d u m => sys_faccessat d u m
  | Fchmodat d u m => sys_fchmodat d u m
  | Fchmod fd m => on_fs (sys_fchmod fd m)
  | Fchownat d u a b f => sys_fchownat d u a b f
  | Fchown fd a b => on_fs (sys_fchown fd a b)
  | Utimensat d u t f => sys_utimensat d u t f
  | Mkdirat d u m => sys_mkdirat d u m
  | Unlinkat d u f => sys_unlinkat d u f
  | Renameat2 a b c d f => sys_renameat2 a b c d f
  | Linkat a b c d f => sys_linkat a b c d f
  | Symlinkat t d u => sys_symlinkat t d u
  | Readlinkat d u b n => sys_readlinkat d u b n
  end.

Lemma same_keeps s : H s -> walkable s /\ kept s s.
Proof. intros [Hw _ _]. split; [done|apply kept_refl]. Qed.

Lemma access_keeps s mode n : H s -> is_Some (fs_inodes s !! n) ->
  keeps (if mode =? 0 then mret 0 else x ← ino n; s ← get; mret (cred_access (fs_cur s) x mode)) s.
Proof. intros Hh [x Hx]. unfold keeps. destruct (mode =? 0); [wp_step; by apply same_keeps|]. wp_step. eapply wp_ino; [done|]. wp_steps. by apply same_keeps. Qed.


Lemma run_name_ok k c : ready k -> wp (run_name c) (fun _ => settled (k_fs k)) k.
Proof.
  intros Hk. pose proof Hk as (Hi & Hh & Hf). assert (settled (k_fs k) k) as Hset by done. destruct c as [d u m|d u m|fd m|d u a b f|fd a b|d u t f|d u m|d u f|d u e v f|d u e v f|t d u|d u b n]; cbn [run_name].
  - unfold sys_faccessat. destruct (negb _); [by wp_step|]. apply with_inode_ok; [done|done|]. intros s n Hs _ Hn. by apply access_keeps.
  - apply with_inode_ok; [done|done|]. intros s n Hs _ Hn. by apply chmod_keeps.
  - apply finish_keeps; [done|done|]. apply with_fd_inode_ok; [done|]. intros n Hn. by apply chmod_keeps.
  - unfold sys_fchownat. wp_step. apply empty_path_ok; [done|]. intros e k' Hk' Ek. assert (aside (k_fs k) (k_fs k')) by (by rewrite Ek). destruct e.
    + apply finish_keeps; [done|done|]. destruct Hk' as (_ & Hh' & _). apply with_fd_inode_ok; [done|]. intros n Hn. by apply chown_keeps.
    + apply with_inode_ok; [done|done|]. intros s n Hs _ Hn. by apply chown_keeps.
  - apply finish_keeps; [done|done|]. apply with_fd_inode_ok; [done|]. intros n Hn. by apply chown_keeps.
  - unfold sys_utimensat. wp_step. apply wp_on_user. apply load_times_ok; [done|]. intros tt' u' Hu'. destruct tt' as [l|]; [|by wp_step].
    assert (ready (set_k_mem u' k)) as Hk' by done. destruct (u =? 0).
    + apply finish_keeps; [done|done|]. apply with_fd_inode_ok; [done|]. intros n Hn. by apply times_keeps.
    + apply with_inode_ok; [done|done|]. intros s n Hs _ Hn. by apply times_keeps.
  - apply with_parent_ok; [done|done|]. intros s dir name Hs _ Hd. by apply mkdir_keeps.
  - unfold sys_unlinkat. wp_step. apply at_parent_ok; [done|]. intros r k' Hk' L Hr. apply (lives_aside _ _ (k_fs k)) in L; [|done]. pose proof Hk' as (Hi' & Hh' & Hf'). destruct r as [e|[dir name]]; [by wp_step|].
    apply finish_keeps; [done|done|]. apply (remove_keeps (k_fs k') dir name); [apply Hh'|done|done].
  - unfold sys_renameat2. destruct (negb _); [by wp_step|]. wp_step. apply at_parent_ok; [done|]. intros r k1 Hk1 L1 Hr. apply (lives_aside _ _ (k_fs k)) in L1; [|done]. pose proof Hk1 as (Hi1 & Hh1 & Hf1). destruct r as [e'|[od on]]; [by wp_step|].
    wp_step. apply at_parent_ok; [done|]. intros r k2 Hk2 L2 Hr2. pose proof (lives_aside _ _ (k_fs k) L2 L1). pose proof Hk2 as (Hi2 & Hh2 & Hf2). destruct r as [e'|[nd nn]]; [by wp_step|].
    apply finish_keeps; [done|done|]. apply rename_keeps; [apply Hh2|done|by apply (proj1 L2)|done].
  - unfold sys_linkat. wp_step. apply at_inode_ok; [done|]. intros r k1 Hk1 L1 Hr. apply (lives_aside _ _ (k_fs k)) in L1; [|done]. pose proof Hk1 as (Hi1 & Hh1 & Hf1). destruct r as [e'|target]; [by wp_step|].
    unfold with_parent. wp_step. apply at_parent_ok; [done|]. intros r k2 Hk2 L2 Hr2. pose proof (lives_aside _ _ (k_fs k) L2 L1). pose proof Hk2 as (Hi2 & Hh2 & Hf2). destruct r as [e'|[nd nn]]; [by wp_step|].
    apply finish_keeps; [done|done|]. apply link_keeps; [apply Hh2|done|by apply (proj1 L2)].
  - unfold sys_symlinkat. wp_step. apply str_ok; [done|]. intros r u' Hu' Hr. destruct r as [e|target]; [by wp_step|]. destruct (String.eqb target ""); [by wp_step|].
    apply with_parent_ok; [done|done|]. intros s dir name Hs _ Hd. apply symlink_keeps; [done|done|lia].
  - by apply readlink_ok.
Qed.

(** C5: every call that works on names or attributes (access, chmod, chown,
    utimes, mkdir, unlink, rmdir, rename, link, symlink, readlink, by path or
    by descriptor) returns, whatever its arguments and whatever user memory
    holds; and the file systems stay sound trees, every open file and working
    directory stays alive, every reference count stays true, and every open
    file description, pipe, mount and the caller's own descriptors are left as
    they were. *)
Theorem name_calls_safe k c :
  ready k -> exists r k', run_name c k = Some (r, k') /\ settled (k_fs k) k'
    /\ fs_files (k_fs k') = fs_files (k_fs k) /\ fs_pipes (k_fs k') = fs_pipes (k_fs k) /\ fs_cur (k_fs k') = fs_cur (k_fs k).
Proof.
  intros Hk. destruct (wp_run _ _ _ (run_name_ok k c Hk)) as (r & k' & E & Hs). exists r, k'. split; [done|]. split; [done|].
  by destruct Hs as (_ & _ & ? & ? & _ & _ & _ & ? & _).
Qed.
End Paths.

(** ** What an owner may do *)

Lemma ldiff_none m b : Z.land (Z.ldiff m b) b = 0.
Proof. apply Z.bits_inj'. intros i _. rewrite Z.land_spec, Z.ldiff_spec, Z.bits_0. by destruct (Z.testbit m i), (Z.testbit b i). Qed.

(** C26: a caller that is not root and succeeds in a chown owned the file and
    still does: it is not given away, its group is the old one or one of the
    caller's, and a program loses its set-user-id and set-group-id bits; no
    other file changes. A refused chown changes nothing. *)
Theorem chown_gives_nothing_away s uid_ gid_ n x :
  walkable s -> fs_inodes s !! n = Some x -> cred_euid (fs_cur s) <> 0 ->
  wp (set_owner uid_ gid_ n) (fun r s' => r < 0 /\ s' = s \/ r = 0 /\ exists y, fs_inodes s' = <[n := y]> (fs_inodes s)
    /\ i_uid x = cred_euid (fs_cur s) /\ i_uid y = i_uid x /\ (i_gid y = i_gid x \/ cred_in_group (fs_cur s) (i_gid y) = true)
    /\ (is_dir x = false -> Z.land (i_mode y) (Z.lor S_ISUID S_ISGID) = 0)) s.
Proof.
  intros Hw Hx He. eapply wp_mono; [by apply (set_owner_ok s uid_ gid_ n x)|]. intros r s' (_ & _ & Hr). destruct (rofs s x); [destruct Hr as [-> ->]; by left|].
  destruct (chown_refused (fs_cur s) x uid_ gid_) eqn:E; [destruct Hr as [-> ->]; by left|]. destruct Hr as [-> EI]. right. split; [done|].
  destruct (chowned_fields uid_ gid_ x) as (Eu & Eg & _ & _ & Em). exists (touched (fs_now s) VFS_CTIME (chowned uid_ gid_ x)). split; [done|].
  cbn [touched i_uid i_gid i_mode]. rewrite Eu, Eg, Em. unfold chown_refused in E. rewrite (proj2 (Z.eqb_neq _ _) He) in E. cbn [negb andb] in E.
  rewrite !orb_false_iff, negb_false_iff in E. destruct E as [[Eo E1] E2]. unfold cred_owns in Eo. rewrite (proj2 (Z.eqb_neq _ _) He) in Eo. apply Z.eqb_eq in Eo.
  split_and!; [done| | |].
  - destruct (keep uid_); [done|]. simpl in E1. by apply negb_false_iff, Z.eqb_eq in E1.
  - destruct (keep gid_); [by left|right]. simpl in E2. by apply negb_false_iff in E2.
  - intros ->. apply ldiff_none.
Qed.

(** ** An example: /a open on descriptor 0, and a page of user memory *)

Definition kern5 (t : string) : kern paged := MkKern names5 (page_of (string_bytes t)) [].

Lemma names5_walkable : walkable names5.
Proof.
  destruct names1_walkable as ((K & HT & HR) & Hl & Hp). split; [|by split].
  exists K. split; [|exact HR]. apply (tree_calm names1); [done|]. by split_and!.
Qed.

Lemma names5_home : home names5 nobody proc5 (fun _ => 0).
Proof. split; [apply names5_walkable|apply names5_desc|done]. Qed.

Lemma kern5_ready t : ready nobody proc5 (fun _ => 0) (kern5 t).
Proof. split_and!; [apply page_of_inv, string_bytes_byte|apply names5_home|by apply few_size; vm_compute]. Qed.

Lemma name_calls_safe_witness :
  exists r k', run_name (DR := no_drivers) (Symlinkat 4096 AT_FDCWD 4096) (kern5 "/b/new") = Some (r, k')
    /\ settled nobody proc5 (fun _ => 0) names5 k' /\ fs_files (k_fs k') = fs_files names5 /\ fs_pipes (k_fs k') = fs_pipes names5 /\ fs_cur (k_fs k') = fs_cur names5.
Proof. apply (name_calls_safe (DO := no_drivers_ok) nobody proc5 (fun _ => 0) (kern5 "/b/new") (Symlinkat 4096 AT_FDCWD 4096)), kern5_ready. Defined.

(** /a belongs to user 1000, who is the caller. *)
Definition names7 : fs :=
  set_fs_cur (Some (set_euid 1000 zero_process)) (set_fs_inodes (<[3 := set_i_uid 1000 a1]> (fs_inodes names1)) names1).

Lemma names7_walkable : walkable names7.
Proof.
  destruct (mild_keeps names1 3 a1 (set_i_uid 1000 a1) names1_walkable) as [((K & HT & HR) & Hl & Hp) _]; [done|by split|done|].
  split; [|by split]. exists K. split; [|exact HR]. eapply tree_calm; [exact HT|]. by split_and!.
Qed.

Lemma chown_gives_nothing_away_witness :
  wp (set_owner (-1) 0 3) (fun r s' => r < 0 /\ s' = names7 \/ r = 0 /\ exists y, fs_inodes s' = <[3 := y]> (fs_inodes names7)
    /\ 1000 = cred_euid (fs_cur names7) /\ i_uid y = 1000 /\ (i_gid y = 0 \/ cred_in_group (fs_cur names7) (i_gid y) = true)
    /\ (false = false -> Z.land (i_mode y) (Z.lor S_ISUID S_ISGID) = 0)) names7.
Proof. apply (chown_gives_nothing_away names7 (-1) 0 3 (set_i_uid 1000 a1)); [apply names7_walkable|done|done]. Defined.
