(* ===== verification/FsIo.v ===== *)
(** * File contents: the calls that read and write, from src/src/kernel/syscall/fs.c

    read, write and their vectored and positioned forms, stat, and directory
    listings. A file operation that is not the RAM file system's is a field of
    [Devices]: what it hands to or takes from the caller's buffer is a list of
    bytes. *)
From S2P Require Import Prelude Types UserMem Cred Pmm Pipe Signal VfsState Forest Ramfs Vfs VfsTree VfsOps VfsNames VfsPath File Fds FsCalls.

Notation IO_MAX := 2147479552 (only parsing). (* 0x7FFFF000 *)
Notation PIPE_BUF := 4096 (only parsing).

(** Writing to pipes and devices, sockets, generated directories. *)
Class Devices := {
  dev_write : driver -> Z -> Z -> list Z -> M fs Z;
  sock_read : Z -> Z -> M fs (Z * list Z);
  sock_write : Z -> list Z -> M fs Z;
  dev_readdir : driver -> Z -> Z -> M fs (option (string * Z * Z));
}.

(** By VFS type: none, regular, directory, character device, block device
    (no bits), FIFO, symbolic link, socket. *)
Definition type_bits : list Z := [0; 32768; 16384; 8192; 0; 4096; 40960; 49152].

Definition dtype_of (type : Z) : Z :=
  if type =? VFS_DIRECTORY then 4
  else if type =? VFS_CHARDEVICE then 2
  else if type =? VFS_PIPE then 1
  else if type =? VFS_SYMLINK then 10
  else if type =? VFS_SOCKET then 12
  else 8.

(** Linux caps a single read or write here too. *)
Definition capped (len : Z) : Z := if IO_MAX <? len then IO_MAX else len.

Section Io.
  Context {U : Type} `{UM : UserMem U} `{DR : Drivers} `{DV : Devices}.

Definition call_write (n off : Z) (bs : list Z) : M fs Z :=
  x ← ino n;
  match i_write x with
  | None => fault
  | Some DRamfs => ramfs_write n off bs
  | Some d => dev_write d n off bs
  end.

(** ** Reading and writing *)

Definition is_None {A} (o : option A) : bool := match o with None => true | Some _ => false end.

(** [pos]: the position of pread, or [None] for the file offset; its new
    value is returned too. *)
Definition do_read_at (f buf len : Z) (pos : option Z) : M (kern U) (Z * option Z) :=
  ff ← on_fs (fil f);
  if Z.land (f_flags ff) O_ACCMODE =? O_WRONLY then mret (- EBADF, pos) else
  x ← on_fs (ino (f_inode ff));
  if itype x =? VFS_DIRECTORY then mret (- EISDIR, pos) else
  ok ← on_user (user_ok buf len true);
  if negb ok then mret (- EFAULT, pos) else
  if itype x =? VFS_SOCKET then r ← on_fs (sock_read f len); _ ← on_user (store_bytes buf (snd r)); mret (fst r, pos) else
  if is_None (i_read x) then mret (- EINVAL, pos) else
  if len =? 0 then mret (0, pos) else
  r ← on_fs (call_read (f_inode ff) (u32 (default (f_offset ff) pos)) (u32 len));
  _ ← on_user (store_bytes buf (snd r));
  if 0 <? fst r then
    match pos with
    | Some p => mret (fst r, Some (u64 (p + fst r)))
    | None => _ ← on_fs (fset f (fun ff => set_f_offset (u64 (f_offset ff + fst r)) ff)); mret (fst r, None)
    end
  else mret (fst r, pos).

(** SIGPIPE for a write nobody will read. *)
Definition broken (r : Z) : M (kern U) unit := when (r =? - EPIPE) (send_me SIGPIPE).

Definition do_write_at (f buf len : Z) (pos : option Z) : M (kern U) (Z * option Z) :=
  ff ← on_fs (fil f);
  if Z.land (f_flags ff) O_ACCMODE =? O_RDONLY then mret (- EBADF, pos) else
  ok ← on_user (user_ok buf len false);
  if negb ok then mret (- EFAULT, pos) else
  x ← on_fs (ino (f_inode ff));
  if itype x =? VFS_SOCKET then bs ← on_user (load_bytes buf (Z.to_nat len)); r ← on_fs (sock_write f bs); mret (r, pos) else
  if is_None (i_write x) then mret (- EINVAL, pos) else
  _ ← on_fs (when (has (f_flags ff) O_APPEND && is_None pos) (fset f (set_f_offset (i_length x))));
  ff ← on_fs (fil f);
  bs ← on_user (load_bytes buf (Z.to_nat (u32 len)));
  r ← on_fs (call_write (f_inode ff) (u32 (default (f_offset ff) pos)) bs);
  _ ← broken r;
  if 0 <? r then
    match pos with
    | Some p => mret (r, Some (u64 (p + r)))
    | None => _ ← on_fs (fset f (fun ff => set_f_offset (u64 (f_offset ff + r)) ff)); mret (r, None)
    end
  else mret (r, pos).

(** ** Vectors *)

(** v[i]: base and length, read where they are used. *)
Definition iov_at (v i : Z) : M U (Z * Z) := b ← load64 (v + i * 16); l ← load64 (v + i * 16 + 8); mret (b, l).

(** The total length, if all can be read. *)
Fixpoint sum_iov (v : Z) (is_ : list Z) (total : Z) : M U (option Z) :=
  match is_ with
  | [] => mret (Some total)
  | i :: is_ =>
      e ← iov_at v i;
      ok ← user_ok (fst e) (snd e) false;
      if negb ok then mret None else sum_iov v is_ (u64 (total + snd e))
  end.

Fixpoint write_each (f v : Z) (is_ : list Z) (at_ : Z) : M (kern U) Z :=
  match is_ with
  | [] => mret at_
  | i :: is_ =>
      e ← on_user (iov_at v i);
      r ← do_write_at f (fst e) (snd e) None;
      let r := fst r in
      if r <? 0 then mret (if at_ =? 0 then r else at_) else
      let at_ := u64 (at_ + r) in
      if r <? snd e then mret at_ else write_each f v is_ at_
  end.

Fixpoint gather (v : Z) (is_ : list Z) : M U (list Z) :=
  match is_ with
  | [] => mret []
  | i :: is_ => e ← iov_at v i; bs ← load_bytes (fst e) (Z.to_nat (snd e)); rest ← gather v is_; mret (bs ++ rest)
  end.

Definition pipe_writev (f v cnt : Z) : M (kern U) Z :=
  t ← on_user (sum_iov v (range 0 cnt) 0);
  match t with
  | None => mret (- EFAULT)
  | Some total =>
      ff ← on_fs (fil f);
      if Z.land (f_flags ff) O_ACCMODE =? O_RDONLY then mret (- EBADF) else
      if PIPE_BUF <? total then write_each f v (range 0 cnt) 0 else
      if total =? 0 then mret 0 else
      b ← on_fs k_alloc;
      if b =? 0 then mret (- ENOMEM) else
      bs ← on_user (gather v (range 0 cnt));
      r ← on_fs (call_write (f_inode ff) 0 bs);
      _ ← broken r;
      mret r
  end.

Fixpoint iov_loop (f v : Z) (rd : bool) (is_ : list Z) (total : Z) (pos : option Z) : M (kern U) Z :=
  match is_ with
  | [] => mret total
  | i :: is_ =>
      e ← on_user (iov_at v i);
      let len := capped (snd e) in
      r ← (if rd then do_read_at f (fst e) len pos else do_write_at f (fst e) len pos);
      let '(r, pos) := r in
      if r <? 0 then mret (if total =? 0 then r else total) else
      let total := s64 (total + r) in
      if r <? len then mret total else iov_loop f v rd is_ total pos
  end.

Definition do_iov (fd iov cnt : Z) (rd : bool) (pos : Z) : M (kern U) Z :=
  f ← on_fs (fd_file fd);
  if f =? 0 then mret (- EBADF) else
  if (cnt <? 0) || (1024 <? cnt) then mret (- EINVAL) else
  ok ← on_user (user_ok (u64 iov) (cnt * 16) false);
  if negb ok then mret (- EFAULT) else
  ff ← on_fs (fil f);
  x ← on_fs (ino (f_inode ff));
  let p := if 0 <=? pos then Some (u64 pos) else None in
  if negb (is_None p) && unseekable x then mret (- ESPIPE) else
  if negb rd && (itype x =? VFS_PIPE) then pipe_writev f (u64 iov) cnt else
  iov_loop f (u64 iov) rd (range 0 cnt) 0 p.

(** ** The calls *)

Definition sys_read (fd buf len : Z) : M (kern U) Z :=
  f ← on_fs (fd_file fd);
  if f =? 0 then mret (- EBADF) else
  if len <? 0 then mret (- EINVAL) else
  r ← do_read_at f (u64 buf) (capped len) None; mret (fst r).

Definition sys_write (fd buf len : Z) : M (kern U) Z :=
  f ← on_fs (fd_file fd);
  if f =? 0 then mret (- EBADF) else
  if len <? 0 then mret (- EINVAL) else
  r ← do_write_at f (u64 buf) (capped len) None; mret (fst r).

Definition sys_readv (fd iov cnt : Z) : M (kern U) Z := do_iov fd iov cnt true (-1).
Definition sys_writev (fd iov cnt : Z) : M (kern U) Z := do_iov fd iov cnt false (-1).
Definition sys_preadv (fd iov cnt pos : Z) : M (kern U) Z := if pos <? 0 then mret (- EINVAL) else do_iov fd iov cnt true pos.
Definition sys_pwritev (fd iov cnt pos : Z) : M (kern U) Z := if pos <? 0 then mret (- EINVAL) else do_iov fd iov cnt false pos.

Definition sys_pread64 (fd buf len pos : Z) : M (kern U) Z :=
  f ← on_fs (fd_file fd);
  if f =? 0 then mret (- EBADF) else
  if (len <? 0) || (pos <? 0) then mret (- EINVAL) else
  ff ← on_fs (fil f);
  x ← on_fs (ino (f_inode ff));
  if unseekable x then mret (- ESPIPE) else
  r ← do_read_at f (u64 buf) (capped len) (Some (u64 pos)); mret (fst r).

Definition sys_pwrite64 (fd buf len pos : Z) : M (kern U) Z :=
  f ← on_fs (fd_file fd);
  if f =? 0 then mret (- EBADF) else
  if (len <? 0) || (pos <? 0) then mret (- EINVAL) else
  ff ← on_fs (fil f);
  x ← on_fs (ino (f_inode ff));
  if unseekable x then mret (- ESPIPE) else
  r ← do_write_at f (u64 buf) (capped len) (Some (u64 pos)); mret (fst r).
(** ** stat *)

(** struct kstat, byte by byte. *)
Definition kstat_bytes (nlink : Z) (x : inode) : list Z :=
  let ns t := le_bytes 8 (t / 1000000000) ++ le_bytes 8 (t mod 1000000000) in
  le_bytes 8 (i_dev x) ++ le_bytes 8 (i_ino x) ++ le_bytes 8 nlink
    ++ le_bytes 4 (Z.lor (nth (Z.to_nat (itype x)) type_bits 0) (i_mode x)) ++ le_bytes 4 (i_uid x) ++ le_bytes 4 (i_gid x) ++ zeros 4
    ++ le_bytes 8 (i_rdev x) ++ le_bytes 8 (i_length x) ++ le_bytes 8 PAGE_SIZE ++ le_bytes 8 (u32 (i_length x + 511) / 512)
    ++ ns (i_atime x) ++ ns (i_mtime x) ++ ns (i_ctime x) ++ zeros 24.

(** Subdirectories along a sibling list. *)
Fixpoint count_dirs (fuel : nat) (c k : Z) : M fs Z :=
  match fuel with
  | O => fault
  | S fuel =>
      if c =? 0 then mret k else
      dc ← dent c;
      t ← node_type (d_inode dc);
      count_dirs fuel (d_next_sibling dc) (if t =? VFS_DIRECTORY then u64 (k + 1) else k)
  end.

(** links() *)
Definition links_of (n : Z) : M fs Z :=
  x ← ino n;
  if negb (itype x =? VFS_DIRECTORY) then mret (i_nlink x) else
  match i_ptr x with
  | PDentry d => dd ← dent d; s ← get; count_dirs (dfuel s) (d_first_child dd) 2
  | _ => fault
  end.

Definition fill_stat (n st : Z) : M (kern U) Z :=
  ok ← on_user (user_ok (u64 st) 144 true);
  if negb ok then mret (- EFAULT) else
  k ← on_fs (links_of n);
  x ← on_fs (ino n);
  _ ← on_user (store_bytes (u64 st) (kstat_bytes k x));
  mret 0.

Definition sys_fstat (fd st : Z) : M (kern U) Z :=
  f ← on_fs (fd_file fd);
  if f =? 0 then mret (- EBADF) else ff ← on_fs (fil f); fill_stat (f_inode ff) st.

Definition sys_newfstatat (dirfd upath st flags : Z) : M (kern U) Z :=
  e ← empty_path flags upath;
  if (e : bool) then sys_fstat dirfd st else
  r ← at_inode dirfd upath (negb (has flags AT_SYMLINK_NOFOLLOW));
  match r with inl e => mret e | inr n => fill_stat n st end.

Definition sys_stat (upath st : Z) : M (kern U) Z := sys_newfstatat AT_FDCWD upath st 0.
Definition sys_lstat (upath st : Z) : M (kern U) Z := sys_newfstatat AT_FDCWD upath st AT_SYMLINK_NOFOLLOW.

(** ** Directory listings *)

(** while (child != NULL && child->seq < idx) *)
Fixpoint child_from (fuel : nat) (c idx : Z) : M fs Z :=
  match fuel with
  | O => fault
  | S fuel => if c =? 0 then mret 0 else dc ← dent c; if d_seq dc <? idx then child_from fuel (d_next_sibling dc) idx else mret c
  end.

(** The entry at position [idx] of the directory [n], whose dentry is [d]:
    name, inode (or NULL, and then number and type), next position. *)
Definition entry_at (n d idx : Z) : M fs (option (string * Z * (Z * Z) * Z)) :=
  if idx =? 0 then mret (Some (".", n, (0, 0), u64 (idx + 1)))
  else if idx =? 1 then
    dd ← dent d;
    if d_parent dd =? 0 then mret (Some ("..", n, (0, 0), u64 (idx + 1)))
    else pd ← dent (d_parent dd); mret (Some ("..", d_inode pd, (0, 0), u64 (idx + 1)))
  else
  x ← ino n;
  match i_readdir x with
  | Some drv =>
      r ← dev_readdir drv n (idx - 2);
      mret (match r with None => None | Some (name, i, t) => Some (name, 0, (i, t), u64 (idx + 1)) end)
  | None =>
      dd ← dent d;
      s ← get;
      c ← child_from (dfuel s) (d_first_child dd) idx;
      if c =? 0 then mret None else
      dc ← dent c; mret (Some (d_name dc, d_inode dc, (0, 0), u64 (d_seq dc + 1)))
  end.

Definition reclen (legacy : bool) (name : string) : Z :=
  u16 (Z.land ((if legacy then 18 else 19) + slen name + 1 + (if legacy then 1 else 0) + 7) (Z.lnot 7)).

(** A record: the type is after the header, or in the last byte. *)
Definition record (legacy : bool) (name : string) (ino_ type next : Z) : list Z :=
  let len := reclen legacy name in
  le_bytes 8 ino_ ++ le_bytes 8 next ++ le_bytes 2 len
    ++ (if legacy then string_bytes name ++ zeros (len - 19 - slen name) ++ [dtype_of type]
        else dtype_of type :: string_bytes name ++ zeros (len - 19 - slen name)).

Fixpoint dents_loop (fuel : nat) (f n d dirp count : Z) (legacy : bool) (pos : Z) : M (kern U) Z :=
  match fuel with
  | O => fault
  | S fuel =>
      ff ← on_fs (fil f);
      e ← on_fs (entry_at n d (f_offset ff));
      match e with
      | None => mret pos
      | Some (name, m, gen, next) =>
          let len := reclen legacy name in
          if count <? pos + len then mret (if pos =? 0 then - EINVAL else pos) else
          who ← on_fs (if m =? 0 then mret gen else y ← ino m; mret (i_ino y, itype y));
          _ ← on_user (store_bytes (dirp + pos) (record legacy name (fst who) (snd who) next));
          _ ← on_fs (fset f (set_f_offset next));
          dents_loop fuel f n d dirp count legacy (pos + len)
      end
  end.

(** A record takes at least 24 bytes. *)
Definition do_getdents (fd dirp count : Z) (legacy : bool) : M (kern U) Z :=
  f ← on_fs (fd_file fd);
  if f =? 0 then mret (- EBADF) else
  ff ← on_fs (fil f);
  x ← on_fs (ino (f_inode ff));
  match (if itype x =? VFS_DIRECTORY then i_ptr x else PNull) with
  | PNull => mret (- ENOTDIR)
  | PDentry d =>
      if count <? 0 then mret (- EFAULT) else
      ok ← on_user (user_ok (u64 dirp) count true);
      if negb ok then mret (- EFAULT) else
      dents_loop (Z.to_nat (count / 24) + 2) f (f_inode ff) d (u64 dirp) count legacy 0
  | _ => fault
  end.

Definition sys_getdents64 (fd dirp count : Z) : M (kern U) Z := do_getdents fd dirp count false.
Definition sys_getdents (fd dirp count : Z) : M (kern U) Z := do_getdents fd dirp count true.
End Io.
