(* ===== verification/FsIoOk.v ===== *)
(** * Reading and writing files

    What the calls of [FsIo] do to a regular file of the RAM file system: a
    read hands over the bytes at the offset and moves it, what is written is
    read back, appending goes to the end. *)
From S2P Require Import Prelude Types UserMem Cred Pmm Pipe VfsState Forest Ramfs Vfs VfsTree VfsOps VfsNames VfsPath File FileRefs Fds FdRefs FsCalls FsSafe FsIo.

(** A regular file in RAM. *)
Record regular (x : inode) : Prop := {
  rg_type : itype x = VFS_FILE;
  rg_read : i_read x = Some DRamfs;
  rg_write : i_write x = Some DRamfs;
  rg_data : data_ok x;
}.

(** Descriptor [fd] is description [f] of inode [n]. *)
Record opened (s : fs) (fd f : Z) (ff : file) (n : Z) (x : inode) : Prop := {
  op_range : 0 <= fd < MAX_FDS;
  op_slot : exists p, fs_cur s = Some p /\ fds p !! Z.to_nat fd = Some f;
  op_some : f <> 0;
  op_file : fs_files s !! f = Some ff;
  op_inode : f_inode ff = n;
  op_node : fs_inodes s !! n = Some x;
}.

Lemma wp_fd_file s fd f ff n x (Q : Z -> fs -> Prop) : opened s fd f ff n x -> Q f s -> wp (fd_file fd) Q s.
Proof.
  intros [Hr (p & Hp & Hf) _ _ _ _] HQ. unfold fd_file. rewrite (proj2 (Z.ltb_ge fd 0)), (proj2 (Z.leb_gt MAX_FDS fd)) by lia. cbn [orb].
  wp_step. eapply wp_me; [done|]. by eapply wp_lift.
Qed.

Lemma regular_seekable x : regular x -> unseekable x = false.
Proof. intros [E _ _ _]. unfold unseekable. by rewrite E. Qed.

Lemma regular_husk x y : husk y = husk x -> data_ok y -> regular x -> regular y.
Proof.
  intros E Hd [Ht Hr Hw _]. split; [..|done]; [rewrite <- Ht; by apply (husk_same itype)|rewrite <- Hr; by apply (husk_same i_read)|rewrite <- Hw; by apply (husk_same i_write)].
Qed.

Lemma pwrite_read c off src : 0 <= off -> take (length src) (skipn (Z.to_nat off) (pwrite c off src)) = src.
Proof.
  intros Ho. apply list_eq. intros i. destruct (decide (i < length src)%nat).
  - rewrite lookup_take_lt, lookup_drop, pwrite_lookup by lia. rewrite decide_False, decide_True by lia. f_equal. lia.
  - rewrite lookup_take_ge by lia. symmetry. apply lookup_ge_None. lia.
Qed.

Lemma pwrite_end c src : pwrite c (Z.of_nat (length c)) src = c ++ src.
Proof. unfold pwrite, resize_to. rewrite Nat2Z.id, firstn_all, Z.sub_diag. cbn. rewrite app_nil_r. rewrite (skipn_all2 c) by lia. by rewrite app_nil_r. Qed.

Section Files.
  Context {U : Type} `{UM : UserMem U} `{DR : Drivers} `{DV : Devices}.

(** Where a transfer starts. *)
Definition start (ff : file) (pos : option Z) : Z := u32 (default (f_offset ff) pos).

(** The description after a transfer of [r] bytes. *)
Definition advanced (f : Z) (ff : file) (pos : option Z) (r : Z) (s : fs) : fs :=
  if (0 <? r) && is_None pos then set_fs_files (<[f := set_f_offset (u64 (f_offset ff + r)) ff]> (fs_files s)) s else s.

Lemma read_at_ok (k : kern U) f ff x buf len pos :
  um_inv (k_mem k) -> fs_files (k_fs k) !! f = Some ff -> fs_inodes (k_fs k) !! f_inode ff = Some x -> regular x ->
  Z.land (f_flags ff) O_ACCMODE <> O_WRONLY -> 0 <= buf < 2 ^ 64 -> 0 <= len < 2 ^ 32 ->
  wp (do_read_at f buf len pos) (fun r k' => um_inv (k_mem k') /\ k_sent k' = k_sent k /\ exists u, grows (k_mem k) u /\
    ((r.1 = - EFAULT /\ k' = set_k_mem u k)
     \/ let bs := take (Z.to_nat len) (skipn (Z.to_nat (start ff pos)) (content_of x)) in
        r.1 = Z.of_nat (length bs) /\ stored u (k_mem k') buf bs /\ k_fs k' = advanced f ff pos r.1 (k_fs k))) k.
Proof.
  intros Hi Hf Hx [Ht Hr Hw Hd] Hacc Hb Hl. unfold do_read_at. wp_step. apply wp_on_fs. eapply wp_fil; [done|].
  rewrite (proj2 (Z.eqb_neq _ _) Hacc). wp_step. apply wp_on_fs. eapply wp_ino; [done|]. rewrite Ht. cbn [Z.eqb Pos.eqb]. wp_step. apply wp_on_user.
  apply wp_user_ok; [done|done|lia|..].
  { intros u Iu Gu. wp_steps. split_and!; [done|done|]. exists u. split; [done|]. by left. }
  intros u Iu Gu _ Cw. cbn [negb]. rewrite Hr. cbn [is_None]. destruct (Z.eqb_spec len 0) as [->|Hne].
  { wp_steps. split_and!; [done|done|]. exists u. split; [done|]. right. cbn. split_and!; [done| |by destruct k].
    split; [|done]. intros y. by rewrite decide_False by (simpl; lia). }
  wp_step. apply wp_on_fs. unfold call_read. wp_step. eapply wp_ino; [done|]. rewrite Hr. eapply wp_mono; [apply read_ok; [done|done|apply u32_bound|rewrite u32_small by lia; lia]|].
  intros [r bs] s1 (-> & Ebs & Er). cbn [fst snd] in *. rewrite u32_small in Ebs by lia. fold (start ff pos) in Ebs. rewrite <- Ebs.
  assert (Z.of_nat (length bs) <= len) as Hle by (rewrite Ebs, length_take; lia).
  wp_step. apply wp_on_user. apply wp_store_bytes; [done| |intros y Hy; apply Cw; [done|lia]|].
  { rewrite Ebs. apply Forall_take, Forall_drop. by apply content_bytes. }
  intros u' Iu' Su. destruct (0 <? r) eqn:Hlt.
  - destruct pos as [q|]; cbn [is_None].
    + wp_steps. split_and!; [done|done|]. exists u. split; [done|]. right. unfold advanced. cbn [fst]. rewrite Hlt. by split_and!.
    + wp_step. apply wp_on_fs. eapply wp_fset; [done|]. wp_steps. split_and!; [done|done|]. exists u. split; [done|]. right. unfold advanced. cbn [fst]. rewrite Hlt. by split_and!.
  - wp_steps. split_and!; [done|done|]. exists u. split; [done|]. right. unfold advanced. cbn [fst]. rewrite Hlt. by split_and!.
Qed.

(** The description once an appending write has moved to the end. *)
Definition aimed (ff : file) (pos : option Z) (x : inode) : file :=
  if has (f_flags ff) O_APPEND && is_None pos then set_f_offset (i_length x) ff else ff.

Definition with_file (f : Z) (ff : file) (s : fs) : fs := set_fs_files (<[f := ff]> (fs_files s)) s.

Lemma with_file_id f ff s : fs_files s !! f = Some ff -> with_file f ff s = s.
Proof. intros Hf. unfold with_file. rewrite insert_id by done. by destruct s. Qed.

(** What a write of the bytes [bs] at [off] does to a file. *)
Definition written (x : inode) (off : Z) (bs : list Z) (r : Z) (x' : inode) : Prop :=
  regular x' /\
    ((r = - EINVAL /\ 2 ^ 32 <= off + Z.of_nat (length bs) \/ r = - ENOMEM) /\ content_of x' = content_of x
     \/ r = Z.of_nat (length bs) /\ off + Z.of_nat (length bs) < 2 ^ 32 /\ content_of x' = pwrite (content_of x) off bs).

(** A write of the [len] bytes at [buf]: they were not readable, or the file
    has taken them, or not for lack of room or memory. With memory, there is
    room up to the last page below 4 GB. *)
Definition wrote (k : kern U) (f : Z) (ff : file) (x : inode) (buf len : Z) (pos : option Z) (r : Z) (k' : kern U) : Prop :=
  um_inv (k_mem k') /\ k_sent k' = k_sent k /\ grows (k_mem k) (k_mem k') /\
    ((r = - EFAULT /\ k_fs k' = k_fs k /\ ~ (buf + len <= user_top /\ can_read (k_mem k) buf len))
     \/ exists bs s1 x', Z.of_nat (length bs) = len /\ (forall i, 0 <= i < len -> peek (k_mem k') (buf + i) = bs !! Z.to_nat i)
        /\ written x (start (aimed ff pos x) pos) bs r x'
        /\ only_i (f_inode ff) x' (with_file f (aimed ff pos x) (k_fs k)) s1 /\ k_fs k' = advanced f (aimed ff pos x) pos r s1
        /\ (0 < len -> memory (k_fs k) -> memory (k_fs k') /\ (start (aimed ff pos x) pos + len <= 2 ^ 32 - 4096 -> r <> - ENOMEM))).

(** The position given by the caller, after the transfer of [r] bytes. *)
Definition moved (pos : option Z) (r : Z) : option Z := if 0 <? r then (fun p => u64 (p + r)) <$> pos else pos.

Lemma write_at_ok (k : kern U) f ff x buf len pos :
  um_inv (k_mem k) -> fs_files (k_fs k) !! f = Some ff -> fs_inodes (k_fs k) !! f_inode ff = Some x -> regular x ->
  Z.land (f_flags ff) O_ACCMODE <> O_RDONLY -> 0 <= buf < 2 ^ 64 -> 0 <= len < 2 ^ 32 ->
  wp (do_write_at f buf len pos) (fun r k' => wrote k f ff x buf len pos r.1 k' /\ r.2 = moved pos r.1) k.
Proof.
  intros Hi Hf Hx Hreg Hacc Hb Hl. pose proof Hreg as [Ht Hr Hw Hd]. unfold do_write_at. wp_step. apply wp_on_fs. eapply wp_fil; [done|].
  rewrite (proj2 (Z.eqb_neq _ _) Hacc). wp_step. apply wp_on_user. apply wp_user_ok_why; [done|done|lia|..].
  { intros u Iu Gu Why. wp_steps. split; [|done]. split_and!; [done|done|done|]. by left. }
  intros u Iu Gu Cr. cbn [negb]. wp_step. apply wp_on_fs. eapply wp_ino; [done|]. rewrite Ht. cbn [Z.eqb Pos.eqb]. rewrite Hw. cbn [is_None].
  wp_step. apply wp_on_fs. set (k1 := set_k_fs _ _). cbn [k_fs set_k_mem set_k_fs] in k1.
  assert (forall Q : unit -> fs -> Prop, Q tt (with_file f (aimed ff pos x) (k_fs k)) -> wp (when (has (f_flags ff) O_APPEND && is_None pos) (fset f (set_f_offset (i_length x)))) Q (k_fs k1)) as Haim.
  { intros Q HQ. unfold aimed in HQ. apply wp_when; intros E; rewrite E in HQ; [by eapply wp_fset|]. by rewrite with_file_id in HQ. }
  apply Haim. wp_step. apply wp_on_fs. eapply wp_fil; [apply lookup_insert_eq|]. wp_step. apply wp_on_user. rewrite u32_small by lia.
  apply wp_load_bytes; [done|by rewrite Z2Nat.id by lia|]. intros bs Hlen Hbs Hpk. rewrite Z2Nat.id in Hpk by lia.
  wp_step. apply wp_on_fs. assert (f_inode (aimed ff pos x) = f_inode ff) as -> by (unfold aimed; by destruct (_ && _)).
  fold (start (aimed ff pos x) pos). unfold call_write. wp_step. eapply wp_ino; [exact Hx|]. rewrite Hw.
  eapply wp_mono; [apply wp_with; [apply write_ok; [exact Hx|done|apply u32_bound|lia|done]|intros r s1 E; exact E]|].
  intros r s1 [Erun (x' & Ho & Hd' & Eh & Hc)].
  assert (written x (start (aimed ff pos x) pos) bs r x') as Hwr by (split; [by eapply regular_husk|done]).
  assert (r <> - EPIPE) as Hnp by (destruct Hc as [[[[-> _]| ->] _]|[-> _]]; lia).
  assert (fs_files s1 !! f = Some (aimed ff pos x)) as Hf1 by (destruct Ho as [_ (_ & -> & _)]; apply lookup_insert_eq).
  assert (forall k', k_mem k' = u -> k_sent k' = k_sent k -> k_fs k' = advanced f (aimed ff pos x) pos r s1 -> wrote k f ff x buf len pos r k') as Hend.
  { intros k' Eu Es Ef. unfold wrote. rewrite Eu, Es, Ef. split_and!; [done|done|done|]. right. exists bs, s1, x'. split_and!; [lia|done..|].
    intros Hpos Hm. destruct (write_memory _ _ _ _ _ _ Erun (proj1 (u32_bound _)) ltac:(lia) Hm) as [Hm1 Hr1].
    split; [unfold advanced; by destruct ((0 <? r) && is_None pos)|]. intros Hend. apply Hr1. lia. }
  unfold broken. wp_step. apply wp_when; [by intros E%Z.eqb_eq|intros _]. unfold advanced in Hend. unfold moved. destruct (0 <? r) eqn:Hlt; cbn [andb] in Hend; [|wp_steps; cbn [fst snd]; rewrite Hlt; split; [by apply Hend|done]].
  destruct pos as [q|]; cbn [is_None] in Hend; [wp_steps; cbn [fst snd]; rewrite Hlt; split; [by apply Hend|done]|]. wp_step. apply wp_on_fs. eapply wp_fset; [done|]. wp_steps. cbn [fst snd]. rewrite Hlt. split; [by apply Hend|done].
Qed.

(** ** The calls *)

Lemma capped_small len : len <= IO_MAX -> capped len = len.
Proof. intros H. unfold capped. by rewrite (proj2 (Z.ltb_ge _ _) H). Qed.

Lemma aimed_at ff q x : aimed ff (Some q) x = ff.
Proof. unfold aimed. by rewrite andb_false_r. Qed.

Lemma advanced_at f ff q r s : advanced f ff (Some q) r s = s.
Proof. unfold advanced. by rewrite andb_false_r. Qed.

Section Calls.
  Context (k : kern U) (fd f : Z) (ff : file) (n : Z) (x : inode).
  Hypotheses (HU : um_inv (k_mem k)) (HO : opened (k_fs k) fd f ff n x) (HX : regular x).

Lemma pread_ok buf len pos : Z.land (f_flags ff) O_ACCMODE <> O_WRONLY -> 0 <= len <= IO_MAX -> 0 <= pos ->
  wp (sys_pread64 fd buf len pos) (fun r k' => um_inv (k_mem k') /\ k_fs k' = k_fs k /\ exists u, grows (k_mem k) u /\
    (r = - EFAULT \/ let bs := take (Z.to_nat len) (skipn (Z.to_nat (u32 (u64 pos))) (content_of x)) in
      r = Z.of_nat (length bs) /\ stored u (k_mem k') (u64 buf) bs)) k.
Proof.
  intros Hacc Hl Hp. pose proof HO as [_ _ H0 Hf <- Hx]. unfold sys_pread64. wp_step. apply wp_on_fs. eapply wp_fd_file; [exact HO|].
  rewrite (proj2 (Z.eqb_neq _ _) H0), (proj2 (Z.ltb_ge len 0)), (proj2 (Z.ltb_ge pos 0)) by lia. cbn [orb]. wp_step. apply wp_on_fs. eapply wp_fil; [done|].
  wp_step. apply wp_on_fs. eapply wp_ino; [done|]. rewrite regular_seekable, capped_small by (done || lia). wp_step.
  eapply wp_mono; [eapply read_at_ok; try done; [apply u64_bound|lia]|]. intros r k' (Iu & _ & u & Gu & Hr). wp_steps. destruct Hr as [[-> ->]|(-> & Hs & ->)].
  - split_and!; [done|done|]. exists u. split; [done|]. by left.
  - rewrite advanced_at. split_and!; [done|done|]. exists u. split; [done|]. right. by split.
Qed.

Lemma pwrite_ok buf len pos : Z.land (f_flags ff) O_ACCMODE <> O_RDONLY -> 0 <= len <= IO_MAX -> 0 <= pos ->
  wp (sys_pwrite64 fd buf len pos) (wrote k f ff x (u64 buf) len (Some (u64 pos))) k.
Proof.
  intros Hacc Hl Hp. pose proof HO as [_ _ H0 Hf <- Hx]. unfold sys_pwrite64. wp_step. apply wp_on_fs. eapply wp_fd_file; [exact HO|].
  rewrite (proj2 (Z.eqb_neq _ _) H0), (proj2 (Z.ltb_ge len 0)), (proj2 (Z.ltb_ge pos 0)) by lia. cbn [orb]. wp_step. apply wp_on_fs. eapply wp_fil; [done|].
  wp_step. apply wp_on_fs. eapply wp_ino; [done|]. rewrite regular_seekable, capped_small by (done || lia). wp_step.
  eapply wp_mono; [eapply write_at_ok; try done; [apply u64_bound|lia]|]. intros r k' [Hr _]. by wp_steps.
Qed.

Lemma write_call_ok buf len : Z.land (f_flags ff) O_ACCMODE <> O_RDONLY -> 0 <= len <= IO_MAX ->
  wp (sys_write fd buf len) (wrote k f ff x (u64 buf) len None) k.
Proof.
  intros Hacc Hl. pose proof HO as [_ _ H0 Hf <- Hx]. unfold sys_write. wp_step. apply wp_on_fs. eapply wp_fd_file; [exact HO|].
  rewrite (proj2 (Z.eqb_neq _ _) H0), (proj2 (Z.ltb_ge len 0)), capped_small by lia. wp_step.
  eapply wp_mono; [eapply write_at_ok; try done; [apply u64_bound|lia]|]. intros r k' [Hr _]. by wp_steps.
Qed.
End Calls.

Lemma opened_only s s1 fd f ff n x x' : only_i n x' s s1 -> opened s fd f ff n x -> opened s1 fd f ff n x'.
Proof.
  intros Ho [H1 H2 H3 H4 H5 _]. pose proof (only_i_lookup _ _ _ _ Ho) as Hx. destruct Ho as [_ (_ & E1 & _ & _ & _ & _ & _ & _ & E2 & _)].
  split; [done|by rewrite E2|done|by rewrite E1|done|done].
Qed.

Lemma stored_all (u u' : U) a bs i b : stored u u' a bs -> 0 <= i < Z.of_nat (length bs) -> bs !! Z.to_nat i = Some b -> peek u' (a + i) = Some b.
Proof. intros [Hp _] Hi Hb. rewrite Hp, decide_True by lia. rewrite <- Hb. f_equal. lia. Qed.

(** C15: pwrite, then pread of the same length at the same position of a
    regular file: unless user memory cannot be accessed, memory runs out or
    the file would pass 4 GB, both transfer everything and the bytes that
    were at the first buffer are at the second; the file offset has not
    moved. *)
Theorem pwrite_then_pread (k : kern U) fd f ff n x buf buf' len pos :
  um_inv (k_mem k) -> opened (k_fs k) fd f ff n x -> regular x -> Z.land (f_flags ff) O_ACCMODE = O_RDWR -> 0 <= len <= IO_MAX -> 0 <= pos ->
  wp (r ← sys_pwrite64 fd buf len pos; r' ← sys_pread64 fd buf' len pos; mret (r, r')) (fun rr k' =>
    fs_files (k_fs k') = fs_files (k_fs k) /\
    (rr.1 = - EFAULT \/ rr.1 = - ENOMEM \/ rr.1 = - EINVAL /\ 2 ^ 32 <= u32 (u64 pos) + len
     \/ rr.1 = len /\ (rr.2 = - EFAULT \/ rr.2 = len /\
          forall i b, 0 <= i < len -> peek (k_mem k) (u64 buf + i) = Some b -> peek (k_mem k') (u64 buf' + i) = Some b))) k.
Proof.
  intros HU HO HX Hacc Hl Hp. wp_step. eapply wp_mono; [apply (pwrite_ok k fd f ff n x); try done; lia|]. intros r k1 (I1 & _ & G1 & Hr).
  assert (exists x1, opened (k_fs k1) fd f ff n x1 /\ regular x1 /\ fs_files (k_fs k1) = fs_files (k_fs k) /\
    (r = - EFAULT \/ r = - ENOMEM \/ r = - EINVAL /\ 2 ^ 32 <= u32 (u64 pos) + len
     \/ r = len /\ exists bs, Z.of_nat (length bs) = len /\ (forall i, 0 <= i < len -> peek (k_mem k1) (u64 buf + i) = bs !! Z.to_nat i) /\ content_of x1 = pwrite (content_of x) (u32 (u64 pos)) bs)) as (x1 & HO1 & HX1 & EF & Hcase).
  { destruct Hr as [(-> & E & _)|(bs & s1 & x1 & Hlen & Hpk & [HX1 Hc] & Ho & E & _)]; [exists x; rewrite E; split_and!; auto|].
    rewrite advanced_at in E. rewrite aimed_at in Ho, Hc. rewrite with_file_id in Ho by apply HO. rewrite (op_inode _ _ _ _ _ _ HO) in Ho. exists x1. rewrite E. split_and!; [by eapply opened_only|done|apply Ho|].
    cbn in Hc. rewrite Hlen in Hc. naive_solver. }
  wp_step. eapply wp_mono; [apply (pread_ok k1 fd f ff n x1); try done; lia|]. intros r' k2 (_ & E2 & u & Gu & Hr'). wp_steps. cbn [fst snd]. rewrite E2. split; [done|].
  destruct Hcase as [->|[->|[[-> ?]|(-> & bs & Hlen & Hpk & Hc)]]]; [by auto..|]. do 3 right. split; [done|]. destruct Hr' as [->|[-> Hs]]; [by left|right].
  rewrite Hc in *. pose proof (pwrite_read (content_of x) (u32 (u64 pos)) bs (proj1 (u32_bound _))) as Eb. replace (length bs) with (Z.to_nat len) in Eb by lia. rewrite Eb in *.
  split; [done|]. intros i b Hi Hb. eapply stored_all; [done|lia|]. rewrite <- Hpk by done. by apply G1.
Qed.

Lemma opened_with s fd f ff ff' n x : opened s fd f ff n x -> f_inode ff' = f_inode ff -> opened (with_file f ff' s) fd f ff' n x.
Proof. intros [H1 H2 H3 H4 H5 H6] E. split; [done|done|done|apply lookup_insert_eq|by rewrite E|done]. Qed.

Lemma regular_length x : regular x -> i_length x = Z.of_nat (length (content_of x)) /\ 0 <= i_length x < 2 ^ 32.
Proof.
  intros [_ _ _ [_ Hd]]. unfold content_of. destruct (i_ptr x) as [|d|g|d]; try done; [by rewrite Hd|]. destruct Hd as [Hg ->].
  rewrite length_content by done. destruct Hg as [H1 H2 H3 _ _]. lia.
Qed.

(** C30: a write to a description opened with O_APPEND goes to the end of the
    file, wherever the offset was: the file is then what it was followed by
    the bytes of the buffer, and the offset is at its end; or the buffer
    cannot be read, memory runs out or the file would pass 4 GB, and the file
    has not changed. *)
Theorem append_writes_at_the_end (k : kern U) fd f ff n x buf len :
  um_inv (k_mem k) -> opened (k_fs k) fd f ff n x -> regular x -> Z.land (f_flags ff) O_ACCMODE <> O_RDONLY -> has (f_flags ff) O_APPEND = true -> 0 < len <= IO_MAX ->
  wp (sys_write fd buf len) (fun r k' => exists x' ff', opened (k_fs k') fd f ff' n x' /\ regular x' /\
    ((r = - EFAULT \/ r = - ENOMEM \/ r = - EINVAL /\ 2 ^ 32 <= i_length x + len) /\ content_of x' = content_of x
     \/ r = len /\ f_offset ff' = i_length x + len /\ exists bs, content_of x' = content_of x ++ bs /\ Z.of_nat (length bs) = len
        /\ forall i, 0 <= i < len -> peek (k_mem k') (u64 buf + i) = bs !! Z.to_nat i)) k.
Proof.
  intros HU HO HX Hacc Happ Hl. destruct (regular_length x HX) as [Hlen Hb]. eapply wp_mono; [apply (write_call_ok k fd f ff n x); try done; lia|].
  intros r k' (_ & _ & _ & [(-> & E & _)|(bs & s1 & x' & Hn & Hpk & [HX' Hc] & Ho & E & _)]); [exists x, ff; rewrite E; split_and!; auto|].
  assert (aimed ff None x = set_f_offset (i_length x) ff) as Ea by (unfold aimed; by rewrite Happ). rewrite Ea in *.
  assert (opened s1 fd f (set_f_offset (i_length x) ff) n x') as HO1 by (eapply opened_only; [|by eapply opened_with]; by rewrite <- (op_inode _ _ _ _ _ _ HO)).
  unfold start in Hc. cbn [f_offset set_f_offset default from_option] in Hc. rewrite u32_small, Hn in Hc by done. unfold advanced in E. cbn [is_None f_offset set_f_offset] in E. rewrite andb_true_r in E.
  destruct Hc as [[Hr Ec]|(-> & Hlt & Ec)].
  - exists x', (set_f_offset (i_length x) ff). rewrite (proj2 (Z.ltb_ge 0 r)) in E by (destruct Hr as [[-> _]| ->]; lia). rewrite E. split_and!; [done|done|]. left. split; [naive_solver|done].
  - rewrite (proj2 (Z.ltb_lt 0 len)) in E by lia. rewrite u64_small in E by lia. eexists x', _. rewrite E. split_and!; [by eapply opened_with|done|]. right. split_and!; [done|done|].
    exists bs. split_and!; [|done|done]. rewrite Ec, Hlen. apply pwrite_end.
Qed.
End Files.

(** ** Examples *)

Definition no_devices : Devices := {|
  dev_write _ _ _ _ := mret (- EIO);
  sock_read _ _ := mret (- EIO, []);
  sock_write _ _ := mret (- EIO);
  dev_readdir _ _ _ := mret None;
|}.

(** /a for appending on descriptor 0, the root directory on 1. *)
Definition proc8 : process := set_fds (8 :: 9 :: replicate 62 0) zero_process.
Definition file8 : file := MkFile 3 None 0 (Z.lor O_RDWR O_APPEND) 1.
Definition file9 : file := MkFile 1 None 0 O_RDONLY 1.
Definition names8 : fs := set_fs_cur (Some proc8) (set_fs_files {[8 := file8; 9 := file9]} names1).
Definition kern8 : kern flat := MkKern names8 flat64 [].

Lemma a1_opened : opened names8 0 8 file8 3 a1.
Proof. split; [done|by exists proc8|done..]. Qed.

Lemma a1_regular : regular a1.
Proof. by split. Qed.

Lemma pwrite_then_pread_witness :
  wp (r ← sys_pwrite64 (DV := no_devices) 0 4096 8 100; r' ← sys_pread64 (DR := no_drivers) (DV := no_devices) 0 4104 8 100; mret (r, r')) (fun rr k' =>
    fs_files (k_fs k') = fs_files (k_fs kern8) /\
    (rr.1 = - EFAULT \/ rr.1 = - ENOMEM \/ rr.1 = - EINVAL /\ 2 ^ 32 <= u32 (u64 100) + 8
     \/ rr.1 = 8 /\ (rr.2 = - EFAULT \/ rr.2 = 8 /\
          forall i b, 0 <= i < 8 -> peek (k_mem kern8) (u64 4096 + i) = Some b -> peek (k_mem k') (u64 4104 + i) = Some b))) kern8.
Proof. apply (pwrite_then_pread kern8 0 8 file8 3 a1 4096 4104 8 100); [apply flat64_inv|apply a1_opened|apply a1_regular|done|done|done]. Defined.

Lemma append_writes_at_the_end_witness :
  wp (sys_write (DV := no_devices) 0 4096 8) (fun r k' => exists x' ff', opened (k_fs k') 0 8 ff' 3 x' /\ regular x' /\
    ((r = - EFAULT \/ r = - ENOMEM \/ r = - EINVAL /\ 2 ^ 32 <= i_length a1 + 8) /\ content_of x' = content_of a1
     \/ r = 8 /\ f_offset ff' = i_length a1 + 8 /\ exists bs, content_of x' = content_of a1 ++ bs /\ Z.of_nat (length bs) = 8
        /\ forall i, 0 <= i < 8 -> peek (k_mem k') (u64 4096 + i) = bs !! Z.to_nat i)) kern8.
Proof. apply (append_writes_at_the_end kern8 0 8 file8 3 a1 4096 8); [apply flat64_inv|apply a1_opened|apply a1_regular|done|done|done]. Defined.
