(* ===== verification/FsVec.v ===== *)
(** * Vectored writes

    pwritev on a regular file writes its buffers one after the other, as a
    single write of all of them would. *)
From S2P Require Import Prelude Types UserMem Cred Pmm Pipe VfsState Forest Ramfs Vfs VfsTree VfsOps VfsNames VfsPath File FileRefs Fds FdRefs FsCalls FsSafe FsIo FsIoOk.

Lemma pwrite_app c off a b : 0 <= off -> pwrite (pwrite c off a) (off + Z.of_nat (length a)) b = pwrite c off (a ++ b).
Proof.
  intros Ho. apply list_eq. intros i. rewrite !pwrite_lookup, length_app by lia. repeat case_decide; try lia; try done.
  - rewrite lookup_app_l by lia. destruct (lookup_lt_is_Some_2 a (i - Z.to_nat off)%nat) as [y ->]; [lia|done].
  - rewrite lookup_app_r by lia. f_equal. lia.
Qed.

Section Vectors.
  Context {U : Type} `{UM : UserMem U} `{DR : Drivers} `{DV : Devices}.

(** A buffer: its address and the bytes in it. *)
Definition piece : Type := Z * list Z.
Definition bytes_in (l : list piece) : list Z := concat (snd <$> l).

(** The array at [v] describes the buffers [l], all in user memory. *)
Definition vector (u : U) (v : Z) (l : list piece) : Prop :=
  forall i e, l !! i = Some e -> 0 <= e.1 /\ e.1 + Z.of_nat (length e.2) <= user_top /\ 0 < Z.of_nat (length e.2) <= IO_MAX
    /\ (forall j, 0 <= j < 8 -> peek u (v + Z.of_nat i * 16 + j) = le_bytes 8 e.1 !! Z.to_nat j)
    /\ (forall j, 0 <= j < 8 -> peek u (v + Z.of_nat i * 16 + 8 + j) = le_bytes 8 (Z.of_nat (length e.2)) !! Z.to_nat j)
    /\ (forall j, 0 <= j < Z.of_nat (length e.2) -> peek u (e.1 + j) = e.2 !! Z.to_nat j).

Lemma bytes_in_bound l : (forall e, e ∈ l -> 0 < Z.of_nat (length e.2) <= IO_MAX) -> Z.of_nat (length (bytes_in l)) <= IO_MAX * Z.of_nat (length l).
Proof.
  unfold bytes_in. induction l as [|e l IH]; intros H; [done|]. rewrite fmap_cons. cbn [concat length]. rewrite length_app. pose proof (H e (list_elem_of_here _ _)). pose proof (IH (fun e' He => H e' (list_elem_of_further _ _ _ He))). lia.
Qed.

Lemma seen_grows (u u' : U) a bs n : grows u u' -> (forall j, 0 <= j < n -> peek u (a + j) = bs !! Z.to_nat j) -> n <= Z.of_nat (length bs) ->
  forall j, 0 <= j < n -> peek u' (a + j) = bs !! Z.to_nat j.
Proof.
  intros [Hg _] H Hn j Hj. destruct (lookup_lt_is_Some_2 bs (Z.to_nat j)) as [b Hb]; [lia|]. rewrite Hb. apply Hg. by rewrite H, Hb.
Qed.

Lemma vector_grows u u' v l : grows u u' -> vector u v l -> vector u' v l.
Proof.
  intros Hg Hv i e He. destruct (Hv i e He) as (H1 & H1' & H2 & H3 & H4 & H5).
  split_and!; try done; try apply H2; eapply seen_grows; try done; rewrite ?length_le_bytes; lia.
Qed.

Lemma same_bytes (u : U) a bs bs' : length bs' = length bs ->
  (forall j, 0 <= j < Z.of_nat (length bs) -> peek u (a + j) = bs !! Z.to_nat j) -> (forall j, 0 <= j < Z.of_nat (length bs) -> peek u (a + j) = bs' !! Z.to_nat j) -> bs' = bs.
Proof.
  intros Hl H1 H2. apply list_eq. intros i. destruct (decide (i < length bs)%nat).
  - specialize (H1 (Z.of_nat i)). specialize (H2 (Z.of_nat i)). rewrite Nat2Z.id in H1, H2. rewrite <- H1, <- H2 by lia. done.
  - rewrite !lookup_ge_None_2 by lia. done.
Qed.

Lemma wp_load64_value (u : U) a w (Q : Z -> U -> Prop) : um_inv u -> 0 <= w < 2 ^ 64 -> (forall j, 0 <= j < 8 -> peek u (a + j) = le_bytes 8 w !! Z.to_nat j) -> Q w u -> wp (load64 a) Q u.
Proof.
  intros Hi Hw Hp HQ. unfold load64. wp_step. apply wp_load_bytes; [done| |].
  - intros y Hy. replace y with (a + (y - a)) by lia. rewrite Hp by lia. apply lookup_lt_is_Some_2. rewrite length_le_bytes. lia.
  - intros bs Hl _ Hb. wp_step. rewrite (same_bytes u a (le_bytes 8 w) bs) by (rewrite ?length_le_bytes; done). by rewrite le_value_bytes.
Qed.

Lemma vector_readable (u : U) v l : vector u v l -> can_read u v (Z.of_nat (length l) * 16).
Proof.
  intros Hv y Hy. set (i := Z.to_nat ((y - v) / 16)). destruct (lookup_lt_is_Some_2 l i) as [e He]; [unfold i; lia_div|].
  destruct (Hv i e He) as (_ & _ & _ & H3 & H4 & _). assert (v + Z.of_nat i * 16 <= y < v + Z.of_nat i * 16 + 16) as Hyi by (unfold i; lia_div).
  destruct (decide (y < v + Z.of_nat i * 16 + 8)).
  - replace y with (v + Z.of_nat i * 16 + (y - (v + Z.of_nat i * 16))) by lia. rewrite H3 by lia. apply lookup_lt_is_Some_2. rewrite length_le_bytes. lia.
  - replace y with (v + Z.of_nat i * 16 + 8 + (y - (v + Z.of_nat i * 16 + 8))) by lia. rewrite H4 by lia. apply lookup_lt_is_Some_2. rewrite length_le_bytes. lia.
Qed.

Lemma wp_iov_at (u : U) v l i e (Q : Z * Z -> U -> Prop) : um_inv u -> vector u v l -> l !! i = Some e -> Q (e.1, Z.of_nat (length e.2)) u -> wp (iov_at v (Z.of_nat i)) Q u.
Proof.
  intros Hi Hv He HQ. destruct (Hv i e He) as (H1 & H1' & H2 & H3 & H4 & _). unfold user_top in H1'.
  unfold iov_at. wp_step. eapply wp_load64_value; [done| |done|]; [lia|]. wp_step. eapply wp_load64_value; [done| |done|]; [lia|]. by wp_step.
Qed.

(** Buffers were written from the first on, all of them or those before one
    that would take the file past the last page below 4 GB, or for which there
    may be no memory; the answer is their length, or that buffer's error if it
    is the first. *)
Definition vec_wrote (s0 : fs) (fd f : Z) (ff : file) (n : Z) (x : inode) (p t : Z) (todo : list piece) (r : Z) (k' : kern U) : Prop :=
  exists x' dn rest, opened (k_fs k') fd f ff n x' /\ regular x' /\ todo = dn ++ rest
    /\ content_of x' = (if decide (dn = []) then content_of x else pwrite (content_of x) (u32 p) (bytes_in dn))
    /\ let len := Z.of_nat (length (bytes_in dn)) in
       match rest with
       | [] => r = t + len
       | e :: _ => (2 ^ 32 - 4096 < u32 p + len + Z.of_nat (length e.2) \/ ~ memory s0)
                   /\ (if decide (t + len = 0) then r = - EINVAL \/ r = - ENOMEM else r = t + len)
       end.

Lemma iov_loop_ok fd f ff n v l todo i k x p t :
  um_inv (k_mem k) -> vector (k_mem k) v l -> skipn i l = todo -> opened (k_fs k) fd f ff n x -> regular x -> Z.land (f_flags ff) O_ACCMODE <> O_RDONLY ->
  0 <= t -> t + Z.of_nat (length (bytes_in todo)) < 2 ^ 63 ->
  wp (iov_loop f v false (range (Z.of_nat i) (Z.of_nat (length l))) t (Some p)) (vec_wrote (k_fs k) fd f ff n x p t todo) k.
Proof.
  revert i k x p t; induction todo as [|e todo IH]; intros i k x p t Hi Hv Hd HO HX Hacc Ht Hs.
  - rewrite range_nil by (assert (length l - i = 0)%nat by (by rewrite <- length_skipn, Hd); lia). cbn [iov_loop]. wp_step. exists x, [], []. split_and!; [done..|]. cbn. lia.
  - assert (l !! i = Some e) as He by (rewrite <- (Nat.add_0_r i), <- lookup_drop, Hd; done). pose proof (lookup_lt_Some _ _ _ He). destruct (Hv i e He) as (Hb & Htop & Hlen & _ & _ & Hby).
    assert (skipn (S i) l = todo) as Hd' by (change (S i) with (1 + i)%nat; rewrite <- skipn_skipn, Hd; done).
    rewrite range_cons by lia. cbn [iov_loop]. wp_step. apply wp_on_user. eapply wp_iov_at; [done|done|done|]. cbn [fst snd]. rewrite capped_small by lia. cbv zeta. wp_step.
    pose proof HO as [_ _ _ Hf En Hx]. eapply wp_mono; [eapply (write_at_ok _ f ff x); try done; [by rewrite En|unfold user_top in Htop; lia|lia]|]. intros [r q] k1 [(I1 & _ & G1 & Hr) Hq]. cbn [fst snd] in *. cbv beta iota.
    assert (forall j, 0 <= j < Z.of_nat (length e.2) -> peek (k_mem k1) (e.1 + j) = e.2 !! Z.to_nat j) as Hby1 by (eapply seen_grows; [exact G1|done|lia]).
    assert (vector (k_mem k1) v l) as Hv1 by (by eapply vector_grows).
    destruct Hr as [(_ & _ & [])|(bs & s1 & x1 & Hn & Hpk & [HX1 Hc] & Ho & E & Hmem)].
    { split; [done|]. intros y Hy. replace y with (e.1 + (y - e.1)) by lia. cbn [k_mem set_k_mem]. rewrite Hby by lia. apply lookup_lt_is_Some_2. lia. }
    rewrite aimed_at in Hc, Ho, Hmem. rewrite with_file_id in Ho by done. rewrite advanced_at in E. rewrite En in Ho. subst s1. cbn [k_fs set_k_mem] in Hmem.
    assert (opened (k_fs k1) fd f ff n x1) as HO1 by (by eapply opened_only). rewrite Hn in Hc. destruct Hc as [[Hneg Ec]|(-> & Hlt & Ec)].
    { assert (r < 0) as Hneg' by (destruct Hneg as [[-> _]| ->]; lia). rewrite (proj2 (Z.ltb_lt r 0) Hneg'). wp_step.
      exists x1, [], (e :: todo). do 4 (split; [done|]). cbv zeta iota. change (Z.of_nat (length (bytes_in []))) with 0. rewrite !Z.add_0_r. split.
      - destruct (decide (2 ^ 32 - 4096 < u32 p + Z.of_nat (length e.2))) as [|Hroom]; [by left|right]. intros Hm.
        destruct Hneg as [[-> Hbig]| ->]; [unfold start in Hbig; cbn in Hbig; lia|].
        destruct (Hmem ltac:(lia) Hm) as [_ Hr]. apply Hr; [unfold start; cbn; lia|done].
      - destruct (Z.eqb_spec t 0), (decide (t = 0)); try done; naive_solver. }
    assert (bs = e.2) as -> by (eapply same_bytes; [lia|exact Hby1|exact Hpk]). set (len := Z.of_nat (length e.2)) in *.
    assert (Z.of_nat (length (bytes_in (e :: todo))) = len + Z.of_nat (length (bytes_in todo))) as EL by (unfold bytes_in; rewrite fmap_cons; cbn [concat]; rewrite length_app; lia).
    rewrite (proj2 (Z.ltb_ge len 0)), Z.ltb_irrefl, s64_small by lia. unfold moved in Hq. rewrite (proj2 (Z.ltb_lt 0 len)) in Hq by lia. cbn in Hq. rewrite Hq.
    replace (Z.of_nat i + 1) with (Z.of_nat (S i)) by lia. eapply wp_mono; [apply (IH (S i) k1 x1); try done; lia|].
    unfold start in Ec, Hlt. change (default (f_offset ff) (Some p)) with p in Ec, Hlt.
    assert (u32 (u64 (p + len)) = u32 p + len) as Epos by (rewrite u32_u64; pose proof (u32_bound p); unfold u32 in *; rewrite <- Zplus_mod_idemp_l; apply Z.mod_small; lia).
    intros r k' (x' & dn & rest & HO' & HX' & -> & Ec' & Hr). assert (bytes_in (e :: dn) = e.2 ++ bytes_in dn) as EB by done. exists x', (e :: dn), rest. split_and!; [done|done|done| |].
    + rewrite decide_False by done. rewrite EB, Ec', Ec. case_decide as Hnil; [subst dn; cbn; by rewrite app_nil_r|]. rewrite Epos. apply pwrite_app, u32_bound.
    + cbv zeta in *. rewrite EB, length_app, Nat2Z.inj_add. fold len. rewrite Epos in Hr. destruct rest as [|e' rest]; [lia|]. destruct Hr as [Hstop Hr].
      rewrite decide_False in Hr by lia. rewrite decide_False by lia. split; [|lia]. destruct Hstop as [?|Hm]; [left; lia|right]. intros Hm0. apply Hm. by apply Hmem; [lia|].
Qed.

(** C29: pwritev on a regular file does what one pwrite of the buffers put
    together does: they are in the file one after the other from the position
    on, the result is their total length and the file offset stays. It stops
    early only at a buffer that would end past the last page below 4 GB, or if
    an allocation is refused; then the buffers before that one are written and
    counted, and if there are none the result is the error. *)
Theorem pwritev_is_one_write (k : kern U) fd f ff n x iov l pos :
  um_inv (k_mem k) -> vector (k_mem k) (u64 iov) l -> u64 iov + 16 * Z.of_nat (length l) <= user_top -> (length l <= 1024)%nat ->
  opened (k_fs k) fd f ff n x -> regular x -> Z.land (f_flags ff) O_ACCMODE <> O_RDONLY -> 0 <= pos ->
  wp (sys_pwritev fd iov (Z.of_nat (length l)) pos) (vec_wrote (k_fs k) fd f ff n x (u64 pos) 0 l) k.
Proof.
  intros Hi Hv Htop Hl HO HX Hacc Hp. pose proof HO as [_ _ H0 Hf En Hx]. unfold sys_pwritev, do_iov. rewrite (proj2 (Z.ltb_ge pos 0)) by lia. wp_step. apply wp_on_fs. eapply wp_fd_file; [exact HO|].
  rewrite (proj2 (Z.eqb_neq _ _) H0), (proj2 (Z.ltb_ge (Z.of_nat (length l)) 0)), (proj2 (Z.ltb_ge 1024 _)) by lia. cbn [orb]. wp_step. apply wp_on_user.
  destruct k as [ks ku kk]. cbn [k_fs k_mem set_k_fs k_sent] in *. apply wp_user_ok_read; [done|apply u64_bound|lia|lia|by apply vector_readable|].
  intros u Iu Gu. cbn [negb]. wp_step. apply wp_on_fs. eapply wp_fil; [done|]. wp_step. apply wp_on_fs. eapply wp_ino; [by rewrite En|].
  rewrite (proj2 (Z.leb_le 0 pos)), regular_seekable, (rg_type x HX) by done. cbn [negb is_None andb Z.eqb Pos.eqb].
  eapply (iov_loop_ok fd f ff n (u64 iov) l l 0 (MkKern ks u kk)); try done; [by eapply vector_grows|].
  rewrite Z.add_0_l. eapply Z.le_lt_trans; [apply (bytes_in_bound l); intros e [i He]%list_elem_of_lookup; by apply (Hv i e He)|lia].
Qed.
End Vectors.

(** One buffer of four bytes, described in the sixteen bytes before it. *)
Definition vec8 : flat := MkFlat (list_to_map (zip (range 4096 4116) (le_bytes 8 4112 ++ le_bytes 8 4 ++ [1; 2; 3; 4]))).

Lemma vec8_inv : flat_inv vec8.
Proof.
  apply map_Forall_to_list. eapply (Forall_impl (fun e : Z * Z => 0 <= e.1 < 2 ^ 47 /\ 0 <= e.2 < 256)); [|by intros []]. apply (bool_decide_eq_true_1 (Forall (fun e : Z * Z => 0 <= e.1 < 2 ^ 47 /\ 0 <= e.2 < 256) (map_to_list (flat_bytes vec8)))).
  by vm_compute.
Qed.

Lemma all_below n (P : Z -> Prop) `{!forall j, Decision (P j)} : bool_decide (Forall P (range 0 n)) = true -> forall j, 0 <= j < n -> P j.
Proof. intros HP%bool_decide_eq_true j Hj. rewrite Forall_forall in HP. apply HP. by apply elem_of_range. Qed.

Lemma pwritev_is_one_write_witness :
  wp (sys_pwritev (DR := no_drivers) (DV := no_devices) 0 4096 (Z.of_nat (length [(4112, [1; 2; 3; 4])])) 10)
    (vec_wrote names8 0 8 file8 3 a1 (u64 10) 0 [(4112, [1; 2; 3; 4])]) (MkKern names8 vec8 []).
Proof.
  apply (pwritev_is_one_write (DR := no_drivers) (DV := no_devices) (MkKern names8 vec8 []) 0 8 file8 3 a1 4096 [(4112, [1; 2; 3; 4])] 10);
    [apply vec8_inv| |vm_compute; done|simpl; lia|apply a1_opened|apply a1_regular|done|done].
  intros [|i] e He; [injection He as <-|done]. split_and!; try done; refine (all_below _ _ _); by vm_compute.
Defined.
