(* ===== verification/FsDents.v ===== *)
(** * Directory listings

    getdents hands out the entries of a directory in order, each once: what
    fits from the file's position on, and the position moves behind it. *)
From S2P Require Import Prelude Types UserMem Cred Pmm Pipe VfsState Forest Ramfs Vfs VfsTree VfsOps VfsNames VfsPath File FileRefs Fds FdRefs FsCalls FsSafe FsIo FsIoOk.

(** ** Records *)

Lemma reclen_eq legacy name : slen name <= NAME_MAX -> reclen legacy name = 8 * ((27 + slen name) / 8).
Proof.
  intros Hn. unfold reclen. assert (0 <= slen name) by (unfold slen; lia). replace ((if legacy then 18 else 19) + slen name + 1 + (if legacy then 1 else 0) + 7) with (27 + slen name) by (destruct legacy; lia).
  change (Z.lnot 7) with (Z.lnot (Z.ones 3)). rewrite <- Z.ldiff_land, Z.ldiff_ones_r, Z.shiftl_mul_pow2, Z.shiftr_div_pow2 by lia. change (2 ^ 3) with 8. unfold u16. rewrite Z.mod_small; lia_div.
Qed.

Lemma length_string_bytes name : Z.of_nat (length (string_bytes name)) = slen name.
Proof. unfold string_bytes, slen. rewrite length_fmap. f_equal. induction name as [|c p IH]; [done|]. simpl. by rewrite IH. Qed.

Lemma record_ok legacy name i t next : slen name <= NAME_MAX ->
  Z.of_nat (length (record legacy name i t next)) = reclen legacy name /\ 24 <= reclen legacy name /\ Forall byte (record legacy name i t next).
Proof.
  intros Hn. pose proof (length_string_bytes name) as Hl. assert (0 <= slen name) by (unfold slen; lia). pose proof (reclen_eq legacy name Hn) as Er. unfold record. split_and!.
  - destruct legacy; rewrite ?length_app, ?length_le_bytes; cbn [length]; rewrite ?length_app, length_zeros; cbn [length]; lia_div.
  - lia_div.
  - assert (byte (dtype_of t)) as Ht by (unfold dtype_of, byte; repeat case_match; lia).
    destruct legacy; repeat first [apply le_bytes_byte | apply string_bytes_byte | apply zeros_bytes | apply Forall_app_2 | apply Forall_cons_2; [exact Ht|] | apply Forall_nil_2].
Qed.

(** ** Entries: position, name, inode *)

Definition entry : Type := Z * string * Z.
Definition at_pos (e : entry) : Z := e.1.1.

(** The entries at [idx] and after. *)
Definition from (idx : Z) (es : list entry) : list entry := filter (fun e => idx <= at_pos e) es.

(** Positions rise. *)
Fixpoint rising (lo : Z) (es : list entry) : Prop :=
  match es with [] => True | e :: es => lo <= at_pos e /\ rising (at_pos e + 1) es end.

Lemma rising_from lo idx es : rising lo es -> idx <= lo -> from idx es = es.
Proof.
  revert lo; induction es as [|e es IH]; intros lo; [done|]. intros [H1 H2] Hi. unfold from. rewrite filter_cons_True by lia. f_equal. apply (IH (at_pos e + 1)); [done|lia].
Qed.

Lemma from_next lo idx es e rest : rising lo es -> from idx es = e :: rest -> from (at_pos e + 1) es = rest /\ idx <= at_pos e.
Proof.
  revert lo; induction es as [|e' es IH]; intros lo; [done|]. intros [H1 H2]. unfold from. destruct (decide (idx <= at_pos e')).
  - rewrite filter_cons_True by done. intros [= <- <-]. split; [|done]. rewrite filter_cons_False by lia. fold (from idx es). fold (from (at_pos e' + 1) es).
    rewrite !(rising_from (at_pos e' + 1)) by (done || lia). done.
  - rewrite filter_cons_False by done. intros E. destruct (IH _ H2 E) as [E1 Hi]. split; [|done]. rewrite filter_cons_False by lia. exact E1.
Qed.

Section Dents.
  Context {U : Type} `{UM : UserMem U} `{DR : Drivers} `{DV : Devices}.
  Context (s0 : fs) (n d : Z) (x : inode) (dd : dentry) (K : Z -> list Z).

Definition kid_entry (c : Z) : entry := match fs_dentries s0 !! c with Some dc => (d_seq dc, d_name dc, d_inode dc) | None => (0, ""%string, 0) end.

Definition parent_inode : Z := match fs_dentries s0 !! d_parent dd with Some pd => d_inode pd | None => n end.

(** All a listing of the directory shows. *)
Definition entries : list entry := (0, "."%string, n) :: (1, ".."%string, parent_inode) :: (kid_entry <$> K d).

Definition entry_bytes (legacy : bool) (e : entry) : list Z :=
  match fs_inodes s0 !! e.2 with Some y => record legacy e.1.2 (i_ino y) (itype y) (at_pos e + 1) | None => [] end.

(** A directory kept in dentries, whose entries have names that fit and
    positions that rise. *)
Record listable : Prop := {
  ls_tree : tree s0 K;
  ls_node : fs_inodes s0 !! n = Some x;
  ls_dir : itype x = VFS_DIRECTORY;
  ls_ptr : i_ptr x = PDentry d;
  ls_dentry : fs_dentries s0 !! d = Some dd;
  ls_kept : i_readdir x = None;
  ls_rising : rising 0 entries;
  ls_fit : Forall (fun e => slen e.1.2 <= NAME_MAX /\ 0 <= at_pos e < 2 ^ 64 - 1) entries;
}.

Hypothesis (HL : listable).

(** The file systems as they were, but for file offsets. *)
Definition same_dirs (s : fs) : Prop := fs_inodes s = fs_inodes s0 /\ fs_dentries s = fs_dentries s0.

Lemma child_from_ok s idx l c fuel : same_dirs s -> chain (fs_dentries s0) d c l -> 0 ∉ l -> (length l < fuel)%nat ->
  wp (child_from fuel c idx) (fun r s' => s' = s /\ match from idx (kid_entry <$> l) with [] => r = 0 | e :: _ => r <> 0 /\ r ∈ l /\ e = kid_entry r end) s.
Proof.
  intros [EI ED]. revert c fuel; induction l as [|y l IH]; intros c fuel Hc H0 Hf; (destruct fuel as [|fuel]; [simpl in Hf; lia|]); cbn [child_from].
  - simpl in Hc. subst c. rewrite Z.eqb_refl. by wp_steps.
  - destruct Hc as (-> & dy & Hy & _ & Hc). apply not_elem_of_cons in H0 as [Hne H0]. rewrite (proj2 (Z.eqb_neq y 0)) by done. wp_step. eapply wp_dent; [by rewrite ED|].
    rewrite fmap_cons. unfold from. assert (at_pos (kid_entry y) = d_seq dy) as Ep by (unfold kid_entry; by rewrite Hy). destruct (Z.ltb_spec (d_seq dy) idx).
    + rewrite filter_cons_False by lia. eapply wp_mono; [apply IH; [done|done|simpl in Hf; lia]|]. intros r s' [-> Hr]. split; [done|]. fold (from idx (kid_entry <$> l)). destruct (from idx (kid_entry <$> l)); [done|]. destruct Hr as (? & ? & ?). split_and!; [done|by right|done].
    + rewrite filter_cons_True by lia. wp_steps. split_and!; [done|done|by left|done].
Qed.

Lemma entry_at_ok s idx : same_dirs s -> 0 <= idx ->
  wp (entry_at n d idx) (fun r s' => s' = s /\ r = match from idx entries with [] => None | e :: _ => Some (e.1.2, e.2, (0, 0), at_pos e + 1) end) s.
Proof.
  destruct HL as [HT Hn _ _ Hd Hk _ Hfit]. apply Forall_cons in Hfit as [[_ H0] Hfit]. apply Forall_cons in Hfit as [[_ H1] Hfit]. intros [EI ED] Hi. unfold entry_at, entries, from.
  destruct (Z.eqb_spec idx 0) as [->|]; [rewrite filter_cons_True by done; by wp_steps|]. rewrite filter_cons_False by (cbn; lia).
  destruct (Z.eqb_spec idx 1) as [->|].
  - rewrite filter_cons_True by done. wp_step. eapply wp_dent; [by rewrite ED|]. unfold parent_inode. destruct (Z.eqb_spec (d_parent dd) 0) as [E|Hne].
    + rewrite E, (fr_null _ _ (t_forest _ _ HT)). by wp_steps.
    + destruct (parent_live s0 K HT d dd Hd Hne) as [pd Hpd]. rewrite Hpd. wp_step. eapply wp_dent; [by rewrite ED|]. by wp_steps.
  - rewrite filter_cons_False by (cbn; lia). wp_step. eapply wp_ino; [by rewrite EI|]. rewrite Hk. wp_step. eapply wp_dent; [by rewrite ED|]. do 2 wp_step. wp_step.
    eapply wp_mono; [apply child_from_ok; [done|by apply (t_forest _ _ HT)|intros Hz; by destruct (kid_nonnull _ _ (t_forest _ _ HT) d 0 Hz)|unfold dfuel; rewrite ED; pose proof (kids_fuel _ _ (t_forest _ _ HT) d); lia]|].
    intros c s' [-> Hc]. fold (from idx (kid_entry <$> K d)). destruct (from idx (kid_entry <$> K d)) as [|e l]; [subst c; by wp_steps|]. destruct Hc as (Hne & Hin & ->).
    rewrite (proj2 (Z.eqb_neq c 0) Hne). destruct (kid_some _ _ (t_forest _ _ HT) d c Hin) as (dp & dc & _ & Hdc & _). wp_step. eapply wp_dent; [by rewrite ED|]. wp_steps. split; [done|].
    rewrite Forall_fmap in Hfit. rewrite Forall_forall in Hfit. destruct (Hfit c Hin) as [_ Hs]. unfold kid_entry in *. rewrite Hdc in *. cbn in *. rewrite u64_small; [done|lia].
Qed.

Lemma entry_live e : e ∈ entries -> e.2 <> 0 /\ is_Some (fs_inodes s0 !! e.2).
Proof.
  intros He. destruct HL as [HT Hn _ _ Hd _ _ _]. assert (forall m, is_Some (fs_inodes s0 !! m) -> m <> 0 /\ is_Some (fs_inodes s0 !! m)) as Hlive.
  { intros m [y Hy]. split; [intros ->; by rewrite (proj1 (t_null _ _ HT)) in Hy|eauto]. }
  apply Hlive. unfold entries in He. apply elem_of_cons in He as [->|[->|He]%elem_of_cons]; cbn; [by eauto| |].
  - unfold parent_inode. destruct (fs_dentries s0 !! d_parent dd) as [pd|] eqn:Hp; [|by eauto]. destruct (t_node _ _ HT _ pd Hp) as (y & ? & _). eauto.
  - apply list_elem_of_fmap in He as (c & -> & Hin). destruct (kid_some _ _ (t_forest _ _ HT) d c Hin) as (_ & dc & _ & Hdc & _). unfold kid_entry. rewrite Hdc. destruct (t_node _ _ HT _ dc Hdc) as (y & ? & _). eauto.
Qed.

Definition shown (legacy : bool) (es : list entry) : list Z := concat (entry_bytes legacy <$> es).

(** The first of what is left would not fit. *)
Definition stuck (legacy : bool) (space : Z) (rest : list entry) : Prop :=
  match rest with [] => True | e :: _ => space < reclen legacy e.1.2 end.

(** Entries were put from [pos] on into the buffer at [dirp], and the offset
    of [f] moved behind them. *)
Definition listed (legacy : bool) (k : kern U) (f : Z) (ff : file) (dirp count pos r : Z) (k' : kern U) : Prop :=
  exists done_ rest o, from (f_offset ff) entries = done_ ++ rest /\ from o entries = rest /\ k_fs k' = with_file f (set_f_offset o ff) (k_fs k)
    /\ k_sent k' = k_sent k /\ um_inv (k_mem k') /\ stored (k_mem k) (k_mem k') (dirp + pos) (shown legacy done_)
    /\ let end_ := pos + Z.of_nat (length (shown legacy done_)) in
       end_ <= count /\ stuck legacy (count - end_) rest /\ r = match rest with [] => end_ | _ => if end_ =? 0 then - EINVAL else end_ end.

Lemma listed_none legacy k f ff dirp count pos : um_inv (k_mem k) -> fs_files (k_fs k) !! f = Some ff -> pos <= count ->
  stuck legacy (count - pos) (from (f_offset ff) entries) -> listed legacy k f ff dirp count pos (match from (f_offset ff) entries with [] => pos | _ => if pos =? 0 then - EINVAL else pos end) k.
Proof.
  intros Hi Hf Hp Hs. exists [], (from (f_offset ff) entries), (f_offset ff). cbn [shown concat fmap list_fmap length app]. rewrite Z.add_0_r. split_and!; try done.
  - symmetry. apply with_file_id. by destruct ff.
  - split; [|done]. intros y. rewrite decide_False by (cbn; lia). done.
Qed.

Lemma listed_cons legacy k k1 k' f ff dirp count pos r e rest :
  fs_files (k_fs k) !! f = Some ff -> from (f_offset ff) entries = e :: rest -> from (at_pos e + 1) entries = rest -> 24 <= Z.of_nat (length (entry_bytes legacy e)) -> 0 <= pos ->
  k_fs k1 = with_file f (set_f_offset (at_pos e + 1) ff) (k_fs k) -> k_sent k1 = k_sent k -> stored (k_mem k) (k_mem k1) (dirp + pos) (entry_bytes legacy e) ->
  listed legacy k1 f (set_f_offset (at_pos e + 1) ff) dirp count (pos + Z.of_nat (length (entry_bytes legacy e))) r k' -> listed legacy k f ff dirp count pos r k'.
Proof.
  intros Hf E1 E2 Hl Hp Ef Es [S1 W1] (dn & rs & o & F1 & F2 & Fk & Fs & Fi & [S2 W2] & Hc & Hst & Hr). cbn [f_offset set_f_offset] in F1. exists (e :: dn), rs, o.
  assert (Z.of_nat (length (shown legacy (e :: dn))) = Z.of_nat (length (entry_bytes legacy e)) + Z.of_nat (length (shown legacy dn))) as EL by (unfold shown; rewrite fmap_cons; cbn [concat]; rewrite length_app; lia).
  rewrite EL, Z.add_assoc. split_and!; try done.
  - rewrite E1. cbn. congruence.
  - rewrite Fk, Ef. unfold with_file. cbn. by rewrite insert_insert_eq.
  - congruence.
  - split; [|auto]. intros y. rewrite S2, S1, EL. change (shown legacy (e :: dn)) with (entry_bytes legacy e ++ shown legacy dn). repeat case_decide; try lia; [| |done].
    + rewrite lookup_app_r by lia. f_equal. lia.
    + by rewrite lookup_app_l by lia.
Qed.

Lemma dents_loop_ok legacy fuel k f ff dirp count pos :
  um_inv (k_mem k) -> same_dirs (k_fs k) -> fs_files (k_fs k) !! f = Some ff -> 0 <= f_offset ff -> can_write (k_mem k) dirp count -> 0 <= pos <= count -> count - pos < 24 * Z.of_nat fuel ->
  wp (dents_loop fuel f n d dirp count legacy pos) (listed legacy k f ff dirp count pos) k.
Proof.
  revert k ff pos; induction fuel as [|fuel IH]; intros k ff pos Hi Hs Hf Ho Hw Hp Hfu; [lia|]. cbn [dents_loop].
  wp_step. apply wp_on_fs. eapply wp_fil; [done|]. wp_step. apply wp_on_fs. eapply wp_mono; [apply entry_at_ok; done|]. intros r s' [-> ->].
  destruct k as [ks ku kk]. cbn [k_fs k_mem set_k_fs k_sent] in *. set (k := MkKern ks ku kk).
  destruct (from (f_offset ff) entries) as [|e rest] eqn:Ef.
  { wp_steps. pose proof (listed_none legacy k f ff dirp count pos Hi Hf (proj2 Hp)) as HN. rewrite Ef in HN. by apply HN. }
  assert (e ∈ entries) as He by (apply (list_elem_of_filter (fun e => f_offset ff <= at_pos e)); unfold from in Ef; rewrite Ef; left).
  destruct (from_next 0 _ _ _ _ (ls_rising HL) Ef) as [En Hge]. pose proof (ls_fit HL) as Hfit. rewrite Forall_forall in Hfit. destruct (Hfit e He) as [Hname Hpos].
  destruct (entry_live e He) as [Hne [y Hy]]. cbv zeta. destruct (Z.ltb_spec count (pos + reclen legacy e.1.2)) as [Hlt|Hge2].
  { wp_steps. pose proof (listed_none legacy k f ff dirp count pos Hi Hf (proj2 Hp)) as HN. rewrite Ef in HN. apply HN. cbn. lia. }
  wp_step. apply wp_on_fs. rewrite (proj2 (Z.eqb_neq _ _) Hne). wp_step. pose proof Hy as Hy'. rewrite <- (proj1 Hs) in Hy'. eapply wp_ino; [exact Hy'|]. wp_step. cbn [fst snd].
  destruct (record_ok legacy e.1.2 (i_ino y) (itype y) (at_pos e + 1) Hname) as (Hlen & H24 & Hby).
  assert (entry_bytes legacy e = record legacy e.1.2 (i_ino y) (itype y) (at_pos e + 1)) as Eb by (unfold entry_bytes; by rewrite Hy). rewrite <- Eb in *.
  wp_step. apply wp_on_user. apply wp_store_bytes; [done|done|intros z Hz; apply Hw; lia|]. intros u Iu Su. wp_step. apply wp_on_fs. eapply wp_fset; [exact Hf|].
  rewrite <- Hlen. eapply wp_mono; [apply (IH _ (set_f_offset (at_pos e + 1) ff)); cbn; [done|done|apply lookup_insert_eq|lia|intros z Hz; by apply Su, Hw|lia|lia]|].
  intros r k' HL'. eapply listed_cons; [exact Hf|exact Ef|exact En|lia|lia|..|exact HL']; [done|done|exact Su].
Qed.
End Dents.

Section Call.
  Context {U : Type} `{UM : UserMem U} `{DR : Drivers} `{DV : Devices}.

(** C11: getdents64 and getdents on a directory return, for every buffer. They
    fill it with the records of the entries from the file's position on, in
    order and without gaps, as many as fit: [.], [..] and the children. Memory
    outside the records stays as it is, the position moves behind the last
    entry shown, so the next call goes on with the one after, and the result
    is the number of bytes filled; if not even one fits, EINVAL. *)
Theorem getdents_lists_in_order (legacy : bool) (k : kern U) fd f ff n d x dd K dirp count :
  um_inv (k_mem k) -> opened (k_fs k) fd f ff n x -> listable (k_fs k) n d x dd K -> 0 <= f_offset ff -> 0 <= count < 2 ^ 63 ->
  wp (do_getdents fd dirp count legacy) (fun r k' => r = - EFAULT /\ k_fs k' = k_fs k
    \/ exists u, grows (k_mem k) u /\ listed (k_fs k) n d dd K legacy (set_k_mem u k) f ff (u64 dirp) count 0 r k') k.
Proof.
  intros Hi HO HL Ho Hc. pose proof HO as [_ _ H0 Hf <- Hx]. unfold do_getdents. wp_step. apply wp_on_fs. eapply wp_fd_file; [exact HO|].
  rewrite (proj2 (Z.eqb_neq _ _) H0). wp_step. apply wp_on_fs. eapply wp_fil; [done|]. wp_step. apply wp_on_fs. eapply wp_ino; [done|].
  rewrite (ls_dir _ _ _ _ _ _ HL), (ls_ptr _ _ _ _ _ _ HL), (proj2 (Z.ltb_ge count 0)) by lia. cbn [Z.eqb Pos.eqb]. wp_step. apply wp_on_user.
  destruct k as [ks ku kk]. cbn [k_fs k_mem set_k_fs k_sent] in *. apply wp_user_ok; [done|apply u64_bound|lia|..].
  { intros u _ _. wp_steps. by left. }
  intros u Iu Gu _ Cw. cbn [negb]. eapply wp_mono; [eapply (dents_loop_ok ks _ d x dd K HL); [done|done|exact Hf|done|by apply Cw|lia|lia_div]|].
  intros r k' HL'. right. by exists u.
Qed.
End Call.

(** /, with a and b in it. *)
Lemma names8_listable : listable names8 1 2 root1 (MkDentry "/" 1 0 4 0 1) kids1.
Proof.
  split; [|done..| |].
  - apply (tree_calm names1 names8 kids1 names1_tree). by split_and!.
  - vm_compute. repeat split; discriminate.
  - repeat constructor; by vm_compute.
Qed.

Lemma getdents_lists_in_order_witness :
  wp (do_getdents (DV := no_devices) 1 4096 64 false) (fun r k' => r = - EFAULT /\ k_fs k' = k_fs kern8
    \/ exists u, grows (k_mem kern8) u /\ listed (k_fs kern8) 1 2 (MkDentry "/" 1 0 4 0 1) kids1 false (set_k_mem u kern8) 9 file9 (u64 4096) 64 0 r k') kern8.
Proof.
  apply (getdents_lists_in_order false kern8 1 9 file9 1 2 root1 (MkDentry "/" 1 0 4 0 1) kids1 4096 64); [apply flat64_inv| |apply names8_listable|done|done].
  split; [done|by exists proc8|done..].
Defined.
