(* ===== verification/FsStat.v ===== *)
(** * stat

    The calls of [FsIo] that report an inode lay the fields out the way user
    programs read struct stat, and count a directory's links as 2 and one for
    each subdirectory. *)
From S2P Require Import Prelude Types UserMem Cred Pmm Pipe VfsState Forest Ramfs Vfs VfsTree VfsOps VfsNames VfsPath File FileRefs Fds FdRefs FsCalls FsSafe FsIo FsIoOk FsDents.

(** struct stat of x86-64: offset, width, value. *)
Definition stat_fields (nlink : Z) (x : inode) : list (Z * Z * Z) :=
  [(0, 8, i_dev x); (8, 8, i_ino x); (16, 8, nlink);
   (24, 4, Z.lor (nth (Z.to_nat (itype x)) type_bits 0) (i_mode x)); (28, 4, i_uid x); (32, 4, i_gid x); (40, 8, i_rdev x);
   (48, 8, i_length x); (56, 8, 4096); (64, 8, u32 (i_length x + 511) / 512);
   (72, 8, i_atime x / 1000000000); (80, 8, i_atime x mod 1000000000);
   (88, 8, i_mtime x / 1000000000); (96, 8, i_mtime x mod 1000000000);
   (104, 8, i_ctime x / 1000000000); (112, 8, i_ctime x mod 1000000000)].

Lemma kstat_length nlink x : length (kstat_bytes nlink x) = 144%nat.
Proof. done. Qed.

Lemma kstat_byte nlink x : Forall byte (kstat_bytes nlink x).
Proof. unfold kstat_bytes. cbv zeta. repeat first [apply le_bytes_byte | apply zeros_bytes | apply Forall_app_2]. Qed.

Lemma kstat_layout nlink x : Forall (fun e => take (Z.to_nat e.1.2) (skipn (Z.to_nat e.1.1) (kstat_bytes nlink x)) = le_bytes (Z.to_nat e.1.2) e.2) (stat_fields nlink x).
Proof. repeat constructor. Qed.

Section Stat.
  Context {U : Type} `{UM : UserMem U} `{DR : Drivers} `{DV : Devices}.

(** Subdirectories among the children of [d]. *)
Definition subdir (s : fs) (c : Z) : Prop :=
  match fs_dentries s !! c with Some dc => match fs_inodes s !! d_inode dc with Some y => is_dir y = true | None => False end | None => False end.
#[local] Instance subdir_dec s c : Decision (subdir s c).
Proof. unfold subdir. repeat case_match; apply _. Defined.

Definition subdirs (s : fs) (l : list Z) : Z := Z.of_nat (length (filter (subdir s) l)).

Lemma count_dirs_ok s K p l c fuel j : tree s K -> chain (fs_dentries s) p c l -> 0 ∉ l -> (length l < fuel)%nat -> 0 <= j -> j + Z.of_nat (length l) < 2 ^ 64 ->
  wp (count_dirs fuel c j) (fun r s' => s' = s /\ r = j + subdirs s l) s.
Proof.
  intros HT. revert c fuel j; induction l as [|y l IH]; intros c fuel j Hc H0 Hf Hj Hb; (destruct fuel as [|fuel]; [simpl in Hf; lia|]); cbn [count_dirs].
  - simpl in Hc. subst c. rewrite Z.eqb_refl. wp_steps. split; [done|]. unfold subdirs. cbn. lia.
  - destruct Hc as (-> & dy & Hy & _ & Hc). apply not_elem_of_cons in H0 as [Hne H0]. rewrite (proj2 (Z.eqb_neq y 0)) by done. wp_step. eapply wp_dent; [done|].
    destruct (t_node _ _ HT y dy Hy) as (x & Hx & _). unfold node_type. wp_step. wp_step. eapply wp_ino; [done|]. wp_step. cbn [length] in Hf, Hb.
    assert (subdirs s (y :: l) = (if itype x =? VFS_DIRECTORY then 1 else 0) + subdirs s l) as ->.
    { unfold subdirs. rewrite filter_cons. assert (subdir s y <-> (itype x =? VFS_DIRECTORY) = true) as E by (unfold subdir; by rewrite Hy, Hx). destruct (itype x =? VFS_DIRECTORY).
      - rewrite decide_True by (by apply E). cbn [length]. lia.
      - rewrite decide_False by (intros H; by apply E in H). lia. }
    eapply wp_mono; [apply IH; [done|done|lia|..]|]; destruct (itype x =? VFS_DIRECTORY); rewrite ?u64_small by lia; try lia; intros r s' [-> ->]; (split; [done|lia]).
Qed.

(** What the link count of an inode is reported as. *)
Definition reported_links (s : fs) (K : Z -> list Z) (x : inode) : Z :=
  if is_dir x then match i_ptr x with PDentry d => 2 + subdirs s (K d) | _ => 0 end else i_nlink x.

Lemma links_of_ok s K n x : tree s K -> Z.of_nat (size (fs_dentries s)) < 2 ^ 63 -> fs_inodes s !! n = Some x -> (is_dir x = true -> i_ptr x <> PNull) -> wp (links_of n) (fun r s' => s' = s /\ r = reported_links s K x) s.
Proof.
  intros HT Hfew Hx Hd. unfold links_of, reported_links. wp_step. eapply wp_ino; [done|]. fold (is_dir x). destruct (is_dir x) eqn:Ed; cbn [negb]; [|by wp_steps].
  destruct (t_dir _ _ HT n x Hx Ed) as [E|(d & dd & E & Hdd & _)]; [by destruct (Hd eq_refl)|]. rewrite E. wp_step. eapply wp_dent; [done|]. do 2 wp_step.
  pose proof (kids_fuel _ _ (t_forest _ _ HT) d). apply (count_dirs_ok s K d); [done|by apply (t_forest _ _ HT)|intros Hz; by destruct (kid_nonnull _ _ (t_forest _ _ HT) d 0 Hz)|unfold dfuel; lia|lia|lia].
Qed.

(** A directory that was removed while it is open has no dentry any more;
    asking for its links follows NULL. *)
Lemma removed_directory_faults s n x : fs_inodes s !! n = Some x -> is_dir x = true -> i_ptr x = PNull -> links_of n s = None.
Proof. intros Hx Hd Hp. unfold is_dir in Hd. unfold links_of, ino, get, lift, mbind, M_bind. rewrite Hx, Hd, Hp. done. Qed.

(** The value of [w] bytes at [a]. *)
Definition value_at (u : U) (a w v : Z) : Prop := forall i, 0 <= i < w -> peek u (a + i) = le_bytes (Z.to_nat w) v !! Z.to_nat i.

(** C27: fstat returns for every descriptor of a live inode. Either the buffer
    cannot be written, or every field of struct stat is at its place in it
    with the inode's value: number, size, times, owner, the mode with the type
    bits, and the links, which for a directory are 2 and one for each
    subdirectory. The 144 bytes are all it writes, and no inode or file
    changes. *)
Theorem fstat_reports_the_inode (k : kern U) fd f ff n x K st :
  um_inv (k_mem k) -> opened (k_fs k) fd f ff n x -> tree (k_fs k) K -> Z.of_nat (size (fs_dentries (k_fs k))) < 2 ^ 63 -> (is_dir x = true -> i_ptr x <> PNull) ->
  wp (sys_fstat fd st) (fun r k' => k_fs k' = k_fs k /\ (r = - EFAULT \/ r = 0
    /\ Forall (fun e => value_at (k_mem k') (u64 st + e.1.1) e.1.2 e.2) (stat_fields (reported_links (k_fs k) K x) x)
    /\ forall y b, ~ (u64 st <= y < u64 st + 144) -> peek (k_mem k) y = Some b -> peek (k_mem k') y = Some b)) k.
Proof.
  intros Hi HO HT Hs Hd. pose proof HO as [_ _ H0 Hf <- Hx]. unfold sys_fstat. wp_step. apply wp_on_fs. eapply wp_fd_file; [exact HO|]. rewrite (proj2 (Z.eqb_neq _ _) H0).
  wp_step. apply wp_on_fs. eapply wp_fil; [done|]. unfold fill_stat. wp_step. apply wp_on_user. destruct k as [ks ku kk]. cbn [k_fs k_mem set_k_fs k_sent] in *.
  apply wp_user_ok; [done|apply u64_bound|lia|..].
  { intros u _ _. wp_steps. split; [done|by left]. }
  intros u Iu [Gu _] _ Cw. cbn [negb]. wp_step. apply wp_on_fs. eapply wp_mono; [by apply (links_of_ok ks K)|]. intros r s' [-> ->]. wp_step. apply wp_on_fs. eapply wp_ino; [done|].
  set (v := reported_links ks K x). wp_step. apply wp_on_user. apply wp_store_bytes; [done|apply kstat_byte|by apply Cw|]. intros u' _ [Su _]. wp_steps. split; [done|]. right. split_and!; [done| |].
  - assert (Forall (fun e => 0 <= e.1.1 /\ 0 <= e.1.2 /\ e.1.1 + e.1.2 <= 144) (stat_fields v x)) as Hin by (repeat constructor; done).
    eapply Forall_impl; [apply Forall_and; split; [apply kstat_layout|exact Hin]|].
    intros e [El Hb] i Hij. cbn [k_mem set_k_mem]. rewrite Su, kstat_length, decide_True by lia. rewrite <- El, lookup_take_lt, lookup_drop by lia. f_equal. lia.
  - intros y b Hy Hb. cbn [k_mem set_k_mem]. rewrite Su, kstat_length, decide_False by lia. by apply Gu.
Qed.
End Stat.

Definition kern9 : kern paged := MkKern names8 (page_of []) [].

(** The root directory, on descriptor 1; b is in it. *)
Lemma fstat_reports_the_inode_witness :
  reported_links names8 kids1 root1 = 3
  /\ wp (sys_fstat 1 4096) (fun r k' => k_fs k' = k_fs kern9 /\ (r = - EFAULT \/ r = 0
    /\ Forall (fun e => value_at (k_mem k') (u64 4096 + e.1.1) e.1.2 e.2) (stat_fields (reported_links (k_fs kern9) kids1 root1) root1)
    /\ forall y b, ~ (u64 4096 <= y < u64 4096 + 144) -> peek (k_mem kern9) y = Some b -> peek (k_mem k') y = Some b)) kern9.
Proof.
  split; [by vm_compute|]. apply (fstat_reports_the_inode kern9 1 9 file9 1 root1 kids1 4096); [by apply page_of_inv| |apply (ls_tree _ _ _ _ _ _ names8_listable)|by vm_compute|done].
  split; [done|by exists proc8|done..].
Defined.
