(* ===== verification/Vga.v ===== *)
(** * The console's terminal emulator: src/src/kernel/video/vga.c

    The emulator's variables, every function of the file, and the VGA text
    mode's memory. On any other screen the calls of its draw function are
    recorded, and its character widths are a field of the screen, as in
    screen_t. An int that overflows is a fault ([as_int]); products of rows and
    columns, and differences of numbers that are not negative, stay far below
    that and are written plainly. *)
From S2P Require Import Prelude CString Printf.

Notation TEXT_COLS := 80 (only parsing).
Notation TEXT_ROWS := 25 (only parsing).
Notation MAX_PARAMS := 16 (only parsing).
Notation DEFAULT_FG := 7 (only parsing).
Notation DEFAULT_BG := 0 (only parsing).
Notation VCELL_TAIL := 4294967295 (only parsing).

(** ** Tables *)

Definition ansi : list Z :=
  [0x000000; 0xAA0000; 0x00AA00; 0xAA5500; 0x0000AA; 0xAA00AA; 0x00AAAA; 0xAAAAAA;
   0x555555; 0xFF5555; 0x55FF55; 0xFFFF55; 0x5555FF; 0xFF55FF; 0x55FFFF; 0xFFFFFF].

Definition ansi_vga : list Z := [0; 4; 2; 6; 1; 5; 3; 7].

(** Indexing an array: out of bounds is a fault. *)
Definition elem {A} (l : list A) (i : Z) : option A := if i <? 0 then None else l !! Z.to_nat i.

Definition level : list Z := [0; 95; 135; 175; 215; 255].

Definition palette (i : Z) : option Z :=
  if i <? 16 then elem ansi i
  else if i <? 232 then
    let i := i - 16 in
    r ← elem level (i / 36); g ← elem level (i / 6 mod 6); b ← elem level (i mod 6);
    Some (Z.lor (Z.lor (Z.shiftl r 16) (Z.shiftl g 8)) b)
  else
    let i := 8 + (i - 232) * 10 in Some (Z.lor (Z.lor (Z.shiftl i 16) (Z.shiftl i 8)) i).

Definition channel (rgb k : Z) : Z := Z.land (Z.shiftr rgb k) 255.

Definition distance (rgb c : Z) : Z :=
  let d k := channel rgb k - channel c k in d 16 * d 16 + d 8 * d 8 + d 0 * d 0.

(** The loop over the 16 colors: the best so far and its distance. *)
Fixpoint best_of (rgb : Z) (l : list Z) (i best bestd : Z) : Z :=
  match l with
  | [] => best
  | c :: l' =>
      let d := distance rgb c in
      if (bestd <? 0) || (d <? bestd) then best_of rgb l' (i + 1) i d else best_of rgb l' (i + 1) best bestd
  end.

Definition nearest16 (rgb : Z) : option Z :=
  let best := best_of rgb ansi 0 0 (-1) in
  c ← elem ansi_vga (Z.land best 7); Some (Z.lor c (Z.land best 8)).

Definition cp437 : list Z :=
  [0x00C7; 0x00FC; 0x00E9; 0x00E2; 0x00E4; 0x00E0; 0x00E5; 0x00E7; 0x00EA; 0x00EB; 0x00E8; 0x00EF;
   0x00EE; 0x00EC; 0x00C4; 0x00C5; 0x00C9; 0x00E6; 0x00C6; 0x00F4; 0x00F6; 0x00F2; 0x00FB; 0x00F9;
   0x00FF; 0x00D6; 0x00DC; 0x00A2; 0x00A3; 0x00A5; 0x20A7; 0x0192; 0x00E1; 0x00ED; 0x00F3; 0x00FA;
   0x00F1; 0x00D1; 0x00AA; 0x00BA; 0x00BF; 0x2310; 0x00AC; 0x00BD; 0x00BC; 0x00A1; 0x00AB; 0x00BB;
   0x2591; 0x2592; 0x2593; 0x2502; 0x2524; 0x2561; 0x2562; 0x2556; 0x2555; 0x2563; 0x2551; 0x2557;
   0x255D; 0x255C; 0x255B; 0x2510; 0x2514; 0x2534; 0x252C; 0x251C; 0x2500; 0x253C; 0x255E; 0x255F;
   0x255A; 0x2554; 0x2569; 0x2566; 0x2560; 0x2550; 0x256C; 0x2567; 0x2568; 0x2564; 0x2565; 0x2559;
   0x2558; 0x2552; 0x2553; 0x256B; 0x256A; 0x2518; 0x250C; 0x2588; 0x2584; 0x258C; 0x2590; 0x2580;
   0x03B1; 0x00DF; 0x0393; 0x03C0; 0x03A3; 0x03C3; 0x00B5; 0x03C4; 0x03A6; 0x0398; 0x03A9; 0x03B4;
   0x221E; 0x03C6; 0x03B5; 0x2229; 0x2261; 0x00B1; 0x2265; 0x2264; 0x2320; 0x2321; 0x00F7; 0x2248;
   0x00B0; 0x2219; 0x00B7; 0x221A; 0x207F; 0x00B2; 0x25A0; 0x00A0].

Fixpoint index_of (u : Z) (l : list Z) (i : Z) : option Z :=
  match l with [] => None | c :: l' => if c =? u then Some i else index_of u l' (i + 1) end.

Definition glyph (u : Z) : Z :=
  if u <? 0x80 then u else
  match index_of u cp437 0 with
  | Some i => 0x80 + i
  | None =>
      if u =? 0x0151 then 0x94 else if u =? 0x0171 then 0x81 else if u =? 0x0150 then 0x99 else if u =? 0x0170 then 0x9A
      else if u =? 0x00C1 then 65 else if u =? 0x00CD then 73 else if u =? 0x00D3 then 79 else if u =? 0x00DA then 85
      else 63
  end.

(** ** State *)

Record vcell := MkCell { ch : Z; fg : Z; bg : Z }.

#[global] Instance vcell_eq_dec : EqDecision vcell.
Proof. solve_decision. Defined.

(** [s_text]: this is text_screen; [s_cells]: the widths, if not all are 1. *)
Record screen := MkScreen { s_cols : Z; s_rows : Z; s_text : bool; s_cells : option (Z -> Z) }.

Definition text_screen : screen := MkScreen TEXT_COLS TEXT_ROWS true None.

(** The colors of new cells: a palette index, or -1 for [fgc]/[bgc]. *)
Record pen := MkPen { fgi : Z; bgi : Z; fgc : Z; bgc : Z; bold : bool; reverse_ : bool }.

Inductive esc_state := NORMAL | ESC | CSI.

(** Where in an escape sequence or a UTF-8 sequence the input is. *)
Record parser := MkParser { state : esc_state; params : list Z; nparams : Z; private_seq : bool; utf8 : Z; utf8_left : Z }.

(** What leaves the emulator. *)
Inductive out := Draw (c r : Z) (v : vcell) (cursor : bool) | HwCursor (pos : Z) | Reply (s : list Z) | Serial (c : Z).

Record vga := MkVga {
  scr : screen;
  want : list vcell;
  shown : list vcell;
  row : Z; col : Z;
  saved_row : Z; saved_col : Z;
  the_pen : pen;
  cursor_on : bool;
  cur_row : Z; cur_col : Z;
  the_parser : parser;
  reply : bool;
  vmem : list Z;
  outs : list out;
}.

Definition set_grids (w s : list vcell) (v : vga) : vga := MkVga (scr v) w s (row v) (col v) (saved_row v) (saved_col v) (the_pen v) (cursor_on v) (cur_row v) (cur_col v) (the_parser v) (reply v) (vmem v) (outs v).
Definition set_pos (r c : Z) (v : vga) : vga := MkVga (scr v) (want v) (shown v) r c (saved_row v) (saved_col v) (the_pen v) (cursor_on v) (cur_row v) (cur_col v) (the_parser v) (reply v) (vmem v) (outs v).
Definition set_saved (r c : Z) (v : vga) : vga := MkVga (scr v) (want v) (shown v) (row v) (col v) r c (the_pen v) (cursor_on v) (cur_row v) (cur_col v) (the_parser v) (reply v) (vmem v) (outs v).
Definition set_pen (p : pen) (v : vga) : vga := MkVga (scr v) (want v) (shown v) (row v) (col v) (saved_row v) (saved_col v) p (cursor_on v) (cur_row v) (cur_col v) (the_parser v) (reply v) (vmem v) (outs v).
Definition set_cursor_on (b : bool) (v : vga) : vga := MkVga (scr v) (want v) (shown v) (row v) (col v) (saved_row v) (saved_col v) (the_pen v) b (cur_row v) (cur_col v) (the_parser v) (reply v) (vmem v) (outs v).
Definition set_cur (r c : Z) (v : vga) : vga := MkVga (scr v) (want v) (shown v) (row v) (col v) (saved_row v) (saved_col v) (the_pen v) (cursor_on v) r c (the_parser v) (reply v) (vmem v) (outs v).
Definition set_parser (p : parser) (v : vga) : vga := MkVga (scr v) (want v) (shown v) (row v) (col v) (saved_row v) (saved_col v) (the_pen v) (cursor_on v) (cur_row v) (cur_col v) p (reply v) (vmem v) (outs v).
Definition set_reply (b : bool) (v : vga) : vga := MkVga (scr v) (want v) (shown v) (row v) (col v) (saved_row v) (saved_col v) (the_pen v) (cursor_on v) (cur_row v) (cur_col v) (the_parser v) b (vmem v) (outs v).
Definition set_vmem (m : list Z) (v : vga) : vga := MkVga (scr v) (want v) (shown v) (row v) (col v) (saved_row v) (saved_col v) (the_pen v) (cursor_on v) (cur_row v) (cur_col v) (the_parser v) (reply v) m (outs v).
Definition set_outs (l : list out) (v : vga) : vga := MkVga (scr v) (want v) (shown v) (row v) (col v) (saved_row v) (saved_col v) (the_pen v) (cursor_on v) (cur_row v) (cur_col v) (the_parser v) (reply v) (vmem v) l.
Definition set_scr (s : screen) (v : vga) : vga := MkVga s (want v) (shown v) (row v) (col v) (saved_row v) (saved_col v) (the_pen v) (cursor_on v) (cur_row v) (cur_col v) (the_parser v) (reply v) (vmem v) (outs v).

(** cols and rows are always those of the screen. *)
Definition cols (v : vga) : Z := s_cols (scr v).
Definition rows (v : vga) : Z := s_rows (scr v).

Definition out_ (o : out) : M vga unit := modify (fun v => set_outs (outs v ++ [o]) v).
Definition want_at (i : Z) : M vga vcell := v ← get; lift (elem (want v) i).
Definition shown_at (i : Z) : M vga vcell := v ← get; lift (elem (shown v) i).
Definition set_want (i : Z) (c : vcell) : M vga unit := _ ← want_at i; modify (fun v => set_grids (<[Z.to_nat i := c]> (want v)) (shown v) v).
Definition set_shown (i : Z) (c : vcell) : M vga unit := _ ← shown_at i; modify (fun v => set_grids (want v) (<[Z.to_nat i := c]> (shown v)) v).

(** ** Drawing *)

(** The word of video memory that shows a cell. *)
Definition text_word (v : vcell) : option Z :=
  let g := glyph (if ch v =? VCELL_TAIL then 32 else ch v) in
  f ← nearest16 (fg v); b ← nearest16 (bg v);
  Some (u16 (Z.lor g (Z.shiftl (Z.lor f (Z.shiftl b 4)) 8))).

Definition text_draw (c r : Z) (v : vcell) : M vga unit :=
  w ← lift (text_word v);
  s ← get;
  let i := r * TEXT_COLS + c in
  _ ← lift (elem (vmem s) i);
  modify (set_vmem (<[Z.to_nat i := w]> (vmem s))).

Definition draw (c r : Z) (v : vcell) (cursor : bool) : M vga unit :=
  s ← get; if s_text (scr s) then text_draw c r v else out_ (Draw c r v cursor).

(** The column the cursor shows in: the last one while a line is full. *)
Definition at_col (v : vga) : Z := if col v <? cols v then col v else cols v - 1.

Definition move_hw_cursor : M vga unit := v ← get; out_ (HwCursor (u16 (row v * TEXT_COLS + at_col v))).

Definition pen_colors (p : pen) : option (Z * Z) :=
  f ← (if 0 <=? fgi p then palette (if bold p && (fgi p <? 8) then fgi p + 8 else fgi p) else Some (fgc p));
  b ← (if 0 <=? bgi p then palette (bgi p) else Some (bgc p));
  Some (f, b).

Definition blank (c : Z) : M vga vcell :=
  v ← get;
  k ← lift (pen_colors (the_pen v));
  mret (if reverse_ (the_pen v) then MkCell c (snd k) (fst k) else MkCell c (fst k) (snd k)).

Definition same (a b : vcell) : bool := (ch a =? ch b) && (fg a =? fg b) && (bg a =? bg b).

Definition wide (s : screen) (c : Z) : bool :=
  match s_cells s with Some f => negb (c =? VCELL_TAIL) && (f c =? 2) | None => false end.

Definition refresh1 (i : Z) : M vga unit :=
  w ← want_at i;
  s ← shown_at i;
  if same w s then mret tt else
  _ ← set_shown i w;
  v ← get;
  if negb (ch w =? VCELL_TAIL) then draw (i mod cols v) (i / cols v) w false else
  p ← (if i mod cols v =? 0 then mret None else p ← want_at (i - 1); mret (if wide (scr v) (ch p) then Some p else None));
  match p with
  | None => draw (i mod cols v) (i / cols v) (MkCell 32 (fg w) (bg w)) false
  | Some p => draw ((i - 1) mod cols v) (i / cols v) p false
  end.

Definition refresh (from to : Z) : M vga unit := for_each (range from to) refresh1.

(** Draws the cell under the cursor, plain or inverted. *)
Definition draw_shown (c r : Z) (cursor : bool) : M vga unit :=
  v ← get; s ← shown_at (r * cols v + c); draw c r s cursor.

Definition place_cursor : M vga unit :=
  v ← get;
  let r := row v in let c := at_col v in
  if s_text (scr v) then move_hw_cursor else
  _ ← when ((0 <=? cur_row v) && (negb (cur_row v =? r) || negb (cur_col v =? c) || negb (cursor_on v)))
        (_ ← draw_shown (cur_col v) (cur_row v) false; modify (fun v => set_cur (-1) (cur_col v) v));
  v ← get;
  when (cursor_on v && (cur_row v <? 0)) (_ ← draw_shown c r true; modify (set_cur r c)).

Definition uncursor : M vga unit :=
  v ← get;
  when (0 <=? cur_row v) (_ ← draw_shown (cur_col v) (cur_row v) false; modify (fun v => set_cur (-1) (cur_col v) v)).

Definition put (i : Z) (v : vcell) : M vga unit :=
  s ← get;
  _ ← when (i =? cur_row s * cols s + cur_col s) uncursor;
  w ← want_at i;
  from ← (if (ch w =? VCELL_TAIL) && negb (ch v =? VCELL_TAIL) && (0 <? i mod cols s)
          then b ← blank 32; _ ← set_want (i - 1) b; mret (i - 1) else mret i);
  w ← want_at i;
  tail ← (if wide (scr s) (ch w) && negb (wide (scr s) (ch v)) && negb ((i + 1) mod cols s =? 0)
          then x ← want_at (i + 1); mret (ch x =? VCELL_TAIL) else mret false);
  to ← (if (tail : bool) then b ← blank 32; _ ← set_want (i + 1) b; mret (i + 2) else mret (i + 1));
  _ ← set_want i v;
  refresh from to.

Definition clear_cells (from to : Z) : M vga unit :=
  b ← blank 32;
  _ ← for_each (range from to) (fun i => set_want i b);
  v ← get;
  let c := cur_row v * cols v + cur_col v in
  _ ← when ((0 <=? cur_row v) && (from <=? c) && (c <? to)) uncursor;
  refresh from to.

(** memmove of [n] cells. *)
Definition move_cells (g : list vcell) (dst src n : Z) : option (list vcell) :=
  let len := Z.of_nat (length g) in
  if (0 <=? dst) && (0 <=? src) && (0 <=? n) && (dst + n <=? len) && (src + n <=? len)
  then Some (take (Z.to_nat dst) g ++ take (Z.to_nat n) (drop (Z.to_nat src) g) ++ drop (Z.to_nat (dst + n)) g) else None.

Definition move_want (dst src n : Z) : M vga unit := v ← get; g ← lift (move_cells (want v) dst src n); modify (set_grids g (shown v)).

Definition shift_lines (top bottom n : Z) : M vga unit :=
  v ← get;
  let c := cols v in
  let len := (bottom - top) * c in
  _ ← (if 0 <? n then
         _ ← uncursor; _ ← move_want (top * c) ((top + n) * c) (len - n * c); clear_cells ((bottom - n) * c) (bottom * c)
       else if n <? 0 then
         let n := - n in
         _ ← uncursor; _ ← move_want ((top + n) * c) (top * c) (len - n * c); clear_cells (top * c) ((top + n) * c)
       else mret tt);
  refresh (top * c) (bottom * c).

Definition newline : M vga unit :=
  _ ← modify (fun v => set_pos (row v + 1) (col v) v);
  v ← get;
  when (row v =? rows v) (_ ← shift_lines 0 (rows v) 1; modify (fun v => set_pos (rows v - 1) (col v) v)).

Definition clamp (v lo hi : Z) : Z := if v <? lo then lo else if hi <? v then hi else v.

(** ** Escape sequences *)

(** How many parameters it used, and the new index and color. *)
Definition extended (q : parser) (i idx rgb : Z) : option (Z * Z * Z) :=
  let p k := elem (params q) (i + k) in
  five ← (if i + 2 <? nparams q then a ← p 1; Some (a =? 5) else Some false);
  if (five : bool) then a ← p 2; Some (2, clamp a 0 255, rgb) else
  two ← (if i + 4 <? nparams q then a ← p 1; Some (a =? 2) else Some false);
  if (two : bool) then
    r ← p 2; g ← p 3; b ← p 4;
    Some (4, -1, Z.lor (Z.lor (Z.shiftl (Z.land r 255) 16) (Z.shiftl (Z.land g 255) 8)) (Z.land b 255))
  else Some (0, idx, rgb).

(** One parameter: the pen after it, and how many more it used. *)
Definition sgr1 (q : parser) (i : Z) (k : pen) : option (pen * Z) :=
  p ← elem (params q) i;
  if p =? 0 then Some (MkPen DEFAULT_FG DEFAULT_BG (fgc k) (bgc k) false false, 0)
  else if p =? 1 then Some (MkPen (fgi k) (bgi k) (fgc k) (bgc k) true (reverse_ k), 0)
  else if p =? 22 then Some (MkPen (fgi k) (bgi k) (fgc k) (bgc k) false (reverse_ k), 0)
  else if p =? 7 then Some (MkPen (fgi k) (bgi k) (fgc k) (bgc k) (bold k) true, 0)
  else if p =? 27 then Some (MkPen (fgi k) (bgi k) (fgc k) (bgc k) (bold k) false, 0)
  else if (30 <=? p) && (p <=? 37) then Some (MkPen (p - 30) (bgi k) (fgc k) (bgc k) (bold k) (reverse_ k), 0)
  else if p =? 38 then '(n, idx, rgb) ← extended q i (fgi k) (fgc k); Some (MkPen idx (bgi k) rgb (bgc k) (bold k) (reverse_ k), n)
  else if p =? 39 then Some (MkPen DEFAULT_FG (bgi k) (fgc k) (bgc k) (bold k) (reverse_ k), 0)
  else if (40 <=? p) && (p <=? 47) then Some (MkPen (fgi k) (p - 40) (fgc k) (bgc k) (bold k) (reverse_ k), 0)
  else if p =? 48 then '(n, idx, rgb) ← extended q i (bgi k) (bgc k); Some (MkPen (fgi k) idx (fgc k) rgb (bold k) (reverse_ k), n)
  else if p =? 49 then Some (MkPen (fgi k) DEFAULT_BG (fgc k) (bgc k) (bold k) (reverse_ k), 0)
  else if (90 <=? p) && (p <=? 97) then Some (MkPen (p - 90 + 8) (bgi k) (fgc k) (bgc k) (bold k) (reverse_ k), 0)
  else if (100 <=? p) && (p <=? 107) then Some (MkPen (fgi k) (p - 100 + 8) (fgc k) (bgc k) (bold k) (reverse_ k), 0)
  else Some (k, 0).

Fixpoint sgr_loop (fuel : nat) (q : parser) (i : Z) (k : pen) : option pen :=
  match fuel with
  | O => None
  | S fuel =>
      if i <? (if nparams q =? 0 then 1 else nparams q) then '(k, n) ← sgr1 q i k; sgr_loop fuel q (i + n + 1) k else Some k
  end.

(** Each turn uses at least one of the 16 parameters. *)
Definition sgr : M vga unit := v ← get; k ← lift (sgr_loop 17 (the_parser v) 0 (the_pen v)); modify (set_pen k).

(** The cursor position report, written into a 24-byte buffer. *)
Definition buffer (n : Z) : mem := list_to_map ((fun i => (i, 0)) <$> range 0 n).

Fixpoint c_bytes (fuel : nat) (m : mem) (a : Z) : option (list Z) :=
  match fuel with
  | O => None
  | S fuel => c ← m !! a; if c =? 0 then Some [] else l ← c_bytes fuel m (a + 1); Some (c :: l)
  end.

Definition position_report (r c : Z) : option (list Z) :=
  m ← store (buffer 24) 0 27; m ← store m 1 91;
  m ← uitoa m (r + 1) 2 10; n ← strlen 24 m 2;
  let p := 2 + n in
  m ← store m p 59; m ← uitoa m (c + 1) (p + 1) 10; n ← strlen 24 m (p + 1);
  let p := p + 1 + n in
  m ← store m p 82; m ← store m (p + 1) 0; c_bytes 24 m 0.

(** row, and the cells from the cursor to the end of its line. *)
Definition here (v : vga) : Z := row v * cols v + at_col v.
Definition line_end (v : vga) : Z := (row v + 1) * cols v.

Definition delete_chars (h e n : Z) : M vga unit :=
  _ ← uncursor;
  _ ← for_each (range h e) (fun i => c ← (j ← lift (as_int (i + n)); if j <? e then want_at j else blank 32); set_want i c);
  refresh h e.

Definition insert_blanks (h e n : Z) : M vga unit :=
  _ ← uncursor;
  _ ← for_each (rev (range h e)) (fun i => c ← (if h <=? i - n then want_at (i - n) else blank 32); set_want i c);
  refresh h e.

Definition csi (c : Z) : M vga unit :=
  v ← get;
  let q := the_parser v in
  p0 ← lift (elem (params q) 0);
  p1 ← lift (elem (params q) 1);
  let n := if (0 <? nparams q) && (0 <? p0) then p0 else 1 in
  let h := here v in let e := line_end v in let all := cols v * rows v in
  let go r k := modify (set_pos r k) in
  if private_seq q then when ((p0 =? 25) && ((c =? 104) || (c =? 108))) (modify (set_cursor_on (c =? 104)))
  else if c =? 65 then go (clamp (row v - n) 0 (rows v - 1)) (col v)
  else if c =? 66 then r ← lift (as_int (row v + n)); go (clamp r 0 (rows v - 1)) (col v)
  else if c =? 67 then k ← lift (as_int (col v + n)); go (row v) (clamp k 0 (cols v - 1))
  else if c =? 68 then go (row v) (clamp (col v - n) 0 (cols v - 1))
  else if c =? 71 then go (row v) (clamp (n - 1) 0 (cols v - 1))
  else if c =? 100 then go (clamp (n - 1) 0 (rows v - 1)) (col v)
  else if (c =? 72) || (c =? 102) then
    go (clamp (n - 1) 0 (rows v - 1)) (clamp ((if (1 <? nparams q) && (0 <? p1) then p1 else 1) - 1) 0 (cols v - 1))
  else if c =? 74 then if p0 =? 0 then clear_cells h all else if p0 =? 1 then clear_cells 0 (h + 1) else clear_cells 0 all
  else if c =? 75 then if p0 =? 0 then clear_cells h e else if p0 =? 1 then clear_cells (row v * cols v) (h + 1) else clear_cells (row v * cols v) e
  else if c =? 88 then x ← lift (as_int (h + n)); clear_cells h (if x <? e then x else e)
  else if c =? 80 then delete_chars h e n
  else if c =? 64 then insert_blanks h e n
  else if c =? 76 then shift_lines (row v) (rows v) (- clamp n 1 (rows v - row v))
  else if c =? 77 then shift_lines (row v) (rows v) (clamp n 1 (rows v - row v))
  else if c =? 83 then shift_lines 0 (rows v) (clamp n 1 (rows v))
  else if c =? 84 then shift_lines 0 (rows v) (- clamp n 1 (rows v))
  else if c =? 109 then sgr
  else if c =? 115 then modify (set_saved (row v) (col v))
  else if c =? 117 then go (clamp (saved_row v) 0 (rows v - 1)) (clamp (saved_col v) 0 (cols v - 1))
  else if c =? 110 then
    if reply v && (p0 =? 6) then s ← lift (position_report (row v) (at_col v)); out_ (Reply s)
    else when (reply v && (p0 =? 5)) (out_ (Reply [27; 91; 48; 110]))
  else mret tt.

(** ** Characters *)

Definition print (u : Z) : M vga unit :=
  v ← get;
  let w := match s_cells (scr v) with Some f => f u | None => 1 end in
  b ← blank u;
  _ ← when (cols v <? col v + w) (_ ← modify (fun v => set_pos (row v) 0 v); newline);
  v ← get;
  _ ← put (row v * cols v + col v) b;
  _ ← when (w =? 2) (put (row v * cols v + col v + 1) (MkCell VCELL_TAIL (fg b) (bg b)));
  modify (fun v => set_pos (row v) (col v + w) v).

Definition on_parser (f : parser -> parser) : M vga unit := modify (fun v => set_parser (f (the_parser v)) v).
Definition set_state (s : esc_state) (q : parser) : parser := MkParser s (params q) (nparams q) (private_seq q) (utf8 q) (utf8_left q).
Definition set_utf8 (u left : Z) (q : parser) : parser := MkParser (state q) (params q) (nparams q) (private_seq q) u left.

Definition begin_csi (q : parser) : parser := MkParser CSI (replicate 16 0) 0 false (utf8 q) (utf8_left q).

Definition esc_char (c : Z) : M vga unit :=
  if c =? 91 then on_parser begin_csi else
  v ← get;
  _ ← (if c =? 99 then
         let k := the_pen v in
         _ ← modify (fun v => set_cursor_on true (set_pen (MkPen DEFAULT_FG DEFAULT_BG (fgc k) (bgc k) false false) v));
         _ ← clear_cells 0 (cols v * rows v);
         modify (set_pos 0 0)
       else if c =? 77 then
         if row v =? 0 then shift_lines 0 (rows v) (-1) else modify (fun v => set_pos (row v - 1) (col v) v)
       else mret tt);
  on_parser (set_state NORMAL).

Definition set_params (l : list Z) (n : Z) (q : parser) : parser := MkParser (state q) l n (private_seq q) (utf8 q) (utf8_left q).

Definition csi_char (c : Z) : M vga unit :=
  v ← get;
  let q := the_parser v in
  let n := if nparams q =? 0 then 1 else nparams q in
  if (48 <=? c) && (c <=? 57) then
    p ← lift (elem (params q) (n - 1));
    p ← lift (as_int (p * 10));
    p ← lift (as_int (p + (c - 48)));
    on_parser (set_params (<[Z.to_nat (n - 1) := p]> (params q)) n)
  else if c =? 59 then on_parser (set_params (params q) (if n <? MAX_PARAMS then n + 1 else n))
  else if c =? 63 then on_parser (fun q => MkParser (state q) (params q) (nparams q) true (utf8 q) (utf8_left q))
  else when ((64 <=? c) && (c <=? 126)) (_ ← csi c; on_parser (set_state NORMAL)).

(** A byte that is neither in an escape sequence nor continues UTF-8. *)
Definition plain_char (c : Z) : M vga unit :=
  if (192 <=? c) && (c <? 248) then
    let left := if 240 <=? c then 3 else if 224 <=? c then 2 else 1 in
    on_parser (set_utf8 (Z.land c (Z.shiftr 63 left)) left)
  else if c =? 27 then on_parser (set_state ESC)
  else if c =? 10 then newline
  else if c =? 13 then modify (fun v => set_pos (row v) 0 v)
  else if c =? 8 then modify (fun v => set_pos (row v) (if 0 <? col v then col v - 1 else col v) v)
  else if c =? 9 then
    _ ← modify (fun v => set_pos (row v) (Z.land (col v + 8) (Z.lnot 7)) v);
    v ← get;
    when (cols v <=? col v) (_ ← modify (fun v => set_pos (row v) 0 v); newline)
  else when (32 <=? c) (print (if c <? 128 then c else 65533)).

Definition normal_char (c : Z) : M vga unit :=
  v ← get;
  let q := the_parser v in
  if 0 <? utf8_left q then
    if Z.land c 192 =? 128 then
      let u := u32 (Z.lor (Z.shiftl (utf8 q) 6) (Z.land c 63)) in
      _ ← on_parser (set_utf8 u (utf8_left q - 1));
      when (utf8_left q - 1 =? 0) (print u)
    else _ ← on_parser (set_utf8 (utf8 q) 0); _ ← print 65533; plain_char c
  else plain_char c.

Definition putc_now (c : Z) : M vga unit :=
  v ← get; match state (the_parser v) with ESC => esc_char c | CSI => csi_char c | NORMAL => normal_char c end.

Definition is_normal (s : esc_state) : bool := match s with NORMAL => true | _ => false end.

Definition vga_putc (c : Z) : M vga unit :=
  _ ← putc_now c; v ← get; when (is_normal (state (the_parser v))) place_cursor.

Definition vga_set_reply (b : bool) : M vga unit := modify (set_reply b).

Definition vga_size (v : vga) : Z * Z := (rows v, cols v).

(** The cells of the old screen on a new one. *)
Definition carried (v : vga) (s : screen) (empty : vcell) (i : Z) : option vcell :=
  let r := i / s_cols s in let c := i mod s_cols s in
  if (r <? rows v) && (c <? cols v) then elem (want v) (r * cols v + c) else Some empty.

(** [memory]: both grids could be allocated. *)
Definition vga_set_screen (memory : bool) (s : screen) : M vga Z :=
  v ← get;
  empty ← blank 32;
  if negb memory then mret (-1) else
  let n := s_cols s * s_rows s in
  w ← lift (mapM (carried v s empty) (range 0 n));
  _ ← modify (fun v => set_scr s (set_grids w (replicate (Z.to_nat n) (MkCell 0 1 1)) v));
  _ ← modify (fun v => set_cur (-1) (cur_col v) (set_pos (clamp (row v) 0 (rows v - 1)) (clamp (col v) 0 (cols v - 1)) v));
  _ ← refresh 0 n;
  _ ← place_cursor;
  mret 0.

Definition terminal_putchar (c : Z) : M vga unit :=
  _ ← when (c =? 10) (_ ← out_ (Serial 13); vga_putc 13);
  _ ← out_ (Serial c);
  vga_putc c.

Definition terminal_clear : M vga unit :=
  v ← get; _ ← clear_cells 0 (cols v * rows v); _ ← modify (set_pos 0 0); place_cursor.

Definition terminal_print (s : list Z) : M vga unit := for_each s terminal_putchar.

Definition terminal_print_colorful (s : list Z) (color : Z) : M vga unit :=
  v ← get;
  let k := the_pen v in
  _ ← modify (set_pen (MkPen (Z.land color 7) (Z.land (Z.shiftr color 4) 7) (fgc k) (bgc k) (negb (Z.land color 8 =? 0)) (reverse_ k)));
  _ ← terminal_print s;
  modify (fun v => set_pen (MkPen (fgi k) (bgi k) (fgc (the_pen v)) (bgc (the_pen v)) (bold k) (reverse_ (the_pen v))) v).

Definition number (v base : Z) : option (list Z) := m ← uitoa (buffer 50) v 0 base; c_bytes 50 m 0.
Definition terminal_print_num (n : Z) : M vga unit := s ← lift (number (u64 n) 10); terminal_print s.
Definition terminal_print_hex (n : Z) : M vga unit := s ← lift (number (u32 n) 16); terminal_print s.

(** The state the variables have at boot, video memory cleared. *)
Definition vga_boot : vga :=
  let g := replicate 2000 (MkCell 0 0 0) in
  MkVga text_screen g g 0 0 0 0 (MkPen DEFAULT_FG DEFAULT_BG 0 0 false false) true (-1) (-1)
    (MkParser NORMAL (replicate 16 0) 0 false 0 0) false (replicate 2000 0) [].
