(* ===== verification/VgaGrid.v ===== *)
(** * The terminal's grids: drawing, clearing and scrolling stay in bounds

    The invariant of vga.c's two grids, and what each operation on them does:
    no access leaves an array, everything drawn lies on the screen, and in
    text mode video memory shows what [shown] says it shows. *)
From S2P Require Import Prelude CString Printf Vga.

(** ** Tables *)

Lemma elem_Some {A} (l : list A) i c : elem l i = Some c <-> 0 <= i /\ l !! Z.to_nat i = Some c.
Proof. unfold elem. destruct (Z.ltb_spec i 0); naive_solver lia. Qed.

Lemma elem_total {A} (l : list A) i : 0 <= i < Z.of_nat (length l) -> is_Some (elem l i).
Proof.
  intros Hi. destruct (lookup_lt_is_Some_2 l (Z.to_nat i)) as [c Hc]; [lia|].
  exists c. apply elem_Some. split; [lia|done].
Qed.

Lemma palette_total i : 0 <= i < 256 -> is_Some (palette i).
Proof.
  revert i. apply lookup_by_range. refine (bool_decide_unpack _ _). vm_compute. exact I.
Qed.

Lemma nearest16_total c : is_Some (nearest16 c).
Proof.
  unfold nearest16. set (b := best_of _ _ _ _ _).
  destruct (elem_total ansi_vga (Z.land b 7)) as [x ->]; [|by eexists].
  change 7 with (Z.ones 3). rewrite Z.land_ones by lia. exact (Z.mod_pos_bound b 8 eq_refl).
Qed.

Lemma text_word_total c : is_Some (text_word c).
Proof.
  unfold text_word. destruct (nearest16_total (fg c)) as [f ->], (nearest16_total (bg c)) as [b ->]. by eexists.
Qed.

(** ** The invariant *)

Definition area (s : screen) : Z := s_cols s * s_rows s.

(** A screen the kernel drives: the text mode, or one whose characters are
    one or two cells wide, where the blank, the null character and the marker
    of a second cell take one. *)
Definition screen_ok (s : screen) : Prop :=
  2 <= s_cols s <= 9999 /\ 1 <= s_rows s <= 9999 /\ (s_text s = true -> s = text_screen)
  /\ forall f, s_cells s = Some f -> (forall u, f u = 1 \/ f u = 2) /\ f 0 = 1 /\ f 32 = 1 /\ f VCELL_TAIL = 1.

Definition pen_ok (k : pen) : Prop := -1 <= fgi k < 256 /\ -1 <= bgi k < 256.

(** The cells a character covers when it is drawn. *)
Definition span (s : screen) (c : vcell) : Z := match s_cells s with Some f => f (ch c) | None => 1 end.

(** Only cells of the screen are drawn, both of a wide character. *)
Definition fits (s : screen) (o : out) : Prop :=
  match o with Draw c r d _ => 0 <= c /\ c + span s d <= s_cols s /\ 0 <= r < s_rows s | _ => True end.

(** A wide character does not start in the last column. *)
Definition sits (s : screen) (i : Z) (c : vcell) : Prop := wide s (ch c) = true -> (i + 1) mod s_cols s <> 0.
Definition whole (s : screen) (g : list vcell) : Prop := forall i c, g !! i = Some c -> sits s (Z.of_nat i) c.

(** Video memory shows the cells of a grid, but for those in [X]: cells that
    were never drawn. *)
Definition mirrors (X : vcell -> Prop) (m : list Z) (g : list vcell) : Prop :=
  forall i c, g !! i = Some c -> m !! i = text_word c \/ X c.

Record grid (s : screen) (X : vcell -> Prop) (o0 : list out) (v : vga) : Prop := {
  g_scr : scr v = s;
  g_sane : screen_ok s;
  g_want : Z.of_nat (length (want v)) = area s;
  g_shown : Z.of_nat (length (shown v)) = area s;
  g_cur : cur_row v = -1 \/ 0 <= cur_row v < s_rows s /\ 0 <= cur_col v < s_cols s;
  g_pen : pen_ok (the_pen v);
  g_mem : s_text s = true -> length (vmem v) = 2000%nat /\ mirrors X (vmem v) (shown v);
  g_whole : whole s (want v) /\ whole s (shown v);
  g_outs : exists new, outs v = o0 ++ new /\ Forall (fits s) new;
}.

(** What the operations on the grids leave alone. *)
Record still (v v' : vga) : Prop := {
  st_pos : row v' = row v /\ col v' = col v;
  st_saved : saved_row v' = saved_row v /\ saved_col v' = saved_col v;
  st_pen : the_pen v' = the_pen v;
  st_parser : the_parser v' = the_parser v;
  st_flags : cursor_on v' = cursor_on v /\ reply v' = reply v;
}.

#[export] Instance still_preorder : PreOrder still.
Proof.
  split; [by constructor|]. intros a b c [[] [] ? ? []] [[] [] ? ? []]. split; split_and?; congruence.
Qed.

(** The grids themselves unchanged too. *)
Definition steady (v v' : vga) : Prop := still v v' /\ want v' = want v /\ shown v' = shown v.

#[export] Instance steady_preorder : PreOrder steady.
Proof.
  split; [by split|]. intros a b c (H1 & ? & ?) (H2 & ? & ?). split; [by etrans|]. split; congruence.
Qed.

Lemma cell_index s r c : 0 <= r < s_rows s -> 0 <= c < s_cols s -> 0 <= r * s_cols s + c < area s.
Proof. unfold area. nia. Qed.

Lemma index_cell s i : screen_ok s -> 0 <= i < area s -> 0 <= i mod s_cols s < s_cols s /\ 0 <= i / s_cols s < s_rows s.
Proof.
  unfold area. intros [? _] Hi. split; [apply Z.mod_pos_bound; lia|].
  split; [apply Z.div_pos; lia|apply Z.div_lt_upper_bound; lia].
Qed.

Lemma span_wide s c : screen_ok s -> span s c = if wide s (ch c) then 2 else 1.
Proof.
  intros (_ & _ & _ & Hf). unfold span, wide. destruct (s_cells s) as [f|] eqn:E; [|done]. destruct (Hf f eq_refl) as (H12 & _ & _ & Ht).
  destruct (Z.eqb_spec (ch c) VCELL_TAIL) as [->|_]; [done|]. simpl. by destruct (H12 (ch c)) as [-> | ->].
Qed.

Lemma sits_span s c r d :
  screen_ok s -> 0 <= c < s_cols s -> sits s (r * s_cols s + c) d <-> c + span s d <= s_cols s.
Proof.
  intros Hs Hc. rewrite (span_wide s d Hs). unfold sits. rewrite <- Z.add_assoc, Z.add_comm, Z.mod_add by lia.
  destruct (decide (c + 1 = s_cols s)) as [E|]; [rewrite E, Z.mod_same by lia|rewrite Z.mod_small by lia]; destruct (wide s (ch d)); intuition lia.
Qed.

Lemma sits_narrow s i c : wide s (ch c) = false -> sits s i c.
Proof. unfold sits. congruence. Qed.

Lemma sits_shift s i k c : 0 < s_cols s -> sits s i c -> sits s (i + k * s_cols s) c.
Proof. unfold sits. intros Hc. by replace (i + k * s_cols s + 1) with (i + 1 + k * s_cols s) by lia; rewrite Z.mod_add by lia. Qed.

Lemma whole_insert s g i c : whole s g -> sits s (Z.of_nat i) c -> whole s (<[i := c]> g).
Proof.
  intros Hg Hc j d. destruct (decide (j = i)) as [->|Hj]; [|rewrite list_lookup_insert_ne by done; apply Hg].
  intros Hd. pose proof (lookup_lt_Some _ _ _ Hd) as Hl. rewrite length_insert in Hl. by rewrite list_lookup_insert_eq in Hd by done; injection Hd as <-.
Qed.

(** The blank, the null character and the second-cell marker are not wide. *)
Lemma narrow_blank s : screen_ok s -> wide s 32 = false.
Proof. intros (_ & _ & _ & Hf). unfold wide. destruct (s_cells s) as [f|]; [|done]. by destruct (Hf f eq_refl) as (_ & _ & -> & _). Qed.

Lemma narrow_null s : screen_ok s -> wide s 0 = false.
Proof. intros (_ & _ & _ & Hf). unfold wide. destruct (s_cells s) as [f|]; [|done]. by destruct (Hf f eq_refl) as (_ & -> & _). Qed.

Lemma narrow_tail s : wide s VCELL_TAIL = false.
Proof. unfold wide. by destruct (s_cells s). Qed.

Section Grid.
  Context (s : screen) (X : vcell -> Prop) (o0 : list out).
  Notation G := (grid s X o0).

Lemma g_cols v : G v -> cols v = s_cols s.
Proof. intros H. unfold cols. by rewrite (g_scr _ _ _ _ H). Qed.

Lemma g_rows v : G v -> rows v = s_rows s.
Proof. intros H. unfold rows. by rewrite (g_scr _ _ _ _ H). Qed.

Lemma wp_want_at v i Q :
  G v -> 0 <= i < area s -> (forall c, want v !! Z.to_nat i = Some c -> Q c v) -> wp (want_at i) Q v.
Proof.
  intros H Hi HQ. destruct (elem_total (want v) i) as [c Hc]; [rewrite (g_want _ _ _ _ H); done|].
  unfold want_at. wp_steps. eapply wp_lift; [done|]. apply HQ. by apply elem_Some in Hc as [_ ?].
Qed.

Lemma wp_shown_at v i Q :
  G v -> 0 <= i < area s -> (forall c, shown v !! Z.to_nat i = Some c -> Q c v) -> wp (shown_at i) Q v.
Proof.
  intros H Hi HQ. destruct (elem_total (shown v) i) as [c Hc]; [rewrite (g_shown _ _ _ _ H); done|].
  unfold shown_at. wp_steps. eapply wp_lift; [done|]. apply HQ. by apply elem_Some in Hc as [_ ?].
Qed.

Lemma wp_set_want v i c Q :
  G v -> 0 <= i < area s -> sits s i c ->
  (forall v', v' = set_grids (<[Z.to_nat i := c]> (want v)) (shown v) v -> G v' -> still v v' -> Q tt v') ->
  wp (set_want i c) Q v.
Proof.
  intros H Hi Hc HQ. unfold set_want. wp_step. apply wp_want_at; [done|done|]. intros d Hd. wp_steps.
  eapply HQ; [done| |by constructor].
  destruct H as [? ? ? ? ? ? ? [? ?] ?]. split; try done; simpl; [by rewrite length_insert|].
  split; [|done]. apply whole_insert; [done|]. by rewrite Z2Nat.id by lia.
Qed.

(** A new cell has the pen's colors. *)
Lemma pen_colors_total k : pen_ok k -> is_Some (pen_colors k).
Proof.
  intros [Hf Hb]. unfold pen_colors.
  assert (is_Some (if 0 <=? fgi k then palette (if bold k && (fgi k <? 8) then fgi k + 8 else fgi k) else Some (fgc k))) as [f ->].
  { destruct (Z.leb_spec 0 (fgi k)); [|by eexists]. apply palette_total.
    destruct (bold k), (Z.ltb_spec (fgi k) 8); simpl; lia. }
  assert (is_Some (if 0 <=? bgi k then palette (bgi k) else Some (bgc k))) as [b ->].
  { destruct (Z.leb_spec 0 (bgi k)); [|by eexists]. apply palette_total. lia. }
  by eexists.
Qed.

(** The cell [blank] makes, which depends on the pen only. *)
Definition inked (k : pen) (u : Z) : vcell :=
  match pen_colors k with
  | Some (f, b) => if reverse_ k then MkCell u b f else MkCell u f b
  | None => MkCell u 0 0
  end.

Lemma inked_ch k u : ch (inked k u) = u.
Proof. unfold inked. destruct (pen_colors k) as [[]|]; [|done]. by destruct (reverse_ k). Qed.

Lemma sits_blank i k : screen_ok s -> sits s i (inked k 32).
Proof. intros Hs. apply sits_narrow. rewrite inked_ch. by apply narrow_blank. Qed.

Lemma wp_blank v u (Q : vcell -> vga -> Prop) : pen_ok (the_pen v) -> Q (inked (the_pen v) u) v -> wp (blank u) Q v.
Proof.
  intros Hk HQ. unfold blank. do 2 wp_step. destruct (pen_colors_total _ Hk) as [[f b] E]. rewrite E.
  wp_step. eapply wp_lift; [done|]. wp_step. unfold inked in HQ. by rewrite E in HQ.
Qed.

(** The state after a draw. *)
Definition drawn (c r : Z) (d : vcell) (b : bool) (v : vga) : vga :=
  match text_word d with
  | Some x => if s_text (scr v) then set_vmem (<[Z.to_nat (r * 80 + c) := x]> (vmem v)) v
              else set_outs (outs v ++ [Draw c r d b]) v
  | None => v
  end.

Lemma drawn_steady c r d b v : steady v (drawn c r d b v) /\ cur_row (drawn c r d b v) = cur_row v /\ cur_col (drawn c r d b v) = cur_col v.
Proof. unfold drawn. destruct (text_word d); [destruct (s_text _)|]; by repeat split. Qed.

Lemma wp_draw v c r d b (Q : unit -> vga -> Prop) :
  scr v = s -> screen_ok s -> (s_text s = true -> length (vmem v) = 2000%nat) ->
  0 <= c < s_cols s -> 0 <= r < s_rows s -> Q tt (drawn c r d b v) -> wp (draw c r d b) Q v.
Proof.
  intros Hs (_ & _ & Ht & _) Hl Hc Hr HQ. unfold draw. do 2 wp_step. unfold drawn in HQ.
  destruct (text_word_total d) as [x E]. rewrite E in HQ. rewrite Hs in *.
  destruct (s_text s); [|unfold out_; by wp_step]. specialize (Ht eq_refl). specialize (Hl eq_refl). subst s.
  unfold text_draw. wp_step. eapply wp_lift; [done|]. do 2 wp_step.
  destruct (elem_total (vmem v) (r * 80 + c)) as [y Hy].
  { rewrite Hl. rewrite Ht in Hc, Hr. cbn in Hc, Hr. lia. }
  wp_step. eapply wp_lift; [done|]. by wp_step.
Qed.

(** Showing a cell keeps the invariant when, in text mode, it is drawn where
    it belongs. *)
Lemma grid_drawn v i w c r d b :
  G v -> 0 <= i < area s -> sits s i w -> 0 <= c -> c + span s d <= s_cols s -> 0 <= r < s_rows s ->
  (s_text s = true -> r * 80 + c = i /\ text_word d = text_word w) ->
  G (drawn c r d b (set_grids (want v) (<[Z.to_nat i := w]> (shown v)) v)).
Proof.
  intros H Hi Hw Hc Hcw Hr Ht. unfold drawn. destruct (text_word_total d) as [x E]. rewrite E. simpl.
  pose proof H as [Hs ? ? Hsh ? ? Hm [? ?] [new [Ho Hf]]]. rewrite Hs.
  assert (whole s (want v) /\ whole s (<[Z.to_nat i := w]> (shown v))).
  { split; [done|]. apply whole_insert; [done|]. by rewrite Z2Nat.id by lia. }
  destruct (s_text s) eqn:Et.
  - destruct (Ht eq_refl) as [Hp Hww], (Hm eq_refl) as [Hl Hmi].
    split; simpl; try done; [by rewrite length_insert| |by eauto]. intros _. rewrite length_insert. split; [done|].
    intros j e He. rewrite Hp. destruct (decide (j = Z.to_nat i)) as [->|Hj].
    + rewrite list_lookup_insert_eq in He by lia. injection He as <-. left.
      rewrite list_lookup_insert_eq by (rewrite Hl; assert (s = text_screen) as -> by (by apply H); unfold area in Hi; simpl in Hi; lia).
      congruence.
    + rewrite list_lookup_insert_ne in He by done. rewrite list_lookup_insert_ne by done. by apply Hmi.
  - split; simpl; try done; [by rewrite length_insert|by intros ?; congruence|].
    exists (new ++ [Draw c r d b]). rewrite Ho, app_assoc. split; [done|]. apply Forall_app. split; [done|]. by apply Forall_singleton.
Qed.

Lemma draw_shown_ok v c r b (Q : unit -> vga -> Prop) :
  G v -> 0 <= c < s_cols s -> 0 <= r < s_rows s ->
  (forall v', G v' -> steady v v' -> cur_row v' = cur_row v -> Q tt v') -> wp (draw_shown c r b) Q v.
Proof.
  intros H Hc Hr HQ. unfold draw_shown. do 2 wp_step. rewrite (g_cols v H).
  pose proof (cell_index s r c Hr Hc) as Hi. wp_step. apply wp_shown_at; [done|done|]. intros d Hd.
  pose proof H as [? ? ? ? ? ? Hm [_ Hsh] ?]. apply wp_draw; try done; [by intros Ht; apply Hm|].
  destruct (drawn_steady c r d b v) as (? & ? & ?). apply HQ; [|done|done].
  pose proof (Hsh _ _ Hd) as Hsit. rewrite Z2Nat.id in Hsit by lia.
  pose proof (grid_drawn v _ d c r d b H Hi Hsit ltac:(lia) ltac:(by apply (sits_span s c r d)) Hr) as Hg. rewrite list_insert_id in Hg by done.
  destruct v. apply Hg. intros Ht. split; [|done].
  assert (s = text_screen) as -> by (by apply H). done.
Qed.

Lemma uncursor_ok v (Q : unit -> vga -> Prop) :
  G v -> (forall v', G v' -> steady v v' -> cur_row v' = -1 -> Q tt v') -> wp uncursor Q v.
Proof.
  intros H HQ. pose proof (g_cur _ _ _ _ H) as Hc. unfold uncursor. do 2 wp_step. wp_step; last first.
  { apply HQ; [done|done|]. destruct (Z.leb_spec 0 (cur_row v)); [done|lia]. }
  destruct (Z.leb_spec 0 (cur_row v)); [|done]. wp_step. apply draw_shown_ok; [done|lia|lia|]. intros v' G' S' _. wp_step.
  apply HQ; [|by destruct S' as ([] & ? & ?)|done]. destruct G'. split; try done. by left.
Qed.

Lemma place_cursor_ok v (Q : unit -> vga -> Prop) :
  G v -> 0 <= row v < s_rows s -> 0 <= col v -> (forall v', G v' -> steady v v' -> Q tt v') -> wp place_cursor Q v.
Proof.
  intros H Hr Hc0 HQ. pose proof (g_sane _ _ _ _ H) as (? & ? & _).
  assert (0 <= at_col v < s_cols s) as Hc.
  { unfold at_col. rewrite (g_cols v H). destruct (Z.ltb_spec (col v) (s_cols s)); lia. }
  unfold place_cursor. do 2 wp_step. destruct (s_text (scr v)).
  { unfold move_hw_cursor, out_. wp_steps. apply HQ; [|by repeat split].
    destruct H as [? ? ? ? ? ? ? ? [new [Ho ?]]]. split; try done. simpl.
    exists (new ++ [HwCursor (u16 (row v * 80 + at_col v))]). rewrite Ho, app_assoc. split; [done|].
    apply Forall_app. split; [done|]. by apply Forall_singleton. }
  wp_step. eapply (wp_mono _ (fun _ v' => G v' /\ steady v v')); last first.
  { intros [] v1 [G1 S1]. do 2 wp_step. wp_step; [|by apply HQ].
    wp_step. apply draw_shown_ok; [done|done|done|]. intros v2 G2 S2 _. wp_step. apply HQ.
    - destruct G2. split; try done. by right.
    - etrans; [exact S1|]. by destruct S2 as ([] & ? & ?). }
  pose proof (g_cur _ _ _ _ H) as Hcur. wp_step; [|by split].
  destruct (Z.leb_spec 0 (cur_row v)); [|done].
  wp_step. apply draw_shown_ok; [done|lia|lia|]. intros v1 G1 S1 _. wp_step.
  split; [|by destruct S1 as ([] & ? & ?)]. destruct G1. split; try done. by left.
Qed.

Lemma same_eq a b : same a b = true <-> a = b.
Proof.
  unfold same. rewrite !andb_true_iff, !Z.eqb_eq. destruct a, b; simpl. naive_solver.
Qed.

Lemma refresh1_ok v i (Q : unit -> vga -> Prop) :
  G v -> 0 <= i < area s ->
  (forall v' w, want v !! Z.to_nat i = Some w -> G v' -> still v v' -> want v' = want v ->
     shown v' = <[Z.to_nat i := w]> (shown v) -> Q tt v') -> wp (refresh1 i) Q v.
Proof.
  intros H Hi HQ. unfold refresh1. wp_step. apply wp_want_at; [done|done|]. intros w Hw.
  wp_step. apply wp_shown_at; [done|done|]. intros c Hc. destruct (same w c) eqn:E.
  { apply same_eq in E as ->. wp_step. apply (HQ v c); try done. by rewrite list_insert_id. }
  wp_step. unfold set_shown. wp_step. apply wp_shown_at; [done|done|]. intros _ _. do 3 wp_step.
  set (v1 := set_grids _ _ _). assert (scr v1 = s) as Hs by apply H.
  destruct (g_whole _ _ _ _ H) as [Hwhole _]. pose proof (Hwhole _ _ Hw) as Hsit. rewrite Z2Nat.id in Hsit by lia.
  assert (forall a b d, 0 <= a < s_cols s -> sits s (b * s_cols s + a) d -> 0 <= b < s_rows s ->
            (s_text s = true -> b * 80 + a = i /\ text_word d = text_word w) -> wp (draw a b d false) Q v1) as Hdraw.
  { intros a b d Ha Hsd Hb Ht. apply wp_draw; try done; [by apply H|by intros Htx; apply H|].
    apply sits_span in Hsd; [|apply H|done].
    destruct (drawn_steady a b d false v1) as ((? & E1 & E2) & _).
    eapply HQ; [done|by apply grid_drawn; try lia|by etrans; [|done]; constructor|by rewrite E1|by rewrite E2]. }
  pose proof (index_cell s i (g_sane _ _ _ _ H) Hi) as [Hm Hd]. pose proof (g_sane _ _ _ _ H) as (? & _ & Htx & _).
  assert (s_text s = true -> i / s_cols s * 80 + i mod s_cols s = i) as Hpos.
  { intros Ht. rewrite (Htx Ht). simpl. lia_div. }
  assert (i / s_cols s * s_cols s + i mod s_cols s = i) as Hdm by (pose proof (Z.div_mod i (s_cols s) ltac:(lia)); lia).
  unfold cols. rewrite Hs. destruct (Z.eqb_spec (ch w) 4294967295) as [Et|Et]; simpl; [|apply Hdraw; auto; by rewrite Hdm].
  assert (forall j, sits s j (MkCell 32 (fg w) (bg w))) as Hsb by (intros j; apply sits_narrow, narrow_blank, H).
  assert (text_word (MkCell 32 (fg w) (bg w)) = text_word w) as Eb by (unfold text_word; rewrite Et; done).
  destruct (Z.eqb_spec (i mod s_cols s) 0) as [E0|E0]; [wp_steps; apply Hdraw; auto|].
  do 2 wp_step. assert (0 <= i - 1 < area s) as Hi' by (destruct (decide (i = 0)) as [->|]; [by rewrite Z.mod_0_l in E0 by lia|lia]).
  destruct (elem_total (want v1) (i - 1)) as [p Hp]; [simpl; rewrite (g_want _ _ _ _ H); lia|].
  unfold want_at. do 2 wp_step. eapply wp_lift; [done|]. wp_step.
  destruct (wide s (ch p)) eqn:Ew; [|apply Hdraw; auto].
  assert ((i - 1) mod s_cols s + 1 = i mod s_cols s /\ (i - 1) / s_cols s = i / s_cols s) as [Em Ed].
  { rewrite <- Hdm at 1 3. replace (_ + _ - 1) with (i mod s_cols s - 1 + i / s_cols s * s_cols s) by lia.
    rewrite Z.mod_add, Z.div_add, Z.mod_small, Z.div_small by lia. lia. }
  apply Hdraw; [by apply index_cell; [apply H|]| |done|].
  { intros _. replace (_ + 1) with (i mod s_cols s + i / s_cols s * s_cols s) by lia. by rewrite Z.mod_add, Z.mod_mod by lia. }
  intros Ht. rewrite (Htx Ht) in Ew. done.
Qed.

(** What refreshing cells [lo..hi-1] does: those are shown, the others stay. *)
Record refreshed (lo hi : Z) (v v' : vga) : Prop := {
  rf_still : still v v';
  rf_want : want v' = want v;
  rf_in : forall j : nat, lo <= Z.of_nat j < hi -> shown v' !! j = want v !! j;
  rf_out : forall j : nat, ~ lo <= Z.of_nat j < hi -> shown v' !! j = shown v !! j;
}.

Lemma refresh_ok v lo hi (Q : unit -> vga -> Prop) :
  G v -> 0 <= lo -> hi <= area s -> (forall v', G v' -> refreshed lo hi v v' -> Q tt v') -> wp (refresh lo hi) Q v.
Proof.
  intros H Hlo Hhi HQ. unfold refresh.
  apply wp_for_each with (I := fun don v' => G v' /\ still v v' /\ want v' = want v /\
    forall j : nat, shown v' !! j = if decide (Z.of_nat j ∈ don) then want v !! j else shown v !! j).
  - by split_and!.
  - intros don i todo v' El (G' & S' & W' & Sh').
    assert (lo <= i < hi) as Hi by (apply elem_of_range; rewrite El; set_solver).
    apply refresh1_ok; [done|lia|]. intros v2 w Hw G2 S2 W2 Sh2.
    split_and!; [done|by etrans|congruence|]. intros j. rewrite Sh2.
    pose proof (g_shown _ _ _ _ G'). destruct (decide (j = Z.to_nat i)) as [->|Hj].
    + rewrite list_lookup_insert_eq by lia. rewrite decide_True by (rewrite Z2Nat.id by lia; set_solver). by rewrite <- W'.
    + rewrite list_lookup_insert_ne, Sh' by done.
      assert (Z.of_nat j ∈ don ++ [i] <-> Z.of_nat j ∈ don) as Hin by (rewrite elem_of_app, list_elem_of_singleton; naive_solver lia).
      destruct (decide (Z.of_nat j ∈ don)), (decide (Z.of_nat j ∈ don ++ [i])); tauto.
  - intros v' (G' & S' & W' & Sh'). apply HQ; [done|]. split; [done|done| |]; intros j Hj; rewrite Sh'.
    + by rewrite decide_True by (by apply elem_of_range).
    + by rewrite decide_False by (by rewrite elem_of_range).
Qed.

(** The cells of [l] hold what [f] says, the others what they held. *)
Record painted (f : Z -> vcell) (l : list Z) (v v' : vga) : Prop := {
  pt_still : still v v';
  pt_shown : shown v' = shown v;
  pt_in : forall j : nat, Z.of_nat j ∈ l -> want v' !! j = Some (f (Z.of_nat j));
  pt_out : forall j : nat, Z.of_nat j ∉ l -> want v' !! j = want v !! j;
}.

Lemma paint_ok f v l (m : Z -> M vga vcell) (Q : unit -> vga -> Prop) :
  G v -> (forall i, i ∈ l -> 0 <= i < area s /\ sits s i (f i)) ->
  (forall don i todo v', l = don ++ i :: todo -> G v' -> painted f don v v' -> wp (m i) (fun c v'' => c = f i /\ v'' = v') v') ->
  (forall v', G v' -> painted f l v v' -> Q tt v') ->
  wp (for_each l (fun i => c ← m i; set_want i c)) Q v.
Proof.
  intros H Hl Hm HQ. apply wp_for_each with (I := fun don v' => G v' /\ painted f don v v').
  - split; [done|]. split; [done|done|intros j Hj; set_solver|done].
  - intros don i todo v' El [G' P']. wp_step. eapply wp_mono; [by eapply Hm|]. intros c v'' [-> ->].
    assert (0 <= i < area s /\ sits s i (f i)) as [Hi Hsit] by (apply Hl; set_solver).
    apply wp_set_want; [done|done|done|]. intros v2 -> G2 S2. split; [done|].
    destruct P' as [S' Sh' In' Out']. pose proof (g_want _ _ _ _ G').
    split; [by etrans|done| |]; intros j; rewrite elem_of_app, list_elem_of_singleton; intros Hj; simpl;
      destruct (decide (j = Z.to_nat i)) as [->|Hn].
    + rewrite Z2Nat.id by lia. apply list_lookup_insert_eq. lia.
    + rewrite list_lookup_insert_ne by done. apply In'. naive_solver lia.
    + exfalso. apply Hj. right. lia.
    + rewrite list_lookup_insert_ne by done. apply Out'. tauto.
  - intros v' [G' P']. by apply HQ.
Qed.

(** Cells [lo..hi-1] painted and shown. *)
Record repainted (f : Z -> vcell) (lo hi : Z) (v v' : vga) : Prop := {
  rp_still : still v v';
  rp_in : forall j : nat, lo <= Z.of_nat j < hi -> want v' !! j = Some (f (Z.of_nat j)) /\ shown v' !! j = want v' !! j;
  rp_out : forall j : nat, ~ lo <= Z.of_nat j < hi -> want v' !! j = want v !! j /\ shown v' !! j = shown v !! j;
}.

Lemma painted_refreshed f l lo hi v v1 v2 v' :
  (forall i, i ∈ l <-> lo <= i < hi) -> painted f l v v1 -> steady v1 v2 -> refreshed lo hi v2 v' -> repainted f lo hi v v'.
Proof.
  intros Hl [S1 Sh1 In1 Out1] (S2 & W2 & Sh2) [S3 W3 In3 Out3]. split; [by do 2 (etrans; [done|])| |]; intros j Hj.
  - rewrite In3, W3, W2 by done. split; [|done]. by apply In1, Hl.
  - rewrite Out3, W3, W2, Sh2, Sh1 by done. split; [|done]. apply Out1. by rewrite Hl.
Qed.

Lemma clear_cells_ok v lo hi (Q : unit -> vga -> Prop) :
  G v -> 0 <= lo -> hi <= area s ->
  (forall v', G v' -> repainted (fun _ => inked (the_pen v) 32) lo hi v v' -> Q tt v') -> wp (clear_cells lo hi) Q v.
Proof.
  intros H Hlo Hhi HQ. unfold clear_cells. wp_step. apply wp_blank; [apply H|]. wp_step.
  change (for_each _ _) with (for_each (range lo hi) (fun i => c ← mret (inked (the_pen v) 32); set_want i c)).
  apply (paint_ok (fun _ => inked (the_pen v) 32)); [done| | |].
  - intros i Hi%elem_of_range. split; [lia|]. apply sits_blank, H.
  - intros. by wp_step.
  - intros v1 G1 P1. do 3 wp_step. eapply (wp_mono _ (fun _ v2 => G v2 /\ steady v1 v2)).
    { wp_step; [|done]. apply (uncursor_ok v1); [done|]. by intros v2 G2 S2 _. }
    intros [] v2 [G2 S2]. apply refresh_ok; [done..|]. intros v3 G3 R3. apply HQ; [done|].
    eapply painted_refreshed; [|done..]. intros i. apply elem_of_range.
Qed.

Lemma move_cells_spec g dst src n :
  0 <= dst -> 0 <= src -> 0 <= n -> dst + n <= Z.of_nat (length g) -> src + n <= Z.of_nat (length g) ->
  exists g', move_cells g dst src n = Some g' /\ length g' = length g
    /\ forall j : nat, g' !! j = if decide (dst <= Z.of_nat j < dst + n) then g !! Z.to_nat (Z.of_nat j - dst + src) else g !! j.
Proof.
  intros. unfold move_cells.
  rewrite !(proj2 (Z.leb_le _ _)) by lia. simpl. eexists; split; [done|]. split.
  { rewrite !length_app, !length_take, !length_drop. lia. }
  intros j. destruct (decide _) as [Hj|Hj].
  - rewrite lookup_app_r, lookup_app_l, lookup_take_lt, lookup_drop, length_take
      by (rewrite ?length_take, ?length_drop; lia). f_equal. lia.
  - destruct (decide (Z.of_nat j < dst)).
    + by rewrite lookup_app_l, lookup_take_lt by (rewrite ?length_take; lia).
    + rewrite lookup_app_r, lookup_app_r, lookup_drop, !length_take, length_drop
        by (rewrite ?length_take, ?length_drop; lia). f_equal. lia.
Qed.

(** The cell [d] further on in a grid, blank beyond [lo..hi-1]. *)
Definition moved (lo hi d : Z) (b : vcell) (g : list vcell) (j : nat) : option vcell :=
  if decide (lo <= Z.of_nat j + d < hi) then g !! Z.to_nat (Z.of_nat j + d) else Some b.

(** Lines [top..bottom-1] moved up by [n] (down if it is negative), blank
    lines coming in, and all of them shown. *)
Record scrolled (top bottom n : Z) (v v' : vga) : Prop := {
  sc_still : still v v';
  sc_in : forall j : nat, top * s_cols s <= Z.of_nat j < bottom * s_cols s ->
    shown v' !! j = want v' !! j /\
    want v' !! j = moved (top * s_cols s) (bottom * s_cols s) (n * s_cols s) (inked (the_pen v) 32) (want v) j;
  sc_out : forall j : nat, ~ top * s_cols s <= Z.of_nat j < bottom * s_cols s ->
    want v' !! j = want v !! j /\ shown v' !! j = shown v !! j;
}.

Lemma wp_move_want v dst src n k (Q : unit -> vga -> Prop) :
  G v -> dst = src + k * s_cols s -> 0 <= dst -> 0 <= src -> 0 <= n -> dst + n <= area s -> src + n <= area s ->
  (forall v', G v' -> still v v' -> shown v' = shown v ->
     (forall j : nat, want v' !! j = if decide (dst <= Z.of_nat j < dst + n) then want v !! Z.to_nat (Z.of_nat j - dst + src) else want v !! j) ->
     Q tt v') -> wp (move_want dst src n) Q v.
Proof.
  intros H Hk ? ? ? ? ? HQ. pose proof (g_want _ _ _ _ H) as Hw. unfold move_want. do 2 wp_step.
  destruct (move_cells_spec (want v) dst src n) as (g & Eg & Hl & Hg); [lia..|].
  wp_step. eapply wp_lift; [done|]. wp_step. apply HQ; [|by constructor|done|done].
  destruct H as [? Hs ? ? ? ? ? [Hwhole ?] ?]. split; try done; simpl; [by rewrite Hl|]. split; [|done].
  intros j c. rewrite Hg. destruct (decide _); intros Hc; apply Hwhole in Hc; [|done].
  rewrite Z2Nat.id in Hc by lia. apply (sits_shift s _ k) in Hc; [|destruct Hs; lia]. by replace (_ + k * _) with (Z.of_nat j) in Hc by lia.
Qed.

Lemma shift_lines_ok v top bottom n (Q : unit -> vga -> Prop) :
  G v -> 0 <= top -> top <= bottom <= s_rows s -> - (bottom - top) <= n <= bottom - top ->
  (forall v', G v' -> scrolled top bottom n v v' -> Q tt v') -> wp (shift_lines top bottom n) Q v.
Proof.
  intros H Ht Hb Hn HQ. pose proof (g_sane _ _ _ _ H) as (Hc & _). unfold shift_lines. do 2 wp_step.
  rewrite (g_cols v H). set (c := s_cols s) in *.
  assert (0 <= top * c /\ top * c <= bottom * c /\ bottom * c <= area s) as (? & ? & ?) by (unfold area; fold c; nia).
  wp_step. eapply (wp_mono _ (fun _ v1 => G v1 /\ still v v1 /\
    (forall j : nat, top * c <= Z.of_nat j < bottom * c ->
       want v1 !! j = moved (top * c) (bottom * c) (n * c) (inked (the_pen v) 32) (want v) j) /\
    (forall j : nat, ~ top * c <= Z.of_nat j < bottom * c -> want v1 !! j = want v !! j /\ shown v1 !! j = shown v !! j))).
  2:{ intros [] v1 (G1 & S1 & I1 & O1). apply refresh_ok; [done..|]. intros v2 G2 [S2 W2 I2 O2]. apply HQ; [done|].
      split; fold c; [by etrans| |]; intros j Hj.
      - rewrite I2, W2 by done. split; [done|by apply I1].
      - rewrite O2, W2 by done. by apply O1. }
  destruct (Z.ltb_spec 0 n); [|destruct (Z.ltb_spec n 0)].
  - wp_step. apply (uncursor_ok v); [done|]. intros v1 G1 (S1 & W1 & Sh1) _. wp_step.
    apply (wp_move_want v1 _ _ _ (- n)); [done|fold c; lia|nia..|]. intros v2 G2 S2 Sh2 W2.
    apply (clear_cells_ok v2); [done|nia|nia|]. intros v3 G3 [S3 I3 O3]. split_and!; [done|by do 2 (etrans; [done|])| |]; intros j Hj.
    + destruct (decide ((bottom - n) * c <= Z.of_nat j < bottom * c)) as [Hd|Hd].
      * destruct (I3 j Hd) as [-> _]. unfold moved. rewrite decide_False by nia. by rewrite (st_pen _ _ S2), (st_pen _ _ S1).
      * destruct (O3 j Hd) as [-> _]. rewrite W2, W1, decide_True by nia. unfold moved. rewrite decide_True by nia. f_equal. nia.
    + destruct (O3 j) as [-> ->]; [nia|]. rewrite W2, Sh2, Sh1, W1, decide_False by nia. done.
  - wp_step. apply (uncursor_ok v); [done|]. intros v1 G1 (S1 & W1 & Sh1) _. wp_step.
    apply (wp_move_want v1 _ _ _ (- n)); [done|fold c; lia|nia..|]. intros v2 G2 S2 Sh2 W2.
    apply (clear_cells_ok v2); [done|nia|nia|]. intros v3 G3 [S3 I3 O3]. split_and!; [done|by do 2 (etrans; [done|])| |]; intros j Hj.
    + destruct (decide (top * c <= Z.of_nat j < (top + - n) * c)) as [Hd|Hd].
      * destruct (I3 j Hd) as [-> _]. unfold moved. rewrite decide_False by nia. by rewrite (st_pen _ _ S2), (st_pen _ _ S1).
      * destruct (O3 j Hd) as [-> _]. rewrite W2, W1, decide_True by nia. unfold moved. rewrite decide_True by nia. f_equal. nia.
    + destruct (O3 j) as [-> ->]; [nia|]. rewrite W2, Sh2, Sh1, W1, decide_False by nia. done.
  - assert (n = 0) as -> by lia. wp_step. split_and!; [done|done| |done]. intros j Hj. unfold moved.
    rewrite decide_True by lia. by rewrite Z.add_0_r, Nat2Z.id.
Qed.
End Grid.
