(* ===== verification/VgaOk.v ===== *)
(** * The terminal emulator never leaves its arrays, and shows what it should

    The invariant of all of vga.c's state, kept by every byte written to the
    terminal that is [harmless] and leaves wide characters [uncut]; what printing, scrolling and switching screens do to the
    characters on the screen. *)
From S2P Require Import Prelude CString Printf Vga VgaGrid.

(** Everything wanted is shown. *)
Definition synced (v : vga) : Prop := shown v = want v.

Lemma repainted_synced f lo hi v v' : repainted f lo hi v v' -> synced v -> synced v'.
Proof.
  intros [_ I O] E. apply list_eq. intros j. destruct (decide (lo <= Z.of_nat j < hi)) as [Hj|Hj].
  - by apply I.
  - destruct (O j Hj) as [-> ->]. by rewrite E.
Qed.

Lemma scrolled_synced s top bottom n v v' : scrolled s top bottom n v v' -> synced v -> synced v'.
Proof.
  intros [_ I O] E. apply list_eq. intros j.
  destruct (decide (top * s_cols s <= Z.of_nat j < bottom * s_cols s)) as [Hj|Hj].
  - by apply I.
  - destruct (O j Hj) as [-> ->]. by rewrite E.
Qed.

(** Only wanted cells [lo..hi-1] changed, and are still to be shown. *)
Definition smudged (lo hi : Z) (v v' : vga) : Prop :=
  still v v' /\ shown v' = shown v /\ forall j : nat, ~ lo <= Z.of_nat j < hi -> want v' !! j = want v !! j.

Lemma smudged_weaken lo hi lo' hi' v v' : lo' <= lo -> hi <= hi' -> smudged lo hi v v' -> smudged lo' hi' v v'.
Proof. intros ? ? (S & Sh & W). split_and!; [done|done|]. intros j Hj. apply W. lia. Qed.

Lemma smudged_trans lo hi v v1 v2 : smudged lo hi v v1 -> smudged lo hi v1 v2 -> smudged lo hi v v2.
Proof.
  intros (S & Sh & W) (S' & Sh' & W'). split_and!; [by etrans|congruence|]. intros j Hj. by rewrite W', W.
Qed.

Lemma refreshed_synced lo hi v v1 v' : smudged lo hi v v1 -> synced v -> refreshed lo hi v1 v' -> synced v'.
Proof.
  intros (S & Sh & W) E [_ W' I O]. apply list_eq. intros j. rewrite W'.
  destruct (decide (lo <= Z.of_nat j < hi)) as [Hj|Hj]; [by apply I|].
  rewrite O, Sh, W by done. by rewrite E.
Qed.

(** ** Numbers and reports *)

Lemma c_bytes_spec fuel m a l : cstr m a l -> (length l < fuel)%nat -> c_bytes fuel m a = Some l.
Proof.
  revert a l. induction fuel as [|fuel IH]; intros a l H Hf; [lia|]. cbn [c_bytes]. destruct l as [|c l].
  - apply cstr_nil in H as ->. done.
  - apply cstr_cons in H as (-> & Hc & H). simpl in Hf. cbn [mbind option_bind].
    destruct (Z.eqb_spec c 0); [lia|]. by rewrite (IH (a + 1) l) by (done || lia).
Qed.

Lemma buffer_mapped n : mapped (buffer n) 0 n.
Proof.
  intros i Hi. exists 0. unfold buffer. apply elem_of_list_to_map.
  - rewrite <- list_fmap_compose. simpl. rewrite list_fmap_id. apply NoDup_seqZ.
  - apply list_elem_of_fmap. exists i. split; [done|]. apply elem_of_range. lia.
Qed.

Lemma written_mapped m m' a n b l :
  mapped m a n -> cstr m' b l -> same_except m m' b (Z.of_nat (length l) + 1) -> mapped m' a n.
Proof.
  intros H [Hc _] Hs i Hi. destruct (decide (b <= a + i < b + (Z.of_nat (length l) + 1))) as [Hx|Hx]; [|rewrite Hs by done; by apply H].
  destruct (lookup_lt_is_Some_2 (l ++ [0]) (Z.to_nat (a + i - b))) as [x Hl]; [rewrite length_app; simpl; lia|].
  rewrite bytes_at_lookup in Hc. apply Hc in Hl. exists x. rewrite <- Hl. f_equal. lia.
Qed.

Lemma bytes_at_except m m' a n b l :
  same_except m m' a n -> b + Z.of_nat (length l) <= a \/ a + n <= b -> bytes_at m b l -> bytes_at m' b l.
Proof.
  rewrite !bytes_at_lookup. intros Hs Hb H i x Hx. pose proof (lookup_lt_Some _ _ _ Hx). rewrite Hs by lia. by apply H.
Qed.

(** The report: ESC [ row ; column R, both counted from 1. *)
Lemma position_report_ok r c :
  0 <= r < 9999 -> 0 <= c < 9999 ->
  exists a b, numeral 10 (r + 1) a /\ numeral 10 (c + 1) b /\ position_report r c = Some ([27; 91] ++ a ++ [59] ++ b ++ [82]).
Proof.
  intros Hr Hc. unfold position_report. pose proof (buffer_mapped 24) as M0.
  rewrite store_mapped by (by apply (M0 0)). cbn [mbind option_bind].
  rewrite store_mapped by (rewrite lookup_insert_ne by lia; by apply (M0 1)). cbn [mbind option_bind].
  set (m1 := <[1 := 91]> _). assert (mapped m1 0 24) as M1 by (by do 2 apply mapped_insert).
  assert (forall m b n, mapped m 0 24 -> 0 <= b -> b + n <= 24 -> mapped m b n) as Sub by (intros m b n H ? ? i Hi; apply (H (b + i)); lia).
  destruct (uitoa_in 4 m1 (r + 1) 2 10) as (m2 & a & -> & Na & La & Ca & Sa); [lia|simpl; lia|lia|by apply Sub; simpl|].
  cbn [mbind option_bind]. rewrite (strlen_spec _ _ _ a) by (done || lia). cbn [mbind option_bind].
  assert (mapped m2 0 24) as M2 by (by eapply written_mapped). set (p := 2 + Z.of_nat (length a)).
  rewrite store_mapped by (by apply (M2 p); lia). cbn [mbind option_bind].
  set (m3 := <[p := 59]> m2). assert (mapped m3 0 24) as M3 by (by apply mapped_insert).
  destruct (uitoa_in 4 m3 (c + 1) (p + 1) 10) as (m4 & b & -> & Nb & Lb & Cb & Sb); [lia|simpl; lia|lia|apply Sub; [done|lia|simpl; lia]|].
  cbn [mbind option_bind]. rewrite (strlen_spec _ _ _ b) by (done || lia). cbn [mbind option_bind].
  assert (mapped m4 0 24) as M4 by (by eapply written_mapped). set (q := p + 1 + Z.of_nat (length b)).
  rewrite store_mapped by (by apply (M4 q); lia). cbn [mbind option_bind].
  rewrite store_mapped by (rewrite lookup_insert_ne by lia; apply (M4 (q + 1)); lia). cbn [mbind option_bind].
  exists a, b. split_and!; [done|done|]. apply c_bytes_spec; [|rewrite !length_app; simpl; lia].
  split; last first.
  { rewrite !Forall_app. split_and!; [repeat constructor|apply Ca|repeat constructor|apply Cb|repeat constructor]; lia. }
  assert (bytes_at m4 0 ([27; 91] ++ a ++ [59])) as B4.
  { eapply bytes_at_except; [exact Sb|rewrite !length_app; simpl; lia|]. rewrite app_assoc. apply bytes_at_app. split.
    - apply bytes_at_insert_ne; [rewrite length_app; simpl; lia|]. apply bytes_at_app. split.
      + eapply bytes_at_except; [exact Sa|simpl; lia|]. by split_and!.
      + destruct Ca as [Ca _]. by apply bytes_at_app in Ca as [Ca _].
    - rewrite length_app. simpl. replace (Z.of_nat _) with p by lia. split; [apply lookup_insert_eq|done]. }
  destruct Cb as [Cb _]. apply bytes_at_app in Cb as [Cb _].
  replace (([27; 91] ++ a ++ [59] ++ b ++ [82]) ++ [0]) with ((([27; 91] ++ a ++ [59]) ++ b) ++ [82; 0]) by (by rewrite <- !app_assoc).
  assert (Z.of_nat (length ([27; 91] ++ a ++ [59])) = p + 1) as Lp by (rewrite !length_app; simpl; lia).
  apply bytes_at_app. split.
  - do 2 (apply bytes_at_insert_ne; [rewrite length_app; lia|]). apply bytes_at_app. by rewrite Lp.
  - rewrite length_app, Nat2Z.inj_add, Lp. fold q. cbn [bytes_at]. rewrite !Z.add_0_l, lookup_insert_ne, !lookup_insert_eq by lia. done.
Qed.

(** ** Colors *)

(** What a parameter can be: an int that is not negative. *)
Definition int31 (x : Z) : Prop := 0 <= x < 2 ^ 31.

Definition parser_ok (q : parser) : Prop :=
  length (params q) = 16%nat /\ 0 <= nparams q <= 16 /\ 0 <= utf8_left q <= 3 /\ Forall int31 (params q).

Lemma param_total q i : parser_ok q -> 0 <= i < 16 -> is_Some (elem (params q) i).
Proof. intros [Hl _] Hi. apply elem_total. lia. Qed.

Lemma clamp_bound v lo hi : lo <= hi -> lo <= clamp v lo hi <= hi.
Proof. unfold clamp. destruct (Z.ltb_spec v lo), (Z.ltb_spec hi v); lia. Qed.

Lemma extended_ok q i idx rgb :
  parser_ok q -> 0 <= i -> -1 <= idx < 256 ->
  exists n idx' rgb', extended q i idx rgb = Some (n, idx', rgb') /\ 0 <= n /\ -1 <= idx' < 256.
Proof.
  intros Hq Hi Hidx. pose proof (fun k => param_total q (i + k) Hq) as Hp. pose proof Hq as (_ & Hn & _).
  assert (exists b, (if i + 2 <? nparams q then a ← elem (params q) (i + 1); Some (a =? 5) else Some false) = Some b
            /\ (b = true -> i + 2 < nparams q)) as (b5 & E5 & H5).
  { destruct (Z.ltb_spec (i + 2) (nparams q)); [|by eexists]. destruct (Hp 1) as [a ->]; [lia|]. by eexists. }
  assert (exists b, (if i + 4 <? nparams q then a ← elem (params q) (i + 1); Some (a =? 2) else Some false) = Some b
            /\ (b = true -> i + 4 < nparams q)) as (b2 & E2 & H2).
  { destruct (Z.ltb_spec (i + 4) (nparams q)); [|by eexists]. destruct (Hp 1) as [a ->]; [lia|]. by eexists. }
  unfold extended. rewrite E5. cbn [mbind option_bind]. destruct b5.
  { destruct (Hp 2) as [a ->]; [lia|]. do 3 eexists. split; [done|]. pose proof (clamp_bound a 0 255). lia. }
  rewrite E2. cbn [mbind option_bind]. destruct b2; [|by do 3 eexists].
  destruct (Hp 2) as [r ->]; [lia|]. destruct (Hp 3) as [g ->]; [lia|]. destruct (Hp 4) as [b ->]; [lia|].
  by do 3 eexists.
Qed.

Lemma sgr1_ok q i k :
  parser_ok q -> 0 <= i < 16 -> pen_ok k -> exists k' n, sgr1 q i k = Some (k', n) /\ pen_ok k' /\ 0 <= n.
Proof.
  intros Hq Hi [Hf Hb]. unfold sgr1. destruct (param_total q i Hq Hi) as [p ->]. cbn [mbind option_bind].
  destruct (extended_ok q i (fgi k) (fgc k)) as (n1 & x1 & y1 & E1 & ? & ?); [done|lia|done|].
  destruct (extended_ok q i (bgi k) (bgc k)) as (n2 & x2 & y2 & E2 & ? & ?); [done|lia|done|].
  rewrite E1, E2. cbn [mbind option_bind].
  repeat (case_match; [rewrite ?andb_true_iff, ?Z.leb_le in *; do 2 eexists; split; [done|]; unfold pen_ok; simpl; lia|]).
  by do 2 eexists.
Qed.

Lemma sgr_loop_ok fuel q i k :
  parser_ok q -> 0 <= i -> Z.max 0 (16 - i) < Z.of_nat fuel -> pen_ok k -> exists k', sgr_loop fuel q i k = Some k' /\ pen_ok k'.
Proof.
  intros Hq. revert i k. induction fuel as [|fuel IH]; intros i k Hi Hf Hk; [lia|]. cbn [sgr_loop].
  pose proof Hq as (_ & Hn & _). destruct (Z.ltb_spec i (if nparams q =? 0 then 1 else nparams q)) as [Hl|Hl]; [|by eexists].
  assert (i < 16) by (destruct (nparams q =? 0); lia).
  destruct (sgr1_ok q i k) as (k' & n & -> & Hk' & ?); [done|lia|done|]. cbn [mbind option_bind]. apply IH; [lia|lia|done].
Qed.

Section Terminal.
  Context (s : screen) (X : vcell -> Prop) (o0 : list out).
  Notation G := (grid s X o0).

Lemma smudge_ok v i c lo hi (Q : unit -> vga -> Prop) :
  G v -> 0 <= i < area s -> sits s i c -> lo <= i < hi ->
  (forall v', G v' -> smudged lo hi v v' -> want v' = <[Z.to_nat i := c]> (want v) -> Q tt v') -> wp (set_want i c) Q v.
Proof.
  intros H Hi Hs Hlo HQ. apply (wp_set_want s X o0); [done|done|done|]. intros v' -> G' S'. apply HQ; [done| |done].
  split_and!; [done|done|]. intros j Hj. simpl. apply list_lookup_insert_ne. lia.
Qed.

(** Writing one cell: at most its two neighbours change as well, and those
    only where a wide character is cut in half. *)
Lemma put_ok v i c (Q : unit -> vga -> Prop) :
  G v -> synced v -> 0 <= i < area s -> sits s i c ->
  (forall v', G v' -> still v v' -> synced v' -> want v' !! Z.to_nat i = Some c ->
     (forall w, want v !! Z.to_nat i = Some w -> ch w <> 4294967295 -> wide s (ch w) = false -> want v' = <[Z.to_nat i := c]> (want v)) ->
     Q tt v') -> wp (put i c) Q v.
Proof.
  intros H E Hi Hsit HQ. pose proof (g_sane _ _ _ _ H) as Hsane. pose proof Hsane as (Hc & _). unfold put. do 2 wp_step. wp_step.
  apply (wp_mono _ (fun _ v1 => G v1 /\ steady v v1)).
  { wp_step; [|done]. apply (uncursor_ok s X o0); [done|]. by intros v1 G1 S1 _. }
  intros [] v1 [G1 (S1 & W1 & Sh1)]. rewrite (g_cols _ _ _ _ H), (g_scr _ _ _ _ H).
  wp_step. apply (wp_want_at s X o0); [done|done|]. intros w Hw. wp_step.
  pose proof (Z.div_mod i (s_cols s) ltac:(lia)) as Hdm. pose proof (index_cell s i (g_sane _ _ _ _ H) Hi) as [Hm Hd].
  apply (wp_mono _ (fun from v2 => G v2 /\ smudged (i - 1) (i + 2) v1 v2 /\ want v2 !! Z.to_nat i = Some w
           /\ 0 <= from <= i /\ smudged from (i + 1) v1 v2 /\ (ch w <> 4294967295 -> v2 = v1))).
  { destruct (_ && _) eqn:Eb; [|by wp_step; split_and!; try done; lia].
    rewrite !andb_true_iff, Z.eqb_eq, Z.ltb_lt in Eb. destruct Eb as [[Et _] H0].
    assert (1 <= i) by (destruct (decide (i = 0)) as [->|]; [rewrite Z.mod_0_l in H0|]; lia).
    wp_step. apply wp_blank; [apply G1|]. wp_step. apply (smudge_ok v1 _ _ (i - 1) (i + 1)); [done|lia|by apply sits_blank|lia|].
    intros v2 G2 D2 W2. wp_step. split_and!; try done; [|by rewrite W2, list_lookup_insert_ne by lia|lia|lia].
    eapply smudged_weaken; [..|exact D2]; lia. }
  intros from v2 (G2 & _ & W2 & Hf & D2 & E2). wp_step. apply (wp_want_at s X o0); [done|done|]. intros w' Hw'.
  rewrite W2 in Hw'. injection Hw' as <-. wp_step.
  apply (wp_mono _ (fun tail v3 => v3 = v2 /\ (tail = true -> wide s (ch w) = true /\ i + 1 < area s))).
  { destruct (_ && _) eqn:Eb; [|by wp_step]. rewrite !andb_true_iff, !negb_true_iff, Z.eqb_neq in Eb. destruct Eb as [[Ew _] H1].
    assert (i + 1 < area s).
    { destruct (decide (i + 1 = area s)) as [Ea|]; [|lia]. rewrite Ea in H1. unfold area in H1. by rewrite Z.mul_comm, Z.mod_mul in H1 by lia. }
    wp_step. apply (wp_want_at s X o0); [done|lia|]. intros x _. by wp_step. }
  intros tail v3 [-> Ht]. wp_step.
  apply (wp_mono _ (fun to v3 => G v3 /\ smudged from to v1 v3 /\ i < to <= area s /\ (tail = false -> v3 = v2))).
  { destruct tail; [|by wp_step; split_and!; try done; lia]. destruct (Ht eq_refl). wp_step.
    apply wp_blank; [apply G2|]. wp_step. apply (smudge_ok v2 _ _ from (i + 2)); [done|lia|by apply sits_blank|lia|].
    intros v3 G3 D3 _. wp_step. split_and!; try done; [|lia..]. eapply smudged_trans; [|exact D3].
    eapply smudged_weaken; [..|exact D2]; lia. }
  intros to v3 (G3 & D3 & Hto & E3). wp_step. apply (smudge_ok v3 _ _ from to); [done|lia|done|lia|]. intros v4 G4 D4 W4.
  apply (refresh_ok s X o0); [done|lia|lia|]. intros v5 G5 R5. pose proof (g_want _ _ _ _ G3).
  apply HQ; [done| | | |].
  - etrans; [exact S1|]. etrans; [apply D3|]. etrans; [apply D4|]. apply R5.
  - eapply (refreshed_synced from to v1 v4); [by eapply smudged_trans| |done]. unfold synced. congruence.
  - rewrite (rf_want _ _ _ _ R5), W4. apply list_lookup_insert_eq. lia.
  - intros u Hu Hn Hwide. rewrite <- W1, Hw in Hu. injection Hu as <-.
    rewrite (rf_want _ _ _ _ R5), W4, E3, E2, W1; try done. destruct tail; [|done]. destruct (Ht eq_refl). congruence.
Qed.

(** ** The invariant of the terminal *)

Record term (v : vga) : Prop := {
  t_grid : G v;
  t_synced : synced v;
  t_row : 0 <= row v < s_rows s;
  t_col : 0 <= col v <= s_cols s;
  t_parser : parser_ok (the_parser v);
}.

(** A change of other fields than those the grids depend on. *)
Lemma grid_frame v v' :
  G v -> scr v' = scr v -> want v' = want v -> shown v' = shown v -> cur_row v' = cur_row v -> cur_col v' = cur_col v ->
  pen_ok (the_pen v') -> vmem v' = vmem v -> outs v' = outs v -> G v'.
Proof.
  intros [] E1 E2 E3 E4 E5 ? E6 E7. split; rewrite ?E1, ?E2, ?E3, ?E4, ?E5, ?E6, ?E7; done.
Qed.

Lemma grid_out v o : G v -> fits s o -> G (set_outs (outs v ++ [o]) v).
Proof.
  intros [? ? ? ? ? ? ? ? [new [Ho ?]]] Hf. split; try done. simpl. exists (new ++ [o]). rewrite Ho, app_assoc.
  split; [done|]. apply Forall_app. split; [done|]. by apply Forall_singleton.
Qed.

Lemma term_pos v r c : term v -> 0 <= r < s_rows s -> 0 <= c <= s_cols s -> term (set_pos r c v).
Proof. intros [HG ? ? ? ?] ? ?. split; try done. apply (grid_frame v); try done. by apply HG. Qed.

Lemma term_parser v q : term v -> parser_ok q -> term (set_parser q v).
Proof. intros [HG ? ? ? ?] ?. split; try done. apply (grid_frame v); try done. by apply HG. Qed.

Lemma term_pen v k : term v -> pen_ok k -> term (set_pen k v).
Proof. intros [] ?. split; try done. by apply (grid_frame v). Qed.

(** What the operations on the grids give the terminal back. *)
Lemma term_still v v' : term v -> G v' -> still v v' -> synced v' -> term v'.
Proof.
  intros [] G' [[Er Ec] _ _ Ep _] E'. split; [done|done|by rewrite Er|by rewrite Ec|by rewrite Ep].
Qed.

Lemma term_repainted f lo hi v v' : term v -> G v' -> repainted f lo hi v v' -> term v'.
Proof. intros T G' R. apply (term_still v); [done|done|apply R|]. eapply repainted_synced; [done|apply T]. Qed.

Lemma term_scrolled top bottom n v v' : term v -> G v' -> scrolled s top bottom n v v' -> term v'.
Proof. intros T G' R. apply (term_still v); [done|done|apply R|]. eapply scrolled_synced; [done|apply T]. Qed.

(** The next line: the cursor goes down, or the screen scrolls by one. *)
Definition next_line (v v' : vga) : Prop :=
  if decide (row v + 1 = s_rows s)
  then exists v1, scrolled s 0 (s_rows s) 1 (set_pos (row v + 1) (col v) v) v1 /\ v' = set_pos (s_rows s - 1) (col v1) v1
  else v' = set_pos (row v + 1) (col v) v.

Lemma newline_ok v (Q : unit -> vga -> Prop) :
  term v -> (forall v', term v' -> next_line v v' -> col v' = col v -> the_parser v' = the_parser v -> Q tt v') -> wp newline Q v.
Proof.
  intros T HQ. unfold newline. do 4 wp_step. pose proof (t_row v T). pose proof (t_grid v T) as HG.
  change (rows (set_pos (row v + 1) (col v) v)) with (rows v). rewrite (g_rows _ _ _ _ HG). simpl.
  destruct (Z.eqb_spec (row v + 1) (s_rows s)) as [E|E]; wp_step; try done.
  - wp_step.
    assert (G (set_pos (row v + 1) (col v) v)) as G0 by (apply (grid_frame v); try done; apply HG).
    apply (shift_lines_ok s X o0); [done|lia|lia|lia|]. intros v1 G1 S1. wp_step.
    destruct (sc_still _ _ _ _ _ _ S1) as [[_ Ec] _ _ Ep _]. rewrite (g_rows _ _ _ _ G1).
    apply HQ; [|unfold next_line; rewrite decide_True by done; by exists v1|done|done].
    assert (synced v1) as E1 by (eapply scrolled_synced; [exact S1|]; apply T).
    split; [apply (grid_frame v1); try done; apply G1|done|simpl; lia|simpl; rewrite Ec; apply T|simpl; rewrite Ep; apply T].
  - apply HQ; [|unfold next_line; by rewrite decide_False by done|done|done]. apply term_pos; [done|lia|apply T].
Qed.

(** Printing one character: on a screen without wide characters it fills
    the cell at the cursor, which moves on. *)
Lemma print_ok v u (Q : unit -> vga -> Prop) :
  term v ->
  (forall v', term v' -> the_parser v' = the_parser v ->
     (s_cells s = None -> col v < s_cols s ->
      (forall w, want v !! Z.to_nat (row v * s_cols s + col v) = Some w -> ch w <> 4294967295) ->
      want v' = <[Z.to_nat (row v * s_cols s + col v) := inked (the_pen v) u]> (want v) /\ row v' = row v /\ col v' = col v + 1) ->
     Q tt v') -> wp (print u) Q v.
Proof.
  intros T HQ. pose proof (t_grid v T) as HG. pose proof (g_sane _ _ _ _ HG) as (Hc & Hr & _ & Hw).
  unfold print. do 2 wp_step. rewrite (g_scr _ _ _ _ HG), (g_cols _ _ _ _ HG).
  set (w := match s_cells s with Some f => f u | None => 1 end).
  assert (w = 1 \/ w = 2) as W by (unfold w; destruct (s_cells s) eqn:E; [by eapply (Hw _ eq_refl)|by left]).
  wp_step. apply wp_blank; [apply HG|]. wp_step.
  apply (wp_mono _ (fun _ v1 => term v1 /\ the_parser v1 = the_parser v /\ col v1 + w <= s_cols s /\ (col v + w <= s_cols s -> v1 = v))).
  { wp_step.
    - wp_step. wp_step. apply newline_ok; [apply term_pos; [done|apply T|lia]|]. intros v1 T1 _ C1 P1. simpl in C1, P1.
      split_and!; [done|done|lia|]. rewrite Z.ltb_lt in *. lia.
    - rewrite Z.ltb_ge in *. by split_and!. }
  intros [] v1 (T1 & P1 & C1 & E1). do 3 wp_step. rewrite (g_cols _ _ _ _ (t_grid v1 T1)).
  pose proof (t_row v1 T1). pose proof (t_col v1 T1).
  assert (forall k, 0 <= k < w -> 0 <= row v1 * s_cols s + col v1 + k < area s) as Hin.
  { intros k Hk. rewrite <- Z.add_assoc. apply cell_index; lia. }
  assert (span s (inked (the_pen v) u) = w) as Esp by (unfold span, w; by rewrite inked_ch).
  apply put_ok; [apply T1|apply T1|specialize (Hin 0); lia|apply sits_span; [apply HG|lia|lia]|]. intros v2 G2 S2 E2 _ W2. wp_step.
  assert (term v2) as T2 by (by apply (term_still v1)).
  apply (wp_mono _ (fun _ v3 => term v3 /\ still v1 v3 /\ (w = 1 -> v3 = v2))).
  { wp_step; [|by split_and!]. destruct (Z.eqb_spec w 2) as [Ew|]; [|done].
    apply put_ok; [done|done|apply Hin; lia|apply sits_narrow, narrow_tail|]. intros v3 G3 S3 E3 _ _.
    split_and!; [by apply (term_still v2)|by etrans|lia]. }
  intros [] v3 (T3 & S3 & E3). wp_step. destruct (st_pos _ _ S3) as [Er Ec].
  apply HQ.
  - apply term_pos; [done|apply T3|]. pose proof (t_col v3 T3). lia.
  - simpl. rewrite (st_parser _ _ S3). done.
  - intros Hn Hcol Htail. assert (w = 1) as Ew by (unfold w; by rewrite Hn).
    destruct E1 as []; [lia|]. rewrite (E3 Ew) in *. simpl. rewrite Er, Ec, Ew. split; [|done].
    destruct (lookup_lt_is_Some_2 (want v1) (Z.to_nat (row v1 * s_cols s + col v1))) as [x Ex].
    { pose proof (g_want _ _ _ _ (t_grid v1 T1)). specialize (Hin 0). lia. }
    apply (W2 x); [done|by apply Htail|]. unfold wide. by rewrite Hn.
Qed.

Lemma range_split lo hi don i todo : range lo hi = don ++ i :: todo -> don = range lo i.
Proof.
  revert lo. induction don as [|x don IH]; intros lo H; simpl in H.
  all: assert (lo < hi) by (destruct (decide (lo < hi)); [done|]; by rewrite range_nil in H by lia).
  all: rewrite range_cons in H by done; injection H as -> H.
  - by rewrite range_nil by lia.
  - assert (i ∈ range (x + 1) hi) as Hi%elem_of_range by (rewrite H; set_solver).
    rewrite (range_cons x i) by lia. f_equal. by apply IH.
Qed.

(** Characters [h..e-1] after moving them [d] to the left. *)
Definition slid (h e d : Z) (v : vga) (i : Z) : vcell :=
  default (inked (the_pen v) 32) (moved h e d (inked (the_pen v) 32) (want v) (Z.to_nat i)).

Lemma slide_read v v' h e d don i (Q : vcell -> vga -> Prop) :
  G v' -> painted (slid h e d v) don v v' -> 0 <= h -> e <= area s -> h <= i < e -> i + d ∉ don ->
  Q (slid h e d v i) v' -> wp (if decide (h <= i + d < e) then want_at (i + d) else blank 32) Q v'.
Proof.
  intros G' [S' _ _ Out] Hh He Hi Hd HQ. unfold slid, moved in HQ. rewrite Z2Nat.id in HQ by lia. destruct (decide _) as [Hin|Hin].
  - apply (wp_want_at s X o0); [done|lia|]. intros c Hc. rewrite Out, ?Z2Nat.id in Hc by (rewrite ?Z2Nat.id; [done|lia]).
    by rewrite Hc in HQ.
  - apply wp_blank; [apply G'|]. by rewrite (st_pen _ _ S').
Qed.

(** Cells [h..e-1] end a line. *)
Definition ends_line (h e : Z) : Prop := exists r, r * s_cols s <= h < e /\ e = (r + 1) * s_cols s.

Lemma ends_line_last h e i : ends_line h e -> h <= i < e -> (i + 1) mod s_cols s = 0 -> i = e - 1.
Proof.
  intros (r & Hh & ->) Hi Hm. destruct (decide (i + 1 = (r + 1) * s_cols s)) as [|Hn]; [lia|exfalso].
  replace (i + 1) with (i + 1 - r * s_cols s + r * s_cols s) in Hm by lia.
  rewrite Z.mod_add, Z.mod_small in Hm by lia. lia.
Qed.

(** Moving characters cuts no wide one in half but the one that comes to the
    end of the line. *)
Lemma slid_sits v h e d i :
  G v -> 0 <= h -> ends_line h e -> h <= i < e ->
  (forall c, h <= e - 1 + d < e -> want v !! Z.to_nat (e - 1 + d) = Some c -> wide s (ch c) = false) -> sits s i (slid h e d v i).
Proof.
  intros H Hh He Hi Hd Hw Hm. apply (ends_line_last h e) in Hm as ->; [|done|done]. revert Hw. apply not_true_iff_false.
  unfold slid, moved. rewrite Z2Nat.id by lia.
  assert (wide s (ch (inked (the_pen v) 32)) = false) as Hb by (rewrite inked_ch; apply narrow_blank, H).
  destruct (decide _) as [Hin|]; [|done]. destruct (want v !! _) eqn:E; [|done]. by apply Hd.
Qed.

(** The loop that deletes characters, up to cell [k]. *)
Lemma delete_loop_ok v h k e n (Q : unit -> vga -> Prop) :
  G v -> 0 <= h -> ends_line h e -> k <= e -> e <= area s -> 1 <= n -> (h < k -> k - 1 + n < 2 ^ 31) ->
  (forall v', G v' -> painted (slid h e n v) (range h k) v v' -> Q tt v') ->
  wp (for_each (range h k) (fun i => c ← (j ← lift (as_int (i + n)); if j <? e then want_at j else blank 32); set_want i c)) Q v.
Proof.
  intros H Hh Hhe Hk He Hn Hmax HQ. apply (paint_ok s X o0 (slid h e n v)); [done| | |done].
  { intros i Hi%elem_of_range. split; [lia|]. apply slid_sits; [done|done|done|lia|lia]. }
  intros don i todo v2 El G2 P2. assert (h <= i < k) as Hi by (apply elem_of_range; rewrite El; set_solver).
  apply range_split in El. wp_step. eapply wp_lift; [apply as_int_in; lia|].
  replace (if i + n <? e then want_at (i + n) else blank 32) with (if decide (h <= i + n < e) then want_at (i + n) else blank 32)
    by (destruct (decide _), (Z.ltb_spec (i + n) e); done || lia).
  eapply (slide_read v v2 h e n don i); [done|done|lia|done|lia|rewrite El, elem_of_range; lia|done].
Qed.

Lemma slid_steady h e d v v1 : steady v v1 -> slid h e d v1 = slid h e d v.
Proof. intros (S1 & W1 & _). unfold slid. by rewrite W1, (st_pen _ _ S1). Qed.

Lemma painted_steady f l v v1 v2 : steady v v1 -> painted f l v1 v2 -> painted f l v v2.
Proof.
  intros (S1 & W1 & Sh1) [P2 Q2 I2 O2]. split; [by etrans|congruence|done|]. intros j Hj. rewrite O2 by done. by rewrite W1.
Qed.

Lemma delete_chars_ok v h e n (Q : unit -> vga -> Prop) :
  G v -> 0 <= h -> ends_line h e -> e <= area s -> 1 <= n -> e - 1 + n < 2 ^ 31 ->
  (forall v', G v' -> repainted (slid h e n v) h e v v' -> Q tt v') -> wp (delete_chars h e n) Q v.
Proof.
  intros H Hh Hl He Hn Hmax HQ. unfold delete_chars. wp_step. apply (uncursor_ok s X o0); [done|]. intros v1 G1 S1 _.
  wp_step. apply delete_loop_ok; [done|done|done|lia..|]. intros v2 G2 P2. rewrite (slid_steady _ _ _ v v1 S1) in P2.
  apply (refresh_ok s X o0); [done|lia|done|]. intros v3 G3 R3. apply HQ; [done|].
  eapply (painted_refreshed _ (range h e) _ _ v v2 v2); [intros; apply elem_of_range|by eapply painted_steady|done|done].
Qed.

Lemma for_each_app {A} (l1 l2 : list A) (f : A -> M vga unit) v :
  for_each (l1 ++ l2) f v = match for_each l1 f v with Some (_, v1) => for_each l2 f v1 | None => None end.
Proof.
  revert v. induction l1 as [|x l1 IH]; intros v; [done|]. cbn [for_each app]. unfold mbind, M_bind.
  destruct (f x v) as [[[] v1]|]; [apply IH|done].
Qed.

(** A count that makes an int overflow. *)
Lemma delete_chars_faults v h e n :
  G v -> 0 <= h -> ends_line h e -> e <= area s -> 1 <= n < 2 ^ 31 -> 2 ^ 31 <= e - 1 + n -> delete_chars h e n v = None.
Proof.
  intros H Hh Hl He Hn Hmax. assert (h < e) by (destruct Hl; lia). pose proof (g_sane _ _ _ _ H) as (Hc & Hr & _).
  assert (area s < 2 ^ 31) by (unfold area; nia). set (i := Z.max h (2 ^ 31 - n)).
  assert (h <= i < e) as Hi by lia.
  assert (wp uncursor (fun _ v1 => G v1) v) as [[] [v1 [E1 G1]]]%wp_run by (apply (uncursor_ok s X o0); [done|]; by intros).
  unfold delete_chars. unfold mbind at 1, M_bind at 1. rewrite E1.
  set (body := fun i => c ← (j ← lift (as_int (i + n)); if j <? e then want_at j else blank 32); set_want i c).
  assert (wp (for_each (range h i) body) (fun _ _ => True) v1) as [[] [v2 [E2 _]]]%wp_run.
  { apply delete_loop_ok; [done|done|done|lia..|done]. }
  assert (range h e = range h i ++ i :: range (i + 1) e) as ->.
  { rewrite <- range_cons by lia. unfold range. replace (e - h) with ((i - h) + (e - i)) by lia.
    rewrite seqZ_app by lia. do 2 f_equal. lia. }
  assert (body i v2 = None) as Eb.
  { unfold body, mbind, M_bind, lift. by rewrite as_int_out by lia. }
  unfold mbind, M_bind. rewrite for_each_app, E2. cbn [for_each]. unfold mbind, M_bind. by rewrite Eb.
Qed.

Lemma insert_blanks_ok v h e n (Q : unit -> vga -> Prop) :
  G v -> 0 <= h -> ends_line h e -> e <= area s -> 1 <= n ->
  (forall c, h <= e - 1 - n -> want v !! Z.to_nat (e - 1 - n) = Some c -> wide s (ch c) = false) ->
  (forall v', G v' -> repainted (slid h e (- n) v) h e v v' -> Q tt v') -> wp (insert_blanks h e n) Q v.
Proof.
  intros H Hh Hl He Hn Hcut HQ. unfold insert_blanks. wp_step. apply (uncursor_ok s X o0); [done|]. intros v1 G1 S1 _.
  assert (forall i, i ∈ rev (range h e) <-> h <= i < e) as Hrev.
  { intros i. rewrite <- elem_of_range, list_elem_of_In, <- in_rev. by rewrite <- list_elem_of_In. }
  wp_step. apply (paint_ok s X o0 (slid h e (- n) v)); [done| | |].
  { intros i Hi%Hrev. split; [lia|]. apply slid_sits; [done|done|done|done|]. intros c ?. rewrite Z.add_opp_r. apply Hcut. lia. }
  - intros don i todo v2 El G2 P2. assert (h <= i < e) as Hi by (apply Hrev; rewrite El; set_solver).
    replace (if h <=? i - n then want_at (i - n) else blank 32) with (if decide (h <= i + - n < e) then want_at (i + - n) else blank 32)
      by (rewrite Z.add_opp_r; destruct (decide _), (Z.leb_spec h (i - n)); done || lia).
    eapply (slide_read v v2 h e (- n) don i); [done|by eapply painted_steady|lia|done|done| |done].
    apply (f_equal (@rev Z)) in El. rewrite rev_involutive, rev_app_distr in El. simpl in El. rewrite <- app_assoc in El. simpl in El.
    pose proof (NoDup_seqZ h (e - h)) as Hnd. fold (range h e) in Hnd. rewrite El in Hnd. pose proof (range_split _ _ _ _ _ El) as Et.
    rewrite Et in Hnd. apply NoDup_app in Hnd as (_ & Hdis & _). intros Hin.
    destruct (decide (h <= i + - n)) as [Hge|Hlt].
    + apply (Hdis (i + - n)); [apply elem_of_range; lia|]. right. apply list_elem_of_In, in_rev. rewrite rev_involutive. by apply list_elem_of_In.
    + assert (i + - n ∈ range h e) as Hr%elem_of_range; [|lia]. rewrite El. apply elem_of_app. right. right.
      apply list_elem_of_In, in_rev. rewrite rev_involutive. by apply list_elem_of_In.
  - intros v2 G2 P2. apply (refresh_ok s X o0); [done|lia|done|]. intros v3 G3 R3. apply HQ; [done|].
    eapply (painted_refreshed _ (rev (range h e)) _ _ v v2 v2); [done|by eapply painted_steady|done|done].
Qed.

(** The count of an escape sequence: its first parameter, or 1. *)
Definition count (q : parser) : Z :=
  let p0 := default 0 (elem (params q) 0) in if (0 <? nparams q) && (0 <? p0) then p0 else 1.

(** The greatest number computed when a byte of an escape sequence comes:
    a parameter one digit longer, or the cell a count away. *)
Definition top (v : vga) (c : Z) : Z :=
  let q := the_parser v in
  if (48 <=? c) && (c <=? 57) then
    default 0 (elem (params q) (if nparams q =? 0 then 0 else nparams q - 1)) * 10 + (c - 48)
  else if private_seq q then 0
  else if c =? 66 then row v + count q
  else if c =? 67 then col v + count q
  else if c =? 88 then here v + count q
  else if c =? 80 then line_end v - 1 + count q
  else 0.

(** Inserting blanks pushes no wide character into the last column. *)
Definition uncut (v : vga) (c : Z) : Prop :=
  state (the_parser v) = CSI -> c = 64 -> private_seq (the_parser v) = false ->
  let i := line_end v - 1 - count (the_parser v) in
  here v <= i -> forall w, want v !! Z.to_nat i = Some w -> wide (scr v) (ch w) = false.

Lemma count_bound q : parser_ok q -> 1 <= count q < 2 ^ 31.
Proof.
  intros Hq. destruct (param_total q 0 Hq) as [p E]; [lia|]. pose proof Hq as (_ & _ & _ & Hp). unfold count. rewrite E. simpl.
  apply elem_Some in E as [_ E]. rewrite Forall_forall in Hp. pose proof (Hp p ltac:(by eapply list_elem_of_lookup_2)) as Hb.
  unfold int31 in Hb. destruct (0 <? nparams q), (Z.ltb_spec 0 p); simpl; lia.
Qed.

(** The cells from the cursor to the end of its line. *)
Lemma here_line v : term v -> 0 <= here v /\ ends_line (here v) (line_end v) /\ line_end v <= area s.
Proof.
  intros T. pose proof (t_grid v T) as HG. pose proof (g_sane _ _ _ _ HG) as (Hc & Hr & _). pose proof (t_row v T). pose proof (t_col v T).
  unfold here, line_end, at_col, area. rewrite (g_cols _ _ _ _ HG).
  assert (0 <= (if col v <? s_cols s then col v else s_cols s - 1) < s_cols s) by (destruct (Z.ltb_spec (col v) (s_cols s)); lia).
  split_and!; [nia| |nia]. exists (row v). nia.
Qed.

Lemma csi_go v r c (Q : unit -> vga -> Prop) :
  term v -> 0 <= r < s_rows s -> 0 <= c <= s_cols s ->
  (forall v', term v' -> the_parser v' = the_parser v -> Q tt v') -> wp (modify (set_pos r c)) Q v.
Proof. intros T Hr Hc HQ. wp_step. apply HQ; [by apply term_pos|done]. Qed.

Lemma csi_clear v lo hi (Q : unit -> vga -> Prop) :
  term v -> 0 <= lo -> hi <= area s ->
  (forall v', term v' -> the_parser v' = the_parser v -> Q tt v') -> wp (clear_cells lo hi) Q v.
Proof.
  intros T Hlo Hhi HQ. apply (clear_cells_ok s X o0); [apply T|done|done|]. intros v' G' R'.
  apply HQ; [by eapply term_repainted|]. apply (rp_still _ _ _ _ _ R').
Qed.

Lemma csi_shift v top bottom n (Q : unit -> vga -> Prop) :
  term v -> 0 <= top -> top <= bottom <= s_rows s -> - (bottom - top) <= n <= bottom - top ->
  (forall v', term v' -> the_parser v' = the_parser v -> Q tt v') -> wp (shift_lines top bottom n) Q v.
Proof.
  intros T Ht Hb Hn HQ. apply (shift_lines_ok s X o0); [apply T|done|done|done|]. intros v' G' R'.
  apply HQ; [by eapply term_scrolled|]. apply (sc_still _ _ _ _ _ _ R').
Qed.

Lemma term_out v o : term v -> fits s o -> term (set_outs (outs v ++ [o]) v).
Proof. intros [] ?. split; try done. by apply grid_out. Qed.

Lemma csi_ok v c (Q : unit -> vga -> Prop) :
  term v -> state (the_parser v) = CSI -> top v c < 2 ^ 31 -> uncut v c -> 64 <= c ->
  (forall v', term v' -> the_parser v' = the_parser v -> Q tt v') -> wp (csi c) Q v.
Proof.
  intros T Hcsi Htop Hcut H64 HQ. destruct (here_line v T) as (_ & Hline & _). pose proof (t_grid v T) as HG. pose proof (g_sane _ _ _ _ HG) as (Hc & Hr & _).
  pose proof (t_row v T) as Tr. pose proof (t_col v T) as Tc. pose proof (t_parser v T) as Tp.
  unfold csi. do 2 wp_step. destruct (param_total _ 0 Tp) as [p0 E0]; [lia|]. destruct (param_total _ 1 Tp) as [p1 E1]; [lia|].
  wp_step. eapply wp_lift; [exact E0|]. wp_step. eapply wp_lift; [exact E1|].
  assert (0 <= at_col v < s_cols s) as Ha.
  { unfold at_col. rewrite (g_cols _ _ _ _ HG). destruct (Z.ltb_spec (col v) (s_cols s)); lia. }
  assert (here v = row v * s_cols s + at_col v) as Hh by (unfold here; by rewrite (g_cols _ _ _ _ HG)).
  assert (line_end v = row v * s_cols s + s_cols s) as He by (unfold line_end; rewrite (g_cols _ _ _ _ HG); lia).
  assert (0 <= row v * s_cols s /\ row v * s_cols s + s_cols s <= area s) as [H0 Hend] by (unfold area; nia).
  replace (if (0 <? nparams (the_parser v)) && (0 <? p0) then p0 else 1) with (count (the_parser v)) by (unfold count; by rewrite E0).
  pose proof (count_bound _ Tp) as [Hn _]. unfold top in Htop. unfold uncut in Hcut. set (n := count (the_parser v)) in *.
  replace (c <=? 57) with false in Htop by (symmetry; rewrite Z.leb_gt; lia). rewrite andb_false_r in Htop.
  rewrite (g_cols _ _ _ _ HG), (g_rows _ _ _ _ HG). fold (area s).
  pose proof (fun x => clamp_bound x 0 (s_rows s - 1)) as Cr. pose proof (fun x => clamp_bound x 0 (s_cols s - 1)) as Cc.
  pose proof (clamp_bound n 1 (s_rows s - row v)) as C1. pose proof (clamp_bound n 1 (s_rows s)) as C2.
  destruct (private_seq _).
  { wp_step; [|by apply HQ]. wp_step. apply HQ; [|done]. destruct T. split; try done. by apply (grid_frame v); try done; apply HG. }
  assert (forall x y, wp (modify (set_pos (clamp x 0 (s_rows s - 1)) (clamp y 0 (s_cols s - 1)))) Q v) as Goto.
  { intros x y. specialize (Cr x). specialize (Cc y). apply csi_go; [done|lia|lia|done]. }
  assert (forall x, wp (modify (set_pos (clamp x 0 (s_rows s - 1)) (col v))) Q v) as Gor.
  { intros x. specialize (Cr x). apply csi_go; [done|lia|lia|done]. }
  assert (forall y, wp (modify (set_pos (row v) (clamp y 0 (s_cols s - 1)))) Q v) as Goc.
  { intros y. specialize (Cc y). apply csi_go; [done|lia|lia|done]. }
  assert ((c = 66 -> row v + n < 2 ^ 31) /\ (c = 67 -> col v + n < 2 ^ 31) /\ (c = 88 -> here v + n < 2 ^ 31)
          /\ (c = 80 -> line_end v - 1 + n < 2 ^ 31)) as (H66 & H67 & H88 & H80) by (split_and!; intros ->; exact Htop).
  clear Htop. case_match; [by auto|].
  destruct (Z.eqb_spec c 66); [wp_step; eapply wp_lift; [apply as_int_in; lia|]; by auto|].
  destruct (Z.eqb_spec c 67); [wp_step; eapply wp_lift; [apply as_int_in; lia|]; by auto|].
  do 4 (case_match; [by auto|]).
  case_match; [repeat case_match; (apply csi_clear; [done|lia|lia|done])|].
  case_match; [repeat case_match; (apply csi_clear; [done|lia|lia|done])|].
  destruct (Z.eqb_spec c 88).
  { wp_step. eapply wp_lift; [apply as_int_in; lia|].
    apply csi_clear; [done|lia|case_match; rewrite ?Z.ltb_lt in *; lia|done]. }
  destruct (Z.eqb_spec c 80).
  { apply delete_chars_ok; [done|lia|done|lia|done|by apply H80|]. intros v' G' R'.
    apply HQ; [by eapply term_repainted|apply (rp_still _ _ _ _ _ R')]. }
  destruct (Z.eqb_spec c 64) as [->|].
  { apply insert_blanks_ok; [done|lia|done|lia|done| |].
    { intros w Hi. rewrite <- (g_scr _ _ _ _ HG). by apply Hcut. }
    intros v' G' R'.
    apply HQ; [by eapply term_repainted|apply (rp_still _ _ _ _ _ R')]. }
  do 4 (case_match; [apply csi_shift; [done|lia|lia|lia|done]|]).
  case_match.
  { unfold sgr. do 2 wp_step. destruct (sgr_loop_ok 17 (the_parser v) 0 (the_pen v)) as (k & Ek & Hk); [done|lia|lia|apply HG|].
    wp_step. eapply wp_lift; [done|]. wp_step. apply HQ; [by apply term_pen|done]. }
  case_match.
  { wp_step. apply HQ; [|done]. destruct T. split; try done. by apply (grid_frame v); try done; apply HG. }
  case_match; [apply Goto|]. case_match; [|wp_step; by apply HQ].
  case_match.
  - destruct (position_report_ok (row v) (at_col v)) as (a & b & _ & _ & Er); [lia|lia|]. wp_step. eapply wp_lift; [done|].
    unfold out_. wp_step. apply HQ; [by apply term_out|done].
  - wp_step; [|by apply HQ]. unfold out_. wp_step. apply HQ; [by apply term_out|done].
Qed.

(** ** Bytes *)

Lemma wp_on_parser v f (Q : unit -> vga -> Prop) :
  term v -> parser_ok (f (the_parser v)) -> (forall v', term v' -> Q tt v') -> wp (on_parser f) Q v.
Proof. intros T Hf HQ. unfold on_parser. wp_step. by apply HQ, term_parser. Qed.

Lemma esc_char_ok v c (Q : unit -> vga -> Prop) : term v -> (forall v', term v' -> Q tt v') -> wp (esc_char c) Q v.
Proof.
  intros T HQ. pose proof (t_grid v T) as HG. pose proof (g_sane _ _ _ _ HG) as (Hc & Hr & _). pose proof (t_row v T). pose proof (t_col v T).
  unfold esc_char. case_match.
  { apply wp_on_parser; [done| |done]. destruct (t_parser v T) as (_ & _ & ? & _). unfold parser_ok. simpl.
    split_and!; [done|lia|lia|lia|lia|]. by repeat constructor. }
  do 2 wp_step. rewrite (g_cols _ _ _ _ HG), (g_rows _ _ _ _ HG). fold (area s). wp_step.
  apply (wp_mono _ (fun _ => term)); last first.
  { intros [] v1 T1. apply wp_on_parser; [done|apply T1|done]. }
  case_match.
  - wp_step. wp_step. wp_step. apply csi_clear; [|lia|lia|].
    + destruct T. split; try done. by apply (grid_frame v).
    + intros v1 T1 _. wp_step. apply term_pos; [done|lia|lia].
  - case_match; [|by wp_step]. destruct (Z.eqb_spec (row v) 0).
    + apply csi_shift; [done|lia|lia|lia|done].
    + wp_step. apply term_pos; [done|lia|lia].
Qed.

Lemma top_digit v c p :
  (48 <=? c) && (c <=? 57) = true -> elem (params (the_parser v)) (if nparams (the_parser v) =? 0 then 0 else nparams (the_parser v) - 1) = Some p ->
  top v c = p * 10 + (c - 48).
Proof. intros Hc E. unfold top. by rewrite Hc, E. Qed.

Lemma csi_char_ok v c (Q : unit -> vga -> Prop) :
  term v -> state (the_parser v) = CSI -> top v c < 2 ^ 31 -> uncut v c -> (forall v', term v' -> Q tt v') -> wp (csi_char c) Q v.
Proof.
  intros T Hcsi Htop Hcut HQ. pose proof (t_parser v T) as Tp. pose proof Tp as (Hl & Hn & Hu & Hp). unfold csi_char. do 2 wp_step.
  set (n := if nparams (the_parser v) =? 0 then 1 else nparams (the_parser v)).
  assert (1 <= n <= 16) by (unfold n; destruct (Z.eqb_spec (nparams (the_parser v)) 0); lia).
  case_match.
  { destruct (param_total _ (n - 1) Tp) as [p Ep]; [lia|]. wp_step. eapply wp_lift; [done|].
    assert (0 <= p < 2 ^ 31) as Hpb.
    { apply elem_Some in Ep as [_ Ep]. rewrite Forall_forall in Hp. apply (Hp p). by eapply list_elem_of_lookup_2. }
    rewrite (top_digit v c p) in Htop; [|done|by unfold n in Ep; destruct (nparams _ =? 0)]. rewrite andb_true_iff, !Z.leb_le in *.
    do 2 (wp_step; eapply wp_lift; [apply as_int_in; lia|]).
    apply wp_on_parser; [done| |done]. unfold parser_ok. simpl. rewrite length_insert. split_and!; try (done || lia).
    apply Forall_insert; [done|]. unfold int31. lia. }
  case_match; [apply wp_on_parser; [done| |done]; unfold parser_ok; simpl; split_and!; try done; destruct (Z.ltb_spec n 16); lia|].
  case_match; [by apply wp_on_parser|].
  wp_step; [|by apply HQ]. rewrite andb_true_iff, !Z.leb_le in *. wp_step. apply csi_ok; [done|done|done|done|lia|]. intros v1 T1 _. apply wp_on_parser; [done|apply T1|done].
Qed.

Lemma plain_char_ok v c (Q : unit -> vga -> Prop) : term v -> (forall v', term v' -> Q tt v') -> wp (plain_char c) Q v.
Proof.
  intros T HQ. pose proof (t_row v T). pose proof (t_col v T). pose proof (g_cols _ _ _ _ (t_grid v T)) as Ec.
  unfold plain_char. case_match.
  { apply wp_on_parser; [done| |done]. destruct (t_parser v T) as (? & ? & _ & ?). unfold parser_ok. simpl. split_and!; try done; repeat case_match; lia. }
  case_match; [apply wp_on_parser; [done|apply T|done]|].
  case_match; [apply newline_ok; [done|]; intros v' T' _ _ _; by apply HQ|].
  case_match; [wp_step; apply HQ, term_pos; [done|done|lia]|].
  case_match; [wp_step; apply HQ, term_pos; [done|done|destruct (Z.ltb_spec 0 (col v)); lia]|].
  case_match.
  { do 4 wp_step. change (cols (set_pos (row v) (Z.land (col v + 8) (Z.lnot 7)) v)) with (cols v). rewrite Ec. simpl.
    wp_step; rewrite ?Z.leb_le, ?Z.leb_gt in *.
    - do 2 wp_step. apply newline_ok; [|intros v' T' _ _ _; by apply HQ].
      apply (term_pos v); [done|done|lia].
    - apply HQ, term_pos; [done|done|]. split; [apply Z.land_nonneg; lia|lia]. }
  wp_step; [|by apply HQ]. apply print_ok; [done|]. intros v' T' _ _. by apply HQ.
Qed.

Lemma normal_char_ok v c (Q : unit -> vga -> Prop) : term v -> (forall v', term v' -> Q tt v') -> wp (normal_char c) Q v.
Proof.
  intros T HQ. pose proof (t_parser v T) as (Hl & Hn & Hu & Hp). unfold normal_char. do 2 wp_step.
  destruct (Z.ltb_spec 0 (utf8_left (the_parser v))); [|by apply plain_char_ok]. case_match.
  - wp_step. apply wp_on_parser; [done|unfold parser_ok; simpl; split_and!; done || lia|]. intros v1 T1.
    wp_step; [|by apply HQ]. apply print_ok; [done|]. intros v' T' _ _. by apply HQ.
  - wp_step. apply wp_on_parser; [done|unfold parser_ok; simpl; split_and!; done || lia|]. intros v1 T1.
    wp_step. apply print_ok; [done|]. intros v2 T2 _ _. by apply plain_char_ok.
Qed.

(** The byte makes no int overflow. *)
Definition harmless (v : vga) (c : Z) : Prop := state (the_parser v) = CSI -> top v c < 2 ^ 31.

Lemma vga_putc_ok v c (Q : unit -> vga -> Prop) :
  term v -> harmless v c -> uncut v c -> (forall v', term v' -> Q tt v') -> wp (vga_putc c) Q v.
Proof.
  intros T Hs Hcut HQ. unfold vga_putc. wp_step. apply (wp_mono _ (fun _ => term)).
  - unfold putc_now. do 2 wp_step. unfold harmless in Hs. destruct (state _) eqn:E.
    + by apply normal_char_ok.
    + by apply esc_char_ok.
    + apply csi_char_ok; auto.
  - intros [] v1 T1. do 2 wp_step. wp_step; [|by apply HQ].
    apply (place_cursor_ok s X o0); [apply T1|apply T1|apply T1|]. intros v2 G2 (S2 & W2 & Sh2).
    apply HQ, (term_still v1); [done|done|done|]. unfold synced. rewrite W2, Sh2. apply T1.
Qed.
End Terminal.
