(* ===== verification/VgaProps.v ===== *)
(** * What the terminal emulator guarantees

    The claims about vga.c: which bytes are safe, that the text mode's memory
    always shows the cells, printing, UTF-8, scrolling, reports, screen
    switches and the nearest colors. *)
From S2P Require Import Prelude CString Printf Vga VgaGrid VgaOk.

(** ** Boot *)

(** Cells no one has drawn yet. *)
Definition undrawn (c : vcell) : Prop := c = MkCell 0 0 0.

Lemma text_sane : screen_ok text_screen.
Proof. unfold screen_ok, text_screen. simpl. split_and!; try lia; done. Qed.

Lemma boot_term : term text_screen undrawn [] vga_boot.
Proof.
  split; [|done|simpl; lia|simpl; lia|].
  - split; [done|apply text_sane|done|done|by left|done| |by split; intros ? ? ? ?|by exists []].
    intros _. split; [done|]. intros i c Hc. right. by apply lookup_replicate in Hc as [-> _].
  - unfold parser_ok. simpl. split_and!; try lia; try done. repeat constructor; unfold int31; lia.
Qed.

(** ** Which bytes are safe *)

Lemma digit_faults v c :
  parser_ok (the_parser v) -> (48 <=? c) && (c <=? 57) = true -> 2 ^ 31 <= top v c -> csi_char c v = None.
Proof.
  intros Hq Hc Ht. pose proof Hq as (_ & Hn & _ & Hp). unfold csi_char, mbind, M_bind, get. rewrite Hc.
  replace ((if nparams (the_parser v) =? 0 then 1 else nparams (the_parser v)) - 1)
    with (if nparams (the_parser v) =? 0 then 0 else nparams (the_parser v) - 1) by (by destruct (nparams _ =? 0)).
  destruct (param_total (the_parser v) (if nparams (the_parser v) =? 0 then 0 else nparams (the_parser v) - 1)) as [p E]; [done|case_match; lia|].
  rewrite (top_digit v c p Hc E) in Ht. unfold lift. rewrite E. destruct (as_int (p * 10)) as [x|] eqn:Ex; [|done].
  assert (x = p * 10) as -> by (unfold as_int in Ex; by case_match; simplify_eq). by rewrite as_int_out by lia.
Qed.

Lemma final_faults s X o0 v c :
  term s X o0 v -> (48 <=? c) && (c <=? 57) = false -> 2 ^ 31 <= top v c -> csi_char c v = None.
Proof.
  intros T Hc Ht. pose proof (t_parser _ _ _ _ T) as Tp. destruct (here_line s X o0 v T) as (? & ? & ?). pose proof (count_bound _ Tp).
  destruct (param_total _ 0 Tp) as [p0 E0]; [lia|]. destruct (param_total _ 1 Tp) as [p1 E1]; [lia|].
  unfold top in Ht. rewrite Hc in Ht. destruct (private_seq (the_parser v)) eqn:Ep; [lia|].
  assert ((if (0 <? nparams (the_parser v)) && (0 <? p0) then p0 else 1) = count (the_parser v)) as En by (unfold count; by rewrite E0).
  assert (csi c v = None -> (c = 66 \/ c = 67 \/ c = 88 \/ c = 80) -> csi_char c v = None) as Hcsi.
  { intros Ec [-> |[-> |[-> | ->]]]; unfold csi_char, mbind, M_bind, get; cbn [Z.leb Z.compare Pos.compare Pos.compare_cont andb Z.eqb Pos.eqb when];
      unfold mbind, M_bind; by rewrite Ec. }
  destruct (Z.eqb_spec c 66) as [->|]; [|destruct (Z.eqb_spec c 67) as [->|]; [|destruct (Z.eqb_spec c 88) as [->|]; [|destruct (Z.eqb_spec c 80) as [->|]; [|lia]]]];
    (apply Hcsi; [|tauto]); unfold csi, mbind, M_bind, get, lift; rewrite E0, E1, Ep, En; cbn [Z.eqb Pos.eqb orb]; unfold mbind, M_bind.
  4: by apply (delete_chars_faults s X o0); [apply T|..].
  all: by rewrite as_int_out.
Qed.

#[export] Instance esc_state_eq_dec : EqDecision esc_state.
Proof. solve_decision. Defined.

#[export] Instance harmless_dec v c : Decision (harmless v c).
Proof. unfold harmless. apply _. Defined.

Lemma harmful s X o0 v c : term s X o0 v -> ~ harmless v c -> vga_putc c v = None.
Proof.
  intros T Hn. destruct (decide (state (the_parser v) = CSI)) as [Hs|Hs]; [|by destruct Hn; intros ?].
  assert (2 ^ 31 <= top v c) as Ht by (destruct (decide (top v c < 2 ^ 31)); [by destruct Hn; intros ?|lia]).
  assert (csi_char c v = None) as E.
  { destruct ((48 <=? c) && (c <=? 57)) eqn:Hc; [by apply digit_faults; [apply T|..]|by eapply final_faults]. }
  unfold vga_putc, putc_now, mbind, M_bind, get. by rewrite Hs, E.
Qed.

(** ** A wide character cut in half *)

(** The cell wanted at [j] stays. *)
Definition same_at (j : nat) (v v' : vga) : Prop := want v' !! j = want v !! j.

#[export] Instance same_at_preorder j : PreOrder (same_at j).
Proof. split; [by intros ?|]. intros a b c H1 H2. unfold same_at in *. congruence. Qed.

Lemma draw_keeps j c r d b : upholds (same_at j) (draw c r d b).
Proof. unfold draw, text_draw, out_. upholding. Qed.
#[export] Hint Resolve draw_keeps : upholds.

Lemma draw_shown_keeps j c r b : upholds (same_at j) (draw_shown c r b).
Proof. unfold draw_shown, shown_at. upholding. Qed.
#[export] Hint Resolve draw_shown_keeps : upholds.

Lemma uncursor_keeps j : upholds (same_at j) uncursor.
Proof. unfold uncursor. upholding. Qed.

Lemma place_cursor_keeps j : upholds (same_at j) place_cursor.
Proof. unfold place_cursor, move_hw_cursor, out_. upholding. Qed.

Lemma refresh_keeps j lo hi : upholds (same_at j) (refresh lo hi).
Proof.
  apply (upholds_for_each _). intros i _. unfold refresh1, want_at, shown_at, set_shown, shown_at. upholding.
Qed.

Lemma set_want_keeps j i c : i <> Z.of_nat j -> 0 <= i -> upholds (same_at j) (set_want i c).
Proof.
  intros Hi ?. unfold set_want, want_at. upholding. apply upholds_modify. intros v. unfold same_at. simpl. apply list_lookup_insert_ne. lia.
Qed.

(** Inserting blanks moves the character [n] before the end of the line to
    its end. *)
Lemma insert_blanks_pushes h e n v x v' w :
  0 <= h -> 1 <= n -> h <= e - 1 - n -> e <= Z.of_nat (length (want v)) -> want v !! Z.to_nat (e - 1 - n) = Some w ->
  insert_blanks h e n v = Some (x, v') -> want v' !! Z.to_nat (e - 1) = Some w.
Proof.
  intros Hh Hn Hi He Hw. unfold insert_blanks.
  assert (range h e = range h (e - 1) ++ [e - 1]) as -> by (rewrite <- range_snoc by lia; f_equal; lia). rewrite rev_app_distr. cbn [rev app for_each]. rewrite !(proj2 (Z.leb_le h _)) by lia.
  set (rest := for_each _ _). unfold mbind, M_bind.
  destruct (uncursor v) as [[[] v1]|] eqn:E1; [|done]. pose proof (uncursor_keeps (Z.to_nat (e - 1 - n)) v tt v1 E1) as K1.
  pose proof (uncursor_keeps (Z.to_nat (e - 1)) v tt v1 E1) as L1. unfold same_at in K1, L1. rewrite Hw in K1.
  unfold want_at at 1, get, lift, mbind, M_bind. rewrite (proj2 (elem_Some _ _ _)) by (split; [lia|exact K1]).
  destruct (set_want (e - 1) w v1) as [[[] v2]|] eqn:E2; [|done].
  destruct (rest v2) as [[[] v3]|] eqn:E3; [|done]. intros E4.
  assert (want v2 !! Z.to_nat (e - 1) = Some w) as W2.
  { unfold set_want, want_at, get, lift, mbind, M_bind, modify in E2. destruct (elem (want v1) (e - 1)) eqn:El; [|done].
    injection E2 as <-. simpl. apply list_lookup_insert_eq. apply elem_Some in El as [_ El]. by eapply lookup_lt_Some. }
  rewrite (refresh_keeps (Z.to_nat (e - 1)) _ _ _ _ _ E4), <- W2.
  enough (upholds (same_at (Z.to_nat (e - 1))) rest) as K by exact (K _ _ _ E3). apply (upholds_for_each _). intros i Hin. apply list_elem_of_In, in_rev, list_elem_of_In, elem_of_range in Hin.
  apply (upholds_bind _); [unfold want_at, blank; upholding|]. intros c. apply set_want_keeps; lia.
Qed.

Lemma cut_when_pushed s X o0 v v' :
  term s X o0 v -> vga_putc 64 v = Some (tt, v') -> term s X o0 v' -> uncut v 64.
Proof.
  intros T E T' Hs _ Hp i Hi w Hw. pose proof (t_grid _ _ _ _ T) as HG. pose proof (t_parser _ _ _ _ T) as Tp.
  destruct (here_line s X o0 v T) as (? & (r & Hr & Ee) & ?). pose proof (count_bound _ Tp).
  destruct (param_total _ 0 Tp) as [p0 E0]; [lia|]. destruct (param_total _ 1 Tp) as [p1 E1]; [lia|].
  assert (csi 64 v = insert_blanks (here v) (line_end v) (count (the_parser v)) v) as Ec.
  { unfold csi, mbind, M_bind, get, lift, count. rewrite E0, E1, Hp. done. }
  unfold vga_putc, putc_now, csi_char, mbind, M_bind, get in E. rewrite Hs in E. cbn [Z.leb Z.compare Pos.compare Pos.compare_cont andb Z.eqb Pos.eqb when] in E.
  unfold mbind, M_bind in E. rewrite Ec in E. destruct (insert_blanks _ _ _ v) as [[[] v1]|] eqn:Ei; [|done].
  assert (want v1 !! Z.to_nat (line_end v - 1) = Some w) as W1.
  { eapply insert_blanks_pushes; [..|exact Ei]; try done; try lia. rewrite (g_want _ _ _ _ HG). lia. }
  assert (want v' !! Z.to_nat (line_end v - 1) = Some w) as W'.
  { rewrite <- W1. change (place_cursor (set_parser (set_state NORMAL (the_parser v1)) v1) = Some (tt, v')) in E.
    exact (place_cursor_keeps (Z.to_nat (line_end v - 1)) _ _ _ E). }
  destruct (g_whole _ _ _ _ (t_grid _ _ _ _ T')) as [Hwhole _]. apply Hwhole in W'. rewrite Z2Nat.id in W' by lia.
  rewrite (g_scr _ _ _ _ HG). apply not_true_iff_false. intros Hwide. apply (W' Hwide). rewrite Ee, Z.sub_add. apply Z.mod_mul.
  pose proof (g_sane _ _ _ _ HG) as (? & _). lia.
Qed.

(** C3: from any state the terminal can be in, writing a byte returns and
    leaves such a state, with every access inside its array and both cells of
    every character drawn on the screen, exactly when the byte makes no int
    overflow (a digit of a parameter, or the count of ESC [ n B, C, X or P)
    and, if it is the @ of ESC [ n @, pushes no wide character into the last
    column. *)
Theorem terminal_safe_exactly s X o0 v c :
  term s X o0 v -> (exists v', vga_putc c v = Some (tt, v') /\ term s X o0 v') <-> harmless v c /\ uncut v c.
Proof.
  intros T. split.
  - intros (v' & E & T'). split.
    + destruct (decide (harmless v c)) as [|Hn]; [done|]. by rewrite (harmful s X o0) in E.
    + intros Hs ->. by eapply cut_when_pushed.
  - intros [Hc Hu]. assert (wp (vga_putc c) (fun _ => term s X o0) v) as ([] & v' & H)%wp_run by (by apply (vga_putc_ok s X o0)). eauto.
Qed.

Lemma terminal_safe_exactly_witness :
  (exists v', vga_putc 65 vga_boot = Some (tt, v') /\ term text_screen undrawn [] v') <-> harmless vga_boot 65 /\ uncut vga_boot 65.
Proof. apply (terminal_safe_exactly text_screen undrawn [] vga_boot 65), boot_term. Defined.

(** ** Text mode: the memory shows the cells *)

(** The whole screen drawn afresh. *)
Definition redrawn (v : vga) : option (list Z) := mapM text_word (want v).

(** No cell is undrawn any more. *)
Definition none (c : vcell) : Prop := False.

Lemma mirror_exact o0 v : term text_screen none o0 v -> redrawn v = Some (vmem v).
Proof.
  intros T. pose proof (t_grid _ _ _ _ T) as [_ _ Hw _ _ _ Hm _ _]. destruct (Hm eq_refl) as [Hl Hmi].
  unfold redrawn. apply mapM_Some. apply Forall2_same_length_lookup. split; [unfold area in Hw; simpl in Hw; lia|].
  intros i c w Hc Hv. rewrite <- (t_synced _ _ _ _ T) in Hc. destruct (Hmi i c Hc) as [E|[]]. congruence.
Qed.

Lemma grid_drawn_all s X Y o0 v : grid s X o0 v -> (forall c, c ∈ shown v -> X c -> Y c) -> grid s Y o0 v.
Proof.
  intros [] HX. split; try done. intros Ht. destruct (g_mem Ht) as [Hl Hm]. split; [done|]. intros i c Hc.
  destruct (Hm i c Hc); [by left|right]. apply HX; [by eapply list_elem_of_lookup_2|done].
Qed.

Lemma terminal_clear_ok X o0 v (Q : unit -> vga -> Prop) :
  term text_screen X o0 v -> (forall c, X c -> ch c <> 32) ->
  (forall v', term text_screen none o0 v' -> want v' = replicate 2000 (inked (the_pen v) 32) -> Q tt v') -> wp terminal_clear Q v.
Proof.
  intros T HX HQ. pose proof (t_grid _ _ _ _ T) as HG. unfold terminal_clear. do 2 wp_step.
  rewrite (g_cols _ _ _ _ HG), (g_rows _ _ _ _ HG). wp_step.
  apply (clear_cells_ok text_screen X o0); [done|lia|done|]. intros v1 G1 R1.
  assert (synced v1) as E1 by (eapply repainted_synced; [done|apply T]).
  assert (want v1 = replicate 2000 (inked (the_pen v) 32)) as W1.
  { apply list_eq_same_length with 2000%nat; [by rewrite length_replicate|pose proof (g_want _ _ _ _ G1) as Hl; unfold area in Hl; simpl in Hl; lia|].
    intros i x y Hi Hx Hy. apply lookup_replicate in Hy as [-> _]. destruct (rp_in _ _ _ _ _ R1 i) as [E _]; [simpl; lia|]. congruence. }
  do 2 wp_step. assert (term text_screen X o0 v1) as T1 by (by eapply term_repainted).
  assert (term text_screen none o0 (set_pos 0 0 v1)) as T2.
  { apply term_pos; [|simpl; lia|simpl; lia]. destruct T1. split; try done. apply (grid_drawn_all _ X); [done|].
    intros c Hc Hx. apply (HX c Hx). rewrite E1, W1 in Hc. apply elem_of_replicate in Hc as [-> _]. apply inked_ch. }
  apply (place_cursor_ok text_screen none o0); [apply T2|simpl; lia|simpl; lia|]. intros v3 G3 (S3 & W3 & Sh3). apply HQ.
  - apply (term_still text_screen none o0 (set_pos 0 0 v1)); [done|done|done|]. unfold synced. by rewrite W3, Sh3.
  - by rewrite W3.
Qed.

(** Bytes written one after the other in text mode: either all are, and the
    invariant holds, or one of them makes an int overflow. *)
Lemma session_ok X o0 l v :
  let s := text_screen in term s X o0 v ->
  match for_each l vga_putc v with
  | Some (_, v') => term s X o0 v'
  | None => exists l1 c l2 v1, l = l1 ++ c :: l2 /\ for_each l1 vga_putc v = Some (tt, v1) /\ ~ harmless v1 c
  end.
Proof.
  intros s. revert v. induction l as [|c l IH]; intros v T; [done|]. cbn [for_each]. unfold mbind, M_bind.
  assert (uncut v c) by (intros _ _ _ i _ w _; by rewrite (g_scr _ _ _ _ (t_grid _ _ _ _ T))).
  destruct (decide (harmless v c)) as [Hc|Hc].
  - assert (wp (vga_putc c) (fun _ => term s X o0) v) as ([] & v1 & E1 & T1)%wp_run by (by apply (vga_putc_ok s X o0)).
    rewrite E1. specialize (IH v1 T1). destruct (for_each l vga_putc v1) as [[[] v2]|]; [done|].
    destruct IH as (l1 & d & l2 & v2 & -> & E2 & Hd). exists (c :: l1), d, l2, v2. split_and!; [done| |done].
    cbn [for_each]. unfold mbind, M_bind. by rewrite E1.
  - rewrite (harmful s X o0) by done. by exists [], c, l, v.
Qed.

(** C10: in text mode the emulator draws only the cells that changed, yet
    after the screen is cleared video memory holds, whatever bytes are
    written, what drawing every cell of the grid afresh would put there;
    unless one of the bytes makes an int overflow, where the emulator's
    behaviour is undefined. *)
Theorem drawing_changes_is_enough X o0 v l :
  term text_screen X o0 v -> (forall c, X c -> ch c <> 32) ->
  exists v0, terminal_clear v = Some (tt, v0) /\
  match for_each l vga_putc v0 with
  | Some (_, v') => redrawn v' = Some (vmem v')
  | None => exists l1 c l2 v1, l = l1 ++ c :: l2 /\ for_each l1 vga_putc v0 = Some (tt, v1) /\ ~ harmless v1 c
  end.
Proof.
  intros T HX. assert (wp terminal_clear (fun _ => term text_screen none o0) v) as ([] & v0 & E0 & T0)%wp_run.
  { apply (terminal_clear_ok X o0); [done|done|]. by intros. }
  exists v0. split; [done|]. pose proof (session_ok _ _ l _ T0) as H.
  destruct (for_each l vga_putc v0) as [[[] v']|]; [by eapply mirror_exact|done].
Qed.

Lemma drawing_changes_is_enough_witness :
  exists v0, terminal_clear vga_boot = Some (tt, v0) /\
  match for_each (chr "hello") vga_putc v0 with
  | Some (_, v') => redrawn v' = Some (vmem v')
  | None => exists l1 c l2 v1, chr "hello" = l1 ++ c :: l2 /\ for_each l1 vga_putc v0 = Some (tt, v1) /\ ~ harmless v1 c
  end.
Proof. apply (drawing_changes_is_enough undrawn [] vga_boot (chr "hello")); [apply boot_term|by intros c ->]. Defined.

(** ** UTF-8 *)

Lemma lor_shift6 a b : 0 <= b < 64 -> Z.lor (Z.shiftl a 6) b = a * 64 + b.
Proof.
  intros Hb. rewrite Z.shiftl_mul_pow2 by lia. change (2 ^ 6) with 64. symmetry.
  assert (Z.land (a * 64) b = 0) as E; [|by rewrite <- Z.lxor_lor, Z.add_nocarry_lxor].
  apply Z.bits_inj'. intros i Hi. rewrite Z.land_spec, Z.bits_0. change 64 with (2 ^ 6). destruct (Z.lt_ge_cases i 6).
  - by rewrite Z.mul_pow2_bits_low.
  - replace b with (b mod 2 ^ 6) by (apply Z.mod_small; lia). rewrite Z.mod_pow2_bits_high by lia. apply andb_false_r.
Qed.

(** The standard encoding of a character. *)
Definition utf8_encode (u : Z) : list Z :=
  let tail k := 128 + u / k mod 64 in
  if u <? 128 then [u]
  else if u <? 2048 then [192 + u / 64; tail 1]
  else if u <? 65536 then [224 + u / 4096; tail 64; tail 1]
  else [240 + u / 262144; tail 4096; tail 64; tail 1].

Definition between (v : vga) : Prop := state (the_parser v) = NORMAL /\ utf8_left (the_parser v) = 0.

Lemma lead_byte v k c :
  between v -> k = (if 240 <=? c then 3 else if 224 <=? c then 2 else 1) -> 192 <= c < 248 ->
  putc_now c v = Some (tt, set_parser (set_utf8 (c mod 2 ^ (6 - k)) k (the_parser v)) v).
Proof.
  intros [Hs Hl] Hk Hc. unfold putc_now, normal_char, plain_char, mbind, M_bind, get. rewrite Hs, Hl. simpl.
  rewrite (proj2 (Z.leb_le _ _)), (proj2 (Z.ltb_lt _ _)) by lia. simpl. rewrite <- Hk. unfold on_parser, modify. simpl.
  assert (Z.shiftr 63 k = Z.ones (6 - k) /\ 0 <= 6 - k) as [-> ?] by (rewrite Hk; repeat case_match; done).
  by rewrite Z.land_ones by done.
Qed.

(** A byte that continues a character. *)
Lemma more_byte v k u b :
  state (the_parser v) = NORMAL -> 0 < k -> 0 <= u < 2 ^ 24 -> 0 <= b < 64 ->
  putc_now (128 + b) (set_parser (set_utf8 u k (the_parser v)) v)
  = (if k =? 1 then print (u * 64 + b) else mret tt) (set_parser (set_utf8 (u * 64 + b) (k - 1) (the_parser v)) v).
Proof.
  intros Hs Hk Hu Hb. unfold putc_now, normal_char, mbind, M_bind, get. simpl. rewrite Hs. simpl.
  rewrite (proj2 (Z.ltb_lt _ _)) by done.
  assert (Z.land (128 + b) 192 =? 128 = true /\ Z.land (128 + b) 63 = b) as [-> ->].
  { revert b Hb. apply lookup_by_range. refine (bool_decide_unpack _ _). vm_compute. exact I. }
  rewrite lor_shift6 by done. unfold u32. rewrite Z.mod_small by lia. unfold on_parser, modify, when. simpl.
  destruct (Z.eqb_spec (k - 1) 0), (Z.eqb_spec k 1); done || lia.
Qed.

Lemma for_each_last (f : Z -> M vga unit) c v : for_each [c] f v = f c v.
Proof. cbn [for_each]. unfold mbind, M_bind. by destruct (f c v) as [[[] ?]|]. Qed.

Lemma for_each_step (f : Z -> M vga unit) c l v v' : f c v = Some (tt, v') -> for_each (c :: l) f v = for_each l f v'.
Proof. intros E. cbn [for_each]. unfold mbind, M_bind. by rewrite E. Qed.

Lemma ascii_byte v c : between v -> 32 <= c < 128 -> putc_now c v = print c v.
Proof.
  intros [Hs Hl] Hc. unfold putc_now, normal_char, plain_char, mbind, M_bind, get. rewrite Hs, Hl.
  destruct (Z.leb_spec 192 c); [lia|]. simpl. repeat (rewrite (proj2 (Z.eqb_neq c _)) by lia).
  by rewrite (proj2 (Z.leb_le 32 c)), (proj2 (Z.ltb_lt c 128)) by lia.
Qed.

Lemma utf8_ok v u :
  between v -> 32 <= u < 1114112 ->
  exists x, for_each (utf8_encode u) putc_now v = print u (set_parser (set_utf8 x 0 (the_parser v)) v).
Proof.
  intros Hv Hu. pose proof Hv as [Hs Hl]. unfold utf8_encode.
  pose proof (fun k => Z.mod_pos_bound (u / k) 64 ltac:(lia)) as Hm.
  destruct (Z.ltb_spec u 128); [|exists u; destruct (Z.ltb_spec u 2048); [|destruct (Z.ltb_spec u 65536)]].
  - exists (utf8 (the_parser v)). rewrite for_each_last, ascii_byte by (done || lia). rewrite <- Hl at 1.
    by replace (set_parser _ v) with v by (by destruct v as [? ? ? ? ? ? ? ? ? ? ? [] ? ? ?]).
  - assert (u / 64 < 32) by (apply Z.div_lt_upper_bound; lia). pose proof (Z.div_pos u 64).
    erewrite for_each_step by (apply (lead_byte v 1); [done|repeat case_match; lia|lia]).
    rewrite for_each_last, more_byte by (done || lia_div). simpl. do 3 f_equal. all: lia_div.
  - erewrite for_each_step by (apply (lead_byte v 2); [done|repeat case_match; lia_div|lia_div]).
    erewrite for_each_step by (rewrite more_byte by (done || lia_div); done).
    rewrite for_each_last, more_byte by (done || lia_div). simpl. do 3 f_equal. all: lia_div.
  - erewrite for_each_step by (apply (lead_byte v 3); [done|repeat case_match; lia_div|lia_div]).
    do 2 (erewrite for_each_step by (rewrite more_byte by (done || lia_div); done)).
    rewrite for_each_last, more_byte by (done || lia_div). simpl. do 3 f_equal. all: lia_div.
Qed.

(** C28: the bytes of any character's UTF-8 encoding, of one to four bytes,
    print exactly that character, and leave the decoder ready for the next. *)
Theorem utf8_prints_the_character v u :
  between v -> 32 <= u < 1114112 ->
  exists x, for_each (utf8_encode u) putc_now v = print u (set_parser (set_utf8 x 0 (the_parser v)) v).
Proof. apply utf8_ok. Qed.

Lemma utf8_prints_the_character_witness :
  exists x, for_each [226; 130; 172] putc_now vga_boot = print 8364 (set_parser (set_utf8 x 0 (the_parser vga_boot)) vga_boot).
Proof. apply (utf8_prints_the_character vga_boot 8364); [done|lia]. Defined.

(** ** Printing *)

(** on a screen without wide characters, a printable ASCII character
    written when the line has room fills the cell at the cursor with the
    pen's colors, changes no other cell, and moves the cursor one column. *)
Theorem character_lands_at_the_cursor s X o0 v c :
  term s X o0 v -> s_cells s = None -> between v -> 32 <= c < 128 -> col v < s_cols s ->
  (forall w, want v !! Z.to_nat (row v * s_cols s + col v) = Some w -> ch w <> VCELL_TAIL) ->
  exists v', vga_putc c v = Some (tt, v') /\ want v' = <[Z.to_nat (row v * s_cols s + col v) := inked (the_pen v) c]> (want v)
    /\ shown v' = want v' /\ row v' = row v /\ col v' = col v + 1.
Proof.
  intros T Hn Hb Hc Hcol Ht. pose proof Hb as [Hs _].
  assert (wp (print c) (fun _ v1 => term s X o0 v1 /\ the_parser v1 = the_parser v
     /\ want v1 = <[Z.to_nat (row v * s_cols s + col v) := inked (the_pen v) c]> (want v) /\ row v1 = row v /\ col v1 = col v + 1) v)
    as ([] & v1 & E1 & T1 & P1 & W1 & R1 & C1)%wp_run.
  { apply (print_ok s X o0); [done|]. intros v1 T1 P1 H1. destruct H1 as (? & ? & ?); [done|done|done|]. by split_and!. }
  assert (wp place_cursor (fun _ v2 => steady v1 v2) v1) as ([] & v2 & E2 & S2 & W2 & Sh2)%wp_run.
  { apply (place_cursor_ok s X o0); [apply T1|apply T1|apply T1|]. by intros. }
  exists v2. destruct (st_pos _ _ S2) as [-> ->]. split_and!; [|congruence|rewrite Sh2, W2; apply T1|done|done].
  unfold vga_putc, mbind, M_bind. rewrite ascii_byte, E1 by done. unfold get. by rewrite P1, Hs.
Qed.

Lemma character_lands_at_the_cursor_witness :
  exists v', vga_putc 65 vga_boot = Some (tt, v') /\ want v' = <[0%nat := inked (the_pen vga_boot) 65]> (want vga_boot)
    /\ shown v' = want v' /\ row v' = 0 /\ col v' = 1.
Proof.
  apply (character_lands_at_the_cursor text_screen undrawn [] vga_boot 65);
    [apply boot_term|done|done|lia|simpl; lia|intros w [= <-]; done].
Defined.

(** ** Scrolling *)

(** shift_lines moves lines top..bottom-1 up by n (down by -n), fills
    the lines that come in with blanks in the pen's colors, shows all of it
    and leaves every other line as it was. *)
Theorem scrolling_moves_lines s X o0 v top bottom n :
  term s X o0 v -> 0 <= top <= bottom -> bottom <= s_rows s -> - (bottom - top) <= n <= bottom - top ->
  exists v', shift_lines top bottom n v = Some (tt, v') /\ term s X o0 v' /\ forall j : nat,
    want v' !! j = if decide (top * s_cols s <= Z.of_nat j < bottom * s_cols s)
                   then moved (top * s_cols s) (bottom * s_cols s) (n * s_cols s) (inked (the_pen v) 32) (want v) j
                   else want v !! j.
Proof.
  intros T Ht Hb Hn.
  assert (wp (shift_lines top bottom n) (fun _ v' => grid s X o0 v' /\ scrolled s top bottom n v v') v) as ([] & v' & E & G' & S')%wp_run.
  { apply (shift_lines_ok s X o0); [apply T|lia|lia|lia|]. by intros. }
  exists v'. split_and!; [done|by eapply term_scrolled|]. intros j.
  destruct (decide _) as [Hj|Hj]; [by apply (sc_in _ _ _ _ _ _ S')|by apply (sc_out _ _ _ _ _ _ S')].
Qed.

Lemma scrolling_moves_lines_witness :
  exists v', shift_lines 3 10 (-2) vga_boot = Some (tt, v') /\ term text_screen undrawn [] v' /\ forall j : nat,
    want v' !! j = if decide (240 <= Z.of_nat j < 800)
                   then moved 240 800 (-160) (inked (the_pen vga_boot) 32) (want vga_boot) j
                   else want vga_boot !! j.
Proof. apply (scrolling_moves_lines text_screen undrawn [] vga_boot 3 10 (-2)); [apply boot_term|lia|simpl; lia|lia]. Defined.

(** ** Reports *)

(** the answer to ESC [ 6 n is ESC [ r ; c R, where r and c are the
    decimal numerals of the cursor's line and column counted from 1, and the
    24-byte buffer is enough for it on any screen. *)
Theorem cursor_report_reads_back s X o0 v :
  term s X o0 v -> private_seq (the_parser v) = false -> reply v = true -> elem (params (the_parser v)) 0 = Some 6 ->
  exists a b, numeral 10 (row v + 1) a /\ numeral 10 (at_col v + 1) b
    /\ csi 110 v = Some (tt, set_outs (outs v ++ [Reply ([27; 91] ++ a ++ [59] ++ b ++ [82])]) v).
Proof.
  intros T Hp Hr E0. pose proof (t_grid _ _ _ _ T) as HG. pose proof (g_sane _ _ _ _ HG) as (Hc & Hrows & _).
  pose proof (t_row _ _ _ _ T). pose proof (t_col _ _ _ _ T). destruct (param_total _ 1 (t_parser _ _ _ _ T)) as [p1 E1]; [lia|].
  destruct (position_report_ok (row v) (at_col v)) as (a & b & Na & Nb & E); [lia| |].
  { unfold at_col. rewrite (g_cols _ _ _ _ HG). destruct (Z.ltb_spec (col v) (s_cols s)); lia. }
  exists a, b. split_and!; [done|done|]. unfold csi, mbind, M_bind, get, lift. rewrite E0, E1, Hp, Hr.
  cbn [Z.eqb Pos.eqb orb andb]. unfold mbind, M_bind, lift. by rewrite E.
Qed.

Definition asked : vga := set_reply true (set_parser (MkParser CSI (6 :: replicate 15 0) 1 false 0 0) vga_boot).

Lemma asked_term : term text_screen undrawn [] asked.
Proof.
  assert (term text_screen undrawn [] (set_parser (MkParser CSI (6 :: replicate 15 0) 1 false 0 0) vga_boot)) as [HG ? ? ? ?].
  { apply term_parser; [apply boot_term|]. unfold parser_ok. simpl. split_and!; try lia; try done. repeat constructor; unfold int31; lia. }
  split; try done. eapply grid_frame; [exact HG|done..].
Qed.

Lemma cursor_report_reads_back_witness :
  exists a b, numeral 10 1 a /\ numeral 10 1 b
    /\ csi 110 asked = Some (tt, set_outs (outs asked ++ [Reply ([27; 91] ++ a ++ [59] ++ b ++ [82])]) asked).
Proof. apply (cursor_report_reads_back text_screen undrawn [] asked); [apply asked_term|done|done|done]. Defined.

(** ** Colors *)

(** The search loop, between the colors seen and those to come. *)
Lemma best_of_ok rgb seen todo best bestd :
  (seen = [] /\ bestd < 0 \/ 0 <= bestd /\ exists c, elem seen best = Some c /\ bestd = distance rgb c /\ forall c', c' ∈ seen -> bestd <= distance rgb c') ->
  seen ++ todo <> [] ->
  exists c, elem (seen ++ todo) (best_of rgb todo (Z.of_nat (length seen)) best bestd) = Some c
    /\ forall c', c' ∈ seen ++ todo -> distance rgb c <= distance rgb c'.
Proof.
  revert seen best bestd. induction todo as [|d todo IH]; intros seen best bestd Hinv Hne.
  { rewrite app_nil_r in *. destruct Hinv as [[-> _]|(_ & c & Hc & -> & Hmin)]; [done|]. by exists c. }
  cbn [best_of]. assert (0 <= distance rgb d) as Hd by (unfold distance; repeat apply Z.add_nonneg_nonneg; apply Z.square_nonneg).
  replace (seen ++ d :: todo) with ((seen ++ [d]) ++ todo) in * by (by rewrite <- app_assoc).
  replace (Z.of_nat (length seen) + 1) with (Z.of_nat (length (seen ++ [d]))) by (rewrite length_app; simpl; lia).
  destruct ((bestd <? 0) || (distance rgb d <? bestd)) eqn:E; (apply IH; [right|done]).
  - split; [done|]. exists d. split_and!; [apply elem_Some; split; [lia|]; rewrite Nat2Z.id; by apply list_lookup_middle|done|].
    intros c' [Hc| ->%list_elem_of_singleton]%elem_of_app; [|lia].
    destruct Hinv as [[-> _]|(? & c & _ & -> & Hmin)]; [by apply not_elem_of_nil in Hc|]. specialize (Hmin c' Hc).
    rewrite orb_true_iff, !Z.ltb_lt in E. lia.
  - rewrite orb_false_iff, !Z.ltb_ge in E. destruct Hinv as [[_ ?]|(? & c & Hc & -> & Hmin)]; [lia|].
    split; [done|]. exists c. split_and!; [|done|].
    + apply elem_Some in Hc as [? Hc]. apply elem_Some. split; [done|]. by apply lookup_app_l_Some.
    + intros c' [Hc'| ->%list_elem_of_singleton]%elem_of_app; [by apply Hmin|lia].
Qed.

(** the text attribute chosen for a 24-bit color is that of one of the
    16 colors nearest to it: no other is at a smaller distance. *)
Theorem nearest16_is_nearest rgb :
  exists i c a, elem ansi i = Some c /\ (forall c', c' ∈ ansi -> distance rgb c <= distance rgb c')
    /\ elem ansi_vga (i mod 8) = Some a /\ nearest16 rgb = Some (Z.lor a (Z.land i 8)).
Proof.
  destruct (best_of_ok rgb [] ansi 0 (-1)) as (c & Hc & Hmin); [left; done|done|]. simpl length in Hc. simpl app in Hc.
  destruct (nearest16_total rgb) as [x Hx]. pose proof Hx as Hy. unfold nearest16 in Hy. set (i := best_of rgb ansi 0 0 (-1)) in *.
  destruct (elem ansi_vga (Z.land i 7)) as [a|] eqn:Ea; [|done].
  exists i, c, a. split_and!; [done|done| |by rewrite Hx].
  change 8 with (2 ^ 3). rewrite <- Z.land_ones by lia. done.
Qed.

(** ** Switching screens *)

Lemma carried_total v s s' X o0 e i :
  grid s X o0 v -> screen_ok s' -> 0 <= i < area s' -> is_Some (carried v s' e i).
Proof.
  intros HG Hs' Hi. pose proof (index_cell s' i Hs' Hi) as [Hm Hd]. unfold carried.
  rewrite (g_cols _ _ _ _ HG), (g_rows _ _ _ _ HG). destruct (_ && _) eqn:E; [|by eexists].
  rewrite andb_true_iff, !Z.ltb_lt in E. apply elem_total. rewrite (g_want _ _ _ _ HG). apply cell_index; lia.
Qed.

(** No wide character comes to stand in the new screen's last column. *)
Definition carries_whole (v : vga) (s : screen) : Prop :=
  forall i c, carried v s (inked (the_pen v) 32) i = Some c -> sits s i c.

Lemma set_screen_ok s s' X o0 v :
  term s X o0 v -> screen_ok s' -> s_text s' = false -> carries_whole v s' ->
  wp (vga_set_screen true s') (fun r v' => r = 0 /\ term s' X (outs v) v' /\ forall i, 0 <= i < area s' ->
      want v' !! Z.to_nat i = carried v s' (inked (the_pen v) 32) i) v.
Proof.
  intros T Hs' Ht Hcw. pose proof (t_grid _ _ _ _ T) as HG. pose proof Hs' as (Hc & Hr & _).
  assert (0 <= area s') by (unfold area; nia).
  unfold vga_set_screen. do 2 wp_step. wp_step. apply wp_blank; [apply HG|]. fold (area s'). simpl negb. cbv iota.
  assert (is_Some (mapM (carried v s' (inked (the_pen v) 32)) (range 0 (area s')))) as [w Hw].
  { apply mapM_is_Some, Forall_forall. intros i Hi%elem_of_range. by eapply carried_total. }
  wp_step. eapply wp_lift; [done|]. do 4 wp_step. apply mapM_Some in Hw. pose proof (Forall2_length _ _ _ Hw) as Hl.
  rewrite length_range, Z.sub_0_r in Hl. set (v1 := set_cur _ _ _).
  assert (grid s' X (outs v) v1) as G1.
  { split; [done|done|simpl; lia|simpl; rewrite length_replicate; unfold area; lia|by left|apply HG|intros ?; congruence| |].
    { split; intros j c Hj; simpl in Hj.
      - destruct (Forall2_lookup_r _ _ _ _ _ Hw Hj) as (i & Hi & Ei). unfold range in Hi. apply lookup_seqZ in Hi as [-> _]. by apply Hcw.
      - apply lookup_replicate in Hj as [-> _]. by apply sits_narrow, narrow_null. }
    exists []. by rewrite app_nil_r. }
  wp_step. apply (refresh_ok s' X (outs v)); [done|lia|lia|]. intros v2 G2 R2.
  assert (term s' X (outs v) v2) as T2.
  { pose proof (rf_still _ _ _ _ R2) as [[Er Ec] _ _ Ep _].
    split; [done| |rewrite Er; unfold v1, rows; simpl|rewrite Ec; unfold v1, cols; simpl|rewrite Ep; apply T].
    - apply list_eq. intros j. rewrite (rf_want _ _ _ _ R2). destruct (decide (0 <= Z.of_nat j < area s')) as [Hj|Hj]; [by apply R2|].
      rewrite (rf_out _ _ _ _ R2) by done. pose proof (g_want _ _ _ _ G1). pose proof (g_shown _ _ _ _ G1).
      rewrite !lookup_ge_None_2 by lia. done.
    - pose proof (clamp_bound (row v) 0 (s_rows s' - 1)). lia.
    - pose proof (clamp_bound (col v) 0 (s_cols s' - 1)). lia. }
  wp_step. apply (place_cursor_ok s' X (outs v)); [done|apply T2|apply T2|]. intros v3 G3 (S3 & W3 & Sh3). wp_step. split_and!; [done| |].
  - apply (term_still s' X (outs v) v2); [done|done|done|]. unfold synced. rewrite W3, Sh3. apply T2.
  - intros i Hi. rewrite W3, (rf_want _ _ _ _ R2). simpl.
    assert (range 0 (area s') !! Z.to_nat i = Some i) as Hri by (unfold range; apply lookup_seqZ; lia).
    destruct (Forall2_lookup_l _ _ _ _ _ Hw Hri) as (x & Hx & Ex). congruence.
Qed.

(** switching to a graphics screen of any size, where no wide character would
    stand in its last column, keeps what was on the old
    one, cell for cell at the top left, blanks the rest, shows all of it and
    moves the cursor onto the new screen; without memory for the grids it
    answers -1 and changes nothing. *)
Theorem switching_screens_keeps_text s s' X o0 v memory :
  term s X o0 v -> screen_ok s' -> s_text s' = false -> carries_whole v s' ->
  if (memory : bool)
  then exists v', vga_set_screen true s' v = Some (0, v') /\ term s' X (outs v) v' /\ forall i, 0 <= i < area s' ->
         want v' !! Z.to_nat i = carried v s' (inked (the_pen v) 32) i
  else vga_set_screen false s' v = Some (-1, v).
Proof.
  intros T Hs' Ht Hcw. pose proof (t_grid _ _ _ _ T) as HG. destruct memory; [|unfold vga_set_screen].
  - assert (wp (vga_set_screen true s') (fun r v' => r = 0 /\ term s' X (outs v) v' /\ forall i, 0 <= i < area s' ->
      want v' !! Z.to_nat i = carried v s' (inked (the_pen v) 32) i) v) as (r & v' & E & -> & H)%wp_run by (by apply (set_screen_ok s s' X o0)).
    by exists v'.
  - unfold mbind, M_bind, get. destruct (wp_run _ _ _ (wp_blank v 32 (fun _ v' => v' = v) (g_pen _ _ _ _ HG) eq_refl)) as (c & v' & -> & ->). done.
Qed.

Definition wide_screen : screen := MkScreen 128 48 false (Some (fun u => if (0x2E80 <=? u) && (u <? 0xA000) then 2 else 1)).

Lemma wide_sane : screen_ok wide_screen.
Proof.
  unfold screen_ok, wide_screen. simpl. split_and!; try lia; try done.
  intros f [= <-]. split_and!; [|done..]. intros u. case_match; [by right|by left].
Qed.

Lemma boot_carries : carries_whole vga_boot wide_screen.
Proof.
  intros i c Hc. apply sits_narrow. unfold carried in Hc. case_match.
  - apply elem_Some in Hc as [_ Hc]. by apply lookup_replicate in Hc as [-> _].
  - injection Hc as <-. by rewrite inked_ch.
Qed.

Lemma switching_screens_keeps_text_witness :
  exists v', vga_set_screen true wide_screen vga_boot = Some (0, v') /\ term wide_screen undrawn (outs vga_boot) v' /\ forall i, 0 <= i < 128 * 48 ->
    want v' !! Z.to_nat i = carried vga_boot wide_screen (inked (the_pen vga_boot) 32) i.
Proof. apply (switching_screens_keeps_text text_screen wide_screen undrawn [] vga_boot true); [apply boot_term|apply wide_sane|done|apply boot_carries]. Defined.

(** ** A wide character pushed into the last column *)

(** A draw whose second cell lies past the end of the line. *)
Definition overhangs (s : screen) (o : out) : bool :=
  match o with Draw c _ v _ => wide s (ch v) && (s_cols s <=? c + 1) | _ => false end.

(** ESC [ 1;127 H, a wide character, ESC [ 1;127 H, ESC [ @. *)
Definition push_wide : list Z :=
  [27; 91] ++ chr "1;127H" ++ utf8_encode 0x4E00 ++ [27; 91] ++ chr "1;127H" ++ [27; 91] ++ chr "@".

(** Nothing keeps a wide character out of the last column: inserting a blank
    before one that ends a line draws it there, and half of it hangs over. *)
Lemma wide_character_overhangs :
  match (_ ← vga_set_screen true wide_screen; for_each push_wide vga_putc) vga_boot with
  | Some (_, v) => existsb (overhangs wide_screen) (outs v) = true
  | None => False
  end.
Proof. vm_compute. reflexivity. Qed.
